(* ===== verification/_CoqProject ===== *)
-Q . S2P
Prelude.v
Uuid.v
Json.v
Types.v
State.v
Recovery.v
Policy.v
Validation.v
Planning.v
Jsonb.v
Stores.v
Registry.v
Fencing.v
Runtime.v
RuntimeFacts.v
RuntimeRuns.v
Orchestrator.v
OrchestratorFacts.v
OrchestratorRuns.v
Samples.v
KernelTheorems.v
StoreTheorems.v
RuntimeTheorems.v
OrchestratorTheorems.v
ExecutionBackend.v
ExecutionBackendFacts.v
BackendTheorems.v
Supervisor.v
Integrated.v
ControlTheorems.v
Leases.v
Resilience.v
ResilienceFacts.v
ResilienceTheorems.v
PostgresStores.v
Outbox.v
OutboxFacts.v
PostgresExecution.v
OutboxTheorems.v
PostgresFacts.v
PostgresTheorems.v
Automation.v
Operations.v
OperationsFacts.v
OperationsTheorems.v
AutonomousRuns.v
AutonomousEngine.v
AutonomousFacts.v
EngineFacts.v
DurableTheorems.v
SourceLimits.v
SourceStores.v
SourceGateway.v
SourceFacts.v
SourceRegistry.v
SourceAdapters.v
SourceFabric.v
SourceSamples.v
SourceTheorems.v
AdapterFacts.v
FabricFacts.v
FabricTheorems.v
Workers.v
Deployment.v
SemanticWorld.v
Lifecycle.v
LifecycleFacts.v
ProductionTheorems.v
LifecycleTheorems.v
Governance.v
ModelGateway.v
ProductionLoop.v
RoutingTheorems.v
Invocations.v
LlmGateway.v
LlmTheorems.v
OAuth2.v
OAuthTheorems.v
StreamRecovery.v
SourcePipeline.v
