(* ===== verification/Prelude.v ===== *)
(** * Niceone Obsidian: the OIS kernel, modelled and verified

    The program under [src/ois] is an execution kernel for agents: a capability
    is invoked under a policy, a contract and a recovery budget; a plan of tasks
    is run through that runtime with checkpoints after every step; a supervisor
    and a control plane decide what runs next; and durable forms of the stores,
    leases with fencing tokens, a work queue and a side-effect outbox let several
    workers share the work.  The library follows that structure.

    Files and the code they model

    - [Prelude]: outcomes and the state-and-exception monad (a statement that
      raises keeps the mutations made before it), Python values, ordered
      dictionaries, string enumerations, the clock and UUID streams, [ORDER BY],
      [keeps] (relations every run respects) and the shared tactics.  [Uuid] and
      [Json]: the text forms of UUIDs and of JSON (a text is represented by the
      value it denotes).  [Jsonb]: JSONB columns as an interface with laws.
    - [Types]: [kernel/types.py], [kernel/contracts.py].  [State]:
      [kernel/state.py] ([ExecutionContext], [set_status], [to_dict],
      [from_dict]).  [Recovery]: [kernel/recovery.py].  [Policy]:
      [kernel/policy.py], [kernel/cancellation.py].  [Validation]:
      [kernel/validation.py].
    - [Planning]: [kernel/planning.py], [kernel/planner.py].
    - [Stores]: the store protocols of [kernel/checkpoint.py],
      [kernel/evidence.py], [kernel/idempotency.py] as type classes with laws,
      and their in-memory, SQLite and JSON-file implementations as instances;
      [PostgresStores]: those of [kernel/postgres_stores.py].
    - [Registry]: [registries/core.py], [kernel/registry.py].  [Fencing]: the
      lease table of [infrastructure/postgres_fencing.py].
    - [Runtime] (with [RuntimeFacts], [RuntimeRuns]):
      [kernel/runtime.py], proved against the store classes.
    - [Orchestrator] (with [OrchestratorFacts], [OrchestratorRuns]):
      [kernel/orchestrator.py].
    - [Supervisor]: [kernel/supervisor.py].  [Integrated]:
      [control_plane/execution.py] and
      [control_plane/controller.py].
    - [ExecutionBackend] (with [ExecutionBackendFacts]):
      [runtime/execution_backend.py], the SQLite execution store and work queue.
    - [Leases], [Resilience] (with [ResilienceFacts]):
      [kernel/production_resilience.py].
    - [Outbox] (with [OutboxFacts]): [kernel/side_effects.py].
      [PostgresExecution] (with [PostgresFacts]): [kernel/postgres.py],
      [kernel/tenant.py] and the fenced store of
      [infrastructure/postgres_fencing.py].
    - [Automation]: events, triggers, policy, recovery and approvals of
      [autonomy/] with the event outbox of [infrastructure/source_gateway];
      [Operations] (with [OperationsFacts]): [autonomy/loops.py],
      [autonomy/operations.py].  [AutonomousRuns] (with [AutonomousFacts]): the
      tables of [autonomy/durable.py], [autonomy/durable_approvals.py],
      [autonomy/recovery_store.py] and [autonomy/side_effects.py], one function
      per transaction; [AutonomousEngine] (with [EngineFacts]): a
      worker running [autonomy/engine.py] while others change the tables.

    - [SourceLimits], [SourceStores], [SourceGateway] (with [SourceFacts]): the
      ingestion of observations in [infrastructure/source_gateway]: token
      buckets and retries, evidence, ledger, idempotency claims and cursors, and
      the gateway itself over interfaces for claims and evidence sinks.
      [SourceRegistry]: [infrastructure/source_registry.py] and
      [source_health.py].  [SourceAdapters] (with [AdapterFacts]): the adapter
      registry, polling and webhooks of [infrastructure/source_adapters].
      [SourceFabric] (with [FabricFacts]): [infrastructure/source_fabric.py] and
      the socket, over all of these.  [SourceSamples]: concrete inputs.

    - The controls of [src/production].  [Workers]:
      [workers.py], the leased work queue and its worker.  [Deployment]:
      [control_plane.py], [evolution.py] and [rollout.py],
      authorized releases recorded in a hash-linked ledger.  [SemanticWorld]:
      [semantic_world.py] and [knowledge_world.py], two
      stores of facts behind one contract.  [Governance]:
      [governance.py].  [ModelGateway]: [model_gateway.py].
      [ProductionLoop]: [production_loop.py].  [Lifecycle] (with
      [LifecycleFacts]): [ois/control_plane/lifecycle.py], which joins the
      kernel's runtime, the ledger through an instance of the kernel's evidence
      interface, the semantic world, the release plane and the work queue.

    - [Invocations]: [application/state.py], [recovery/engine.py] and
      [infrastructure/postgres_execution.py]: execution states, invocation
      claims and staged effects, which go to the table of [Outbox].
      [LlmGateway]: [runtime/llm_gateway.py] and the model fabric of
      [runtime/fabrics.py], over providers that are arbitrary computations.
      [OAuth2]: [infrastructure/oauth2.py], [oauth2_connection.py] and
      [oauth2_registry.py], over interfaces for the state store, the credential
      store and the secret backend.
      [StreamRecovery]: the recovery engine of [integration/redis_recovery.py],
      over an interface for the commands of a Redis stream.  [SourcePipeline]:
      [runtime/source_pipeline.py], [runtime/source_recovery.py] and
      [control_plane/source_policies.py] and [source_configuration.py].

    A definition has the name of the function it models, or that name with the
    component in front.  A method is a function on the state it reads and
    writes: a field of the source is a field of a record, a table is its map or
    list of rows, a transaction is a function whose exception leaves the tables
    alone.

    What is proved

    - [KernelTheorems]: plans are accepted exactly when well-formed, the ready
      tasks are the runnable ones, checkpoints of plans and contexts round-trip,
      the retry budget is spent exactly and delays are bounded, authorization
      and validation decide what their specifications say.
    - [StoreTheorems]: the store contracts hold of every implementation;
      registries and routing; lease epochs only grow.
    - [RuntimeTheorems]: calls of the runtime are guarded runs, in which every
      check of the fence belongs to the entry or to one write; what a
      success implies; replay under an idempotency key; stale workers change
      nothing.
    - [OrchestratorTheorems]: tasks start only after their dependencies; both
      loops terminate, and a run with working stores ends completed or with a
      failed task, unless a capability keeps the retry loop going by itself
      ([unruly_capability]).  [ControlTheorems]: supervision, agent selection and the
      integrated seam, which also terminates.
    - [BackendTheorems]: the state machines of executions and jobs under any
      interleaving, and the double delivery of two racing claims.
    - [ResilienceTheorems]: superseded Redis leases stay dead; the fenced
      transaction, moment by moment, refines attested moves that commit only
      in the moment after a successful check, and is bounded; two failures
      it does not handle.  [OutboxTheorems]: the outbox's invariant, exclusive
      delivery, draining, redelivery after a late failure.
      [PostgresTheorems]: checkpoints come back, recovery skips corrupted
      snapshots, state and intent are stored together, the fenced store.
    - [OperationsTheorems]: each call does only what its kind may, and actions
      are authorized, approvals are final, events run at most once per workflow,
      the loop against a reference, and what blocks the outbox.
      [DurableTheorems]: each transaction of a worker is a guarded move at its own time, under any
      interleaving (a ghost field of the worker logs the transactions); of two
      starts of an event in one history at most one acts; what a start returns,
      the approval table against the in-memory store, and four failures that are not handled.

    - [SourceTheorems]: ingestion refines its specification over any claims and
      any sink, events and evidence of the ledger correspond one to one, an
      idempotency key is accepted once, and colliding identifiers hide evidence.
      [FabricTheorems]: webhooks pass once, and two ways of losing them; polling
      moves its cursor only over stored records; definitions round-trip and
      each call changes the status of a source only as its kind allows; bounded retries; a
      poll that crosses tenants.

    - [ProductionTheorems]: the state machine of work items, exclusive leases, a
      worker that works the queue off, releases only right after the approval of
      the same change, the rollout against its specification, what the hash
      chain binds, the contract of both fact stores and colliding fact
      identifiers.  [LifecycleTheorems]: the lifecycle against the same approved
      steps, what a returned execution means, shared results, rollouts, and the
      evidence bridge.  [Governance]: the linked history of deployments
      and its rollbacks, the gates of learning, leases and their two races, the
      versions of facts, authorization, canary traffic.  [RoutingTheorems]: the
      model a request is routed to, and what the loop's certificate requires.

    - [Invocations]: execution states and claims under any interleaving,
      an invocation is claimed and staged once and its effect delivered, and what
      a release leaves behind.  [LlmTheorems]: which route a request gets
      whatever the order of registration, what attempts do and record, when a
      request is answered, and the telemetry of the fabric.  [OAuthTheorems]:
      the query of the authorization URL decodes to what was asked for, a state
      is accepted once, credentials keep their scope and survive refreshes, the
      secret store returns what was saved, and three ways in which a connection
      fails.  [StreamRecovery]: no task of a stream is lost under any
      interleaving, an undisturbed recovery pass handles everything that is
      stale within one page more than there are messages, and two ways in which
      stale messages stay.  [SourcePipeline]: what a call of the pipeline does and
      reports, no event is lost while identifiers are unique, what happens when
      they are not, and disabled sources.

    Every theorem with hypotheses has a witness that applies it at a concrete
    input.

    Fuel and bounds

    Each [while] loop takes fuel and answers [None] when it runs out, and a
    theorem says how much is enough: [max(0, max_retries - retry_count) + 1]
    rounds of the retry loop, one more scheduling round than there are tasks,
    one more frame of the cycle search than there are tasks, more turns of the
    integrated loop than [max(0, max_retries)], and [max(0, max_retries) + 1]
    rounds of the fenced transaction.  Floats are binary64 [spec_float]s with
    the rounding of Python; Redis counters stop at [2^63 - 1] and PostgreSQL
    [INTEGER] step indexes are checked, the [attempts] column excepted.

    Not modelled

    - Driver, network and disk errors, except where the source handles them
      ([Resilience]'s world may raise at any input or output); connection
      handling, schema creation, logging, metrics and tracing.
    - Redis, PostgreSQL's JSONB and its reading of UUID and TEXT parameters,
      SHA-256, HMAC and the text form of timestamps are interfaces; laws are
      assumed only where documented, and each is instantiated.  Row-level security is left out.  A row whose value has a
      type the record of the model cannot hold counts as a [TypeError].
    - Capabilities, policies and executors that users plug in are arbitrary
      functions; a capability cannot reach the stores behind the runtime's back.
    - The lease heartbeat is part of the world of [Resilience].  Threads enter
      as interleavings of atomic operations.
    - The thread pool of the polling engine and authentication of outgoing
      requests; adapters for particular providers.
    - Of [src/production]: the Redis, LangGraph, HTTP and telemetry adapters,
      the sandbox probes and the agent fabric.  The coordinator's statements
      are atomic, its claim is two of them.
    - HTTP clients, model providers and the adapters of OAuth providers, domain
      packages, design blueprints, repository governance and certification
      reports are I/O or feature code around the kernel. *)

From stdpp Require Import base gmap strings list sorting pretty relations.
From Stdlib Require Import ZArith Lia Ascii Floats.SpecFloat.

Declare Scope py_scope.
Delimit Scope py_scope with py.
Open Scope string_scope.
Open Scope list_scope.

(** ** Exceptions

    The exception classes the modelled code raises or catches.  Code that is
    plugged in from outside (a capability, a storage driver) may raise any
    other class: [OtherException] carries its name. *)

Inductive exn_class :=
  | ValueError | TypeError | KeyError | LookupError | AttributeError
  | OverflowError | RuntimeError | PermissionError | OSError
  | PolicyError | AuthorizationDenied | AuthorizationError
  | InputValidationError | OutputValidationError
  | PlanError | DuplicateTaskError | UnknownDependencyError | CyclicPlanError
  | RegistryError | DuplicateCapabilityError | CapabilityNotFoundError
  | AgentRoutingError | AmbiguousAgentError
  | CheckpointError | CheckpointNotFound
  | ExecutionError | ExecutionAlreadyCompleted | ExecutionCancellation
  | OrchestrationError | PlanExecutionError
  | SupervisorError | AgentSelectionError
  | TenantContextError | FencingError
  | KernelPanicException | FencingTokenMismatch | LeaseAcquisitionFailed
  | RetryExhaustedException | RecoverySinkUnavailable
  | ExecutionNotFoundError | JobNotFoundError | JobOwnershipError
  | DuplicateExecutionError | DuplicateJobError | InvalidStatusTransitionError
  | OtherException (name : string).

#[export] Instance exn_class_eq_dec : EqDecision exn_class.
Proof. solve_decision. Defined.

(** [type(exc).__name__]. *)
Definition class_name (c : exn_class) : string :=
  match c with
  | ValueError => "ValueError" | TypeError => "TypeError"
  | KeyError => "KeyError" | LookupError => "LookupError"
  | AttributeError => "AttributeError" | OverflowError => "OverflowError"
  | RuntimeError => "RuntimeError" | PermissionError => "PermissionError"
  | OSError => "OSError"
  | PolicyError => "PolicyError" | AuthorizationDenied => "AuthorizationDenied"
  | AuthorizationError => "AuthorizationError"
  | InputValidationError => "InputValidationError"
  | OutputValidationError => "OutputValidationError"
  | PlanError => "PlanError" | DuplicateTaskError => "DuplicateTaskError"
  | UnknownDependencyError => "UnknownDependencyError"
  | CyclicPlanError => "CyclicPlanError"
  | RegistryError => "RegistryError"
  | DuplicateCapabilityError => "DuplicateCapabilityError"
  | CapabilityNotFoundError => "CapabilityNotFoundError"
  | AgentRoutingError => "AgentRoutingError"
  | AmbiguousAgentError => "AmbiguousAgentError"
  | CheckpointError => "CheckpointError"
  | CheckpointNotFound => "CheckpointNotFound"
  | ExecutionError => "ExecutionError"
  | ExecutionAlreadyCompleted => "ExecutionAlreadyCompleted"
  | ExecutionCancellation => "ExecutionCancellation"
  | OrchestrationError => "OrchestrationError"
  | PlanExecutionError => "PlanExecutionError"
  | SupervisorError => "SupervisorError"
  | AgentSelectionError => "AgentSelectionError"
  | TenantContextError => "TenantContextError" | FencingError => "FencingError"
  | KernelPanicException => "KernelPanicException"
  | FencingTokenMismatch => "FencingTokenMismatch"
  | LeaseAcquisitionFailed => "LeaseAcquisitionFailed"
  | RetryExhaustedException => "RetryExhaustedException"
  | RecoverySinkUnavailable => "RecoverySinkUnavailable"
  | ExecutionNotFoundError => "ExecutionNotFoundError"
  | JobNotFoundError => "JobNotFoundError"
  | JobOwnershipError => "JobOwnershipError"
  | DuplicateExecutionError => "DuplicateExecutionError"
  | DuplicateJobError => "DuplicateJobError"
  | InvalidStatusTransitionError => "InvalidStatusTransitionError"
  | OtherException n => n
  end.

Record exn := Exn { exn_cls : exn_class; exn_msg : string }.

#[export] Instance exn_eq_dec : EqDecision exn.
Proof. solve_decision. Defined.

(** ** Outcomes and the state-and-exception monad

    A Python statement that raises keeps every mutation made before it, so a
    computation over a state [S] returns the state also when it raises. *)

Inductive outcome (A : Type) :=
  | Ret (a : A)
  | Raise (e : exn).
Arguments Ret {A} _.
Arguments Raise {A} _.

#[export] Instance outcome_eq_dec {A} `{EqDecision A} : EqDecision (outcome A).
Proof. solve_decision. Defined.

Definition raise {A} (c : exn_class) (msg : string) : outcome A := Raise (Exn c msg).

Definition out_bind {A B} (o : outcome A) (k : A -> outcome B) : outcome B :=
  match o with Ret a => k a | Raise e => Raise e end.

Definition M (S A : Type) : Type := S -> outcome A * S.

Definition ret {S A} (a : A) : M S A := fun s => (Ret a, s).
Definition throw {S A} (e : exn) : M S A := fun s => (Raise e, s).
Definition bind {S A B} (m : M S A) (k : A -> M S B) : M S B :=
  fun s => match m s with
           | (Ret a, s') => k a s'
           | (Raise e, s') => (Raise e, s')
           end.
Definition get {S} : M S S := fun s => (Ret s, s).
Definition modify {S} (f : S -> S) : M S unit := fun s => (Ret tt, f s).
Definition lift {S A} (o : outcome A) : M S A := fun s => (o, s).

(** [try m except (classes selected by p) as exc: h exc]. *)
Definition try_except {S A} (m : M S A) (p : exn -> bool) (h : exn -> M S A) : M S A :=
  fun s => match m s with
           | (Ret a, s') => (Ret a, s')
           | (Raise e, s') => if p e then h e s' else (Raise e, s')
           end.

Notation "x <- c1 ;; c2" := (bind c1 (fun x => c2))
  (at level 100, c1 at next level, right associativity) : py_scope.
Notation "c1 ;;; c2" := (bind c1 (fun _ => c2))
  (at level 100, right associativity) : py_scope.
Notation "x <-? o ;; c2" := (out_bind o (fun x => c2))
  (at level 100, o at next level, right associativity) : py_scope.

(** [isinstance(e, c)] for the two tests of the kernel that are not an exact
    class test. *)
Definition is_class (c : exn_class) (e : exn) : bool := bool_decide (exn_cls e = c).

(** Subclasses of [AgentRoutingError] raised by the registry. *)
Definition is_agent_routing_error (e : exn) : bool :=
  is_class AgentRoutingError e || is_class AmbiguousAgentError e.

(** [except Exception]: the model raises only subclasses of [Exception]. *)
Definition any_exception (_ : exn) : bool := true.

(** Unfold one layer of the monad. *)
Ltac mred := cbv [bind ret throw get modify lift try_except out_bind] in *.

(** ** Python values *)

Unset Elimination Schemes.
Inductive pyval :=
  | VNone
  | VBool (b : bool)
  | VInt (z : Z)
  | VFloat (f : spec_float)
  | VStr (s : string)
  | VList (l : list pyval)
  | VTuple (l : list pyval)
  | VDict (d : list (string * pyval))
  | VObj (name : string).  (** an object JSON cannot represent *)
Set Elimination Schemes.

(** A [dict] with string keys keeps insertion order. *)
Definition dict : Type := list (string * pyval).

Section pyval_induction.
Variable P : pyval -> Prop.
Hypothesis PNone : P VNone.
Hypothesis PBool : forall b, P (VBool b).
Hypothesis PInt : forall z, P (VInt z).
Hypothesis PFloat : forall f, P (VFloat f).
Hypothesis PStr : forall s, P (VStr s).
Hypothesis PList : forall l, Forall P l -> P (VList l).
Hypothesis PTuple : forall l, Forall P l -> P (VTuple l).
Hypothesis PDict : forall d, Forall (fun kv => P (snd kv)) d -> P (VDict d).
Hypothesis PObj : forall n, P (VObj n).

Fixpoint pyval_ind (v : pyval) : P v :=
  let fix all l : Forall P l :=
    match l with
    | [] => @List.Forall_nil _ P
    | x :: l => @List.Forall_cons _ P x l (pyval_ind x) (all l)
    end in
  let fix all_snd d : Forall (fun kv : string * pyval => P (snd kv)) d :=
    match d with
    | [] => @List.Forall_nil _ _
    | kv :: d => @List.Forall_cons _ _ kv d (pyval_ind (snd kv)) (all_snd d)
    end in
  match v with
  | VNone => PNone
  | VBool b => PBool b
  | VInt z => PInt z
  | VFloat f => PFloat f
  | VStr s => PStr s
  | VList l => PList l (all l)
  | VTuple l => PTuple l (all l)
  | VDict d => PDict d (all_snd d)
  | VObj n => PObj n
  end.
End pyval_induction.

#[export] Instance spec_float_eq_dec : EqDecision spec_float.
Proof. solve_decision. Defined.

#[export] Instance pyval_eq_dec : EqDecision pyval.
Proof.
  refine (fix go (x y : pyval) : Decision (x = y) :=
    let _ : EqDecision pyval := go in
    match x, y with
    | VNone, VNone => left eq_refl
    | VBool a, VBool b => cast_if (decide (a = b))
    | VInt a, VInt b => cast_if (decide (a = b))
    | VFloat a, VFloat b => cast_if (decide (a = b))
    | VStr a, VStr b => cast_if (decide (a = b))
    | VList a, VList b => cast_if (decide (a = b))
    | VTuple a, VTuple b => cast_if (decide (a = b))
    | VDict a, VDict b => cast_if (decide (a = b))
    | VObj a, VObj b => cast_if (decide (a = b))
    | _, _ => right _
    end); abstract congruence.
Defined.

(** [bool(v)]. *)
Definition truthy (v : pyval) : bool :=
  match v with
  | VNone => false
  | VBool b => b
  | VInt z => negb (z =? 0)%Z
  | VFloat f => match f with S754_zero _ => false | _ => true end
  | VStr s => negb (bool_decide (s = ""))
  | VList l | VTuple l => negb (bool_decide (l = []))
  | VDict d => negb (bool_decide (d = []))
  | VObj _ => true
  end.

(** ** Ordered dictionaries

    [d[k] = v] overwrites in place when the key is there and appends otherwise;
    both the plan's task table and JSON objects rely on that order. *)

Section odict.
Context {V : Type}.
Implicit Types d : list (string * V).

Fixpoint dget (k : string) d : option V :=
  match d with
  | [] => None
  | (k', v) :: d => if String.eqb k k' then Some v else dget k d
  end.

Fixpoint dset (k : string) (v : V) d : list (string * V) :=
  match d with
  | [] => [(k, v)]
  | (k', v') :: d => if String.eqb k k' then (k', v) :: d else (k', v') :: dset k v d
  end.

(** [d.get(k, default)] *)
Definition dget_or (k : string) (v : V) d : V := default v (dget k d).
(** [k in d] *)
Definition dmem (k : string) d : bool := bool_decide (is_Some (dget k d)).
Definition dkeys d : list string := map fst d.
Definition dvalues d : list V := map snd d.
(** The representation invariant of a dictionary. *)
Definition dict_ok d : Prop := NoDup (dkeys d).
(** Replace the value of every entry: [for v in d.values(): mutate v]. *)
Definition dmap (f : V -> V) d : list (string * V) := map (fun kv => (fst kv, f (snd kv))) d.

Lemma dget_dset_eq k v d : dget k (dset k v d) = Some v.
Proof.
  induction d as [|[k' v'] d IH]; simpl; [by rewrite String.eqb_refl|].
  destruct (String.eqb_spec k k') as [->|]; simpl.
  - by rewrite String.eqb_refl.
  - by rewrite (proj2 (String.eqb_neq k k')).
Qed.

Lemma dget_dset_ne k k' v d : k <> k' -> dget k (dset k' v d) = dget k d.
Proof.
  intros Hne. induction d as [|[k2 v2] d IH]; simpl.
  - by rewrite (proj2 (String.eqb_neq k k')).
  - destruct (String.eqb_spec k' k2) as [->|]; simpl.
    + by rewrite (proj2 (String.eqb_neq k k2)).
    + by rewrite IH.
Qed.

Lemma dget_dset k k' v d :
  dget k (dset k' v d) = if decide (k = k') then Some v else dget k d.
Proof. case_decide; subst; [apply dget_dset_eq | by apply dget_dset_ne]. Qed.

Lemma dget_Some_elem k v d : dget k d = Some v -> (k, v) ∈ d.
Proof.
  induction d as [|[k' v'] d IH]; simpl; [done|].
  destruct (String.eqb_spec k k') as [->|]; intros; simplify_eq; set_solver.
Qed.

Lemma elem_dget k v d : dict_ok d -> (k, v) ∈ d -> dget k d = Some v.
Proof.
  intros Hok. induction d as [|[k' v'] d IH]; intros Hin; [set_solver|].
  apply NoDup_cons in Hok as [Hk Hok]. simpl in *.
  destruct (String.eqb_spec k k') as [->|Hne].
  - apply elem_of_cons in Hin as [|Hin]; [by simplify_eq|].
    exfalso. apply Hk, list_elem_of_fmap. by exists (k', v).
  - apply IH; [done|]. apply elem_of_cons in Hin as [|]; [by simplify_eq | done].
Qed.

Lemma dget_None k d : dget k d = None <-> k ∉ dkeys d.
Proof.
  unfold dkeys. induction d as [|[k' v'] d IH]; simpl.
  { split; [intros _; apply not_elem_of_nil | done]. }
  rewrite not_elem_of_cons, <- IH.
  destruct (String.eqb_spec k k') as [->|]; naive_solver.
Qed.

Lemma dget_is_Some k d : is_Some (dget k d) <-> k ∈ dkeys d.
Proof.
  rewrite <- not_eq_None_Some, dget_None. destruct (decide (k ∈ dkeys d)); tauto.
Qed.

Lemma dmem_spec k d : dmem k d = true <-> k ∈ dkeys d.
Proof. unfold dmem. by rewrite bool_decide_eq_true, dget_is_Some. Qed.

Lemma dkeys_dset_new k v d : dget k d = None -> dset k v d = d ++ [(k, v)].
Proof.
  induction d as [|[k' v'] d IH]; simpl; [done|].
  destruct (String.eqb_spec k k'); intros; [done | by rewrite IH].
Qed.

Lemma dkeys_dset_old k v d : is_Some (dget k d) -> dkeys (dset k v d) = dkeys d.
Proof.
  intros [w Hw]. induction d as [|[k' v'] d IH]; simpl in *; [done|].
  destruct (String.eqb_spec k k') as [->|]; simpl; [done|]. f_equal. by apply IH.
Qed.

Lemma dict_ok_dset k v d : dict_ok d -> dict_ok (dset k v d).
Proof.
  intros Hok. unfold dict_ok. destruct (dget k d) eqn:E.
  - rewrite dkeys_dset_old by eauto. done.
  - rewrite dkeys_dset_new by done. unfold dkeys. rewrite map_app.
    apply NoDup_app. split_and!; [done | | apply NoDup_singleton].
    intros x Hx. simpl. apply dget_None in E. set_solver.
Qed.

Lemma dkeys_dmap f d : dkeys (dmap f d) = dkeys d.
Proof. unfold dkeys, dmap. rewrite map_map. done. Qed.

Lemma dget_dmap f k d : dget k (dmap f d) = f <$> dget k d.
Proof.
  induction d as [|[k' v'] d IH]; simpl; [done|].
  destruct (String.eqb_spec k k'); [done | apply IH].
Qed.

Lemma dict_ok_dmap f d : dict_ok d -> dict_ok (dmap f d).
Proof. unfold dict_ok. by rewrite dkeys_dmap. Qed.
End odict.

(** ** Python equality

    [==] identifies [True] with [1] and an integer with the float of the same
    value; two dictionaries are equal when they bind the same keys to equal
    values, whatever their order. *)

Definition int_eq_float (z : Z) (f : spec_float) : bool :=
  match f with
  | S754_zero _ => (z =? 0)%Z
  | S754_finite s m e =>
      let m := (if s then Z.neg m else Z.pos m) in
      if (0 <=? e)%Z then (z =? m * 2 ^ e)%Z else (z * 2 ^ (- e) =? m)%Z
  | _ => false
  end.

Definition py_int (v : pyval) : option Z :=
  match v with
  | VInt z => Some z
  | VBool b => Some (if b then 1%Z else 0%Z)
  | _ => None
  end.

Section all2.
Context {A B : Type} (f : A -> B -> bool).
Fixpoint all2 (l : list A) (k : list B) : bool :=
  match l, k with
  | [], [] => true
  | x :: l, y :: k => f x y && all2 l k
  | _, _ => false
  end.
End all2.

Fixpoint py_eq (x y : pyval) {struct x} : bool :=
  let fix dict_sub (d1 d2 : dict) {struct d1} : bool :=
    match d1 with
    | [] => true
    | (k, v) :: d1 =>
        match dget k d2 with Some w => py_eq v w | None => false end && dict_sub d1 d2
    end in
  let fix seq_eq (l1 l2 : list pyval) {struct l1} : bool :=
    match l1, l2 with
    | [], [] => true
    | x :: l1, y :: l2 => py_eq x y && seq_eq l1 l2
    | _, _ => false
    end in
  match x, y with
  | VNone, VNone => true
  | VFloat a, VFloat b => SFeqb a b
  | VFloat a, (VInt _ | VBool _) => default false ((fun z => int_eq_float z a) <$> py_int y)
  | (VInt _ | VBool _), VFloat b => default false ((fun z => int_eq_float z b) <$> py_int x)
  | (VInt _ | VBool _), (VInt _ | VBool _) => bool_decide (py_int x = py_int y)
  | VStr a, VStr b => String.eqb a b
  | VList a, VList b | VTuple a, VTuple b => seq_eq a b
  | VDict a, VDict b => (length a =? length b)%nat && dict_sub a b
  | VObj a, VObj b => String.eqb a b
  | _, _ => false
  end.

(** [v in l] for a list or a tuple. *)
Definition py_in (v : pyval) (l : list pyval) : bool := existsb (py_eq v) l.

(** ** Strings *)

(** [sep.join(l)] *)
Fixpoint join (sep : string) (l : list string) : string :=
  match l with
  | [] => ""
  | [x] => x
  | x :: l => x +:+ sep +:+ join sep l
  end.

(** The ASCII characters [str.strip] removes. *)
Definition is_space (a : Ascii.ascii) : bool :=
  let n := Ascii.nat_of_ascii a in
  ((9 <=? n)%nat && (n <=? 13)%nat) || ((28 <=? n)%nat && (n <=? 32)%nat).

Fixpoint lstrip (s : string) : string :=
  match s with
  | String a s' => if is_space a then lstrip s' else s
  | EmptyString => s
  end.

(** [not s.strip()]: stripping both ends leaves nothing exactly when stripping
    the left end does. *)
Definition blank (s : string) : bool := String.eqb (lstrip s) "".

(** [int(s)] in base 10, for ASCII text: spaces around, a sign, and digits with
    single underscores between them. *)
Definition digit_val (a : Ascii.ascii) : option Z :=
  let n := Z.of_nat (Ascii.nat_of_ascii a) in
  if ((48 <=? n) && (n <=? 57))%Z then Some (n - 48)%Z else None.

Fixpoint digits_val (acc : Z) (after_digit : bool) (s : string) : option Z :=
  match s with
  | EmptyString => if after_digit then Some acc else None
  | String a s' =>
      match digit_val a with
      | Some d => digits_val (acc * 10 + d)%Z true s'
      | None => if after_digit then
                  if Ascii.eqb a "_"%char then digits_val acc false s'
                  else if blank s then Some acc else None
                else None
      end
  end.

Definition int_literal (s : string) : option Z :=
  match lstrip s with
  | String a s' => if Ascii.eqb a "-"%char then Z.opp <$> digits_val 0 false s'
                   else if Ascii.eqb a "+"%char then digits_val 0 false s'
                   else digits_val 0 false (lstrip s)
  | EmptyString => None
  end.

(** [int(v)]: a float is truncated. *)
Definition py_int_of (v : pyval) : outcome Z :=
  match v with
  | VInt z => Ret z
  | VBool b => Ret (if b then 1 else 0)%Z
  | VFloat (S754_zero _) => Ret 0%Z
  | VFloat (S754_finite s m e) =>
      let t := if (0 <=? e)%Z then (Z.pos m * 2 ^ e)%Z else (Z.pos m / 2 ^ (- e))%Z in
      Ret (if s then (- t)%Z else t)
  | VFloat (S754_infinity _) => raise OverflowError "cannot convert float infinity to integer"
  | VFloat S754_nan => raise ValueError "cannot convert float NaN to integer"
  | VStr s => match int_literal s with
              | Some z => Ret z
              | None => raise ValueError ("invalid literal for int() with base 10: '" +:+ s +:+ "'")
              end
  | _ => raise TypeError "int() argument must be a string, a bytes-like object or a real number"
  end.

(** Python orders strings by code point. *)
Definition str_le (a b : string) : Prop := String.leb a b = true.
#[export] Instance str_le_dec a b : Decision (str_le a b).
Proof. apply bool_eq_dec. Defined.
Definition sorted_strings (l : list string) : list string := merge_sort str_le l.

#[export] Instance str_le_trans : Transitive str_le.
Proof.
  unfold str_le, String.leb. intros a. induction a as [|x a IH]; intros [|y b] [|z c]; simpl; try done.
  unfold Ascii.compare. intros H1 H2.
  destruct (N.compare_spec (Ascii.N_of_ascii x) (Ascii.N_of_ascii y)) as [E1|E1|E1],
    (N.compare_spec (Ascii.N_of_ascii y) (Ascii.N_of_ascii z)) as [E2|E2|E2]; try done.
  - rewrite E1, E2, N.compare_refl. by eapply IH.
  - rewrite E1. by rewrite (proj2 (N.compare_lt_iff _ _) E2).
  - rewrite <- E2. by rewrite (proj2 (N.compare_lt_iff _ _) E1).
  - by rewrite (proj2 (N.compare_lt_iff _ _) (N.lt_trans _ _ _ E1 E2)).
Qed.

#[export] Instance str_le_total : Total str_le.
Proof. intros a b. unfold str_le. apply String.leb_total. Qed.

Lemma str_le_antisym a b : str_le a b -> str_le b a -> a = b.
Proof. apply String.leb_antisym. Qed.

(** ** String enumerations

    A Python [StrEnum] member is its value; [Enum(value)] looks the member up
    and raises [ValueError] when there is none. *)

Class StrEnum (T : Type) := {
  enum_value : T -> string;
  enum_members : list T;
  enum_lookup (s : string) : option T :=
    List.find (fun m => String.eqb s (enum_value m)) enum_members;
  enum_lookup_value : forall m, enum_lookup (enum_value m) = Some m;
}.

(** ** The environment: wall clock and random UUIDs

    [datetime.now(UTC)] and [uuid4()] read streams that no theorem fixes; each
    call consumes one element. *)

Definition datetime : Type := Z.

Record Env := mkEnv {
  clock : nat -> datetime; ticks : nat;
  entropy : nat -> N; drawn : nat }.

Definition utc_now (e : Env) : datetime * Env :=
  (clock e (ticks e), mkEnv (clock e) (S (ticks e)) (entropy e) (drawn e)).
Definition uuid4 (e : Env) : N * Env :=
  (entropy e (drawn e), mkEnv (clock e) (ticks e) (entropy e) (S (drawn e))).

(** The text form of timestamps: [isoformat] and [fromisoformat] are only used
    as inverses of each other. *)
Class IsoFormat := {
  isoformat : datetime -> string;
  fromisoformat : string -> option datetime;
  fromisoformat_isoformat : forall t, fromisoformat (isoformat t) = Some t;
}.

(** [str(v)] for the values the kernel turns into text: [None] for the
    containers and floats, which it never does. *)
Definition py_str (v : pyval) : option string :=
  match v with
  | VNone => Some "None"
  | VBool b => Some (if b then "True" else "False")
  | VInt z => Some (pretty z)
  | VStr s => Some s
  | _ => None
  end.

(** [str(v)] of every value, where [str] of floats, containers and other objects
    is left to the runtime. *)
Class PyStr := str_of : pyval -> string.
Definition to_str {PS : PyStr} (v : pyval) : string := default (str_of v) (py_str v).

(** ** Record update

    [upd r (p r) v] is the record expression [r] with the field that the
    projection [p] selects replaced by [v]. *)
Ltac upd e old new :=
  let t := eval pattern old in e in
  match t with ?g _ => let r := eval cbv beta in (g new) in exact r end.

(** ** Automation *)

(** Discharge hypotheses about the outcome of a computation. *)
Ltac out_simpl :=
  repeat match goal with
  | H : Ret _ = Ret _ |- _ => injection H as H; try subst
  | H : Raise _ = Raise _ |- _ => injection H as H; try subst
  | H : Ret _ = Raise _ |- _ => discriminate H
  | H : Raise _ = Ret _ |- _ => discriminate H
  | H : raise _ _ = Ret _ |- _ => discriminate H
  | H : Ret _ = raise _ _ |- _ => discriminate H
  | H : (_, _) = (_, _) |- _ => injection H as ? ?; try subst
  | H : Some _ = Some _ |- _ => injection H as H; try subst
  end.

(** Split on the scrutinees of matches in a hypothesis and drop the branches
    the outcome rules out. *)
Ltac out_cases H :=
  repeat (case_match; try discriminate H; out_simpl).

Create HintDb ois.
Create Rewrite HintDb oisr.
#[export] Hint Resolve dict_ok_dset dict_ok_dmap : ois.
#[export] Hint Rewrite @dget_dset_eq @dkeys_dmap @dget_dmap : oisr.

(** ** Readers of dynamic data

    Code that rebuilds records from a mapping may raise; [None] marks a mapping
    whose values have types the records of the model cannot hold. *)

Definition reader (A : Type) : Type := option (outcome A).

Definition rd_bind {A B} (r : reader A) (k : A -> reader B) : reader B :=
  match r with
  | None => None
  | Some (Raise e) => Some (Raise e)
  | Some (Ret a) => k a
  end.

Notation "x <-! r ;; k" := (rd_bind r (fun x => k))
  (at level 100, r at next level, right associativity) : py_scope.

Lemma NoDup_fmap_elem_eq {A B} (f : A -> B) l x y :
  NoDup (f <$> l) -> x ∈ l -> y ∈ l -> f x = f y -> x = y.
Proof.
  intros Hn [i Hi]%list_elem_of_lookup [j Hj]%list_elem_of_lookup He.
  assert (i = j) as ->; [|congruence]. apply (NoDup_lookup (f <$> l) i j (f x)); [done | |].
  - by rewrite list_lookup_fmap, Hi.
  - by rewrite list_lookup_fmap, Hj, He.
Qed.

Lemma NoDup_snoc {A} (l : list A) x : NoDup l -> x ∉ l -> NoDup (l ++ [x]).
Proof.
  intros Hl Hx. apply NoDup_app. split_and!; [done | | apply NoDup_singleton].
  intros y Hy Hy'. apply list_elem_of_singleton in Hy' as ->. done.
Qed.

Lemma find_app {A} (f : A -> bool) l1 l2 :
  List.find f (l1 ++ l2) =
  match List.find f l1 with Some x => Some x | None => List.find f l2 end.
Proof. induction l1 as [|x l1 IH]; simpl; [done|]. by destruct (f x). Qed.

(** ** [ORDER BY]

    Rows in the order of a total preorder; of equal rows the first one comes
    first. *)

Section order_by.
Context {A : Type} (le : A -> A -> bool).

Fixpoint place (r : A) (l : list A) : list A :=
  match l with
  | [] => [r]
  | x :: l => if le r x then r :: x :: l else x :: place r l
  end.

Definition order_by (l : list A) : list A := foldr place [] l.

Lemma place_perm r l : place r l ≡ₚ r :: l.
Proof.
  induction l as [|x l IH]; simpl; [done|]. destruct (le r x); [done|].
  rewrite IH. apply Permutation_swap.
Qed.

Lemma order_by_perm l : order_by l ≡ₚ l.
Proof. induction l as [|r l IH]; simpl; [done|]. by rewrite place_perm, IH. Qed.

Lemma place_sublist r l : sublist l (place r l).
Proof.
  induction l as [|x l IH]; simpl; [by repeat constructor|].
  destruct (le r x); by constructor.
Qed.

Hypothesis le_total : forall a b, le a b = true \/ le b a = true.
Hypothesis le_trans : forall a b c, le a b = true -> le b c = true -> le a c = true.

Abbreviation ordered := (StronglySorted (fun a b => le a b = true)).

Lemma place_ordered r l : ordered l -> ordered (place r l).
Proof.
  induction 1 as [|x l Hl IH Hx]; simpl; [by repeat constructor|].
  destruct (le r x) eqn:E.
  - constructor; [by constructor|]. constructor; [done|].
    eapply Forall_impl; [exact Hx|]. intros y Hy. by eapply le_trans.
  - constructor; [done|]. rewrite place_perm. constructor; [|done].
    destruct (le_total r x) as [H|H]; congruence.
Qed.

Lemma order_by_ordered l : ordered (order_by l).
Proof. induction l; simpl; [constructor | by apply place_ordered]. Qed.

Lemma place_below r l : Forall (fun x => le r x = true) l -> place r l = r :: l.
Proof. destruct 1; simpl; [done|]. by destruct (le r _). Qed.

Lemma place_filter (P : A -> Prop) `{!forall x, Decision (P x)} r l :
  ordered l -> filter P (place r l) = if decide (P r) then place r (filter P l) else filter P l.
Proof.
  induction 1 as [|x l Hl IH Hx]; simpl.
  { rewrite filter_cons. by destruct (decide (P r)). }
  destruct (le r x) eqn:E.
  - rewrite (filter_cons P r). destruct (decide (P r)); [|done].
    rewrite place_below; [done|]. apply Forall_forall. intros y [_ Hy]%list_elem_of_filter.
    revert y Hy. apply Forall_forall. constructor; [done|].
    eapply Forall_impl; [exact Hx|]. intros y Hy. by eapply le_trans.
  - rewrite !(filter_cons P x), IH. destruct (decide (P x)), (decide (P r)); try done.
    simpl. by rewrite E.
Qed.

Lemma order_by_filter (P : A -> Prop) `{!forall x, Decision (P x)} l :
  order_by (filter P l) = filter P (order_by l).
Proof.
  induction l as [|r l IH]; simpl; [done|].
  rewrite place_filter by apply order_by_ordered. rewrite filter_cons.
  destruct (decide (P r)); simpl; by rewrite IH.
Qed.

(** What comes before an element is before it. *)
Lemma ordered_before l1 x l2 : ordered (l1 ++ x :: l2) -> forall y, y ∈ l1 -> le y x = true.
Proof.
  induction l1 as [|z l1 IH]; intros Hs y Hy; [by apply elem_of_nil in Hy|].
  inversion Hs as [|? ? Hs' Hz]; subst. apply elem_of_cons in Hy as [->|Hy]; [|by apply IH].
  apply (proj1 (Forall_forall _ _) Hz), elem_of_app. right. by left.
Qed.

(** Elements that tie with [x]. *)
Definition ties (x y : A) : Prop := le x y = true /\ le y x = true.
#[export] Instance ties_dec x y : Decision (ties x y).
Proof. unfold ties. apply _. Defined.

Lemma ties_refl x : ties x x.
Proof. by destruct (le_total x x). Qed.

(** An ordered list is determined by its classes of tied elements. *)
Lemma ordered_classes l l' :
  ordered l -> ordered l' -> (forall x, filter (ties x) l = filter (ties x) l') -> l = l'.
Proof.
  intros Hl. revert l'. induction Hl as [|a l Hl IH Ha]; intros l' Hl' Hf.
  - destruct l' as [|b l']; [done|]. specialize (Hf b). rewrite filter_cons in Hf.
    by rewrite decide_True in Hf by apply ties_refl.
  - destruct l' as [|b l'].
    { specialize (Hf a). rewrite filter_cons in Hf. by rewrite decide_True in Hf by apply ties_refl. }
    inversion Hl' as [|? ? Hl'' Hb]; subst.
    assert (forall c d m m', ordered m -> Forall (fun y => le c y = true) m ->
              filter (ties d) (c :: m) = filter (ties d) (d :: m') -> le c d = true) as Hle.
    { intros c d m m' _ Hc Hcd. assert (d ∈ filter (ties d) (c :: m)) as Hin.
      { rewrite Hcd, filter_cons, decide_True by apply ties_refl. by left. }
      apply list_elem_of_filter in Hin as [_ [->|Hin]%elem_of_cons]; [apply ties_refl|].
      by apply (proj1 (Forall_forall _ _) Hc). }
    assert (ties a b) as Hab.
    { split; [by eapply (Hle a b l l')|by eapply (Hle b a l' l)]. }
    assert (a = b) as <-.
    { specialize (Hf a). rewrite !filter_cons, !decide_True in Hf by (done || apply ties_refl).
      congruence. }
    f_equal. apply IH; [done|]. intros x. specialize (Hf x). rewrite !filter_cons in Hf.
    destruct (decide (ties x a)); congruence.
Qed.

(** Stability: the order of the list matters only among tied elements. *)
Lemma order_by_classes l l' :
  (forall x, filter (ties x) l = filter (ties x) l') -> order_by l = order_by l'.
Proof.
  intros Hf. apply ordered_classes; [apply order_by_ordered..|]. intros x.
  by rewrite <- !order_by_filter, Hf.
Qed.
End order_by.

(** ** Runs of a step relation *)

Section runs.
Context {A : Type} (step : A -> A -> Prop).

Lemma rtc_invariant (I : A -> Prop) x y :
  (forall a b, I a -> step a b -> I b) -> I x -> rtc step x y -> I y.
Proof. intros Hs Hx. induction 1 as [|a b c Hab _ IH]; [done|]. by apply IH, (Hs a). Qed.

(** A relation that every step respects relates the ends of every run. *)
Lemma rtc_preorder (R : A -> A -> Prop) `{!PreOrder R} x y :
  (forall a b, step a b -> R a b) -> rtc step x y -> R x y.
Proof. intros Hs. induction 1 as [|a b c Hab _ IH]; [done|]. etransitivity; [by apply Hs | done]. Qed.
End runs.

(** ** Relations every execution of a computation respects

    [keeps R m]: the state after [m], also when it raises, is related to the
    state before. *)

Section keeps.
Context {St : Type} (R : St -> St -> Prop) `{!PreOrder R}.

Definition keeps {A} (m : M St A) : Prop := forall s, R s (snd (m s)).

Lemma keeps_pure {A} (m : M St A) : (forall s, snd (m s) = s) -> keeps m.
Proof. intros H s. rewrite H. reflexivity. Qed.

Lemma keeps_ret {A} (a : A) : keeps (ret a).
Proof. by apply keeps_pure. Qed.
Lemma keeps_throw {A} e : keeps (throw (A := A) e).
Proof. by apply keeps_pure. Qed.
Lemma keeps_lift {A} (o : outcome A) : keeps (lift o).
Proof. by apply keeps_pure. Qed.
Lemma keeps_get : keeps get.
Proof. by apply keeps_pure. Qed.

Lemma keeps_bind {A B} (m : M St A) (k : A -> M St B) :
  keeps m -> (forall a, keeps (k a)) -> keeps (bind m k).
Proof.
  intros Hm Hk s. unfold bind. specialize (Hm s). destruct (m s) as [[a|e] s']; [|done].
  simpl in *. etransitivity; [done | apply Hk].
Qed.

Lemma keeps_try {A} (m : M St A) p h :
  keeps m -> (forall e, keeps (h e)) -> keeps (try_except m p h).
Proof.
  intros Hm Hh s. unfold try_except. specialize (Hm s). destruct (m s) as [[a|e] s']; [done|].
  simpl in *. destruct (p e); [|done]. etransitivity; [done | apply Hh].
Qed.

(** The continuation may rely on how its argument came about. *)
Lemma keeps_bind_val {A B} (m : M St A) (k : A -> M St B) :
  keeps m -> (forall a s s', m s = (Ret a, s') -> R s' (snd (k a s'))) -> keeps (bind m k).
Proof.
  intros Hm Hk s. unfold bind. specialize (Hm s). destruct (m s) as [[a|e] s'] eqn:E; [|done].
  simpl in *. etransitivity; [done | by eapply Hk].
Qed.
End keeps.

(** Prove [keeps R m] along the structure of [m], down to its operations. *)
Ltac keeps_step :=
  lazymatch goal with
  | |- keeps _ (bind _ _) => apply keeps_bind; [apply _ | | intros ?]
  | |- keeps _ (try_except _ _ _) => apply keeps_try; [apply _ | | intros ?]
  | |- keeps _ (ret _) => apply keeps_ret; apply _
  | |- keeps _ (throw _) => apply keeps_throw; apply _
  | |- keeps _ (lift _) => apply keeps_lift; apply _
  | |- keeps _ get => apply keeps_get; apply _
  | |- keeps _ (if ?b then _ else _) => destruct b
  | |- keeps _ (match ?x with _ => _ end) => destruct x
  | |- keeps _ (let '(_, _) := ?x in _) => destruct x
  | |- forall _, _ => intros ?
  end.
Ltac keeps_auto := repeat keeps_step; eauto with ois.

(** ** Inverting a successful run *)

Lemma bind_ret_inv {S A B} (m : M S A) (k : A -> M S B) s b s' :
  bind m k s = (Ret b, s') -> exists a s1, m s = (Ret a, s1) /\ k a s1 = (Ret b, s').
Proof. unfold bind. destruct (m s) as [[a|e] s1]; [eauto | done]. Qed.

(** The first statement of a sequence that returned. *)
Ltac run_inv H :=
  let s1 := fresh "s" in let H1 := fresh "Hr" in
  apply bind_ret_inv in H as (? & s1 & H1 & H).

Lemma bind_ret_intro {S A B} (m : M S A) (k : A -> M S B) s a s1 :
  m s = (Ret a, s1) -> bind m k s = k a s1.
Proof. unfold bind. by intros ->. Qed.

Lemma bind_raise {S A B} (m : M S A) (k : A -> M S B) s e s1 :
  m s = (Raise e, s1) -> bind m k s = (Raise e, s1).
Proof. unfold bind. by intros ->. Qed.

Lemma ret_inv {S A} (a b : A) (s s' : S) : ret a s = (Ret b, s') -> b = a /\ s' = s.
Proof. unfold ret. by intros [= <- <-]. Qed.

Lemma lift_inv {S A} (o : outcome A) (s s' : S) b : lift o s = (Ret b, s') -> o = Ret b /\ s' = s.
Proof. unfold lift. by intros [= -> <-]. Qed.
