(* ===== verification/Uuid.v ===== *)
(** * UUIDs as the kernel uses them

    [uuid.UUID] is part of the standard library: this file models its integer
    value, its text form and the parser [ExecutionContext.from_dict] calls. *)

From stdpp Require Import base strings list.
From Stdlib Require Import NArith Lia Ascii.
From S2P Require Import Prelude.

(** A UUID is its 128-bit integer; [str] prints it as 32 hexadecimal digits in
    the groups 8-4-4-4-12, and [UUID(s)] drops the braces, dashes and the
    [urn:]/[uuid:] prefixes before reading the digits.  The prefixes are not
    modelled: no code of the kernel writes them. *)

Definition uuid : Type := N.

Definition hex_digit (n : N) : Ascii.ascii :=
  match n with
  | 0 => "0" | 1 => "1" | 2 => "2" | 3 => "3" | 4 => "4" | 5 => "5" | 6 => "6" | 7 => "7"
  | 8 => "8" | 9 => "9" | 10 => "a" | 11 => "b" | 12 => "c" | 13 => "d" | 14 => "e" | _ => "f"
  end%N%char.

Definition hex_val (a : Ascii.ascii) : option N :=
  let n := Ascii.N_of_ascii a in
  (if (48 <=? n) && (n <=? 57) then Some (n - 48)
   else if (97 <=? n) && (n <=? 102) then Some (n - 87)
   else if (65 <=? n) && (n <=? 70) then Some (n - 55)
   else None)%N.

(** The [k] low digits of [n], most significant first. *)
Fixpoint hex_digits (k : nat) (n : N) : string :=
  match k with
  | O => ""
  | S k => String (hex_digit (N.land (N.shiftr n (4 * N.of_nat k)) 15)) (hex_digits k n)
  end.

Fixpoint hex_read (acc : N) (s : string) : option N :=
  match s with
  | EmptyString => Some acc
  | String a s => match hex_val a with Some d => hex_read (acc * 16 + d) s | None => None end
  end.

(** [str(u)]: the group starting at bit [16*i] is four digits. *)
Definition uuid_str (u : uuid) : string :=
  hex_digits 8 (N.shiftr u 96) +:+ "-" +:+ hex_digits 4 (N.shiftr u 80) +:+ "-" +:+
  hex_digits 4 (N.shiftr u 64) +:+ "-" +:+ hex_digits 4 (N.shiftr u 48) +:+ "-" +:+
  hex_digits 12 u.

Fixpoint drop_chars (p : Ascii.ascii -> bool) (s : string) : string :=
  match s with
  | EmptyString => EmptyString
  | String a s => if p a then drop_chars p s else String a (drop_chars p s)
  end.

(** [UUID(s)] *)
Definition uuid_parse (s : string) : outcome uuid :=
  let h := drop_chars (fun a => bool_decide (a ∈ ["{"; "}"; "-"]%char)) s in
  if (String.length h =? 32)%nat then
    match hex_read 0 h with
    | Some n => Ret n
    | None => raise ValueError "invalid literal for int() with base 16"
    end
  else raise ValueError "badly formed hexadecimal UUID string".

Definition uuid_ok (u : uuid) : Prop := (u < 2 ^ 128)%N.

Lemma hex_val_digit n : (n < 16)%N -> hex_val (hex_digit n) = Some n.
Proof.
  intros H. assert (n ∈ (N.of_nat <$> seq 0 16)) as Hin.
  { apply list_elem_of_fmap. exists (N.to_nat n). split; [lia|]. apply elem_of_seq. lia. }
  revert Hin. cbn. rewrite !elem_of_cons, elem_of_nil. naive_solver.
Qed.

Lemma hex_read_app acc a b :
  hex_read acc (a +:+ b) = match hex_read acc a with Some n => hex_read n b | None => None end.
Proof.
  revert acc. induction a as [|c a IH]; intros acc; simpl; [done|].
  destruct (hex_val c); [apply IH | done].
Qed.

(** Appending four bits below [acc]. *)
Lemma nibble_push acc d : (d < 16)%N -> (acc * 16 + d = N.lor (N.shiftl acc 4) d)%N.
Proof.
  intros Hd. rewrite N.shiftl_mul_pow2. change (2 ^ 4)%N with 16%N.
  assert (N.land (acc * 16) d = 0)%N as E.
  { apply N.bits_inj. intros i. rewrite N.land_spec, N.bits_0.
    replace (acc * 16)%N with (N.shiftl acc 4) by (rewrite N.shiftl_mul_pow2; done).
    destruct (N.lt_ge_cases i 4) as [Hi|Hi].
    - by rewrite N.shiftl_spec_low.
    - replace d with (N.land d (N.ones 4)).
      2:{ rewrite N.land_ones. apply N.mod_small. done. }
      by rewrite N.land_spec, N.ones_spec_high, !andb_false_r. }
  rewrite N.add_nocarry_lxor, N.lxor_lor; done.
Qed.

(** Reading back the low [k] digits of [n] when the digits above them are
    already in the accumulator. *)
Lemma hex_read_digits k n :
  hex_read (N.shiftr n (4 * N.of_nat k)) (hex_digits k n) = Some n.
Proof.
  induction k as [|k IH]; [by rewrite N.mul_0_r, N.shiftr_0_r|].
  cbn [hex_digits hex_read].
  assert (N.land (N.shiftr n (4 * N.of_nat k)) 15 < 16)%N as Hlt.
  { change 15%N with (N.ones 4). rewrite N.land_ones. apply N.mod_lt. done. }
  rewrite hex_val_digit, nibble_push by done. rewrite <- IH. f_equal.
  apply N.bits_inj. intros i. rewrite N.lor_spec, N.land_spec.
  change 15%N with (N.ones 4). rewrite !N.shiftr_spec'.
  destruct (N.lt_ge_cases i 4) as [Hi|Hi].
  - rewrite N.shiftl_spec_low, N.ones_spec_low by lia. by rewrite andb_true_r.
  - rewrite N.shiftl_spec_high', N.shiftr_spec', N.ones_spec_high by lia.
    rewrite andb_false_r, orb_false_r. f_equal. lia.
Qed.

Lemma drop_chars_app p a b : drop_chars p (a +:+ b) = drop_chars p a +:+ drop_chars p b.
Proof. induction a as [|c a IH]; simpl; [done|]. destruct (p c); simpl; by rewrite IH. Qed.

Lemma hex_digit_keep n :
  bool_decide (hex_digit n ∈ ["{"; "}"; "-"]%char) = false.
Proof.
  apply bool_decide_eq_false. unfold hex_digit. rewrite !elem_of_cons, elem_of_nil.
  repeat case_match; naive_solver.
Qed.

Lemma drop_chars_hex k n :
  drop_chars (fun a => bool_decide (a ∈ ["{"; "}"; "-"]%char)) (hex_digits k n) = hex_digits k n.
Proof.
  induction k as [|k IH]; [done|]. cbn -[N.land N.shiftr N.mul bool_decide].
  by rewrite hex_digit_keep, IH.
Qed.

Lemma length_hex_digits k n : String.length (hex_digits k n) = k.
Proof. induction k; simpl; congruence. Qed.

Lemma length_append a b : String.length (a +:+ b) = (String.length a + String.length b)%nat.
Proof.
  induction a as [|c a IH]; [done|].
  change (S (String.length (a +:+ b)) = S (String.length a + String.length b)). by rewrite IH.
Qed.

(** The next group extends the one already read. *)
Lemma hex_read_group a b k n s :
  (b + 4 * N.of_nat k = a)%N ->
  hex_read (N.shiftr n a) (hex_digits k (N.shiftr n b) +:+ s) = hex_read (N.shiftr n b) s.
Proof.
  intros <-. rewrite hex_read_app, <- N.shiftr_shiftr, hex_read_digits. done.
Qed.

(** Printing and reading a UUID round-trips. *)
Lemma uuid_parse_str u : uuid_ok u -> uuid_parse (uuid_str u) = Ret u.
Proof.
  intros Hu. unfold uuid_parse, uuid_str.
  rewrite !drop_chars_app, !drop_chars_hex.
  change (drop_chars _ "-") with "".
  assert (forall s, "" +:+ s = s) as E by done. rewrite !E.
  rewrite !length_append, !length_hex_digits. cbn [Nat.add Nat.eqb].
  replace 0%N with (N.shiftr u 128) by (by rewrite N.shiftr_div_pow2, N.div_small).
  rewrite !hex_read_group by done.
  change 48%N with (4 * N.of_nat 12)%N. by rewrite hex_read_digits.
Qed.

#[global] Arguments uuid_parse : simpl never.
#[global] Arguments uuid_str : simpl never.
#[export] Hint Resolve uuid_parse_str : ois.

Lemma uuid_str_inj u v : uuid_ok u -> uuid_ok v -> uuid_str u = uuid_str v -> u = v.
Proof.
  intros Hu Hv H.
  assert (Ret u = Ret v) as E; [|injection E as E; exact E].
  rewrite <- (uuid_parse_str u Hu).
  rewrite <- (uuid_parse_str v Hv).
  exact (f_equal uuid_parse H).
Qed.
