(* ===== verification/Json.v ===== *)
(** * JSON text as the durable stores use it

    [json.dumps(v, sort_keys=True)] and [json.loads] belong to the standard
    library.  A JSON text is represented by the value it denotes: dictionaries
    with sorted keys, tuples turned into lists.  [dumps] fails on the values
    the encoder rejects.  The separators and the indentation the callers pass
    do not change the denoted value. *)

From stdpp Require Import base strings list sorting.
From Stdlib Require Import ZArith.
From S2P Require Import Prelude.

(** Insert a binding at its place in key order. *)
Fixpoint insert_key (k : string) (v : pyval) (d : dict) : dict :=
  match d with
  | [] => [(k, v)]
  | (k', v') :: d' => if String.leb k k' then (k, v) :: d else (k', v') :: insert_key k v d'
  end.

Definition sort_keys (d : dict) : dict := foldr (fun kv => insert_key (fst kv) (snd kv)) [] d.

Fixpoint json_norm (v : pyval) : outcome pyval :=
  let fix seq l : outcome (list pyval) :=
    match l with
    | [] => Ret []
    | x :: l => out_bind (json_norm x) (fun y => out_bind (seq l) (fun ys => Ret (y :: ys)))
    end in
  let fix obj d : outcome dict :=
    match d with
    | [] => Ret []
    | (k, x) :: d =>
        out_bind (json_norm x) (fun y => out_bind (obj d) (fun ys => Ret ((k, y) :: ys)))
    end in
  match v with
  | VList l | VTuple l => out_bind (seq l) (fun l => Ret (VList l))
  | VDict d => out_bind (obj d) (fun d => Ret (VDict (sort_keys d)))
  | VObj n => raise TypeError ("Object of type " +:+ n +:+ " is not JSON serializable")
  | _ => Ret v
  end.

Inductive json_text := JsonText (v : pyval).

#[export] Instance json_text_eq_dec : EqDecision json_text.
Proof. solve_decision. Defined.

Definition dumps (v : pyval) : outcome json_text :=
  out_bind (json_norm v) (fun w => Ret (JsonText w)).
Definition loads (t : json_text) : pyval := let 'JsonText v := t in v.

Fixpoint norm_seq (l : list pyval) : outcome (list pyval) :=
  match l with
  | [] => Ret []
  | x :: l => out_bind (json_norm x) (fun y => out_bind (norm_seq l) (fun ys => Ret (y :: ys)))
  end.

Fixpoint norm_obj (d : dict) : outcome dict :=
  match d with
  | [] => Ret []
  | (k, x) :: d =>
      out_bind (json_norm x) (fun y => out_bind (norm_obj d) (fun ys => Ret ((k, y) :: ys)))
  end.

Lemma json_norm_list l : json_norm (VList l) = out_bind (norm_seq l) (fun l => Ret (VList l)).
Proof. reflexivity. Qed.
Lemma json_norm_tuple l : json_norm (VTuple l) = out_bind (norm_seq l) (fun l => Ret (VList l)).
Proof. reflexivity. Qed.
Lemma json_norm_dict d :
  json_norm (VDict d) = out_bind (norm_obj d) (fun d => Ret (VDict (sort_keys d))).
Proof. reflexivity. Qed.

(** ** Key order *)

Definition keys_sorted (d : dict) : Prop := Sorted str_le (dkeys d).

Lemma insert_key_sorted k v d : keys_sorted d -> keys_sorted (insert_key k v d).
Proof.
  unfold keys_sorted, dkeys. induction d as [|[k' v'] d IH]; simpl; intros Hs.
  { by repeat constructor. }
  destruct (String.leb k k') eqn:E; simpl.
  - constructor; [done | by constructor].
  - inversion Hs as [|? ? Hs' Hhd]; subst. constructor; [by apply IH|].
    destruct (str_le_total k k') as [H|H]; [unfold str_le in H; congruence|].
    destruct d as [|[k2 v2] d]; simpl in *; [by constructor|].
    destruct (String.leb k k2); constructor; [done|]. by inversion Hhd.
Qed.

Lemma sort_keys_sorted d : keys_sorted (sort_keys d).
Proof. induction d as [|[k v] d IH]; simpl; [constructor | by apply insert_key_sorted]. Qed.

Lemma sort_keys_id d : keys_sorted d -> sort_keys d = d.
Proof.
  unfold keys_sorted, dkeys. induction d as [|[k v] d IH]; simpl; intros Hs; [done|].
  inversion Hs as [|? ? Hs' Hhd]; subst. rewrite IH by done.
  destruct d as [|[k2 v2] d]; simpl in *; [done|].
  inversion Hhd as [|? ? Hle]; subst. unfold str_le in Hle. by rewrite Hle.
Qed.

Lemma insert_key_perm k v d : insert_key k v d ≡ₚ (k, v) :: d.
Proof.
  induction d as [|[k' v'] d IH]; simpl; [done|].
  destruct (String.leb k k'); [done|]. rewrite IH. apply Permutation_swap.
Qed.

Lemma sort_keys_perm d : sort_keys d ≡ₚ d.
Proof. induction d as [|[k v] d IH]; simpl; [done|]. by rewrite insert_key_perm, IH. Qed.

Lemma dict_ok_perm {V} (d1 d2 : list (string * V)) : d1 ≡ₚ d2 -> dict_ok d1 -> dict_ok d2.
Proof. unfold dict_ok, dkeys. intros ->. done. Qed.

Lemma dget_perm {V} k (d1 d2 : list (string * V)) :
  dict_ok d1 -> d1 ≡ₚ d2 -> dget k d1 = dget k d2.
Proof.
  intros Hok HP. destruct (dget k d2) as [v|] eqn:E.
  - apply elem_dget; [done|]. rewrite HP. by apply dget_Some_elem.
  - apply dget_None. apply dget_None in E. unfold dkeys in *. by rewrite HP.
Qed.

Lemma dget_sort_keys k d : dict_ok d -> dget k (sort_keys d) = dget k d.
Proof.
  intros Hok. symmetry. apply dget_perm; [done|]. symmetry. apply sort_keys_perm.
Qed.

Lemma norm_obj_keys d d' : norm_obj d = Ret d' -> dkeys d' = dkeys d.
Proof.
  revert d'. induction d as [|[k v] d IH]; simpl; intros d' H; [by out_simpl|].
  destruct (json_norm v); simpl in H; [|discriminate].
  destruct (norm_obj d) eqn:E; simpl in H; [|discriminate].
  out_simpl. simpl. f_equal. by apply IH.
Qed.

(** Each member of an encoded object is the encoding of that member. *)
Lemma norm_obj_get k d d' :
  norm_obj d = Ret d' ->
  match dget k d with
  | Some v => exists w, json_norm v = Ret w /\ dget k d' = Some w
  | None => dget k d' = None
  end.
Proof.
  revert d'. induction d as [|[k' v] d IH]; simpl; intros d' H; [by out_simpl|].
  destruct (json_norm v) eqn:Ev; simpl in H; [|discriminate].
  destruct (norm_obj d) eqn:E; simpl in H; [|discriminate].
  out_simpl. simpl. destruct (String.eqb k k'); [by eauto | by apply IH].
Qed.

(** The canonical form is a fixpoint: encoding a decoded text gives the text
    back, so the digest of a stored state can be recomputed from the state. *)
Lemma json_norm_idem v w : json_norm v = Ret w -> json_norm w = Ret w.
Proof.
  assert (forall l, Forall (fun v => forall w, json_norm v = Ret w -> json_norm w = Ret w) l ->
    forall l', norm_seq l = Ret l' -> norm_seq l' = Ret l') as Hseq.
  { induction 1 as [|x l Hx _ IH]; simpl; intros l' H; [by out_simpl|].
    destruct (json_norm x) eqn:Ex; simpl in H; [|discriminate].
    destruct (norm_seq l) eqn:El; simpl in H; [|discriminate].
    out_simpl. simpl. rewrite (Hx _ eq_refl). simpl. by rewrite (IH _ eq_refl). }
  revert w. induction v as [| | | | |l IH|l IH|d IH|] using pyval_ind; intros w H;
    try (simpl in H; by out_simpl).
  - rewrite json_norm_list in H. destruct (norm_seq l) eqn:E; simpl in H; [|discriminate].
    out_simpl. rewrite json_norm_list, (Hseq _ IH _ E). done.
  - rewrite json_norm_tuple in H. destruct (norm_seq l) eqn:E; simpl in H; [|discriminate].
    out_simpl. rewrite json_norm_list, (Hseq _ IH _ E). done.
  - rewrite json_norm_dict in H. destruct (norm_obj d) as [d'|] eqn:E; simpl in H; [|discriminate].
    out_simpl. rewrite json_norm_dict.
    assert (Forall (fun kv => json_norm (snd kv) = Ret (snd kv)) d') as Hfix.
    { revert d' E. induction IH as [|[k x] d Hx _ IHd]; simpl; intros d' E; [by out_simpl|].
      destruct (json_norm x) eqn:Ex; simpl in E; [|discriminate].
      destruct (norm_obj d) eqn:Ed; simpl in E; [|discriminate].
      out_simpl. constructor; [by apply Hx | by apply IHd]. }
    assert (Forall (fun kv => json_norm (snd kv) = Ret (snd kv)) (sort_keys d')) as Hs.
    { by rewrite sort_keys_perm. }
    assert (norm_obj (sort_keys d') = Ret (sort_keys d')) as ->.
    { clear -Hs. induction Hs as [|[k x] d Hx _ IHd]; simpl in *; [done|]. by rewrite Hx; simpl; rewrite IHd. }
    simpl. rewrite sort_keys_id; [done | apply sort_keys_sorted].
Qed.

Lemma loads_dumps_canonical v t : dumps v = Ret t -> dumps (loads t) = Ret t.
Proof.
  unfold dumps. destruct (json_norm v) as [w|] eqn:E; simpl; intros H; [|discriminate].
  out_simpl. simpl. by rewrite (json_norm_idem _ _ E).
Qed.

(** ** Texts that keep the order of keys

    [json.loads(json.dumps(v))] without [sort_keys]: the decoded value, with
    lists for tuples and the keys where they were. *)

Fixpoint json_copy (v : pyval) : outcome pyval :=
  let fix seq l : outcome (list pyval) :=
    match l with
    | [] => Ret []
    | x :: l => out_bind (json_copy x) (fun y => out_bind (seq l) (fun ys => Ret (y :: ys)))
    end in
  let fix obj d : outcome dict :=
    match d with
    | [] => Ret []
    | (k, x) :: d =>
        out_bind (json_copy x) (fun y => out_bind (obj d) (fun ys => Ret ((k, y) :: ys)))
    end in
  match v with
  | VList l | VTuple l => out_bind (seq l) (fun l => Ret (VList l))
  | VDict d => out_bind (obj d) (fun d => Ret (VDict d))
  | VObj n => raise TypeError ("Object of type " +:+ n +:+ " is not JSON serializable")
  | _ => Ret v
  end.

(** ** [default=str]

    [str] of an object JSON cannot represent is its own business. *)

Class ObjStr := obj_str : string -> string.

Fixpoint stringify {OS : ObjStr} (v : pyval) : pyval :=
  match v with
  | VList l => VList (map stringify l)
  | VTuple l => VTuple (map stringify l)
  | VDict d => VDict (map (fun kv => (fst kv, stringify (snd kv))) d)
  | VObj n => VStr (obj_str n)
  | _ => v
  end.

(** With [default=str] the encoder accepts every value. *)
Lemma json_norm_stringify {OS : ObjStr} v : exists w, json_norm (stringify v) = Ret w.
Proof.
  induction v as [| | | | |l IH|l IH|d IH|n] using pyval_ind; try (by eexists).
  1,2: cbn [stringify]; first [rewrite json_norm_list | rewrite json_norm_tuple];
    assert (exists k, norm_seq (map stringify l) = Ret k) as [k ->]; [|by eexists];
    induction IH as [|x l [y Hy] _ [k Hk]]; [by eexists|]; simpl; rewrite Hy; simpl;
    rewrite Hk; by eexists.
  cbn [stringify]. rewrite json_norm_dict.
  assert (exists k, norm_obj (map (fun kv => (fst kv, stringify (snd kv))) d) = Ret k) as [k ->];
    [|by eexists].
  induction IH as [|[k x] d [y Hy] _ [e He]]; [by eexists|]. simpl in *. rewrite Hy. simpl.
  rewrite He. by eexists.
Qed.

#[export] Hint Resolve sort_keys_sorted loads_dumps_canonical json_norm_idem : ois.

#[global] Arguments dumps : simpl never.
#[global] Arguments loads : simpl never.
