(* ===== verification/Types.v ===== *)
(** * Kernel vocabulary: [ois/kernel/types.py] and [ois/kernel/contracts.py]

    The string enumerations and the contract and invocation records that every
    other component exchanges. *)

From stdpp Require Import base strings list.
From Stdlib Require Import ZArith Floats.SpecFloat.
From S2P Require Import Prelude Uuid.

Inductive ExecutionStatus :=
  | RECEIVED | NORMALIZED | UNDERSTOOD | CLASSIFIED | RISK_ASSESSED | CONTEXT_RETRIEVED
  | ROUTED | PLANNED | PLAN_VALIDATED | AUTHORIZED | EXECUTING | OBSERVING | VALIDATING
  | UPDATING_STATE | CHECKPOINTING | COMPLETED | FAILED | RECOVERING | REPLANNING
  | ESCALATED | STOPPED.

#[export] Instance ExecutionStatus_eq_dec : EqDecision ExecutionStatus.
Proof. solve_decision. Defined.

Definition ExecutionStatus_value (s : ExecutionStatus) : string :=
  match s with
  | RECEIVED => "received" | NORMALIZED => "normalized" | UNDERSTOOD => "understood"
  | CLASSIFIED => "classified" | RISK_ASSESSED => "risk_assessed"
  | CONTEXT_RETRIEVED => "context_retrieved" | ROUTED => "routed" | PLANNED => "planned"
  | PLAN_VALIDATED => "plan_validated" | AUTHORIZED => "authorized"
  | EXECUTING => "executing" | OBSERVING => "observing" | VALIDATING => "validating"
  | UPDATING_STATE => "updating_state" | CHECKPOINTING => "checkpointing"
  | COMPLETED => "completed" | FAILED => "failed" | RECOVERING => "recovering"
  | REPLANNING => "replanning" | ESCALATED => "escalated" | STOPPED => "stopped"
  end.

#[export, program] Instance ExecutionStatus_enum : StrEnum ExecutionStatus := {|
  enum_value := ExecutionStatus_value;
  enum_members := [RECEIVED; NORMALIZED; UNDERSTOOD; CLASSIFIED; RISK_ASSESSED;
    CONTEXT_RETRIEVED; ROUTED; PLANNED; PLAN_VALIDATED; AUTHORIZED; EXECUTING; OBSERVING;
    VALIDATING; UPDATING_STATE; CHECKPOINTING; COMPLETED; FAILED; RECOVERING; REPLANNING;
    ESCALATED; STOPPED] |}.
Next Obligation. by intros []. Qed.

Inductive RiskLevel := LOW | MEDIUM | HIGH | CRITICAL.

#[export] Instance RiskLevel_eq_dec : EqDecision RiskLevel.
Proof. solve_decision. Defined.

Definition RiskLevel_value (r : RiskLevel) : string :=
  match r with LOW => "low" | MEDIUM => "medium" | HIGH => "high" | CRITICAL => "critical" end.

#[export, program] Instance RiskLevel_enum : StrEnum RiskLevel := {|
  enum_value := RiskLevel_value; enum_members := [LOW; MEDIUM; HIGH; CRITICAL] |}.
Next Obligation. by intros []. Qed.

Inductive FailureClass :=
  | TRANSIENT | PARAMETER | TOOL | PLAN | STATE | PERMISSION | SAFETY | UNKNOWN.

#[export] Instance FailureClass_eq_dec : EqDecision FailureClass.
Proof. solve_decision. Defined.

Definition FailureClass_value (f : FailureClass) : string :=
  match f with
  | TRANSIENT => "transient" | PARAMETER => "parameter" | TOOL => "tool" | PLAN => "plan"
  | STATE => "state" | PERMISSION => "permission" | SAFETY => "safety" | UNKNOWN => "unknown"
  end.

#[export, program] Instance FailureClass_enum : StrEnum FailureClass := {|
  enum_value := FailureClass_value;
  enum_members := [TRANSIENT; PARAMETER; TOOL; PLAN; STATE; PERMISSION; SAFETY; UNKNOWN] |}.
Next Obligation. by intros []. Qed.

(** The members of [InvocationStatus], prefixed because [FAILED] is also an
    execution status. *)
Inductive InvocationStatus :=
  | INV_PENDING | INV_RUNNING | INV_SUCCEEDED | INV_FAILED | INV_CANCELLED | INV_TIMED_OUT.

#[export] Instance InvocationStatus_eq_dec : EqDecision InvocationStatus.
Proof. solve_decision. Defined.

Definition InvocationStatus_value (s : InvocationStatus) : string :=
  match s with
  | INV_PENDING => "pending" | INV_RUNNING => "running" | INV_SUCCEEDED => "succeeded"
  | INV_FAILED => "failed" | INV_CANCELLED => "cancelled" | INV_TIMED_OUT => "timed_out"
  end.

#[export, program] Instance InvocationStatus_enum : StrEnum InvocationStatus := {|
  enum_value := InvocationStatus_value;
  enum_members := [INV_PENDING; INV_RUNNING; INV_SUCCEEDED; INV_FAILED; INV_CANCELLED;
    INV_TIMED_OUT] |}.
Next Obligation. by intros []. Qed.

Inductive SideEffectLevel := SE_NONE | REVERSIBLE | IRREVERSIBLE.

#[export] Instance SideEffectLevel_eq_dec : EqDecision SideEffectLevel.
Proof. solve_decision. Defined.

Definition SideEffectLevel_value (s : SideEffectLevel) : string :=
  match s with
  | SE_NONE => "none" | REVERSIBLE => "reversible" | IRREVERSIBLE => "irreversible"
  end.

#[export, program] Instance SideEffectLevel_enum : StrEnum SideEffectLevel := {|
  enum_value := SideEffectLevel_value; enum_members := [SE_NONE; REVERSIBLE; IRREVERSIBLE] |}.
Next Obligation. by intros []. Qed.

(** ** Contracts

    [AgentContract] and [ToolContract] extend [CapabilityContract]: the fields
    they add are the payload of [cc_kind]. *)

Record AgentFields := mkAgentFields {
  required_tools : list string;
  model_requirements : dict;
  max_iterations : Z }.

Record ToolFields := mkToolFields {
  network_policy : dict;
  secrets_required : list string;
  requires_approval_flag : bool }.

Inductive ContractKind :=
  | PlainContract
  | AgentContract (a : AgentFields)
  | ToolContract (t : ToolFields).

Record CapabilityContract := mkContract {
  cc_capability_id : string;
  cc_version : string;
  cc_description : string;
  input_schema : dict;
  output_schema : dict;
  cc_risk_level : RiskLevel;
  permissions : list string;
  allowed_domains : list string;
  cc_timeout_seconds : spec_float;
  cc_max_retries : Z;
  side_effects : SideEffectLevel;
  idempotent : bool;
  cc_kind : ContractKind }.

Definition is_agent_contract (c : CapabilityContract) : bool :=
  match cc_kind c with AgentContract _ => true | _ => false end.
Definition is_tool_contract (c : CapabilityContract) : bool :=
  match cc_kind c with ToolContract _ => true | _ => false end.

(** The dataclass defaults of a [CapabilityContract]; 30.0 as a binary64. *)
Definition default_contract (id version description : string) : CapabilityContract :=
  mkContract id version description [] [] LOW [] [] (S754_finite false 8444249301319680 (-48))
    0 SE_NONE true PlainContract.

Record InvocationResult := mkResult {
  ir_invocation_id : string;
  ir_capability_id : string;
  ir_status : InvocationStatus;
  ir_output : pyval;
  ir_error : option dict;
  ir_started_at : option string;
  ir_completed_at : option string;
  ir_metadata : dict }.

Definition with_error (r : InvocationResult) (e : option dict) : InvocationResult :=
  mkResult (ir_invocation_id r) (ir_capability_id r) (ir_status r) (ir_output r) e
    (ir_started_at r) (ir_completed_at r) (ir_metadata r).

(** A result with the dataclass defaults. *)
Definition simple_result (inv cap : string) (s : InvocationStatus) (out : pyval)
    (err : option dict) : InvocationResult :=
  mkResult inv cap s out err None None [].

(** [SUCCEEDED] and [CANCELLED] are the results the idempotency stores keep. *)
Definition cacheable (r : InvocationResult) : bool :=
  bool_decide (ir_status r = INV_SUCCEEDED \/ ir_status r = INV_CANCELLED).

#[export] Instance InvocationResult_eq_dec : EqDecision InvocationResult.
Proof. solve_decision. Defined.
