(* ===== verification/State.v ===== *)
(** * The execution context: [ois/kernel/state.py]

    [ExecutionContext] is the mutable record every kernel component works on.
    This file models its fields, [set_status], and the checkpoint conversions
    [to_dict] and [from_dict] with what they keep and what they lose. *)

From stdpp Require Import base strings list pretty.
From Stdlib Require Import ZArith.
From S2P Require Import Prelude Uuid Json Types.

Record ExecutionIdentity := mkIdentity {
  execution_id : uuid;
  tenant_id : string;
  workflow_id : option string;
  workflow_version : option string }.

(** [last_failure] is declared [FailureClass | None], but [from_dict] stores
    the bare string of a checkpoint in it. *)
Inductive failure_ref := FEnum (f : FailureClass) | FStr (s : string).

(** A [StrEnum] member equals the string of its value. *)
Definition failure_text (f : failure_ref) : string :=
  match f with FEnum f => enum_value f | FStr s => s end.

#[export] Instance failure_ref_eq_dec : EqDecision failure_ref.
Proof. solve_decision. Defined.

Record ExecutionContext := mkContext {
  identity : ExecutionIdentity;
  objective : string;
  constraints : dict;
  metadata : dict;
  status : ExecutionStatus;
  risk_level : RiskLevel;
  intent : option dict;
  plan : option dict;
  current_node : option string;
  working_memory : dict;
  retrieved_context : list dict;
  artifacts : list dict;
  approvals : list dict;
  escalations : list dict;
  observations : list dict;
  validation_results : list dict;
  retry_count : Z;
  recovery_attempts : Z;
  last_failure : option failure_ref;
  error : option dict;
  created_at : datetime;
  updated_at : datetime }.

#[export] Instance ExecutionIdentity_eq_dec : EqDecision ExecutionIdentity.
Proof. solve_decision. Defined.
#[export] Instance ExecutionContext_eq_dec : EqDecision ExecutionContext.
Proof. solve_decision. Defined.

(** A context built with the dataclass defaults. *)
Definition new_context (i : ExecutionIdentity) (obj : string) (created updated : datetime) :
    ExecutionContext :=
  mkContext i obj [] [] RECEIVED LOW None None None [] [] [] [] [] [] [] 0 0 None None
    created updated.

(** ** Field assignment *)

Definition ctx_eta (c : ExecutionContext) : ExecutionContext :=
  mkContext (identity c) (objective c) (constraints c) (metadata c) (status c) (risk_level c)
    (intent c) (plan c) (current_node c) (working_memory c) (retrieved_context c) (artifacts c)
    (approvals c) (escalations c) (observations c) (validation_results c) (retry_count c)
    (recovery_attempts c) (last_failure c) (error c) (created_at c) (updated_at c).

Ltac ctx_upd c old new := let e := eval cbv delta [ctx_eta] beta in (ctx_eta c) in upd e old new.

Definition with_metadata (v : dict) (c : ExecutionContext) : ExecutionContext :=
  ltac:(ctx_upd c (metadata c) v).
Definition with_constraints (v : dict) (c : ExecutionContext) : ExecutionContext :=
  ltac:(ctx_upd c (constraints c) v).
Definition with_status (v : ExecutionStatus) (c : ExecutionContext) : ExecutionContext :=
  ltac:(ctx_upd c (status c) v).
Definition with_risk_level (v : RiskLevel) (c : ExecutionContext) : ExecutionContext :=
  ltac:(ctx_upd c (risk_level c) v).
Definition with_intent (v : option dict) (c : ExecutionContext) : ExecutionContext :=
  ltac:(ctx_upd c (intent c) v).
Definition with_plan (v : option dict) (c : ExecutionContext) : ExecutionContext :=
  ltac:(ctx_upd c (plan c) v).
Definition with_current_node (v : option string) (c : ExecutionContext) : ExecutionContext :=
  ltac:(ctx_upd c (current_node c) v).
Definition with_working_memory (v : dict) (c : ExecutionContext) : ExecutionContext :=
  ltac:(ctx_upd c (working_memory c) v).
Definition with_retrieved_context (v : list dict) (c : ExecutionContext) : ExecutionContext :=
  ltac:(ctx_upd c (retrieved_context c) v).
Definition with_artifacts (v : list dict) (c : ExecutionContext) : ExecutionContext :=
  ltac:(ctx_upd c (artifacts c) v).
Definition with_approvals (v : list dict) (c : ExecutionContext) : ExecutionContext :=
  ltac:(ctx_upd c (approvals c) v).
Definition with_escalations (v : list dict) (c : ExecutionContext) : ExecutionContext :=
  ltac:(ctx_upd c (escalations c) v).
Definition with_observations (v : list dict) (c : ExecutionContext) : ExecutionContext :=
  ltac:(ctx_upd c (observations c) v).
Definition with_validation_results (v : list dict) (c : ExecutionContext) : ExecutionContext :=
  ltac:(ctx_upd c (validation_results c) v).
Definition with_retry_count (v : Z) (c : ExecutionContext) : ExecutionContext :=
  ltac:(ctx_upd c (retry_count c) v).
Definition with_recovery_attempts (v : Z) (c : ExecutionContext) : ExecutionContext :=
  ltac:(ctx_upd c (recovery_attempts c) v).
Definition with_last_failure (v : option failure_ref) (c : ExecutionContext) : ExecutionContext :=
  ltac:(ctx_upd c (last_failure c) v).
Definition with_ctx_error (v : option dict) (c : ExecutionContext) : ExecutionContext :=
  ltac:(ctx_upd c (error c) v).
Definition with_created_at (v : datetime) (c : ExecutionContext) : ExecutionContext :=
  ltac:(ctx_upd c (created_at c) v).
Definition with_updated_at (v : datetime) (c : ExecutionContext) : ExecutionContext :=
  ltac:(ctx_upd c (updated_at c) v).

(** ** Operations *)

(** [context.touch()] at the time [now]. *)
Definition touch (now : datetime) (c : ExecutionContext) : ExecutionContext :=
  with_updated_at now c.

(** The statuses [set_status] refuses to leave. *)
Definition terminal (s : ExecutionStatus) : bool :=
  bool_decide (s = COMPLETED \/ s = STOPPED \/ s = ESCALATED).

(** [context.set_status(status)], touching the context at [now]. *)
Definition set_status (now : datetime) (s : ExecutionStatus) (c : ExecutionContext) :
    outcome ExecutionContext :=
  if terminal (status c) then
    raise ValueError ("Terminal execution status " +:+ enum_value (status c) +:+
                      " cannot transition to " +:+ enum_value s +:+ ".")
  else Ret (touch now (with_status s c)).

(** One assignment [context.status = s] that [set_status] lets through. *)
Inductive status_step : ExecutionStatus -> ExecutionStatus -> Prop :=
  | status_move s t : terminal s = false -> status_step s t.

Definition opt_str (o : option string) : pyval :=
  match o with Some s => VStr s | None => VNone end.
Definition opt_dict (o : option dict) : pyval :=
  match o with Some d => VDict d | None => VNone end.
Definition dict_list (l : list dict) : pyval := VList (VDict <$> l).

Section checkpoint_form.
Context `{IsoFormat}.

(** [self.last_failure.value if self.last_failure else None]: a bare string
    has no [value] attribute. *)
Definition last_failure_value (o : option failure_ref) : outcome pyval :=
  match o with
  | None => Ret VNone
  | Some (FEnum f) => Ret (VStr (enum_value f))
  | Some (FStr s) =>
      if String.eqb s "" then Ret VNone
      else raise AttributeError "'str' object has no attribute 'value'"
  end.

Definition to_dict (c : ExecutionContext) : outcome dict :=
  out_bind (last_failure_value (last_failure c)) (fun lf =>
  Ret [("identity", VDict [
          ("execution_id", VStr (uuid_str (execution_id (identity c))));
          ("tenant_id", VStr (tenant_id (identity c)));
          ("workflow_id", opt_str (workflow_id (identity c)));
          ("workflow_version", opt_str (workflow_version (identity c)))]);
       ("objective", VStr (objective c));
       ("constraints", VDict (constraints c));
       ("metadata", VDict (metadata c));
       ("status", VStr (enum_value (status c)));
       ("risk_level", VStr (enum_value (risk_level c)));
       ("intent", opt_dict (intent c));
       ("plan", opt_dict (plan c));
       ("current_node", opt_str (current_node c));
       ("working_memory", VDict (working_memory c));
       ("retrieved_context", dict_list (retrieved_context c));
       ("artifacts", dict_list (artifacts c));
       ("approvals", dict_list (approvals c));
       ("escalations", dict_list (escalations c));
       ("observations", dict_list (observations c));
       ("validation_results", dict_list (validation_results c));
       ("retry_count", VInt (retry_count c));
       ("recovery_attempts", VInt (recovery_attempts c));
       ("last_failure", lf);
       ("error", opt_dict (error c));
       ("created_at", VStr (isoformat (created_at c)));
       ("updated_at", VStr (isoformat (updated_at c)))]).

(** Readers for the field types.  [setattr] would store any value; a reader
    that answers [None] marks a payload the record type cannot hold. *)
Definition read_opt_str (v : pyval) : option (option string) :=
  match v with VNone => Some None | VStr s => Some (Some s) | _ => None end.
Definition read_dict (v : pyval) : option dict :=
  match v with VDict d => Some d | _ => None end.
Definition read_opt_dict (v : pyval) : option (option dict) :=
  match v with VNone => Some None | VDict d => Some (Some d) | _ => None end.
Definition read_dict_list (v : pyval) : option (list dict) :=
  match v with VList l => mapM read_dict l | _ => None end.
Definition read_int (v : pyval) : option Z :=
  match v with VInt z => Some z | _ => None end.
Definition read_failure (v : pyval) : option (option failure_ref) :=
  match v with VNone => Some None | VStr s => Some (Some (FStr s)) | _ => None end.
Definition read_time (v : pyval) : option datetime :=
  match v with VStr s => fromisoformat s | _ => None end.

(** One turn of the loop over [fields(context)]. *)
Definition set_field {A} (payload : dict) (name : string) (read : pyval -> option A)
    (set : A -> ExecutionContext -> ExecutionContext) (c : option ExecutionContext) :
    option ExecutionContext :=
  c ≫= fun c =>
  match dget name payload with
  | None => Some c
  | Some v => (fun x => set x c) <$> read v
  end.

(** The turn for a field whose current value is an enumeration member: a value
    that is no member leaves the field alone. *)
Definition set_enum {T} `{StrEnum T} (payload : dict) (name : string)
    (set : T -> ExecutionContext -> ExecutionContext) (c : option ExecutionContext) :
    option ExecutionContext :=
  c ≫= fun c =>
  match dget name payload with
  | Some (VStr s) => Some (match enum_lookup s with Some m => set m c | None => c end)
  | _ => Some c
  end.

Definition restore_identity (payload : dict) (fresh : uuid) : option ExecutionIdentity :=
  let ip := match dget "identity" payload with Some (VDict d) => d | _ => [] end in
  let eid := match dget "execution_id" ip with
             | None | Some VNone => fresh
             | Some raw => match py_str raw with
                           | Some s => match uuid_parse s with Ret u => u | Raise _ => fresh end
                           | None => fresh
                           end
             end in
  tid ← py_str (dget_or "tenant_id" (VStr "default") ip);
  wid ← read_opt_str (dget_or "workflow_id" VNone ip);
  wv ← read_opt_str (dget_or "workflow_version" VNone ip);
  Some (mkIdentity eid tid wid wv).

(** [ExecutionContext.from_dict(payload)]: a fresh UUID is drawn first and the
    dataclass defaults read the clock twice. *)
Definition from_dict (payload : dict) (e : Env) : option ExecutionContext * Env :=
  let '(fresh, e) := uuid4 e in
  let '(t1, e) := utc_now e in
  let '(t2, e) := utc_now e in
  let start :=
    i ← restore_identity payload fresh;
    o ← py_str (dget_or "objective" (VStr "") payload);
    Some (new_context i o t1 t2) in
  let c := set_field payload "constraints" read_dict with_constraints start in
  let c := set_field payload "metadata" read_dict with_metadata c in
  let c := set_enum payload "status" with_status c in
  let c := set_enum payload "risk_level" with_risk_level c in
  let c := set_field payload "intent" read_opt_dict with_intent c in
  let c := set_field payload "plan" read_opt_dict with_plan c in
  let c := set_field payload "current_node" read_opt_str with_current_node c in
  let c := set_field payload "working_memory" read_dict with_working_memory c in
  let c := set_field payload "retrieved_context" read_dict_list with_retrieved_context c in
  let c := set_field payload "artifacts" read_dict_list with_artifacts c in
  let c := set_field payload "approvals" read_dict_list with_approvals c in
  let c := set_field payload "escalations" read_dict_list with_escalations c in
  let c := set_field payload "observations" read_dict_list with_observations c in
  let c := set_field payload "validation_results" read_dict_list with_validation_results c in
  let c := set_field payload "retry_count" read_int with_retry_count c in
  let c := set_field payload "recovery_attempts" read_int with_recovery_attempts c in
  let c := set_field payload "last_failure" read_failure with_last_failure c in
  let c := set_field payload "error" read_opt_dict with_ctx_error c in
  let c := set_field payload "created_at" read_time with_created_at c in
  let c := set_field payload "updated_at" read_time with_updated_at c in
  (c, e).

(** What a checkpoint gives back: the same context, except that a recorded
    failure class comes back as its bare string. *)
Definition restored (c : ExecutionContext) : ExecutionContext :=
  with_last_failure
    (match last_failure c with Some (FEnum f) => Some (FStr (enum_value f)) | _ => None end) c.

(** ** Lemmas *)

Lemma read_dict_list_spec l : read_dict_list (dict_list l) = Some l.
Proof.
  unfold read_dict_list, dict_list. induction l as [|d l IH]; [done|].
  rewrite fmap_cons. simpl. by rewrite IH.
Qed.

Lemma read_opt_str_spec o : read_opt_str (opt_str o) = Some o.
Proof. by destruct o. Qed.
Lemma read_opt_dict_spec o : read_opt_dict (opt_dict o) = Some o.
Proof. by destruct o. Qed.

(** [from_dict] reads its payload only through lookups. *)
Lemma from_dict_ext d1 d2 e : (forall k, dget k d1 = dget k d2) -> from_dict d1 e = from_dict d2 e.
Proof.
  intros Hext. unfold from_dict, restore_identity, set_field, set_enum, dget_or.
  by rewrite !Hext.
Qed.

Lemma read_opt_failure_spec o v :
  last_failure_value o = Ret v ->
  read_failure v = Some (match o with Some (FEnum f) => Some (FStr (enum_value f)) | _ => None end).
Proof. destruct o as [[f|s]|]; simpl; [|case_match|]; intros; by out_simpl. Qed.

Lemma set_field_hit {A} payload name (read : pyval -> option A) set v x c :
  dget name payload = Some v -> read v = Some x ->
  set_field payload name read set (Some c) = Some (set x c).
Proof. intros Hv Hx. unfold set_field. simpl. by rewrite Hv, Hx. Qed.

Lemma set_enum_hit {T} `{StrEnum T} payload name (set : T -> _ -> _) m c :
  dget name payload = Some (VStr (enum_value m)) ->
  set_enum payload name set (Some c) = Some (set m c).
Proof. intros Hv. unfold set_enum. simpl. by rewrite Hv, enum_lookup_value. Qed.

Lemma restore_identity_spec d i fresh :
  uuid_ok (execution_id i) ->
  dget "identity" d = Some (VDict [
    ("execution_id", VStr (uuid_str (execution_id i)));
    ("tenant_id", VStr (tenant_id i));
    ("workflow_id", opt_str (workflow_id i));
    ("workflow_version", opt_str (workflow_version i))]) ->
  restore_identity d fresh = Some i.
Proof.
  intros Hu Hd. unfold restore_identity. rewrite Hd. cbn -[uuid_parse uuid_str].
  rewrite uuid_parse_str by done. destruct i as [? ? [?|] [?|]]; done.
Qed.

(** The reader of a field accepts what [to_dict] wrote for it. *)
Ltac restore_field :=
  first [ apply read_dict_list_spec | apply read_opt_dict_spec | apply read_opt_str_spec
        | apply fromisoformat_isoformat | eassumption | reflexivity ].

(** Reading back what [to_dict] wrote. *)
Lemma from_dict_of_to_dict (c : ExecutionContext) (d : dict) (e : Env) :
  to_dict c = Ret d -> uuid_ok (execution_id (identity c)) ->
  fst (from_dict d e) = Some (restored c).
Proof.
  intros Hd Hu. unfold to_dict in Hd.
  destruct (last_failure_value (last_failure c)) as [lf|] eqn:Elf; simpl in Hd; [|discriminate].
  apply read_opt_failure_spec in Elf.
  injection Hd as Hd. unfold from_dict. cbn [uuid4 utc_now fst].
  rewrite (restore_identity_spec d (identity c)); [|exact Hu|by rewrite <- Hd].
  assert (dget "objective" d = Some (VStr (objective c))) as Ho by by rewrite <- Hd.
  unfold dget_or at 1. rewrite Ho. cbn [mbind option_bind py_str default from_option id].
  cbv [id]. cbn [mbind option_bind py_str].
  repeat first
    [ erewrite set_field_hit; [| rewrite <- Hd; reflexivity | restore_field]
    | erewrite set_enum_hit by (rewrite <- Hd; reflexivity) ].
  unfold restored. by destruct c.
Qed.

End checkpoint_form.

(** ** Contexts that JSON keeps as they are

    Every value stored in the context is already in JSON's own form: no tuples,
    no objects JSON cannot encode, dictionaries with sorted keys.  The contexts
    the kernel builds from JSON input are of this kind. *)
Definition durable `{IsoFormat} (c : ExecutionContext) : Prop :=
  forall d, to_dict c = Ret d -> norm_obj d = Ret d.

Lemma norm_obj_fix d :
  norm_obj d = Ret d <-> Forall (fun kv => json_norm (snd kv) = Ret (snd kv)) d.
Proof.
  induction d as [|[k v] d IH]; simpl; [by split; [constructor|]|].
  rewrite Forall_cons, <- IH. simpl. split.
  - destruct (json_norm v) as [w|]; simpl; [|discriminate].
    destruct (norm_obj d) as [d'|]; simpl; [|discriminate]. intros E. by simplify_eq.
  - intros [-> ->]. done.
Qed.

Lemma durable_touch `{IsoFormat} now c : durable c -> durable (touch now c).
Proof.
  unfold durable, to_dict. intros Hc d Hd. simpl in Hd.
  destruct (last_failure_value (last_failure c)) as [lf|]; simpl in *; [|discriminate].
  specialize (Hc _ eq_refl). apply norm_obj_fix in Hc. apply norm_obj_fix.
  injection Hd as <-. repeat (apply Forall_cons in Hc as [? Hc]; constructor; [done|]).
  constructor.
Qed.

(** Equality of contexts up to the time of the last update. *)
Definition same_but_time (c1 c2 : ExecutionContext) : Prop :=
  with_updated_at 0%Z c1 = with_updated_at 0%Z c2.

#[export] Instance same_but_time_equiv : Equivalence same_but_time.
Proof. split; unfold same_but_time; [by intros c | by intros c1 c2 -> | by intros c1 c2 c3 -> ->]. Qed.

(** A checkpoint and the context it was taken from: equal except for the Python
    type of the recorded failure class. *)
Definition same_checkpoint (c1 c2 : ExecutionContext) : Prop :=
  with_last_failure None c1 = with_last_failure None c2 /\
  (forall f2, last_failure c2 = Some f2 ->
     exists f1, last_failure c1 = Some f1 /\ failure_text f1 = failure_text f2).

Lemma same_checkpoint_refl c : same_checkpoint c c.
Proof. split; eauto. Qed.

Lemma same_checkpoint_restored c : same_checkpoint c (restored c).
Proof.
  split; [by destruct c|]. unfold restored. intros f2. simpl.
  destruct (last_failure c) as [[f|s]|]; intros; simplify_eq. by exists (FEnum f).
Qed.

Lemma same_checkpoint_fields c1 c2 :
  same_checkpoint c1 c2 ->
  identity c2 = identity c1 /\ status c2 = status c1 /\ plan c2 = plan c1 /\
  retry_count c2 = retry_count c1 /\ recovery_attempts c2 = recovery_attempts c1.
Proof.
  intros [E _]. split_and!.
  all: match goal with |- ?f _ = ?f _ => apply (f_equal f) in E; symmetry; exact E end.
Qed.

Section checkpoint_text.
Context `{IsoFormat}.

(** Through JSON text: a durable context is restored from its own checkpoint
    text, key order notwithstanding. *)
Lemma from_dict_json (c : ExecutionContext) (d : dict) (t : json_text) (e : Env) :
  durable c -> uuid_ok (execution_id (identity c)) ->
  to_dict c = Ret d -> dumps (VDict d) = Ret t ->
  exists d', loads t = VDict d' /\ fst (from_dict d' e) = Some (restored c).
Proof.
  intros Hdur Hu Hd Ht. unfold dumps in Ht. rewrite json_norm_dict, (Hdur _ Hd) in Ht.
  simpl in Ht. out_simpl. exists (sort_keys d). split; [done|].
  rewrite <- (from_dict_of_to_dict c d e) by done. f_equal. apply from_dict_ext.
  intros k. apply dget_sort_keys.
  unfold to_dict in Hd. destruct (last_failure_value _); simpl in Hd; [|discriminate].
  injection Hd as <-. unfold dict_ok, dkeys. cbn [map fst].
  apply (bool_decide_unpack _). by vm_compute.
Qed.

End checkpoint_text.

#[global] Arguments from_dict : simpl never.
#[global] Arguments to_dict : simpl never.
