(* ===== verification/Recovery.v ===== *)
(** * Failure recovery: [ois/kernel/recovery.py]

    [RecoveryBackoff] computes a bounded exponential delay on binary64 floats;
    [RecoveryPolicy] classifies a failure and applies the decision to the
    execution context. *)

From stdpp Require Import base strings list.
From Stdlib Require Import ZArith Lia Floats.SpecFloat.
From S2P Require Import Prelude Uuid Types State.

(** ** Backoff *)

Record RecoveryBackoff := mkBackoff { base_seconds : spec_float; max_seconds : spec_float }.

(** [RecoveryBackoff(base, max)] with [__post_init__]. *)
Definition new_backoff (base max : spec_float) : outcome RecoveryBackoff :=
  if SFltb base (S754_zero false) then raise ValueError "base_seconds must be >= 0"
  else if SFltb max base then raise ValueError "max_seconds must be >= base_seconds"
  else Ret (mkBackoff base max).

(** [float(2 ** k)] for [k >= 0]: exact below [2 ** 1024], an error from there. *)
Definition float_pow2 (k : Z) : outcome spec_float :=
  if (k <? 1024)%Z then Ret (S754_finite false 4503599627370496 (k - 52))
  else raise OverflowError "int too large to convert to float".

(** Python's [min(a, b)] keeps [a] unless [b < a]. *)
Definition py_min (a b : spec_float) : spec_float := if SFltb b a then b else a.

Definition delay (p : RecoveryBackoff) (retry_number : Z) : outcome spec_float :=
  if (retry_number <? 1)%Z then raise ValueError "retry_number must be >= 1"
  else out_bind (float_pow2 (retry_number - 1)) (fun f =>
       Ret (py_min (max_seconds p) (SFmul 53 1024 (base_seconds p) f))).

Lemma SFltb_asym a b : SFltb a b = true -> SFltb b a = false.
Proof.
  unfold SFltb, SFcompare.
  destruct a as [|[]| |[] m1 e1], b as [|[]| |[] m2 e2]; try done;
    rewrite (Z.compare_antisym e1 e2);
    change (Pos.compare_cont Eq m2 m1) with (Pos.compare m2 m1);
    change (Pos.compare_cont Eq m1 m2) with (Pos.compare m1 m2);
    rewrite (Pos.compare_antisym m1 m2);
    destruct (e1 ?= e2)%Z, (m1 ?= m2)%positive; done.
Qed.

Lemma SFltb_irrefl a : SFltb a a = false.
Proof.
  destruct (SFltb a a) eqn:E; [|done]. pose proof (SFltb_asym _ _ E). congruence.
Qed.

Lemma py_min_bound a b : SFltb a (py_min a b) = false.
Proof.
  unfold py_min. destruct (SFltb b a) eqn:E; [by apply SFltb_asym | apply SFltb_irrefl].
Qed.

(** ** Policy *)

Record RecoveryDecision := mkDecision {
  rd_failure : failure_ref;
  rd_action : string;
  rd_retry_allowed : bool;
  rd_terminal : bool;
  rd_reason : string }.

Record RecoveryPolicy := mkRecoveryPolicy { max_retries : Z; max_recovery_attempts : Z }.

(** The constructor's checks. *)
Definition new_recovery_policy (retries attempts : Z) : outcome RecoveryPolicy :=
  if (retries <? 0)%Z then raise ValueError "max_retries must be >= 0"
  else if (attempts <? 0)%Z then raise ValueError "max_recovery_attempts must be >= 0"
  else Ret (mkRecoveryPolicy retries attempts).

(** [RecoveryPolicy()] *)
Definition default_recovery_policy : RecoveryPolicy := mkRecoveryPolicy 2 3.

(** The member a failure value compares equal to. *)
Definition failure_member (f : failure_ref) : option FailureClass := enum_lookup (failure_text f).

Definition classify (p : RecoveryPolicy) (failure : failure_ref) (c : ExecutionContext) :
    RecoveryDecision :=
  match failure_member failure with
  | Some TRANSIENT =>
      let allowed := (retry_count c <? max_retries p)%Z in
      mkDecision failure (if allowed then "retry" else "escalate") allowed (negb allowed)
        (if allowed then "Transient failure is retryable." else "Transient retry limit exhausted.")
  | Some PARAMETER =>
      mkDecision failure "correct" false false "Parameters require correction before retry."
  | Some TOOL =>
      mkDecision failure "fallback" false false
        "Tool failure should use an alternative capability."
  | Some PLAN => mkDecision failure "replan" false false "Plan failure requires replanning."
  | Some STATE =>
      let allowed := (recovery_attempts c <? max_recovery_attempts p)%Z in
      mkDecision failure (if allowed then "recover" else "escalate") false (negb allowed)
        (if allowed then "State recovery is permitted." else "State recovery limit exhausted.")
  | Some PERMISSION =>
      mkDecision failure "escalate" false false "Permission failures require escalation."
  | Some SAFETY =>
      mkDecision failure "stop" false true "Safety failures must terminate execution."
  | _ =>
      mkDecision (FEnum UNKNOWN) "escalate" false false "Unknown failure requires escalation."
  end.

(** [context.set_status(s)] as a statement: when it raises, the context keeps
    the assignments made before it. *)
Definition set_status_m (now : datetime) (s : ExecutionStatus) : M ExecutionContext unit :=
  fun c => match set_status now s c with
           | Ret c' => (Ret tt, c')
           | Raise e => (Raise e, c)
           end.

(** The [if]/[elif] chain of [apply] on the decision's action. *)
Definition apply_action (now : datetime) (action : string) : M ExecutionContext unit :=
  if String.eqb action "retry" then
    bind (modify (fun c => with_retry_count (retry_count c + 1)%Z c))
         (fun _ => set_status_m now RECOVERING)
  else if String.eqb action "recover" then
    bind (modify (fun c => with_recovery_attempts (recovery_attempts c + 1)%Z c))
         (fun _ => set_status_m now RECOVERING)
  else if String.eqb action "replan" then
    bind (modify (fun c => with_recovery_attempts (recovery_attempts c + 1)%Z c))
         (fun _ => set_status_m now REPLANNING)
  else if String.eqb action "escalate" then set_status_m now ESCALATED
  else if String.eqb action "stop" then set_status_m now STOPPED
  else ret tt.

Definition apply (now : datetime) (p : RecoveryPolicy) (failure : FailureClass) :
    M ExecutionContext RecoveryDecision :=
  fun c =>
  let decision := classify p (FEnum failure) c in
  let c := with_last_failure (Some (FEnum failure)) c in
  let c := with_ctx_error (Some [
             ("failure_class", VStr (enum_value failure));
             ("recovery_action", VStr (rd_action decision));
             ("reason", VStr (rd_reason decision))]) c in
  bind (apply_action now (rd_action decision)) (fun _ => ret decision) c.

(** The status an action moves a live context to, if any. *)
Definition action_status (action : string) : option ExecutionStatus :=
  if String.eqb action "retry" then Some RECOVERING
  else if String.eqb action "recover" then Some RECOVERING
  else if String.eqb action "replan" then Some REPLANNING
  else if String.eqb action "escalate" then Some ESCALATED
  else if String.eqb action "stop" then Some STOPPED
  else None.

(** ** Lemmas *)

Lemma failure_member_enum f : failure_member (FEnum f) = Some f.
Proof. apply enum_lookup_value. Qed.

#[export] Hint Rewrite failure_member_enum : oisr.

(** [apply] decides by [classify], whatever happens to the status. *)
Lemma apply_decision now p f c d c' :
  apply now p f c = (Ret d, c') -> d = classify p (FEnum f) c.
Proof.
  unfold apply. mred. destruct (apply_action _ _ _) as [[?|?] ?]; intros; by simplify_eq.
Qed.

(** A live context: [apply] returns and sets the status of the action. *)
Lemma apply_live now p f c :
  terminal (status c) = false ->
  exists c', apply now p f c = (Ret (classify p (FEnum f) c), c') /\
    status c' = default (status c) (action_status (rd_action (classify p (FEnum f) c))) /\
    last_failure c' = Some (FEnum f).
Proof.
  intros Hl. unfold apply, classify. autorewrite with oisr.
  unfold apply_action, action_status, set_status_m, set_status.
  destruct f; simpl; repeat case_match; simplify_eq; simpl in *;
    mred; simpl; try rewrite Hl; eauto.
Qed.

(** A terminal context: every decision that changes the status raises. *)
Lemma apply_terminal now p f c :
  terminal (status c) = true ->
  action_status (rd_action (classify p (FEnum f) c)) <> None ->
  exists e c', apply now p f c = (Raise e, c') /\ exn_cls e = ValueError.
Proof.
  intros Hl. unfold apply, classify. autorewrite with oisr.
  unfold apply_action, action_status, set_status_m, set_status, raise.
  destruct f; simpl; repeat case_match; simplify_eq; simpl in *;
    mred; simpl; try rewrite Hl; eauto; done.
Qed.

(** The counters move only as the decision says. *)
Lemma apply_counters now p f c o c' :
  apply now p f c = (o, c') ->
  retry_count c' = (retry_count c + if String.eqb (rd_action (classify p (FEnum f) c)) "retry"
                                    then 1 else 0)%Z /\
  (recovery_attempts c <= recovery_attempts c' <= recovery_attempts c + 1)%Z.
Proof.
  unfold apply, classify. autorewrite with oisr.
  unfold apply_action, set_status_m, set_status, raise.
  destruct f; simpl; repeat case_match; simplify_eq; simpl in *;
    mred; simpl; repeat case_match; intros; simplify_eq; simpl; lia.
Qed.

(** A terminal status stays, whether or not [apply] raises. *)
Lemma apply_status_terminal now p f c :
  terminal (status c) = true -> status (snd (apply now p f c)) = status c.
Proof.
  intros Hl. unfold apply, classify. autorewrite with oisr.
  unfold apply_action, set_status_m, set_status, raise.
  destruct f; simpl; repeat case_match; simplify_eq; simpl in *;
    mred; simpl; try rewrite Hl; done.
Qed.

(** Only a transient failure below the limit is retried. *)
Lemma classify_retry p f c :
  rd_action (classify p (FEnum f) c) = "retry" <->
  f = TRANSIENT /\ (retry_count c < max_retries p)%Z.
Proof.
  unfold classify. autorewrite with oisr. rewrite <- Z.ltb_lt.
  destruct f; simpl; try (split; [done | by intros [? ?]]).
  - destruct (_ <? _)%Z; simpl; naive_solver.
  - destruct (_ <? _)%Z; simpl; naive_solver.
Qed.

(** The retry budget is an invariant of [apply]. *)
Lemma apply_retry_bound now p f c o c' :
  apply now p f c = (o, c') -> (retry_count c <= max_retries p)%Z ->
  (retry_count c' <= max_retries p)%Z.
Proof.
  intros H Hle. destruct (apply_counters _ _ _ _ _ _ H) as [-> _].
  destruct (String.eqb_spec (rd_action (classify p (FEnum f) c)) "retry") as [E|]; [|lia].
  apply classify_retry in E. lia.
Qed.

(** Failure classes no run recovers from: [apply] ends the execution. *)
Definition fatal (f : FailureClass) : bool :=
  bool_decide (f = PERMISSION \/ f = SAFETY \/ f = UNKNOWN).

Lemma apply_fatal now p f c d c' :
  fatal f = true -> apply now p f c = (Ret d, c') -> terminal (status c') = true.
Proof.
  intros Hf. unfold apply, classify. autorewrite with oisr.
  unfold apply_action, set_status_m, set_status, raise.
  destruct f; try done; simpl; mred; simpl; destruct (terminal _); intros; by simplify_eq.
Qed.

(** One call of [apply], at some time and for some failure, that may raise. *)
Definition recovery_step (p : RecoveryPolicy) (a b : ExecutionContext) : Prop :=
  exists now f, b = snd (apply now p f a).

(** ** Consecutive failures of one class *)

(** [n] calls of [apply] with one failure class at the times [now 0, ...]; the
    decisions are collected, and a raised exception stops the run. *)
Fixpoint apply_run (now : nat -> datetime) (p : RecoveryPolicy) (f : FailureClass) (n : nat) :
    M ExecutionContext (list RecoveryDecision) :=
  match n with
  | O => ret []
  | S n => bind (apply (now n) p f) (fun d => bind (apply_run now p f n) (fun ds => ret (d :: ds)))
  end.

Lemma apply_transient_retry now p c :
  terminal (status c) = false -> (retry_count c < max_retries p)%Z ->
  exists c', apply now p TRANSIENT c = (Ret (classify p (FEnum TRANSIENT) c), c') /\
    rd_action (classify p (FEnum TRANSIENT) c) = "retry" /\
    status c' = RECOVERING /\ retry_count c' = (retry_count c + 1)%Z.
Proof.
  intros Hl Hlt. destruct (apply_live now p TRANSIENT c Hl) as (c' & Ha & Hs & _).
  assert (rd_action (classify p (FEnum TRANSIENT) c) = "retry") as Hr by by apply classify_retry.
  exists c'. split_and!; [done | done | by rewrite Hs, Hr |].
  destruct (apply_counters _ _ _ _ _ _ Ha) as [-> _]. by rewrite Hr.
Qed.

Lemma apply_run_transient now p n c :
  terminal (status c) = false -> (retry_count c + Z.of_nat n <= max_retries p)%Z ->
  exists ds c', apply_run now p TRANSIENT n c = (Ret ds, c') /\
    Forall (fun d => rd_action d = "retry") ds /\ length ds = n /\
    terminal (status c') = false /\ retry_count c' = (retry_count c + Z.of_nat n)%Z.
Proof.
  revert c. induction n as [|n IH]; intros c Hl Hle; cbn [apply_run].
  { exists [], c. split_and!; try done. lia. }
  destruct (apply_transient_retry (now n) p c) as (c1 & Ha & Hr & Hs & Hc); [done | lia |].
  destruct (IH c1) as (ds & c2 & Hrun & Hall & Hlen & Hl2 & Hc2); [by rewrite Hs | lia |].
  exists (classify p (FEnum TRANSIENT) c :: ds), c2.
  unfold bind. rewrite Ha, Hrun. split_and!; simpl; eauto; lia.
Qed.
