(* ===== verification/Policy.v ===== *)
(** * Cancellation, invocation requests and the default policy engine

    [ois/kernel/cancellation.py], the request record of
    [ois/kernel/contracts.py] and [ois/kernel/policy.py]. *)

From stdpp Require Import base gmap strings list sorting.
From Stdlib Require Import ZArith Lia Floats.SpecFloat.
From S2P Require Import Prelude Uuid Types State.

(** ** Cancellation

    The lock makes every operation atomic, so the token is its two fields. *)

Record CancellationToken := mkToken { cancelled : bool; cancel_reason : option string }.

Definition new_token : CancellationToken := mkToken false None.

Definition cancel (reason : option string) (_ : CancellationToken) : CancellationToken :=
  mkToken true reason.

(** [self.reason or "Execution cancelled."]: an empty reason is falsy too. *)
Definition raise_if_cancelled (t : CancellationToken) : outcome unit :=
  if cancelled t then
    raise ExecutionCancellation
      (match cancel_reason t with
       | Some r => if String.eqb r "" then "Execution cancelled." else r
       | None => "Execution cancelled."
       end)
  else Ret tt.

(** ** Requests

    The request holds the execution context and the token themselves; a value
    of this record is what the callee sees when it is called. *)

Record InvocationRequest := mkRequest {
  rq_invocation_id : string;
  rq_capability_id : string;
  rq_input : dict;
  rq_execution : ExecutionContext;
  rq_timeout_seconds : option spec_float;
  rq_attempt : Z;
  rq_cancellation : option CancellationToken }.

(** ** Policy *)

Record PolicyDecision := mkPolicyDecision {
  allowed : bool;
  reasons : list string;
  requires_approval : bool }.

Record DefaultPolicyEngine := mkPolicy {
  allowed_permissions : gset string;
  maximum_risk : RiskLevel;
  allow_irreversible : bool }.

(** [DefaultPolicyEngine()] *)
Definition default_policy : DefaultPolicyEngine := mkPolicy ∅ MEDIUM false.

Definition risk_order (r : RiskLevel) : Z :=
  match r with LOW => 0 | MEDIUM => 1 | HIGH => 2 | CRITICAL => 3 end.

Definition missing_permissions (p : DefaultPolicyEngine) (c : CapabilityContract) : gset string :=
  list_to_set (permissions c) ∖ allowed_permissions p.

(** [DefaultPolicyEngine.evaluate]: the four checks append their reasons in
    order. *)
Definition evaluate (p : DefaultPolicyEngine) (rq : InvocationRequest) (c : CapabilityContract) :
    PolicyDecision :=
  let rs :=
    (if String.eqb (tenant_id (identity (rq_execution rq))) ""
     then ["Execution must have a tenant identity."] else []) ++
    (if (risk_order (maximum_risk p) <? risk_order (cc_risk_level c))%Z
     then ["Capability risk exceeds policy limit: " +:+ enum_value (cc_risk_level c)] else []) ++
    (if bool_decide (missing_permissions p c = ∅) then []
     else ["Missing permissions: " +:+
           join ", " (sorted_strings (elements (missing_permissions p c)))]) ++
    (if bool_decide (side_effects c = IRREVERSIBLE) && negb (allow_irreversible p)
     then ["Irreversible side effects are not permitted."] else []) in
  mkPolicyDecision
    (bool_decide (rs = [])) rs
    (bool_decide (cc_risk_level c = HIGH \/ cc_risk_level c = CRITICAL) ||
     bool_decide (side_effects c = IRREVERSIBLE)).

Definition authorize (p : DefaultPolicyEngine) (rq : InvocationRequest) (c : CapabilityContract) :
    outcome bool :=
  let decision := evaluate p rq c in
  if allowed decision then Ret true
  else raise AuthorizationDenied (join "; " (reasons decision)).

(** ** Specification

    What an allowed invocation satisfies, independently of the order and the
    text of the checks. *)

Record permitted (p : DefaultPolicyEngine) (rq : InvocationRequest) (c : CapabilityContract) :
    Prop := mkPermitted {
  perm_tenant : tenant_id (identity (rq_execution rq)) <> "";
  perm_risk : (risk_order (cc_risk_level c) <= risk_order (maximum_risk p))%Z;
  perm_permissions : forall x, x ∈ permissions c -> x ∈ allowed_permissions p;
  perm_irreversible : side_effects c = IRREVERSIBLE -> allow_irreversible p = true }.

Lemma missing_permissions_empty p c :
  missing_permissions p c = ∅ <-> (forall x, x ∈ permissions c -> x ∈ allowed_permissions p).
Proof.
  unfold missing_permissions. rewrite set_eq.
  setoid_rewrite elem_of_difference. setoid_rewrite elem_of_list_to_set.
  split.
  - intros H x Hx. destruct (decide (x ∈ allowed_permissions p)); [done|].
    exfalso. apply (not_elem_of_empty (C := gset string) x), H. done.
  - intros H x. split; [intros [Hx Hn]; by apply H in Hx | intros Hx; by apply elem_of_empty in Hx].
Qed.

Lemma evaluate_allowed p rq c : allowed (evaluate p rq c) = true <-> permitted p rq c.
Proof.
  unfold evaluate. cbn [allowed]. rewrite bool_decide_eq_true, !app_nil.
  split.
  - intros (H1 & H2 & H3 & H4). split.
    + intros E. by rewrite E in H1.
    + destruct (Z.ltb_spec (risk_order (maximum_risk p)) (risk_order (cc_risk_level c)));
        [done | lia].
    + apply missing_permissions_empty. destruct (bool_decide _) eqn:E in H3; [|done].
      by apply bool_decide_eq_true in E.
    + intros E. rewrite bool_decide_eq_true_2 in H4 by done. by destruct (allow_irreversible p).
  - intros [H1 H2 H3 H4]. split_and!.
    + by rewrite (proj2 (String.eqb_neq _ _)).
    + destruct (Z.ltb_spec (risk_order (maximum_risk p)) (risk_order (cc_risk_level c)));
        [lia | done].
    + apply missing_permissions_empty in H3. by rewrite bool_decide_eq_true_2.
    + destruct (decide (side_effects c = IRREVERSIBLE)).
      * by rewrite H4, andb_false_r.
      * by rewrite bool_decide_eq_false_2.
Qed.

Lemma authorize_ret p rq c b : authorize p rq c = Ret b -> b = true /\ permitted p rq c.
Proof.
  unfold authorize. destruct (allowed (evaluate p rq c)) eqn:E; intros H; out_simpl.
  split; [done | by apply evaluate_allowed].
Qed.

Lemma authorize_permitted p rq c : permitted p rq c -> authorize p rq c = Ret true.
Proof. intros H. apply evaluate_allowed in H. unfold authorize. by rewrite H. Qed.

Lemma authorize_denied p rq c e :
  authorize p rq c = Raise e -> exn_cls e = AuthorizationDenied /\ ~ permitted p rq c.
Proof.
  unfold authorize. destruct (allowed (evaluate p rq c)) eqn:E; unfold raise; intros H; out_simpl.
  split; [done|]. rewrite <- evaluate_allowed. congruence.
Qed.

(** [p2] allows at least what [p1] allows. *)
Record policy_le (p1 p2 : DefaultPolicyEngine) : Prop := mkPolicyLe {
  le_permissions : allowed_permissions p1 ⊆ allowed_permissions p2;
  le_risk : (risk_order (maximum_risk p1) <= risk_order (maximum_risk p2))%Z;
  le_irreversible : allow_irreversible p1 = true -> allow_irreversible p2 = true }.

#[export] Instance policy_le_preorder : PreOrder policy_le.
Proof.
  split.
  - intros p. split; [done | lia | done].
  - intros p q r [] []. split; [set_solver | lia | auto].
Qed.

Lemma permitted_mono p1 p2 rq c : policy_le p1 p2 -> permitted p1 rq c -> permitted p2 rq c.
Proof. intros [] []. split; [done | lia | set_solver | auto]. Qed.

#[export] Hint Resolve authorize_permitted permitted_mono : ois.
