(* ===== verification/Validation.v ===== *)
(** * Contract validation: [ois/kernel/validation.py]

    [validate_schema] is [ContractValidator._validate_schema] on the schema
    vocabulary type, enum, required and properties; [conforms] says what a
    value has to satisfy, and the two agree. *)

From stdpp Require Import base strings list.
From Stdlib Require Import ZArith.
From S2P Require Import Prelude Uuid Types State Policy.

(** The table [type_validators]: [None] for a name it does not have. *)
Definition type_validator (name : string) (v : pyval) : option bool :=
  if String.eqb name "string" then Some (match v with VStr _ => true | _ => false end)
  else if String.eqb name "integer" then Some (match v with VInt _ => true | _ => false end)
  else if String.eqb name "number" then
    Some (match v with VInt _ | VFloat _ => true | _ => false end)
  else if String.eqb name "boolean" then Some (match v with VBool _ => true | _ => false end)
  else if String.eqb name "object" then Some (match v with VDict _ => true | _ => false end)
  else if String.eqb name "array" then
    Some (match v with VList _ | VTuple _ => true | _ => false end)
  else None.

(** The expected type of a schema when the value does not have it. *)
Definition type_mismatch (schema : dict) (value : pyval) : option string :=
  match dget "type" schema with
  | Some (VStr t) => match type_validator t value with Some false => Some t | _ => None end
  | _ => None
  end.

Definition enum_errors (schema : dict) (value : pyval) (path : string) : list string :=
  match dget "enum" schema with
  | Some (VList l | VTuple l) =>
      if py_in value l then [] else [path +:+ ": value is not one of the allowed enum values."]
  | _ => []
  end.

Definition required_errors (schema : dict) (value : pyval) (path : string) : list string :=
  match dget "required" schema, value with
  | Some (VList l | VTuple l), VDict d =>
      omap (fun f => match f with
                     | VStr name => if dmem name d then None
                                    else Some (path +:+ ": missing required field '" +:+ name +:+ "'.")
                     | _ => None
                     end) l
  | _, _ => []
  end.

(** The recursion goes through the schema: the inner loop walks to the first
    "properties" entry, the one [schema.get] finds. *)
Fixpoint validate_schema (schema : pyval) (value : pyval) (path : string) {struct schema} :
    list string :=
  match schema with
  | VDict sd =>
      match type_mismatch sd value with
      | Some t => [path +:+ ": expected " +:+ t +:+ "."]
      | None =>
          enum_errors sd value path ++ required_errors sd value path ++
          (fix go (d : dict) : list string :=
             match d with
             | [] => []
             | (k, ps) :: d =>
                 if String.eqb "properties" k then
                   match ps, value with
                   | VDict fields, VDict vd =>
                       (fix each (fields : dict) : list string :=
                          match fields with
                          | [] => []
                          | (f, fs) :: fields =>
                              match dget f vd, fs with
                              | Some v, VDict _ => validate_schema fs v (path +:+ "." +:+ f)
                              | _, _ => []
                              end ++ each fields
                          end) fields
                   | _, _ => []
                   end
                 else go d
             end) sd
      end
  | _ => []
  end.

Definition validate_input (rq : InvocationRequest) (c : CapabilityContract) : outcome unit :=
  match validate_schema (VDict (input_schema c)) (VDict (rq_input rq)) "input" with
  | [] => Ret tt
  | errors => raise InputValidationError (join "; " errors)
  end.

Definition validate_output (r : InvocationResult) (c : CapabilityContract) : outcome unit :=
  match validate_schema (VDict (output_schema c)) (ir_output r) "output" with
  | [] => Ret tt
  | errors => raise OutputValidationError (join "; " errors)
  end.

(** ** Specification *)

Definition type_ok (schema : dict) (value : pyval) : Prop :=
  forall t, dget "type" schema = Some (VStr t) -> type_validator t value <> Some false.

Definition enum_ok (schema : dict) (value : pyval) : Prop :=
  forall l, dget "enum" schema = Some (VList l) \/ dget "enum" schema = Some (VTuple l) ->
  exists w, w ∈ l /\ py_eq value w = true.

Definition required_ok (schema : dict) (value : pyval) : Prop :=
  forall l d name, dget "required" schema = Some (VList l) \/ dget "required" schema = Some (VTuple l) ->
  value = VDict d -> VStr name ∈ l -> name ∈ dkeys d.

Inductive conforms : dict -> pyval -> Prop :=
  | conforms_intro schema value :
      type_ok schema value -> enum_ok schema value -> required_ok schema value ->
      (forall fields vd f fs v,
         dget "properties" schema = Some (VDict fields) -> value = VDict vd ->
         (f, VDict fs) ∈ fields -> dget f vd = Some v -> conforms fs v) ->
      conforms schema value.

(** ** The loop over [properties], as its own function *)

Fixpoint property_errors (fields : dict) (vd : dict) (path : string) : list string :=
  match fields with
  | [] => []
  | (f, fs) :: fields =>
      match dget f vd, fs with
      | Some v, VDict _ => validate_schema fs v (path +:+ "." +:+ f)
      | _, _ => []
      end ++ property_errors fields vd path
  end.

Definition properties_errors (schema : dict) (value : pyval) (path : string) : list string :=
  match dget "properties" schema, value with
  | Some (VDict fields), VDict vd => property_errors fields vd path
  | _, _ => []
  end.

Lemma validate_schema_dict sd value path :
  validate_schema (VDict sd) value path =
  match type_mismatch sd value with
  | Some t => [path +:+ ": expected " +:+ t +:+ "."]
  | None => enum_errors sd value path ++ required_errors sd value path ++
            properties_errors sd value path
  end.
Proof.
  cbn [validate_schema]. destruct (type_mismatch sd value); [done|]. do 2 f_equal.
  unfold properties_errors. generalize sd. intros d. induction d as [|[k ps] d IH]; [done|].
  cbn [dget]. destruct (String.eqb "properties" k); [|by apply IH].
  destruct ps as [| | | | | | |fields|]; try done. destruct value as [| | | | | | |vd|]; try done.
  induction fields as [|[f fs] fields IHf]; [done|]. cbn [property_errors]. by rewrite <- IHf.
Qed.

Lemma type_mismatch_None sd v : type_mismatch sd v = None <-> type_ok sd v.
Proof.
  unfold type_mismatch, type_ok.
  destruct (dget "type" sd) as [[]|]; try (split; [naive_solver | done]).
  destruct (type_validator s v) as [[]|] eqn:E; split; try done; intros; simplify_eq; try congruence.
  exfalso. by eapply H.
Qed.

Lemma py_in_spec v l : py_in v l = true <-> exists w, w ∈ l /\ py_eq v w = true.
Proof.
  unfold py_in. rewrite existsb_exists. by setoid_rewrite <- list_elem_of_In.
Qed.

Lemma enum_errors_nil sd v path : enum_errors sd v path = [] <-> enum_ok sd v.
Proof.
  unfold enum_errors, enum_ok.
  destruct (dget "enum" sd) as [[]|]; try (split; [intros _ l [?|?]; by simplify_eq | done]).
  all: setoid_rewrite <- py_in_spec; destruct (py_in v l) eqn:E; split; try done;
    [intros _ ? [?|?]; by simplify_eq | intros H; exfalso; assert (py_in v l = true) by eauto; congruence].
Qed.

Lemma omap_nil {A B} (f : A -> option B) l : omap f l = [] <-> forall x, x ∈ l -> f x = None.
Proof.
  induction l as [|x l IH]; simpl.
  - split; [intros _ x Hx; by apply elem_of_nil in Hx | done].
  - setoid_rewrite elem_of_cons. destruct (f x) eqn:E; naive_solver.
Qed.

Lemma required_errors_nil sd v path : required_errors sd v path = [] <-> required_ok sd v.
Proof.
  unfold required_errors, required_ok.
  destruct (dget "required" sd) as [[]|];
    try (split; [intros _ ? ? ? [?|?]; by simplify_eq | done]).
  all: destruct v; try (split; [intros _ ? ? ? [?|?] ?; by simplify_eq | done]).
  all: rewrite omap_nil; split;
    [ intros H l' d' name [?|?] ? Hin; simplify_eq; specialize (H _ Hin); simpl in H;
      case_match; [by apply dmem_spec | done]
    | intros H x Hx; destruct x; try done;
      rewrite (proj2 (dmem_spec s d)) by eauto; done ].
Qed.

(** The loop reports nothing when every declared field that is present
    conforms to its own schema. *)
Lemma property_errors_nil fields vd path :
  (forall f sd v path, (f, VDict sd) ∈ fields ->
     validate_schema (VDict sd) v path = [] <-> conforms sd v) ->
  property_errors fields vd path = [] <->
  (forall f sd v, (f, VDict sd) ∈ fields -> dget f vd = Some v -> conforms sd v).
Proof.
  induction fields as [|[f fs] fields IH]; intros Hv; cbn [property_errors].
  { split; [intros _ ? ? ? Hin; by apply elem_of_nil in Hin | done]. }
  rewrite app_nil, IH by (intros f1 ????; apply (Hv f1); by right).
  split.
  - intros [H1 H2] f' sd v Hin Hg. apply elem_of_cons in Hin as [?|Hin]; [|by eapply H2].
    simplify_eq. rewrite Hg in H1. by eapply Hv; [left|].
  - intros H. split; [|intros; eapply H; [by right | done]].
    destruct (dget f vd) as [v|] eqn:Eg; [|done]. destruct fs; try done.
    eapply (Hv f); [by left|]. eapply H; [by left | done].
Qed.

Lemma conforms_unfold (sd : dict) (v : pyval) :
  conforms sd v <->
  type_ok sd v /\ enum_ok sd v /\ required_ok sd v /\
  (forall (fields vd : dict) (f : string) (fs : dict) (x : pyval),
     dget "properties" sd = Some (VDict fields) -> v = VDict vd ->
     (f, VDict fs) ∈ fields -> dget f vd = Some x -> conforms fs x).
Proof. split; [intros []; eauto | intros (?&?&?&?); by constructor]. Qed.

Lemma properties_errors_nil sd v path :
  (forall fields f fd v path, dget "properties" sd = Some (VDict fields) ->
     (f, VDict fd) ∈ fields -> validate_schema (VDict fd) v path = [] <-> conforms fd v) ->
  properties_errors sd v path = [] <->
  (forall fields vd f fs x, dget "properties" sd = Some (VDict fields) -> v = VDict vd ->
     (f, VDict fs) ∈ fields -> dget f vd = Some x -> conforms fs x).
Proof.
  intros Hv. unfold properties_errors.
  destruct (dget "properties" sd) as [[]|]; try (split; naive_solver).
  destruct v; try (split; naive_solver).
  rewrite property_errors_nil by (intros; by eapply Hv). split.
  - intros H fields vd f fs x ? ?. simplify_eq. apply H.
  - intros H f sd' v Hin Hg. by eapply H.
Qed.

(** The validator reports no error exactly on the values that conform. *)
Lemma validate_schema_nil sd v path : validate_schema (VDict sd) v path = [] <-> conforms sd v.
Proof.
  enough (forall sch,
    (forall sd v path, sch = VDict sd -> validate_schema sch v path = [] <-> conforms sd v) /\
    (forall d f sd v path, sch = VDict d -> (f, VDict sd) ∈ d ->
       validate_schema (VDict sd) v path = [] <-> conforms sd v)) as H
    by by eapply (proj1 (H (VDict sd))).
  clear. intros sch. induction sch as [| | | | | | |d IH|] using pyval_ind; try (split; intros; discriminate).
  rewrite Forall_forall in IH. split.
  - intros sd v path ?. simplify_eq. rewrite validate_schema_dict, conforms_unfold.
    rewrite <- (properties_errors_nil sd v path).
    2:{ intros fields f fd w path' Hp Hin. apply dget_Some_elem in Hp.
        eapply (proj2 (IH _ Hp)); done. }
    rewrite <- type_mismatch_None, <- (enum_errors_nil sd v path),
      <- (required_errors_nil sd v path).
    destruct (type_mismatch sd v); [naive_solver|]. rewrite !app_nil. naive_solver.
  - intros d' f sd v path ? Hin. simplify_eq. by apply (proj1 (IH _ Hin)).
Qed.

Lemma validate_input_spec rq c :
  (validate_input rq c = Ret tt <-> conforms (input_schema c) (VDict (rq_input rq))) /\
  (forall e, validate_input rq c = Raise e -> exn_cls e = InputValidationError).
Proof.
  unfold validate_input. rewrite <- (validate_schema_nil _ _ "input").
  destruct (validate_schema _ _ _); unfold raise; split; naive_solver.
Qed.

Lemma validate_output_spec r c :
  (validate_output r c = Ret tt <-> conforms (output_schema c) (ir_output r)) /\
  (forall e, validate_output r c = Raise e -> exn_cls e = OutputValidationError).
Proof.
  unfold validate_output. rewrite <- (validate_schema_nil _ _ "output").
  destruct (validate_schema _ _ _); unfold raise; split; naive_solver.
Qed.
