(* ===== verification/Planning.v ===== *)
(** * Execution plans: [ois/kernel/planning.py] and [ois/kernel/planner.py]

    A plan is a table of tasks with dependencies.  [validate] rejects unknown
    dependencies and cycles by depth-first search; [ready_tasks] marks and
    returns the tasks whose dependencies have succeeded.  The facts below: the
    search accepts exactly the acyclic plans and needs no more frames than the
    plan has tasks; a validated plan whose tasks are pending or done always has
    a task to run. *)

From stdpp Require Import base gmap strings list relations.
From Stdlib Require Import ZArith Lia.
From S2P Require Import Prelude Uuid Types State.
Local Open Scope py_scope.

Inductive TaskStatus :=
  | T_PENDING | T_READY | T_RUNNING | T_SUCCEEDED | T_FAILED | T_BLOCKED | T_SKIPPED.

#[export] Instance TaskStatus_eq_dec : EqDecision TaskStatus.
Proof. solve_decision. Defined.

Definition TaskStatus_value (s : TaskStatus) : string :=
  match s with
  | T_PENDING => "pending" | T_READY => "ready" | T_RUNNING => "running"
  | T_SUCCEEDED => "succeeded" | T_FAILED => "failed" | T_BLOCKED => "blocked"
  | T_SKIPPED => "skipped"
  end.

#[export, program] Instance TaskStatus_enum : StrEnum TaskStatus := {|
  enum_value := TaskStatus_value;
  enum_members := [T_PENDING; T_READY; T_RUNNING; T_SUCCEEDED; T_FAILED; T_BLOCKED; T_SKIPPED] |}.
Next Obligation. by intros []. Qed.

Record TaskNode := mkTask {
  task_id : string;
  capability_id : string;
  capability_version : string;
  input_data : dict;
  dependencies : list string;
  task_status : TaskStatus;
  task_output : pyval;
  task_error : option dict;
  task_metadata : dict }.

#[export] Instance TaskNode_eq_dec : EqDecision TaskNode.
Proof. solve_decision. Defined.

Definition with_task_status (s : TaskStatus) (t : TaskNode) : TaskNode :=
  mkTask (task_id t) (capability_id t) (capability_version t) (input_data t) (dependencies t)
    s (task_output t) (task_error t) (task_metadata t).
Definition with_task_output (v : pyval) (t : TaskNode) : TaskNode :=
  mkTask (task_id t) (capability_id t) (capability_version t) (input_data t) (dependencies t)
    (task_status t) v (task_error t) (task_metadata t).
Definition with_task_error (e : option dict) (t : TaskNode) : TaskNode :=
  mkTask (task_id t) (capability_id t) (capability_version t) (input_data t) (dependencies t)
    (task_status t) (task_output t) e (task_metadata t).

(** [self.tasks]: the insertion-ordered table. *)
Definition task_table : Type := list (string * TaskNode).

Record ExecutionPlan := mkPlan {
  plan_id : string;
  plan_version : string;
  plan_objective : string;
  tasks : task_table;
  plan_metadata : dict }.

#[export] Instance ExecutionPlan_eq_dec : EqDecision ExecutionPlan.
Proof. solve_decision. Defined.

Definition with_tasks (ts : task_table) (p : ExecutionPlan) : ExecutionPlan :=
  mkPlan (plan_id p) (plan_version p) (plan_objective p) ts (plan_metadata p).

(** A statement [task.attr = ...] on the node stored under [id]. *)
Definition update_task (id : string) (f : TaskNode -> TaskNode) (ts : task_table) : task_table :=
  match dget id ts with Some t => dset id (f t) ts | None => ts end.

Definition add_task (p : ExecutionPlan) (t : TaskNode) : outcome ExecutionPlan :=
  if dmem (task_id t) (tasks p) then
    raise DuplicateTaskError ("Task already exists: " +:+ task_id t)
  else Ret (with_tasks (dset (task_id t) t (tasks p)) p).

(** ** Validation *)

Definition unknown_dependency (ts : task_table) (t : TaskNode) : option string :=
  List.find (fun d => negb (dmem d ts)) (dependencies t).

Fixpoint check_dependencies (ts : task_table) (l : list TaskNode) : outcome unit :=
  match l with
  | [] => Ret tt
  | t :: l =>
      match unknown_dependency ts t with
      | Some d => raise UnknownDependencyError
                    ("Task " +:+ task_id t +:+ " depends on unknown task " +:+ d)
      | None => check_dependencies ts l
      end
  end.

Definition validate_dependencies (p : ExecutionPlan) : outcome unit :=
  check_dependencies (tasks p) (dvalues (tasks p)).

(** The state of the search: the sets [visiting] and [visited]. *)
Definition visit_state : Type := gset string * gset string.

Section visit.
Variable ts : task_table.

Section each.
Variable visit : string -> visit_state -> outcome visit_state.
(** [for x in l: visit(x)] *)
Fixpoint visit_each (l : list string) (st : visit_state) : outcome visit_state :=
  match l with
  | [] => Ret st
  | x :: l => st <-? visit x st ;; visit_each l st
  end.
End each.

(** The local function [visit]; [frames] is the number of interpreter frames
    left below the recursion limit. *)
Fixpoint visit (frames : nat) (t : string) (st : visit_state) : outcome visit_state :=
  match frames with
  | O => raise (OtherException "RecursionError") "maximum recursion depth exceeded"
  | S frames =>
      if bool_decide (t ∈ fst st) then
        raise CyclicPlanError ("Dependency cycle detected at " +:+ t)
      else if bool_decide (t ∈ snd st) then Ret st
      else match dget t ts with
           | None => raise KeyError t
           | Some node =>
               st <-? visit_each (visit frames) (dependencies node) ({[t]} ∪ fst st, snd st) ;;
               Ret (fst st ∖ {[t]}, {[t]} ∪ snd st)
           end
  end.
End visit.

Definition validate_cycles (frames : nat) (p : ExecutionPlan) : outcome unit :=
  _ <-? visit_each (visit (tasks p) frames) (dkeys (tasks p)) (∅, ∅) ;; Ret tt.

Definition validate (frames : nat) (p : ExecutionPlan) : outcome unit :=
  _ <-? validate_dependencies p ;; validate_cycles frames p.

(** ** Scheduling *)

(** [all(self.tasks[d].status == SUCCEEDED for d in deps)], which stops at the
    first failure and raises on a missing key. *)
Fixpoint deps_succeeded (ts : task_table) (deps : list string) : outcome bool :=
  match deps with
  | [] => Ret true
  | d :: deps =>
      match dget d ts with
      | None => raise KeyError d
      | Some t => if bool_decide (task_status t = T_SUCCEEDED) then deps_succeeded ts deps
                  else Ret false
      end
  end.

Fixpoint ready_loop (ids : list string) (ts : task_table) : outcome (list string * task_table) :=
  match ids with
  | [] => Ret ([], ts)
  | id :: ids =>
      match dget id ts with
      | None => ready_loop ids ts
      | Some t =>
          if bool_decide (task_status t = T_PENDING) then
            ok <-? deps_succeeded ts (dependencies t) ;;
            if (ok : bool) then
              r <-? ready_loop ids (dset id (with_task_status T_READY t) ts) ;;
              Ret (id :: fst r, snd r)
            else ready_loop ids ts
          else ready_loop ids ts
      end
  end.

(** [plan.ready_tasks()]: the keys of the returned nodes, and the plan with
    those nodes marked READY. *)
Definition ready_tasks (p : ExecutionPlan) : outcome (list string * ExecutionPlan) :=
  r <-? ready_loop (dkeys (tasks p)) (tasks p) ;; Ret (fst r, with_tasks (snd r) p).

Definition is_complete (p : ExecutionPlan) : bool :=
  forallb (fun t => bool_decide (task_status t = T_SUCCEEDED \/ task_status t = T_SKIPPED))
    (dvalues (tasks p)).

Definition has_failed (p : ExecutionPlan) : bool :=
  existsb (fun t => bool_decide (task_status t = T_FAILED)) (dvalues (tasks p)).

(** ** Checkpoint form *)

Definition task_to_dict (t : TaskNode) : dict := [
  ("task_id", VStr (task_id t)); ("capability_id", VStr (capability_id t));
  ("capability_version", VStr (capability_version t)); ("input_data", VDict (input_data t));
  ("dependencies", VList (VStr <$> dependencies t));
  ("status", VStr (enum_value (task_status t))); ("output", task_output t);
  ("error", opt_dict (task_error t)); ("metadata", VDict (task_metadata t))].

(** [str(payload[k])] *)
Definition read_key_str (k : string) (payload : dict) : reader string :=
  match dget k payload with
  | None => Some (raise KeyError k)
  | Some v => Ret <$> py_str v
  end.

Definition read_str_list (v : pyval) : option (list string) :=
  match v with
  | VList l | VTuple l => mapM (fun x => match x with VStr s => Some s | _ => None end) l
  | _ => None
  end.

(** [TaskStatus(value)] *)
Definition read_task_status (v : pyval) : outcome TaskStatus :=
  match v with
  | VStr s => match enum_lookup s with
              | Some m => Ret m
              | None => raise ValueError (s +:+ " is not a valid TaskStatus")
              end
  | _ => raise ValueError "not a valid TaskStatus"
  end.

Definition task_from_dict (payload : dict) : reader TaskNode :=
  id <-! read_key_str "task_id" payload ;;
  cap <-! read_key_str "capability_id" payload ;;
  ver <-! read_key_str "capability_version" payload ;;
  inp <-! Ret <$> read_dict (dget_or "input_data" (VDict []) payload) ;;
  deps <-! Ret <$> read_str_list (dget_or "dependencies" (VTuple []) payload) ;;
  st <-! Some (read_task_status (dget_or "status" (VStr "pending") payload)) ;;
  err <-! Ret <$> read_opt_dict (dget_or "error" VNone payload) ;;
  md <-! Ret <$> read_dict (dget_or "metadata" (VDict []) payload) ;;
  Some (Ret (mkTask id cap ver inp deps st (dget_or "output" VNone payload) err md)).

Definition plan_to_dict (p : ExecutionPlan) : dict := [
  ("plan_id", VStr (plan_id p)); ("version", VStr (plan_version p));
  ("objective", VStr (plan_objective p));
  ("tasks", VDict ((fun kt => (fst kt, VDict (task_to_dict (snd kt)))) <$> tasks p));
  ("metadata", VDict (plan_metadata p))].

(** The loop of [ExecutionPlan.from_dict] over [tasks_payload.items()]. *)
Fixpoint load_tasks (l : dict) (p : ExecutionPlan) : reader ExecutionPlan :=
  match l with
  | [] => Some (Ret p)
  | (k, v) :: l =>
      d <-! Ret <$> read_dict v ;;
      t <-! task_from_dict d ;;
      if String.eqb (task_id t) k then
        p <-! Some (add_task p t) ;; load_tasks l p
      else Some (raise PlanError "Checkpoint task key does not match task_id")
  end.

(** [ExecutionPlan.from_dict]; [fresh] is the text of the UUID drawn for a
    payload without plan identifier. *)
Definition plan_from_dict (frames : nat) (fresh : string) (payload : dict) :
    reader ExecutionPlan :=
  pid <-! Ret <$> py_str (dget_or "plan_id" (VStr fresh) payload) ;;
  ver <-! Ret <$> py_str (dget_or "version" (VStr "1.0.0") payload) ;;
  obj <-! Ret <$> py_str (dget_or "objective" (VStr "") payload) ;;
  md <-! Ret <$> read_dict (dget_or "metadata" (VDict []) payload) ;;
  tp <-! Ret <$> read_dict (dget_or "tasks" (VDict []) payload) ;;
  p <-! load_tasks tp (mkPlan pid ver obj [] md) ;;
  _ <-! Some (validate frames p) ;;
  Some (Ret p).

(** ** The plan builder of [planner.py] *)

(** [PlanBuilder(objective)]; the plan identifier is a fresh UUID. *)
Definition new_builder (fresh obj : string) : ExecutionPlan := mkPlan fresh "1.0.0" obj [] [].

(** [builder.task(...)] *)
Definition builder_task (id cap ver : string) (inp : option dict) (deps : list string)
    (md : option dict) (p : ExecutionPlan) : outcome ExecutionPlan :=
  add_task p (mkTask id cap ver (default [] inp) deps T_PENDING VNone None (default [] md)).

Definition build (frames : nat) (p : ExecutionPlan) : outcome ExecutionPlan :=
  _ <-? validate frames p ;; Ret p.

(** ** The dependency graph *)

Definition depends (ts : task_table) (t d : string) : Prop :=
  exists node, dget t ts = Some node /\ d ∈ dependencies node.

Definition deps_known (ts : task_table) : Prop :=
  forall t d, depends ts t d -> d ∈ dkeys ts.

(** No task reaches itself by following dependencies. *)
Definition acyclic (ts : task_table) : Prop := forall t, ~ tc (depends ts) t t.

(** Every dependency chain from [t] ends. *)
Inductive grounded (ts : task_table) : string -> Prop :=
  | grounded_intro t : (forall d, depends ts t d -> grounded ts d) -> grounded ts t.

Lemma grounded_no_cycle ts t : grounded ts t -> ~ tc (depends ts) t t.
Proof.
  induction 1 as [t _ IH]. intros Hc. inversion Hc as [? ? Hd | ? y ? Hd Hy]; subst.
  - by apply (IH t Hd).
  - apply (IH y Hd). eapply tc_r; done.
Qed.

(** ** The depth-first search *)

Section search.
Variable ts : task_table.
Hypothesis ts_ok : dict_ok ts.
Hypothesis known : deps_known ts.

Let keys : gset string := list_to_set (dkeys ts).

Lemma size_keys : size keys = length ts.
Proof. unfold keys. rewrite size_list_to_set by done. apply length_map. Qed.

(** What the search guarantees when called on the tasks [l]. *)
Definition visit_post (l : list string) (st : visit_state) (o : outcome visit_state) : Prop :=
  match o with
  | Ret st' => fst st' = fst st /\ snd st ⊆ snd st' /\ (forall t, t ∈ l -> t ∈ snd st') /\
               (forall x, x ∈ snd st' -> grounded ts x)
  | Raise e => exn_cls e = CyclicPlanError /\ exists x, tc (depends ts) x x
  end.

(** What it relies on: the stack [visiting] leads to the tasks still to visit,
    finished tasks are grounded, and the frames outnumber the free tasks. *)
Definition visit_pre (frames : nat) (l : list string) (st : visit_state) : Prop :=
  (forall t, t ∈ l -> t ∈ keys) /\
  (forall x t, x ∈ fst st -> t ∈ l -> tc (depends ts) x t) /\
  (forall x, x ∈ snd st -> grounded ts x) /\
  fst st ⊆ keys /\ (length ts < frames + size (fst st))%nat.

Lemma visit_each_spec frames (f : string -> visit_state -> outcome visit_state) l :
  (forall t st, visit_pre frames [t] st -> visit_post [t] st (f t st)) ->
  forall st, visit_pre frames l st -> visit_post l st (visit_each f l st).
Proof.
  intros Hf. induction l as [|t l IH]; intros st (Hk & Hp & Hg & Hsub & Hfr); cbn [visit_each].
  { split_and!; [done | done | intros ? Hin; by apply elem_of_nil in Hin | done]. }
  assert (visit_post [t] st (f t st)) as H1.
  { apply Hf. split_and!; [| | done | done | done].
    - intros x Hx%list_elem_of_singleton. subst. apply Hk. by left.
    - intros x y Hx Hy%list_elem_of_singleton. subst. apply Hp; [done | by left]. }
  destruct (f t st) as [st'|e]; simpl in *; [|done].
  destruct H1 as (Hvi & Hvd & Hin & Hgr).
  assert (visit_post l st' (visit_each f l st')) as H2.
  { apply IH. unfold visit_pre. rewrite Hvi. split_and!; try done.
    - intros x Hx. apply Hk. by right.
    - intros x y Hx Hy. apply Hp; [done | by right]. }
  destruct (visit_each f l st') as [st2|e]; simpl in *; [|done].
  destruct H2 as (Hvi2 & Hvd2 & Hin2 & Hgr2). split_and!; [by rewrite Hvi2, Hvi | set_solver | | done].
  intros x Hx. apply elem_of_cons in Hx as [->|Hx]; [|by apply Hin2].
  apply Hvd2, Hin. by left.
Qed.

Lemma visit_spec frames t st : visit_pre frames [t] st -> visit_post [t] st (visit ts frames t st).
Proof.
  revert t st. induction frames as [|frames IH]; intros t st (Hk & Hp & Hg & Hsub & Hfr).
  { apply subseteq_size in Hsub. rewrite size_keys in Hsub. lia. }
  assert (t ∈ keys) as Htk by (apply Hk; by left).
  cbn [visit]. case_bool_decide as Hvi; simpl.
  { split; [done|]. exists t. apply Hp; [done | by left]. }
  case_bool_decide as Hvd; simpl.
  { split_and!; try done. by intros x ->%list_elem_of_singleton. }
  unfold keys in Htk. apply elem_of_list_to_set, dget_is_Some in Htk as [node Hnode].
  rewrite Hnode.
  assert (forall d, d ∈ dependencies node -> depends ts t d) as Hdep by (intros; by exists node).
  assert (visit_post (dependencies node) ({[t]} ∪ fst st, snd st)
    (visit_each (visit ts frames) (dependencies node) ({[t]} ∪ fst st, snd st))) as H.
  { apply visit_each_spec with frames; [done|]. split_and!; simpl.
    - intros d Hd. apply elem_of_list_to_set. by eapply known, Hdep.
    - intros x d Hx Hd. apply elem_of_union in Hx as [->%elem_of_singleton|Hx].
      + by apply tc_once, Hdep.
      + eapply tc_r; [by apply Hp; [|left] | by apply Hdep].
    - done.
    - apply union_subseteq. split; [|done]. apply singleton_subseteq_l.
      apply Hk. by left.
    - rewrite size_union, size_singleton by (by apply disjoint_singleton_l). lia. }
  destruct (visit_each _ _ _) as [[vi vd]|e]; simpl in *; [|done].
  destruct H as (-> & Hsub2 & Hin & Hgr). split_and!.
  - apply set_eq. intros x. rewrite elem_of_difference, elem_of_union, !elem_of_singleton.
    split; [tauto|]. intros Hx. split; [tauto|]. intros ->. done.
  - etransitivity; [done|]. apply union_subseteq_r.
  - intros x ->%list_elem_of_singleton. apply elem_of_union_l, elem_of_singleton. done.
  - intros x [->%elem_of_singleton|Hx]%elem_of_union; [|by apply Hgr].
    constructor. intros d (node' & Hn' & Hd). simplify_eq. by apply Hgr, Hin.
Qed.

Lemma visit_all_spec frames :
  (length ts < frames)%nat ->
  visit_post (dkeys ts) (∅, ∅) (visit_each (visit ts frames) (dkeys ts) (∅, ∅)).
Proof.
  intros Hfr. apply visit_each_spec with frames; [apply visit_spec|].
  split_and!; simpl.
  - intros t Ht. by apply elem_of_list_to_set.
  - intros x t Hx. by apply elem_of_empty in Hx.
  - intros x Hx. by apply elem_of_empty in Hx.
  - apply empty_subseteq.
  - lia.
Qed.

End search.

(** Outside the table no task depends on anything. *)
Lemma grounded_outside ts t : t ∉ dkeys ts -> grounded ts t.
Proof.
  intros Ht. constructor. intros d (node & Hn & _). apply dget_None in Ht. congruence.
Qed.

Lemma validate_cycles_spec frames p :
  dict_ok (tasks p) -> deps_known (tasks p) -> (length (tasks p) < frames)%nat ->
  match validate_cycles frames p with
  | Ret _ => acyclic (tasks p)
  | Raise e => exn_cls e = CyclicPlanError /\ ~ acyclic (tasks p)
  end.
Proof.
  intros Hok Hk Hfr. unfold validate_cycles.
  pose proof (visit_all_spec (tasks p) Hok Hk frames Hfr) as H.
  destruct (visit_each _ _ _) as [st|e]; simpl in *.
  - destruct H as (_ & _ & Hin & Hg). intros t. apply grounded_no_cycle.
    destruct (decide (t ∈ dkeys (tasks p))); [by apply Hg, Hin | by apply grounded_outside].
  - destruct H as [? [x Hx]]. split; [done|]. intros Ha. by apply (Ha x).
Qed.

(** ** Unknown dependencies *)

Lemma unknown_dependency_spec ts t :
  unknown_dependency ts t = None <-> (forall d : string, d ∈ dependencies t -> d ∈ dkeys ts).
Proof.
  unfold unknown_dependency. split.
  - intros H d Hd. apply list_elem_of_In in Hd.
    pose proof (List.find_none _ _ H _ Hd) as E. by apply negb_false_iff, dmem_spec in E.
  - intros H. destruct (List.find _ _) as [d|] eqn:E; [|done].
    apply List.find_some in E as [Hd E]. apply list_elem_of_In, H, dmem_spec in Hd.
    rewrite Hd in E. done.
Qed.

Lemma check_dependencies_spec ts l :
  match check_dependencies ts l with
  | Ret _ => forall t d, t ∈ l -> d ∈ dependencies t -> d ∈ dkeys ts
  | Raise e => exn_cls e = UnknownDependencyError /\
               exists t d, t ∈ l /\ d ∈ dependencies t /\ d ∉ dkeys ts
  end.
Proof.
  induction l as [|t l IH]; cbn [check_dependencies].
  { intros t d Hin. by apply elem_of_nil in Hin. }
  destruct (unknown_dependency ts t) as [d|] eqn:E.
  - unfold raise. split; [done|]. exists t, d. unfold unknown_dependency in E.
    apply List.find_some in E as [Hd E].
    split_and!; [by left | by apply list_elem_of_In |].
    intros Hin%dmem_spec. rewrite Hin in E. done.
  - destruct (check_dependencies ts l).
    + intros t' d Hin Hd. apply elem_of_cons in Hin as [->|Hin]; [|by eapply IH].
      by eapply unknown_dependency_spec.
    + destruct IH as (? & t' & d & ? & ?). split; [done|]. exists t', d. split; [by right | done].
Qed.

Lemma elem_of_dvalues (ts : task_table) (t : TaskNode) :
  dict_ok ts -> t ∈ dvalues ts <-> exists k, dget k ts = Some t.
Proof.
  intros Hok. unfold dvalues. rewrite list_elem_of_fmap. split.
  - intros ([k t'] & -> & Hin). exists k. by apply elem_dget.
  - intros [k Hk]. exists (k, t). split; [done | by apply dget_Some_elem].
Qed.

Lemma validate_dependencies_spec p :
  dict_ok (tasks p) ->
  match validate_dependencies p with
  | Ret _ => deps_known (tasks p)
  | Raise e => exn_cls e = UnknownDependencyError /\ ~ deps_known (tasks p)
  end.
Proof.
  intros Hok. unfold validate_dependencies.
  pose proof (check_dependencies_spec (tasks p) (dvalues (tasks p))) as H.
  destruct (check_dependencies _ _).
  - intros t d (node & Hn & Hd). eapply H; [|done]. apply elem_of_dvalues; eauto.
  - destruct H as (? & t & d & Ht & Hd & Hn). split; [done|]. intros Hk.
    apply elem_of_dvalues in Ht as [k Hk']; [|done]. apply Hn, (Hk k). by exists t.
Qed.

(** [validate] on a table with more frames than tasks. *)
Lemma validate_spec frames p :
  dict_ok (tasks p) -> (length (tasks p) < frames)%nat ->
  match validate frames p with
  | Ret _ => deps_known (tasks p) /\ acyclic (tasks p)
  | Raise e => exn_cls e = UnknownDependencyError /\ ~ deps_known (tasks p) \/
               exn_cls e = CyclicPlanError /\ deps_known (tasks p) /\ ~ acyclic (tasks p)
  end.
Proof.
  intros Hok Hfr. unfold validate. pose proof (validate_dependencies_spec p Hok) as Hd.
  destruct (validate_dependencies p); simpl; [|by left].
  pose proof (validate_cycles_spec frames p Hok Hd Hfr) as Hc.
  destruct (validate_cycles frames p); simpl; [done|]. right. tauto.
Qed.

(** A validated plan has no infinite dependency chain. *)
Lemma validate_grounded frames p :
  dict_ok (tasks p) -> (length (tasks p) < frames)%nat -> validate frames p = Ret tt ->
  deps_known (tasks p) /\ forall t, grounded (tasks p) t.
Proof.
  intros Hok Hfr. unfold validate. pose proof (validate_dependencies_spec p Hok) as Hd.
  destruct (validate_dependencies p); simpl; [|done].
  unfold validate_cycles. pose proof (visit_all_spec (tasks p) Hok Hd frames Hfr) as H.
  destruct (visit_each _ _ _) as [st|e]; simpl in *; [|done].
  destruct H as (_ & _ & Hin & Hg). intros _. split; [done|]. intros t.
  destruct (decide (t ∈ dkeys (tasks p))); [by apply Hg, Hin | by apply grounded_outside].
Qed.

(** ** Updating one task *)

Lemma dget_update_task id f ts k :
  dget k (update_task id f ts) = if decide (k = id) then f <$> dget k ts else dget k ts.
Proof.
  unfold update_task. destruct (dget id ts) as [t|] eqn:E.
  - rewrite dget_dset. case_decide; [subst; by rewrite E | done].
  - case_decide; [subst; by rewrite E | done].
Qed.

Lemma dkeys_update_task id f ts : dkeys (update_task id f ts) = dkeys ts.
Proof.
  unfold update_task. destruct (dget id ts) eqn:E; [|done]. apply dkeys_dset_old. by rewrite E.
Qed.

Lemma length_dkeys {V} (d : list (string * V)) : length (dkeys d) = length d.
Proof. apply length_map. Qed.

(** Two tables with the same tasks up to status, output and error. *)
Definition same_shape (t1 t2 : TaskNode) : Prop :=
  task_id t1 = task_id t2 /\ capability_id t1 = capability_id t2 /\
  capability_version t1 = capability_version t2 /\ input_data t1 = input_data t2 /\
  dependencies t1 = dependencies t2.

#[export] Instance same_shape_equiv : Equivalence same_shape.
Proof.
  split.
  - intros t. by repeat split.
  - intros t1 t2 (?&?&?&?&?). by repeat split.
  - intros t1 t2 t3 (?&?&?&?&?) (?&?&?&?&?). repeat split; congruence.
Qed.

Definition same_graph (ts1 ts2 : task_table) : Prop :=
  dkeys ts1 = dkeys ts2 /\
  forall k, option_Forall2 same_shape (dget k ts1) (dget k ts2).

#[export] Instance same_graph_equiv : Equivalence same_graph.
Proof.
  split.
  - intros ts. split; [done|]. intros k. reflexivity.
  - intros t1 t2 [? H]. split; [done|]. intros k. by symmetry.
  - intros t1 t2 t3 [? H1] [? H2]. split; [congruence|]. intros k. etransitivity; [apply H1 | apply H2].
Qed.

Lemma same_graph_depends ts1 ts2 t d : same_graph ts1 ts2 -> depends ts1 t d -> depends ts2 t d.
Proof.
  intros [_ H] (node & Hn & Hd). specialize (H t). rewrite Hn in H.
  inversion H as [? n2 Hs E1 E2|]; subst. exists n2. split; [done|].
  destruct Hs as (_&_&_&_&<-). done.
Qed.

(** Graph properties do not see status, output and error. *)
#[export] Instance depends_proper : Proper (same_graph ==> eq ==> eq ==> iff) depends.
Proof.
  intros ts1 ts2 H t _ <- d _ <-. split; apply same_graph_depends; [done | by symmetry].
Qed.

#[export] Instance dkeys_graph_proper : Proper (same_graph ==> eq) (@dkeys TaskNode).
Proof. by intros ts1 ts2 [E _]. Qed.

#[export] Instance deps_known_proper : Proper (same_graph ==> iff) deps_known.
Proof. intros ts1 ts2 H. unfold deps_known. by setoid_rewrite H. Qed.

#[export] Instance grounded_proper : Proper (same_graph ==> eq ==> iff) grounded.
Proof.
  assert (forall ts1 ts2 t, same_graph ts1 ts2 -> grounded ts1 t -> grounded ts2 t) as Himp.
  { intros ts1 ts2 t H. induction 1 as [t _ IH]. constructor. intros d Hd. apply IH. by rewrite H. }
  intros ts1 ts2 H t _ <-. split; apply Himp; [done | by symmetry].
Qed.

#[export] Instance dict_ok_graph_proper : Proper (same_graph ==> iff) (@dict_ok TaskNode).
Proof. intros ts1 ts2 [E _]. unfold dict_ok. by rewrite E. Qed.

Lemma same_graph_length ts1 ts2 : same_graph ts1 ts2 -> length ts1 = length ts2.
Proof. intros [E _]. by rewrite <- (length_dkeys ts1), E, length_dkeys. Qed.

Lemma same_graph_update id f ts :
  (forall t, same_shape t (f t)) -> same_graph ts (update_task id f ts).
Proof.
  intros Hf. split; [by rewrite dkeys_update_task|]. intros k. rewrite dget_update_task.
  case_decide; [|reflexivity]. destruct (dget k ts); constructor. apply Hf.
Qed.

(** A plan with an acyclic dependency graph: what [validate] establishes and
    every run of the plan keeps. *)
Record well_founded_table (ts : task_table) : Prop := mkWf {
  wf_keys : dict_ok ts;
  wf_known : deps_known ts;
  wf_grounded : forall t, grounded ts t }.

#[export] Instance well_founded_table_proper : Proper (same_graph ==> iff) well_founded_table.
Proof.
  assert (forall ts1 ts2, same_graph ts1 ts2 -> well_founded_table ts1 -> well_founded_table ts2)
    as Himp.
  { intros ts1 ts2 H [H1 H2 H3]. split; [by rewrite <- H | by rewrite <- H |].
    intros t. by rewrite <- H. }
  intros ts1 ts2 H. split; apply Himp; [done | by symmetry].
Qed.

Lemma validate_well_founded frames p :
  dict_ok (tasks p) -> (length (tasks p) < frames)%nat -> validate frames p = Ret tt ->
  well_founded_table (tasks p).
Proof. intros Hok Hfr Hv. by destruct (validate_grounded frames p Hok Hfr Hv). Qed.

(** ** [ready_tasks] *)

Definition has_status (s : TaskStatus) (ts : task_table) (k : string) : bool :=
  match dget k ts with Some t => bool_decide (task_status t = s) | None => false end.

(** Pending, and every dependency has succeeded. *)
Definition is_ready (ts : task_table) (k : string) : Prop :=
  exists t, dget k ts = Some t /\ task_status t = T_PENDING /\
  forall d, d ∈ dependencies t -> has_status T_SUCCEEDED ts d = true.

Lemma has_status_spec s ts k :
  has_status s ts k = true <-> exists t, dget k ts = Some t /\ task_status t = s.
Proof.
  unfold has_status. destruct (dget k ts) as [t|]; [|naive_solver].
  rewrite bool_decide_eq_true. naive_solver.
Qed.

Lemma deps_succeeded_spec ts deps :
  (forall d, d ∈ deps -> d ∈ dkeys ts) ->
  deps_succeeded ts deps = Ret (forallb (has_status T_SUCCEEDED ts) deps).
Proof.
  induction deps as [|d deps IH]; intros Hin; [done|]. cbn [deps_succeeded forallb].
  assert (d ∈ dkeys ts) as [t Ht]%dget_is_Some by (apply Hin; by left).
  unfold has_status at 1. rewrite Ht.
  case_bool_decide; simpl; [|done]. apply IH. intros x Hx. apply Hin. by right.
Qed.

(** The table after marking the tasks in [l]. *)
Definition marked_ready (l : list string) (ts ts' : task_table) : Prop :=
  dkeys ts' = dkeys ts /\
  forall k, dget k ts' = if decide (k ∈ l) then with_task_status T_READY <$> dget k ts
                         else dget k ts.

Lemma has_status_mark k t ts d :
  dget k ts = Some t -> task_status t = T_PENDING ->
  has_status T_SUCCEEDED (dset k (with_task_status T_READY t) ts) d = has_status T_SUCCEEDED ts d.
Proof.
  intros Hk Hp. unfold has_status. rewrite dget_dset. case_decide; [|done].
  subst. rewrite Hk, Hp. done.
Qed.

Lemma is_ready_mark k t ts k' :
  dget k ts = Some t -> task_status t = T_PENDING -> k' <> k ->
  is_ready (dset k (with_task_status T_READY t) ts) k' <-> is_ready ts k'.
Proof.
  intros Hk Hp Hne. unfold is_ready. rewrite dget_dset_ne by done.
  by setoid_rewrite has_status_mark.
Qed.

(** The loop selects the ready tasks in table order. *)
Lemma ready_loop_spec ids ts :
  deps_known ts -> NoDup ids -> (forall k, k ∈ ids -> k ∈ dkeys ts) ->
  exists l ts', ready_loop ids ts = Ret (l, ts') /\ sublist l ids /\
    (forall k, k ∈ l <-> k ∈ ids /\ is_ready ts k) /\ marked_ready l ts ts'.
Proof.
  revert ts. induction ids as [|k ids IH]; intros ts Hk Hnd Hin; cbn [ready_loop].
  { exists [], ts. split; [done|]. split; [done|].
    split; [|split; [done|]].
    - intros k. split; [intros Hx | intros [Hx _]]; by apply elem_of_nil in Hx.
    - intros k. rewrite decide_False by apply not_elem_of_nil. done. }
  apply NoDup_cons in Hnd as [Hnk Hnd].
  assert (k ∈ dkeys ts) as [t Ht]%dget_is_Some by (apply Hin; by left). rewrite Ht.
  assert (Hskip : ~ is_ready ts k -> exists l ts', ready_loop ids ts = Ret (l, ts') /\
    sublist l (k :: ids) /\ (forall k', k' ∈ l <-> k' ∈ k :: ids /\ is_ready ts k') /\
    marked_ready l ts ts').
  { intros Hn. destruct (IH ts) as (l & ts' & Hl & Hs & Hel & Hm);
      [done | done | intros; apply Hin; by right |].
    exists l, ts'. split; [done|]. split; [by apply sublist_cons|]. split; [|done].
    intros k'. rewrite Hel, elem_of_cons. split; [tauto|]. intros [[->|?] ?]; done. }
  case_bool_decide as Hp.
  2:{ apply Hskip. intros (t' & Ht' & Hp' & _). congruence. }
  rewrite deps_succeeded_spec by (intros d Hd; eapply Hk; by exists t). cbn [out_bind].
  destruct (forallb _ (dependencies t)) eqn:Ef.
  2:{ apply Hskip. intros (t' & Ht' & _ & Hd). simplify_eq.
      assert (forallb (has_status T_SUCCEEDED ts) (dependencies t) = true); [|congruence].
      apply forallb_forall. intros d Hd'. by apply Hd, list_elem_of_In. }
  assert (is_ready ts k) as Hrk.
  { exists t. split_and!; try done. intros d Hd. rewrite forallb_forall in Ef.
    by apply Ef, list_elem_of_In. }
  assert (same_graph ts (dset k (with_task_status T_READY t) ts)) as Hsg.
  { split; [by rewrite dkeys_dset_old by eauto|]. intros k'. rewrite dget_dset.
    case_decide; [subst; rewrite Ht; by repeat constructor | reflexivity]. }
  destruct (IH (dset k (with_task_status T_READY t) ts)) as (l & ts' & Hl & Hs & Hel & Hkeys & Hm);
    [by rewrite <- Hsg | done | intros; destruct Hsg as [<- _]; apply Hin; by right |].
  rewrite Hl. cbn [out_bind fst snd]. exists (k :: l), ts'. split; [done|]. split; [by apply sublist_skip|]. split; [|split].
  - intros k'. rewrite !elem_of_cons, Hel. split.
    + intros [->|[Hin' Hr]]; [by split; [left|]|]. split; [by right|].
      apply is_ready_mark in Hr; [done | done | done |]. by intros ->.
    + intros [[->|Hin'] Hr]; [by left|]. right. split; [done|].
      apply is_ready_mark; [done | done | | done]. by intros ->.
  - by rewrite Hkeys, dkeys_dset_old by eauto.
  - intros k'. rewrite Hm, dget_dset.
    destruct (decide (k' = k)) as [->|Hne].
    + rewrite (decide_True (P := k ∈ k :: l)) by (by left). rewrite Ht.
      case_decide; done.
    + destruct (decide (k' ∈ l)); [by rewrite decide_True by (by right)|].
      rewrite decide_False; [done|]. by rewrite elem_of_cons; intros [].
Qed.

Lemma ready_tasks_spec p :
  dict_ok (tasks p) -> deps_known (tasks p) ->
  exists l ts', ready_tasks p = Ret (l, with_tasks ts' p) /\ sublist l (dkeys (tasks p)) /\
    (forall k, k ∈ l <-> is_ready (tasks p) k) /\ marked_ready l (tasks p) ts'.
Proof.
  intros Hok Hk. unfold ready_tasks.
  destruct (ready_loop_spec (dkeys (tasks p)) (tasks p)) as (l & ts' & Hl & Hs & Hel & Hm);
    [done | done | done |].
  rewrite Hl. cbn [out_bind fst snd]. exists l, ts'. split; [done|]. split; [done|]. split; [|done].
  intros k. rewrite Hel. split; [by intros [_ ?]|]. intros Hr. split; [|done].
  apply dget_is_Some. destruct Hr as (t & -> & _). eauto.
Qed.

(** ** Progress *)

(** Every task is either pending or done. *)
Definition fresh_or_done (ts : task_table) : Prop :=
  forall k t, dget k ts = Some t -> task_status t = T_PENDING \/ task_status t = T_SUCCEEDED.

Lemma pending_leads_to_ready ts k :
  deps_known ts -> fresh_or_done ts -> grounded ts k -> has_status T_PENDING ts k = true ->
  exists k', is_ready ts k'.
Proof.
  intros Hk Hf. induction 1 as [k _ IH]. intros Hp. apply has_status_spec in Hp as (t & Ht & Hp).
  destruct (decide (Forall (fun d => has_status T_SUCCEEDED ts d = true) (dependencies t)))
    as [Hall|Hn].
  - exists k, t. split_and!; try done. by apply Forall_forall.
  - apply not_Forall_Exists, Exists_exists in Hn as (d & Hd & Hns); [|apply _].
    assert (depends ts k d) as Hdep by by exists t.
    apply (IH d Hdep). assert (d ∈ dkeys ts) as [td Htd]%dget_is_Some by by eapply Hk.
    destruct (Hf d td Htd) as [E|E]; [apply has_status_spec; by exists td|].
    exfalso. apply Hns, has_status_spec. by exists td.
Qed.

Lemma is_complete_spec p :
  dict_ok (tasks p) ->
  is_complete p = true <->
  (forall k t, dget k (tasks p) = Some t -> task_status t = T_SUCCEEDED \/ task_status t = T_SKIPPED).
Proof.
  intros Hok. unfold is_complete. rewrite forallb_forall. split.
  - intros H k t Hk. eapply bool_decide_eq_true_1, H, list_elem_of_In, elem_of_dvalues; eauto.
  - intros H t Hin. apply list_elem_of_In, elem_of_dvalues in Hin as [k Hk]; [|done].
    apply bool_decide_eq_true. by eapply H.
Qed.

Lemma ready_tasks_progress p :
  well_founded_table (tasks p) -> fresh_or_done (tasks p) -> is_complete p = false ->
  exists k, is_ready (tasks p) k.
Proof.
  intros [Hok Hk Hg] Hf Hc.
  destruct (decide (Forall (fun kt => task_status (snd kt) <> T_PENDING) (tasks p))) as [Hall|Hn].
  - exfalso. assert (is_complete p = true); [|congruence]. apply is_complete_spec; [done|].
    intros k t Hkt. destruct (Hf k t Hkt) as [E|E]; [|by left].
    rewrite Forall_forall in Hall. by destruct (Hall _ (dget_Some_elem _ _ _ Hkt)).
  - apply not_Forall_Exists, Exists_exists in Hn as ([k t] & Hin & Hp); [|apply _].
    simpl in Hp. apply dec_stable in Hp. eapply (pending_leads_to_ready _ k); [done | done | done |].
    apply has_status_spec. exists t. split; [by apply elem_dget | done].
Qed.

(** ** Checkpoint form *)

Lemma read_str_list_spec l : read_str_list (VList (VStr <$> l)) = Some l.
Proof.
  unfold read_str_list. induction l as [|s l IH]; [done|]. rewrite fmap_cons. cbn [mapM mbind].
  by rewrite IH.
Qed.

Lemma task_roundtrip t : task_from_dict (task_to_dict t) = Some (Ret t).
Proof.
  destruct t as [id cap ver inp deps st out err md]. unfold task_from_dict, task_to_dict.
  cbn -[read_str_list enum_lookup]. rewrite read_str_list_spec. cbn -[enum_lookup].
  destruct err; by destruct st.
Qed.

(** Every node is stored under its own identifier. *)
Definition keyed (ts : task_table) : Prop := forall k t, (k, t) ∈ ts -> task_id t = k.

Lemma load_tasks_spec l p :
  keyed l -> dict_ok (tasks p ++ l) ->
  load_tasks ((fun kt => (fst kt, VDict (task_to_dict (snd kt)))) <$> l) p =
  Some (Ret (with_tasks (tasks p ++ l) p)).
Proof.
  revert p. induction l as [|[k t] l IH]; intros p Hk Hok.
  { simpl. rewrite app_nil_r. by destruct p. }
  rewrite fmap_cons. cbn [load_tasks fst snd read_dict fmap option_fmap option_map rd_bind].
  rewrite task_roundtrip. cbn [rd_bind].
  assert (task_id t = k) as Hid by (apply Hk; by left). rewrite Hid, String.eqb_refl.
  assert (dget k (tasks p) = None) as Hn.
  { apply dget_None. unfold dict_ok, dkeys in Hok. rewrite map_app in Hok.
    apply NoDup_app in Hok as (_ & Hd & _). intros Hin. apply (Hd k Hin). simpl. by left. }
  unfold add_task, dmem. rewrite Hid, bool_decide_eq_false_2 by (rewrite Hn; by intros []).
  cbn [rd_bind]. rewrite dkeys_dset_new by done. rewrite IH; simpl.
  - by rewrite <- app_assoc.
  - intros k' t' Hin. apply Hk. by right.
  - by rewrite <- app_assoc.
Qed.

(** A valid plan comes back from its checkpoint form. *)
Lemma plan_from_to_dict frames fresh p :
  dict_ok (tasks p) -> keyed (tasks p) -> validate frames p = Ret tt ->
  plan_from_dict frames fresh (plan_to_dict p) = Some (Ret p).
Proof.
  intros Hok Hk Hv. unfold plan_from_dict, plan_to_dict. cbn -[load_tasks validate fmap].
  unfold fmap at 1 2 3 4 5. cbn [option_fmap option_map rd_bind].
  rewrite load_tasks_spec by done. cbn [rd_bind].
  set (q := with_tasks _ _). assert (q = p) as -> by (by destruct p). by rewrite Hv.
Qed.
