(* ===== verification/Jsonb.v ===== *)
(** * JSONB columns

    PostgreSQL parses the text written to a JSONB column and the driver decodes
    what it reads.  Neither is code of this repository: the pair is an interface,
    with what PostgreSQL documents as its laws.  The decoded value has the
    structure of the text that was written, but keys may come in any order and a
    number may come back in another notation; texts without floats and without
    NUL characters come back as they were. *)

From stdpp Require Import base gmap strings list.
From Stdlib Require Import ZArith Lia Ascii.
From S2P Require Import Prelude Json.

Definition is_number (v : pyval) : bool :=
  match v with VInt _ | VFloat _ => true | _ => false end.

(** The same value up to the order of keys and the notation of numbers. *)
Unset Elimination Schemes.
Inductive json_like : pyval -> pyval -> Prop :=
  | like_none : json_like VNone VNone
  | like_bool b : json_like (VBool b) (VBool b)
  | like_str s : json_like (VStr s) (VStr s)
  | like_number v w : is_number v = true -> is_number w = true -> json_like v w
  | like_list l k : Forall2 json_like l k -> json_like (VList l) (VList k)
  | like_dict d d' :
      (forall k v, dget k d = Some v -> exists w, dget k d' = Some w /\ json_like v w) ->
      (forall k, dget k d = None -> dget k d' = None) ->
      json_like (VDict d) (VDict d').
Set Elimination Schemes.

Definition plain_string (s : string) : bool :=
  negb (bool_decide ("000"%char ∈ String.list_ascii_of_string s)).

(** Values without floats, without NUL characters and without integers that
    exceed the decimal digits Python converts. *)
Fixpoint json_plain (v : pyval) : bool :=
  match v with
  | VNone | VBool _ => true
  | VInt z => (Z.log2 (Z.abs z) <? 14000)%Z
  | VFloat _ | VObj _ => false
  | VStr s => plain_string s
  | VList l | VTuple l => forallb json_plain l
  | VDict d => forallb (fun kv => plain_string (fst kv) && json_plain (snd kv)) d
  end.

Class Jsonb := {
  (** the value of [%s::jsonb] for a text, or the error of the cast *)
  jsonb_in : json_text -> outcome json_text;
  (** the Python value the driver, or [json.loads], makes of it *)
  jsonb_out : json_text -> pyval }.

Class JsonbLaws `{JB : Jsonb} := {
  jsonb_like v t u : dumps v = Ret t -> jsonb_in t = Ret u -> json_like (loads t) (jsonb_out u);
  jsonb_plain v t : json_plain v = true -> dumps v = Ret t ->
    exists u, jsonb_in t = Ret u /\ dumps (jsonb_out u) = Ret t }.

(** ** Facts *)

Lemma like_dict_inv d w : json_like (VDict d) w ->
  exists d', w = VDict d' /\
    (forall k v, dget k d = Some v -> exists w, dget k d' = Some w /\ json_like v w) /\
    (forall k, dget k d = None -> dget k d' = None).
Proof. inversion 1; subst; [done | by eexists]. Qed.

Lemma like_str_inv s w : json_like (VStr s) w -> w = VStr s.
Proof. by inversion 1. Qed.
Lemma like_none_inv w : json_like VNone w -> w = VNone.
Proof. by inversion 1. Qed.

(** A decoded text is like itself. *)
Lemma json_like_norm v w : json_norm v = Ret w -> json_like w w.
Proof.
  revert w. induction v as [| | | | |l IH|l IH|d IH|] using pyval_ind; intros w H;
    try (simpl in H; out_simpl; by constructor).
  1,2: first [rewrite json_norm_list in H | rewrite json_norm_tuple in H];
    destruct (norm_seq l) as [l'|] eqn:E; simpl in H; [|discriminate]; out_simpl; constructor;
    revert l' E; induction IH as [|x l Hx _ IHl]; simpl; intros l' E; [by out_simpl|];
    destruct (json_norm x) eqn:Ex; simpl in E; [|discriminate];
    destruct (norm_seq l); simpl in E; [|discriminate]; out_simpl;
    constructor; [by apply Hx | by apply IHl].
  - rewrite json_norm_dict in H. destruct (norm_obj d) as [d'|] eqn:E; simpl in H; [|discriminate].
    out_simpl. constructor; [|done]. intros k v Hk. exists v. split; [done|].
    apply dget_Some_elem in Hk. rewrite sort_keys_perm in Hk. clear -IH E Hk. revert d' E Hk.
    induction IH as [|[k' x] d Hx _ IHd]; simpl; intros d' E Hk; [out_simpl; by apply elem_of_nil in Hk|].
    destruct (json_norm x) eqn:Ex; simpl in E; [|discriminate].
    destruct (norm_obj d); simpl in E; [|discriminate]. out_simpl.
    apply elem_of_cons in Hk as [[= -> ->]|Hk]; [by apply Hx | by eapply IHd].
Qed.

(** Decoding the text as it was written satisfies the laws. *)
Definition text_jsonb : Jsonb := {| jsonb_in := Ret; jsonb_out := loads |}.

Lemma text_jsonb_laws : JsonbLaws (JB := text_jsonb).
Proof.
  split; cbn [jsonb_in jsonb_out text_jsonb].
  - intros v t u Ht Hu. out_simpl. unfold dumps in Ht.
    destruct (json_norm v) as [w|] eqn:E; simpl in Ht; [|discriminate]. out_simpl.
    by eapply json_like_norm.
  - intros v t _ Ht. exists t. split; [done|]. by eapply loads_dumps_canonical.
Qed.

(** ** Equality of what two values print as *)

Lemma dict_ok_sort d : dict_ok d -> dict_ok (sort_keys d).
Proof. apply dict_ok_perm. symmetry. apply sort_keys_perm. Qed.

(** A value that prints as a given object binds its keys to values that print as
    the object's members. *)
Lemma norm_dict_inv v d :
  dict_ok d -> json_norm v = Ret (VDict (sort_keys d)) ->
  exists d', v = VDict d' /\ forall k,
    match dget k d with
    | Some y => exists x, dget k d' = Some x /\ json_norm x = Ret y
    | None => dget k d' = None
    end.
Proof.
  intros Hok H.
  destruct v as [| | | | |l|l|d'|]; try discriminate H.
  1,2: first [rewrite json_norm_list in H | rewrite json_norm_tuple in H];
    destruct (norm_seq l); discriminate H.
  rewrite json_norm_dict in H. destruct (norm_obj d') as [nd|] eqn:E; simpl in H; [|discriminate].
  injection H as H. exists d'. split; [done|]. intros k.
  assert (dict_ok nd) as Hnd.
  { eapply dict_ok_perm; [apply sort_keys_perm|]. rewrite H. by apply dict_ok_sort. }
  assert (dget k d = dget k nd) as ->.
  { rewrite <- (dget_sort_keys k d), <- (dget_sort_keys k nd) by done. by rewrite H. }
  pose proof (norm_obj_get k _ _ E) as Hk. destruct (dget k d') as [x|].
  - destruct Hk as (w & Hw & ->). by exists x.
  - by rewrite Hk.
Qed.

(** Objects with the same keys, in the same order, whose members print alike. *)
Lemma norm_obj_same d d' :
  Forall2 (fun a b => fst a = fst b /\ json_norm (snd a) = json_norm (snd b)) d d' ->
  norm_obj d = norm_obj d'.
Proof.
  induction 1 as [|[k v] [k' v'] d d' [Hk Hv] _ IH]; simpl in *; [done|]. subst k'.
  by rewrite Hv, IH.
Qed.
