(* ===== verification/Stores.v ===== *)
(** * The kernel's store protocols and their process-local and SQLite forms

    [ois/kernel/evidence.py], [ois/kernel/idempotency.py] and
    [ois/kernel/checkpoint.py].  Each [Protocol] class of the source is a type
    class of operations here, with a second class for the laws the runtime
    relies on; the in-memory and the SQLite stores are instances of both.

    A SQLite table is its list or map of rows; the statements commit, so an
    operation that raises leaves the table as it was. *)

From stdpp Require Import base gmap strings list.
From Stdlib Require Import ZArith Lia.
From S2P Require Import Prelude Uuid Json Jsonb Types State.
Local Open Scope py_scope.

(** ** Evidence *)

Record EvidenceEvent := mkEvent {
  ev_execution_id : uuid;
  ev_event_type : string;
  ev_timestamp : datetime;
  ev_event_id : uuid;
  ev_actor : string;
  ev_component : string;
  ev_data : dict;
  ev_correlation_id : option string;
  ev_causation_id : option string }.

#[export] Instance EvidenceEvent_eq_dec : EqDecision EvidenceEvent.
Proof. solve_decision. Defined.

Class EvidenceStore (S : Type) := {
  ev_append : EvidenceEvent -> S -> outcome S;
  ev_list : option uuid -> S -> outcome (list EvidenceEvent) }.

(** [store.record(execution_id, event_type, data)] with the default actor and
    component; every implementation has this body. *)
Definition record_event {S : Type} `{EvidenceStore S} (eid : uuid) (event_type : string) (data : dict)
    (e : Env) (s : S) : outcome S * Env :=
  let '(ts, e) := utc_now e in
  let '(id, e) := uuid4 e in
  (ev_append (mkEvent eid event_type ts id "kernel" "ois.kernel" data None None) s, e).

(** The ledger is append-only: a later listing contains the earlier one, in
    order, and what an [append] was given. *)
Class EvidenceStoreLaws (S : Type) `{EvidenceStore S} := {
  ev_inv : S -> Prop;
  ev_list_total s : ev_inv s -> exists l, ev_list None s = Ret l;
  ev_append_inv e s s' : ev_inv s -> uuid_ok (ev_execution_id e) -> uuid_ok (ev_event_id e) ->
    ev_append e s = Ret s' -> ev_inv s';
  ev_append_only e s s' l : ev_inv s -> uuid_ok (ev_execution_id e) -> uuid_ok (ev_event_id e) ->
    ev_append e s = Ret s' -> ev_list None s = Ret l ->
    exists l', ev_list None s' = Ret l' /\ sublist l l' /\
      exists x, x ∈ l' /\ ev_event_id x = ev_event_id e;
  ev_list_filter i s l : ev_inv s -> uuid_ok i -> ev_list None s = Ret l ->
    ev_list (Some i) s = Ret (filter (fun x => ev_execution_id x = i) l) }.

(** [EvidenceLedger]: a list of events. *)
Definition ledger_append (e : EvidenceEvent) (s : list EvidenceEvent) : outcome (list EvidenceEvent) :=
  Ret (s ++ [e]).
Definition ledger_list (i : option uuid) (s : list EvidenceEvent) : outcome (list EvidenceEvent) :=
  match i with
  | None => Ret s
  | Some i => Ret (filter (fun x => ev_execution_id x = i) s)
  end.
Definition ledger_count (i : option uuid) (s : list EvidenceEvent) : outcome nat :=
  l <-? ledger_list i s ;; Ret (length l).

#[export] Instance EvidenceLedger : EvidenceStore (list EvidenceEvent) :=
  {| ev_append := ledger_append; ev_list := ledger_list |}.

#[export] Instance EvidenceLedger_laws : EvidenceStoreLaws (list EvidenceEvent).
Proof.
  refine {| ev_inv := fun _ => True |}; simpl; unfold ledger_append.
  - eauto.
  - done.
  - intros e s s' l _ _ _ H1 H2. out_simpl. eexists. split; [done|]. split.
    + by apply sublist_inserts_r.
    + exists e. split; [|done]. apply elem_of_app. right. by apply list_elem_of_singleton.
  - intros i s l _ _ H. by out_simpl.
Defined.

Section sqlite_evidence.
Context `{IsoFormat}.

(** A row of [evidence_events]. *)
Record evidence_row := mkEvRow {
  er_event_id : string; er_execution_id : string; er_event_type : string;
  er_timestamp : string; er_actor : string; er_component : string; er_data : json_text;
  er_correlation_id : option string; er_causation_id : option string }.

(** [INSERT OR IGNORE] on the primary key [event_id]. *)
Definition sqlite_ev_append (e : EvidenceEvent) (rows : list evidence_row) :
    outcome (list evidence_row) :=
  data <-? dumps (VDict (ev_data e)) ;;
  let row := mkEvRow (uuid_str (ev_event_id e)) (uuid_str (ev_execution_id e)) (ev_event_type e)
               (isoformat (ev_timestamp e)) (ev_actor e) (ev_component e) data
               (ev_correlation_id e) (ev_causation_id e) in
  if existsb (fun r => String.eqb (er_event_id r) (er_event_id row)) rows then Ret rows
  else Ret (rows ++ [row]).

Definition row_event (r : evidence_row) : outcome EvidenceEvent :=
  id <-? uuid_parse (er_event_id r) ;;
  eid <-? uuid_parse (er_execution_id r) ;;
  match fromisoformat (er_timestamp r), loads (er_data r) with
  | Some ts, VDict d =>
      Ret (mkEvent eid (er_event_type r) ts id (er_actor r) (er_component r) d
             (er_correlation_id r) (er_causation_id r))
  | _, _ => raise ValueError "Invalid isoformat string"
  end.

Fixpoint row_events (rows : list evidence_row) : outcome (list EvidenceEvent) :=
  match rows with
  | [] => Ret []
  | r :: rows => e <-? row_event r ;; l <-? row_events rows ;; Ret (e :: l)
  end.

(** [SELECT ... WHERE execution_id = ? ORDER BY rowid] *)
Definition sqlite_ev_list (i : option uuid) (rows : list evidence_row) :
    outcome (list EvidenceEvent) :=
  row_events (match i with
              | None => rows
              | Some i => filter (fun r => er_execution_id r = uuid_str i) rows
              end).

#[export] Instance SQLiteEvidenceLedger : EvidenceStore (list evidence_row) :=
  {| ev_append := sqlite_ev_append; ev_list := sqlite_ev_list |}.

(** The rows are printed events. *)
Definition row_of (r : evidence_row) (e : EvidenceEvent) : Prop :=
  row_event r = Ret e /\ er_event_id r = uuid_str (ev_event_id e) /\
  er_execution_id r = uuid_str (ev_execution_id e) /\
  uuid_ok (ev_event_id e) /\ uuid_ok (ev_execution_id e).

Lemma row_events_of rows l : Forall2 row_of rows l -> row_events rows = Ret l.
Proof. induction 1 as [|r e rows l [Hr _] _ IH]; simpl; [done|]. by rewrite Hr, IH. Qed.

Lemma row_events_filter rows l i :
  uuid_ok i -> Forall2 row_of rows l ->
  Forall2 row_of (filter (fun r => er_execution_id r = uuid_str i) rows)
    (filter (fun x => ev_execution_id x = i) l).
Proof.
  intros Hi. induction 1 as [|r e rows l Hr Hall IH]; [constructor|].
  rewrite !filter_cons. destruct Hr as (Hre & Hid & Heid & Hok & Heok).
  assert (er_execution_id r = uuid_str i <-> ev_execution_id e = i) as Hiff.
  { rewrite Heid. split; [|by intros ->]. intros E.
    assert (Ret (ev_execution_id e) = Ret i) as ?.
    { by rewrite <- (uuid_parse_str _ Heok), <- (uuid_parse_str _ Hi), E. }
    by out_simpl. }
  destruct (decide (er_execution_id r = uuid_str i)), (decide (ev_execution_id e = i));
    try (exfalso; tauto); [|done].
  constructor; [by repeat split | done].
Qed.

#[export] Instance SQLiteEvidenceLedger_laws : EvidenceStoreLaws (list evidence_row).
Proof.
  assert (forall e s s' l, uuid_ok (ev_execution_id e) -> uuid_ok (ev_event_id e) ->
    Forall2 row_of s l -> sqlite_ev_append e s = Ret s' ->
    exists l', Forall2 row_of s' l' /\ sublist l l' /\
      exists x, x ∈ l' /\ ev_event_id x = ev_event_id e) as Happ.
  { intros e s s' l Hx He Hall. unfold sqlite_ev_append, dumps. rewrite json_norm_dict.
    destruct (norm_obj (ev_data e)) as [d|] eqn:Ed; simpl; [|discriminate].
    destruct (existsb _ s) eqn:Ex; intros Hs; out_simpl.
    - exists l. split; [done|]. split; [done|].
      apply existsb_exists in Ex as (r & Hin & Heq%String.eqb_eq).
      apply list_elem_of_In, list_elem_of_lookup in Hin as [n Hn].
      destruct (Forall2_lookup_l _ _ _ _ _ Hall Hn) as (x & Hx' & _ & Hid & _ & Hok & _).
      exists x. split; [apply list_elem_of_lookup; eauto|].
      rewrite Hid in Heq.
      assert (Ret (ev_event_id x) = Ret (ev_event_id e)) as ?.
      { by rewrite <- (uuid_parse_str _ Hok), <- (uuid_parse_str _ He), Heq. }
      by out_simpl.
    - set (e' := mkEvent (ev_execution_id e) (ev_event_type e) (ev_timestamp e) (ev_event_id e)
                   (ev_actor e) (ev_component e) (sort_keys d) (ev_correlation_id e)
                   (ev_causation_id e)).
      exists (l ++ [e']). split; [|split].
      + apply Forall2_app; [done|]. constructor; [|constructor]. split; [|done].
        unfold row_event. cbn [er_event_id er_execution_id e' ev_event_id].
        rewrite !uuid_parse_str by assumption. simpl.
        by rewrite fromisoformat_isoformat.
      + by apply sublist_inserts_r.
      + exists e'. split; [|done]. apply elem_of_app. right. by apply list_elem_of_singleton. }
  refine {| ev_inv := fun s => exists l, Forall2 row_of s l |}; simpl.
  - intros s [l Hl]. exists l. by apply row_events_of.
  - intros e s s' [l Hl] ? ? Ha. destruct (Happ e s s' l) as (l' & ? & _); eauto.
  - intros e s s' l [l0 Hl] ? ? Ha Hlist. pose proof (row_events_of _ _ Hl) as E.
    unfold sqlite_ev_list in Hlist. rewrite E in Hlist. out_simpl.
    destruct (Happ e s s' l) as (l' & Hl' & Hs & Hx); try done.
    exists l'. split; [by apply row_events_of | done].
  - intros i s l [l0 Hl] Hi Hlist. pose proof (row_events_of _ _ Hl) as E.
    unfold sqlite_ev_list in *. rewrite E in Hlist. out_simpl.
    by apply row_events_of, row_events_filter.
Defined.

End sqlite_evidence.

(** ** Idempotency *)

Class IdempotencyStore (S : Type) := {
  idem_get : string -> S -> outcome (option InvocationResult);
  idem_put : string -> InvocationResult -> S -> outcome S }.

Definition result_payload (r : InvocationResult) : dict := [
  ("invocation_id", VStr (ir_invocation_id r)); ("capability_id", VStr (ir_capability_id r));
  ("status", VStr (enum_value (ir_status r))); ("output", ir_output r);
  ("error", opt_dict (ir_error r)); ("started_at", opt_str (ir_started_at r));
  ("completed_at", opt_str (ir_completed_at r)); ("metadata", VDict (ir_metadata r))].

(** A value that was stored: itself, or what a trip through JSON makes of it. *)
Definition stored_as (v w : pyval) : Prop := w = v \/ exists y, json_norm v = Ret y /\ json_like y w.

(** A stored result comes back with every field.  Identifiers, status and times
    are the same; output, error and metadata may have gone through JSON, and
    without floats all fields still print as the same text. *)
Definition same_result (r r' : InvocationResult) : Prop :=
  ir_invocation_id r = ir_invocation_id r' /\ ir_capability_id r = ir_capability_id r' /\
  ir_status r = ir_status r' /\
  ir_started_at r = ir_started_at r' /\ ir_completed_at r = ir_completed_at r' /\
  stored_as (ir_output r) (ir_output r') /\
  stored_as (opt_dict (ir_error r)) (opt_dict (ir_error r')) /\
  stored_as (VDict (ir_metadata r)) (VDict (ir_metadata r')) /\
  (json_plain (VDict (result_payload r)) = true ->
     dumps (VDict (result_payload r)) = dumps (VDict (result_payload r'))).

#[export] Instance same_result_reflexive : Reflexive same_result.
Proof. intros r. unfold same_result, stored_as. auto 12. Qed.

(** The first terminal result stored under a key is authoritative. *)
Class IdempotencyLaws (S : Type) `{IdempotencyStore S} := {
  idem_inv : S -> Prop;
  idem_get_total k s : idem_inv s -> exists o, idem_get k s = Ret o;
  idem_put_inv k r s s' : idem_inv s -> cacheable r = true -> idem_put k r s = Ret s' ->
    idem_inv s';
  idem_first_wins k r r' s s' : idem_inv s -> idem_get k s = Ret (Some r) ->
    idem_put k r' s = Ret s' -> idem_get k s' = Ret (Some r);
  idem_put_get k r s s' : idem_inv s -> cacheable r = true -> idem_get k s = Ret None ->
    idem_put k r s = Ret s' -> exists r', idem_get k s' = Ret (Some r') /\ same_result r r';
  idem_put_other k k' r s s' : idem_inv s -> k <> k' -> idem_put k r s = Ret s' ->
    idem_get k' s' = idem_get k' s }.

(** [InMemoryIdempotencyStore]: [setdefault] on a dictionary. *)
Definition mem_idem_get (k : string) (s : gmap string InvocationResult) :
    outcome (option InvocationResult) := Ret (s !! k).
Definition mem_idem_put (k : string) (r : InvocationResult) (s : gmap string InvocationResult) :
    outcome (gmap string InvocationResult) :=
  Ret (match s !! k with Some _ => s | None => <[k := r]> s end).
Definition mem_idem_exists (k : string) (s : gmap string InvocationResult) : bool :=
  bool_decide (is_Some (s !! k)).

#[export] Instance InMemoryIdempotencyStore : IdempotencyStore (gmap string InvocationResult) :=
  {| idem_get := mem_idem_get; idem_put := mem_idem_put |}.

#[export] Instance InMemoryIdempotency_laws : IdempotencyLaws (gmap string InvocationResult).
Proof.
  refine {| idem_inv := fun _ => True |}; simpl; unfold mem_idem_get, mem_idem_put.
  - eauto.
  - done.
  - intros k r r' s s' _ Hg Hp. out_simpl. f_equal.
    by rewrite Hg, Hg.
  - intros k r s s' _ _ Hg Hp. out_simpl. rewrite Hg. exists r. by rewrite lookup_insert_eq.
  - intros k k' r s s' _ Hne Hp. out_simpl. f_equal.
    destruct (s !! k); [done | by rewrite lookup_insert_ne].
Defined.

(** Rebuild a result from a stored payload; the reader is [None] on payloads
    [put] never writes. *)
Definition result_of_payload (d : dict) : reader InvocationResult :=
  inv <-! (match dget "invocation_id" d with
           | None => Some (raise KeyError "invocation_id")
           | Some (VStr s) => Some (Ret s) | _ => None end) ;;
  cap <-! (match dget "capability_id" d with
           | None => Some (raise KeyError "capability_id")
           | Some (VStr s) => Some (Ret s) | _ => None end) ;;
  st <-! (match dget "status" d with
          | None => Some (raise KeyError "status")
          | Some (VStr s) => match enum_lookup s with
                             | Some m => Some (Ret m)
                             | None => Some (raise ValueError (s +:+ " is not a valid InvocationStatus"))
                             end
          | _ => None end) ;;
  err <-! Ret <$> read_opt_dict (dget_or "error" VNone d) ;;
  sa <-! Ret <$> read_opt_str (dget_or "started_at" VNone d) ;;
  ca <-! Ret <$> read_opt_str (dget_or "completed_at" VNone d) ;;
  md <-! Ret <$> read_dict (dget_or "metadata" (VDict []) d) ;;
  Some (Ret (mkResult inv cap st (dget_or "output" VNone d) err sa ca md)).

(** [SQLiteIdempotencyStore]: rows of [idempotency_results] by primary key. *)
Definition sqlite_idem_get (k : string) (s : gmap string json_text) :
    outcome (option InvocationResult) :=
  match s !! k with
  | None => Ret None
  | Some t =>
      match loads t with
      | VDict d => match result_of_payload d with
                   | Some o => r <-? o ;; Ret (Some r)
                   | None => raise TypeError "malformed idempotency row"
                   end
      | _ => raise TypeError "malformed idempotency row"
      end
  end.

Definition sqlite_idem_put (k : string) (r : InvocationResult) (s : gmap string json_text) :
    outcome (gmap string json_text) :=
  if cacheable r then
    payload <-? dumps (VDict (result_payload r)) ;;
    Ret (match s !! k with Some _ => s | None => <[k := payload]> s end)
  else Ret s.

Definition sqlite_idem_exists (k : string) (s : gmap string json_text) : outcome bool :=
  o <-? sqlite_idem_get k s ;; Ret (bool_decide (is_Some o)).

#[export] Instance SQLiteIdempotencyStore : IdempotencyStore (gmap string json_text) :=
  {| idem_get := sqlite_idem_get; idem_put := sqlite_idem_put |}.

(** Reading a payload depends on its strings and on the shape of the rest. *)
Lemma like_read_str o y w : json_norm (opt_str o) = Ret y -> json_like y w ->
  read_opt_str w = Some o /\ opt_str o = w.
Proof. destruct o; simpl; intros H Hl; out_simpl; inversion Hl; by subst. Qed.

Lemma like_read_dict d y w : json_norm (VDict d) = Ret y -> json_like y w ->
  exists d', read_dict w = Some d' /\ w = VDict d'.
Proof.
  rewrite json_norm_dict. destruct (norm_obj d); simpl; [|done]. intros H Hl. out_simpl.
  apply like_dict_inv in Hl as (d' & -> & _). by exists d'.
Qed.

Lemma like_read_opt_dict o y w : json_norm (opt_dict o) = Ret y -> json_like y w ->
  exists o', read_opt_dict w = Some o' /\ w = opt_dict o'.
Proof.
  destruct o as [d|]; simpl opt_dict.
  - intros H Hl. destruct (like_read_dict _ _ _ H Hl) as (d' & _ & ->). by exists (Some d').
  - intros H Hl. simpl in H. out_simpl. apply like_none_inv in Hl as ->. by exists None.
Qed.

Lemma payload_keys r : dict_ok (result_payload r).
Proof. apply (bool_decide_unpack _). by vm_compute. Qed.

(** A dictionary that binds the keys of an encoded result to values like the
    encoded ones is read as that result. *)
Lemma result_rebuild r n d :
  norm_obj (result_payload r) = Ret n ->
  (forall k y, dget k n = Some y -> exists w, dget k d = Some w /\ json_like y w) ->
  exists r', result_of_payload d = Some (Ret r') /\
    (forall k v, dget k (result_payload r') = Some v -> dget k d = Some v) /\
    ((json_plain (VDict (result_payload r)) = true ->
        dumps (VDict (result_payload r)) = dumps (VDict (result_payload r'))) -> same_result r r').
Proof.
  intros E Hd.
  assert (forall k x, dget k (result_payload r) = Some x ->
    exists y w, json_norm x = Ret y /\ dget k d = Some w /\ json_like y w) as Hget.
  { intros k x Hx. pose proof (norm_obj_get k _ _ E) as Hk. rewrite Hx in Hk.
    destruct Hk as (y & Hy & Hn). destruct (Hd _ _ Hn) as (w & Hw & Hl). by exists y, w. }
  destruct (Hget "invocation_id" _ eq_refl) as (y1 & w1 & N1 & G1 & L1).
  destruct (Hget "capability_id" _ eq_refl) as (y2 & w2 & N2 & G2 & L2).
  destruct (Hget "status" _ eq_refl) as (y3 & w3 & N3 & G3 & L3).
  destruct (Hget "output" _ eq_refl) as (y8 & w8 & N8 & G8 & L8).
  destruct (Hget "error" _ eq_refl) as (y4 & w4 & N4 & G4 & L4).
  destruct (Hget "started_at" _ eq_refl) as (y5 & w5 & N5 & G5 & L5).
  destruct (Hget "completed_at" _ eq_refl) as (y6 & w6 & N6 & G6 & L6).
  destruct (Hget "metadata" _ eq_refl) as (y7 & w7 & N7 & G7 & L7).
  simpl in N1, N2, N3. out_simpl. apply like_str_inv in L1, L2, L3. subst.
  destruct (like_read_opt_dict _ _ _ N4 L4) as (x4 & H4 & ->).
  destruct (like_read_str _ _ _ N5 L5) as [H5 <-]. destruct (like_read_str _ _ _ N6 L6) as [H6 <-].
  destruct (like_read_dict _ _ _ N7 L7) as (x7 & H7 & ->).
  exists (mkResult (ir_invocation_id r) (ir_capability_id r) (ir_status r) w8 x4 (ir_started_at r)
    (ir_completed_at r) x7).
  split; [|split].
  - unfold result_of_payload, dget_or. rewrite G1, G2, G3, G4, G5, G6, G7, G8. cbn [rd_bind].
    change (InvocationStatus_value (ir_status r)) with (enum_value (ir_status r)).
    rewrite enum_lookup_value. cbn [rd_bind default from_option]. cbv [id].
    by rewrite H4, H5, H6, H7.
  - intros k v Hv. cbn -[String.eqb enum_value] in Hv.
    repeat match type of Hv with
           | context [String.eqb k ?x] => destruct (String.eqb_spec k x) as [->|_]; [by injection Hv as <-|]
           end.
    done.
  - unfold same_result, stored_as. cbn. naive_solver.
Qed.

(** An object whose members print as those of an encoded one prints the same. *)
Lemma norm_obj_intro d n :
  dkeys n = dkeys d -> dict_ok n ->
  (forall k v, dget k d = Some v -> exists y, dget k n = Some y /\ json_norm v = Ret y) ->
  norm_obj d = Ret n.
Proof.
  revert n. induction d as [|[k v] d IH]; intros [|[k' y] n]; intros Hk Hok Hd; try done.
  injection Hk as -> Hk. apply NoDup_cons in Hok as [Hn Hok].
  simpl in Hd. destruct (Hd k v) as (y' & Hy & Hv); [by rewrite String.eqb_refl|].
  rewrite String.eqb_refl in Hy. injection Hy as <-. simpl. rewrite Hv. simpl.
  rewrite (IH n); [done|done|done|]. intros k2 v2 H2.
  assert (k2 <> k) as Hne.
  { intros ->. apply Hn. assert (k ∈ dkeys d) as Hin by (apply dget_is_Some; by eexists).
    exact (eq_ind_r (fun l => k ∈ l) Hin Hk). }
  specialize (Hd k2 v2). apply String.eqb_neq in Hne. rewrite Hne in Hd. by apply Hd.
Qed.

Lemma result_payload_norm r r' n :
  norm_obj (result_payload r) = Ret n ->
  (forall k v, dget k (result_payload r') = Some v -> exists y, dget k n = Some y /\ json_norm v = Ret y) ->
  dumps (VDict (result_payload r)) = dumps (VDict (result_payload r')).
Proof.
  intros E H. pose proof (norm_obj_keys _ _ E) as Hk. unfold dumps. rewrite !json_norm_dict, E.
  rewrite (norm_obj_intro (result_payload r') n); [done|by rewrite Hk| |done].
  unfold dict_ok. rewrite Hk. apply payload_keys.
Qed.

(** The text of a result reads back as the same result. *)
Lemma result_payload_read r t :
  dumps (VDict (result_payload r)) = Ret t ->
  exists d r', loads t = VDict d /\ result_of_payload d = Some (Ret r') /\ same_result r r'.
Proof.
  unfold dumps. rewrite json_norm_dict.
  destruct (norm_obj (result_payload r)) as [n|] eqn:E; simpl; [|discriminate].
  intros Ht. out_simpl. exists (sort_keys n). simpl.
  assert (forall k, dget k (sort_keys n) = dget k n) as Hext.
  { intros k. apply dget_sort_keys. unfold dict_ok. rewrite (norm_obj_keys _ _ E). apply payload_keys. }
  assert (forall k y, dget k n = Some y -> json_norm y = Ret y) as Hfix.
  { intros k y Hy. pose proof (norm_obj_get k _ _ E) as Hk. destruct (dget k (result_payload r)) as [v|].
    - destruct Hk as (w & Hv & Hw). rewrite Hw in Hy. injection Hy as <-. by eapply json_norm_idem.
    - congruence. }
  destruct (result_rebuild r n (sort_keys n) E) as (r' & Hr' & Hsub & Hsame).
  { intros k y Hy. exists y. rewrite Hext. split; [done|]. eapply json_like_norm. by eapply Hfix. }
  exists r'. split; [done|]. split; [done|]. apply Hsame. intros _. apply (result_payload_norm r r' n E).
  intros k v Hv%Hsub. rewrite Hext in Hv. exists v. split; [done|]. by eapply Hfix.
Qed.

#[export] Instance SQLiteIdempotency_laws : IdempotencyLaws (gmap string json_text).
Proof.
  refine {| idem_inv := map_Forall (fun _ t =>
    exists d r, loads t = VDict d /\ result_of_payload d = Some (Ret r)) |};
    simpl; unfold sqlite_idem_get, sqlite_idem_put.
  - intros k s Hs. destruct (s !! k) as [t|] eqn:E; [|eauto].
    destruct (Hs k t E) as (d & r & -> & ->). simpl. eauto.
  - intros k r s s' Hs Hc Hp. rewrite Hc in Hp.
    destruct (dumps _) as [t|] eqn:E; simpl in Hp; [|discriminate]. out_simpl.
    destruct (s !! k) eqn:Ek; [done|]. apply map_Forall_insert_2; [|done].
    destruct (result_payload_read _ _ E) as (d & r' & ? & ? & _). eauto.
  - intros k r r' s s' Hs Hg Hp. destruct (cacheable r'); [|by out_simpl].
    destruct (dumps _) as [t|] eqn:E; simpl in Hp; [|discriminate]. out_simpl.
    destruct (s !! k) eqn:Ek; [|discriminate]. by rewrite Ek.
  - intros k r s s' Hs Hc Hg Hp. rewrite Hc in Hp.
    destruct (dumps _) as [t|] eqn:E; simpl in Hp; [|discriminate]. out_simpl.
    destruct (s !! k) as [t'|] eqn:Ek.
    { destruct (Hs k t' Ek) as (d & r' & Hd & Hr). rewrite Hd, Hr in Hg. discriminate. }
    rewrite lookup_insert_eq. destruct (result_payload_read _ _ E) as (d & r' & -> & -> & Hr).
    simpl. eauto.
  - intros k k' r s s' Hs Hne Hp. destruct (cacheable r); [|by out_simpl].
    destruct (dumps _) as [t|] eqn:E; simpl in Hp; [|discriminate]. out_simpl.
    destruct (s !! k); [done|]. by rewrite lookup_insert_ne.
Defined.

(** ** Checkpoints *)

Class CheckpointStore (S : Type) := {
  (** [save(context)]: the store, and the context it may have touched *)
  cp_save : ExecutionContext -> Env -> S -> outcome S * ExecutionContext * Env;
  cp_load : uuid -> Env -> S -> outcome ExecutionContext * Env;
  cp_delete : uuid -> S -> outcome S;
  cp_exists : uuid -> S -> bool }.

Class CheckpointLaws (S : Type) `{CheckpointStore S} `{IsoFormat} := {
  cp_save_context c e s o c' e' : cp_save c e s = (o, c', e') -> same_but_time c c';
  cp_save_load c e s s' c' e' : uuid_ok (execution_id (identity c)) -> durable c ->
    cp_save c e s = (Ret s', c', e') ->
    forall e2, exists c2, fst (cp_load (execution_id (identity c)) e2 s') = Ret c2 /\
                          same_checkpoint c' c2;
  cp_save_other c e s s' c' e' i : uuid_ok (execution_id (identity c)) -> uuid_ok i ->
    i <> execution_id (identity c) -> cp_save c e s = (Ret s', c', e') ->
    forall e2, cp_load i e2 s' = cp_load i e2 s;
  cp_delete_gone i s s' e : cp_delete i s = Ret s' ->
    exists x, fst (cp_load i e s') = Raise x /\ exn_cls x = CheckpointNotFound }.

(** [InMemoryCheckpointStore]: [deepcopy] makes the stored context a value. *)
Definition mem_cp_save (c : ExecutionContext) (e : Env) (s : gmap uuid ExecutionContext) :
    outcome (gmap uuid ExecutionContext) * ExecutionContext * Env :=
  let '(now, e) := utc_now e in
  let c := touch now c in
  (Ret (<[execution_id (identity c) := c]> s), c, e).

Definition mem_cp_load (i : uuid) (e : Env) (s : gmap uuid ExecutionContext) :
    outcome ExecutionContext * Env :=
  match s !! i with
  | None => (raise CheckpointNotFound ("No checkpoint for execution " +:+ uuid_str i), e)
  | Some c => (Ret c, e)
  end.

Definition mem_cp_delete (i : uuid) (s : gmap uuid ExecutionContext) :
    outcome (gmap uuid ExecutionContext) := Ret (delete i s).
Definition mem_cp_exists (i : uuid) (s : gmap uuid ExecutionContext) : bool :=
  bool_decide (is_Some (s !! i)).

(** [snapshot(execution_id)] *)
Definition mem_cp_snapshot `{IsoFormat} (i : uuid) (e : Env) (s : gmap uuid ExecutionContext) :
    outcome dict :=
  c <-? fst (mem_cp_load i e s) ;;
  d <-? to_dict c ;;
  Ret [("execution_id", VStr (uuid_str (execution_id (identity c))));
       ("status", VStr (enum_value (status c)));
       ("created_at", VStr (isoformat (created_at c)));
       ("updated_at", VStr (isoformat (updated_at c)));
       ("state", VDict d)].

#[export] Instance InMemoryCheckpointStore : CheckpointStore (gmap uuid ExecutionContext) :=
  {| cp_save := mem_cp_save; cp_load := mem_cp_load; cp_delete := mem_cp_delete;
     cp_exists := mem_cp_exists |}.

#[export] Instance InMemoryCheckpoint_laws `{IsoFormat} :
  CheckpointLaws (gmap uuid ExecutionContext).
Proof.
  split; simpl; unfold mem_cp_save, mem_cp_load, mem_cp_delete.
  - intros c e s o c' e' E. cbn [utc_now] in E. by simplify_eq.
  - intros c e s s' c' e' _ _ E e2. cbn [utc_now] in E. simplify_eq. simpl. rewrite lookup_insert_eq.
    eexists. split; [done | apply same_checkpoint_refl].
  - intros c e s s' c' e' i _ _ Hne E e2. cbn [utc_now] in E. simplify_eq. simpl.
    by rewrite lookup_insert_ne.
  - intros i s s' e E. out_simpl. rewrite lookup_delete_eq. simpl. eauto.
Defined.

(** [hashlib.sha256(text).hexdigest()] *)
Class Sha256 := sha256 : json_text -> string.

Section durable_checkpoints.
Context `{IsoFormat} `{Sha256}.

(** [ExecutionContext.from_dict] on a decoded value. *)
Definition context_of_value (v : pyval) (e : Env) : outcome ExecutionContext * Env :=
  match v with
  | VDict d => match from_dict d e with
               | (Some c, e) => (Ret c, e)
               | (None, e) => (raise TypeError "malformed checkpoint payload", e)
               end
  | _ => (raise AttributeError "object has no attribute 'get'", e)
  end.

(** [JsonFileCheckpointStore]: the files of the directory by stem; writing a
    temporary file and renaming it replaces the file at once.  [save] does not
    touch the context. *)
Definition json_cp_save (c : ExecutionContext) (e : Env) (s : gmap string json_text) :
    outcome (gmap string json_text) * ExecutionContext * Env :=
  (payload <-? to_dict c ;;
   serialized <-? dumps (VDict payload) ;;
   text <-? dumps (VDict [("schema_version", VInt 1); ("state_hash", VStr (sha256 serialized));
                          ("state", VDict payload)]) ;;
   Ret (<[uuid_str (execution_id (identity c)) := text]> s), c, e).

Definition json_cp_load (i : uuid) (e : Env) (s : gmap string json_text) :
    outcome ExecutionContext * Env :=
  match s !! uuid_str i with
  | None => (raise CheckpointNotFound (uuid_str i), e)
  | Some t =>
      match loads t with
      | VDict envelope =>
          if py_eq (dget_or "schema_version" VNone envelope) (VInt 1) then
            match dget "state" envelope with
            | None => (raise KeyError "state", e)
            | Some payload =>
                match dumps payload with
                | Raise x => (Raise x, e)
                | Ret serialized =>
                    if py_eq (dget_or "state_hash" VNone envelope) (VStr (sha256 serialized))
                    then context_of_value payload e
                    else (raise CheckpointError "Checkpoint integrity hash mismatch", e)
                end
            end
          else (raise CheckpointError "Unsupported checkpoint schema version", e)
      | _ => (raise AttributeError "object has no attribute 'get'", e)
      end
  end.

Definition json_cp_exists (i : uuid) (s : gmap string json_text) : bool :=
  bool_decide (is_Some (s !! uuid_str i)).
Definition json_cp_delete (i : uuid) (s : gmap string json_text) :
    outcome (gmap string json_text) :=
  Ret (if json_cp_exists i s then delete (uuid_str i) s else s).
Definition list_execution_ids (s : gmap string json_text) : list string := elements (dom s).

Definition JsonFileCheckpointStore : CheckpointStore (gmap string json_text) :=
  {| cp_save := json_cp_save; cp_load := json_cp_load; cp_delete := json_cp_delete;
     cp_exists := json_cp_exists |}.

(** [SQLiteCheckpointStore]: rows of [execution_checkpoints] by primary key. *)
Record checkpoint_row := mkCpRow {
  cr_schema_version : Z; cr_state_json : json_text; cr_state_hash : string;
  cr_updated_at : string }.

Definition sqlite_cp_save (c : ExecutionContext) (e : Env) (s : gmap string checkpoint_row) :
    outcome (gmap string checkpoint_row) * ExecutionContext * Env :=
  let '(now, e) := utc_now e in
  let c := touch now c in
  (payload <-? to_dict c ;;
   serialized <-? dumps (VDict payload) ;;
   Ret (<[uuid_str (execution_id (identity c)) :=
           mkCpRow 1 serialized (sha256 serialized) (isoformat (updated_at c))]> s), c, e).

Definition sqlite_cp_load (i : uuid) (e : Env) (s : gmap string checkpoint_row) :
    outcome ExecutionContext * Env :=
  match s !! uuid_str i with
  | None => (raise CheckpointNotFound (uuid_str i), e)
  | Some row =>
      if negb (cr_schema_version row =? 1)%Z then
        (raise CheckpointError "Unsupported checkpoint schema version", e)
      else if String.eqb (sha256 (cr_state_json row)) (cr_state_hash row) then
        context_of_value (loads (cr_state_json row)) e
      else (raise CheckpointError "Checkpoint integrity hash mismatch", e)
  end.

Definition sqlite_cp_delete (i : uuid) (s : gmap string checkpoint_row) :
    outcome (gmap string checkpoint_row) := Ret (delete (uuid_str i) s).
Definition sqlite_cp_exists (i : uuid) (s : gmap string checkpoint_row) : bool :=
  bool_decide (is_Some (s !! uuid_str i)).

#[export] Instance SQLiteCheckpointStore : CheckpointStore (gmap string checkpoint_row) :=
  {| cp_save := sqlite_cp_save; cp_load := sqlite_cp_load; cp_delete := sqlite_cp_delete;
     cp_exists := sqlite_cp_exists |}.

Lemma context_of_durable c d t e :
  durable c -> uuid_ok (execution_id (identity c)) ->
  to_dict c = Ret d -> dumps (VDict d) = Ret t ->
  fst (context_of_value (loads t) e) = Ret (restored c).
Proof.
  intros Hdur Hu Hd Ht. destruct (from_dict_json c d t e Hdur Hu Hd Ht) as (d' & -> & Hf).
  cbn [context_of_value]. destruct (from_dict d' e) as [o e']. cbn [fst] in Hf. by subst.
Qed.

#[export] Instance SQLiteCheckpoint_laws : CheckpointLaws (gmap string checkpoint_row).
Proof.
  split; simpl.
  - intros c e s o c' e' E. unfold sqlite_cp_save in E. cbn [utc_now] in E. by simplify_eq.
  - intros c e s s' c' e' Hu Hdur E e2. unfold sqlite_cp_save in E. cbn [utc_now] in E.
    injection E as E <- _. set (c1 := touch _ c) in *.
    destruct (to_dict c1) as [d|] eqn:Ed; simpl in E; [|discriminate].
    destruct (dumps (VDict d)) as [t|] eqn:Et; simpl in E; [|discriminate]. injection E as <-.
    exists (restored c1). split; [|apply same_checkpoint_restored].
    unfold sqlite_cp_load. rewrite lookup_insert_eq. cbn -[context_of_value loads sha256].
    rewrite String.eqb_refl. by eapply context_of_durable; [apply durable_touch| | |].
  - intros c e s s' c' e' i Hu Hi Hne E e2. unfold sqlite_cp_save in E. cbn [utc_now] in E.
    injection E as E <- _. destruct (to_dict _) as [d|]; simpl in E; [|discriminate].
    destruct (dumps _) as [t|]; simpl in E; [|discriminate]. injection E as <-.
    unfold sqlite_cp_load. rewrite lookup_insert_ne; [done|].
    intros Heq. by apply Hne, uuid_str_inj.
  - intros i s s' e E. unfold sqlite_cp_delete, sqlite_cp_load in *. out_simpl.
    rewrite lookup_delete_eq. simpl. eauto.
Defined.

End durable_checkpoints.
