(* ===== verification/Registry.v ===== *)
(** * Registries: [ois/registries/core.py]

    The versioned registries of the control plane and the kernel: the generic
    [Registry], the [CapabilityRegistry] with its agent and tool forms, and the
    routing of a request to the one eligible agent.

    A registry is the list of its entries in insertion order; the key of an
    entry is its identifier and version, so the list determines the dictionary
    of the source.  The registry lock makes each operation atomic. *)

From stdpp Require Import base strings list sorting pretty.
From Stdlib Require Import ZArith Lia.
From S2P Require Import Prelude Uuid Types State Policy.
Local Open Scope py_scope.

(** Tuples of strings compare lexicographically. *)
Definition key_le (a b : string * string) : Prop :=
  (a.1 <> b.1 /\ str_le a.1 b.1) \/ (a.1 = b.1 /\ str_le a.2 b.2).
#[export] Instance key_le_dec a b : Decision (key_le a b).
Proof. unfold key_le. apply _. Defined.

Lemma key_le_total a b : key_le a b \/ key_le b a.
Proof.
  unfold key_le. destruct (decide (a.1 = b.1)) as [H|H].
  - destruct (total str_le a.2 b.2); [left|right]; right; by split.
  - destruct (total str_le a.1 b.1); [left|right]; left; by split; [congruence|].
Qed.

Lemma key_le_trans a b c : key_le a b -> key_le b c -> key_le a c.
Proof.
  unfold key_le. intros [[H1 H2]|[H1 H2]] [[H3 H4]|[H3 H4]].
  - left. split; [|by transitivity (b.1)]. intros H. apply H1. apply str_le_antisym; [done|by rewrite H].
  - left. split; congruence.
  - left. split; congruence.
  - right. split; [congruence|]. by transitivity (b.2).
Qed.

Lemma key_le_antisym a b : key_le a b -> key_le b a -> a = b.
Proof.
  destruct a as [a1 a2], b as [b1 b2]. unfold key_le. cbn [fst snd].
  intros [[H1 H2]|[H1 H2]] [[H3 H4]|[H3 H4]]; [|congruence..|].
  - destruct H1. by apply str_le_antisym.
  - f_equal; [done|by apply str_le_antisym].
Qed.

(** ** [Registry] *)

Section registry.
Context {T : Type}.

Record RegistryEntry := mkEntry {
  re_id : string; re_version : string; re_value : T; re_metadata : dict }.

Definition re_key (e : RegistryEntry) : string * string := (re_id e, re_version e).

Definition registry_find (id version : string) (s : list RegistryEntry) : option RegistryEntry :=
  List.find (fun e => bool_decide (re_key e = (id, version))) s.

Definition registry_register (id version : string) (value : T) (md : option dict)
    (s : list RegistryEntry) : outcome (RegistryEntry * list RegistryEntry) :=
  if String.eqb id "" || String.eqb version "" then
    raise ValueError "registry id and version are required"
  else match registry_find id version s with
       | Some _ => raise ValueError ("already registered: " +:+ id +:+ "@" +:+ version)
       | None => let e := mkEntry id version value (default [] md) in Ret (e, s ++ [e])
       end.

Definition registry_resolve (id version : string) (s : list RegistryEntry) : outcome RegistryEntry :=
  match registry_find id version s with
  | Some e => Ret e
  | None => raise KeyError ("not registered: " +:+ id +:+ "@" +:+ version)
  end.

Definition registry_contains (id version : string) (s : list RegistryEntry) : bool :=
  bool_decide (is_Some (registry_find id version s)).

Definition registry_snapshot (s : list RegistryEntry) : list RegistryEntry :=
  merge_sort (fun a b => key_le (re_key a) (re_key b)) s.

(** No two entries share a key. *)
Definition registry_ok (s : list RegistryEntry) : Prop := NoDup (re_key <$> s).

Lemma registry_find_Some id version s e :
  registry_find id version s = Some e -> e ∈ s /\ re_key e = (id, version).
Proof.
  intros H. apply List.find_some in H as [Hin Hk]. split; [by apply list_elem_of_In|].
  by apply bool_decide_eq_true in Hk.
Qed.

Lemma registry_find_None id version s :
  registry_find id version s = None <-> (id, version) ∉ re_key <$> s.
Proof.
  unfold registry_find. split.
  - intros H Hin. apply list_elem_of_fmap in Hin as (e & He & Hin).
    apply list_elem_of_In in Hin. pose proof (List.find_none _ _ H _ Hin) as Hn. simpl in Hn.
    by rewrite bool_decide_eq_true_2 in Hn.
  - intros Hn. destruct (List.find _ s) as [e|] eqn:E; [|done]. exfalso.
    apply registry_find_Some in E as [Hin Hk]. apply Hn. rewrite <- Hk.
    by apply list_elem_of_fmap_2.
Qed.

End registry.

Arguments RegistryEntry : clear implicits.

(** ** [CapabilityRegistry] *)

Section capability_registry.
(** [C] is the type of executable objects, [contract_of] their [contract]
    attribute. *)
Context {C : Type} (contract_of : C -> option CapabilityContract).

Record CapabilityEntry := mkCapEntry {
  ce_capability : C;
  ce_contract : option CapabilityContract;
  ce_id : string;
  ce_version : string }.

Definition ce_key (e : CapabilityEntry) : string * string := (ce_id e, ce_version e).

Definition find_entry (id version : string) (s : list CapabilityEntry) : option CapabilityEntry :=
  List.find (fun e => bool_decide (ce_key e = (id, version))) s.

(** The part of [register] after the arguments are decoded. *)
Definition register_entry (id version : string) (capability : option C)
    (s : list CapabilityEntry) : outcome (list CapabilityEntry) :=
  match capability with
  | None => raise ValueError "registry value is required"
  | Some c =>
      match find_entry id version s with
      | Some _ => raise DuplicateCapabilityError
                    ("Capability already registered: " +:+ id +:+ "@" +:+ version)
      | None => Ret (s ++ [mkCapEntry c (contract_of c) id version])
      end
  end.

(** [registry.register("id", "version", value)] *)
Definition register_id (id : string) (version : option string) (value : option C)
    (s : list CapabilityEntry) : outcome (list CapabilityEntry) :=
  match version with
  | None => raise ValueError "registry id and version are required"
  | Some v => if String.eqb v "" then raise ValueError "registry id and version are required"
              else register_entry id v value s
  end.

(** [registry.register(capability)] *)
Definition register_object (c : C) (s : list CapabilityEntry) : outcome (list CapabilityEntry) :=
  match contract_of c with
  | None => raise AttributeError "object has no attribute 'contract'"
  | Some k => register_entry (cc_capability_id k) (cc_version k) (Some c) s
  end.

Definition unregister (id version : string) (s : list CapabilityEntry) :
    outcome (list CapabilityEntry) :=
  match find_entry id version s with
  | None => raise CapabilityNotFoundError ("not registered: " +:+ id +:+ "@" +:+ version)
  | Some _ => Ret (filter (fun e => ce_key e <> (id, version)) s)
  end.

Definition get_entry (id version : string) (s : list CapabilityEntry) : outcome CapabilityEntry :=
  match find_entry id version s with
  | Some e => Ret e
  | None => raise CapabilityNotFoundError ("not registered: " +:+ id +:+ "@" +:+ version)
  end.

Definition has_entry (id version : string) (s : list CapabilityEntry) : bool :=
  bool_decide (is_Some (find_entry id version s)).

(** [AgentRegistry.register] and [ToolRegistry.register] check the contract of
    an object, and nothing when the identifier form is used. *)
Definition is_kind (kind : CapabilityContract -> bool) (o : option CapabilityContract) : bool :=
  match o with Some k => kind k | None => false end.

Definition agent_register_object (c : C) (s : list CapabilityEntry) :
    outcome (list CapabilityEntry) :=
  if is_kind is_agent_contract (contract_of c) then register_object c s
  else raise RegistryError "AgentRegistry requires an AgentContract.".

Definition tool_register_object (c : C) (s : list CapabilityEntry) :
    outcome (list CapabilityEntry) :=
  if is_kind is_tool_contract (contract_of c) then register_object c s
  else raise RegistryError "ToolRegistry requires a ToolContract.".

(** ** Agent routing *)

Record AgentRoutingDecision := mkRouting {
  ard_capability_id : string;
  ard_version : string;
  ard_selected : CapabilityEntry;
  ard_candidates : list CapabilityEntry;
  ard_reason : string }.

(** The entries whose agent contract names the requested capability. *)
Definition is_candidate (id version : string) (e : CapabilityEntry) : bool :=
  match ce_contract e with
  | Some k => is_agent_contract k && String.eqb (cc_capability_id k) id &&
              String.eqb (cc_version k) version
  | None => false
  end.

Definition candidates (id version : string) (s : list CapabilityEntry) : list CapabilityEntry :=
  List.filter (is_candidate id version) s.

Section route.
Variable policy : InvocationRequest -> CapabilityContract -> outcome bool.
Variable availability : option (CapabilityEntry -> bool).
Variable rq : InvocationRequest.

(** The loop over the candidates: eligible entries and reasons of rejection.
    Only [AuthorizationDenied] is caught, and the boolean [authorize] returns is
    not looked at. *)
Fixpoint route_loop (id version : string) (l : list CapabilityEntry) :
    outcome (list CapabilityEntry * list string) :=
  match l with
  | [] => Ret ([], [])
  | e :: l =>
      match ce_contract e with
      | None => route_loop id version l
      | Some k =>
          match policy rq k with
          | Raise x =>
              if is_class AuthorizationDenied x then
                r <-? route_loop id version l ;; Ret (fst r, exn_msg x :: snd r)
              else Raise x
          | Ret _ =>
              r <-? route_loop id version l ;;
              if (match availability with Some f => f e | None => true end)
              then Ret (e :: fst r, snd r)
              else Ret (fst r, ("Agent unavailable: " +:+ id +:+ "@" +:+ version) :: snd r)
          end
      end
  end.

Definition route (id version : string) (s : list CapabilityEntry) : outcome AgentRoutingDecision :=
  match candidates id version s with
  | [] => raise AgentRoutingError ("No agent registered for " +:+ id +:+ "@" +:+ version)
  | cs =>
      r <-? route_loop id version cs ;;
      match fst r with
      | [] => raise AgentRoutingError
                (match snd r with
                 | [] => "No eligible agent matched routing policy."
                 | rs => join "; " rs
                 end)
      | [e] => Ret (mkRouting id version e [e]
                 "Selected the sole eligible agent after policy and availability filtering.")
      | es => raise AmbiguousAgentError
                ("Ambiguous agent routing for " +:+ id +:+ "@" +:+ version +:+ ": " +:+
                 pretty (length es) +:+ " eligible agents")
      end
  end.

(** What makes an entry eligible. *)
Definition eligible (id version : string) (e : CapabilityEntry) : bool :=
  is_candidate id version e &&
  match ce_contract e with
  | Some k => match policy rq k with Ret _ => true | Raise _ => false end
  | None => false
  end &&
  match availability with Some f => f e | None => true end.

(** A policy that answers or denies, and raises nothing else. *)
Definition policy_decides : Prop :=
  forall k x, policy rq k = Raise x -> exn_cls x = AuthorizationDenied.

Lemma route_loop_spec id version l :
  policy_decides -> Forall (fun e => is_candidate id version e = true) l ->
  exists rejected, route_loop id version l = Ret (List.filter (eligible id version) l, rejected).
Proof.
  intros Hp. induction 1 as [|e l He _ [rj IH]]; simpl; [by eexists|].
  unfold eligible at 1. rewrite He. unfold is_candidate in He.
  destruct (ce_contract e) as [k|]; [|done]. cbn [andb].
  destruct (policy rq k) as [b|x] eqn:Ek; cbn [andb].
  - rewrite IH. cbn [out_bind]. destruct (match availability with Some f => f e | None => true end);
      by eexists.
  - unfold is_class. rewrite bool_decide_eq_true_2 by (by eapply Hp). rewrite IH. by eexists.
Qed.

Lemma filter_eligible_candidates id version s :
  List.filter (eligible id version) (candidates id version s) = List.filter (eligible id version) s.
Proof.
  unfold candidates. induction s as [|e s IH]; simpl; [done|].
  destruct (is_candidate id version e) eqn:E; simpl.
  - by rewrite IH.
  - unfold eligible at 2. by rewrite E.
Qed.

(** Routing succeeds exactly when one registered entry is eligible, and selects
    that entry. *)
Lemma route_ret id version s d :
  policy_decides -> route id version s = Ret d ->
  List.filter (eligible id version) s = [ard_selected d].
Proof.
  intros Hp. unfold route. destruct (candidates id version s) as [|c cs] eqn:Ec; [done|].
  destruct (route_loop_spec id version (c :: cs) Hp) as [rj ->].
  { rewrite <- Ec. apply Forall_forall. intros e He.
    apply list_elem_of_In, filter_In in He. tauto. }
  cbn [out_bind fst]. rewrite <- (filter_eligible_candidates id version s), Ec.
  destruct (List.filter _ (c :: cs)) as [|e [|e' es]]; try done. intros H. by out_simpl.
Qed.

Lemma route_raise id version s x :
  policy_decides -> route id version s = Raise x ->
  (exn_cls x = AgentRoutingError /\ List.filter (eligible id version) s = []) \/
  (exn_cls x = AmbiguousAgentError /\ 2 <= length (List.filter (eligible id version) s))%nat.
Proof.
  intros Hp. unfold route. rewrite <- filter_eligible_candidates.
  destruct (candidates id version s) as [|c cs] eqn:Ec.
  { unfold raise. intros H. out_simpl. by left. }
  destruct (route_loop_spec id version (c :: cs) Hp) as [rj ->].
  { rewrite <- Ec. apply Forall_forall. intros y Hy.
    apply list_elem_of_In, filter_In in Hy. tauto. }
  cbn [out_bind fst]. destruct (List.filter _ (c :: cs)) as [|e [|e' es]]; unfold raise;
    intros H; out_simpl; [by left|]. right. split; [done|]. simpl. lia.
Qed.

End route.

(** ** The registry invariant *)

Definition capability_registry_ok (s : list CapabilityEntry) : Prop := NoDup (ce_key <$> s).

Lemma find_entry_Some id version s e :
  find_entry id version s = Some e -> e ∈ s /\ ce_key e = (id, version).
Proof.
  intros H. apply List.find_some in H as [Hin Hk]. split; [by apply list_elem_of_In|].
  by apply bool_decide_eq_true in Hk.
Qed.

Lemma get_entry_elem id version s e : get_entry id version s = Ret e -> e ∈ s.
Proof.
  unfold get_entry. destruct (find_entry _ _ _) eqn:E; [|done]. intros H. out_simpl.
  by apply find_entry_Some in E as [? _].
Qed.

Lemma find_entry_None id version s :
  find_entry id version s = None <-> (id, version) ∉ ce_key <$> s.
Proof.
  unfold find_entry. split.
  - intros H Hin. apply list_elem_of_fmap in Hin as (e & He & Hin).
    apply list_elem_of_In in Hin. pose proof (List.find_none _ _ H _ Hin) as Hn. simpl in Hn.
    by rewrite bool_decide_eq_true_2 in Hn.
  - intros Hn. destruct (List.find _ s) as [e|] eqn:E; [|done]. exfalso.
    apply find_entry_Some in E as [Hin Hk]. apply Hn. rewrite <- Hk. by apply list_elem_of_fmap_2.
Qed.

Lemma register_entry_ret id version o s s' :
  register_entry id version o s = Ret s' ->
  exists c, o = Some c /\ find_entry id version s = None /\
            s' = s ++ [mkCapEntry c (contract_of c) id version].
Proof.
  unfold register_entry. destruct o as [c|]; [|done]. destruct (find_entry id version s); [done|].
  intros H. out_simpl. eauto.
Qed.

Lemma register_entry_ok id version o s s' :
  capability_registry_ok s -> register_entry id version o s = Ret s' -> capability_registry_ok s'.
Proof.
  intros Hok (c & -> & Hn & ->)%register_entry_ret. apply find_entry_None in Hn.
  unfold capability_registry_ok. rewrite fmap_app. apply NoDup_app.
  split_and!; [done | | apply NoDup_singleton].
  intros k Hk Hk'. by apply list_elem_of_singleton in Hk' as ->.
Qed.

Lemma unregister_ok id version s s' :
  capability_registry_ok s -> unregister id version s = Ret s' ->
  capability_registry_ok s' /\ find_entry id version s' = None /\
  (forall i w, (i, w) <> (id, version) -> find_entry i w s' = find_entry i w s).
Proof.
  intros Hok. unfold unregister. destruct (find_entry id version s); [|done].
  intros H. out_simpl. split_and!.
  - eapply sublist_NoDup; [exact Hok|]. apply fmap_sublist, sublist_filter.
  - apply find_entry_None. rewrite list_elem_of_fmap. intros (e & He & Hin).
    apply list_elem_of_filter in Hin as [Hne _]. by rewrite <- He in Hne.
  - intros i w Hne. unfold find_entry. clear c Hok. induction s as [|e s IH]; [done|].
    rewrite filter_cons. case_decide as Hk; simpl.
    + by rewrite IH.
    + rewrite IH, (bool_decide_eq_false_2 (ce_key e = (i, w)));
        [done|]. congruence.
Qed.

(** One successful registration or removal. *)
Inductive registry_step : list CapabilityEntry -> list CapabilityEntry -> Prop :=
  | step_register_id id version value s s' :
      register_id id version value s = Ret s' -> registry_step s s'
  | step_register_object c s s' : register_object c s = Ret s' -> registry_step s s'
  | step_unregister id version s s' : unregister id version s = Ret s' -> registry_step s s'.

Lemma registry_step_ok s s' :
  capability_registry_ok s -> registry_step s s' -> capability_registry_ok s'.
Proof.
  intros Hok Hs. destruct Hs as [id v o s s' H|c s s' H|id v s s' H].
  - unfold register_id in H. destruct v as [v|]; [|done]. destruct (String.eqb v ""); [done|].
    by eapply register_entry_ok.
  - unfold register_object in H. destruct (contract_of c); [|done]. by eapply register_entry_ok.
  - by apply unregister_ok in H as [? _].
Qed.

Lemma find_entry_own s e :
  capability_registry_ok s -> e ∈ s -> find_entry (ce_id e) (ce_version e) s = Some e.
Proof.
  intros Hok Hin. induction s as [|x s IH]; [by apply elem_of_nil in Hin|].
  unfold capability_registry_ok in Hok. rewrite fmap_cons in Hok.
  apply NoDup_cons in Hok as [Hn Hok]. unfold find_entry. simpl.
  apply elem_of_cons in Hin as [->|Hin]; [by rewrite bool_decide_eq_true_2|].
  rewrite bool_decide_eq_false_2; [by apply IH|]. intros E. apply Hn. rewrite E.
  apply list_elem_of_fmap. by exists e.
Qed.

End capability_registry.

Arguments CapabilityEntry : clear implicits.
