(* ===== verification/Fencing.v ===== *)
(** * PostgreSQL worker leases: [ois/infrastructure/postgres_fencing.py]

    [PostgresWorkerLeaseStore] keeps one row per execution: the owning worker,
    the epoch and the expiry.  Each method is one transaction that locks the
    row, so it is a function on the table; the database clock and the clock of
    the Python process are separate arguments. *)

From stdpp Require Import base gmap strings list relations pretty.
From Stdlib Require Import ZArith Lia.
From S2P Require Import Prelude Uuid.
Local Open Scope py_scope.

Record WorkerLease := mkLease {
  wl_execution_id : uuid;
  wl_worker_id : string;
  wl_epoch : Z;
  wl_lease_expires_at : datetime }.

(** A row of [ois_worker_leases]. *)
Record lease_row := mkLeaseRow { lr_worker : string; lr_epoch : Z; lr_expires : datetime }.

Abbreviation lease_table := (gmap uuid lease_row).

(** [claim]: [now] is the database clock, [py1] and [py2] the two readings of
    the Python clock, [ttl] the lease duration. *)
Definition claim (ttl : Z) (now py1 py2 : datetime) (eid : uuid) (worker : string)
    (s : lease_table) : outcome (option WorkerLease * lease_table) :=
  if String.eqb worker "" then raise ValueError "worker_id must not be empty"
  else match s !! eid with
  | None =>
      Ret (Some (mkLease eid worker 1 (now + ttl)%Z), <[eid := mkLeaseRow worker 1 (now + ttl)%Z]> s)
  | Some r =>
      if (py1 <? lr_expires r)%Z && negb (String.eqb (lr_worker r) worker) then Ret (None, s)
      else
        let next_epoch :=
          if String.eqb (lr_worker r) worker && (py2 <? lr_expires r)%Z then lr_epoch r
          else (lr_epoch r + 1)%Z in
        Ret (Some (mkLease eid worker next_epoch (now + ttl)%Z),
             <[eid := mkLeaseRow worker next_epoch (now + ttl)%Z]> s)
  end.

(** The row the [SELECT 1 ... FOR UPDATE] of [_assert_current_cursor] finds. *)
Definition is_current (now : datetime) (l : WorkerLease) (s : lease_table) : bool :=
  match s !! wl_execution_id l with
  | Some r => String.eqb (lr_worker r) (wl_worker_id l) && (lr_epoch r =? wl_epoch l)%Z &&
              (now <? lr_expires r)%Z
  | None => false
  end.

Definition assert_current (now : datetime) (l : WorkerLease) (s : lease_table) : outcome unit :=
  if is_current now l s then Ret tt
  else raise FencingError
         ("stale or expired worker lease: execution=" +:+ uuid_str (wl_execution_id l) +:+
          " worker=" +:+ wl_worker_id l +:+ " epoch=" +:+ pretty (wl_epoch l)).

Definition renew (ttl : Z) (now : datetime) (l : WorkerLease) (s : lease_table) :
    outcome (WorkerLease * lease_table) :=
  if is_current now l s then
    Ret (mkLease (wl_execution_id l) (wl_worker_id l) (wl_epoch l) (now + ttl)%Z,
         <[wl_execution_id l := mkLeaseRow (wl_worker_id l) (wl_epoch l) (now + ttl)%Z]> s)
  else raise FencingError "cannot renew a stale or expired worker lease".

(** [release] deletes the row, whether or not the lease has expired. *)
Definition release (l : WorkerLease) (s : lease_table) : lease_table :=
  match s !! wl_execution_id l with
  | Some r => if String.eqb (lr_worker r) (wl_worker_id l) && (lr_epoch r =? wl_epoch l)%Z
              then delete (wl_execution_id l) s else s
  | None => s
  end.

(** ** The table under concurrent workers *)

(** One transaction of some worker, other than a release. *)
Inductive lease_step : lease_table -> lease_table -> Prop :=
  | step_claim ttl now py1 py2 eid worker s o s' :
      claim ttl now py1 py2 eid worker s = Ret (o, s') -> lease_step s s'
  | step_renew ttl now l s l' s' :
      renew ttl now l s = Ret (l', s') -> lease_step s s'.

(** The epochs of the second table are at least those of the first, and a row
    changes hands only with a larger epoch. *)
Definition epochs_advance (s s' : lease_table) : Prop :=
  forall eid r, s !! eid = Some r -> exists r', s' !! eid = Some r' /\
    (lr_epoch r < lr_epoch r' \/ (lr_epoch r = lr_epoch r' /\ lr_worker r = lr_worker r'))%Z.

#[export] Instance epochs_advance_preorder : PreOrder epochs_advance.
Proof.
  split.
  - intros s eid r Hr. exists r. split; [done | by right].
  - intros s1 s2 s3 H1 H2 eid r Hr. destruct (H1 _ _ Hr) as (r2 & Hr2 & Hc).
    destruct (H2 _ _ Hr2) as (r3 & Hr3 & Hc2). exists r3. split; [done|].
    destruct Hc as [?|[? ?]], Hc2 as [?|[? ?]]; [left; lia | left; lia | left; lia | right].
    split; congruence.
Qed.

Lemma is_current_spec now l s :
  is_current now l s = true <->
  exists r, s !! wl_execution_id l = Some r /\ lr_worker r = wl_worker_id l /\
    lr_epoch r = wl_epoch l /\ (now < lr_expires r)%Z.
Proof.
  unfold is_current. destruct (s !! wl_execution_id l) as [r|]; [|naive_solver].
  rewrite !andb_true_iff, String.eqb_eq, Z.eqb_eq, Z.ltb_lt. split.
  - intros [[? ?] ?]. by exists r.
  - intros (r' & ? & ? & ? & ?). by simplify_eq.
Qed.

Lemma insert_advance (s : lease_table) eid w e x :
  (forall r, s !! eid = Some r ->
     (lr_epoch r < e \/ (lr_epoch r = e /\ lr_worker r = w))%Z) ->
  epochs_advance s (<[eid := mkLeaseRow w e x]> s).
Proof.
  intros H i r Hr. destruct (decide (i = eid)) as [->|Hne].
  - rewrite lookup_insert_eq. eexists. split; [done|]. simpl. by apply H.
  - rewrite lookup_insert_ne by done. exists r. split; [done | by right].
Qed.

Lemma lease_step_advance s s' : lease_step s s' -> epochs_advance s s'.
Proof.
  destruct 1 as [ttl now py1 py2 eid worker s o s' H | ttl now l s l' s' H].
  - unfold claim in H. destruct (String.eqb worker ""); [done|].
    destruct (s !! eid) as [r|] eqn:Er.
    + destruct (_ && negb _); [by out_simpl|]. out_simpl. apply insert_advance.
      intros r' Hr'. simplify_eq.
      destruct (String.eqb_spec (lr_worker r) worker); simpl; [|left; lia].
      destruct (py2 <? lr_expires r)%Z; [by right | left; lia].
    + out_simpl. apply insert_advance. intros r' Hr'. congruence.
  - unfold renew in H. destruct (is_current now l s) eqn:E; [|done]. out_simpl.
    apply is_current_spec in E as (r & Hr & Hw & He & _).
    apply insert_advance. intros r' Hr'. simplify_eq. by right.
Qed.

Lemma lease_run_advance s s' : rtc lease_step s s' -> epochs_advance s s'.
Proof. apply rtc_preorder; [apply _ | apply lease_step_advance]. Qed.

(** [claim] writes the row it returns. *)
Lemma claim_row ttl now py1 py2 eid worker s l s' :
  claim ttl now py1 py2 eid worker s = Ret (Some l, s') ->
  s' !! eid = Some (mkLeaseRow worker (wl_epoch l) (now + ttl)%Z) /\
  wl_worker_id l = worker /\ wl_execution_id l = eid /\
  (forall r, s !! eid = Some r -> lr_worker r <> worker -> (lr_epoch r < wl_epoch l)%Z).
Proof.
  unfold claim. destruct (String.eqb worker ""); [done|].
  destruct (s !! eid) as [r|] eqn:Er.
  - destruct (_ && negb _); [done|]. intros H. out_simpl. rewrite lookup_insert_eq. simpl.
    split_and!; try done. intros r' Hr' Hne. simplify_eq.
    rewrite (proj2 (String.eqb_neq (lr_worker r') worker)) by done. simpl. lia.
  - intros H. out_simpl. rewrite lookup_insert_eq. simpl. split_and!; try done.
Qed.

#[export] Hint Resolve lease_run_advance : ois.
