(* ===== verification/Runtime.v ===== *)
(** * The execution runtime: [ois/kernel/runtime.py]

    [ExecutionRuntime.execute] runs one capability invocation: lifecycle
    status, validation, authorization, idempotency, invocation, recovery,
    checkpoints and evidence.  The statements are written in the order of the
    source over one state that holds the execution context, the cancellation
    token, the three stores and the environment; an exception leaves the state
    as it was when it was raised. *)

From stdpp Require Import base gmap strings list relations.
From Stdlib Require Import ZArith Lia Floats.SpecFloat.
From S2P Require Import Prelude Uuid Json Types State Recovery Policy Validation Stores Registry.
From S2P Require Import Fencing.
Local Open Scope py_scope.

(** An executable capability: its contract and its [invoke].  The request holds
    the context and the token themselves, so [invoke] may change both. *)
Record CapState := mkCapState {
  cs_context : ExecutionContext; cs_token : CancellationToken; cs_env : Env }.

Record Capability := mkCapability {
  cap_contract : option CapabilityContract;
  cap_invoke : InvocationRequest -> M CapState InvocationResult }.

(** What the lease table and the clock of the database are when the fence is
    checked for the [n]-th time: other workers change the table in between. *)
Record FenceWorld := mkFenceWorld {
  fw_table : nat -> lease_table;
  fw_clock : nat -> datetime }.

(** The collaborators the constructor stores; of the registry only [get] is used. *)
Record Runtime := mkRuntime {
  rt_get : string -> string -> outcome (CapabilityEntry Capability);
  rt_policy : InvocationRequest -> CapabilityContract -> outcome bool;
  rt_recovery : RecoveryPolicy;
  rt_fencing : option FenceWorld }.

(** An entry the registry answers with. *)
Definition registered (rt : Runtime) (e : CapabilityEntry Capability) : Prop :=
  exists id version, rt_get rt id version = Ret e.

(** [isinstance(exc, (AuthorizationDenied, PermissionError))]; the
    [AuthorizationError] of [production/control_plane.py] is a [PermissionError]. *)
Definition is_denial (e : exn) : bool :=
  is_class AuthorizationDenied e || is_class PermissionError e || is_class AuthorizationError e.

(** [a or b] on optional strings. *)
Definition str_or (a : option string) (b : string) : string :=
  match a with Some s => if String.eqb s "" then b else s | None => b end.

(** The failure class a failed result names; [None] when its error is no
    dictionary or has no such key. *)
Definition result_failure (r : InvocationResult) : option FailureClass :=
  if bool_decide (ir_status r = INV_FAILED) then
    match ir_error r with
    | Some err =>
        match dget "failure_class" err with
        | Some (VStr s) => Some (default UNKNOWN (enum_lookup s))
        | Some _ => Some UNKNOWN
        | None => None
        end
    | None => None
    end
  else None.

Section runtime.
Context {ES CS IS : Type} `{!EvidenceStore ES} `{!CheckpointStore CS} `{!IdempotencyStore IS}.

Record RunState := mkRun {
  rs_context : ExecutionContext;
  rs_token : CancellationToken;
  rs_evidence : ES;
  rs_checkpoints : CS;
  rs_idempotency : IS;
  rs_env : Env;
  rs_fences : nat }.

(** ** Access to the parts of the state *)

Definition set_context (c : ExecutionContext) (s : RunState) : RunState :=
  mkRun c (rs_token s) (rs_evidence s) (rs_checkpoints s) (rs_idempotency s) (rs_env s)
    (rs_fences s).

(** A statement on the context. *)
Definition on_context (f : ExecutionContext -> ExecutionContext) : M RunState unit :=
  modify (fun s => set_context (f (rs_context s)) s).

Definition get_context : M RunState ExecutionContext := fun s => (Ret (rs_context s), s).

(** One reading of the wall clock. *)
Definition read_clock : M RunState datetime := fun s =>
  let '(now, e) := utc_now (rs_env s) in
  (Ret now, mkRun (rs_context s) (rs_token s) (rs_evidence s) (rs_checkpoints s)
              (rs_idempotency s) e (rs_fences s)).

(** [str(uuid4())] *)
Definition new_uuid_str : M RunState string := fun s =>
  let '(u, e) := uuid4 (rs_env s) in
  (Ret (uuid_str u), mkRun (rs_context s) (rs_token s) (rs_evidence s) (rs_checkpoints s)
                       (rs_idempotency s) e (rs_fences s)).

(** A computation on the context, which keeps its assignments when it raises. *)
Definition in_context {A} (m : M ExecutionContext A) : M RunState A := fun s =>
  let '(o, c) := m (rs_context s) in (o, set_context c s).

(** [context.set_status(st)] *)
Definition run_set_status (st : ExecutionStatus) : M RunState unit :=
  now <- read_clock ;; in_context (set_status_m now st).

(** [self.recovery.apply(context, failure_class)] *)
Definition run_recovery (p : RecoveryPolicy) (f : FailureClass) : M RunState RecoveryDecision :=
  now <- read_clock ;; in_context (apply now p f).

(** [self.evidence.record(execution_id, event_type, data)] *)
Definition record (eid : uuid) (event_type : string) (data : dict) : M RunState unit := fun s =>
  let '(o, e) := record_event eid event_type data (rs_env s) (rs_evidence s) in
  match o with
  | Ret ev => (Ret tt, mkRun (rs_context s) (rs_token s) ev (rs_checkpoints s)
                         (rs_idempotency s) e (rs_fences s))
  | Raise x => (Raise x, mkRun (rs_context s) (rs_token s) (rs_evidence s) (rs_checkpoints s)
                           (rs_idempotency s) e (rs_fences s))
  end.

(** [self.checkpoint_store.save(context)] *)
Definition cp_store_save : M RunState unit := fun s =>
  let '(o, c, e) := cp_save (rs_context s) (rs_env s) (rs_checkpoints s) in
  match o with
  | Ret cs => (Ret tt, mkRun c (rs_token s) (rs_evidence s) cs (rs_idempotency s) e (rs_fences s))
  | Raise x => (Raise x, mkRun c (rs_token s) (rs_evidence s) (rs_checkpoints s)
                           (rs_idempotency s) e (rs_fences s))
  end.

(** [self.idempotency.get(key)] and [put(key, result)] *)
Definition idempotency_get (k : string) : M RunState (option InvocationResult) := fun s =>
  (idem_get k (rs_idempotency s), s).

Definition idempotency_put (k : string) (r : InvocationResult) : M RunState unit := fun s =>
  match idem_put k r (rs_idempotency s) with
  | Ret i => (Ret tt, mkRun (rs_context s) (rs_token s) (rs_evidence s) (rs_checkpoints s) i
                        (rs_env s) (rs_fences s))
  | Raise x => (Raise x, s)
  end.

(** [self.cancellation.raise_if_cancelled()] *)
Definition check_cancelled : M RunState unit := fun s => (raise_if_cancelled (rs_token s), s).

(** [entry.capability.invoke(request)], which sees and may change the context
    and the token. *)
Definition run_invoke (cap : Capability) (rq : ExecutionContext -> CancellationToken ->
    InvocationRequest) : M RunState InvocationResult := fun s =>
  let '(o, cs) := cap_invoke cap (rq (rs_context s) (rs_token s))
                    (mkCapState (rs_context s) (rs_token s) (rs_env s)) in
  (o, mkRun (cs_context cs) (cs_token cs) (rs_evidence s) (rs_checkpoints s) (rs_idempotency s)
        (cs_env cs) (rs_fences s)).

(** ** The methods *)

Section methods.
Variable rt : Runtime.
Variable lease : option WorkerLease.

(** [_assert_fence] *)
Definition assert_fence : M RunState unit := fun s =>
  match rt_fencing rt with
  | None => (Ret tt, s)
  | Some w =>
      match lease with
      | None => (raise ExecutionError
                   "PostgreSQL fencing is enabled but no worker lease was supplied", s)
      | Some l =>
          (assert_current (fw_clock w (rs_fences s)) l (fw_table w (rs_fences s)),
           mkRun (rs_context s) (rs_token s) (rs_evidence s) (rs_checkpoints s)
             (rs_idempotency s) (rs_env s) (S (rs_fences s)))
      end
  end.

(** [_save_checkpoint] *)
Definition save_checkpoint : M RunState unit := assert_fence ;;; cp_store_save.

(** [_cache_terminal_result] *)
Definition cache_terminal_result (key : string) (r : InvocationResult) : M RunState unit :=
  if cacheable r then assert_fence ;;; idempotency_put key r else ret tt.

Definition cancellation_error (x : exn) : dict := [
  ("type", VStr "ExecutionCancellation"); ("message", VStr (exn_msg x));
  ("failure_class", VStr "cancellation"); ("recovery_action", VStr "stop")].

(** [_handle_cancellation] *)
Definition handle_cancellation (cap_id inv : string) (x : exn) : M RunState InvocationResult :=
  c <- get_context ;;
  run_set_status STOPPED ;;;
  on_context (with_ctx_error (Some (cancellation_error x))) ;;;
  on_context (with_current_node (Some cap_id)) ;;;
  record (execution_id (identity c)) "execution.cancelled"
    [("capability_id", VStr cap_id); ("invocation_id", VStr inv);
     ("reason", VStr (exn_msg x))] ;;;
  save_checkpoint ;;;
  ret (simple_result inv cap_id INV_CANCELLED VNone (Some (cancellation_error x))).

(** [_handle_failure] *)
Definition handle_failure (cap_id inv : string) (x : exn) : M RunState InvocationResult :=
  c <- get_context ;;
  decision <- run_recovery (rt_recovery rt) TOOL ;;
  record (execution_id (identity c)) "execution.failure"
    [("capability_id", VStr cap_id); ("error", VStr (exn_msg x));
     ("failure_class", VStr (enum_value TOOL)); ("recovery_action", VStr (rd_action decision));
     ("invocation_id", VStr inv)] ;;;
  save_checkpoint ;;;
  ret (simple_result inv cap_id INV_FAILED VNone
         (Some [("type", VStr (class_name (exn_cls x))); ("message", VStr (exn_msg x));
                ("failure_class", VStr (enum_value TOOL));
                ("recovery_action", VStr (rd_action decision))])).

(** The block after a failed result: recovery, its evidence and a checkpoint. *)
Definition recover_result (eid : uuid) (cap_id inv : string) (r : InvocationResult) :
    M RunState InvocationResult :=
  match result_failure r with
  | Some f =>
      decision <- run_recovery (rt_recovery rt) f ;;
      record eid "execution.recovery_decision"
        [("capability_id", VStr cap_id); ("invocation_id", VStr inv);
         ("failure_class", VStr (enum_value f));
         ("recovery_action", VStr (rd_action decision))] ;;;
      save_checkpoint ;;;
      ret (with_error r ((fun d => dset "recovery_action" (VStr (rd_action decision)) d)
                           <$> ir_error r))
  | None => ret r
  end.

Definition succeeded (r : InvocationResult) : bool := bool_decide (ir_status r = INV_SUCCEEDED).

Definition observe (r : InvocationResult) (c : ExecutionContext) : ExecutionContext :=
  with_observations (observations c ++
    [[("invocation_id", VStr (ir_invocation_id r)); ("capability_id", VStr (ir_capability_id r));
      ("status", VStr (enum_value (ir_status r))); ("output", ir_output r)]]) c.

Definition note_validation (r : InvocationResult) (c : ExecutionContext) : ExecutionContext :=
  with_validation_results (validation_results c ++
    [[("invocation_id", VStr (ir_invocation_id r)); ("valid", VBool (succeeded r))]]) c.

Definition remember (r : InvocationResult) (c : ExecutionContext) : ExecutionContext :=
  with_working_memory (dset ("result:" +:+ ir_invocation_id r) (ir_output r) (working_memory c)) c.

(** From the check of the result's identifier to the update of the working
    memory. *)
Definition observe_result (eid : uuid) (cap_id inv : string) (contract : CapabilityContract)
    (r : InvocationResult) : M RunState unit :=
  (if String.eqb (ir_invocation_id r) inv then ret tt
   else lift (raise ExecutionError ("Capability returned an invocation_id that does not match " +:+
                                    "the requested invocation_id."))) ;;;
  run_set_status OBSERVING ;;;
  on_context (observe r) ;;;
  record eid "capability.completed"
    [("capability_id", VStr cap_id); ("invocation_id", VStr (ir_invocation_id r));
     ("status", VStr (enum_value (ir_status r)))] ;;;
  run_set_status VALIDATING ;;;
  (if succeeded r then lift (validate_output r contract) else ret tt) ;;;
  on_context (note_validation r) ;;;
  run_set_status UPDATING_STATE ;;;
  (if succeeded r then on_context (remember r) else ret tt).

(** From the idempotency record to the last status. *)
Definition persist_result (eid : uuid) (cap_id inv key : string) (r : InvocationResult) :
    M RunState unit :=
  cache_terminal_result key r ;;;
  record eid "execution.idempotency_recorded"
    [("capability_id", VStr cap_id); ("invocation_id", VStr inv);
     ("status", VStr (enum_value (ir_status r)))] ;;;
  run_set_status CHECKPOINTING ;;;
  save_checkpoint ;;;
  record eid "execution.checkpointed"
    [("capability_id", VStr cap_id); ("invocation_id", VStr (ir_invocation_id r))] ;;;
  run_set_status ROUTED.

Definition settle (eid : uuid) (cap_id inv key : string) (contract : CapabilityContract)
    (r : InvocationResult) : M RunState InvocationResult :=
  observe_result eid cap_id inv contract r ;;;
  persist_result eid cap_id inv key r ;;;
  ret r.

(** The [try] block around the invocation: cancellation and failure return
    from [execute], a result goes on to [settle]. *)
Definition invoke_and_settle (eid : uuid) (cap_id inv key : string)
    (entry : CapabilityEntry Capability) (contract : CapabilityContract)
    (rq : ExecutionContext -> CancellationToken -> InvocationRequest) :
    M RunState InvocationResult :=
  attempt <- try_except
    (try_except
       (check_cancelled ;;;
        r <- run_invoke (ce_capability entry) rq ;;
        check_cancelled ;;;
        ret (inl r))
       (is_class ExecutionCancellation)
       (fun x => ret (inr (inl x))))
    any_exception
    (fun x => ret (inr (inr x))) ;;
  match attempt with
  | inl r => r <- recover_result eid cap_id inv r ;; settle eid cap_id inv key contract r
  | inr (inl x) => handle_cancellation cap_id inv x
  | inr (inr x) => handle_failure cap_id inv x
  end.

(** From the first evidence of a fresh invocation on. *)
Definition run_fresh (eid : uuid) (cap_id version inv key : string)
    (entry : CapabilityEntry Capability) (contract : CapabilityContract)
    (rq : ExecutionContext -> CancellationToken -> InvocationRequest) :
    M RunState InvocationResult :=
  record eid "execution.received"
    [("capability_id", VStr cap_id); ("version", VStr version); ("invocation_id", VStr inv)] ;;;
  record eid "execution.input_validated"
    [("capability_id", VStr cap_id); ("invocation_id", VStr inv)] ;;;
  run_set_status AUTHORIZED ;;;
  record eid "execution.authorized"
    [("capability_id", VStr cap_id); ("invocation_id", VStr inv)] ;;;
  run_set_status EXECUTING ;;;
  on_context (with_current_node (Some cap_id)) ;;;
  save_checkpoint ;;;
  record eid "capability.started"
    [("capability_id", VStr cap_id); ("invocation_id", VStr inv)] ;;;
  invoke_and_settle eid cap_id inv key entry contract rq.

(** [self.policy.authorize(...)] with the evidence of a denial. *)
Definition run_authorize (eid : uuid) (cap_id inv : string) (contract : CapabilityContract)
    (rq : ExecutionContext -> CancellationToken -> InvocationRequest) : M RunState unit :=
  try_except
    (s <- get ;;
     _ <- lift (rt_policy rt (rq (rs_context s) (rs_token s)) contract) ;;
     ret tt)
    is_denial
    (fun x =>
       record eid "execution.input_validated"
         [("capability_id", VStr cap_id); ("invocation_id", VStr inv)] ;;;
       c <- get_context ;;
       record eid "execution.authorization_denied"
         [("capability_id", VStr cap_id); ("invocation_id", VStr inv);
          ("tenant_id", VStr (tenant_id (identity c))); ("reason", VStr (exn_msg x))] ;;;
       throw x).

(** After the registry lookup: cancellation, validation, authorization, and
    either the cached result or a fresh invocation. *)
Definition run_entry (eid : uuid) (cap_id version inv key : string) (input : dict)
    (entry : CapabilityEntry Capability) : M RunState InvocationResult :=
  stop <- try_except (check_cancelled ;;; ret None) (is_class ExecutionCancellation)
            (fun x => ret (Some x)) ;;
  match stop with
  | Some x => handle_cancellation cap_id inv x
  | None =>
      match ce_contract entry with
      | None => lift (raise AttributeError "object has no attribute 'timeout_seconds'")
      | Some contract =>
          let rq c t := mkRequest inv cap_id input c (Some (cc_timeout_seconds contract)) 0
                          (Some t) in
          s <- get ;;
          lift (validate_input (rq (rs_context s) (rs_token s)) contract) ;;;
          run_authorize eid cap_id inv contract rq ;;;
          cached <- idempotency_get key ;;
          match cached with
          | Some r =>
              record eid "execution.idempotency_hit"
                [("capability_id", VStr cap_id); ("version", VStr version);
                 ("invocation_id", VStr inv)] ;;;
              ret r
          | None => run_fresh eid cap_id version inv key entry contract rq
          end
      end
  end.

(** [ExecutionRuntime.execute] *)
Definition execute (cap_id version : string) (input : dict) (invocation_id : option string)
    (idempotency_key : option string) : M RunState InvocationResult :=
  c <- get_context ;;
  if bool_decide (status c = COMPLETED \/ status c = STOPPED) then
    lift (raise ExecutionAlreadyCompleted
            ("Execution cannot continue from " +:+ enum_value (status c) +:+ "."))
  else
    inv <- (match invocation_id with
            | Some i => if String.eqb i "" then new_uuid_str else ret i
            | None => new_uuid_str
            end) ;;
    let key := str_or idempotency_key inv in
    assert_fence ;;;
    run_set_status NORMALIZED ;;;
    entry <- lift (rt_get rt cap_id version) ;;
    run_set_status PLAN_VALIDATED ;;;
    run_entry (execution_id (identity c)) cap_id version inv key input entry.

(** [ExecutionRuntime.complete] *)
Definition complete : M RunState unit :=
  assert_fence ;;;
  run_set_status COMPLETED ;;;
  save_checkpoint ;;;
  c <- get_context ;;
  record (execution_id (identity c)) "execution.completed" [].

End methods.
End runtime.

Arguments RunState : clear implicits.
