(* ===== verification/RuntimeFacts.v ===== *)
(** * The runtime refines a system of guarded steps

    What [ois/kernel/runtime.py] may do to its stores: after a check at its
    entry, it appends evidence, and it writes a checkpoint or an idempotency
    record only after a fence check of its own that succeeded.  The detailed
    methods of [Runtime] refine that system ([guarded_run]). *)

From stdpp Require Import base gmap strings list relations.
From Stdlib Require Import ZArith Lia.
From S2P Require Import Prelude Uuid Json Types State Recovery Policy Validation Stores Registry.
From S2P Require Import Fencing Runtime.
Local Open Scope py_scope.

Section facts.
Context {ES CS IS : Type} `{!EvidenceStore ES} `{!CheckpointStore CS} `{!IdempotencyStore IS}.
Abbreviation St := (RunState ES CS IS).
Variable rt : Runtime.
Variable lease : option WorkerLease.

(** The check [_assert_fence] would make in [s] succeeds. *)
Definition fence_passes (s : St) : Prop :=
  match rt_fencing rt with
  | None => True
  | Some w => exists l, lease = Some l /\
      is_current (fw_clock w (rs_fences s)) l (fw_table w (rs_fences s)) = true
  end.

(** ** The specification *)

Definition same_stores (s s' : St) : Prop :=
  rs_evidence s = rs_evidence s' /\ rs_checkpoints s = rs_checkpoints s' /\
  rs_idempotency s = rs_idempotency s'.

(** The number of the next check: a check that reads the lease table uses its
    number up, so no two checks see the same table and a write cannot borrow an
    earlier one's. *)
Definition next_check (s : St) : nat :=
  match rt_fencing rt, lease with
  | Some _, Some _ => S (rs_fences s)
  | _, _ => rs_fences s
  end.

(** A write that does not happen: its check fails, or the store raises. *)
Definition write_refused (s : St) : Prop :=
  ~ fence_passes s \/ (exists x c e, cp_save (rs_context s) (rs_env s) (rs_checkpoints s) = (Raise x, c, e)) \/
  (exists k r x, idem_put k r (rs_idempotency s) = Raise x).

Inductive run_step : St -> St -> Prop :=
  | step_local s s' : same_stores s s' -> rs_fences s' = rs_fences s -> run_step s s'
  | step_refused s s' :
      write_refused s -> same_stores s s' -> rs_fences s' = next_check s -> run_step s s'
  | step_evidence s s' e :
      ev_append e (rs_evidence s) = Ret (rs_evidence s') ->
      rs_checkpoints s = rs_checkpoints s' -> rs_idempotency s = rs_idempotency s' ->
      rs_fences s' = rs_fences s ->
      run_step s s'
  | step_checkpoint s s' :
      fence_passes s -> rs_fences s' = next_check s ->
      cp_save (rs_context s) (rs_env s) (rs_checkpoints s) =
        (Ret (rs_checkpoints s'), rs_context s', rs_env s') ->
      rs_evidence s = rs_evidence s' -> rs_idempotency s = rs_idempotency s' ->
      run_step s s'
  | step_idempotency s s' k r :
      fence_passes s -> rs_fences s' = next_check s -> cacheable r = true ->
      idem_put k r (rs_idempotency s) = Ret (rs_idempotency s') ->
      rs_evidence s = rs_evidence s' -> rs_checkpoints s = rs_checkpoints s' ->
      run_step s s'.

(** A call checks the fence before anything else and goes on only if the check
    succeeds.  From then on every check belongs to one attempt to write, so the
    number of checks bounds that of writes. *)
Definition guarded_run (s s' : St) : Prop :=
  (same_stores s s' /\ (rs_fences s' = rs_fences s \/ rs_fences s' = next_check s)) \/
  (fence_passes s /\ exists s1, same_stores s s1 /\ rs_fences s1 = next_check s /\ rtc run_step s1 s').

Abbreviation refines := (keeps (rtc run_step)).

#[local] Instance rtc_run_step_preorder : PreOrder (rtc run_step).
Proof. apply _. Qed.

Lemma refines_local {A} (m : M St A) :
  (forall s, same_stores s (snd (m s)) /\ rs_fences (snd (m s)) = rs_fences s) -> refines m.
Proof. intros H s. destruct (H s). by apply rtc_once, step_local. Qed.

Lemma refines_on_context f : refines (on_context (ES := ES) (CS := CS) (IS := IS) f).
Proof. by apply refines_local. Qed.
Lemma refines_get_context : refines (get_context (ES := ES) (CS := CS) (IS := IS)).
Proof. by apply refines_local. Qed.
Lemma refines_check_cancelled : refines (check_cancelled (ES := ES) (CS := CS) (IS := IS)).
Proof. by apply refines_local. Qed.
Lemma refines_new_uuid_str : refines (new_uuid_str (ES := ES) (CS := CS) (IS := IS)).
Proof. by apply refines_local. Qed.
Lemma refines_idempotency_get k : refines (idempotency_get (ES := ES) (CS := CS) k).
Proof. by apply refines_local. Qed.
Lemma refines_read_clock : refines (read_clock (ES := ES) (CS := CS) (IS := IS)).
Proof. by apply refines_local. Qed.

Lemma refines_in_context {A} (m : M ExecutionContext A) :
  refines (in_context (ES := ES) (CS := CS) (IS := IS) m).
Proof. apply refines_local. intros s. unfold in_context. by destruct (m _). Qed.

Lemma refines_run_invoke cap rq : refines (run_invoke (ES := ES) (CS := CS) (IS := IS) cap rq).
Proof. apply refines_local. intros s. unfold run_invoke. by destruct (cap_invoke _ _ _). Qed.

Lemma refines_record eid ty d : refines (record (CS := CS) (IS := IS) eid ty d).
Proof.
  intros s. unfold record, record_event, utc_now, uuid4.
  destruct (ev_append _ _) as [ev|x] eqn:E; cbn [snd].
  - eapply rtc_once, step_evidence; [exact E | done..].
  - by apply rtc_once, step_local.
Qed.

(** The state after a check that succeeded. *)
Lemma assert_fence_ret s s' u :
  assert_fence rt lease s = (Ret u, s') ->
  fence_passes s /\ same_stores s s' /\ rs_fences s' = next_check s /\ rs_context s = rs_context s' /\ rs_env s = rs_env s' /\
  rs_token s = rs_token s'.
Proof.
  unfold assert_fence, fence_passes, next_check, assert_current.
  destruct (rt_fencing rt) as [w|]; [|intros H; out_simpl; by split_and!].
  destruct lease as [l|]; [|done].
  destruct (is_current _ _ _) eqn:E; [|done]. intros H. out_simpl. split_and!; try done. eauto.
Qed.

Lemma assert_fence_raise s s' x :
  assert_fence rt lease s = (Raise x, s') ->
  ~ fence_passes s /\ same_stores s s' /\ rs_fences s' = next_check s.
Proof.
  unfold assert_fence, fence_passes, next_check, assert_current.
  destruct (rt_fencing rt) as [w|]; [|done].
  destruct lease as [l|]; [|intros H; out_simpl; split_and!; try done; by intros (? & ? & _)].
  destruct (is_current _ _ _) eqn:E; [done|]. intros H. out_simpl. split_and!; try done.
  intros (l' & [= <-] & Hl). by rewrite E in Hl.
Qed.

(** A write after the check of [assert_fence] is one guarded step. *)
Lemma refines_guarded {A} (m : M St A) :
  (forall s s0, fence_passes s -> same_stores s s0 -> rs_fences s0 = next_check s -> rs_context s = rs_context s0 ->
     rs_env s = rs_env s0 -> run_step s (snd (m s0))) ->
  refines (bind (assert_fence rt lease) (fun _ => m)).
Proof.
  intros Hm s. unfold bind. destruct (assert_fence rt lease s) as [[u|e] s'] eqn:E; apply rtc_once.
  - apply assert_fence_ret in E as (Hp & Hs & Hn & Hc & He & _). by apply Hm.
  - apply assert_fence_raise in E as (Hp & Hs & Hn). apply step_refused; [by left | done | done].
Qed.

Lemma refines_save_checkpoint :
  refines (save_checkpoint (ES := ES) (CS := CS) (IS := IS) rt lease).
Proof.
  apply refines_guarded. intros s s0 Hp (He & Hc & Hi) Hn Hx Hv. unfold cp_store_save.
  rewrite <- Hx, <- Hv, <- Hc. destruct (cp_save _ _ _) as [[[cs|x] c] e] eqn:E; cbn [snd].
  - apply step_checkpoint; [done | done | exact E | done | done].
  - apply step_refused; [right; left; by eexists _, _, _ | done | done].
Qed.

Lemma refines_cache_terminal_result key r :
  refines (cache_terminal_result (ES := ES) (CS := CS) rt lease key r).
Proof.
  unfold cache_terminal_result. destruct (cacheable r) eqn:Er; [|apply keeps_ret; apply _].
  apply refines_guarded. intros s s0 Hp (He & Hc & Hi) Hn Hx Hv. unfold idempotency_put.
  rewrite <- Hi. destruct (idem_put _ _ _) as [i|x] eqn:E; cbn [snd].
  - eapply step_idempotency; [done | done | done | exact E | done | done].
  - apply step_refused; [right; right; by eexists _, _, _ | done | done].
Qed.

(** What follows the check at the entry of a call. *)
Lemma guarded_entry {A} (m : M St A) s : refines m ->
  guarded_run s (snd (bind (assert_fence rt lease) (fun _ => m) s)).
Proof.
  intros Hm. unfold bind. destruct (assert_fence rt lease s) as [[u|e] s1] eqn:E.
  - apply assert_fence_ret in E as (Hp & Hs & Hn & _). right. split; [done|]. exists s1. by split_and!.
  - apply assert_fence_raise in E as (_ & Hs & Hn). left. split; [done|]. by right.
Qed.

Hint Resolve refines_on_context refines_get_context refines_check_cancelled refines_new_uuid_str
  refines_idempotency_get refines_read_clock refines_in_context refines_run_invoke
  refines_record refines_save_checkpoint refines_cache_terminal_result : core.

Ltac refine_steps := repeat first [keeps_step | progress cbn zeta]; try apply _; auto.

Lemma refines_run_set_status st : refines (run_set_status (ES := ES) (CS := CS) (IS := IS) st).
Proof. unfold run_set_status. refine_steps. Qed.
Lemma refines_run_recovery p f : refines (run_recovery (ES := ES) (CS := CS) (IS := IS) p f).
Proof. unfold run_recovery. refine_steps. Qed.
Hint Resolve refines_run_set_status refines_run_recovery : core.

Lemma refines_handle_cancellation cap inv x :
  refines (handle_cancellation (ES := ES) (CS := CS) (IS := IS) rt lease cap inv x).
Proof. unfold handle_cancellation. refine_steps. Qed.
Lemma refines_handle_failure cap inv x :
  refines (handle_failure (ES := ES) (CS := CS) (IS := IS) rt lease cap inv x).
Proof. unfold handle_failure. refine_steps. Qed.
Lemma refines_recover_result eid cap inv r :
  refines (recover_result (ES := ES) (CS := CS) (IS := IS) rt lease eid cap inv r).
Proof. unfold recover_result. refine_steps. Qed.
Lemma refines_settle eid cap inv key k r :
  refines (settle (ES := ES) (CS := CS) rt lease eid cap inv key k r).
Proof. unfold settle, observe_result, persist_result. refine_steps. Qed.
Hint Resolve refines_handle_cancellation refines_handle_failure refines_recover_result
  refines_settle : core.

Lemma refines_invoke_and_settle eid cap inv key entry k rq :
  refines (invoke_and_settle (ES := ES) (CS := CS) rt lease eid cap inv key entry k rq).
Proof. unfold invoke_and_settle. refine_steps. Qed.
Lemma refines_run_authorize eid cap inv k rq :
  refines (run_authorize (ES := ES) (CS := CS) (IS := IS) rt eid cap inv k rq).
Proof. unfold run_authorize. refine_steps. Qed.
Hint Resolve refines_invoke_and_settle refines_run_authorize : core.
Lemma refines_run_fresh eid cap v inv key entry k rq :
  refines (run_fresh (ES := ES) (CS := CS) rt lease eid cap v inv key entry k rq).
Proof. unfold run_fresh. refine_steps. Qed.
Hint Resolve refines_run_fresh : core.
Lemma refines_run_entry eid cap v inv key input entry :
  refines (run_entry (ES := ES) (CS := CS) rt lease eid cap v inv key input entry).
Proof. unfold run_entry. refine_steps. Qed.
Hint Resolve refines_run_entry : core.

(** What happens before the check does not matter. *)
Lemma guarded_after s s0 s' : same_stores s s0 -> rs_fences s0 = rs_fences s ->
  guarded_run s0 s' -> guarded_run s s'.
Proof.
  unfold guarded_run, fence_passes, next_check. intros (He & Hc & Hi) ->.
  intros [[(He' & Hc' & Hi') Hn]|(Hp & s1 & (He' & Hc' & Hi') & Hn & Hr)]; [left|right].
  - split; [|done]. split_and!; congruence.
  - split; [done|]. exists s1. split; [|by split]. split_and!; congruence.
Qed.

Lemma guarded_execute cap v input inv key s :
  guarded_run s (snd (execute (ES := ES) (CS := CS) (IS := IS) rt lease cap v input inv key s)).
Proof.
  unfold execute. unfold bind at 1, get_context. case_bool_decide; [by left; split; [|left]|].
  unfold bind at 1. set (inv' := match inv with Some i => _ | None => _ end).
  assert (exists i s0, inv' s = (Ret i, s0) /\ same_stores s s0 /\ rs_fences s0 = rs_fences s)
    as (i & s0 & -> & Hs & Hf).
  { subst inv'. unfold new_uuid_str. destruct inv as [i|]; [destruct (String.eqb i "")|]; by eexists _, _. }
  apply (guarded_after s s0); [done|done|]. apply guarded_entry. refine_steps.
Qed.

Lemma guarded_complete s : guarded_run s (snd (complete (ES := ES) (CS := CS) (IS := IS) rt lease s)).
Proof. unfold complete. apply guarded_entry. refine_steps. Qed.
(** What holds of the local moves and of the steps holds of a guarded run. *)
Lemma guarded_run_ind (Q : St -> St -> Prop) `{!PreOrder Q} s s' :
  (forall s s', same_stores s s' -> Q s s') -> (forall s s', run_step s s' -> Q s s') ->
  guarded_run s s' -> Q s s'.
Proof.
  intros Hl Hq [[Hs _]|(_ & s1 & Hs & _ & Hr)]; [by apply Hl|]. etransitivity; [by apply Hl|].
  revert Hr. by apply rtc_preorder.
Qed.
End facts.
