(* ===== verification/RuntimeRuns.v ===== *)
(** * Successful and failing runs of the runtime

    What a run of [ExecutionRuntime.execute] that returns has done, statement by
    statement, and which runs cannot return. *)

From stdpp Require Import base gmap strings list relations.
From Stdlib Require Import ZArith Lia.
From S2P Require Import Prelude Uuid Json Types State Recovery Policy Validation Stores Registry.
From S2P Require Import Fencing Runtime RuntimeFacts.
Local Open Scope py_scope.

Section runs.
Context {ES CS IS : Type} `{!EvidenceStore ES} `{!CheckpointStore CS} `{!IdempotencyStore IS}.
Context {IF : IsoFormat} {CPL : CheckpointLaws CS}.
Abbreviation St := (RunState ES CS IS).
Variable rt : Runtime.
Variable lease : option WorkerLease.

(** The parts the statements below leave alone. *)
Definition same_idem (s s' : St) : Prop := rs_idempotency s' = rs_idempotency s.
(** The context up to its modification time. *)
Definition same_ctx (s s' : St) : Prop := same_but_time (rs_context s) (rs_context s').

#[export] Instance same_idem_preorder : PreOrder same_idem.
Proof. split; unfold same_idem; [by intros s | by intros s1 s2 s3 -> ->]. Qed.

Lemma run_set_status_ret st (s s' : St) u :
  run_set_status st s = (Ret u, s') ->
  terminal (status (rs_context s)) = false /\ same_idem s s' /\
  same_but_time (with_status st (rs_context s)) (rs_context s').
Proof.
  unfold run_set_status, read_clock, in_context, set_status_m, set_status. mred. cbn.
  unfold raise. destruct (terminal _) eqn:E; intros H; out_simpl.
  split; [done|]. split; [done|]. unfold same_but_time. reflexivity.
Qed.

Lemma record_ret eid ty d (s s' : St) u :
  record eid ty d s = (Ret u, s') -> same_idem s s' /\ same_ctx s s'.
Proof.
  unfold record, record_event. cbn. destruct (ev_append _ _); intros H; out_simpl. done.
Qed.

Lemma on_context_ret f (s s' : St) u :
  on_context f s = (Ret u, s') -> same_idem s s' /\ rs_context s' = f (rs_context s).
Proof. unfold on_context, modify. intros H. by out_simpl. Qed.

Lemma save_checkpoint_ret (s s' : St) u :
  save_checkpoint rt lease s = (Ret u, s') -> same_idem s s' /\ same_ctx s s'.
Proof.
  intros H. apply bind_ret_inv in H as (? & s1 & Hf & H).
  apply assert_fence_ret in Hf as (_ & (_ & Hc & Hi) & _ & Hx & He & _).
  unfold cp_store_save in H.
  destruct (cp_save (rs_context s1) (rs_env s1) (rs_checkpoints s1)) as [[[cs|ex] c] e] eqn:E; out_simpl.
  apply cp_save_context in E. unfold same_idem, same_ctx. simpl. by rewrite Hx, Hi.
Qed.

Lemma cache_terminal_result_ret key r (s s' : St) u :
  cache_terminal_result rt lease key r s = (Ret u, s') ->
  rs_context s' = rs_context s /\
  if cacheable r then idem_put key r (rs_idempotency s) = Ret (rs_idempotency s')
  else same_idem s s'.
Proof.
  unfold cache_terminal_result. destruct (cacheable r); intros H.
  - apply bind_ret_inv in H as (? & s1 & Hf & H).
    apply assert_fence_ret in Hf as (_ & (_ & Hc & Hi) & _ & Hx & He & _).
    unfold idempotency_put in H. rewrite <- Hi in H.
    destruct (idem_put _ _ _) eqn:E; out_simpl. by rewrite <- Hx.
  - by apply ret_inv in H as [_ ->].
Qed.

(** ** [settle] *)

(** What the end of [execute] has established when it returns a result. *)
Record settled (key inv : string) (k : CapabilityContract) (r : InvocationResult) (s s' : St) :
    Prop := mkSettled {
  st_identifier : ir_invocation_id r = inv;
  st_output : succeeded r = true -> validate_output r k = Ret tt;
  st_status : status (rs_context s') = ROUTED;
  st_memory : succeeded r = true ->
    dget ("result:" +:+ inv) (working_memory (rs_context s')) = Some (ir_output r);
  st_cached : cacheable r = true -> idem_put key r (rs_idempotency s) = Ret (rs_idempotency s');
  st_uncached : cacheable r = false -> rs_idempotency s' = rs_idempotency s }.

Lemma same_but_time_memory c1 c2 :
  same_but_time c1 c2 -> working_memory c2 = working_memory c1 /\ status c2 = status c1.
Proof.
  intros E. split.
  - by apply (f_equal working_memory) in E.
  - by apply (f_equal status) in E.
Qed.

(** The statements of the observation part leave the idempotency store alone. *)
Lemma observe_result_idem eid cap inv k r : keeps same_idem (observe_result eid cap inv k r).
Proof.
  assert (forall st, keeps same_idem (run_set_status st)) as Hst.
  { intros st s. unfold run_set_status, read_clock, in_context, set_status_m, set_status.
    mred. cbn. by destruct (terminal _). }
  assert (forall f, keeps same_idem (on_context f)) as Hctx by (by intros f s).
  assert (forall ty d, keeps same_idem (record eid ty d)) as Hrec.
  { intros ty d s. unfold record, record_event. cbn. by destruct (ev_append _ _). }
  unfold observe_result. repeat keeps_step; done.
Qed.

Lemma observe_result_ret eid cap inv k r (s s' : St) u :
  observe_result eid cap inv k r s = (Ret u, s') ->
  ir_invocation_id r = inv /\ (succeeded r = true -> validate_output r k = Ret tt) /\
  (succeeded r = true ->
   dget ("result:" +:+ inv) (working_memory (rs_context s')) = Some (ir_output r)).
Proof.
  unfold observe_result. intros H.
  run_inv H. destruct (String.eqb_spec (ir_invocation_id r) inv) as [Hinv|]; [|done].
  split; [done|].
  run_inv H. run_inv H. run_inv H. run_inv H. run_inv H. run_inv H. run_inv H.
  destruct (succeeded r); [|done]. split; intros _.
  - destruct x4. by apply lift_inv in Hr4 as [-> _].
  - apply on_context_ret in H as [_ ->]. unfold remember. simpl. rewrite Hinv. apply dget_dset_eq.
Qed.

Lemma persist_result_ret eid cap inv key r (s s' : St) u :
  persist_result rt lease eid cap inv key r s = (Ret u, s') ->
  status (rs_context s') = ROUTED /\
  working_memory (rs_context s') = working_memory (rs_context s) /\
  if cacheable r then idem_put key r (rs_idempotency s) = Ret (rs_idempotency s')
  else same_idem s s'.
Proof.
  unfold persist_result. intros H.
  run_inv H. apply cache_terminal_result_ret in Hr as (Hc0 & Hput).
  run_inv H. apply record_ret in Hr as (Hi1 & Hc1).
  run_inv H. apply run_set_status_ret in Hr as (_ & Hi2 & Hc2).
  run_inv H. apply save_checkpoint_ret in Hr as (Hi3 & Hc3).
  run_inv H. apply record_ret in Hr as (Hi4 & Hc4).
  apply run_set_status_ret in H as (_ & Hi5 & Hc5).
  assert (rs_idempotency s' = rs_idempotency s0) as Hi by (unfold same_idem in *; congruence).
  split; [by apply same_but_time_memory in Hc5 as [_ ?]|].
  split; [|by destruct (cacheable r); unfold same_idem in *; rewrite Hi].
  unfold same_ctx in *.
  repeat match goal with Hc : same_but_time _ _ |- _ => apply same_but_time_memory in Hc as [? _] end.
  simpl in *. congruence.
Qed.

Lemma settle_ret eid cap inv key k r r' (s s' : St) :
  settle rt lease eid cap inv key k r s = (Ret r', s') -> r' = r /\ settled key inv k r s s'.
Proof.
  unfold settle. intros H. run_inv H. pose proof (observe_result_idem eid cap inv k r s) as Hi.
  rewrite Hr in Hi. apply observe_result_ret in Hr as (Hinv & Hout & Hmem).
  run_inv H. apply persist_result_ret in Hr as (Hst & Hwm & Hput).
  apply ret_inv in H as [-> ->]. unfold same_idem in *. simpl in Hi.
  split; [done|]. split; try done.
  - by rewrite Hwm.
  - intros Hc. rewrite Hc in Hput. by rewrite <- Hi.
  - intros Hc. rewrite Hc in Hput. congruence.
Qed.

(** ** From the invocation back to the call *)

Lemma idem_record eid ty d : keeps same_idem (record eid ty d).
Proof. intros s. unfold record, record_event. cbn. by destruct (ev_append _ _). Qed.
Lemma idem_in_context {A} (m : M ExecutionContext A) : keeps same_idem (in_context m).
Proof. intros s. unfold in_context. by destruct (m _). Qed.
Lemma idem_run_invoke cap rq : keeps same_idem (run_invoke cap rq).
Proof. intros s. unfold run_invoke. by destruct (cap_invoke _ _ _). Qed.
Lemma idem_assert_fence : keeps same_idem (assert_fence rt lease).
Proof. intros s. unfold assert_fence. destruct (rt_fencing rt); [|done]. by destruct lease. Qed.
Lemma idem_cp_store_save : keeps same_idem cp_store_save.
Proof. intros s. unfold cp_store_save. by destruct (cp_save _ _ _) as [[[?|?] ?] ?]. Qed.
Lemma idem_read_clock : keeps same_idem read_clock.
Proof. by intros s. Qed.
Hint Resolve idem_record idem_in_context idem_run_invoke idem_assert_fence idem_cp_store_save
  idem_read_clock : core.

Ltac idem_steps := repeat first [keeps_step | progress cbn zeta]; auto; try by intros ?.

Lemma idem_save_checkpoint : keeps same_idem (save_checkpoint rt lease).
Proof. unfold save_checkpoint. idem_steps. Qed.
Lemma idem_run_set_status st : keeps same_idem (run_set_status st).
Proof. unfold run_set_status. idem_steps. Qed.
Lemma idem_run_recovery p f : keeps same_idem (run_recovery p f).
Proof. unfold run_recovery. idem_steps. Qed.
Hint Resolve idem_save_checkpoint idem_run_set_status idem_run_recovery : core.

Lemma idem_recover_result eid cap inv r : keeps same_idem (recover_result rt lease eid cap inv r).
Proof. unfold recover_result. idem_steps. Qed.

Lemma keeps_run {A} (m : M St A) s o s' : keeps same_idem m -> m s = (o, s') -> same_idem s s'.
Proof. intros Hk H. specialize (Hk s). by rewrite H in Hk. Qed.

Lemma succeeded_spec r : succeeded r = true <-> ir_status r = INV_SUCCEEDED.
Proof. apply bool_decide_eq_true. Qed.

Lemma succeeded_cacheable r : succeeded r = true -> cacheable r = true.
Proof. rewrite succeeded_spec. intros E. apply bool_decide_eq_true. by left. Qed.

(** [recover_result] keeps the status of a result, and a success as it is. *)
Lemma recover_result_ret eid cap inv r r' (s s' : St) :
  recover_result rt lease eid cap inv r s = (Ret r', s') ->
  ir_status r' = ir_status r /\ (succeeded r = true -> r' = r).
Proof.
  unfold recover_result. destruct (result_failure r) as [f|] eqn:Ef; intros H.
  - run_inv H. run_inv H. run_inv H. apply ret_inv in H as [-> ->]. split; [done|].
    rewrite succeeded_spec. intros E. unfold result_failure in Ef. by rewrite E in Ef.
  - apply ret_inv in H as [-> ->]. done.
Qed.

Lemma run_recovery_ret p f (s s' : St) d :
  run_recovery p f s = (Ret d, s') ->
  d = classify p (FEnum f) (rs_context s) /\
  exists now, apply now p f (rs_context s) = (Ret d, rs_context s').
Proof.
  unfold run_recovery, read_clock, in_context. mred. cbn.
  destruct (apply _ p f (rs_context s)) as [o c] eqn:E. intros H. out_simpl.
  split; [by apply apply_decision in E | by eexists].
Qed.

(** After a fatal failure the context is terminal, and the observation of the
    result raises. *)
Lemma recover_result_fatal eid cap inv r r' f (s s' : St) :
  result_failure r = Some f -> fatal f = true ->
  recover_result rt lease eid cap inv r s = (Ret r', s') ->
  terminal (status (rs_context s')) = true.
Proof.
  unfold recover_result. intros -> Hf H.
  run_inv H. apply run_recovery_ret in Hr as (_ & now & Ha).
  run_inv H. apply record_ret in Hr as [_ Hc1]. run_inv H. apply save_checkpoint_ret in Hr as [_ Hc2].
  apply ret_inv in H as [_ ->]. apply (apply_fatal _ _ _ _ _ _ Hf) in Ha.
  apply same_but_time_memory in Hc1 as [_ E1], Hc2 as [_ E2]. by rewrite E2, E1.
Qed.

Lemma observe_result_terminal eid cap inv k r (s s' : St) u :
  observe_result eid cap inv k r s = (Ret u, s') -> terminal (status (rs_context s)) = false.
Proof.
  unfold observe_result. intros H. run_inv H. destruct (String.eqb _ _); [|done].
  apply ret_inv in Hr as [_ ->]. run_inv H. by apply run_set_status_ret in Hr as [? _].
Qed.

Lemma handle_cancellation_ret cap inv x r (s s' : St) :
  handle_cancellation rt lease cap inv x s = (Ret r, s') ->
  r = simple_result inv cap INV_CANCELLED VNone (Some (cancellation_error x)).
Proof.
  unfold handle_cancellation. intros H. do 6 run_inv H. by apply ret_inv in H as [-> _].
Qed.

Lemma handle_failure_ret cap inv x r (s s' : St) :
  handle_failure rt lease cap inv x s = (Ret r, s') ->
  r = simple_result inv cap INV_FAILED VNone (Some [
    ("type", VStr (class_name (exn_cls x))); ("message", VStr (exn_msg x));
    ("failure_class", VStr "tool"); ("recovery_action", VStr "fallback")]).
Proof.
  unfold handle_failure. intros H. do 4 run_inv H. apply ret_inv in H as [-> _].
  by apply run_recovery_ret in Hr0 as (-> & _).
Qed.

Lemma invoke_and_settle_success eid cap inv key entry k rq r (s s' : St) :
  invoke_and_settle rt lease eid cap inv key entry k rq s = (Ret r, s') -> succeeded r = true ->
  exists s1, same_idem s s1 /\ settled key inv k r s1 s'.
Proof.
  unfold invoke_and_settle. intros H Hs. apply bind_ret_inv in H as (a & s1 & Ha & H).
  apply keeps_run in Ha; [|by idem_steps]. destruct a as [r0|[x|x]].
  - apply bind_ret_inv in H as (r1 & s2 & Hr & H).
    pose proof (keeps_run _ _ _ _ (idem_recover_result _ _ _ _) Hr) as Hi.
    apply settle_ret in H as [-> Hset]. exists s2. split; [by etransitivity | done].
  - apply handle_cancellation_ret in H as ->. by apply succeeded_spec in Hs.
  - apply handle_failure_ret in H as ->. by apply succeeded_spec in Hs.
Qed.

Lemma run_authorize_ret eid cap inv k rq (s s' : St) u :
  run_authorize rt eid cap inv k rq s = (Ret u, s') ->
  s' = s /\ exists b, rt_policy rt (rq (rs_context s) (rs_token s)) k = Ret b.
Proof.
  unfold run_authorize, try_except. cbn.
  destruct (rt_policy rt _ k) as [b|x]; cbn; [intros H; out_simpl; eauto|].
  destruct (is_denial x); [|done]. intros H. do 3 run_inv H. done.
Qed.

Lemma run_fresh_success eid cap v inv key entry k rq r (s s' : St) :
  run_fresh rt lease eid cap v inv key entry k rq s = (Ret r, s') -> succeeded r = true ->
  exists s1, same_idem s s1 /\ settled key inv k r s1 s'.
Proof.
  unfold run_fresh. intros H Hs.
  assert (forall f, keeps same_idem (on_context f)) as Hctx by (by intros f s0).
  do 8 (let s1 := fresh "s" in let H1 := fresh "Hr" in
        apply bind_ret_inv in H as (? & s1 & H1 & H);
        apply keeps_run in H1; [|by idem_steps]).
  destruct (invoke_and_settle_success _ _ _ _ _ _ _ _ _ _ H Hs) as (s9 & Hi & Hset).
  exists s9. split; [|done]. unfold same_idem in *. congruence.
Qed.

(** What precedes a success, cached or not. *)
Record admitted (cap inv : string) (input : dict) (k : CapabilityContract) (s : St) : Prop :=
  mkAdmitted {
  ad_token : cancelled (rs_token s) = false;
  ad_input : forall c t, validate_input (mkRequest inv cap input c
               (Some (cc_timeout_seconds k)) 0 (Some t)) k = Ret tt;
  ad_policy : exists b, rt_policy rt (mkRequest inv cap input (rs_context s)
               (Some (cc_timeout_seconds k)) 0 (Some (rs_token s))) k = Ret b }.

Lemma stop_check_ret (s s' : St) o :
  try_except (check_cancelled ;;; ret None) (is_class ExecutionCancellation)
    (fun x => ret (Some x)) s = (Ret o, s') ->
  s' = s /\ (o = None -> cancelled (rs_token s) = false).
Proof.
  unfold try_except, bind, check_cancelled, raise_if_cancelled, ret.
  destruct (cancelled (rs_token s)); unfold raise, is_class; cbn;
    [rewrite bool_decide_eq_true_2 by done|]; intros H; out_simpl; by split.
Qed.

Lemma run_entry_success eid cap v inv key input entry r (s s' : St) :
  run_entry rt lease eid cap v inv key input entry s = (Ret r, s') -> succeeded r = true ->
  exists k, ce_contract entry = Some k /\ admitted cap inv input k s /\
  ((idem_get key (rs_idempotency s) = Ret (Some r) /\ same_idem s s' /\ same_ctx s s') \/
   (idem_get key (rs_idempotency s) = Ret None /\
    exists s1, same_idem s s1 /\ settled key inv k r s1 s')).
Proof.
  unfold run_entry. intros H Hs. run_inv H. apply stop_check_ret in Hr as [-> Hc].
  destruct x as [x|]; [apply handle_cancellation_ret in H as ->; by apply succeeded_spec in Hs|].
  destruct (ce_contract entry) as [k|]; [|done]. exists k. split; [done|]. cbn zeta in H.
  run_inv H. injection Hr as <- <-. run_inv H. apply lift_inv in Hr as [Hv ->].
  run_inv H. apply run_authorize_ret in Hr as [-> Hp].
  run_inv H. injection Hr as Hg <-. split.
  { split; [by apply Hc | intros c t; by destruct x | done]. }
  destruct x1 as [r0|].
  - left. run_inv H. apply ret_inv in H as [-> ->]. split; [done|].
    by apply record_ret in Hr.
  - right. split; [done|]. by eapply run_fresh_success.
Qed.

(** The state [run_entry] starts in: the context has moved to [PLAN_VALIDATED]. *)
Definition entered (s s1 : St) : Prop :=
  same_idem s s1 /\ rs_token s1 = rs_token s /\
  same_but_time (with_status PLAN_VALIDATED (rs_context s)) (rs_context s1).

Lemma run_set_status_token st (s s' : St) u :
  run_set_status st s = (Ret u, s') -> rs_token s' = rs_token s.
Proof.
  unfold run_set_status, read_clock, in_context. mred. cbn. unfold set_status_m.
  destruct (set_status _ _ _); intros H; by out_simpl.
Qed.

Lemma execute_ret cap v input i ko r (s s' : St) :
  i <> "" -> execute rt lease cap v input (Some i) ko s = (Ret r, s') ->
  terminal (status (rs_context s)) = false /\
  exists entry s1, rt_get rt cap v = Ret entry /\ entered s s1 /\
    run_entry rt lease (execution_id (identity (rs_context s))) cap v i (str_or ko i) input entry
      s1 = (Ret r, s').
Proof.
  unfold execute. intros Hi H. run_inv H. injection Hr as <- <-.
  destruct (bool_decide _); [done|].
  rewrite (proj2 (String.eqb_neq i "")) in H by done.
  run_inv H. apply ret_inv in Hr as [-> ->]. cbn zeta in H.
  run_inv H. apply assert_fence_ret in Hr as (_ & (_ & _ & Hi0) & _ & Hc0 & _ & Ht0).
  run_inv H. pose proof (run_set_status_token _ _ _ _ Hr) as Ht1.
  apply run_set_status_ret in Hr as (Hl & Hi1 & Hc1).
  run_inv H. apply lift_inv in Hr as [He ->].
  run_inv H. pose proof (run_set_status_token _ _ _ _ Hr) as Ht2.
  apply run_set_status_ret in Hr as (_ & Hi2 & Hc2).
  split; [by rewrite Hc0|]. eexists _, _. split; [done|]. split; [|exact H].
  split; [unfold same_idem in *; congruence|]. split; [congruence|].
  rewrite <- Hc0 in Hc1. unfold same_but_time in *.
  rewrite <- Hc2. apply (f_equal (with_status PLAN_VALIDATED)) in Hc1. exact Hc1.
Qed.

(** The whole call, when it answers with a success. *)
Lemma execute_success cap v input i ko r (s s' : St) :
  i <> "" -> execute rt lease cap v input (Some i) ko s = (Ret r, s') -> succeeded r = true ->
  terminal (status (rs_context s')) = false /\
  exists entry k s1, rt_get rt cap v = Ret entry /\ ce_contract entry = Some k /\
    entered s s1 /\ admitted cap i input k s1 /\
    ((idem_get (str_or ko i) (rs_idempotency s) = Ret (Some r) /\ same_idem s s') \/
     (idem_get (str_or ko i) (rs_idempotency s) = Ret None /\
      exists s2, same_idem s s2 /\ settled (str_or ko i) i k r s2 s')).
Proof.
  intros Hi H Hs. apply execute_ret in H as (Hl & entry & s1 & He & Hent & H); [|done].
  apply run_entry_success in H as (k & Hk & Had & Hcase); [|done].
  destruct Hent as (Hi1 & Ht & Hc).
  assert (forall s2, same_idem s1 s2 -> same_idem s s2) as Htrans.
  { intros s2. unfold same_idem in *. congruence. }
  assert (rs_idempotency s1 = rs_idempotency s) as Hi2 by done. rewrite Hi2 in Hcase.
  split.
  - destruct Hcase as [(_ & _ & Hc2)|(_ & s2 & _ & Hset)]; [|by rewrite (st_status _ _ _ _ _ _ Hset)].
    apply same_but_time_memory in Hc as [_ Hc], Hc2 as [_ Hc2]. by rewrite Hc2, Hc.
  - exists entry, k, s1. split; [done|]. split; [done|]. split; [by split|]. split; [done|].
    destruct Hcase as [(? & ? & _)|(? & s2 & ? & ?)]; [left | right]; eauto.
Qed.
End runs.

Arguments mkSettled {_ _ _}.
#[export] Hint Resolve succeeded_cacheable : ois.
