(* ===== verification/Orchestrator.v ===== *)
(** * The plan orchestrator: [ois/kernel/orchestrator.py]

    [PlanOrchestrator.execute] validates a plan and runs its tasks batch by
    batch through the runtime, saving the plan in the context's checkpoint
    before and after each task; [resume] continues a persisted plan.

    The two [while] loops take a fuel argument, and [None] is the answer of a
    loop that ran out of it; [OrchestratorFacts] shows how much is enough. *)

From stdpp Require Import base gmap strings list relations.
From Stdlib Require Import ZArith Lia.
From S2P Require Import Prelude Uuid Json Types State Recovery Policy Planning Stores Registry.
From S2P Require Import Fencing Runtime.
Local Open Scope py_scope.

(** [result.status != SUCCEEDED and isinstance(result.error, dict) and
    result.error.get("recovery_action") == "retry"] *)
Definition wants_retry (r : InvocationResult) : bool :=
  negb (succeeded r) &&
  match ir_error r with
  | Some err => py_eq (dget_or "recovery_action" VNone err) (VStr "retry")
  | None => false
  end.

(** [_normalize_interrupted_tasks] *)
Definition normalize_interrupted_tasks (p : ExecutionPlan) : ExecutionPlan :=
  with_tasks (dmap (fun t => if bool_decide (task_status t = T_RUNNING)
                             then with_task_status T_PENDING t else t) (tasks p)) p.

(** The error recorded for a task whose execution raised. *)
Definition exception_error (x : exn) : dict :=
  [("type", VStr (class_name (exn_cls x))); ("message", VStr (exn_msg x))].

Section orchestrator.
Context {ES CS IS : Type} `{!EvidenceStore ES} `{!CheckpointStore CS} `{!IdempotencyStore IS}.
Variable rt : Runtime.
(** Interpreter frames below the recursion limit, for [plan.validate()]. *)
Variable frames : nat.

(** The plan object and everything the runtime works on. *)
Record OrchState := mkOrch { os_plan : ExecutionPlan; os_run : RunState ES CS IS }.

Definition on_run {A} (m : M (RunState ES CS IS) A) : M OrchState A := fun s =>
  let '(o, r) := m (os_run s) in (o, mkOrch (os_plan s) r).

Definition get_plan : M OrchState ExecutionPlan := fun s => (Ret (os_plan s), s).

Definition on_plan (f : ExecutionPlan -> ExecutionPlan) : M OrchState unit :=
  modify (fun s => mkOrch (f (os_plan s)) (os_run s)).

(** An assignment to attributes of the node stored under [id]. *)
Definition on_task (id : string) (f : TaskNode -> TaskNode) : M OrchState unit :=
  on_plan (fun p => with_tasks (update_task id f (tasks p)) p).

(** [context.plan = plan.to_dict(); checkpoint_store.save(context)] *)
Definition save_plan : M OrchState unit :=
  p <- get_plan ;;
  on_run (on_context (with_plan (Some (plan_to_dict p)))) ;;;
  on_run cp_store_save.

(** The call of the runtime for a task; the orchestrator passes no lease. *)
Definition run_runtime (t : TaskNode) (inv : string) : M OrchState InvocationResult :=
  on_run (execute rt None (capability_id t) (capability_version t) (input_data t) (Some inv) None).

(** The [while] loop that repeats a retryable invocation. *)
Fixpoint retry_loop (fuel : nat) (t : TaskNode) (inv : string) (r : InvocationResult) :
    M OrchState (option InvocationResult) :=
  if wants_retry r then
    match fuel with
    | O => ret None
    | S fuel => r <- run_runtime t inv ;; retry_loop fuel t inv r
    end
  else ret (Some r).

(** The body of the [try] statement: whether the task failed. *)
Definition attempt_task (fuel : nat) (id : string) (t : TaskNode) : M OrchState (option bool) :=
  c <- on_run get_context ;;
  let inv := uuid_str (execution_id (identity c)) +:+ ":" +:+ task_id t in
  r <- run_runtime t inv ;;
  o <- retry_loop fuel t inv r ;;
  match o with
  | None => ret None
  | Some r =>
      if succeeded r then
        on_task id (fun t => with_task_status T_SUCCEEDED (with_task_output (ir_output r) t)) ;;;
        save_plan ;;;
        ret (Some false)
      else
        on_task id (fun t => with_task_error (ir_error r) (with_task_status T_FAILED t)) ;;;
        save_plan ;;;
        ret (Some true)
  end.

(** One turn of [for task in ready]. *)
Definition run_task (fuel : nat) (id : string) : M OrchState (option bool) :=
  p <- get_plan ;;
  match dget id (tasks p) with
  | None => ret (Some false)
  | Some t =>
      on_task id (with_task_status T_RUNNING) ;;;
      on_run (on_context (with_current_node (Some (task_id t)))) ;;;
      save_plan ;;;
      try_except (attempt_task fuel id t) any_exception
        (fun x =>
           on_task id (fun t => with_task_error (Some (exception_error x))
                                  (with_task_status T_FAILED t)) ;;;
           save_plan ;;;
           ret (Some true))
  end.

(** The whole batch, and whether a task of it failed. *)
Fixpoint run_batch (fuel : nat) (ids : list string) (batch_failed : bool) :
    M OrchState (option bool) :=
  match ids with
  | [] => ret (Some batch_failed)
  | id :: ids =>
      o <- run_task fuel id ;;
      match o with
      | None => ret None
      | Some failed => run_batch fuel ids (batch_failed || failed)
      end
  end.

(** [plan.ready_tasks()] *)
Definition run_ready_tasks : M OrchState (list string) := fun s =>
  match ready_tasks (os_plan s) with
  | Ret (l, p) => (Ret l, mkOrch p (os_run s))
  | Raise x => (Raise x, s)
  end.

(** [while not plan.is_complete()]: [Some true] when the plan is complete,
    [Some false] when a failed batch ended the loop. *)
Fixpoint plan_loop (retries rounds : nat) : M OrchState (option bool) :=
  p <- get_plan ;;
  if is_complete p then ret (Some true)
  else match rounds with
  | O => ret None
  | S rounds =>
      ready <- run_ready_tasks ;;
      match ready with
      | [] =>
          p <- get_plan ;;
          if has_failed p then
            lift (raise PlanExecutionError "Plan contains failed tasks and cannot continue.")
          else
            lift (raise PlanExecutionError "No executable tasks remain. The plan may be blocked.")
      | _ =>
          failed <- run_batch retries ready false ;;
          match failed with
          | None => ret None
          | Some true => ret (Some false)
          | Some false => plan_loop retries rounds
          end
      end
  end.

(** [PlanOrchestrator.execute]; the plan is returned in the state. *)
Definition execute_plan (retries rounds : nat) : M OrchState (option unit) :=
  p <- get_plan ;;
  lift (validate frames p) ;;;
  save_plan ;;;
  o <- plan_loop retries rounds ;;
  match o with
  | None => ret None
  | Some false => ret (Some tt)
  | Some true => on_run (complete rt None) ;;; ret (Some tt)
  end.

(** [PlanOrchestrator.resume]: the loaded context replaces the one in the
    state, and the persisted plan the plan. *)
Definition load_context (i : uuid) : M OrchState ExecutionContext := fun s =>
  let r := os_run s in
  let '(o, e) := cp_load i (rs_env r) (rs_checkpoints r) in
  match o with
  | Ret c => (Ret c, mkOrch (os_plan s)
                (mkRun c (rs_token r) (rs_evidence r) (rs_checkpoints r) (rs_idempotency r) e
                   (rs_fences r)))
  | Raise x => (Raise x, mkOrch (os_plan s)
                  (mkRun (rs_context r) (rs_token r) (rs_evidence r) (rs_checkpoints r)
                     (rs_idempotency r) e (rs_fences r)))
  end.

Definition resume (retries rounds : nat) (i : uuid) : M OrchState (option unit) :=
  c <- load_context i ;;
  match plan c with
  | None => lift (raise PlanExecutionError "Checkpoint does not contain a resumable execution plan.")
  | Some d =>
      fresh <- on_run new_uuid_str ;;
      match plan_from_dict frames fresh d with
      | None => lift (raise TypeError "malformed plan payload")
      | Some o =>
          p <- lift o ;;
          on_plan (fun _ => normalize_interrupted_tasks p) ;;;
          execute_plan retries rounds
      end
  end.
End orchestrator.

Arguments OrchState : clear implicits.
