(* ===== verification/OrchestratorFacts.v ===== *)
(** * Runs of the plan orchestrator

    The retry loop and the scheduling loop of [ois/kernel/orchestrator.py]
    terminate within a bound, tasks start only after their dependencies have
    succeeded, and a run with total stores returns.  First: a run that ends with
    a result its capability wants retried has used up one unit of the retry
    budget of [ois/kernel/recovery.py], so the retry loop is bounded. *)

From stdpp Require Import base gmap strings list relations.
From Stdlib Require Import ZArith Lia.
From S2P Require Import Prelude Uuid Json Jsonb Types State Recovery Policy Validation Planning.
From S2P Require Import Stores Registry Fencing Runtime RuntimeFacts RuntimeRuns Orchestrator.
Local Open Scope py_scope.

(** Two answers of a capability can keep the retry loop going beyond the retry
    budget: one that asks for a retry itself without naming a failure class, so
    that the recovery policy is not consulted, and one that lowers the retry
    counter of the context it is given. *)
Definition unruly (cap : Capability) : Prop :=
  (exists rq cs r cs', cap_invoke cap rq cs = (Ret r, cs') /\ wants_retry r = true /\
     result_failure r = None) \/
  (exists rq cs, (retry_count (cs_context (snd (cap_invoke cap rq cs))) < retry_count (cs_context cs))%Z).

(** A capability without such answers. *)
Record disciplined (cap : Capability) : Prop := mkDisciplined {
  dc_retry rq cs r cs' : cap_invoke cap rq cs = (Ret r, cs') -> wants_retry r = true ->
    result_failure r <> None;
  dc_count rq cs : (retry_count (cs_context cs) <=
                    retry_count (cs_context (snd (cap_invoke cap rq cs))))%Z }.

Lemma not_unruly_disciplined cap : ~ unruly cap -> disciplined cap.
Proof.
  intros Hn. split.
  - intros rq cs r cs' H Hw Hf. apply Hn. left. by exists rq, cs, r, cs'.
  - intros rq cs. apply Z.nlt_ge. intros H. apply Hn. right. by exists rq, cs.
Qed.

(** ** What a stored result asks for *)

Lemma dget_insert_key k k' v d : dget k (insert_key k' v d) = if String.eqb k k' then Some v else dget k d.
Proof.
  induction d as [|[k2 v2] d IH]; [done|]. cbn [insert_key]. destruct (String.leb k' k2) eqn:E; [done|].
  cbn [dget]. rewrite IH. destruct (String.eqb_spec k k2) as [->|]; [|done].
  destruct (String.eqb_spec k2 k') as [->|]; [|done].
  pose proof (str_le_total k' k') as H. unfold str_le in H. rewrite E in H. by destruct H.
Qed.

Lemma dget_sorted k d : dget k (sort_keys d) = dget k d.
Proof.
  induction d as [|[k' v] d IH]; [done|]. cbn [sort_keys foldr fst snd dget].
  change (foldr _ [] d) with (sort_keys d). by rewrite dget_insert_key, IH.
Qed.

Lemma stored_text (k t : string) d d' :
  stored_as (VDict d) (VDict d') -> dget k d' = Some (VStr t) -> dget k d = Some (VStr t).
Proof.
  intros [[= ->]|(y & Hy & Hl)] Hk; [done|]. rewrite json_norm_dict in Hy.
  destruct (norm_obj d) as [n|] eqn:E; simpl in Hy; [|done]. injection Hy as <-.
  apply like_dict_inv in Hl as (d2 & [= <-] & Hs & Hnone).
  destruct (dget k (sort_keys n)) as [v|] eqn:Ev; [|rewrite (Hnone k Ev) in Hk; done].
  destruct (Hs k v Ev) as (w & Hw & Hl). rewrite Hk in Hw. injection Hw as <-.
  assert (v = VStr t) as -> by (inversion Hl; by subst). rewrite dget_sorted in Ev.
  pose proof (norm_obj_get k _ _ E) as Hg. destruct (dget k d) as [u|]; [|congruence].
  destruct Hg as (w & Hu & Hw). rewrite Hw in Ev. injection Ev as ->.
  destruct u as [| | | | |l|l|l|]; try (simpl in Hu; congruence); exfalso.
  - rewrite json_norm_list in Hu. by destruct (norm_seq l).
  - rewrite json_norm_tuple in Hu. by destruct (norm_seq l).
  - rewrite json_norm_dict in Hu. by destruct (norm_obj l).
  - discriminate Hu.
Qed.

Lemma same_result_retry r r' : same_result r r' -> wants_retry r' = true -> wants_retry r = true.
Proof.
  intros (_ & _ & Hst & _ & _ & _ & He & _) H. unfold wants_retry in *.
  apply andb_prop in H as [Hs H]. unfold succeeded in *. rewrite Hst, Hs. cbn [andb].
  destruct (ir_error r') as [err'|]; [|done]. destruct (ir_error r) as [err|]; cbn [opt_dict] in He.
  - unfold dget_or in *. destruct (dget "recovery_action" err') as [v|] eqn:Ev; [|done].
    cbn [default] in H. unfold id in H. destruct v as [| | | |t| | | |]; try done.
    by rewrite (stored_text _ _ _ _ He Ev).
  - destruct He as [He|(y & Hy & Hl)]; [done|]. simpl in Hy. injection Hy as <-. by apply like_none_inv in Hl.
Qed.

Section retry.
Context {ES CS IS : Type} `{!EvidenceStore ES} `{!CheckpointStore CS} `{!IdempotencyStore IS}.
Context {IF : IsoFormat} {CPL : CheckpointLaws CS} {IDL : IdempotencyLaws IS}.
Abbreviation St := (RunState ES CS IS).
Variable rt : Runtime.
Hypothesis Hdisc : forall e, registered rt e -> disciplined (ce_capability e).

Definition count (s : St) : Z := retry_count (rs_context s).

(** No result in the idempotency store asks for a retry. *)
Definition cached_final (s : St) : Prop :=
  idem_inv (rs_idempotency s) /\
  forall k r, idem_get k (rs_idempotency s) = Ret (Some r) -> wants_retry r = false.

(** What every operation respects. *)
Definition budget (s s' : St) : Prop :=
  (count s <= count s')%Z /\ (cached_final s -> cached_final s').

#[export] Instance budget_preorder : PreOrder budget.
Proof.
  split.
  - intros s. split; [lia | done].
  - intros s1 s2 s3 [? ?] [? ?]. split; [lia | auto].
Qed.

Lemma budget_same (s s' : St) :
  rs_idempotency s' = rs_idempotency s -> (count s <= count s')%Z -> budget s s'.
Proof. intros Hi Hc. split; [done|]. unfold cached_final. by rewrite Hi. Qed.

Lemma same_but_time_count c1 c2 : same_but_time c1 c2 -> retry_count c2 = retry_count c1.
Proof. intros E. by apply (f_equal retry_count) in E. Qed.

Lemma set_status_m_count now st c : retry_count (snd (set_status_m now st c)) = retry_count c.
Proof. unfold set_status_m, set_status. by destruct (terminal _). Qed.

Lemma apply_count now p f c : (retry_count c <= retry_count (snd (apply now p f c)))%Z.
Proof.
  destruct (apply now p f c) as [o c'] eqn:E. apply apply_counters in E as [E _].
  cbn [snd]. rewrite E. destruct (String.eqb _ _); lia.
Qed.

Lemma budget_on_context f :
  (forall c, retry_count (f c) = retry_count c) -> keeps budget (on_context f).
Proof. intros H s. apply budget_same; [done|]. unfold count. simpl. by rewrite H. Qed.
Lemma budget_record eid ty d : keeps budget (record eid ty d).
Proof. intros s. unfold record, record_event. cbn. by destruct (ev_append _ _); apply budget_same. Qed.
Lemma budget_read_clock : keeps budget read_clock.
Proof. intros s. by apply budget_same. Qed.
Lemma budget_new_uuid_str : keeps budget new_uuid_str.
Proof. intros s. by apply budget_same. Qed.
Lemma budget_assert_fence lease : keeps budget (assert_fence rt lease).
Proof.
  intros s. unfold assert_fence. destruct (rt_fencing rt); [|done].
  destruct lease; by apply budget_same.
Qed.
Lemma budget_cp_store_save : keeps budget cp_store_save.
Proof.
  intros s. unfold cp_store_save. destruct (cp_save _ _ _) as [[[cs|x] c] e] eqn:E;
    apply cp_save_context, same_but_time_count in E; apply budget_same; unfold count; simpl; try done; lia.
Qed.
Lemma budget_run_set_status st : keeps budget (run_set_status st).
Proof.
  unfold run_set_status. apply keeps_bind; [apply _ | apply budget_read_clock |]. intros now s.
  unfold in_context. pose proof (set_status_m_count now st (rs_context s)) as E.
  destruct (set_status_m _ _ _) as [o c]. apply budget_same; [done|]. unfold count. simpl in *. lia.
Qed.
Lemma budget_run_recovery p f : keeps budget (run_recovery p f).
Proof.
  unfold run_recovery. apply keeps_bind; [apply _ | apply budget_read_clock |]. intros now s.
  unfold in_context. pose proof (apply_count now p f (rs_context s)) as E.
  destruct (apply _ _ _ _) as [o c]. apply budget_same; [done|]. unfold count. simpl in *. lia.
Qed.
Hint Resolve budget_on_context budget_record budget_read_clock budget_new_uuid_str
  budget_assert_fence budget_cp_store_save budget_run_set_status budget_run_recovery : core.

Ltac budget_steps := repeat first [keeps_step | progress cbn zeta]; auto; try by intros ?.

Lemma budget_save_checkpoint lease : keeps budget (save_checkpoint rt lease).
Proof. unfold save_checkpoint. budget_steps. Qed.
Hint Resolve budget_save_checkpoint : core.
Lemma budget_handle_cancellation lease cap inv x :
  keeps budget (handle_cancellation rt lease cap inv x).
Proof. unfold handle_cancellation. budget_steps. Qed.
Lemma budget_handle_failure lease cap inv x : keeps budget (handle_failure rt lease cap inv x).
Proof. unfold handle_failure. budget_steps. Qed.
Lemma budget_recover_result lease eid cap inv r :
  keeps budget (recover_result rt lease eid cap inv r).
Proof. unfold recover_result. budget_steps. Qed.
Lemma budget_observe_result eid cap inv k r : keeps budget (observe_result eid cap inv k r).
Proof. unfold observe_result. budget_steps. Qed.
Lemma budget_run_authorize eid cap inv k rq : keeps budget (run_authorize rt eid cap inv k rq).
Proof. unfold run_authorize. budget_steps. Qed.
Hint Resolve budget_handle_cancellation budget_handle_failure budget_recover_result
  budget_observe_result budget_run_authorize : core.

(** Caching a result that does not ask for a retry keeps the store final. *)
Lemma idem_put_final (s : St) key r i :
  cacheable r = true -> wants_retry r = false -> idem_put key r (rs_idempotency s) = Ret i -> cached_final s ->
  idem_inv i /\ forall k r', idem_get k i = Ret (Some r') -> wants_retry r' = false.
Proof.
  intros Hc Hs Hp [Hinv Hfin].
  split; [by eapply idem_put_inv|]. intros k r' Hg.
  destruct (decide (key = k)) as [<-|Hne].
  2:{ rewrite (idem_put_other _ _ _ _ _ Hinv Hne Hp) in Hg. eauto. }
  destruct (idem_get_total key (rs_idempotency s) Hinv) as [[r0|] H0].
  - pose proof (idem_first_wins _ _ _ _ _ Hinv H0 Hp) as H1.
    rewrite H1 in Hg. out_simpl. eauto.
  - destruct (idem_put_get _ _ _ _ Hinv Hc H0 Hp) as (r1 & H1 & Hst).
    rewrite H1 in Hg. out_simpl. apply not_true_iff_false. intros Hw.
    apply (same_result_retry _ _ Hst) in Hw. congruence.
Qed.

Lemma budget_cache_terminal_result lease key r :
  (cacheable r = true -> wants_retry r = false) -> keeps budget (cache_terminal_result rt lease key r).
Proof.
  intros Hn. unfold cache_terminal_result. destruct (cacheable r) eqn:Ec; [|budget_steps].
  apply keeps_bind; [apply _ | auto | intros _ s]. unfold idempotency_put.
  destruct (idem_put key r _) as [i|x] eqn:E; [|done]. split; [done|].
  eapply idem_put_final; [done | by apply Hn | exact E].
Qed.
Hint Resolve budget_cache_terminal_result : core.

Lemma budget_settle lease eid cap inv key k r :
  (cacheable r = true -> wants_retry r = false) -> keeps budget (settle rt lease eid cap inv key k r).
Proof. intros Hn. unfold settle, persist_result. budget_steps. Qed.
Hint Resolve budget_settle : core.

Lemma budget_check_cancelled : keeps budget check_cancelled.
Proof. by intros s. Qed.

Lemma budget_run_invoke cap rq : disciplined cap -> keeps budget (run_invoke cap rq).
Proof.
  intros Hd s. unfold run_invoke. pose proof (dc_count _ Hd (rq (rs_context s) (rs_token s))
    (mkCapState (rs_context s) (rs_token s) (rs_env s))) as Hc.
  destruct (cap_invoke _ _ _) as [o cs]. apply budget_same; [done|]. exact Hc.
Qed.

(** The attempt of [invoke_and_settle], and where its results come from. *)
Definition attempt (entry : CapabilityEntry Capability)
    (rq : ExecutionContext -> CancellationToken -> InvocationRequest) :
    M St (InvocationResult + (exn + exn)) :=
  try_except
    (try_except
       (check_cancelled ;;;
        r <- run_invoke (ce_capability entry) rq ;;
        check_cancelled ;;;
        ret (inl r))
       (is_class ExecutionCancellation)
       (fun x => ret (inr (inl x))))
    any_exception
    (fun x => ret (inr (inr x))).

Lemma budget_attempt entry rq :
  disciplined (ce_capability entry) -> keeps budget (attempt entry rq).
Proof.
  intros Hd. unfold attempt. budget_steps. by apply budget_run_invoke.
Qed.

Lemma attempt_result entry rq (s s' : St) r :
  attempt entry rq s = (Ret (inl r), s') ->
  exists rq cs cs', cap_invoke (ce_capability entry) rq cs = (Ret r, cs').
Proof.
  unfold attempt, try_except, any_exception. intros H.
  destruct (bind _ _ s) as [[a|x] s1] eqn:E.
  - out_simpl. apply bind_ret_inv in E as (? & s2 & _ & E).
    apply bind_ret_inv in E as (r0 & s3 & Hr & E). apply bind_ret_inv in E as (? & s4 & _ & E).
    apply ret_inv in E as [[= ->] _]. unfold run_invoke in Hr.
    destruct (cap_invoke _ _ _) as [o cs] eqn:Ei. out_simpl. by do 3 eexists.
  - by destruct (is_class _ x).
Qed.

(** A result that is cached does not ask for a retry. *)
Lemma recovered_final cap lease eid cid inv r r' rq cs cs' (s s' : St) :
  disciplined cap -> cap_invoke cap rq cs = (Ret r, cs') ->
  recover_result rt lease eid cid inv r s = (Ret r', s') -> cacheable r' = true -> wants_retry r' = false.
Proof.
  intros Hd Hr H Hc. apply not_true_iff_false. intros Hw. unfold recover_result in H.
  destruct (result_failure r) as [f|] eqn:Ef.
  - pose proof (recover_result_ret rt lease eid cid inv r r' s s') as Hst. unfold recover_result in Hst.
    rewrite Ef in Hst. apply Hst in H as [Est _]. unfold result_failure in Ef.
    destruct (bool_decide (ir_status r = INV_FAILED)) eqn:Eb; [|done].
    apply bool_decide_eq_true in Eb, Hc. rewrite Est, Eb in Hc. by destruct Hc.
  - apply ret_inv in H as [-> _]. by apply (dc_retry _ Hd _ _ _ _ Hr Hw).
Qed.

Lemma budget_invoke_and_settle lease eid cap inv key entry k rq :
  disciplined (ce_capability entry) ->
  keeps budget (invoke_and_settle rt lease eid cap inv key entry k rq).
Proof.
  intros Hd. apply keeps_bind_val; [apply _ | by apply budget_attempt |].
  intros [r|[x|x]] s s' Ha; [|apply budget_handle_cancellation | apply budget_handle_failure].
  revert s' Ha. intros s' Ha.
  destruct (attempt_result _ _ _ _ _ Ha) as (rq' & cs & cs' & E).
  apply keeps_bind_val; [apply _ | auto |]. intros r' s1 s2 Hr.
  apply budget_settle. by eapply recovered_final.
Qed.

Lemma budget_run_entry lease eid cap v inv key input entry :
  disciplined (ce_capability entry) ->
  keeps budget (run_entry rt lease eid cap v inv key input entry).
Proof.
  intros Hd. pose proof budget_check_cancelled.
  pose proof (fun lease eid cap inv key k rq =>
                budget_invoke_and_settle lease eid cap inv key entry k rq Hd).
  unfold run_entry, run_fresh. budget_steps.
Qed.

Lemma get_registered cap v e : rt_get rt cap v = Ret e -> registered rt e.
Proof. intros H. by exists cap, v. Qed.

Lemma budget_execute lease cap v input i ko : keeps budget (execute rt lease cap v input i ko).
Proof.
  unfold execute. apply keeps_bind; [apply _ | by intros ? | intros c].
  destruct (bool_decide _); [apply keeps_lift; apply _|].
  apply keeps_bind; [apply _ | budget_steps | intros inv]. cbn zeta.
  do 2 (apply keeps_bind; [apply _ | auto | intros _]).
  apply keeps_bind_val; [apply _ | apply keeps_lift; apply _ |]. intros e s s' He.
  apply lift_inv in He as [He _]. apply get_registered, Hdisc in He.
  apply keeps_bind; [apply _ | auto | intros _]. by apply budget_run_entry.
Qed.

(** ** One retry costs one unit *)

Lemma budget_complete lease : keeps budget (complete rt lease).
Proof. unfold complete. budget_steps. Qed.

Lemma budget_run {A} (m : M St A) s o s' : m s = (o, s') -> keeps budget m -> budget s s'.
Proof. intros H Hk. specialize (Hk s). by rewrite H in Hk. Qed.

Definition spent (s s' : St) : Prop :=
  (count s < max_retries (rt_recovery rt))%Z /\ (count s + 1 <= count s')%Z.

Lemma spent_weaken s s1 s2 s' : budget s s1 -> spent s1 s2 -> budget s2 s' -> spent s s'.
Proof. intros [? _] [? ?] [? _]. split; lia. Qed.

Lemma wants_retry_error r err :
  wants_retry r = true -> ir_error r = Some err -> dget_or "recovery_action" VNone err = VStr "retry".
Proof.
  unfold wants_retry. intros H E. rewrite E in H. apply andb_prop in H as [_ H].
  destruct (dget_or _ _ _); try done. apply String.eqb_eq in H. by subst.
Qed.

Lemma recover_result_retry lease eid cap inv r r' (s s' : St) :
  recover_result rt lease eid cap inv r s = (Ret r', s') -> wants_retry r' = true ->
  (wants_retry r = true -> result_failure r <> None) -> spent s s'.
Proof.
  unfold recover_result. intros H Hw Hd. destruct (result_failure r) as [f|] eqn:Ef.
  2:{ apply ret_inv in H as [-> ->]. by destruct (Hd Hw). }
  assert (exists err, ir_error r = Some err) as [err Eerr].
  { unfold result_failure in Ef. destruct (bool_decide _), (ir_error r); eauto; done. }
  apply bind_ret_inv in H as (d & s1 & Hr & H). apply run_recovery_ret in Hr as (Hdec & now & Ha).
  apply bind_ret_inv in H as (? & s2 & H2 & H). apply bind_ret_inv in H as (? & s3 & H3 & H).
  apply ret_inv in H as [-> ->].
  assert (rd_action d = "retry") as Hact.
  { eapply wants_retry_error in Hw; [|simpl; by rewrite Eerr].
    unfold dget_or in Hw. rewrite dget_dset_eq in Hw. by injection Hw. }
  apply apply_counters in Ha as [Hc _]. rewrite <- Hdec, Hact in Hc.
  rewrite Hdec in Hact. apply classify_retry in Hact as [_ Hlt].
  apply budget_run in H2 as [B1 _]; [|auto]. apply budget_run in H3 as [B2 _]; [|auto].
  unfold spent, count in *. simpl in *. lia.
Qed.

Lemma invoke_and_settle_retry lease eid cap inv key entry k rq r (s s' : St) :
  disciplined (ce_capability entry) ->
  invoke_and_settle rt lease eid cap inv key entry k rq s = (Ret r, s') ->
  wants_retry r = true -> spent s s'.
Proof.
  intros Hd H Hw. apply bind_ret_inv in H as (a & s1 & Ha & H).
  pose proof (budget_attempt entry rq Hd s) as B1. unfold attempt in B1. rewrite Ha in B1.
  destruct a as [r0|[x|x]];
    [|by apply handle_cancellation_ret in H as -> | by apply handle_failure_ret in H as ->].
  apply attempt_result in Ha as (? & ? & ? & Ei).
  apply bind_ret_inv in H as (r1 & s2 & Hr & H).
  pose proof (budget_settle lease eid cap inv key k r1) as B2.
  specialize (B2 ltac:(by eapply recovered_final) s2). rewrite H in B2.
  apply settle_ret in H as [-> _].
  eapply spent_weaken; [exact B1 | | exact B2].
  eapply recover_result_retry; [exact Hr | done |]. by eapply dc_retry.
Qed.

Lemma run_entry_retry lease eid cap v inv key input entry r (s s' : St) :
  disciplined (ce_capability entry) -> cached_final s ->
  run_entry rt lease eid cap v inv key input entry s = (Ret r, s') ->
  wants_retry r = true -> spent s s'.
Proof.
  intros Hd [_ Hfin] H Hw. apply bind_ret_inv in H as (x & s1 & Hr & H).
  apply stop_check_ret in Hr as [-> _].
  destruct x as [x|]; [by apply handle_cancellation_ret in H as ->|].
  destruct (ce_contract entry) as [k|]; [|done]. cbn zeta in H.
  apply bind_ret_inv in H as (? & s1 & Hr & H). injection Hr as <- <-.
  apply bind_ret_inv in H as (? & s1 & Hr & H). apply lift_inv in Hr as [_ ->].
  apply bind_ret_inv in H as (? & s1 & Hr & H). apply run_authorize_ret in Hr as [-> _].
  apply bind_ret_inv in H as (o & s1 & Hr & H). injection Hr as Hg <-. destruct o as [r0|].
  { apply bind_ret_inv in H as (? & s1 & _ & H). apply ret_inv in H as [-> _].
    apply Hfin in Hg. congruence. }
  unfold run_fresh in H.
  do 8 (let s1 := fresh "s" in let H1 := fresh "Hr" in
        apply bind_ret_inv in H as (? & s1 & H1 & H);
        apply (f_equal snd) in H1; cbn [snd] in H1).
  pose proof (invoke_and_settle_retry _ _ _ _ _ _ _ _ _ _ _ Hd H Hw) as Hspent.
  eapply spent_weaken; [|exact Hspent | reflexivity]. subst.
  repeat (etransitivity; [|first [ apply budget_record | apply budget_run_set_status
    | apply budget_save_checkpoint | by apply budget_on_context ]]). reflexivity.
Qed.

Lemma execute_retry lease cap v input i ko r (s s' : St) :
  i <> "" -> cached_final s -> execute rt lease cap v input (Some i) ko s = (Ret r, s') ->
  wants_retry r = true -> spent s s'.
Proof.
  intros Hi Hfin H Hw. apply execute_ret in H as (_ & entry & s1 & He & (Hi1 & _ & Hc) & H); [|done].
  apply get_registered, Hdisc in He.
  apply same_but_time_count in Hc. simpl in Hc.
  eapply (spent_weaken _ s1 s'); [|eapply run_entry_retry; [exact He | | exact H | done]| reflexivity].
  - apply budget_same; [done|]. unfold count. rewrite Hc. done.
  - unfold cached_final in *. unfold same_idem in Hi1. by rewrite Hi1.
Qed.
End retry.

(** ** Pending tasks *)

Definition is_pending (t : TaskNode) : bool := bool_decide (task_status t = T_PENDING).
Definition pending (ts : task_table) : nat := length (List.filter is_pending (dvalues ts)).

Lemma pending_le_length ts : (pending ts <= length ts)%nat.
Proof.
  unfold pending, dvalues. rewrite <- (length_map snd ts).
  induction (map snd ts) as [|t l IH]; simpl; [lia|]. destruct (is_pending t); simpl; lia.
Qed.

Definition pend (t : TaskNode) : nat := if is_pending t then 1 else 0.

Lemma pending_dset k t t' ts :
  dget k ts = Some t -> (pending (dset k t' ts) + pend t = pending ts + pend t')%nat.
Proof.
  unfold pending, dvalues, pend. induction ts as [|[k1 t1] ts IH]; [done|]. simpl.
  destruct (String.eqb_spec k k1) as [->|]; intros H.
  - simplify_eq. simpl. destruct (is_pending t), (is_pending t'); simpl; lia.
  - simpl. specialize (IH H). destruct (is_pending t1); simpl; lia.
Qed.

Lemma pending_update id f ts :
  (forall t, is_pending (f t) = false) -> (pending (update_task id f ts) <= pending ts)%nat.
Proof.
  intros Hf. unfold update_task. destruct (dget id ts) as [t|] eqn:E; [|done].
  pose proof (pending_dset id t (f t) ts E) as H. unfold pend in H. rewrite Hf in H.
  destruct (is_pending t); lia.
Qed.

(** Each task that becomes ready is one pending task less. *)
Lemma ready_loop_pending ids ts l ts' :
  ready_loop ids ts = Ret (l, ts') -> (pending ts' + length l = pending ts)%nat.
Proof.
  revert ts l ts'. induction ids as [|id ids IH]; intros ts l ts'; cbn [ready_loop].
  { intros H. out_simpl. simpl. lia. }
  destruct (dget id ts) as [t|] eqn:E; [|apply IH].
  destruct (bool_decide (task_status t = T_PENDING)) eqn:Ep; [|apply IH].
  destruct (deps_succeeded ts (dependencies t)) as [[]|]; cbn [out_bind]; [|apply IH | done].
  destruct (ready_loop ids _) as [[l1 ts1]|] eqn:Er; cbn [out_bind fst snd]; [|done].
  intros H. out_simpl. apply IH in Er.
  pose proof (pending_dset id t (with_task_status T_READY t) ts E) as Hd.
  unfold pend in Hd. unfold is_pending in Hd at 1. rewrite Ep in Hd. simpl in Hd. simpl. lia.
Qed.

Section facts.
Context {ES CS IS : Type} `{!EvidenceStore ES} `{!CheckpointStore CS} `{!IdempotencyStore IS}.
Context {IF : IsoFormat} {CPL : CheckpointLaws CS} {IDL : IdempotencyLaws IS}.
Abbreviation St := (OrchState ES CS IS).
Variable rt : Runtime.
Hypothesis Hdisc : forall e, registered rt e -> disciplined (ce_capability e).

Abbreviation ts_of := (fun s : St => tasks (os_plan s)).

(** ** The retry loop *)

Definition run_budget (s s' : St) : Prop := budget (os_run s) (os_run s').

#[local] Instance run_budget_preorder : PreOrder run_budget.
Proof.
  split; unfold run_budget.
  - intros s. reflexivity.
  - intros s1 s2 s3 H1 H2. etransitivity; [exact H1 | exact H2].
Qed.

Lemma budget_on_run {A} (m : M (RunState ES CS IS) A) : keeps budget m -> keeps run_budget (on_run m).
Proof.
  intros H s. unfold run_budget, on_run. specialize (H (os_run s)).
  by destruct (m (os_run s)).
Qed.

Lemma budget_on_plan f : keeps run_budget (on_plan f).
Proof. intros s. unfold run_budget. simpl. reflexivity. Qed.

Lemma budget_get_plan : keeps run_budget get_plan.
Proof. intros s. unfold run_budget. simpl. reflexivity. Qed.

Lemma budget_get_context : keeps (budget (ES := ES) (CS := CS) (IS := IS)) get_context.
Proof. intros s. simpl. reflexivity. Qed.

Lemma budget_save_plan : keeps run_budget save_plan.
Proof.
  unfold save_plan. repeat keeps_step; try apply budget_on_run; try apply budget_get_plan.
  - by apply budget_on_context.
  - apply budget_cp_store_save.
Qed.

Lemma budget_run_runtime t inv : keeps run_budget (run_runtime rt t inv).
Proof. apply budget_on_run, budget_execute, Hdisc. Qed.

Hint Resolve budget_on_run budget_on_plan budget_get_plan budget_get_context budget_save_plan
  budget_run_runtime budget_on_context : core.

Lemma budget_retry_loop fuel t inv r : keeps run_budget (retry_loop rt fuel t inv r).
Proof.
  revert r. induction fuel as [|fuel IH]; intros r; cbn [retry_loop]; repeat keeps_step; auto.
Qed.
Hint Resolve budget_retry_loop : core.

Lemma budget_on_task id f : keeps run_budget (on_task id f).
Proof. apply budget_on_plan. Qed.
Hint Resolve budget_on_task : core.

Lemma budget_run_task fuel id : keeps run_budget (run_task rt fuel id).
Proof.
  unfold run_task, attempt_task. repeat first [keeps_step | progress cbn zeta]; auto.
Qed.
Hint Resolve budget_run_task : core.

Lemma budget_run_batch fuel ids b : keeps run_budget (run_batch rt fuel ids b).
Proof. revert b. induction ids; intros b; cbn [run_batch]; repeat keeps_step; auto. Qed.

Lemma budget_run_ready_tasks : keeps run_budget run_ready_tasks.
Proof. intros s. unfold run_budget, run_ready_tasks. by destruct (ready_tasks _) as [[]|]. Qed.
Hint Resolve budget_run_batch budget_run_ready_tasks : core.

Lemma budget_plan_loop fuel rounds : keeps run_budget (plan_loop rt fuel rounds).
Proof.
  induction rounds as [|rounds IH]; cbn [plan_loop]; repeat keeps_step; auto.
Qed.

Lemma budget_execute_plan frames fuel rounds : keeps run_budget (execute_plan rt frames fuel rounds).
Proof.
  unfold execute_plan. repeat keeps_step; auto.
  - apply budget_plan_loop.
  - apply budget_on_run, budget_complete.
Qed.

(** Fuel one above the rest of the retry budget is enough for the loop. *)
Definition enough (fuel : nat) (s : St) : Prop :=
  cached_final (os_run s) /\
  (Z.max 0 (max_retries (rt_recovery rt) - count (os_run s)) + 1 <= Z.of_nat fuel)%Z.

Lemma enough_mono fuel s s' : run_budget s s' -> enough fuel s -> enough fuel s'.
Proof. intros [Hc Hf] [? ?]. split; [auto | lia]. Qed.

Lemma retry_loop_enough fuel t inv r s s' :
  inv <> "" -> enough fuel s -> retry_loop rt fuel t inv r s = (Ret None, s') -> False.
Proof.
  intros Hi. revert r s. induction fuel as [|fuel IH]; intros r s [Hfin He]; [lia|].
  cbn [retry_loop]. destruct (wants_retry r); [|done]. intros H.
  apply bind_ret_inv in H as (r1 & s1 & Hr & H).
  destruct (wants_retry r1) eqn:Ew; [|by destruct fuel; cbn [retry_loop] in H; rewrite Ew in H].
  pose proof (budget_run_runtime t inv s) as Hb. rewrite Hr in Hb. destruct Hb as [Hb1 Hb2].
  apply (IH r1 s1); [|done]. split; [auto|].
  unfold run_runtime, on_run in Hr. destruct (execute _ _ _ _ _ _ _ _) as [o s2] eqn:Ex.
  out_simpl. apply execute_retry in Ex as [? ?]; [|done..]. simpl in *. lia.
Qed.

Lemma invocation_id_nonempty a b : a +:+ ":" +:+ b <> "".
Proof. by destruct a. Qed.

Lemma run_task_enough fuel id s s' :
  enough fuel s -> run_task rt fuel id s = (Ret None, s') -> False.
Proof.
  unfold run_task. intros He H. apply bind_ret_inv in H as (p & s1 & Hp & H).
  injection Hp as <- <-. destruct (dget id _) as [t|]; [|done].
  apply bind_ret_inv in H as (? & s1 & H1 & H). apply bind_ret_inv in H as (? & s2 & H2 & H).
  apply bind_ret_inv in H as (? & s3 & H3 & H).
  assert (enough fuel s3) as He3.
  { eapply enough_mono; [|exact He]. apply (f_equal snd) in H1, H2, H3. cbn [snd] in *. subst.
    etransitivity; [|apply budget_save_plan]. etransitivity; [|apply budget_on_run; auto].
    apply budget_on_task. }
  unfold try_except in H. destruct (attempt_task _ _ _ _ s3) as [[o|ex] s4] eqn:Ea.
  2:{ apply bind_ret_inv in H as (? & ? & _ & H). by apply bind_ret_inv in H as (? & ? & _ & H). }
  out_simpl. unfold attempt_task in Ea.
  apply bind_ret_inv in Ea as (c & s5 & Hc & Ea). cbn zeta in Ea.
  apply bind_ret_inv in Ea as (r & s6 & Hr & Ea). apply bind_ret_inv in Ea as (o & s7 & Ho & Ea).
  destruct o as [r'|].
  { by destruct (succeeded r'); apply bind_ret_inv in Ea as (? & ? & _ & Ea);
      apply bind_ret_inv in Ea as (? & ? & _ & Ea). }
  eapply retry_loop_enough; [apply invocation_id_nonempty | | exact Ho].
  eapply enough_mono; [|exact He3]. apply (f_equal snd) in Hc, Hr. cbn [snd] in *. subst.
  etransitivity; [|apply budget_run_runtime]. apply budget_on_run, budget_get_context.
Qed.

Lemma run_batch_enough fuel ids b s s' :
  enough fuel s -> run_batch rt fuel ids b s = (Ret None, s') -> False.
Proof.
  revert b s. induction ids as [|id ids IH]; intros b s He; cbn [run_batch]; [done|].
  intros H. apply bind_ret_inv in H as (o & s1 & H1 & H). destruct o as [f|].
  - eapply IH; [|exact H]. eapply enough_mono; [|exact He].
    pose proof (budget_run_task fuel id s) as Hb. by rewrite H1 in Hb.
  - by eapply run_task_enough.
Qed.

(** ** The scheduling loop *)

(** Which tasks a computation may touch: the graph stays, and of the tasks
    only those in [ids] change, none of them back to pending. *)
Definition moves (ids : list string) (s s' : St) : Prop :=
  same_graph (ts_of s) (ts_of s') /\
  (forall k, k ∉ ids -> dget k (ts_of s') = dget k (ts_of s)) /\
  (pending (ts_of s') <= pending (ts_of s))%nat.

#[local] Instance moves_preorder ids : PreOrder (moves ids).
Proof.
  split.
  - intros s. split; [reflexivity | done].
  - intros s1 s2 s3 (H1 & H2 & H3) (H4 & H5 & H6).
    split; [by etransitivity|]. split; [|lia]. intros k Hk. by rewrite H5, H2.
Qed.

Lemma moves_weaken ids ids' s s' : (forall k, k ∈ ids -> k ∈ ids') -> moves ids s s' -> moves ids' s s'.
Proof. intros Hi (H1 & H2 & H3). split; [done|]. split; [|done]. intros k Hk. apply H2. auto. Qed.

Lemma moves_same ids (s s' : St) : os_plan s' = os_plan s -> moves ids s s'.
Proof. intros E. split; [by rewrite E|]. by rewrite E. Qed.

Lemma moves_on_run {A} ids (m : M (RunState ES CS IS) A) : keeps (moves ids) (on_run m).
Proof. intros s. unfold on_run. destruct (m (os_run s)). by apply moves_same. Qed.

Lemma moves_on_task id f :
  (forall t, same_shape t (f t) /\ is_pending (f t) = false) -> keeps (moves [id]) (on_task id f).
Proof.
  intros Hf s. split; [|split].
  - apply same_graph_update. intros t. apply Hf.
  - intros k Hk. simpl. rewrite dget_update_task, decide_False; [done|].
    intros ->. by apply Hk, list_elem_of_singleton.
  - simpl. apply pending_update. intros t. apply Hf.
Qed.

Lemma moves_get_plan ids : keeps (moves ids) get_plan.
Proof. intros s. by apply moves_same. Qed.

Lemma moves_save_plan ids : keeps (moves ids) save_plan.
Proof.
  unfold save_plan. repeat keeps_step; auto using moves_on_run, moves_get_plan.
Qed.

Lemma moves_retry_loop ids fuel t inv r : keeps (moves ids) (retry_loop rt fuel t inv r).
Proof.
  revert r. induction fuel as [|fuel IH]; intros r; cbn [retry_loop]; repeat keeps_step; auto.
  apply moves_on_run.
Qed.

Hint Resolve moves_on_run moves_get_plan moves_save_plan moves_retry_loop : core.

Ltac moves_task := apply moves_on_task; intros ?; split; [by repeat split | done].

Lemma moves_attempt_task fuel id t : keeps (moves [id]) (attempt_task rt fuel id t).
Proof.
  unfold attempt_task, run_runtime.
  repeat first [keeps_step | progress cbn zeta]; auto; moves_task.
Qed.
Hint Resolve moves_attempt_task : core.

Lemma moves_run_task fuel id : keeps (moves [id]) (run_task rt fuel id).
Proof.
  unfold run_task.
  repeat first [keeps_step | progress cbn zeta]; auto; moves_task.
Qed.

Lemma moves_run_batch fuel ids b : keeps (moves ids) (run_batch rt fuel ids b).
Proof.
  revert b. induction ids as [|id ids IH]; intros b; cbn [run_batch]; [by intros s|].
  apply keeps_bind; [apply _ | |].
  - intros s. eapply moves_weaken; [|apply moves_run_task]. intros k ->%list_elem_of_singleton. by left.
  - intros [f|]; [|by intros s]. intros s. eapply moves_weaken; [|apply IH]. intros k Hk. by right.
Qed.

Lemma run_ready_tasks_ret s l s' :
  run_ready_tasks s = (Ret l, s') ->
  ready_tasks (os_plan s) = Ret (l, os_plan s') /\ os_run s' = os_run s /\
  (pending (ts_of s') + length l = pending (ts_of s))%nat.
Proof.
  unfold run_ready_tasks. destruct (ready_tasks (os_plan s)) as [[l0 p]|] eqn:E; intros H; out_simpl.
  split; [done|]. split; [done|]. unfold ready_tasks in E.
  destruct (ready_loop _ _) as [[l1 ts1]|] eqn:Er; simpl in E; [|done]. out_simpl.
  by apply ready_loop_pending in Er.
Qed.

(** Rounds one above the number of pending tasks are enough for the loop. *)
Lemma plan_loop_enough fuel rounds s s' :
  enough fuel s -> (pending (ts_of s) < rounds)%nat ->
  plan_loop rt fuel rounds s = (Ret None, s') -> False.
Proof.
  revert s. induction rounds as [|rounds IH]; intros s He Hp; [lia|]. cbn [plan_loop].
  intros H. apply bind_ret_inv in H as (p & s1 & Hg & H). injection Hg as <- <-.
  destruct (is_complete _); [done|].
  apply bind_ret_inv in H as (l & s1 & Hr & H).
  apply run_ready_tasks_ret in Hr as (_ & Hrun & Hpend).
  assert (enough fuel s1) as He1 by (unfold enough in *; by rewrite Hrun).
  destruct l as [|id l].
  { apply bind_ret_inv in H as (p & s2 & Hg & H). injection Hg as <- <-.
    by destruct (has_failed _). }
  apply bind_ret_inv in H as (o & s2 & Hb & H).
  destruct o as [[]|]; [done | | by eapply run_batch_enough].
  pose proof (moves_run_batch fuel (id :: l) false s1) as Hm. rewrite Hb in Hm.
  pose proof (budget_run_batch fuel (id :: l) false s1) as Hbud. rewrite Hb in Hbud.
  eapply (IH s2); [by eapply enough_mono | | exact H].
  destruct Hm as (_ & _ & Hm). simpl in *. lia.
Qed.
End facts.
