(* ===== verification/OrchestratorRuns.v ===== *)
(** * What a run of the orchestrator leaves behind

    Dependency order as an invariant of every run, exceptions included, and the
    outcome of a run whose stores do not fail. *)

From stdpp Require Import base gmap strings list relations.
From Stdlib Require Import ZArith Lia.
From S2P Require Import Prelude Uuid Json Types State Recovery Policy Planning Stores.
From S2P Require Import Registry Fencing Runtime RuntimeFacts RuntimeRuns Orchestrator.
From S2P Require Import OrchestratorFacts.
Local Open Scope py_scope.

(** The statuses of tasks that have been handed to the runtime or are about to
    be. *)
Definition started (s : TaskStatus) : bool :=
  match s with T_READY | T_RUNNING | T_SUCCEEDED | T_FAILED => true | _ => false end.

(** Every started task has all its dependencies succeeded. *)
Definition closed (ts : task_table) : Prop :=
  forall k t d, dget k ts = Some t -> started (task_status t) = true -> d ∈ dependencies t ->
    has_status T_SUCCEEDED ts d = true.

Lemma has_status_eq s ts ts' k : dget k ts' = dget k ts -> has_status s ts' k = has_status s ts k.
Proof. unfold has_status. by intros ->. Qed.

Lemma closed_marked l ts ts' :
  closed ts -> (forall k, k ∈ l <-> is_ready ts k) -> marked_ready l ts ts' -> closed ts'.
Proof.
  intros Hc Hl [Hk Hm].
  assert (forall d, has_status T_SUCCEEDED ts d = true -> has_status T_SUCCEEDED ts' d = true) as Hs.
  { intros d Hd. rewrite <- Hd. apply has_status_eq. rewrite Hm. case_decide as Hin; [|done].
    apply Hl in Hin as (t & Ht & Hp & _). apply has_status_spec in Hd as (t' & Ht' & Hst).
    congruence. }
  intros k t d Hkt Hst Hd. apply Hs. rewrite Hm in Hkt. case_decide as Hin.
  - apply Hl in Hin as (t0 & Ht0 & _ & Hdeps). rewrite Ht0 in Hkt. injection Hkt as <-. by apply Hdeps.
  - by eapply Hc.
Qed.

Lemma marked_status l ts ts' k :
  (forall k, k ∈ l <-> is_ready ts k) -> marked_ready l ts ts' -> k ∈ l ->
  has_status T_READY ts' k = true.
Proof.
  intros Hl [_ Hm] Hin. unfold has_status. rewrite Hm, decide_True by done.
  apply Hl in Hin as (t & -> & _). done.
Qed.

Section runs.
Context {ES CS IS : Type} `{!EvidenceStore ES} `{!CheckpointStore CS} `{!IdempotencyStore IS}.
Context {IF : IsoFormat} {CPL : CheckpointLaws CS} {IDL : IdempotencyLaws IS}.
Abbreviation St := (OrchState ES CS IS).
Variable rt : Runtime.
Variable frames : nat.
Abbreviation ts_of := (fun s : St => tasks (os_plan s)).

(** A task that is ready may run: the invariant survives whatever happens to
    it. *)
Lemma closed_moves id (s s' : St) :
  closed (ts_of s) -> has_status T_READY (ts_of s) id = true -> moves [id] s s' -> closed (ts_of s').
Proof.
  intros Hc Hr ([_ Hg] & Hother & _). simpl in *.
  assert (forall d, has_status T_SUCCEEDED (ts_of s) d = true ->
                    has_status T_SUCCEEDED (ts_of s') d = true) as Hs.
  { intros d Hd. rewrite <- Hd. apply has_status_eq, Hother. intros ->%list_elem_of_singleton.
    apply has_status_spec in Hd as (t & Ht & E), Hr as (t' & Ht' & E'). congruence. }
  intros k t d Hk Hst Hd. apply Hs. destruct (decide (k = id)) as [->|Hne].
  - apply has_status_spec in Hr as (t0 & Ht0 & E0). specialize (Hg id).
    rewrite Hk, Ht0 in Hg. inversion Hg as [? ? Hsh|]; subst.
    eapply (Hc id t0); [done | by rewrite E0 |]. by destruct Hsh as (_ & _ & _ & _ & ->).
  - rewrite Hother in Hk by (by intros ?%list_elem_of_singleton). by eapply Hc.
Qed.

Lemma moves_others_ready id ids (s s' : St) :
  NoDup (id :: ids) -> Forall (fun k => has_status T_READY (ts_of s) k = true) (id :: ids) ->
  moves [id] s s' -> Forall (fun k => has_status T_READY (ts_of s') k = true) ids.
Proof.
  intros [Hn _]%NoDup_cons [_ Hall]%Forall_cons (_ & Ho & _).
  rewrite Forall_forall in *. intros k Hk. rewrite <- (Hall k Hk). apply has_status_eq, Ho.
  by intros ->%list_elem_of_singleton.
Qed.

Lemma closed_run_batch fuel ids b (s : St) :
  NoDup ids -> closed (ts_of s) -> Forall (fun k => has_status T_READY (ts_of s) k = true) ids ->
  closed (ts_of (snd (run_batch rt fuel ids b s))).
Proof.
  revert b s. induction ids as [|id ids IH]; intros b s Hnd Hc Hr; cbn [run_batch]; [done|].
  unfold bind. pose proof (moves_run_task rt fuel id s) as Hm.
  destruct (run_task rt fuel id s) as [[[f|]|x] s1]; cbn [snd] in *.
  2,3: by eapply closed_moves; [| apply Forall_cons in Hr as [Hr _]; exact Hr | exact Hm].
  apply IH; [by apply NoDup_cons in Hnd as [_ ?] | | by eapply moves_others_ready].
  eapply closed_moves; [done | by apply Forall_cons in Hr as [Hr _] | exact Hm].
Qed.

(** The list [ready_tasks] returns and the table it leaves. *)
Lemma run_ready_tasks_spec (s : St) :
  well_founded_table (ts_of s) ->
  exists l s', run_ready_tasks s = (Ret l, s') /\ os_run s' = os_run s /\ NoDup l /\
    (forall k, k ∈ l <-> is_ready (ts_of s) k) /\ marked_ready l (ts_of s) (ts_of s').
Proof.
  intros [Hok Hk Hg]. unfold run_ready_tasks.
  destruct (ready_tasks_spec (os_plan s) Hok Hk) as (l & ts' & -> & Hsub & Hl & Hm).
  exists l, (mkOrch (with_tasks ts' (os_plan s)) (os_run s)). split; [done|]. split; [done|].
  split; [|by split]. eapply sublist_NoDup; [exact Hok | exact Hsub].
Qed.

Lemma marked_same_graph l ts ts' : marked_ready l ts ts' -> same_graph ts ts'.
Proof.
  intros [Hk Hm]. split; [done|]. intros k. rewrite Hm. case_decide; [|reflexivity].
  destruct (dget k ts); constructor. by repeat split.
Qed.

Lemma closed_plan_loop fuel rounds (s : St) :
  well_founded_table (ts_of s) -> closed (ts_of s) ->
  closed (ts_of (snd (plan_loop rt fuel rounds s))).
Proof.
  revert s. induction rounds as [|rounds IH]; intros s Hwf Hc; cbn [plan_loop]; unfold bind, get_plan.
  { by destruct (is_complete _). }
  destruct (is_complete _); [done|].
  destruct (run_ready_tasks_spec s Hwf) as (l & s1 & -> & _ & Hnd & Hl & Hm).
  pose proof (closed_marked _ _ _ Hc Hl Hm) as Hc1.
  destruct l as [|id l]; [by destruct (has_failed _)|].
  assert (closed (ts_of (snd (run_batch rt fuel (id :: l) false s1)))) as Hc2.
  { apply closed_run_batch; [done | done |]. apply Forall_forall. intros k Hk.
    by eapply marked_status. }
  pose proof (moves_run_batch rt fuel (id :: l) false s1) as [Hsg _].
  destruct (run_batch rt fuel (id :: l) false s1) as [[[[]|]|x] s2]; cbn [snd] in *; try done.
  apply IH; [|done]. rewrite <- Hsg. by rewrite <- (marked_same_graph _ _ _ Hm).
Qed.

(** A task that is READY when a round begins is in no batch: it stays READY. *)
Lemma ready_stays fuel rounds k (s : St) :
  well_founded_table (ts_of s) -> has_status T_READY (ts_of s) k = true ->
  has_status T_READY (ts_of (snd (plan_loop rt fuel rounds s))) k = true.
Proof.
  revert s. induction rounds as [|rounds IH]; intros s Hwf Hk; cbn [plan_loop]; unfold bind, get_plan.
  { by destruct (is_complete _). }
  destruct (is_complete _); [done|].
  destruct (run_ready_tasks_spec s Hwf) as (l & s1 & -> & _ & Hnd & Hl & Hm).
  assert (k ∉ l) as Hn.
  { intros (t & Ht & Hp & _)%Hl. apply has_status_spec in Hk as (t' & Ht' & E). congruence. }
  assert (has_status T_READY (ts_of s1) k = true) as Hk1.
  { rewrite <- Hk. apply has_status_eq. destruct Hm as [_ Hm]. by rewrite Hm, decide_False. }
  destruct l as [|id l]; [by destruct (has_failed _)|].
  pose proof (moves_run_batch rt fuel (id :: l) false s1) as (Hsg & Ho & _).
  assert (has_status T_READY (ts_of (snd (run_batch rt fuel (id :: l) false s1))) k = true) as Hk2.
  { rewrite <- Hk1. apply has_status_eq. by apply Ho. }
  destruct (run_batch rt fuel (id :: l) false s1) as [[[[]|]|x] s2]; cbn [snd] in *; try done.
  apply IH; [|done]. rewrite <- Hsg. by rewrite <- (marked_same_graph _ _ _ Hm).
Qed.

(** [execute] changes the plan only in its loop. *)
Lemma execute_plan_table fuel rounds (P : task_table -> Prop) (s : St) :
  P (ts_of s) ->
  (forall s1, os_plan s1 = os_plan s -> validate frames (os_plan s) = Ret tt ->
     P (ts_of (snd (plan_loop rt fuel rounds s1)))) ->
  P (ts_of (snd (execute_plan rt frames fuel rounds s))).
Proof.
  intros H0 Hloop. unfold execute_plan.
  rewrite (bind_ret_intro get_plan _ s (os_plan s) s) by done. unfold bind, lift.
  destruct (validate frames (os_plan s)) as [[]|x] eqn:Ev; [|done].
  assert (os_plan (snd (save_plan s)) = os_plan s) as Hp.
  { unfold save_plan, bind, on_run. cbn. by destruct (cp_store_save _) as [[]]. }
  destruct (save_plan s) as [[u|x] s1]; cbn [snd] in *; [|by rewrite Hp].
  specialize (Hloop s1 Hp eq_refl).
  destruct (plan_loop rt fuel rounds s1) as [[[[]|]|x] s2]; cbn [snd] in *; try done.
  unfold on_run. by destruct (complete _ _ _) as [[]].
Qed.
End runs.

(** ** Runs over a checkpoint store that does not fail *)

Section total.
Context {ES CS IS : Type} `{!EvidenceStore ES} `{!CheckpointStore CS} `{!IdempotencyStore IS}.
Context {IF : IsoFormat} {CPL : CheckpointLaws CS} {IDL : IdempotencyLaws IS}.
Abbreviation St := (OrchState ES CS IS).
Variable rt : Runtime.
Abbreviation ts_of := (fun s : St => tasks (os_plan s)).
Hypothesis Hsave : forall c e cs, exists cs' c' e', cp_save c e cs = (Ret cs', c', e').

Definition total {A} (m : M St A) : Prop := forall s, exists a s', m s = (Ret a, s').

Lemma total_bind {A B} (m : M St A) (k : A -> M St B) :
  total m -> (forall a, total (k a)) -> total (bind m k).
Proof.
  intros Hm Hk s. destruct (Hm s) as (a & s1 & E). unfold bind. rewrite E. apply Hk.
Qed.

Lemma total_on_task id f : total (on_task id f).
Proof. intros s. by do 2 eexists. Qed.

Lemma total_save_plan : total save_plan.
Proof.
  unfold save_plan. apply total_bind; [intros s; by do 2 eexists|]. intros p.
  apply total_bind; [intros s; by do 2 eexists|]. intros _ s. unfold on_run, cp_store_save.
  destruct (Hsave (rs_context (os_run s)) (rs_env (os_run s)) (rs_checkpoints (os_run s)))
    as (cs & c & e & ->). by do 2 eexists.
Qed.

Lemma total_ret {A} (a : A) : total (ret a).
Proof. intros s. by do 2 eexists. Qed.

Hint Resolve total_on_task total_save_plan total_ret : core.

(** No exception leaves a task. *)
Lemma total_run_task fuel id : total (run_task rt fuel id).
Proof.
  unfold run_task. apply total_bind; [intros s; by do 2 eexists|]. intros p.
  destruct (dget id _) as [t|]; [|auto].
  do 2 (apply total_bind; [first [solve [auto] | intros s; by do 2 eexists] | intros _]).
  apply total_bind; [auto | intros _]. intros s. unfold try_except.
  destruct (attempt_task rt fuel id t s) as [[o|x] s1]; [by do 2 eexists|]. simpl.
  destruct (total_bind (on_task id (fun t => with_task_error (Some (exception_error x))
    (with_task_status T_FAILED t))) (fun _ => save_plan ;;; ret (Some true))
    (total_on_task _ _) ltac:(intros; apply total_bind; auto) s1) as (a & s2 & E).
  rewrite E. by do 2 eexists.
Qed.

Lemma total_run_batch fuel ids b : total (run_batch rt fuel ids b).
Proof.
  revert b. induction ids as [|id ids IH]; intros b; cbn [run_batch]; [auto|].
  apply total_bind; [apply total_run_task|]. intros [f|]; auto.
Qed.

(** ** What a task leaves behind *)

Definition live (s : St) : Prop := terminal (status (rs_context (os_run s))) = false.

Lemma save_plan_ret s s' u :
  save_plan s = (Ret u, s') -> os_plan s' = os_plan s /\ (live s -> live s').
Proof.
  unfold save_plan. intros H. apply bind_ret_inv in H as (p & s1 & Hp & H). injection Hp as <- <-.
  unfold on_run, cp_store_save, bind in H. cbn in H.
  destruct (cp_save _ _ _) as [[[cs|x] c] e] eqn:E; out_simpl. split; [done|].
  apply cp_save_context, same_but_time_memory in E as [_ E]. unfold live. simpl in *. by rewrite E.
Qed.

Lemma on_task_status id f st (s s' : St) u :
  (forall t, task_status (f t) = st) -> is_Some (dget id (ts_of s)) ->
  on_task id f s = (Ret u, s') -> has_status st (ts_of s') id = true /\ (live s -> live s').
Proof.
  intros Hf [t Ht] H. unfold on_task, on_plan, modify in H. out_simpl. split; [|done].
  unfold has_status. simpl. rewrite dget_update_task, decide_True, Ht by done. simpl.
  apply bool_decide_eq_true, Hf.
Qed.

Lemma retry_loop_last fuel t inv r r' (s s' : St) :
  retry_loop rt fuel t inv r s = (Ret (Some r'), s') ->
  (r' = r /\ s' = s) \/ exists s1, run_runtime rt t inv s1 = (Ret r', s').
Proof.
  revert r s. induction fuel as [|fuel IH]; intros r s; cbn [retry_loop]; destruct (wants_retry r).
  - done.
  - intros H. apply ret_inv in H as [[= ->] ->]. by left.
  - intros H. apply bind_ret_inv in H as (r1 & s1 & Hr & H).
    destruct (IH _ _ H) as [[-> ->]|?]; right; eauto.
  - intros H. apply ret_inv in H as [[= ->] ->]. by left.
Qed.

Lemma keeps_task_known {A} id (m : M St A) s o s' :
  keeps (moves [id]) m -> m s = (o, s') -> is_Some (dget id (ts_of s)) -> is_Some (dget id (ts_of s')).
Proof.
  intros Hk E Hs. specialize (Hk s). rewrite E in Hk. destruct Hk as ([Hkeys _] & _).
  rewrite !dget_is_Some in *. simpl in Hkeys. congruence.
Qed.

(** The outcome of a task is in its status; after a success the execution is
    live. *)
Definition task_outcome (id : string) (failed : bool) (s : St) : Prop :=
  has_status (if failed then T_FAILED else T_SUCCEEDED) (ts_of s) id = true /\
  (failed = false -> live s).

Lemma attempt_task_ret fuel id t (s s' : St) b :
  is_Some (dget id (ts_of s)) -> attempt_task rt fuel id t s = (Ret (Some b), s') ->
  task_outcome id b s'.
Proof.
  intros Hk H. unfold attempt_task in H.
  apply bind_ret_inv in H as (c & s0 & Hc & H). cbn zeta in H.
  apply bind_ret_inv in H as (r & s1 & Hr & H). apply bind_ret_inv in H as (o & s2 & Ho & H).
  assert (is_Some (dget id (ts_of s2))) as Hk2.
  { eapply keeps_task_known; [|exact Ho|]; [apply moves_retry_loop|].
    eapply keeps_task_known; [|exact Hr|]; [apply moves_on_run|].
    eapply keeps_task_known; [|exact Hc|]; [apply moves_on_run | done]. }
  destruct o as [r'|]; [|done]. destruct (succeeded r') eqn:Es.
  - apply bind_ret_inv in H as (? & s3 & Ht & H). apply bind_ret_inv in H as (? & s4 & Hs & H).
    apply ret_inv in H as [[= ->] ->]. apply save_plan_ret in Hs as [Hp Hl4].
    apply (on_task_status _ _ T_SUCCEEDED) in Ht as [Ht Hl3]; [|done|done].
    split; [by rewrite Hp|]. intros _. apply Hl4, Hl3.
    assert (exists s5, run_runtime rt t (uuid_str (execution_id (identity c)) +:+ ":" +:+ task_id t) s5
                       = (Ret r', s2)) as [s5 Hx].
    { apply retry_loop_last in Ho as [[-> ->]|?]; eauto. }
    unfold run_runtime, on_run in Hx. destruct (execute _ _ _ _ _ _ _ _) as [o1 s6] eqn:Ex.
    out_simpl. by apply execute_success in Ex as [? _]; [| apply invocation_id_nonempty |].
  - apply bind_ret_inv in H as (? & s3 & Ht & H). apply bind_ret_inv in H as (? & s4 & Hs & H).
    apply ret_inv in H as [[= ->] ->]. apply save_plan_ret in Hs as [Hp _].
    apply (on_task_status _ _ T_FAILED) in Ht as [Ht _]; [|done|done].
    split; [by rewrite Hp | done].
Qed.

Lemma run_task_ret fuel id (s s' : St) b :
  is_Some (dget id (ts_of s)) -> run_task rt fuel id s = (Ret (Some b), s') -> task_outcome id b s'.
Proof.
  unfold run_task. intros Hk H. apply bind_ret_inv in H as (p & s1 & Hp & H).
  injection Hp as <- <-. destruct (dget id _) as [t|] eqn:Et; [|by destruct Hk].
  apply bind_ret_inv in H as (? & s1 & H1 & H). apply bind_ret_inv in H as (? & s2 & H2 & H).
  apply bind_ret_inv in H as (? & s3 & H3 & H).
  assert (is_Some (dget id (ts_of s3))) as Hk3.
  { apply save_plan_ret in H3 as [E3 _]. simpl. rewrite E3.
    eapply keeps_task_known; [apply moves_on_run | exact H2 |].
    eapply keeps_task_known; [| exact H1 | simpl; by rewrite Et].
    apply moves_on_task. intros ?. split; [by repeat split | done]. }
  unfold try_except in H. destruct (attempt_task _ _ _ _ s3) as [[o|ex] s4] eqn:Ea.
  - out_simpl. by eapply attempt_task_ret.
  - simpl in H. apply bind_ret_inv in H as (? & s5 & Ht & H).
    apply bind_ret_inv in H as (? & s6 & Hs & H). apply ret_inv in H as [[= ->] ->].
    pose proof (keeps_task_known id _ _ _ _ (moves_attempt_task rt fuel id t) Ea Hk3) as Hk4.
    apply save_plan_ret in Hs as [Hp _].
    apply (on_task_status _ _ T_FAILED) in Ht as [Ht _]; [|done|done].
    split; [by rewrite Hp | done].
Qed.

Lemma run_batch_ret fuel ids b (s s' : St) b' :
  NoDup ids -> Forall (fun id => is_Some (dget id (ts_of s))) ids ->
  run_batch rt fuel ids b s = (Ret (Some b'), s') ->
  (b' = false -> b = false /\ (live s -> live s') /\
     Forall (fun id => has_status T_SUCCEEDED (ts_of s') id = true) ids) /\
  (b' = true -> b = true \/ exists id, has_status T_FAILED (ts_of s') id = true).
Proof.
  revert b s. induction ids as [|id ids IH]; intros b s Hnd Hk; cbn [run_batch].
  { intros H. apply ret_inv in H as [[= ->] ->]. split; intros ->; [by split_and! | by left]. }
  apply NoDup_cons in Hnd as [Hn Hnd]. apply Forall_cons in Hk as [Hk Hks].
  intros H. apply bind_ret_inv in H as (o & s1 & H1 & H). destruct o as [f|]; [|done].
  pose proof (run_task_ret _ _ _ _ _ Hk H1) as [Hst Hl].
  pose proof (moves_run_task rt fuel id s) as ([Hkeys _] & _). rewrite H1 in Hkeys.
  pose proof (moves_run_batch rt fuel ids (b || f) s1) as (_ & Ho & _). rewrite H in Ho.
  assert (has_status (if f then T_FAILED else T_SUCCEEDED) (ts_of s') id = true) as Hst'.
  { rewrite <- Hst. apply has_status_eq. by apply Ho. }
  destruct (IH (b || f) s1) as [IH1 IH2]; [done | | done |].
  { eapply Forall_impl; [exact Hks|]. intros k. simpl in Hkeys. rewrite !dget_is_Some.
    by rewrite Hkeys. }
  split.
  - intros E. destruct (IH1 E) as ([-> ->]%orb_false_iff & Hl' & Hall).
    split; [done|]. split; [auto|]. by constructor.
  - intros E. destruct (IH2 E) as [[->| ->]%orb_prop|?]; [by left | right; eauto | by right].
Qed.

Lemma fresh_or_done_batch l (s s1 s2 : St) :
  fresh_or_done (ts_of s) -> marked_ready l (ts_of s) (ts_of s1) -> moves l s1 s2 ->
  Forall (fun id => has_status T_SUCCEEDED (ts_of s2) id = true) l -> fresh_or_done (ts_of s2).
Proof.
  intros Hf [_ Hm] (_ & Ho & _) Hall k t Hk. destruct (decide (k ∈ l)) as [Hin|Hn].
  - rewrite Forall_forall in Hall. apply Hall, has_status_spec in Hin as (t' & Ht' & E).
    right. congruence.
  - rewrite (Ho _ Hn), Hm, decide_False in Hk by done. by eapply Hf.
Qed.

(** The loop from a plan whose tasks are pending or done. *)
Lemma plan_loop_total fuel rounds (s : St) :
  well_founded_table (ts_of s) -> fresh_or_done (ts_of s) -> live s ->
  exists o s', plan_loop rt fuel rounds s = (Ret o, s') /\
    match o with
    | Some true => is_complete (os_plan s') = true /\ live s'
    | Some false => exists id, has_status T_FAILED (ts_of s') id = true
    | None => True
    end.
Proof.
  revert s. induction rounds as [|rounds IH]; intros s Hwf Hf Hl; cbn [plan_loop];
    rewrite (bind_ret_intro get_plan _ s (os_plan s) s) by done.
  { destruct (is_complete _) eqn:Ec; by do 2 eexists. }
  destruct (is_complete _) eqn:Ec; [by do 2 eexists|].
  destruct (run_ready_tasks_spec s Hwf) as (l & s1 & Hr & Hrun & Hnd & Hl1 & Hm).
  rewrite (bind_ret_intro _ _ _ _ _ Hr).
  destruct (ready_tasks_progress _ Hwf Hf Ec) as [k Hk%Hl1].
  destruct l as [|id l]; [by apply elem_of_nil in Hk|].
  destruct (total_run_batch fuel (id :: l) false s1) as (o & s2 & Hb).
  rewrite (bind_ret_intro _ _ _ _ _ Hb). destruct o as [b|]; [|by do 2 eexists].
  pose proof (moves_run_batch rt fuel (id :: l) false s1) as Hmv. rewrite Hb in Hmv. cbn [snd] in Hmv.
  pose proof (marked_same_graph _ _ _ Hm) as Hg.
  assert (Forall (fun id => is_Some (dget id (ts_of s1))) (id :: l)) as Hin.
  { apply Forall_forall. intros x Hx%Hl1. destruct Hx as (t & Ht & _). rewrite dget_is_Some.
    simpl. rewrite <- Hg. apply dget_is_Some. by eexists. }
  destruct (run_batch_ret _ _ _ _ _ _ Hnd Hin Hb) as [H1 H2].
  destruct b.
  - destruct (H2 eq_refl) as [|Hx]; [done|]. by do 2 eexists.
  - destruct (H1 eq_refl) as (_ & Hlive & Hall).
    destruct (IH s2) as (o & s3 & Hloop & Ho).
    + destruct Hmv as [Hg2 _]. rewrite <- Hg2. by rewrite <- Hg.
    + by eapply fresh_or_done_batch.
    + apply Hlive. unfold live. by rewrite Hrun.
    + by exists o, s3.
Qed.

(** [complete] on a live execution without fencing, when no store fails. *)
Lemma complete_total (r : RunState ES CS IS) :
  rt_fencing rt = None -> (forall e es, exists es', ev_append e es = Ret es') ->
  terminal (status (rs_context r)) = false ->
  exists r', complete rt None r = (Ret tt, r') /\ status (rs_context r') = COMPLETED.
Proof.
  intros Hnf Hev Hl. unfold complete.
  assert (forall r : RunState ES CS IS, assert_fence rt None r = (Ret tt, r)) as Hfence.
  { intros r0. unfold assert_fence. by rewrite Hnf. }
  rewrite (bind_ret_intro _ _ _ _ _ (Hfence r)).
  destruct (run_set_status COMPLETED r) as [o r1] eqn:E1.
  assert (o = Ret tt) as ->.
  { revert E1. unfold run_set_status, read_clock, in_context, set_status_m, set_status. mred. cbn.
    rewrite Hl. intros E1. by injection E1. }
  rewrite (bind_ret_intro _ _ _ _ _ E1). apply run_set_status_ret in E1 as (_ & _ & Hc1).
  destruct (Hsave (rs_context r1) (rs_env r1) (rs_checkpoints r1)) as (cs & c & e & Es).
  unfold save_checkpoint, cp_store_save, record, record_event, bind. rewrite Hfence, Es.
  cbn. match goal with |- context [ev_append ?e ?s] => destruct (Hev e s) as [es ->] end.
  eexists. split; [done|]. simpl. apply cp_save_context, same_but_time_memory in Es as [_ ->].
  by apply same_but_time_memory in Hc1 as [_ ->].
Qed.
End total.

(** ** What a run of [execute] that returns leaves behind *)

Section returns.
Context {ES CS IS : Type} `{!EvidenceStore ES} `{!CheckpointStore CS} `{!IdempotencyStore IS}.
Context {IF : IsoFormat} {CPL : CheckpointLaws CS} {IDL : IdempotencyLaws IS}.
Abbreviation St := (OrchState ES CS IS).
Variable rt : Runtime.
Abbreviation ts_of := (fun s : St => tasks (os_plan s)).

(** The loop changes the state of the tasks, not the graph. *)
Lemma plan_loop_graph fuel rounds (s : St) :
  well_founded_table (ts_of s) -> same_graph (ts_of s) (ts_of (snd (plan_loop rt fuel rounds s))).
Proof.
  revert s. induction rounds as [|rounds IH]; intros s Hwf; cbn [plan_loop]; unfold bind, get_plan.
  { by destruct (is_complete _). }
  destruct (is_complete _); [done|].
  destruct (run_ready_tasks_spec s Hwf) as (l & s1 & -> & _ & _ & _ & Hm%marked_same_graph).
  destruct l as [|id l]; [by destruct (has_failed _)|].
  pose proof (moves_run_batch rt fuel (id :: l) false s1) as [Hsg _].
  destruct (run_batch rt fuel (id :: l) false s1) as [[[[]|]|x] s2]; cbn [snd] in *;
    try (by rewrite Hm).
  rewrite Hm, Hsg. apply IH. rewrite <- Hsg. by rewrite <- Hm.
Qed.

Lemma plan_loop_ret fuel rounds (s s' : St) b :
  well_founded_table (ts_of s) -> plan_loop rt fuel rounds s = (Ret (Some b), s') ->
  if b then is_complete (os_plan s') = true
  else exists id, has_status T_FAILED (ts_of s') id = true.
Proof.
  revert s. induction rounds as [|rounds IH]; intros s Hwf; cbn [plan_loop];
    rewrite (bind_ret_intro get_plan _ s (os_plan s) s) by done.
  { destruct (is_complete (os_plan s)) eqn:Ec; [|by unfold ret].
    intros H. by apply ret_inv in H as [[= ->] ->]. }
  destruct (is_complete (os_plan s)) eqn:Ec.
  { intros H. by apply ret_inv in H as [[= ->] ->]. }
  destruct (run_ready_tasks_spec s Hwf) as (l & s1 & Hr & _ & Hnd & Hl & Hm).
  rewrite (bind_ret_intro _ _ _ _ _ Hr). pose proof (marked_same_graph _ _ _ Hm) as Hg.
  destruct l as [|id l]; [by unfold bind; cbn; destruct (has_failed _)|].
  intros H. apply bind_ret_inv in H as (o & s2 & Hb & H). destruct o as [f|]; [|done].
  assert (Forall (fun id => is_Some (dget id (ts_of s1))) (id :: l)) as Hin.
  { apply Forall_forall. intros x Hx%Hl. destruct Hx as (t & Ht & _). rewrite dget_is_Some.
    simpl. rewrite <- Hg. apply dget_is_Some. by eexists. }
  destruct f.
  - apply ret_inv in H as [[= ->] ->].
    by destruct (run_batch_ret _ _ _ _ _ _ _ Hnd Hin Hb) as [_ [|?]].
  - apply (IH s2); [|done].
    pose proof (moves_run_batch rt fuel (id :: l) false s1) as [Hsg _]. rewrite Hb in Hsg.
    cbn [snd] in Hsg. rewrite <- Hsg. by rewrite <- Hg.
Qed.

Lemma complete_ret (r r' : RunState ES CS IS) u :
  complete rt None r = (Ret u, r') -> status (rs_context r') = COMPLETED.
Proof.
  unfold complete. intros H. apply bind_ret_inv in H as (? & r1 & _ & H).
  apply bind_ret_inv in H as (? & r2 & H2 & H). apply run_set_status_ret in H2 as (_ & _ & E2).
  apply bind_ret_inv in H as (? & r3 & H3 & H). apply save_checkpoint_ret in H3 as [_ E3].
  apply bind_ret_inv in H as (c & r4 & H4 & H). injection H4 as <- <-.
  apply record_ret in H as [_ E]. apply same_but_time_memory in E2 as [_ E2], E3 as [_ E3], E as [_ E].
  by rewrite E, E3, E2.
Qed.

Lemma execute_plan_graph frames fuel rounds (s : St) :
  dict_ok (ts_of s) -> (length (ts_of s) < frames)%nat ->
  same_graph (ts_of s) (ts_of (snd (execute_plan rt frames fuel rounds s))).
Proof.
  intros Hok Hfr. apply execute_plan_table; [reflexivity|]. intros s1 Hp Hv. rewrite <- Hp.
  apply plan_loop_graph. rewrite Hp. by eapply validate_well_founded.
Qed.

Lemma execute_plan_ret frames fuel rounds (s s' : St) :
  dict_ok (ts_of s) -> (length (ts_of s) < frames)%nat ->
  execute_plan rt frames fuel rounds s = (Ret (Some tt), s') ->
  (is_complete (os_plan s') = true /\ status (rs_context (os_run s')) = COMPLETED) \/
  exists id, has_status T_FAILED (ts_of s') id = true.
Proof.
  intros Hok Hfr H. apply bind_ret_inv in H as (p & s1 & Hp & H). injection Hp as <- <-.
  apply bind_ret_inv in H as ([] & s1 & Hv & H). apply lift_inv in Hv as [Hv ->].
  apply bind_ret_inv in H as (? & s1 & Hs & H). apply save_plan_ret in Hs as [Hp _].
  apply bind_ret_inv in H as (o & s2 & Hl & H). destruct o as [b|]; [|done].
  apply plan_loop_ret in Hl; [|simpl; rewrite Hp; exact (validate_well_founded _ _ Hok Hfr Hv)].
  destruct b.
  - apply bind_ret_inv in H as (? & s3 & Hc & H). apply ret_inv in H as [_ ->].
    unfold on_run in Hc. destruct (complete _ _ _) as [o r] eqn:Ec. out_simpl.
    apply complete_ret in Ec. by left.
  - apply ret_inv in H as [_ ->]. by right.
Qed.

(** Enough fuel for both loops of [execute]. *)
Lemma execute_plan_enough frames fuel rounds (s s' : St) :
  (forall e, registered rt e -> disciplined (ce_capability e)) ->
  enough rt fuel s -> (length (ts_of s) < rounds)%nat ->
  execute_plan rt frames fuel rounds s = (Ret None, s') -> False.
Proof.
  intros Hd He Hn H. apply bind_ret_inv in H as (p & s1 & Hp & H). injection Hp as <- <-.
  apply bind_ret_inv in H as (? & s1 & Hv & H). apply lift_inv in Hv as [_ ->].
  apply bind_ret_inv in H as (? & s1 & Hs & H).
  pose proof (budget_save_plan s) as Hb. rewrite Hs in Hb.
  assert (enough rt fuel s1) as He1 by (eapply enough_mono; [exact Hb | done]).
  apply save_plan_ret in Hs as [Hp _].
  apply bind_ret_inv in H as (o & s2 & Hl & H). destruct o as [[]|].
  - apply bind_ret_inv in H as (? & s3 & _ & H). by apply ret_inv in H as [[=] _].
  - by apply ret_inv in H as [[=] _].
  - eapply plan_loop_enough; [exact Hd | exact He1 | | exact Hl].
    rewrite Hp. pose proof (pending_le_length (ts_of s)). lia.
Qed.
End returns.
