(* ===== verification/Samples.v ===== *)
(** * Concrete inputs

    A timestamp format, a context, contracts and plans on which the witnesses
    of the theorems are evaluated. *)

From stdpp Require Import base gmap strings list.
From Stdlib Require Import ZArith Lia Ascii Floats.SpecFloat.
From S2P Require Import Prelude Uuid Types State Policy Planning Stores.

(** A text form of timestamps: a sign and a tally. *)
Fixpoint tally (n : nat) : string := match n with O => "" | S n => String "I"%char (tally n) end.

Lemma length_tally n : String.length (tally n) = n.
Proof. induction n; simpl; congruence. Qed.

Definition tally_format (t : datetime) : string :=
  if (t <? 0)%Z then String "-"%char (tally (Z.abs_nat t)) else String "+"%char (tally (Z.abs_nat t)).
Definition tally_parse (s : string) : option datetime :=
  match s with
  | String a s => if Ascii.eqb a "-"%char then Some (- Z.of_nat (String.length s))%Z
                  else Some (Z.of_nat (String.length s))
  | EmptyString => None
  end.

Lemma tally_parse_format t : tally_parse (tally_format t) = Some t.
Proof.
  unfold tally_format. destruct (Z.ltb_spec t 0); simpl; rewrite length_tally; f_equal; lia.
Qed.

#[export] Instance sample_iso : IsoFormat :=
  {| isoformat := tally_format; fromisoformat := tally_parse;
     fromisoformat_isoformat := tally_parse_format |}.

(** A digest for the durable stores: a constant is a function of its input. *)
#[export] Instance sample_sha : Sha256 := fun _ => "0".

Definition sample_env : Env := mkEnv (fun n => Z.of_nat n) 0 (fun n => N.of_nat n + 100)%N 0.

Definition sample_context : ExecutionContext :=
  new_context (mkIdentity 7%N "tenant" None None) "objective" 0%Z 0%Z.

Definition failed_context : ExecutionContext :=
  with_last_failure (Some (FEnum TRANSIENT)) sample_context.

Definition sample_contract : CapabilityContract := default_contract "cap" "1" "sample".

Definition sample_request : InvocationRequest :=
  mkRequest "inv" "cap" [("x", VInt 1)] sample_context None 0 None.

(** Two tasks, the second after the first. *)
Definition sample_task (id : string) (deps : list string) : TaskNode :=
  mkTask id "cap" "1" [] deps T_PENDING VNone None [].
Definition sample_plan : ExecutionPlan :=
  mkPlan "plan" "1.0.0" "objective"
    [("a", sample_task "a" []); ("b", sample_task "b" ["a"])] [].

Definition sample_event (n : N) : EvidenceEvent :=
  mkEvent 7%N "execution.received" 0%Z n "kernel" "ois.kernel" [] None None.
