(* ===== verification/KernelTheorems.v ===== *)
(** * Theorems on the kernel's data and policies

    Checkpoint round trips, the retry budget, authorization, validation, plans
    and the stores.  Every theorem comes with a witness that evaluates it on a
    concrete input. *)

From stdpp Require Import base gmap strings list relations.
From Stdlib Require Import ZArith Lia Floats.SpecFloat.
From S2P Require Import Prelude Uuid Json Types State Recovery Policy Validation Planning.
From S2P Require Import Stores Registry Fencing Samples.
Local Open Scope py_scope.

(** ** The execution context *)

(** C34. [ExecutionContext.from_dict(context.to_dict())] gives the context back,
    whatever the clock and the random source say, except that a recorded
    failure class comes back as a bare string; and the restored context can be
    checkpointed again exactly when no failure was recorded, because [to_dict]
    asks that string for its [value]. *)
Theorem context_checkpoint_roundtrip `{IsoFormat} (c : ExecutionContext) (e : Env) :
  uuid_ok (execution_id (identity c)) -> (forall s, last_failure c <> Some (FStr s)) ->
  exists d, to_dict c = Ret d /\ fst (from_dict d e) = Some (restored c) /\
    (last_failure c <> None <->
     exists x, to_dict (restored c) = Raise x /\ exn_cls x = AttributeError).
Proof.
  intros Hu Hf. destruct (to_dict c) as [d|x] eqn:E.
  - exists d. split; [done|]. split; [by apply from_dict_of_to_dict|].
    unfold to_dict, restored. cbn [last_failure with_last_failure].
    destruct (last_failure c) as [[f|s]|]; [| by destruct (Hf s) |].
    + split; [|done]. intros _. eexists. split; [by destruct f | done].
    + split; [done|]. intros (x & Hx & _). discriminate Hx.
  - unfold to_dict in E. by destruct (last_failure c) as [[f|s]|]; [|destruct (Hf s)|].
Qed.

Lemma context_checkpoint_roundtrip_witness :
  uuid_ok (execution_id (identity failed_context)) /\
  exists d, to_dict failed_context = Ret d /\
    fst (from_dict d sample_env) = Some (restored failed_context) /\
    (last_failure failed_context <> None <->
     exists x, to_dict (restored failed_context) = Raise x /\ exn_cls x = AttributeError).
Proof.
  split; [reflexivity|].
  apply (context_checkpoint_roundtrip failed_context sample_env); [reflexivity|].
  intros s E. discriminate E.
Defined.

(** ** Recovery *)

(** From a live context, transient failures are retried exactly as often as
    the budget still allows; the next one escalates, and after that every
    failure whose decision would move the execution raises. *)
Theorem recovery_transient_budget (now : nat -> datetime) (p : RecoveryPolicy)
    (c : ExecutionContext) (n : nat) :
  terminal (status c) = false -> (retry_count c + Z.of_nat n = max_retries p)%Z ->
  exists ds c1 d c2,
    apply_run now p TRANSIENT n c = (Ret ds, c1) /\ length ds = n /\
    Forall (fun d => rd_action d = "retry") ds /\
    apply (now n) p TRANSIENT c1 = (Ret d, c2) /\ rd_action d = "escalate" /\
    rd_terminal d = true /\ status c2 = ESCALATED /\
    forall t f, action_status (rd_action (classify p (FEnum f) c2)) <> None ->
      exists x c3, apply t p f c2 = (Raise x, c3) /\ exn_cls x = ValueError.
Proof.
  intros Hl Hn. destruct (apply_run_transient now p n c Hl) as (ds & c1 & Hr & Hall & Hlen & Hl1 & Hc);
    [lia|].
  destruct (apply_live (now n) p TRANSIENT c1 Hl1) as (c2 & Ha & Hs & _).
  assert ((retry_count c1 <? max_retries p)%Z = false) as Hlt by (apply Z.ltb_ge; lia).
  assert (classify p (FEnum TRANSIENT) c1 = mkDecision (FEnum TRANSIENT) "escalate" false true
            "Transient retry limit exhausted.") as Hd.
  { unfold classify. autorewrite with oisr. by rewrite Hlt. }
  rewrite Hd in Ha, Hs. exists ds, c1. eexists. exists c2.
  split; [exact Hr|]. split; [exact Hlen|]. split; [exact Hall|]. split; [exact Ha|].
  split; [done|]. split; [done|]. split; [exact Hs|].
  intros t f. apply apply_terminal. by rewrite Hs.
Qed.

Lemma recovery_transient_budget_witness :
  exists ds c1 d c2,
    apply_run (fun _ => 0%Z) default_recovery_policy TRANSIENT 2 sample_context = (Ret ds, c1) /\
    length ds = 2%nat /\ Forall (fun d => rd_action d = "retry") ds /\
    apply 0%Z default_recovery_policy TRANSIENT c1 = (Ret d, c2) /\ rd_action d = "escalate" /\
    rd_terminal d = true /\ status c2 = ESCALATED /\
    forall t f, action_status (rd_action (classify default_recovery_policy (FEnum f) c2)) <> None ->
      exists x c3, apply t default_recovery_policy f c2 = (Raise x, c3) /\ exn_cls x = ValueError.
Proof.
  apply (recovery_transient_budget (fun _ => 0%Z) default_recovery_policy sample_context 2);
    reflexivity.
Defined.

(** Whatever failures are applied, in any number and order, the retry
    counter never passes the policy's limit, neither counter decreases, and a
    terminal status is never left. *)
Theorem recovery_run_invariant (p : RecoveryPolicy) (c c' : ExecutionContext) :
  rtc (recovery_step p) c c' ->
  (retry_count c <= max_retries p)%Z ->
  (retry_count c <= retry_count c' <= max_retries p)%Z /\
  (recovery_attempts c <= recovery_attempts c')%Z /\
  (terminal (status c) = true -> status c' = status c).
Proof.
  intros Hrun Hle.
  apply (rtc_invariant (recovery_step p) (fun b => (retry_count c <= retry_count b <= max_retries p)%Z /\
    (recovery_attempts c <= recovery_attempts b)%Z /\
    (terminal (status c) = true -> status b = status c)) c c'); [|by split; [lia|split; [lia|]] | done].
  intros a b (Ha & Hb & Hs) (now & f & ->).
  destruct (apply now p f a) as [o a'] eqn:E. cbn [snd].
  pose proof (apply_retry_bound _ _ _ _ _ _ E ltac:(lia)).
  pose proof (apply_status_terminal now p f a) as Hst. rewrite E in Hst; cbn [snd] in Hst.
  apply apply_counters in E as [Hc1 Hc2].
  split; [split; [destruct (String.eqb _ _) in Hc1; lia | done]|]. split; [lia|].
  intros Ht. rewrite Hst; [by apply Hs|]. by rewrite (Hs Ht).
Qed.

Lemma recovery_run_invariant_witness :
  (0 <= retry_count (snd (apply 0%Z default_recovery_policy TRANSIENT sample_context)) <= 2)%Z.
Proof.
  apply (recovery_run_invariant default_recovery_policy sample_context); [|vm_compute; discriminate].
  apply rtc_once. exists 0%Z, TRANSIENT. reflexivity.
Defined.

(** The delay before retry [n] is defined exactly for [1 <= n <= 1024] and
    never exceeds the configured maximum; below the range the code raises
    [ValueError], above it the conversion of [2 ** (n - 1)] to a float
    overflows. *)
Theorem backoff_delay_bounded (p : RecoveryBackoff) (n : Z) :
  match delay p n with
  | Ret d => (1 <= n <= 1024)%Z /\ SFltb (max_seconds p) d = false
  | Raise x => (n < 1)%Z /\ exn_cls x = ValueError \/ (1024 < n)%Z /\ exn_cls x = OverflowError
  end.
Proof.
  unfold delay, float_pow2, raise. destruct (Z.ltb_spec n 1); [by left|].
  destruct (Z.ltb_spec (n - 1) 1024); simpl; [|right; split; [lia | done]].
  split; [lia | apply py_min_bound].
Qed.

(** ** Policy and validation *)

(** [authorize] returns exactly for the permitted invocations and raises
    [AuthorizationDenied] for all others; it never answers [False]. *)
Theorem policy_authorize_iff (p : DefaultPolicyEngine) (rq : InvocationRequest)
    (k : CapabilityContract) :
  (authorize p rq k = Ret true <-> permitted p rq k) /\ authorize p rq k <> Ret false /\
  ((exists x, authorize p rq k = Raise x /\ exn_cls x = AuthorizationDenied) <->
   ~ permitted p rq k).
Proof.
  split; [split; [by intros [_ ?]%authorize_ret | apply authorize_permitted]|].
  split; [intros E; by apply authorize_ret in E as [? _]|]. split.
  - intros (x & E & _). by apply authorize_denied in E as [_ ?].
  - intros Hn. destruct (authorize p rq k) as [b|x] eqn:E; [exfalso; apply authorize_ret in E as [_ ?]; tauto|].
    exists x. split; [done | by apply authorize_denied in E as [? _]].
Qed.

(** Widening a policy (more permissions, a higher risk limit, irreversible
    effects allowed) never turns an authorized invocation into a denied one. *)
Theorem policy_authorize_monotone (p1 p2 : DefaultPolicyEngine) (rq : InvocationRequest)
    (k : CapabilityContract) (b : bool) :
  policy_le p1 p2 -> authorize p1 rq k = Ret b -> authorize p2 rq k = Ret true.
Proof. intros Hle [_ Hp]%authorize_ret. eauto with ois. Qed.

Lemma policy_authorize_monotone_witness :
  authorize default_policy sample_request sample_contract = Ret true /\
  authorize (mkPolicy {["x"]} HIGH true) sample_request sample_contract = Ret true.
Proof.
  split; [vm_compute; reflexivity|].
  apply (policy_authorize_monotone default_policy _ _ _ true); [|vm_compute; reflexivity].
  split; [apply empty_subseteq | vm_compute; discriminate | intros _; reflexivity].
Defined.

(** C35. The contract validator accepts exactly the inputs and the outputs that
    conform to the schema (type, enumeration, required keys and, recursively,
    declared properties), and rejects the others with its own error class. *)
Theorem validator_accepts_conforming (rq : InvocationRequest) (r : InvocationResult)
    (k : CapabilityContract) :
  (validate_input rq k = Ret tt <-> conforms (input_schema k) (VDict (rq_input rq))) /\
  (forall x, validate_input rq k = Raise x -> exn_cls x = InputValidationError) /\
  (validate_output r k = Ret tt <-> conforms (output_schema k) (ir_output r)) /\
  (forall x, validate_output r k = Raise x -> exn_cls x = OutputValidationError).
Proof.
  destruct (validate_input_spec rq k), (validate_output_spec r k). by split_and!.
Qed.

(** ** Plans *)

(** C10. [validate] accepts exactly the plans whose dependencies all name tasks
    and form no cycle; otherwise it raises the error class of the defect.  In
    particular the depth-first search always ends within as many interpreter
    frames as there are tasks, plus one. *)
Theorem plan_validate_iff (frames : nat) (p : ExecutionPlan) :
  dict_ok (tasks p) -> (length (tasks p) < frames)%nat ->
  (validate frames p = Ret tt <-> deps_known (tasks p) /\ acyclic (tasks p)) /\
  (forall x, validate frames p = Raise x ->
     exn_cls x = UnknownDependencyError /\ ~ deps_known (tasks p) \/
     exn_cls x = CyclicPlanError /\ deps_known (tasks p) /\ ~ acyclic (tasks p)).
Proof.
  intros Hok Hfr. pose proof (validate_spec frames p Hok Hfr) as H.
  destruct (validate frames p) as [[]|x].
  - split; [by split | done].
  - split; [split; [done | intros [Hk Ha]; exfalso; naive_solver]|]. intros y [= <-]. exact H.
Qed.

Lemma plan_validate_iff_witness :
  validate 3 sample_plan = Ret tt /\ acyclic (tasks sample_plan).
Proof.
  split; [vm_compute; reflexivity|].
  apply (plan_validate_iff 3 sample_plan);
    [apply (bool_decide_unpack _); vm_compute; exact I | vm_compute; lia | vm_compute; reflexivity].
Defined.

(** [ready_tasks] returns, in table order and without repetition, exactly
    the pending tasks all of whose dependencies have succeeded, marks these
    READY and leaves every other task alone. *)
Theorem plan_ready_tasks (p : ExecutionPlan) :
  dict_ok (tasks p) -> deps_known (tasks p) ->
  exists l p', ready_tasks p = Ret (l, p') /\ sublist l (dkeys (tasks p)) /\
    (forall k, k ∈ l <-> exists t, dget k (tasks p) = Some t /\ task_status t = T_PENDING /\
       forall d, d ∈ dependencies t ->
         exists td, dget d (tasks p) = Some td /\ task_status td = T_SUCCEEDED) /\
    (forall k, dget k (tasks p') = if decide (k ∈ l)
                                   then with_task_status T_READY <$> dget k (tasks p)
                                   else dget k (tasks p)).
Proof.
  intros Hok Hk. destruct (ready_tasks_spec p Hok Hk) as (l & ts' & Hr & Hs & Hl & _ & Hm).
  exists l, (with_tasks ts' p). split; [done|]. split; [done|]. split; [|done].
  intros k. rewrite Hl. unfold is_ready. by setoid_rewrite has_status_spec.
Qed.

Lemma plan_ready_tasks_witness :
  exists l p', ready_tasks sample_plan = Ret (l, p') /\ sublist l ["a"; "b"].
Proof.
  destruct (plan_ready_tasks sample_plan) as (l & p' & Hr & Hs & _).
  - apply (bool_decide_unpack _). vm_compute. exact I.
  - intros t d (node & Hn & Hd). revert Hn Hd. simpl.
    repeat (match goal with |- context [String.eqb t ?k] => destruct (String.eqb t k) end;
            [intros Hn; injection Hn as <-; simpl; intros Hd;
             first [by apply elem_of_nil in Hd
                   | apply list_elem_of_singleton in Hd as ->; left] |]).
    discriminate.
  - exists l, p'. split; [exact Hr | exact Hs].
Defined.

(** A valid plan whose nodes are stored under their identifiers comes back
    unchanged, statuses and outputs included, from the dictionary that
    checkpoints keep. *)
Theorem plan_checkpoint_roundtrip (frames : nat) (fresh : string) (p : ExecutionPlan) :
  dict_ok (tasks p) -> keyed (tasks p) -> validate frames p = Ret tt ->
  plan_from_dict frames fresh (plan_to_dict p) = Some (Ret p).
Proof. apply plan_from_to_dict. Qed.

Lemma plan_checkpoint_roundtrip_witness :
  plan_from_dict 3 "" (plan_to_dict sample_plan) = Some (Ret sample_plan).
Proof.
  apply plan_checkpoint_roundtrip.
  - apply (bool_decide_unpack _). vm_compute. exact I.
  - intros k t H. repeat (apply elem_of_cons in H as [[= -> ->]|H]; [reflexivity|]).
    by apply elem_of_nil in H.
  - vm_compute. reflexivity.
Defined.
