(* ===== verification/StoreTheorems.v ===== *)
(** * Theorems on the stores, the registries and the leases

    What the store protocols promise, proved once against the laws and
    instantiated at the SQLite stores; registration and routing; worker
    leases. *)

From stdpp Require Import base gmap strings list relations.
From Stdlib Require Import ZArith Lia.
From S2P Require Import Prelude Uuid Json Types State Policy Stores Registry Fencing Samples.
Local Open Scope py_scope.

(** ** Stores *)

(** Through any store that satisfies the checkpoint laws: what [save] wrote
    is what [load] returns, up to the Python type of the failure class; the
    checkpoints of other executions are not disturbed; and after [delete] the
    execution is not found. *)
Theorem checkpoint_store_contract {S : Type} `{CheckpointLaws S} (c c' : ExecutionContext)
    (e e' e2 : Env) (s s' : S) :
  uuid_ok (execution_id (identity c)) -> durable c -> cp_save c e s = (Ret s', c', e') ->
  (exists c2, fst (cp_load (execution_id (identity c)) e2 s') = Ret c2 /\ same_checkpoint c' c2 /\
     status c2 = status c /\ plan c2 = plan c /\ retry_count c2 = retry_count c) /\
  (forall i, uuid_ok i -> i <> execution_id (identity c) -> cp_load i e2 s' = cp_load i e2 s) /\
  (forall s2, cp_delete (execution_id (identity c)) s' = Ret s2 ->
     exists x, fst (cp_load (execution_id (identity c)) e2 s2) = Raise x /\
               exn_cls x = CheckpointNotFound).
Proof.
  intros Hu Hd Hs. destruct (cp_save_load _ _ _ _ _ _ Hu Hd Hs e2) as (c2 & Hl & Hc).
  apply cp_save_context in Hs as Hst. pose proof (same_checkpoint_fields _ _ Hc) as (_ & E1 & E2 & E3 & _).
  split; [|split].
  - exists c2. rewrite E1, E2, E3. split_and!; try done; unfold same_but_time in Hst; symmetry;
      [by apply (f_equal status) in Hst | by apply (f_equal plan) in Hst
      | by apply (f_equal retry_count) in Hst].
  - intros i Hi Hne. by eapply cp_save_other.
  - intros s2. apply cp_delete_gone.
Qed.

Lemma checkpoint_store_contract_witness :
  let r := cp_save failed_context sample_env (∅ : gmap string checkpoint_row) in
  exists s' c2, fst (fst r) = Ret s' /\ fst (cp_load 7%N sample_env s') = Ret c2 /\
    status c2 = RECEIVED.
Proof.
  cbn zeta. destruct (cp_save failed_context sample_env (∅ : gmap string checkpoint_row))
    as [[o c'] e'] eqn:E. destruct o as [s'|x]; [|vm_compute in E; discriminate E].
  destruct (checkpoint_store_contract failed_context c' sample_env e' sample_env ∅ s')
    as [(c2 & Hl & _ & Hst & _) _].
  - vm_compute. reflexivity.
  - intros d Hd. vm_compute in Hd. injection Hd as <-. vm_compute. reflexivity.
  - exact E.
  - exists s', c2. split; [reflexivity|]. split; [exact Hl | exact Hst].
Defined.

(** A checkpoint row whose stored digest is not the digest of its state is
    never turned into a context: [load] raises. *)
Theorem checkpoint_tamper_detected `{IsoFormat} `{Sha256} (i : uuid) (e : Env)
    (s : gmap string checkpoint_row) (r : checkpoint_row) :
  s !! uuid_str i = Some r -> sha256 (cr_state_json r) <> cr_state_hash r ->
  exists x, fst (sqlite_cp_load i e s) = Raise x /\ exn_cls x = CheckpointError.
Proof.
  intros Hr Hn. unfold sqlite_cp_load. rewrite Hr.
  destruct (negb _); [by eexists|]. rewrite (proj2 (String.eqb_neq _ _)) by done. by eexists.
Qed.

Lemma checkpoint_tamper_detected_witness :
  exists x, fst (sqlite_cp_load 7%N sample_env
    {[uuid_str 7%N := mkCpRow 1 (JsonText (VDict [])) "tampered" ""]}) = Raise x /\
    exn_cls x = CheckpointError.
Proof.
  eapply (checkpoint_tamper_detected 7%N sample_env); [vm_compute; reflexivity|].
  vm_compute. discriminate.
Defined.

(** Storing a list of results under one key, in order. *)
Fixpoint put_all {S : Type} `{IdempotencyStore S} (k : string) (l : list InvocationResult) (s : S) :
    outcome S :=
  match l with
  | [] => Ret s
  | r :: l => s <-? idem_put k r s ;; put_all k l s
  end.

Lemma put_all_first {S : Type} `{IdempotencyLaws S} k r l (s s' : S) :
  idem_inv s -> Forall (fun r => cacheable r = true) l -> idem_get k s = Ret (Some r) ->
  put_all k l s = Ret s' -> idem_get k s' = Ret (Some r).
Proof.
  revert s. induction l as [|x l IH]; intros s Hi Hc Hg; cbn [put_all]; [by intros [= <-]|].
  apply Forall_cons in Hc as [Hx Hc].
  destruct (idem_put k x s) as [s1|] eqn:E; simpl; [|done].
  apply IH; [by eapply idem_put_inv | done | by eapply idem_first_wins].
Qed.

(** The first terminal result stored under an idempotency key is
    authoritative: however many results are stored under the key afterwards,
    [get] answers with that first one. *)
Theorem idempotency_first_wins {S : Type} `{IdempotencyLaws S} (k : string) (r : InvocationResult)
    (l : list InvocationResult) (s s' : S) :
  idem_inv s -> idem_get k s = Ret None -> cacheable r = true ->
  Forall (fun r => cacheable r = true) l -> put_all k (r :: l) s = Ret s' ->
  exists r', idem_get k s' = Ret (Some r') /\ same_result r r'.
Proof.
  intros Hi Hg Hr Hl. cbn [put_all]. destruct (idem_put k r s) as [s1|] eqn:E; simpl; [|done].
  destruct (idem_put_get _ _ _ _ Hi Hr Hg E) as (r' & Hg' & Hs). intros Hp.
  exists r'. split; [|done]. eapply put_all_first; [| exact Hl | exact Hg' | exact Hp].
  by eapply idem_put_inv.
Qed.

Lemma idempotency_first_wins_witness :
  exists r', mem_idem_get "k" {["k" := simple_result "i" "c" INV_SUCCEEDED (VInt 1) None]} =
    Ret (Some r') /\ ir_status r' = INV_SUCCEEDED.
Proof.
  destruct (idempotency_first_wins (S := gmap string InvocationResult) "k"
    (simple_result "i" "c" INV_SUCCEEDED (VInt 1) None)
    [simple_result "i" "c" INV_CANCELLED VNone None] ∅
    {["k" := simple_result "i" "c" INV_SUCCEEDED (VInt 1) None]}) as (r' & Hg & _ & _ & Hst & _).
  - exact I.
  - reflexivity.
  - reflexivity.
  - repeat constructor.
  - reflexivity.
  - exists r'. split; [exact Hg | symmetry; exact Hst].
Defined.

(** Appending a list of events, in order. *)
Fixpoint append_all {S : Type} `{EvidenceStore S} (l : list EvidenceEvent) (s : S) : outcome S :=
  match l with
  | [] => Ret s
  | e :: l => s <-? ev_append e s ;; append_all l s
  end.

(** Evidence is append-only: however many events are appended, an earlier
    listing is contained, in order, in the later one, every appended event
    identifier is listed, and the listing of one execution is the part of the
    whole that belongs to it. *)
Theorem evidence_append_only {S : Type} `{EvidenceStoreLaws S} (l : list EvidenceEvent)
    (s s' : S) (l0 : list EvidenceEvent) :
  ev_inv s -> Forall (fun e => uuid_ok (ev_execution_id e) /\ uuid_ok (ev_event_id e)) l ->
  ev_list None s = Ret l0 -> append_all l s = Ret s' ->
  exists l1, ev_list None s' = Ret l1 /\ sublist l0 l1 /\
    (forall e, e ∈ l -> exists x, x ∈ l1 /\ ev_event_id x = ev_event_id e) /\
    (forall i, uuid_ok i -> ev_list (Some i) s' = Ret (filter (fun x => ev_execution_id x = i) l1)).
Proof.
  revert s l0. induction l as [|e l IH]; intros s l0 Hi Hok Hl; cbn [append_all].
  { intros [= <-]. exists l0. split; [done|]. split; [done|].
    split; [by intros e He%elem_of_nil | intros i Hu; by apply ev_list_filter]. }
  apply Forall_cons in Hok as [[Hx He] Hok].
  destruct (ev_append e s) as [s1|] eqn:E; simpl; [|done]. intros Ha.
  destruct (ev_append_only _ _ _ _ Hi Hx He E Hl) as (l1 & Hl1 & Hsub & x & Hxin & Hxid).
  destruct (IH s1 l1) as (l2 & Hl2 & Hsub2 & Hin & Hf); [by eapply ev_append_inv | done | done | done |].
  exists l2. split; [done|]. split; [by etransitivity|]. split; [|done].
  intros e' He'. apply elem_of_cons in He' as [->|He']; [|by apply Hin].
  exists x. split; [|done]. by eapply elem_of_sublist.
Qed.

Lemma evidence_append_only_witness :
  exists s1 l1, append_all [sample_event 1; sample_event 2] ([] : list evidence_row) = Ret s1 /\
    ev_list None s1 = Ret l1 /\ exists x, x ∈ l1 /\ ev_event_id x = 2%N.
Proof.
  destruct (append_all [sample_event 1; sample_event 2] ([] : list evidence_row)) as [s1|x] eqn:E;
    [|vm_compute in E; discriminate E].
  destruct (evidence_append_only (S := list evidence_row) [sample_event 1; sample_event 2] [] s1 [])
    as (l1 & Hl & _ & Hin & _).
  - exists []. constructor.
  - repeat constructor; vm_compute; reflexivity.
  - reflexivity.
  - exact E.
  - exists s1, l1. split; [reflexivity|]. split; [exact Hl|].
    apply (Hin (sample_event 2)). right. left.
Defined.

(** ** Registries *)

(** After any sequence of registrations and removals, starting from an
    empty registry, no two entries have the same identifier and version, so
    [get] finds every registered entry under its own key. *)
Theorem registry_unique_keys {C : Type} (contract_of : C -> option CapabilityContract)
    (s : list (CapabilityEntry C)) :
  rtc (registry_step contract_of) [] s ->
  NoDup (ce_key <$> s) /\
  forall e, e ∈ s -> get_entry (ce_id e) (ce_version e) s = Ret e.
Proof.
  intros Hrun. assert (capability_registry_ok s) as Hok.
  { apply (rtc_invariant (registry_step contract_of) capability_registry_ok [] s); [| constructor | done].
    intros a b. apply registry_step_ok. }
  split; [exact Hok|]. intros e Hin. unfold get_entry. by rewrite find_entry_own.
Qed.

Lemma registry_unique_keys_witness :
  NoDup (ce_key <$> [mkCapEntry sample_contract (Some sample_contract) "cap" "1"]) /\
  forall e, e ∈ [mkCapEntry sample_contract (Some sample_contract) "cap" "1"] ->
    get_entry (ce_id e) (ce_version e)
      [mkCapEntry sample_contract (Some sample_contract) "cap" "1"] = Ret e.
Proof.
  apply (registry_unique_keys Some). apply rtc_once.
  apply (step_register_object Some sample_contract). reflexivity.
Defined.

(** With a policy that answers or denies, routing selects an agent exactly
    when one registered entry is eligible (its agent contract names the
    requested capability and version, the policy authorizes it, it is
    available), and then selects that entry; no eligible entry and several
    eligible entries are reported as different errors. *)
Theorem routing_selects_the_eligible {C : Type}
    (policy : InvocationRequest -> CapabilityContract -> outcome bool)
    (availability : option (CapabilityEntry C -> bool)) (rq : InvocationRequest)
    (id version : string) (s : list (CapabilityEntry C)) :
  (forall k x, policy rq k = Raise x -> exn_cls x = AuthorizationDenied) ->
  match route policy availability rq id version s with
  | Ret d => List.filter (eligible policy availability rq id version) s = [ard_selected d]
  | Raise x =>
      exn_cls x = AgentRoutingError /\
        List.filter (eligible policy availability rq id version) s = [] \/
      exn_cls x = AmbiguousAgentError /\
        (2 <= length (List.filter (eligible policy availability rq id version) s))%nat
  end.
Proof.
  intros Hp. destruct (route _ _ _ _ _ _) as [d|x] eqn:E.
  - by eapply route_ret.
  - by eapply route_raise.
Qed.

Lemma routing_selects_the_eligible_witness :
  match route (C := unit) (authorize default_policy) None sample_request "cap" "1" [] with
  | Ret _ => False
  | Raise x => exn_cls x = AgentRoutingError
  end.
Proof.
  pose proof (routing_selects_the_eligible (C := unit) (authorize default_policy) None
    sample_request "cap" "1" []) as H.
  destruct (route _ _ _ _ _ _) as [d|x] eqn:E; [vm_compute in E; discriminate E|].
  destruct H as [[H _]|[_ H]].
  - intros k x' Hx. by apply authorize_denied in Hx as [? _].
  - exact H.
  - vm_compute in H. inversion H.
Defined.

(** ** Worker leases *)

(** However claims and renewals of any workers interleave, at whatever
    clock readings, a lease row never disappears, its epoch never decreases,
    and it changes hands only together with a larger epoch; so a lease that has
    been superseded is never current again. *)
Theorem lease_epochs_monotone (s s' : lease_table) (l : WorkerLease) (r : lease_row) :
  rtc lease_step s s' -> s !! wl_execution_id l = Some r ->
  (wl_epoch l < lr_epoch r \/ wl_epoch l = lr_epoch r /\ wl_worker_id l <> lr_worker r)%Z ->
  (exists r', s' !! wl_execution_id l = Some r' /\ (lr_epoch r <= lr_epoch r')%Z) /\
  forall now, exists x, assert_current now l s' = Raise x /\ exn_cls x = FencingError.
Proof.
  intros Hrun Hr Hold. destruct (lease_run_advance _ _ Hrun _ _ Hr) as (r' & Hr' & Hadv).
  split; [exists r'; split; [done | lia]|]. intros now. unfold assert_current.
  destruct (is_current now l s') eqn:E; [|by eexists]. exfalso.
  apply is_current_spec in E as (r2 & Hr2 & Hw & He & _). simplify_eq.
  destruct Hadv as [?|[? ?]], Hold as [?|[? ?]]; try lia. congruence.
Qed.

Definition sample_leases : lease_table := {[7%N := mkLeaseRow "w2" 2%Z 10%Z]}.

Lemma lease_epochs_monotone_witness :
  (exists r', sample_leases !! 7%N = Some r' /\ (2 <= lr_epoch r')%Z) /\
  forall now, exists x, assert_current now (mkLease 7%N "w1" 1%Z 5%Z) sample_leases = Raise x /\
    exn_cls x = FencingError.
Proof.
  apply (lease_epochs_monotone sample_leases sample_leases (mkLease 7%N "w1" 1%Z 5%Z)
    (mkLeaseRow "w2" 2%Z 10%Z)); [constructor | vm_compute; reflexivity | left; vm_compute; reflexivity].
Defined.

(** A claim that succeeds against another worker's row gives a lease that
    is current until it expires and takes the fence away from the former owner
    at once. *)
Theorem lease_takeover (ttl : Z) (now py1 py2 : datetime) (eid : uuid) (worker : string)
    (s s' : lease_table) (l : WorkerLease) (r : lease_row) :
  claim ttl now py1 py2 eid worker s = Ret (Some l, s') -> s !! eid = Some r ->
  lr_worker r <> worker ->
  (lr_expires r <= py1)%Z /\ wl_epoch l = (lr_epoch r + 1)%Z /\
  (forall t, is_current t l s' = (t <? now + ttl)%Z) /\
  (forall t x, is_current t (mkLease eid (lr_worker r) (lr_epoch r) x) s' = false).
Proof.
  unfold claim. intros H Hr Hne. destruct (String.eqb worker ""); [done|]. rewrite Hr in H.
  rewrite (proj2 (String.eqb_neq (lr_worker r) worker)) in H by done. cbn [negb] in H.
  rewrite andb_true_r in H. destruct (Z.ltb_spec py1 (lr_expires r)); [done|].
  cbn [andb] in H. out_simpl. split; [done|]. split; [done|].
  unfold is_current. cbn [wl_execution_id]. rewrite lookup_insert_eq. simpl. split.
  - intros t. by rewrite String.eqb_refl, Z.eqb_refl.
  - intros t x. by rewrite (proj2 (String.eqb_neq worker (lr_worker r))).
Qed.

Lemma lease_takeover_witness :
  exists l s', claim 5%Z 20%Z 20%Z 20%Z 7%N "w3" sample_leases = Ret (Some l, s') /\
    wl_epoch l = 3%Z /\ is_current 21%Z l s' = true.
Proof.
  destruct (claim 5%Z 20%Z 20%Z 20%Z 7%N "w3" sample_leases) as [[[l|] s']|x] eqn:E;
    [| vm_compute in E; discriminate E | vm_compute in E; discriminate E].
  destruct (lease_takeover 5%Z 20%Z 20%Z 20%Z 7%N "w3" sample_leases s' l (mkLeaseRow "w2" 2%Z 10%Z))
    as (_ & He & Hc & _); [exact E | vm_compute; reflexivity | vm_compute; discriminate |].
  exists l, s'. split; [reflexivity|]. split; [exact He|]. rewrite Hc. reflexivity.
Defined.

(** [release] deletes the row, and with it the epoch counter: after a
    release the next claim of the execution starts again at epoch 1, so a
    lease object its worker kept from an earlier first claim passes the fence
    again. *)
Theorem release_restarts_epochs (ttl : Z) (now py1 py2 : datetime) (l old : WorkerLease)
    (s : lease_table) (r : lease_row) :
  s !! wl_execution_id l = Some r -> lr_worker r = wl_worker_id l -> lr_epoch r = wl_epoch l ->
  wl_execution_id old = wl_execution_id l -> wl_epoch old = 1%Z -> wl_worker_id old <> "" ->
  exists l' s', claim ttl now py1 py2 (wl_execution_id l) (wl_worker_id old) (release l s) =
      Ret (Some l', s') /\ wl_epoch l' = 1%Z /\
    forall t, (t < now + ttl)%Z -> assert_current t old s' = Ret tt.
Proof.
  intros Hr Hw He Hx Ho Hne. unfold release. rewrite Hr, Hw, He, String.eqb_refl, Z.eqb_refl.
  unfold claim. rewrite (proj2 (String.eqb_neq (wl_worker_id old) "")) by done.
  cbn [andb]. rewrite lookup_delete_eq. do 2 eexists. split; [done|]. split; [done|].
  intros t Ht. unfold assert_current, is_current. rewrite Hx, lookup_insert_eq, Ho. simpl.
  rewrite String.eqb_refl. by rewrite (proj2 (Z.ltb_lt _ _) Ht).
Qed.

Lemma release_restarts_epochs_witness :
  exists l' s', claim 5%Z 20%Z 20%Z 20%Z 7%N "w1" (release (mkLease 7%N "w2" 2%Z 10%Z) sample_leases) =
    Ret (Some l', s') /\ wl_epoch l' = 1%Z /\
    assert_current 21%Z (mkLease 7%N "w1" 1%Z 5%Z) s' = Ret tt.
Proof.
  destruct (release_restarts_epochs 5%Z 20%Z 20%Z 20%Z (mkLease 7%N "w2" 2%Z 10%Z) (mkLease 7%N "w1" 1%Z 5%Z)
    sample_leases (mkLeaseRow "w2" 2%Z 10%Z)) as (l' & s' & Hc & He & Ha);
    try (vm_compute; reflexivity); [vm_compute; discriminate|].
  exists l', s'. split; [exact Hc|]. split; [exact He|]. apply Ha. vm_compute. reflexivity.
Defined.
