(* ===== verification/RuntimeTheorems.v ===== *)
(** * Theorems on the execution runtime

    The contract of [ExecutionRuntime.execute]: what it may write, when it
    answers, what it does on a replay, on a denial, with a stale lease and with
    failures that cannot be recovered. *)

From stdpp Require Import base gmap strings list relations.
From Stdlib Require Import ZArith Lia.
From S2P Require Import Prelude Uuid Json Types State Recovery Policy Validation Stores Registry.
From S2P Require Import Fencing Runtime RuntimeFacts RuntimeRuns Samples.
Local Open Scope py_scope.

(** ** A sample runtime *)

Definition ok_capability : Capability := mkCapability (Some sample_contract)
  (fun rq => ret (simple_result (rq_invocation_id rq) "cap" INV_SUCCEEDED (VInt 1) None)).

Definition failing_capability (class : string) : Capability := mkCapability (Some sample_contract)
  (fun rq => ret (simple_result (rq_invocation_id rq) "cap" INV_FAILED VNone
                    (Some [("failure_class", VStr class)]))).

Definition sample_registry (cap : Capability) : list (CapabilityEntry Capability) :=
  [mkCapEntry cap (cap_contract cap) "cap" "1"].

Definition sample_runtime (cap : Capability) (fence : option FenceWorld) : Runtime :=
  mkRuntime (fun id version => get_entry id version (sample_registry cap)) (authorize default_policy)
    default_recovery_policy fence.

Lemma sample_registered cap fence e :
  registered (sample_runtime cap fence) e -> e = mkCapEntry cap (cap_contract cap) "cap" "1".
Proof. intros (id & v & H%get_entry_elem). by apply list_elem_of_singleton in H. Qed.

Abbreviation memory_run :=
  (RunState (list EvidenceEvent) (gmap uuid ExecutionContext) (gmap string InvocationResult)).

Definition sample_run : memory_run := mkRun sample_context new_token [] ∅ ∅ sample_env 0.

Section theorems.
Context {ES CS IS : Type} `{!EvidenceStore ES} `{!CheckpointStore CS} `{!IdempotencyStore IS}.

(** C2. [execute] and [complete] are guarded runs, on every path, exceptions
    included: a check of the fence comes first, and nothing is written unless it
    succeeds; after it, they do nothing to the stores but append evidence, save the
    current context's checkpoint and store a terminal result, each of the last two
    directly after a further check of its own that succeeded. *)
Theorem runtime_refines_guarded_steps (rt : Runtime) (lease : option WorkerLease)
    (cap version : string) (input : dict) (inv key : option string) (s : RunState ES CS IS) :
  guarded_run rt lease s (snd (execute rt lease cap version input inv key s)) /\
  guarded_run rt lease s (snd (complete rt lease s)).
Proof. split; [apply guarded_execute | apply guarded_complete]. Qed.

(** C20. A worker whose lease is stale, or that supplies none although fencing is
    enabled, changes nothing: [execute] raises before the context, the evidence,
    the checkpoints and the idempotency records are touched. *)
Theorem stale_worker_is_fenced (rt : Runtime) (w : FenceWorld) (lease : option WorkerLease)
    (cap version : string) (input : dict) (inv key : option string) (s : RunState ES CS IS) :
  rt_fencing rt = Some w ->
  (forall l, lease = Some l ->
     is_current (fw_clock w (rs_fences s)) l (fw_table w (rs_fences s)) = false) ->
  exists x s', execute rt lease cap version input inv key s = (Raise x, s') /\
    (exn_cls x = ExecutionAlreadyCompleted \/ exn_cls x = ExecutionError \/
     exn_cls x = FencingError) /\
    rs_context s' = rs_context s /\ rs_evidence s' = rs_evidence s /\
    rs_checkpoints s' = rs_checkpoints s /\ rs_idempotency s' = rs_idempotency s.
Proof.
  intros Hf Hl. unfold execute. rewrite (bind_ret_intro get_context _ s (rs_context s) s) by done.
  destruct (bool_decide _); [do 2 eexists; split; [done|]; split; [by left | done]|].
  set (m := match inv with Some i => _ | None => _ end).
  assert (exists i s1, m s = (Ret i, s1) /\ rs_context s1 = rs_context s /\
    rs_evidence s1 = rs_evidence s /\ rs_checkpoints s1 = rs_checkpoints s /\
    rs_idempotency s1 = rs_idempotency s /\ rs_fences s1 = rs_fences s)
    as (i & s1 & E & Hc & He & Hcp & Hi & Hn).
  { unfold m. destruct inv as [i|]; [destruct (String.eqb i "")|]; do 2 eexists; (split; [done | by split_and!]). }
  rewrite (bind_ret_intro _ _ _ _ _ E). cbn zeta. clearbody m.
  assert (exists x s2, assert_fence rt lease s1 = (Raise x, s2) /\
    (exn_cls x = ExecutionError \/ exn_cls x = FencingError) /\ rs_context s2 = rs_context s1 /\
    rs_evidence s2 = rs_evidence s1 /\ rs_checkpoints s2 = rs_checkpoints s1 /\
    rs_idempotency s2 = rs_idempotency s1) as (x & s2 & E2 & Hx & ? & ? & ? & ?).
  { unfold assert_fence. rewrite Hf. destruct lease as [l|].
    - unfold assert_current. rewrite Hn, (Hl l eq_refl).
      do 2 eexists. split; [done|]. split; [by right | done].
    - do 2 eexists. split; [done|]. split; [by left | done]. }
  rewrite (bind_raise _ _ _ _ _ E2). exists x, s2. split; [done|]. split; [tauto|].
  split_and!; congruence.
Qed.

End theorems.

Lemma stale_worker_is_fenced_witness :
  exists x s', execute (sample_runtime ok_capability
      (Some (mkFenceWorld (fun _ => ∅) (fun _ => 0%Z)))) (Some (mkLease 7%N "w1" 1%Z 5%Z))
      "cap" "1" [] (Some "inv") None sample_run = (Raise x, s') /\
    rs_checkpoints s' = rs_checkpoints sample_run.
Proof.
  destruct (stale_worker_is_fenced (sample_runtime ok_capability
      (Some (mkFenceWorld (fun _ => ∅) (fun _ => 0%Z)))) (mkFenceWorld (fun _ => ∅) (fun _ => 0%Z))
      (Some (mkLease 7%N "w1" 1%Z 5%Z)) "cap" "1" [] (Some "inv") None sample_run)
    as (x & s' & E & _ & _ & _ & Hc & _).
  - reflexivity.
  - intros l H. injection H as <-. vm_compute. reflexivity.
  - exists x, s'. split; [exact E | exact Hc].
Defined.

(** Evidence in the process-local ledger only grows: whatever [execute]
    does, the events recorded before are a prefix of those recorded after. *)
Theorem runtime_evidence_only_grows {CS IS : Type} `{!CheckpointStore CS} `{!IdempotencyStore IS}
    (rt : Runtime) (lease : option WorkerLease) (cap version : string) (input : dict)
    (inv key : option string) (s : RunState (list EvidenceEvent) CS IS) :
  exists l, rs_evidence (snd (execute rt lease cap version input inv key s)) = rs_evidence s ++ l.
Proof.
  set (R := fun a b : RunState (list EvidenceEvent) CS IS =>
              exists l, rs_evidence b = rs_evidence a ++ l).
  assert (PreOrder R) as HR.
  { split.
    - intros a. exists []. by rewrite app_nil_r.
    - intros a b c [l1 E1] [l2 E2]. exists (l1 ++ l2). by rewrite E2, E1, app_assoc. }
  apply (guarded_run_ind rt lease R); [intros a b (He & _); exists []; by rewrite app_nil_r, He| |apply guarded_execute].
  intros a b [a' b' (He & _) _|a' b' _ (He & _) _|a' b' e He _ _ _|a' b' _ _ _ He _|a' b' k r _ _ _ _ He _];
    try (exists []; by rewrite app_nil_r, He).
  exists [e]. simpl in He. unfold ledger_append in He. by injection He as <-.
Qed.

Section runs.
Context {ES CS IS : Type} `{!EvidenceStore ES} `{!CheckpointStore CS} `{!IdempotencyStore IS}.
Context {IF : IsoFormat} {CPL : CheckpointLaws CS} {IDL : IdempotencyLaws IS}.

(** A FAILED result whose failure class is permission, safety or anything
    unknown is never returned to the caller: recovery moves the execution to a
    terminal status, and the transition to OBSERVING that follows raises. *)
Theorem unrecoverable_failure_raises (rt : Runtime) (lease : option WorkerLease)
    (eid : uuid) (cap inv key : string) (k : CapabilityContract) (r : InvocationResult)
    (f : FailureClass) (s : RunState ES CS IS) :
  result_failure r = Some f -> f = PERMISSION \/ f = SAFETY \/ f = UNKNOWN ->
  exists x s', bind (recover_result rt lease eid cap inv r)
                 (settle rt lease eid cap inv key k) s = (Raise x, s').
Proof.
  intros Hr Hf%(bool_decide_eq_true (f = PERMISSION \/ f = SAFETY \/ f = UNKNOWN)).
  destruct (bind _ _ s) as [[r'|x] s'] eqn:E; [exfalso | by do 2 eexists].
  apply bind_ret_inv in E as (r1 & s1 & E1 & E2).
  pose proof (recover_result_fatal _ _ _ _ _ _ _ _ _ _ Hr Hf E1) as Ht.
  apply bind_ret_inv in E2 as (u & s2 & E2 & _). apply observe_result_terminal in E2. congruence.
Qed.

(** A success is returned only after the cancellation check, input
    validation and authorization have passed, cached or not; it is either the
    stored result of the key, and then nothing is stored, or a fresh result
    that carries the requested identifier, satisfies the output schema, is in
    the working memory and in the idempotency store, with the execution
    ROUTED. *)
Theorem runtime_success_explained (rt : Runtime) (lease : option WorkerLease)
    (cap version i : string) (input : dict) (ko : option string) (r : InvocationResult)
    (s s' : RunState ES CS IS) :
  i <> "" -> execute rt lease cap version input (Some i) ko s = (Ret r, s') ->
  ir_status r = INV_SUCCEEDED ->
  terminal (status (rs_context s)) = false /\
  exists entry k s1, rt_get rt cap version = Ret entry /\
    ce_contract entry = Some k /\ entered s s1 /\ admitted rt cap i input k s1 /\
    ((idem_get (str_or ko i) (rs_idempotency s) = Ret (Some r) /\ same_idem s s') \/
     (idem_get (str_or ko i) (rs_idempotency s) = Ret None /\
      ir_invocation_id r = i /\ validate_output r k = Ret tt /\
      status (rs_context s') = ROUTED /\
      dget ("result:" +:+ i) (working_memory (rs_context s')) = Some (ir_output r) /\
      idem_put (str_or ko i) r (rs_idempotency s) = Ret (rs_idempotency s'))).
Proof.
  intros Hi H Hs%succeeded_spec. split; [by apply execute_ret in H as [? _]|].
  apply execute_success in H as (_ & entry & k & s1 & He & Hk & Hent & Had & Hcase); [|done..].
  exists entry, k, s1. do 4 (split; [done|]).
  destruct Hcase as [?|(Hg & s2 & Hi2 & [H1 H2 H3 H4 H5 _])]; [by left | right].
  split; [exact Hg|]. unfold same_idem in Hi2. rewrite <- Hi2. split_and!; auto with ois.
Qed.

(** C19. At most once: after a success under an idempotency key, any later
    execution with that key that succeeds, of whatever capability and context,
    on the same idempotency store, returns exactly what the store holds under the
    key, which is the first one's result in every field (up to what a trip through
    JSON does to output, error and metadata if the store keeps text), and leaves
    the store as it is. *)
Theorem idempotent_replay (rt rt2 : Runtime) (lease lease2 : option WorkerLease)
    (cap version i cap2 version2 i2 : string) (input input2 : dict) (ko ko2 : option string)
    (r r2 : InvocationResult) (s s' t t' : RunState ES CS IS) :
  i <> "" -> i2 <> "" -> str_or ko2 i2 = str_or ko i -> idem_inv (rs_idempotency s) ->
  execute rt lease cap version input (Some i) ko s = (Ret r, s') -> ir_status r = INV_SUCCEEDED ->
  rs_idempotency t = rs_idempotency s' ->
  execute rt2 lease2 cap2 version2 input2 (Some i2) ko2 t = (Ret r2, t') ->
  ir_status r2 = INV_SUCCEEDED ->
  idem_get (str_or ko i) (rs_idempotency s') = Ret (Some r2) /\ same_result r r2 /\
  rs_idempotency t' = rs_idempotency t.
Proof.
  intros Hi Hi2 Hkey Hinv H1 Hs1%succeeded_spec Ht H2 Hs2%succeeded_spec.
  apply execute_success in H1 as (_ & e1 & k1 & u1 & _ & _ & _ & _ & Hc1); [|done..].
  apply execute_success in H2 as (_ & e2 & k2 & u2 & _ & _ & _ & _ & Hc2); [|done..].
  assert (exists r', idem_get (str_or ko i) (rs_idempotency s') = Ret (Some r') /\ same_result r r')
    as (r' & Hg & Hsame).
  { destruct Hc1 as [[Hg Hsi]|(Hg & s2 & Hsi & Hset)]; unfold same_idem in Hsi.
    - exists r. rewrite Hsi. split; [done | reflexivity].
    - eapply idem_put_get; [exact Hinv | | exact Hg |].
      + by apply succeeded_cacheable.
      + rewrite <- Hsi. eapply st_cached; [exact Hset | by apply succeeded_cacheable]. }
  rewrite Hkey, Ht, Hg in Hc2. destruct Hc2 as [[E Hsi]|[E _]]; [|done].
  injection E as <-. by split_and!.
Qed.
End runs.

(** One execution on the sample runtime. *)
Definition first_run : outcome InvocationResult * memory_run :=
  execute (sample_runtime ok_capability None) None "cap" "1" [] (Some "inv") None sample_run.
Definition first_store : gmap string InvocationResult := rs_idempotency (snd first_run).
Definition replay_state : memory_run := mkRun sample_context new_token [] ∅ first_store sample_env 0.
Definition second_run : outcome InvocationResult * memory_run :=
  execute (sample_runtime (failing_capability "tool") None) None "cap" "1" [] (Some "inv") None
    replay_state.

Lemma replay_store r s' : first_run = (Ret r, s') -> rs_idempotency replay_state = rs_idempotency s'.
Proof. unfold replay_state. cbn [rs_idempotency]. unfold first_store. by intros ->. Qed.

Lemma unrecoverable_failure_raises_witness :
  exists x s', bind (recover_result (sample_runtime ok_capability None) None 7%N "cap" "inv"
      (simple_result "inv" "cap" INV_FAILED VNone (Some [("failure_class", VStr "safety")])))
    (settle (sample_runtime ok_capability None) None 7%N "cap" "inv" "inv" sample_contract)
    sample_run = (Raise x, s').
Proof.
  apply (unrecoverable_failure_raises _ _ _ _ _ _ _ _ SAFETY);
    [vm_compute; reflexivity | right; left; reflexivity].
Defined.

(** Whether a run answered with a success. *)
Definition run_succeeded (o : outcome InvocationResult * memory_run) : Prop :=
  match o with (Ret r, _) => ir_status r = INV_SUCCEEDED | (Raise _, _) => False end.

Lemma first_run_succeeded : run_succeeded first_run.
Proof. vm_compute. reflexivity. Qed.
Lemma second_run_succeeded : run_succeeded second_run.
Proof. vm_compute. reflexivity. Qed.

Lemma runtime_success_explained_witness :
  exists r s', first_run = (Ret r, s') /\ terminal (status (rs_context sample_run)) = false.
Proof.
  pose proof first_run_succeeded as H. destruct first_run as [[r|x] s'] eqn:E; [|destruct H].
  exists r, s'. split; [reflexivity|].
  apply (runtime_success_explained (sample_runtime ok_capability None) None "cap" "1" "inv" []
    None r sample_run s'); [discriminate | exact E | exact H].
Defined.

Lemma idempotent_replay_witness :
  exists r s' r2 t', first_run = (Ret r, s') /\ second_run = (Ret r2, t') /\
    idem_get "inv" (rs_idempotency s') = Ret (Some r2) /\ same_result r r2 /\
    rs_idempotency t' = rs_idempotency replay_state.
Proof.
  pose proof first_run_succeeded as H. pose proof second_run_succeeded as H2.
  destruct second_run as [[r2|x] t'] eqn:E2; [|destruct H2].
  destruct first_run as [[r|x] s'] eqn:E; [|destruct H].
  exists r, s', r2, t'. split; [reflexivity|]. split; [reflexivity|].
  apply (idempotent_replay (sample_runtime ok_capability None)
    (sample_runtime (failing_capability "tool") None) None None "cap" "1" "inv" "cap" "1" "inv"
    [] [] None None r r2 sample_run s' replay_state t');
    [discriminate | discriminate | reflexivity | exact I | exact E | exact H
    | exact (replay_store r s' E) | exact E2 | exact H2].
Defined.
