(* ===== verification/OrchestratorTheorems.v ===== *)
(** * Theorems on the plan orchestrator

    Termination, dependency order, the outcome of a run, and what becomes of
    tasks a crash left READY. *)

From stdpp Require Import base gmap strings list relations.
From Stdlib Require Import ZArith Lia Classical.
From S2P Require Import Prelude Uuid Json Types State Recovery Policy Planning Stores.
From S2P Require Import Registry Fencing Runtime RuntimeFacts RuntimeRuns Orchestrator.
From S2P Require Import OrchestratorFacts OrchestratorRuns Samples RuntimeTheorems.
Local Open Scope py_scope.

Section theorems.
Context {ES CS IS : Type} `{!EvidenceStore ES} `{!CheckpointStore CS} `{!IdempotencyStore IS}.
Context {IF : IsoFormat} {CPL : CheckpointLaws CS} {IDL : IdempotencyLaws IS}.

(** A registered capability that keeps the retry loop going by itself: it asks for
    a retry without naming a failure class, or lowers the retry counter. *)
Definition unruly_capability (rt : Runtime) : Prop :=
  exists e, registered rt e /\ unruly (ce_capability e).

Lemma ruly_or_not (rt : Runtime) :
  unruly_capability rt \/ forall e, registered rt e -> disciplined (ce_capability e).
Proof.
  destruct (classic (unruly_capability rt)) as [H|Hn]; [by left|right].
  intros e He. apply not_unruly_disciplined. intros Hu. apply Hn. by exists e.
Qed.

(** C9. [PlanOrchestrator.execute] terminates, or a registered capability keeps
    the retry loop going by itself: with retry fuel one above the remaining retry
    budget and as many rounds as tasks plus one, neither [while] loop runs out of
    fuel, whatever the capabilities and the stores do and raise, when no stored
    result asks for a retry; unless some capability can ask for a retry without
    naming a failure class, which the loop then grants without limit, or lower
    the retry counter of its context. *)
Theorem orchestrator_terminates (rt : Runtime) (frames retries rounds : nat)
    (s s' : OrchState ES CS IS) (o : option unit) :
  cached_final (os_run s) ->
  (Z.max 0 (max_retries (rt_recovery rt) - retry_count (rs_context (os_run s))) + 1 <=
   Z.of_nat retries)%Z ->
  (length (tasks (os_plan s)) < rounds)%nat ->
  execute_plan rt frames retries rounds s = (Ret o, s') -> o = Some tt \/ unruly_capability rt.
Proof.
  intros Hc Hr Hn H. destruct (ruly_or_not rt) as [Hu|Hd]; [by right|left].
  destruct o as [[]|]; [done|]. exfalso.
  by eapply execute_plan_enough; [exact Hd | split | | exact H].
Qed.

(** C5. Dependency order: however a run of [execute] ends, by returning or by an
    exception, every task that was started has all its dependencies succeeded,
    if that held when the run began. *)
Theorem orchestrator_dependency_order (rt : Runtime) (frames retries rounds : nat)
    (s : OrchState ES CS IS) :
  dict_ok (tasks (os_plan s)) -> (length (tasks (os_plan s)) < frames)%nat ->
  closed (tasks (os_plan s)) ->
  closed (tasks (os_plan (snd (execute_plan rt frames retries rounds s)))).
Proof.
  intros Hok Hfr Hc. apply (execute_plan_table rt frames retries rounds closed); [exact Hc|].
  intros s1 Hp Hv. apply closed_plan_loop; rewrite Hp; [|exact Hc].
  by eapply validate_well_founded.
Qed.

(** C1. Total correctness: for a valid plan whose tasks are pending or done, an
    execution that has not ended, stores that do not fail, no fencing (the
    orchestrator passes no lease) and no stored result that asks for a retry,
    [execute] returns, and then either every task is done and the execution is
    COMPLETED, or some task is FAILED; it never reports a blocked plan.  The one
    exception is a capability that keeps the retry loop going by itself. *)
Theorem orchestrator_run_outcome (rt : Runtime) (frames retries rounds : nat)
    (s : OrchState ES CS IS) :
  rt_fencing rt = None ->
  (forall c e cs, exists cs' c' e', cp_save c e cs = (Ret cs', c', e')) ->
  (forall e es, exists es', ev_append e es = Ret es') ->
  cached_final (os_run s) -> terminal (status (rs_context (os_run s))) = false ->
  dict_ok (tasks (os_plan s)) -> (length (tasks (os_plan s)) < frames)%nat ->
  validate frames (os_plan s) = Ret tt -> fresh_or_done (tasks (os_plan s)) ->
  (Z.max 0 (max_retries (rt_recovery rt) - retry_count (rs_context (os_run s))) + 1 <=
   Z.of_nat retries)%Z ->
  (length (tasks (os_plan s)) < rounds)%nat ->
  unruly_capability rt \/
  exists s', execute_plan rt frames retries rounds s = (Ret (Some tt), s') /\
    ((is_complete (os_plan s') = true /\ status (rs_context (os_run s')) = COMPLETED) \/
     exists id, has_status T_FAILED (tasks (os_plan s')) id = true).
Proof.
  intros Hnf Hsave Hev Hc Hl Hok Hfr Hv Hf Hr Hn.
  destruct (ruly_or_not rt) as [Hu|Hd]; [by left|right]. pose proof (validate_well_founded _ _ Hok Hfr Hv) as Hwf.
  unfold execute_plan. rewrite (bind_ret_intro get_plan _ s (os_plan s) s) by done.
  rewrite (bind_ret_intro (lift (validate frames (os_plan s))) _ s tt s) by by rewrite Hv.
  destruct (total_save_plan Hsave s) as (u & s1 & Hs). rewrite (bind_ret_intro _ _ _ _ _ Hs).
  pose proof (budget_save_plan s) as Hb. rewrite Hs in Hb.
  assert (enough rt retries s1) as He by (eapply enough_mono; [exact Hb | by split]).
  apply save_plan_ret in Hs as [Hp Hl1].
  destruct (plan_loop_total rt Hsave retries rounds s1) as (o & s2 & Hloop & Ho);
    [by rewrite Hp | by rewrite Hp | by apply Hl1 |].
  rewrite (bind_ret_intro _ _ _ _ _ Hloop). destruct o as [[]|].
  - destruct Ho as [Hcomp Hlive].
    destruct (complete_total rt Hsave (os_run s2) Hnf Hev Hlive) as (r & Hr2 & Hst).
    exists (mkOrch (os_plan s2) r). unfold bind, on_run. rewrite Hr2. split; [done|]. left. by split.
  - exists s2. split; [done | by right].
  - exfalso. eapply plan_loop_enough; [exact Hd | exact He | | exact Hloop].
    rewrite Hp. pose proof (pending_le_length (tasks (os_plan s))). lia.
Qed.

(** A task that is READY when [execute] starts is never run: it is still
    READY at the end, whatever happens, and normalization of interrupted tasks
    only touches RUNNING ones.  A checkpoint taken while a batch runs contains
    its waiting siblings as READY, so resuming it cannot complete the plan. *)
Theorem resume_leaves_ready_tasks (rt : Runtime) (frames retries rounds : nat) (k : string)
    (p : ExecutionPlan) (r : RunState ES CS IS) :
  dict_ok (tasks p) -> (length (tasks p) < frames)%nat -> has_status T_READY (tasks p) k = true ->
  let s' := snd (execute_plan rt frames retries rounds (mkOrch (normalize_interrupted_tasks p) r)) in
  has_status T_READY (tasks (os_plan s')) k = true /\ is_complete (os_plan s') = false.
Proof.
  intros Hok Hfr Hk. cbn zeta.
  assert (has_status T_READY (tasks (normalize_interrupted_tasks p)) k = true) as Hk1.
  { apply has_status_spec in Hk as (t & Ht & E). apply has_status_spec. exists t.
    simpl. rewrite dget_dmap, Ht. simpl. by rewrite E. }
  assert (dict_ok (tasks (normalize_interrupted_tasks p))) as Hok1 by by apply dict_ok_dmap.
  assert (length (tasks (normalize_interrupted_tasks p)) < frames)%nat as Hfr1
    by (simpl; unfold dmap; by rewrite length_map).
  match goal with |- context [execute_plan ?a ?b ?c ?d ?s] => set (s0 := s) end.
  assert (has_status T_READY (tasks (os_plan (snd (execute_plan rt frames retries rounds s0)))) k = true)
    as Hend.
  { apply (execute_plan_table rt frames retries rounds (fun ts => has_status T_READY ts k = true));
      [exact Hk1|]. intros s1 Hp Hv. apply ready_stays; rewrite Hp; [|exact Hk1].
    by eapply validate_well_founded. }
  split; [exact Hend|]. apply has_status_spec in Hend as (t & Ht & E).
  destruct (is_complete _) eqn:Ec; [|done]. unfold is_complete in Ec.
  rewrite forallb_forall in Ec. apply dget_Some_elem in Ht.
  assert (t ∈ dvalues (tasks (os_plan (snd (execute_plan rt frames retries rounds s0))))) as Hin.
  { apply list_elem_of_fmap. by exists (k, t). }
  apply list_elem_of_In, Ec, bool_decide_eq_true in Hin. rewrite E in Hin. by destruct Hin.
Qed.
End theorems.

(** ** Witnesses *)

Definition sample_orch : OrchState (list EvidenceEvent) (gmap uuid ExecutionContext)
    (gmap string InvocationResult) := mkOrch sample_plan sample_run.

Lemma sample_ruly : ~ unruly_capability (sample_runtime ok_capability None).
Proof.
  intros (e & ->%sample_registered & [(rq & cs & r & cs' & [= <- _] & Hw & _)|(rq & cs & Hlt)]).
  - discriminate Hw.
  - simpl in Hlt. lia.
Qed.

Lemma sample_cached : cached_final (os_run sample_orch).
Proof. split; [exact I|]. intros k r H. by injection H. Qed.

Lemma sample_dict_ok : dict_ok (tasks sample_plan).
Proof. apply (bool_decide_unpack _). vm_compute. exact I. Qed.

Lemma sample_fresh : fresh_or_done (tasks sample_plan).
Proof.
  intros k t H. apply dget_Some_elem in H. left.
  repeat (apply elem_of_cons in H as [[= _ ->]|H]; [reflexivity|]). by apply elem_of_nil in H.
Qed.

Lemma orchestrator_terminates_witness :
  exists s', execute_plan (sample_runtime ok_capability None) 3 3 3 sample_orch = (Ret (Some tt), s').
Proof.
  destruct (execute_plan (sample_runtime ok_capability None) 3 3 3 sample_orch) as [[o|x] s'] eqn:E.
  - exists s'. do 2 f_equal.
    destruct (orchestrator_terminates (sample_runtime ok_capability None) 3 3 3 sample_orch s' o) as [Ho|Hu];
      [exact sample_cached | vm_compute; discriminate | vm_compute; lia | exact E | exact Ho
      | destruct (sample_ruly Hu)].
  - exfalso. apply (f_equal (fun o => match fst o with Ret _ => true | Raise _ => false end)) in E.
    vm_compute in E. discriminate E.
Defined.

Lemma orchestrator_dependency_order_witness :
  closed (tasks (os_plan (snd (execute_plan (sample_runtime ok_capability None) 3 3 3 sample_orch)))).
Proof.
  apply (orchestrator_dependency_order (sample_runtime ok_capability None));
    [exact sample_dict_ok | vm_compute; lia |].
  intros k t d Hk Hst _. destruct (sample_fresh k t Hk) as [E|E]; rewrite E in Hst;
    [discriminate Hst|]. exfalso. revert Hk E. simpl.
  repeat match goal with |- context [String.eqb k ?x] => destruct (String.eqb k x) end;
    intros Hk E; try (injection Hk as <-; discriminate E); discriminate Hk.
Defined.

Lemma orchestrator_run_outcome_witness :
  exists s', execute_plan (sample_runtime ok_capability None) 3 3 3 sample_orch = (Ret (Some tt), s') /\
    ((is_complete (os_plan s') = true /\ status (rs_context (os_run s')) = COMPLETED) \/
     exists id, has_status T_FAILED (tasks (os_plan s')) id = true).
Proof.
  destruct (orchestrator_run_outcome (sample_runtime ok_capability None) 3 3 3 sample_orch) as [Hu|H];
    [.. | destruct (sample_ruly Hu) | exact H].
  - reflexivity.
  - intros c e cs. do 3 eexists. reflexivity.
  - intros e es. eexists. reflexivity.
  - exact sample_cached.
  - reflexivity.
  - exact sample_dict_ok.
  - vm_compute. lia.
  - vm_compute. reflexivity.
  - exact sample_fresh.
  - vm_compute. discriminate.
  - vm_compute. lia.
Defined.

(** The checkpoint of a crash inside a batch: one sibling done, one waiting. *)
Definition interrupted_plan : ExecutionPlan :=
  mkPlan "plan" "1.0.0" "objective"
    [("a", with_task_status T_SUCCEEDED (sample_task "a" []));
     ("b", with_task_status T_READY (sample_task "b" []))] [].

Lemma resume_leaves_ready_tasks_witness :
  is_complete (os_plan (snd (execute_plan (sample_runtime ok_capability None) 3 3 3
    (mkOrch (normalize_interrupted_tasks interrupted_plan) sample_run)))) = false.
Proof.
  apply (resume_leaves_ready_tasks (sample_runtime ok_capability None) 3 3 3 "b" interrupted_plan
    sample_run); [apply (bool_decide_unpack _); vm_compute; exact I | vm_compute; lia
    | vm_compute; reflexivity].
Defined.
