(* ===== verification/ExecutionBackend.v ===== *)
(** * The durable execution store and worker queue:
    [ois/runtime/execution_backend.py]

    [SQLiteExecutionStore] and [SQLiteWorkerQueue] keep one table each.  A table
    is its list of rows in insertion order; the statements of one [with
    self._write()] block are one transaction.  [claim] is the one operation
    whose read runs outside the transaction of its write, so its two statements
    are separate definitions too. *)

From stdpp Require Import base strings list sorting pretty relations.
From Stdlib Require Import ZArith Lia.
From S2P Require Import Prelude Json.
Local Open Scope py_scope.

(** ** Status state machines *)

(** [_VALID_EXECUTION_TRANSITIONS.get(current, set())] *)
Definition valid_execution_transitions (current : string) : list string :=
  if String.eqb current "ready" then ["running"]
  else if String.eqb current "running" then ["succeeded"; "failed"]
  else [].

(** [_VALID_JOB_TRANSITIONS.get(current, set())] *)
Definition valid_job_transitions (current : string) : list string :=
  if String.eqb current "pending" then ["leased"]
  else if String.eqb current "leased" then ["completed"; "failed"; "pending"]
  else [].

(** [_dumps] and [_loads] of an optional value, as one copy through text. *)
Definition dumps_opt (v : pyval) : outcome (option pyval) :=
  match v with VNone => Ret None | _ => w <-? json_copy v ;; Ret (Some w) end.
Definition loads_opt (o : option pyval) : pyval := default VNone o.

Section backend.
Context `{IsoFormat}.
(** The text of a set of strings, whose order Python does not fix. *)
Variable show_set : list string -> string.

Definition transition_message (kind current target : string) (allowed : list string) : string :=
  kind +:+ " status transition '" +:+ current +:+ "' → '" +:+ target +:+
  "' is not permitted. Allowed: " +:+
  (match allowed with [] => "none (terminal state)" | _ => show_set allowed end) +:+ ".".

Definition validate_execution_transition (current target : string) : outcome unit :=
  let allowed := valid_execution_transitions current in
  if bool_decide (target ∈ allowed) then Ret tt
  else raise InvalidStatusTransitionError (transition_message "Execution" current target allowed).

Definition validate_job_transition (current target : string) : outcome unit :=
  let allowed := valid_job_transitions current in
  if bool_decide (target ∈ allowed) then Ret tt
  else raise InvalidStatusTransitionError (transition_message "Job" current target allowed).

(** [_now()] *)
Definition now_text {T : Type} : M (T * Env) string := fun s =>
  let '(t, e) := utc_now (snd s) in (Ret (isoformat t), (fst s, e)).

(** [SELECT ... ORDER BY updated_at] of the rows that satisfy [p]. *)
Definition select_by {R : Type} (key : R -> string) (p : R -> bool) (rows : list R) : list R :=
  merge_sort (fun a b => str_le (key a) (key b)) (List.filter p rows).

(** ** [SQLiteExecutionStore] *)

(** A row of [executions]; the text columns hold decoded values. *)
Record exec_row := mkExecRow {
  x_execution_id : string;
  x_workflow_id : string;
  x_status : string;
  x_payload : pyval;
  x_result : option pyval;
  x_error : option pyval;
  x_checkpoint : option pyval;
  x_updated_at : string }.

Record ExecutionRecord := mkExecRecord {
  xr_execution_id : string;
  xr_workflow_id : string;
  xr_status : string;
  xr_payload : pyval;
  xr_result : pyval;
  xr_error : pyval;
  xr_checkpoint : pyval;
  xr_updated_at : string }.

Definition exec_state : Type := list exec_row * Env.

(** [_record(row)] *)
Definition exec_record (r : exec_row) : ExecutionRecord :=
  mkExecRecord (x_execution_id r) (x_workflow_id r) (x_status r) (x_payload r)
    (loads_opt (x_result r)) (loads_opt (x_error r)) (loads_opt (x_checkpoint r)) (x_updated_at r).

Definition exec_find (id : string) (rows : list exec_row) : option exec_row :=
  List.find (fun r => String.eqb (x_execution_id r) id) rows.

(** [UPDATE executions SET ... WHERE execution_id = id] *)
Definition exec_update (id : string) (f : exec_row -> exec_row) (rows : list exec_row) :
    list exec_row :=
  map (fun r => if String.eqb (x_execution_id r) id then f r else r) rows.

Definition exec_get (id : string) : M exec_state ExecutionRecord := fun s =>
  (match exec_find id (fst s) with
   | Some r => Ret (exec_record r)
   | None => raise ExecutionNotFoundError ("Execution '" +:+ id +:+ "' not found in store.")
   end, s).

Definition exec_write (f : list exec_row -> list exec_row) : M exec_state unit :=
  modify (fun s => (f (fst s), snd s)).

Definition exec_create (id workflow : string) (payload : dict) : M exec_state ExecutionRecord :=
  s <- get ;;
  match exec_find id (fst s) with
  | Some _ => lift (raise DuplicateExecutionError
                ("Execution '" +:+ id +:+ "' already exists. Execution store is append-only."))
  | None =>
      now <- now_text ;;
      v <- lift (json_copy (VDict payload)) ;;
      exec_write (fun rows =>
        rows ++ [mkExecRow id workflow "ready" v None None None now]) ;;;
      exec_get id
  end.

Definition exec_checkpoint (id : string) (checkpoint : dict) : M exec_state ExecutionRecord :=
  r <- exec_get id ;;
  lift (validate_execution_transition (xr_status r) "running") ;;;
  v <- lift (json_copy (VDict checkpoint)) ;;
  now <- now_text ;;
  exec_write (exec_update id (fun r =>
    mkExecRow (x_execution_id r) (x_workflow_id r) "running" (x_payload r) (x_result r) (x_error r)
      (Some v) now)) ;;;
  exec_get id.

(** [_set_terminal] *)
Definition exec_set_terminal (id target : string) (result error : pyval) :
    M exec_state ExecutionRecord :=
  r <- exec_get id ;;
  lift (validate_execution_transition (xr_status r) target) ;;;
  res <- lift (dumps_opt result) ;;
  err <- lift (dumps_opt error) ;;
  now <- now_text ;;
  exec_write (exec_update id (fun r =>
    mkExecRow (x_execution_id r) (x_workflow_id r) target (x_payload r) res err (x_checkpoint r)
      now)) ;;;
  exec_get id.

Definition exec_complete (id : string) (result : pyval) : M exec_state ExecutionRecord :=
  exec_set_terminal id "succeeded" result VNone.
Definition exec_fail (id : string) (error : dict) : M exec_state ExecutionRecord :=
  exec_set_terminal id "failed" VNone (VDict error).

Definition list_by_status (status : string) (rows : list exec_row) : list ExecutionRecord :=
  exec_record <$> select_by x_updated_at (fun r => String.eqb (x_status r) status) rows.
Definition list_by_workflow (workflow : string) (rows : list exec_row) : list ExecutionRecord :=
  exec_record <$> select_by x_updated_at (fun r => String.eqb (x_workflow_id r) workflow) rows.

(** ** [SQLiteWorkerQueue] *)

Record job_row := mkJobRow {
  j_job_id : string;
  j_queue : string;
  j_payload : pyval;
  j_attempts : Z;
  j_lease_owner : option string;
  j_status : string;
  j_updated_at : string }.

Definition job_state : Type := list job_row * Env.

Definition job_find (id : string) (rows : list job_row) : option job_row :=
  List.find (fun r => String.eqb (j_job_id r) id) rows.

(** [UPDATE worker_jobs SET ... WHERE ...] *)
Definition job_update (p : job_row -> bool) (f : job_row -> job_row) (rows : list job_row) :
    list job_row :=
  map (fun r => if p r then f r else r) rows.

(** [get]: the record of a row has the row's columns. *)
Definition job_get (id : string) : M job_state job_row := fun s =>
  (match job_find id (fst s) with
   | Some r => Ret r
   | None => raise JobNotFoundError ("Job '" +:+ id +:+ "' not found in worker queue.")
   end, s).

Definition job_write (f : list job_row -> list job_row) : M job_state unit :=
  modify (fun s => (f (fst s), snd s)).

Definition enqueue (id queue : string) (payload : dict) : M job_state job_row :=
  s <- get ;;
  match job_find id (fst s) with
  | Some _ => lift (raise DuplicateJobError
                ("Job '" +:+ id +:+ "' already exists in queue '" +:+ queue +:+ "'."))
  | None =>
      now <- now_text ;;
      v <- lift (json_copy (VDict payload)) ;;
      job_write (fun rows => rows ++ [mkJobRow id queue v 0 None "pending" now]) ;;;
      job_get id
  end.

(** A row that may be claimed. *)
Definition claimable (r : job_row) : bool :=
  String.eqb (j_status r) "pending" && bool_decide (j_lease_owner r = None).

(** The order of [ORDER BY updated_at ASC, job_id ASC]. *)
Definition job_le (a b : job_row) : Prop :=
  (j_updated_at a <> j_updated_at b /\ str_le (j_updated_at a) (j_updated_at b)) \/
  (j_updated_at a = j_updated_at b /\ str_le (j_job_id a) (j_job_id b)).
#[export] Instance job_le_dec a b : Decision (job_le a b).
Proof. unfold job_le. apply _. Defined.

(** The first statement of [claim]: the row it will try to lease. *)
Definition claim_select (queue : string) (rows : list job_row) : option job_row :=
  head (merge_sort job_le (List.filter (fun r => String.eqb (j_queue r) queue && claimable r) rows)).

(** The second statement: lease the job if it is still claimable. *)
Definition claim_update (id worker now : string) : list job_row -> list job_row :=
  job_update (fun r => String.eqb (j_job_id r) id && claimable r)
    (fun r => mkJobRow (j_job_id r) (j_queue r) (j_payload r) (j_attempts r) (Some worker) "leased" now).

(** What follows the first statement: the number of updated rows is not looked
    at. *)
Definition claim_finish (row : option job_row) (worker : string) :
    M job_state (option job_row) :=
  match row with
  | None => ret None
  | Some r =>
      now <- now_text ;;
      job_write (claim_update (j_job_id r) worker now) ;;;
      j <- job_get (j_job_id r) ;;
      ret (Some j)
  end.

Definition claim_job (queue worker : string) : M job_state (option job_row) :=
  s <- get ;; claim_finish (claim_select queue (fst s)) worker.

Definition owner_is (worker : string) (r : job_row) : bool := bool_decide (j_lease_owner r = Some worker).

(** [_assert_ownership(job_id, worker_id, expected_status)] *)
Definition assert_ownership (id worker expected : string) : M job_state job_row :=
  j <- job_get id ;;
  if negb (owner_is worker j) then
    lift (raise JobOwnershipError
      ("Worker '" +:+ worker +:+ "' does not own the lease for job '" +:+ id +:+
       "'. Current owner: '" +:+ default "None" (j_lease_owner j) +:+ "'."))
  else if negb (String.eqb (j_status j) expected) then
    lift (raise InvalidStatusTransitionError
      ("Job '" +:+ id +:+ "' is in status '" +:+ j_status j +:+ "', expected '" +:+ expected +:+ "'."))
  else ret j.

(** [WHERE job_id = ? AND lease_owner = ?] *)
Definition held_by (id worker : string) (r : job_row) : bool :=
  String.eqb (j_job_id r) id && owner_is worker r.

Definition retry_job (id worker : string) : M job_state job_row :=
  assert_ownership id worker "leased" ;;;
  now <- now_text ;;
  job_write (job_update (held_by id worker) (fun r =>
    mkJobRow (j_job_id r) (j_queue r) (j_payload r) (j_attempts r + 1) None "pending" now)) ;;;
  job_get id.

Definition acknowledge (id worker : string) : M job_state job_row :=
  assert_ownership id worker "leased" ;;;
  now <- now_text ;;
  job_write (job_update (held_by id worker) (fun r =>
    mkJobRow (j_job_id r) (j_queue r) (j_payload r) (j_attempts r) (j_lease_owner r) "completed"
      now)) ;;;
  job_get id.

Definition fail_job (id worker : string) : M job_state job_row :=
  assert_ownership id worker "leased" ;;;
  now <- now_text ;;
  job_write (job_update (held_by id worker) (fun r =>
    mkJobRow (j_job_id r) (j_queue r) (j_payload r) (j_attempts r + 1) (j_lease_owner r) "failed"
      now)) ;;;
  job_get id.

(** [list_by_queue(queue, status)]: an empty status is no filter. *)
Definition list_by_queue (queue : string) (status : option string) (rows : list job_row) :
    list job_row :=
  match status with
  | Some st =>
      if String.eqb st "" then select_by j_updated_at (fun r => String.eqb (j_queue r) queue) rows
      else select_by j_updated_at
             (fun r => String.eqb (j_queue r) queue && String.eqb (j_status r) st) rows
  | None => select_by j_updated_at (fun r => String.eqb (j_queue r) queue) rows
  end.

Definition queue_depth (queue status : string) (rows : list job_row) : nat :=
  length (List.filter (fun r => String.eqb (j_queue r) queue && String.eqb (j_status r) status) rows).

End backend.
