(* ===== verification/ExecutionBackendFacts.v ===== *)
(** * Lifecycles in the durable execution store and the worker queue

    Every row follows the status machine of its table, whatever operations are
    run and in whatever order; what follows for checkpoints, terminal states
    and leases.  Theorems with their witnesses are at the end. *)

From stdpp Require Import base strings list sorting pretty relations.
From Stdlib Require Import ZArith Lia.
From S2P Require Import Prelude Json State ExecutionBackend Samples.
Local Open Scope py_scope.

Lemma find_map_id {R : Type} (key : R -> string) (p : R -> bool) (f : R -> R) id rows :
  (forall r, key (f r) = key r) ->
  List.find (fun r => String.eqb (key r) id) (map (fun r => if p r then f r else r) rows) =
  (fun r => if p r then f r else r) <$> List.find (fun r => String.eqb (key r) id) rows.
Proof.
  intros Hf. induction rows as [|r rows IH]; [done|]. simpl.
  destruct (p r) eqn:Ep; [rewrite Hf|]; destruct (String.eqb (key r) id); simpl; try done;
    by rewrite Ep.
Qed.

Section executions.
Context `{IsoFormat}.
Variable show_set : list string -> string.

Inductive exec_op :=
  | OpCreate (id workflow : string) (payload : dict)
  | OpCheckpoint (id : string) (checkpoint : dict)
  | OpComplete (id : string) (result : pyval)
  | OpFail (id : string) (error : dict).

Definition exec_do (o : exec_op) : M exec_state ExecutionRecord :=
  match o with
  | OpCreate id w p => exec_create id w p
  | OpCheckpoint id c => exec_checkpoint show_set id c
  | OpComplete id r => exec_complete show_set id r
  | OpFail id e => exec_fail show_set id e
  end.

(** One call of a public method, that may raise. *)
Definition exec_step (s s' : exec_state) : Prop := exists o, s' = snd (exec_do o s).

(** What one update may do to a row. *)
Definition exec_row_step (r r' : exec_row) : Prop :=
  x_execution_id r' = x_execution_id r /\ x_workflow_id r' = x_workflow_id r /\
  x_payload r' = x_payload r /\ x_status r' ∈ valid_execution_transitions (x_status r).

Lemma exec_find_update id id' f rows :
  (forall r, x_execution_id (f r) = x_execution_id r) ->
  exec_find id (exec_update id' f rows) =
  (fun r => if String.eqb (x_execution_id r) id' then f r else r) <$> exec_find id rows.
Proof. intros Hf. by apply find_map_id. Qed.

Lemma exec_find_id id rows r : exec_find id rows = Some r -> x_execution_id r = id.
Proof. intros [_ Hk]%List.find_some. by apply String.eqb_eq in Hk. Qed.

(** Every row of the table [rows] is, one step later at most, in [rows']. *)
Definition exec_advance (rows rows' : list exec_row) : Prop :=
  forall id r, exec_find id rows = Some r ->
    exists r', exec_find id rows' = Some r' /\ rtc exec_row_step r r'.

#[local] Instance exec_advance_preorder : PreOrder exec_advance.
Proof.
  split.
  - intros rows id r Hr. by exists r.
  - intros r1 r2 r3 H1 H2 id r Hr. destruct (H1 id r Hr) as (r' & Hr' & Hs).
    destruct (H2 id r' Hr') as (r'' & Hr'' & Hs'). exists r''. split; [done|]. by etransitivity.
Qed.

Lemma exec_advance_update id r f rows :
  (forall r, x_execution_id (f r) = x_execution_id r /\ x_workflow_id (f r) = x_workflow_id r /\
             x_payload (f r) = x_payload r) ->
  exec_find id rows = Some r -> x_status (f r) ∈ valid_execution_transitions (x_status r) ->
  exec_advance rows (exec_update id f rows).
Proof.
  intros Hf Hr Hst id' r' Hr'. rewrite exec_find_update, Hr' by apply Hf. simpl.
  eexists. split; [done|]. destruct (String.eqb_spec (x_execution_id r') id) as [E|]; [|done].
  apply exec_find_id in Hr' as E'. assert (id' = id) as -> by congruence.
  assert (r' = r) as -> by congruence.
  apply rtc_once. destruct (Hf r) as (? & ? & ?). by repeat split.
Qed.

Lemma exec_advance_append rows r : exec_advance rows (rows ++ [r]).
Proof.
  intros id r' Hr'. exists r'. split; [|done]. unfold exec_find in *. by rewrite find_app, Hr'.
Qed.

(** Where a guarded update ends: the table is as before, or one row moved. *)
Lemma exec_set_terminal_advance id target res err s :
  exec_advance (fst s) (fst (snd (exec_set_terminal show_set id target res err s))).
Proof.
  unfold exec_set_terminal, exec_get, validate_execution_transition, now_text, exec_write, raise. mred.
  destruct (exec_find id (fst s)) as [r|] eqn:Er; [|reflexivity].
  cbn [xr_status exec_record]. case_bool_decide as Hin; [|reflexivity].
  destruct (dumps_opt res); [|reflexivity]. destruct (dumps_opt err); [|reflexivity].
  destruct (utc_now _) as [t e]. cbn [fst snd].
  by eapply (exec_advance_update id r).
Qed.

Lemma exec_checkpoint_advance id c s :
  exec_advance (fst s) (fst (snd (exec_checkpoint show_set id c s))).
Proof.
  unfold exec_checkpoint, exec_get, validate_execution_transition, now_text, exec_write, raise. mred.
  destruct (exec_find id (fst s)) as [r|] eqn:Er; [|reflexivity].
  cbn [xr_status exec_record]. case_bool_decide as Hin; [|reflexivity].
  destruct (json_copy _); [|reflexivity]. destruct (utc_now _) as [t e]. cbn [fst snd].
  by eapply (exec_advance_update id r).
Qed.

Lemma exec_create_advance id w p s : exec_advance (fst s) (fst (snd (exec_create id w p s))).
Proof.
  unfold exec_create, now_text, exec_write, exec_get, raise. mred.
  destruct (exec_find id (fst s)); [reflexivity|]. destruct (utc_now _) as [t e]. cbn [fst snd].
  destruct (json_copy _); [|reflexivity]. apply exec_advance_append.
Qed.

Lemma exec_step_advance s s' : exec_step s s' -> exec_advance (fst s) (fst s').
Proof.
  intros [[id w p|id c|id r|id e] ->]; [apply exec_create_advance | apply exec_checkpoint_advance
    | apply exec_set_terminal_advance | apply exec_set_terminal_advance].
Qed.

Lemma exec_run_advance s s' : rtc exec_step s s' -> exec_advance (fst s) (fst s').
Proof. induction 1 as [|a b c Hab _ IH]; [reflexivity|]. etransitivity; [by apply exec_step_advance | done]. Qed.

(** A row whose status has no successor is final. *)
Lemma exec_row_final r r' :
  rtc exec_row_step r r' -> valid_execution_transitions (x_status r) = [] -> r' = r.
Proof.
  intros Hs Hn. destruct Hs as [|a b c (_ & _ & _ & Hst) _]; [done|].
  rewrite Hn in Hst. by apply elem_of_nil in Hst.
Qed.

(** From "running" no path leads back to a status that allows "running". *)
Definition past_ready (st : string) : Prop := st = "running" \/ st = "succeeded" \/ st = "failed".

Lemma past_ready_step r r' : exec_row_step r r' -> past_ready (x_status r) -> past_ready (x_status r').
Proof.
  intros (_ & _ & _ & Hst) [E|[E|E]]; rewrite E in Hst; unfold valid_execution_transitions in Hst;
    simpl in Hst; try by apply elem_of_nil in Hst.
  right. apply elem_of_cons in Hst as [?|Hst]; [by left|].
  apply list_elem_of_singleton in Hst. by right.
Qed.

Lemma past_ready_run r r' : rtc exec_row_step r r' -> past_ready (x_status r) -> past_ready (x_status r').
Proof. induction 1 as [|a b c Hab _ IH]; [done|]. eauto using past_ready_step. Qed.

Lemma exec_checkpoint_ret id c s r s' :
  exec_checkpoint show_set id c s = (Ret r, s') ->
  xr_status r = "running" /\ exists row, exec_find id (fst s') = Some row /\ x_status row = "running" /\
    exec_record row = r.
Proof.
  unfold exec_checkpoint, exec_get, validate_execution_transition, now_text, exec_write, raise. mred.
  destruct (exec_find id (fst s)) as [r0|] eqn:Er; [|done].
  case_bool_decide; [|done]. destruct (json_copy _) as [v|]; [|done].
  destruct (utc_now _) as [t e]. cbn [fst snd].
  pose proof (exec_find_id _ _ _ Er) as Hid. rewrite exec_find_update, Er by done. simpl.
  rewrite Hid, String.eqb_refl. intros E. out_simpl. split; [done|]. eexists.
  cbn [fst]. rewrite exec_find_update, Er by done. simpl. rewrite String.eqb_refl. done.
Qed.
End executions.

Section queue.
Context `{IsoFormat}.

(** The state machine of one job, its lease owner included. *)
Definition job_row_step (r r' : job_row) : Prop :=
  j_job_id r' = j_job_id r /\ j_queue r' = j_queue r /\ j_payload r' = j_payload r /\
  j_status r' ∈ valid_job_transitions (j_status r) /\
  (j_attempts r <= j_attempts r' <= j_attempts r + 1)%Z /\
  (j_status r' = "leased" -> exists w, j_lease_owner r' = Some w) /\
  (j_status r' = "pending" -> j_lease_owner r' = None) /\
  (j_status r = "leased" -> j_status r' <> "pending" -> j_lease_owner r' = j_lease_owner r).

(** A job is owned exactly when it has been leased and not handed back. *)
Definition job_ok (r : job_row) : Prop :=
  j_status r = "pending" /\ j_lease_owner r = None \/
  (j_status r = "leased" \/ j_status r = "completed" \/ j_status r = "failed") /\
  exists w, j_lease_owner r = Some w.

Lemma job_ok_step r r' : job_row_step r r' -> job_ok r -> job_ok r'.
Proof.
  intros (_ & _ & _ & Hst & _ & Hl & Hp & Ho) [[E Eo]|[[E|[E|E]] [w Ew]]];
    rewrite E in Hst; unfold valid_job_transitions in Hst; simpl in Hst;
    try by apply elem_of_nil in Hst.
  - apply list_elem_of_singleton in Hst. right. split; [by left | by apply Hl].
  - apply elem_of_cons in Hst as [Hs|Hst]; [|apply elem_of_cons in Hst as [Hs|Hst]].
    + right. split; [by right; left|]. exists w. rewrite Ho; [done | done | by rewrite Hs].
    + right. split; [by right; right|]. exists w. rewrite Ho; [done | done | by rewrite Hs].
    + apply list_elem_of_singleton in Hst. left. split; [done | by apply Hp].
Qed.

(** One transaction of some client.  [StepClaim] is the second statement of
    [claim] for a row selected at any earlier time. *)
Inductive job_step : job_state -> job_state -> Prop :=
  | step_enqueue id q p s : job_step s (snd (enqueue id q p s))
  | step_claim_finish row w s : job_step s (snd (claim_finish row w s))
  | step_retry id w s : job_step s (snd (retry_job id w s))
  | step_acknowledge id w s : job_step s (snd (acknowledge id w s))
  | step_fail id w s : job_step s (snd (fail_job id w s)).

Lemma job_find_update id p f rows :
  (forall r, j_job_id (f r) = j_job_id r) ->
  job_find id (job_update p f rows) = (fun r => if p r then f r else r) <$> job_find id rows.
Proof. intros Hf. by apply find_map_id. Qed.

Lemma job_find_id id rows r : job_find id rows = Some r -> j_job_id r = id.
Proof. intros [_ Hk]%List.find_some. by apply String.eqb_eq in Hk. Qed.

(** The primary key, and the row invariant. *)
Definition job_ids (rows : list job_row) : list string := j_job_id <$> rows.
Definition job_table_ok (rows : list job_row) : Prop := NoDup (job_ids rows) /\ Forall job_ok rows.

(** From a table with unique identifiers: jobs stay, each follows the state
    machine, and the table stays in order. *)
Definition job_advance (rows rows' : list job_row) : Prop :=
  NoDup (job_ids rows) ->
  NoDup (job_ids rows') /\
  (forall id r, job_find id rows = Some r ->
    exists r', job_find id rows' = Some r' /\ rtc job_row_step r r') /\
  (Forall job_ok rows -> Forall job_ok rows').

#[local] Instance job_advance_preorder : PreOrder job_advance.
Proof.
  split.
  - intros rows Hnd. split; [done|]. split; [|done]. intros id r Hr. by exists r.
  - intros r1 r2 r3 H1 H2 Hnd. destruct (H1 Hnd) as (Hnd2 & Hf & Hk).
    destruct (H2 Hnd2) as (Hnd3 & Hf2 & Hk2). split; [done|]. split; [|auto]. intros id r Hr.
    destruct (Hf id r Hr) as (r' & Hr' & Hs).
    destruct (Hf2 id r' Hr') as (r'' & Hr'' & Hs'). exists r''. split; [done|]. by etransitivity.
Qed.

Lemma unique_row rows id r r0 :
  NoDup (job_ids rows) -> job_find id rows = Some r0 -> r ∈ rows -> j_job_id r = id -> r = r0.
Proof.
  intros Hnd Hf Hin Hid. unfold job_find, job_ids in *.
  induction rows as [|x rows IH]; [by apply elem_of_nil in Hin|].
  rewrite fmap_cons in Hnd. apply NoDup_cons in Hnd as [Hn Hnd]. simpl in Hf.
  destruct (String.eqb_spec (j_job_id x) id) as [E|E].
  - injection Hf as ->. apply elem_of_cons in Hin as [|Hin]; [done|]. exfalso. apply Hn.
    rewrite E, <- Hid. by apply list_elem_of_fmap_2.
  - apply elem_of_cons in Hin as [->|Hin]; [done|]. by apply IH.
Qed.

Lemma job_advance_update p f rows :
  (NoDup (job_ids rows) -> forall r, r ∈ rows -> p r = true -> job_row_step r (f r)) ->
  (forall r, j_job_id (f r) = j_job_id r) ->
  job_advance rows (job_update p f rows).
Proof.
  intros Hf Hid Hnd. specialize (Hf Hnd). split; [|split].
  - unfold job_ids, job_update in *. rewrite <- list_fmap_compose.
    erewrite list_fmap_ext; [exact Hnd|]. intros i r _. simpl. destruct (p r); [apply Hid | done].
  - intros id r Hr. rewrite job_find_update, Hr by done. eexists. split; [done|].
    apply List.find_some in Hr as [Hin _]. apply list_elem_of_In in Hin.
    destruct (p r) eqn:E; [by apply rtc_once, Hf | done].
  - intros Hok. unfold job_update. apply Forall_forall. intros r' Hr'.
    apply list_elem_of_fmap in Hr' as (r & -> & Hin). rewrite Forall_forall in Hok.
    destruct (p r) eqn:E; [|by apply Hok]. eapply job_ok_step; [by apply Hf | by apply Hok].
Qed.

(** The second statement of [claim], for any row it was told. *)
Lemma claim_update_advance id w now rows : job_advance rows (claim_update id w now rows).
Proof.
  apply job_advance_update; [|done]. intros _ r _ [_ Hc]%andb_prop.
  apply andb_prop in Hc as [Hst _]. apply String.eqb_eq in Hst.
  unfold job_row_step. simpl. rewrite Hst. split_and!; try done; try lia; [by left | eauto].
Qed.

(** The updates of [retry], [acknowledge] and [fail_job], after the ownership
    check has seen a leased row. *)
Lemma held_update_advance id w st now att owner rows r0 :
  job_find id rows = Some r0 -> j_status r0 = "leased" ->
  st ∈ ["completed"; "failed"; "pending"] -> (forall r, j_attempts r <= att r <= j_attempts r + 1)%Z ->
  (if decide (st = "pending") then forall r, owner r = None else forall r, owner r = j_lease_owner r) ->
  job_advance rows (job_update (held_by id w)
    (fun r => mkJobRow (j_job_id r) (j_queue r) (j_payload r) (att r) (owner r) st now) rows).
Proof.
  intros Hf Hst Hin Hk Ho. apply job_advance_update; [|done].
  intros Hnd r Hr [Hid%String.eqb_eq _]%andb_prop.
  pose proof (unique_row _ _ _ _ Hnd Hf Hr Hid) as ->.
  unfold job_row_step. simpl. rewrite Hst. destruct (decide (st = "pending")) as [->|Hne].
  - split_and!; try done; try apply Hk; apply Ho.
  - split_and!; try done; try apply Hk.
    intros ->. repeat (apply elem_of_cons in Hin as [?|Hin]; [done|]). by apply elem_of_nil in Hin.
Qed.

Lemma assert_ownership_cases id w s :
  (exists x, assert_ownership id w "leased" s = (Raise x, s)) \/
  (exists r, assert_ownership id w "leased" s = (Ret r, s) /\ job_find id (fst s) = Some r /\
     j_status r = "leased" /\ j_lease_owner r = Some w).
Proof.
  unfold assert_ownership, job_get, raise. mred.
  destruct (job_find id (fst s)) as [r|] eqn:Er; [|by left; eexists].
  unfold owner_is. case_bool_decide as Ho; cbn [negb]; [|by left; eexists].
  destruct (String.eqb_spec (j_status r) "leased") as [Es|]; cbn [negb]; [|by left; eexists].
  right. by exists r.
Qed.

Lemma job_step_advance s s' : job_step s s' -> job_advance (fst s) (fst s').
Proof.
  intros [id q p st|row w st|id w st|id w st|id w st].
  - unfold enqueue, job_write, job_get, now_text, raise. mred.
    destruct (job_find id (fst st)) as [r|] eqn:Er; [reflexivity|].
    destruct (utc_now _) as [t e]. cbn [fst snd]. destruct (json_copy _) as [v|]; [|reflexivity].
    cbn [fst snd]. intros Hnd. split; [|split].
    + unfold job_ids in *. rewrite fmap_app. apply NoDup_app. split; [done|].
      split; [|apply NoDup_singleton]. intros k Hk ->%list_elem_of_singleton. simpl in Hk.
      apply list_elem_of_fmap in Hk as (r & Hid & Hin). apply list_elem_of_In in Hin.
      pose proof (List.find_none _ _ Er _ Hin) as Hn. simpl in Hn.
      by rewrite <- Hid, String.eqb_refl in Hn.
    + intros id' r Hr. exists r. split; [|done]. unfold job_find in *. by rewrite find_app, Hr.
    + intros Hok. apply Forall_app. split; [done|]. constructor; [by left | constructor].
  - unfold claim_finish. destruct row as [r|]; [|reflexivity].
    unfold now_text, job_write, job_get. mred. destruct (utc_now _) as [t e]. cbn [fst snd].
    destruct (job_find _ _); apply claim_update_advance.
  - unfold retry_job. destruct (assert_ownership_cases id w st) as [[x E]|(r & E & Hf & Hst & _)].
    { rewrite (bind_raise _ _ _ _ _ E). reflexivity. }
    rewrite (bind_ret_intro _ _ _ _ _ E). unfold now_text, job_write, job_get. mred.
    destruct (utc_now _) as [t e]. cbn [fst snd].
    eapply (held_update_advance id w "pending" (isoformat t) (fun r => j_attempts r + 1)%Z
      (fun _ => None)); try done; [do 2 right; left | intros; lia].
  - unfold acknowledge. destruct (assert_ownership_cases id w st) as [[x E]|(r & E & Hf & Hst & _)].
    { rewrite (bind_raise _ _ _ _ _ E). reflexivity. }
    rewrite (bind_ret_intro _ _ _ _ _ E). unfold now_text, job_write, job_get. mred.
    destruct (utc_now _) as [t e]. cbn [fst snd].
    eapply (held_update_advance id w "completed" (isoformat t) j_attempts j_lease_owner); try done;
      [left | intros; lia].
  - unfold fail_job. destruct (assert_ownership_cases id w st) as [[x E]|(r & E & Hf & Hst & _)].
    { rewrite (bind_raise _ _ _ _ _ E). reflexivity. }
    rewrite (bind_ret_intro _ _ _ _ _ E). unfold now_text, job_write, job_get. mred.
    destruct (utc_now _) as [t e]. cbn [fst snd].
    eapply (held_update_advance id w "failed" (isoformat t) (fun r => j_attempts r + 1)%Z
      j_lease_owner); try done; [right; left | intros; lia].
Qed.

Lemma job_run_advance s s' : rtc job_step s s' -> job_advance (fst s) (fst s').
Proof.
  induction 1 as [|a b c Hab _ IH]; [reflexivity|]. etransitivity; [by apply job_step_advance | done].
Qed.
End queue.

(** ** Claims *)

Section claims.
Context `{IsoFormat}.

#[export] Instance job_le_trans : Transitive job_le.
Proof.
  intros a b c [[N1 H1]|[E1 H1]] [[N2 H2]|[E2 H2]].
  - left. split; [|by etransitivity]. intros E. apply N1. apply str_le_antisym; [done|]. by rewrite E.
  - left. rewrite <- E2. done.
  - left. rewrite E1. done.
  - right. split; [congruence | by etransitivity].
Qed.

#[export] Instance job_le_total : Total job_le.
Proof.
  intros a b. unfold job_le. destruct (decide (j_updated_at a = j_updated_at b)) as [E|N].
  - destruct (str_le_total (j_job_id a) (j_job_id b)); [left | right]; by right.
  - destruct (str_le_total (j_updated_at a) (j_updated_at b)); [left | right]; left; by split; [intros ?|].
Qed.

Lemma claim_select_elem queue rows r :
  r ∈ merge_sort job_le (List.filter (fun r => String.eqb (j_queue r) queue && claimable r) rows) <->
  r ∈ rows /\ j_queue r = queue /\ claimable r = true.
Proof.
  rewrite merge_sort_Permutation, list_elem_of_In, filter_In, andb_true_iff, String.eqb_eq.
  by rewrite list_elem_of_In.
Qed.

Lemma claim_select_spec queue rows r :
  claim_select queue rows = Some r ->
  r ∈ rows /\ j_queue r = queue /\ claimable r = true /\
  forall r2, r2 ∈ rows -> j_queue r2 = queue -> claimable r2 = true -> job_le r r2.
Proof.
  unfold claim_select. pose proof (claim_select_elem queue rows) as Hel.
  set (l := merge_sort _ _) in *. assert (StronglySorted job_le l) as Hs.
  { apply StronglySorted_merge_sort; apply _. }
  destruct l as [|x l]; [done|]. intros [= ->].
  destruct (proj1 (Hel r)) as (? & ? & ?); [by left|]. split_and!; try done.
  intros r2 A1 A2 A3. assert (r2 ∈ r :: l) as Hin by by apply Hel.
  apply elem_of_cons in Hin as [->|Hin].
  - right. split; [done|]. destruct (str_le_total (j_job_id r) (j_job_id r)); done.
  - inversion Hs as [|? ? _ Hall]; subst. rewrite Forall_forall in Hall. by apply Hall.
Qed.

Lemma claim_select_none queue rows :
  claim_select queue rows = None -> forall r, r ∈ rows -> j_queue r = queue -> claimable r = false.
Proof.
  unfold claim_select. pose proof (claim_select_elem queue rows) as Hel.
  set (l := merge_sort _ _) in *. destruct l as [|x l]; [|done]. intros _ r H1 H2.
  destruct (claimable r) eqn:E; [|done]. assert (r ∈ ([] : list job_row)) as Hin by by apply Hel.
  by apply elem_of_nil in Hin.
Qed.

Lemma job_find_elem rows r : NoDup (job_ids rows) -> r ∈ rows -> job_find (j_job_id r) rows = Some r.
Proof.
  intros Hnd Hin. destruct (job_find (j_job_id r) rows) as [r0|] eqn:E.
  - f_equal. symmetry. by eapply unique_row.
  - pose proof (List.find_none _ _ E r) as Hn. simpl in Hn. rewrite String.eqb_refl in Hn.
    apply list_elem_of_In, Hn in Hin. done.
Qed.

(** The second statement on a row that is still claimable. *)
Lemma claim_finish_leases r worker (s : job_state) :
  NoDup (job_ids (fst s)) -> r ∈ fst s -> claimable r = true ->
  exists j s', claim_finish (Some r) worker s = (Ret (Some j), s') /\
    j_job_id j = j_job_id r /\ j_status j = "leased" /\ j_lease_owner j = Some worker /\
    forall id, id <> j_job_id r -> job_find id (fst s') = job_find id (fst s).
Proof.
  intros Hnd Hin Hc. pose proof (job_find_elem _ _ Hnd Hin) as Hf.
  unfold claim_finish, now_text, job_write, job_get. mred. destruct (utc_now _) as [t e]. cbn [fst snd].
  unfold claim_update. rewrite job_find_update, Hf by done. simpl. rewrite String.eqb_refl, Hc. simpl.
  do 2 eexists. split; [done|]. simpl. split_and!; try done. intros id Hne.
  rewrite job_find_update by done. destruct (job_find id (fst s)) as [r2|] eqn:E2; [|done]. simpl.
  apply job_find_id in E2. by rewrite (proj2 (String.eqb_neq (j_job_id r2) (j_job_id r))) by congruence.
Qed.

Lemma claim_finish_find r worker (s s' : job_state) j :
  claim_finish (Some r) worker s = (Ret (Some j), s') -> job_find (j_job_id r) (fst s') = Some j.
Proof.
  unfold claim_finish. intros E. apply bind_ret_inv in E as (? & s1 & _ & E).
  apply bind_ret_inv in E as (? & s2 & _ & E). apply bind_ret_inv in E as (j0 & s3 & E3 & E).
  apply ret_inv in E as [[= ->] ->]. unfold job_get in E3. injection E3 as E3 <-.
  destruct (job_find _ _); [by injection E3 as -> | done].
Qed.

(** The second statement on a row that has been leased in the meantime. *)
Lemma claim_finish_missed r worker (s : job_state) j :
  job_find (j_job_id r) (fst s) = Some j -> claimable j = false ->
  exists s', claim_finish (Some r) worker s = (Ret (Some j), s').
Proof.
  intros Hf Hc. unfold claim_finish, now_text, job_write, job_get. mred.
  destruct (utc_now _) as [t e]. cbn [fst snd]. unfold claim_update.
  rewrite job_find_update, Hf by done. simpl. rewrite Hc, andb_false_r. by eexists.
Qed.
End claims.
