(* ===== verification/BackendTheorems.v ===== *)
(** * Theorems on the durable execution store and the worker queue *)

From stdpp Require Import base strings list sorting pretty relations.
From Stdlib Require Import ZArith Lia.
From S2P Require Import Prelude Json State ExecutionBackend Samples ExecutionBackendFacts.
Local Open Scope py_scope.

(** ** Executions *)

Section theorems.
Context `{IsoFormat}.
Variable show_set : list string -> string.

(** Whatever calls are made on the execution store, in whatever order, an
    execution is never lost, keeps its workflow and payload, and its status
    moves only along ready, running, then succeeded or failed; a record that
    has succeeded or failed never changes again. *)
Theorem execution_lifecycle (s s' : exec_state) (id : string) (r : exec_row) :
  rtc (exec_step show_set) s s' -> exec_find id (fst s) = Some r ->
  exists r', exec_find id (fst s') = Some r' /\ rtc exec_row_step r r' /\
    x_workflow_id r' = x_workflow_id r /\ x_payload r' = x_payload r /\
    (x_status r = "succeeded" \/ x_status r = "failed" -> r' = r).
Proof.
  intros Hrun Hr. destruct (exec_run_advance _ _ _ Hrun id r Hr) as (r' & Hr' & Hs).
  exists r'. split; [done|]. split; [done|].
  assert (x_workflow_id r' = x_workflow_id r /\ x_payload r' = x_payload r) as [? ?].
  { clear -Hs. induction Hs as [|a b c (_ & E1 & E2 & _) _ [E3 E4]]; [done|]. split; congruence. }
  split_and!; try done. intros Hst. eapply exec_row_final; [exact Hs|].
  by destruct Hst as [-> | ->].
Qed.

(** The store accepts one checkpoint per execution: after a checkpoint has
    been written, every later [checkpoint] call for it raises, whatever
    happened in between, because "running" may not be entered twice. *)
Theorem execution_checkpointed_once (id : string) (c c2 : dict) (s s' s2 : exec_state)
    (r : ExecutionRecord) :
  exec_checkpoint show_set id c s = (Ret r, s') -> rtc (exec_step show_set) s' s2 ->
  exists x, fst (exec_checkpoint show_set id c2 s2) = Raise x /\
            exn_cls x = InvalidStatusTransitionError.
Proof.
  intros Hc Hrun. apply exec_checkpoint_ret in Hc as (_ & row & Hrow & Hst & _).
  destruct (exec_run_advance _ _ _ Hrun id row Hrow) as (row' & Hrow' & Hs).
  apply past_ready_run in Hs; [|by left].
  unfold exec_checkpoint, exec_get, validate_execution_transition, raise. mred. rewrite Hrow'.
  cbn [xr_status exec_record]. rewrite bool_decide_eq_false_2; [by eexists|].
  destruct Hs as [-> |[-> | ->]]; unfold valid_execution_transitions; simpl;
    rewrite ?elem_of_cons; intros Hin; try by apply elem_of_nil in Hin.
  destruct Hin as [?|[?|Hin]]; try done. by apply elem_of_nil in Hin.
Qed.

(** ** Jobs *)

(** Under any interleaving of the queue's transactions, the second half of
    a claim with an outdated selection included, job identifiers stay unique, a
    job is unowned exactly while it is pending, no job is lost, every job
    follows pending, leased, then completed, failed or pending again, and its
    attempt counter never decreases; completed and failed jobs are final. *)
Theorem queue_state_machine (s s' : job_state) :
  rtc job_step s s' -> job_table_ok (fst s) ->
  job_table_ok (fst s') /\
  forall id r, job_find id (fst s) = Some r ->
    exists r', job_find id (fst s') = Some r' /\ rtc job_row_step r r' /\
      (j_attempts r <= j_attempts r')%Z /\
      (j_status r = "completed" \/ j_status r = "failed" -> r' = r).
Proof.
  intros Hrun [Hnd Hok]. destruct (job_run_advance _ _ Hrun Hnd) as (Hnd' & Hf & Hok').
  split; [by split; [|apply Hok']|]. intros id r Hr. destruct (Hf id r Hr) as (r' & Hr' & Hs).
  exists r'. split; [done|]. split; [done|]. split.
  - clear -Hs. induction Hs as [|a b c (_ & _ & _ & _ & Ha & _) _ IH]; lia.
  - intros Hst. destruct Hs as [|a b c (_ & _ & _ & Hin & _) _]; [done|].
    destruct Hst as [E|E]; rewrite E in Hin; by apply elem_of_nil in Hin.
Qed.

(** Only the owner of a lease moves the job: for anyone else [retry],
    [acknowledge] and [fail_job] raise and change nothing. *)
Theorem job_ownership_enforced (id worker : string) (s : job_state) :
  (forall r, job_find id (fst s) = Some r -> j_lease_owner r <> Some worker) ->
  exists x, (retry_job id worker s = (Raise x, s) /\ acknowledge id worker s = (Raise x, s) /\
             fail_job id worker s = (Raise x, s)) /\
    (exn_cls x = JobNotFoundError \/ exn_cls x = JobOwnershipError).
Proof.
  intros Hn.
  assert (exists x, assert_ownership id worker "leased" s = (Raise x, s) /\
    (exn_cls x = JobNotFoundError \/ exn_cls x = JobOwnershipError)) as (x & E & Hx).
  { unfold assert_ownership, job_get, raise. mred.
    destruct (job_find id (fst s)) as [r|] eqn:Er; [|eexists; split; [done | by left]].
    unfold owner_is. rewrite bool_decide_eq_false_2 by (by apply Hn). cbn [negb].
    eexists. split; [done | by right]. }
  exists x. split; [|done]. unfold retry_job, acknowledge, fail_job.
  by rewrite !(bind_raise _ _ _ _ _ E).
Qed.

(** A claim that no one interferes with takes the oldest pending job of the
    queue, and only that one: it answers [None] exactly when the queue has no
    claimable job, and otherwise leases to the worker a job that comes first by
    time of update and then by identifier. *)
Theorem claim_takes_oldest (queue worker : string) (s : job_state) :
  NoDup (job_ids (fst s)) ->
  match fst (claim_job queue worker s) with
  | Ret None => forall r, r ∈ fst s -> j_queue r = queue -> claimable r = false
  | Ret (Some j) => exists r, r ∈ fst s /\ j_queue r = queue /\ claimable r = true /\
      (forall r2, r2 ∈ fst s -> j_queue r2 = queue -> claimable r2 = true -> job_le r r2) /\
      j_job_id j = j_job_id r /\ j_status j = "leased" /\ j_lease_owner j = Some worker /\
      forall id, id <> j_job_id r ->
        job_find id (fst (snd (claim_job queue worker s))) = job_find id (fst s)
  | Raise _ => False
  end.
Proof.
  intros Hnd. unfold claim_job. rewrite (bind_ret_intro get _ s s s) by done.
  destruct (claim_select queue (fst s)) as [r|] eqn:Es.
  - destruct (claim_select_spec _ _ _ Es) as (Hin & Hq & Hc & Hmin).
    destruct (claim_finish_leases r worker s Hnd Hin Hc) as (j & s' & E & Hj).
    rewrite E. cbn [fst snd]. exists r. tauto.
  - simpl. by apply claim_select_none.
Qed.

(** Two workers that select the same job before either updates it, as two
    processes may because [claim] reads before its transaction begins, both
    return from [claim] with that job: the first one owns it, and the second
    one is handed a job leased to the first, since [claim] does not look at the
    number of rows its update changed. *)
Theorem claim_race_double_delivery (queue w1 w2 : string) (r : job_row) (s : job_state) :
  NoDup (job_ids (fst s)) -> claim_select queue (fst s) = Some r -> w1 <> w2 ->
  exists j s1 s2, claim_finish (Some r) w1 s = (Ret (Some j), s1) /\
    claim_finish (Some r) w2 s1 = (Ret (Some j), s2) /\
    j_lease_owner j = Some w1 /\ j_status j = "leased".
Proof.
  intros Hnd Hs Hne. destruct (claim_select_spec _ _ _ Hs) as (Hin & _ & Hc & _).
  destruct (claim_finish_leases r w1 s Hnd Hin Hc) as (j & s1 & E & Hid & Hst & Ho & _).
  exists j, s1. pose proof (claim_finish_find r w1 s s1 j E) as Hf.
  destruct (claim_finish_missed r w2 s1 j Hf) as [s2 E2].
  { unfold claimable. by rewrite Hst. }
  exists s2. by split_and!.
Qed.
End theorems.

(** ** Witnesses *)

Definition show_names (l : list string) : string := join ", " l.

Definition stored_execution : exec_row :=
  mkExecRow "e1" "wf" "succeeded" (VDict []) (Some (VInt 1)) None None "+".

Lemma execution_lifecycle_witness :
  exists r', exec_find "e1" (fst (snd (exec_fail show_names "e1" [] ([stored_execution], sample_env))))
    = Some r' /\ r' = stored_execution.
Proof.
  destruct (execution_lifecycle show_names ([stored_execution], sample_env)
    (snd (exec_fail show_names "e1" [] ([stored_execution], sample_env))) "e1" stored_execution)
    as (r' & Hr & _ & _ & _ & Hf).
  - apply rtc_once. exists (OpFail "e1" []). reflexivity.
  - reflexivity.
  - exists r'. split; [exact Hr | apply Hf; left; reflexivity].
Defined.

Definition ready_execution : exec_state :=
  ([mkExecRow "e1" "wf" "ready" (VDict []) None None None "+"], sample_env).

Lemma execution_checkpointed_once_witness :
  exists r s', exec_checkpoint show_names "e1" [] ready_execution = (Ret r, s') /\
  exists x, fst (exec_checkpoint show_names "e1" [] s') = Raise x /\
            exn_cls x = InvalidStatusTransitionError.
Proof.
  destruct (exec_checkpoint show_names "e1" [] ready_execution) as [[r|x] s'] eqn:E;
    [|vm_compute in E; discriminate E].
  exists r, s'. split; [reflexivity|].
  apply (execution_checkpointed_once show_names "e1" [] [] ready_execution s' s' r E). constructor.
Defined.

Definition waiting_job (id : string) : job_row := mkJobRow id "q" (VDict []) 0 None "pending" "+".
Definition sample_queue : job_state := ([waiting_job "j1"; waiting_job "j2"], sample_env).

Lemma sample_queue_unique : NoDup (job_ids (fst sample_queue)).
Proof. apply (bool_decide_unpack _). vm_compute. exact I. Qed.

Lemma queue_state_machine_witness :
  job_table_ok (fst (snd (claim_finish (Some (waiting_job "j1")) "w" sample_queue))).
Proof.
  apply (queue_state_machine sample_queue); [apply rtc_once; constructor|].
  split; [exact sample_queue_unique|].
  repeat constructor; left; split; reflexivity.
Defined.

Lemma job_ownership_enforced_witness :
  exists x, retry_job "j1" "w" sample_queue = (Raise x, sample_queue) /\
    (exn_cls x = JobNotFoundError \/ exn_cls x = JobOwnershipError).
Proof.
  destruct (job_ownership_enforced "j1" "w" sample_queue) as (x & (E & _ & _) & Hx).
  - intros r Hr. vm_compute in Hr. injection Hr as <-. discriminate.
  - exists x. split; [exact E | exact Hx].
Defined.

Lemma claim_takes_oldest_witness :
  match fst (claim_job "q" "w" sample_queue) with
  | Ret (Some j) => j_status j = "leased"
  | _ => False
  end.
Proof.
  pose proof (claim_takes_oldest "q" "w" sample_queue sample_queue_unique) as H.
  destruct (fst (claim_job "q" "w" sample_queue)) as [[j|]|x] eqn:E;
    [| vm_compute in E; discriminate E | vm_compute in E; discriminate E].
  destruct H as (r & _ & _ & _ & _ & _ & Hst & _). exact Hst.
Defined.

Lemma claim_race_double_delivery_witness :
  exists j s1 s2, claim_finish (Some (waiting_job "j1")) "w1" sample_queue = (Ret (Some j), s1) /\
    claim_finish (Some (waiting_job "j1")) "w2" s1 = (Ret (Some j), s2) /\
    j_lease_owner j = Some "w1" /\ j_status j = "leased".
Proof.
  apply (claim_race_double_delivery "q" "w1" "w2" (waiting_job "j1") sample_queue);
    [exact sample_queue_unique | vm_compute; reflexivity | discriminate].
Defined.
