(* ===== verification/Supervisor.v ===== *)
(** * The supervisor: [ois/kernel/supervisor.py]

    [Supervisor] sits above the runtime and the orchestrator: it selects the
    agent of a capability, delegates a direct invocation or a plan, decides the
    next supervision action and inspects a failure. *)

From stdpp Require Import base gmap strings list.
From Stdlib Require Import ZArith Lia.
From S2P Require Import Prelude Uuid Json Types State Recovery Policy Planning Stores Registry.
From S2P Require Import Fencing Runtime Orchestrator.
Local Open Scope py_scope.

(** ** Decisions *)

Inductive SupervisionAction := EXECUTE | COMPLETE | RETRY | REPLAN | ESCALATE | STOP.

#[export] Instance SupervisionAction_eq_dec : EqDecision SupervisionAction.
Proof. solve_decision. Defined.

Definition SupervisionAction_value (a : SupervisionAction) : string :=
  match a with
  | EXECUTE => "execute" | COMPLETE => "complete" | RETRY => "retry" | REPLAN => "replan"
  | ESCALATE => "escalate" | STOP => "stop"
  end.

#[export, program] Instance SupervisionAction_enum : StrEnum SupervisionAction := {|
  enum_value := SupervisionAction_value;
  enum_members := [EXECUTE; COMPLETE; RETRY; REPLAN; ESCALATE; STOP] |}.
Next Obligation. by intros []. Qed.

Record SupervisionRequest := mkSupervision {
  sr_objective : string;
  sr_plan_validated : bool;
  sr_authorized : bool;
  sr_status : string;
  sr_failure : option failure_ref;
  sr_retry_allowed : bool;
  sr_recovery_allowed : bool;
  sr_approval_required : bool;
  sr_approval_granted : bool }.

(** The arguments [decide] takes when it is given no request. *)
Definition default_supervision : SupervisionRequest :=
  mkSupervision "objective" true true "pending" None false false false false.

Record SupervisionDecision := mkSupervisionDecision {
  sd_action : string;
  sd_reason : string;
  sd_terminal : bool }.

#[export] Instance SupervisionDecision_eq_dec : EqDecision SupervisionDecision.
Proof. solve_decision. Defined.

(** [request.status in {...}] *)
Definition finished_status (s : string) : bool :=
  String.eqb s "completed" || String.eqb s "success" || String.eqb s "succeeded".

(** [failure_value == text] *)
Definition failure_is (text : string) (o : option failure_ref) : bool :=
  match o with Some f => String.eqb (failure_text f) text | None => false end.

Definition decide_request (request : SupervisionRequest) : SupervisionDecision :=
  if blank (sr_objective request) then
    mkSupervisionDecision "stop" "objective is required" true
  else if sr_approval_required request && negb (sr_approval_granted request) then
    mkSupervisionDecision "escalate" "human approval is required before execution" false
  else if negb (sr_authorized request) then
    mkSupervisionDecision "escalate" "authorization is not granted by the execution boundary" false
  else if negb (sr_plan_validated request) then
    mkSupervisionDecision "replan" "execution plan has not passed validation" false
  else if finished_status (sr_status request) then
    mkSupervisionDecision "complete" "execution completed successfully" true
  else if failure_is "safety" (sr_failure request) then
    mkSupervisionDecision "stop" "safety failures terminate execution" true
  else if failure_is "permission" (sr_failure request) then
    mkSupervisionDecision "escalate" "permission failures require escalation" false
  else if failure_is "plan" (sr_failure request) then
    mkSupervisionDecision "replan" "plan failure requires a new executable plan" false
  else if sr_retry_allowed request then
    mkSupervisionDecision "retry" "bounded retry is permitted by recovery policy" false
  else if sr_recovery_allowed request then
    mkSupervisionDecision "replan" "bounded recovery is permitted; replan before continuing" false
  else match sr_failure request with
  | Some f => mkSupervisionDecision "escalate"
                ("failure " +:+ failure_text f +:+ " has no safe automatic action") false
  | None => mkSupervisionDecision "execute" "plan is authorized and ready" false
  end.

(** [decide(request)] and [decide()] *)
Definition decide (request : option SupervisionRequest) : SupervisionDecision :=
  decide_request (default default_supervision request).

(** [inspect(context)] *)
Definition inspect (p : RecoveryPolicy) (c : ExecutionContext) : SupervisionDecision :=
  match last_failure c with
  | None => mkSupervisionDecision "continue" "No failure is recorded." false
  | Some f =>
      let d := classify p f c in
      mkSupervisionDecision (rd_action d) (rd_reason d) (rd_terminal d)
  end.

(** ** Delegation *)

Section supervisor.
Context {ES CS IS : Type} `{!EvidenceStore ES} `{!CheckpointStore CS} `{!IdempotencyStore IS}.
Context {IF : IsoFormat}.

(** The collaborators of the constructor.  The orchestrator is given by its
    runtime and the interpreter frames its validation may use. *)
Record Supervisor := mkSupervisor {
  sv_runtime : option Runtime;
  sv_agents : option (list (CapabilityEntry Capability));
  sv_orchestrator : option (Runtime * nat);
  sv_recovery : RecoveryPolicy;
  sv_policy : InvocationRequest -> CapabilityContract -> outcome bool;
  sv_keeps_evidence : bool;
  sv_availability : option (CapabilityEntry Capability -> bool);
  sv_telemetry : bool }.

(** The evidence ledger of the supervisor and the environment. *)
Record SelState := mkSel { sel_evidence : ES; sel_env : Env }.

(** [_record_selection_evidence] *)
Definition record_selection_evidence (sv : Supervisor) (c : ExecutionContext) (ty cap v : string)
    (reason : string) : M SelState unit := fun s =>
  if sv_keeps_evidence sv then
    let '(o, e) := record_event (execution_id (identity c)) ty
                     [("capability_id", VStr cap); ("version", VStr v); ("reason", VStr reason)]
                     (sel_env s) (sel_evidence s) in
    match o with
    | Ret ev => (Ret tt, mkSel ev e)
    | Raise x => (Raise x, mkSel (sel_evidence s) e)
    end
  else (Ret tt, s).

(** [context or ExecutionContext(identity=ExecutionIdentity(), ...)]; the
    default factories draw the identifier and read the clock twice. *)
Definition selection_context (o : option ExecutionContext) (cap v : string) :
    M SelState ExecutionContext := fun s =>
  match o with
  | Some c => (Ret c, s)
  | None =>
      let '(i, e) := uuid4 (sel_env s) in
      let '(t1, e) := utc_now e in
      let '(t2, e) := utc_now e in
      (Ret (new_context (mkIdentity i "default" None None)
              ("Agent selection for " +:+ cap +:+ "@" +:+ v) t1 t2),
       mkSel (sel_evidence s) e)
  end.

Definition select_agent (sv : Supervisor) (cap v : string) (context : option ExecutionContext)
    (input : option dict) (inv : string) : M SelState (CapabilityEntry Capability) :=
  match sv_agents sv with
  | None => lift (raise AgentSelectionError "agent_registry is required for agent selection")
  | Some agents =>
      if blank cap then
        lift (raise AgentSelectionError "capability_id is required for agent selection")
      else if blank v then
        lift (raise AgentSelectionError "version is required for agent selection")
      else
        c <- selection_context context cap v ;;
        let rq := mkRequest inv cap (default [] input) c None 0 None in
        d <- try_except
               (lift (route (sv_policy sv) (sv_availability sv) rq cap v agents))
               is_agent_routing_error
               (fun x =>
                  record_selection_evidence sv c "agent.selection.rejected" cap v (exn_msg x) ;;;
                  lift (raise AgentSelectionError (exn_msg x))) ;;
        record_selection_evidence sv c "agent.selection.selected" cap v (ard_reason d) ;;;
        ret (ard_selected d)
  end.

(** What the runtime and the orchestrator work on, and the executions the
    telemetry counted: workflow and final span status. *)
Record SupState := mkSup {
  su_orch : OrchState ES CS IS;
  su_executions : list (string * string) }.

Definition on_orch {A} (m : M (OrchState ES CS IS) A) : M SupState A := fun s =>
  let '(o, r) := m (su_orch s) in (o, mkSup r (su_executions s)).

(** [with self.telemetry.track_execution(..., workflow): m] *)
Definition track_execution {A} (workflow : string) (m : M SupState A) : M SupState A := fun s =>
  let '(o, s) := m s in
  let span := match o with Ret _ => "success" | Raise _ => "error" end in
  (o, mkSup (su_orch s) (su_executions s ++ [(workflow, span)])).

(** [_execute_plan]: [None] when the fuel runs out. *)
Definition sv_execute_plan (sv : Supervisor) (rt : Runtime) (frames retries rounds : nat) :
    M SupState (option unit) := fun s =>
  let c := rs_context (os_run (su_orch s)) in
  let m := on_orch (execute_plan rt frames retries rounds) in
  (if sv_telemetry sv
   then track_execution (str_or (workflow_id (identity c)) "unknown") m
   else m) s.

(** [_execute_direct]; [with_context] tells whether a context was passed. *)
Definition sv_execute_direct (sv : Supervisor) (rt : Runtime) (with_context : bool)
    (cap v : string) (input : dict) (inv : string) : M SupState InvocationResult := fun s =>
  let c := rs_context (os_run (su_orch s)) in
  let m := if with_context
           then on_orch (on_run (execute rt None cap v input (Some inv) None))
           else lift (raise AttributeError "'NoneType' object has no attribute 'status'") in
  (if sv_telemetry sv && with_context
   then track_execution (str_or (workflow_id (identity c)) cap) m
   else m) s.

(** The result of a direct request that is refused before the runtime. *)
Definition supervisor_refusal (inv cap message : string) : InvocationResult :=
  simple_result inv cap INV_FAILED VNone
    (Some [("type", VStr "SupervisorValidationError"); ("message", VStr message);
           ("failure_class", VStr "validation"); ("recovery_action", VStr "stop")]).

(** [execute] returns the plan of the orchestrator or an invocation result. *)
Inductive SupervisorResult :=
  | PlanResult (p : ExecutionPlan)
  | DirectResult (r : InvocationResult).

Definition sv_execute (sv : Supervisor) (retries rounds : nat) (with_plan with_context : bool)
    (objective cap v : option string) (input : option dict) (inv : option string) :
    M SupState (option SupervisorResult) :=
  if with_plan then
    match sv_orchestrator sv with
    | None => lift (raise SupervisorError "orchestrator is required for plan execution")
    | Some (rt, frames) =>
        if with_context then
          o <- sv_execute_plan sv rt frames retries rounds ;;
          s <- get ;;
          ret (match o with
               | Some _ => Some (PlanResult (os_plan (su_orch s)))
               | None => None
               end)
        else lift (raise SupervisorError "context is required for plan execution")
    end
  else match sv_runtime sv with
  | None => lift (raise SupervisorError "runtime is required for direct execution")
  | Some rt =>
      let objective := default "" objective in
      let cap := default "" cap in
      let v := default "" v in
      let input := default [] input in
      let inv := default "" inv in
      if blank objective then
        ret (Some (DirectResult (supervisor_refusal inv cap "objective is required")))
      else if blank cap then
        ret (Some (DirectResult (supervisor_refusal inv cap "capability_id is required")))
      else
        r <- sv_execute_direct sv rt with_context cap v input inv ;;
        ret (Some (DirectResult r))
  end.

(** ** Facts *)

(** The context whose identity the evidence of a selection names. *)
Lemma selection_context_ret o cap v s :
  exists c s', selection_context o cap v s = (Ret c, s') /\ sel_evidence s' = sel_evidence s /\
    (forall c0, o = Some c0 -> c = c0 /\ s' = s).
Proof.
  destruct o as [c|]; simpl.
  - exists c, s. split_and!; try done. intros c0 [= ->]. done.
  - eexists _, _. split_and!; [done | done | intros ? [=]].
Qed.

End supervisor.

Arguments Supervisor : clear implicits.
Arguments SelState : clear implicits.
Arguments SupState : clear implicits.
