(* ===== verification/Integrated.v ===== *)
(** * The integrated execution seam: [ois/control_plane/]

    [ControlPlane.resolve_capability] ([controller.py]) finds what to call for a
    request, and [IntegratedExecution] ([execution.py]) runs a registered
    capability as a one-task plan of the orchestrator, asking the supervisor and
    the recovery policy what to do after a failure.  The facts below: what one
    round of recovery does to the context and the plan, and why the loop ends. *)

From stdpp Require Import base gmap strings list relations.
From Stdlib Require Import ZArith Lia.
From S2P Require Import Prelude Uuid Json Types State Recovery Policy Planning Stores.
From S2P Require Import Registry Fencing Runtime RuntimeFacts RuntimeRuns Orchestrator OrchestratorFacts OrchestratorRuns Supervisor.
Local Open Scope py_scope.

Record ControlRequest := mkControlRequest {
  cr_capability_id : string;
  cr_capability_version : string;
  cr_input : dict }.

(** ** Resolution

    What a registered object offers to the control plane: it is callable, or
    has a callable [invoke] or [execute]. *)

Record Callables := mkCallables {
  is_callable : bool; has_invoke : bool; has_execute : bool }.

Inductive ResolvedCall := CallObject | CallInvoke | CallExecute.

(** The choice among the callables of the candidate. *)
Definition resolved_call (c : Callables) : option ResolvedCall :=
  if is_callable c then Some CallObject
  else if has_invoke c then Some CallInvoke
  else if has_execute c then Some CallExecute
  else None.

(** [resolve_capability] on a registry with [get]. *)
Definition resolve_capability {C} (callables : C -> Callables) (r : ControlRequest)
    (registry : list (CapabilityEntry C)) : outcome (C * ResolvedCall) :=
  entry <-? get_entry (cr_capability_id r) (cr_capability_version r) registry ;;
  match resolved_call (callables (ce_capability entry)) with
  | Some k => Ret (ce_capability entry, k)
  | None => raise TypeError ("registered capability is not callable: " +:+
                             cr_capability_id r +:+ "@" +:+ cr_capability_version r)
  end.

(** A [Capability] of the kernel has an [invoke] and nothing else. *)
Definition capability_callables (_ : Capability) : Callables := mkCallables false true false.

(** ** [IntegratedExecution] *)

(** The class of the failure a failed task reports. *)
Definition task_failure (t : TaskNode) : FailureClass :=
  match dget "failure_class" (default [] (task_error t)) with
  | Some (VStr s) => default UNKNOWN (enum_lookup s)
  | _ => UNKNOWN
  end.

(** [next((task for task in plan.tasks.values() if ... FAILED), None)]: the
    first failed task with the key it is stored under. *)
Definition first_failed (p : ExecutionPlan) : option (string * TaskNode) :=
  List.find (fun kt => bool_decide (task_status (snd kt) = T_FAILED)) (tasks p).

Section integrated.
Context {ES CS IS : Type} `{!EvidenceStore ES} `{!CheckpointStore CS} `{!IdempotencyStore IS}.
Context {IF : IsoFormat}.

(** The runtime, the interpreter frames for plan validation, the recovery
    policy of the seam and the registry of the control plane. *)
Variable rt : Runtime.
Variable frames : nat.
Variable recovery : RecoveryPolicy.
Variable registry : list (CapabilityEntry Capability).

Abbreviation St := (OrchState ES CS IS).

Definition build_single_capability_plan (objective : string) (r : ControlRequest) :
    M St ExecutionPlan :=
  lift (resolve_capability capability_callables r registry) ;;;
  fresh <- on_run new_uuid_str ;;
  p <- lift (builder_task "primary" (cr_capability_id r) (cr_capability_version r)
               (Some (cr_input r)) [] None (new_builder fresh objective)) ;;
  lift (build frames p).

(** The context of the execution: the default factories draw its identifier and
    read the clock twice. *)
Definition integrated_context (objective tenant : string) (md : dict) (p : ExecutionPlan) :
    M St unit := fun s =>
  let r := os_run s in
  let '(i, e) := uuid4 (rs_env r) in
  let '(t1, e) := utc_now e in
  let '(t2, e) := utc_now e in
  let c := with_plan (Some [("plan_id", VStr (plan_id p)); ("version", VStr (plan_version p))])
             (with_metadata md
                (new_context (mkIdentity i tenant (Some "p0-integrated-spine") (Some "1.0.0"))
                   objective t1 t2)) in
  (Ret tt, mkOrch p (mkRun c (rs_token r) (rs_evidence r) (rs_checkpoints r) (rs_idempotency r) e
                       (rs_fences r))).

(** The request the seam puts to the supervisor after a failure. *)
Definition failure_request (objective : string) (f : FailureClass) (preview : RecoveryDecision) :
    SupervisionRequest :=
  mkSupervision objective true true "failed" (Some (FEnum f)) (rd_retry_allowed preview)
    (negb (rd_terminal preview)) false false.

(** The evidence of a decision about the task. *)
Definition record_decision (ty : string) (t : TaskNode) (action reason : string) : M St unit :=
  c <- on_run get_context ;;
  on_run (record (execution_id (identity c)) ty
            [("task_id", VStr (task_id t)); ("capability_id", VStr (capability_id t));
             ("action", VStr action); ("reason", VStr reason)]).

(** [self.recovery.apply], its evidence and a checkpoint. *)
Definition apply_and_save (t : TaskNode) (f : FailureClass) : M St RecoveryDecision :=
  d <- on_run (run_recovery recovery f) ;;
  record_decision "execution.recovery_decision" t (rd_action d) (rd_reason d) ;;;
  on_run cp_store_save ;;;
  ret d.

(** What happens after a run of the orchestrator that left a failed task:
    whether the task is to be run again. *)
Definition after_failure (objective id : string) (t : TaskNode) : M St bool :=
  c <- on_run get_context ;;
  let f := task_failure t in
  let preview := classify recovery (FEnum f) c in
  let supervision := decide (Some (failure_request objective f preview)) in
  record_decision "execution.supervisor_decision" t (sd_action supervision)
    (sd_reason supervision) ;;;
  if String.eqb (sd_action supervision) (enum_value STOP) then
    on_run (run_set_status STOPPED) ;;; on_run cp_store_save ;;; ret false
  else if negb (String.eqb (sd_action supervision) (enum_value RETRY)) then
    apply_and_save t f ;;; ret false
  else
    d <- apply_and_save t f ;;
    if negb (String.eqb (rd_action d) "retry") then ret false
    else
      on_task id (fun t => with_task_output VNone
                             (with_task_error None (with_task_status T_PENDING t))) ;;;
      ret true.

(** [while True]: [None] when the fuel runs out. *)
Fixpoint integrated_loop (retries rounds turns : nat) (objective : string) :
    M St (option unit) :=
  match turns with
  | O => ret None
  | S turns =>
      o <- execute_plan rt frames retries rounds ;;
      match o with
      | None => ret None
      | Some _ =>
          p <- get_plan ;;
          if is_complete p then ret (Some tt)
          else if negb (has_failed p) then ret (Some tt)
          else match first_failed p with
          | None => ret (Some tt)
          | Some (id, t) =>
              again <- after_failure objective id t ;;
              if again then integrated_loop retries rounds turns objective else ret (Some tt)
          end
      end
  end.

Definition integrated_execute (retries rounds turns : nat) (objective : string)
    (r : ControlRequest) (tenant : string) (md : option dict) : M St (option unit) :=
  p <- build_single_capability_plan objective r ;;
  integrated_context objective tenant (default [] md) p ;;;
  integrated_loop retries rounds turns objective.
End integrated.

(** The statuses in which a round that does not repeat the task can leave an
    execution, by the class of the failure. *)
Definition handled (f : FailureClass) (st : ExecutionStatus) : bool :=
  match f with
  | TRANSIENT | PERMISSION | UNKNOWN => bool_decide (st = ESCALATED)
  | SAFETY => bool_decide (st = STOPPED)
  | PLAN => bool_decide (st = REPLANNING)
  | STATE => bool_decide (st = RECOVERING \/ st = ESCALATED)
  | PARAMETER | TOOL => true
  end.

(** What the supervisor answers to the seam. *)
Lemma failure_request_action objective f p c :
  blank objective = false ->
  let d := classify p (FEnum f) c in
  sd_action (decide (Some (failure_request objective f d))) =
  match f with
  | SAFETY => "stop"
  | PERMISSION => "escalate"
  | TRANSIENT => if rd_retry_allowed d then "retry" else "escalate"
  | STATE => if rd_terminal d then "escalate" else "replan"
  | _ => "replan"
  end.
Proof.
  intros Hb. cbn zeta. unfold decide, failure_request, decide_request, classify.
  autorewrite with oisr. cbn -[blank]. rewrite Hb. destruct f; cbn; try done; by destruct (_ <? _)%Z.
Qed.

(** A call of [apply] that returns: the status it sets and what it records. *)
Lemma apply_ret_status now p f c d c' :
  apply now p f c = (Ret d, c') ->
  status c' = default (status c) (action_status (rd_action d)) /\ last_failure c' = Some (FEnum f).
Proof.
  intros H. pose proof (apply_decision _ _ _ _ _ _ H) as ->.
  destruct (terminal (status c)) eqn:Ht.
  - destruct (action_status (rd_action (classify p (FEnum f) c))) eqn:Ea.
    + destruct (apply_terminal now p f c Ht) as (x & c1 & E & _); [by rewrite Ea | congruence].
    + revert H Ea. unfold apply, classify. autorewrite with oisr.
      unfold apply_action, action_status. destruct f; simpl; repeat case_match; simplify_eq;
        simpl in *; mred; simpl; intros; by simplify_eq.
  - destruct (apply_live now p f c Ht) as (c1 & E & H1 & H2). rewrite H in E. by simplify_eq.
Qed.

Section facts.
Context {ES CS IS : Type} `{!EvidenceStore ES} `{!CheckpointStore CS} `{!IdempotencyStore IS}.
Context {IF : IsoFormat} {CPL : CheckpointLaws CS} {IDL : IdempotencyLaws IS}.
Abbreviation St := (OrchState ES CS IS).
Variable rt : Runtime.
Variable frames : nat.
Variable recovery : RecoveryPolicy.
Variable registry : list (CapabilityEntry Capability).

Abbreviation ctx := (fun s : St => rs_context (os_run s)).
Abbreviation ts_of := (fun s : St => tasks (os_plan s)).

Lemma on_run_inv {A} (m : M (RunState ES CS IS) A) (s s' : St) a :
  on_run m s = (Ret a, s') -> m (os_run s) = (Ret a, os_run s') /\ os_plan s' = os_plan s.
Proof. unfold on_run. destruct (m (os_run s)) as [o r]. intros H. by out_simpl. Qed.

Lemma record_decision_ret ty t a why (s s' : St) u :
  record_decision ty t a why s = (Ret u, s') ->
  os_plan s' = os_plan s /\ same_but_time (ctx s) (ctx s').
Proof.
  unfold record_decision. intros H. apply bind_ret_inv in H as (c & s1 & Hc & H).
  injection Hc as <- <-. apply on_run_inv in H as [H Hp]. split; [done|].
  by apply record_ret in H as [_ ?].
Qed.

Lemma cp_store_save_ret (s s' : RunState ES CS IS) u :
  cp_store_save s = (Ret u, s') -> same_but_time (rs_context s) (rs_context s').
Proof.
  unfold cp_store_save. destruct (cp_save _ _ _) as [[[cs|x] c] e] eqn:E; intros H; out_simpl.
  by apply cp_save_context in E.
Qed.

Lemma apply_and_save_ret t f (s s' : St) d :
  apply_and_save recovery t f s = (Ret d, s') ->
  d = classify recovery (FEnum f) (ctx s) /\ os_plan s' = os_plan s /\
  exists now c, apply now recovery f (ctx s) = (Ret d, c) /\ same_but_time c (ctx s').
Proof.
  unfold apply_and_save. intros H. apply bind_ret_inv in H as (d0 & s1 & H1 & H).
  apply on_run_inv in H1 as [H1 P1]. apply run_recovery_ret in H1 as (-> & now & Ha).
  apply bind_ret_inv in H as (? & s2 & H2 & H). apply record_decision_ret in H2 as [P2 C2].
  apply bind_ret_inv in H as (? & s3 & H3 & H). apply on_run_inv in H3 as [H3 P3].
  apply cp_store_save_ret in H3. apply ret_inv in H as [-> ->].
  split; [done|]. split; [congruence|]. exists now, (ctx s1). split; [done|].
  unfold same_but_time in *. congruence.
Qed.

(** The fields the theorems speak of do not depend on the time stamp. *)
Lemma same_but_time_fields c1 c2 :
  same_but_time c1 c2 ->
  status c2 = status c1 /\ last_failure c2 = last_failure c1 /\ retry_count c2 = retry_count c1.
Proof.
  intros E. split_and!.
  - by apply (f_equal status) in E.
  - by apply (f_equal last_failure) in E.
  - by apply (f_equal retry_count) in E.
Qed.

(** A context whose status and counter are those of another. *)
Lemma classify_same p f c1 c2 :
  same_but_time c1 c2 -> classify p (FEnum f) c2 = classify p (FEnum f) c1.
Proof.
  intros E. unfold classify. autorewrite with oisr.
  pose proof (f_equal retry_count E) as E1. pose proof (f_equal recovery_attempts E) as E2.
  cbn in E1, E2. by rewrite E1, E2.
Qed.

(** Recording the supervisor's decision and then applying recovery. *)
Lemma applied_round ty t a why f (s s1 s2 : St) u d :
  record_decision ty t a why s = (Ret u, s1) -> apply_and_save recovery t f s1 = (Ret d, s2) ->
  os_plan s2 = os_plan s /\ d = classify recovery (FEnum f) (ctx s) /\
  status (ctx s2) = default (status (ctx s)) (action_status (rd_action d)) /\
  last_failure (ctx s2) = Some (FEnum f) /\
  retry_count (ctx s2) =
    (retry_count (ctx s) + if String.eqb (rd_action d) "retry" then 1 else 0)%Z.
Proof.
  intros H1 Ha. apply record_decision_ret in H1 as [P1 C1].
  apply apply_and_save_ret in Ha as (Hd & P2 & now & c & Ha & C2).
  pose proof (classify_same recovery f _ _ C1) as Hcl.
  apply same_but_time_fields in C1 as (S1 & _ & R1), C2 as (S2 & L2 & R2).
  pose proof (apply_ret_status _ _ _ _ _ _ Ha) as [Hs Hl].
  apply apply_counters in Ha as [Hr _]. cbn beta in *.
  split; [congruence|]. split; [congruence|]. split; [congruence|]. split; [congruence|].
  rewrite R2, Hr, R1. by subst d.
Qed.

(** A round that applies recovery and gives up. *)
Lemma plain_round ty t a why f (s s1 s2 : St) u again :
  record_decision ty t a why s = (Ret u, s1) ->
  (apply_and_save recovery t f ;;; ret false) s1 = (Ret again, s2) ->
  again = false /\ os_plan s2 = os_plan s /\
  status (ctx s2) = default (status (ctx s))
    (action_status (rd_action (classify recovery (FEnum f) (ctx s)))) /\
  last_failure (ctx s2) = Some (FEnum f).
Proof.
  intros H1 H. apply bind_ret_inv in H as (d & s3 & Ha & Hr). apply ret_inv in Hr as [-> ->].
  destruct (applied_round _ _ _ _ _ _ _ _ _ _ H1 Ha) as (? & -> & ? & ? & ?). done.
Qed.

(** One round that returns. *)
Lemma after_failure_ret objective id t (s s' : St) again :
  blank objective = false -> after_failure recovery objective id t s = (Ret again, s') ->
  let f := task_failure t in
  if again then
    same_graph (ts_of s) (ts_of s') /\ (retry_count (ctx s) < max_retries recovery)%Z /\
    retry_count (ctx s') = (retry_count (ctx s) + 1)%Z
  else
    os_plan s' = os_plan s /\ handled f (status (ctx s')) = true /\
    (f = SAFETY \/ last_failure (ctx s') = Some (FEnum f)).
Proof.
  intros Hb H f. unfold after_failure in H. apply bind_ret_inv in H as (c & s0 & Hc & H).
  assert (c = ctx s /\ s0 = s) as [-> ->].
  { unfold on_run, get_context in Hc. destruct s. by injection Hc as <- <-. }
  cbn zeta in H. apply bind_ret_inv in H as (? & s1 & H1 & H).
  fold f in H, H1. rewrite (failure_request_action objective f recovery _ Hb) in H.
  set (d := classify recovery (FEnum f) (rs_context (os_run s))) in *.
  assert (Hd : d = classify recovery (FEnum f) (rs_context (os_run s))) by done.
  unfold classify in Hd. autorewrite with oisr in Hd.
  destruct f eqn:Ef.
  7: { apply bind_ret_inv in H as (? & s2 & H2 & H). apply on_run_inv in H2 as [H2 P2].
    apply run_set_status_ret in H2 as (_ & _ & C2). apply bind_ret_inv in H as (? & s3 & H3 & H).
    apply on_run_inv in H3 as [H3 P3]. apply cp_store_save_ret in H3.
    apply record_decision_ret in H1 as [P1 _].
    apply ret_inv in H as [-> ->]. apply same_but_time_fields in C2 as (S2 & _ & _), H3 as (S3 & _ & _).
    split_and!; [congruence | | by left]. cbn in S2, S3. cbn. by rewrite S3, S2. }
  1: { destruct (retry_count _ <? max_retries recovery)%Z eqn:El; rewrite Hd in H; cbn in H.
    - apply bind_ret_inv in H as (d2 & s2 & Ha & H).
      destruct (applied_round _ _ _ _ _ _ _ _ _ _ H1 Ha) as (P2 & -> & _ & _ & R2).
      fold d in H, R2. rewrite Hd in H, R2. cbn in H, R2.
      apply ret_inv in H as [-> ->]. cbn.
      split; [rewrite <- P2; by apply same_graph_update | split; [lia | done]].
    - destruct (plain_round _ _ _ _ _ _ _ _ _ _ H1 H) as (-> & -> & Hs & Hl).
      fold d in Hs. rewrite Hd in Hs. cbn in Hs. cbn. rewrite Hs. auto. }
  4: destruct (recovery_attempts _ <? max_recovery_attempts recovery)%Z eqn:El.
  all: try rewrite Hd in H; cbn in H;
    destruct (plain_round _ _ _ _ _ _ _ _ _ _ H1 H) as (-> & -> & Hs & Hl);
    fold d in Hs; rewrite Hd in Hs; cbn in Hs; cbn; rewrite ?Hs; auto.
Qed.

(** With a blank objective the supervisor stops the execution. *)
Lemma after_failure_blank objective id t (s s' : St) again :
  blank objective = true -> after_failure recovery objective id t s = (Ret again, s') ->
  again = false.
Proof.
  intros Hb H. unfold after_failure in H. apply bind_ret_inv in H as (c & s0 & _ & H).
  cbn zeta in H. apply bind_ret_inv in H as (? & s1 & _ & H).
  assert (sd_action (decide (Some (failure_request objective (task_failure t)
    (classify recovery (FEnum (task_failure t)) c)))) = "stop") as E.
  { unfold decide, failure_request, decide_request. cbn -[blank]. by rewrite Hb. }
  rewrite E in H. cbn in H. apply bind_ret_inv in H as (? & s2 & _ & H).
  apply bind_ret_inv in H as (? & s3 & _ & H). by apply ret_inv in H as [-> _].
Qed.

(** On a terminal context recovery raises unless it only asks for a correction
    or a fallback. *)
Lemma apply_and_save_terminal t f (s : St) :
  terminal (status (ctx s)) = true -> f <> PARAMETER -> f <> TOOL ->
  exists x s', apply_and_save recovery t f s = (Raise x, s') /\ exn_cls x = ValueError /\
    os_plan s' = os_plan s /\ rs_checkpoints (os_run s') = rs_checkpoints (os_run s).
Proof.
  intros Ht Hp Htool.
  unfold apply_and_save, bind at 1, on_run, run_recovery, bind at 1, read_clock, in_context. cbn.
  match goal with |- context [apply ?now _ _ ?c] =>
    destruct (apply_terminal now recovery f c Ht) as (x & c' & -> & Hx) end.
  - unfold classify. autorewrite with oisr. destruct f; try done; cbn; by destruct (_ <? _)%Z.
  - by do 2 eexists.
Qed.

(** On a terminal context every decision but a correction or a fallback
    raises. *)
Lemma after_failure_terminal objective id t (s : St) :
  (forall e es, exists es', ev_append e es = Ret es') -> blank objective = false ->
  terminal (status (ctx s)) = true -> task_failure t <> PARAMETER -> task_failure t <> TOOL ->
  exists x s', after_failure recovery objective id t s = (Raise x, s') /\ exn_cls x = ValueError /\
    os_plan s' = os_plan s /\ rs_checkpoints (os_run s') = rs_checkpoints (os_run s).
Proof.
  intros Hev Hb Ht Hp Htool. unfold after_failure.
  rewrite (bind_ret_intro (on_run get_context) _ s (ctx s) s) by by destruct s. cbn zeta.
  rewrite failure_request_action by done. set (f := task_failure t) in *.
  match goal with |- context [bind ?m ?k s] => set (rec := m); set (rest := k) end.
  assert (exists s1, rec s = (Ret tt, s1) /\ os_plan s1 = os_plan s /\
    rs_context (os_run s1) = rs_context (os_run s) /\
    rs_checkpoints (os_run s1) = rs_checkpoints (os_run s)) as (s1 & Er & P1 & C1 & K1).
  { unfold rec, record_decision, bind, on_run, get_context, record, record_event. cbn.
    match goal with |- context [ev_append ?e ?es] => destruct (Hev e es) as [es' ->] end.
    by eexists. }
  rewrite (bind_ret_intro _ _ _ _ _ Er).
  destruct (apply_and_save_terminal t f s1) as (x & s2 & Ha & Hx & P2 & K2); [by rewrite C1 | done..|].
  rewrite <- P1, <- K1.
  assert (forall k : RecoveryDecision -> M St bool, exists y s3,
    (d <- apply_and_save recovery t f ;; k d) s1 = (Raise y, s3) /\ exn_cls y = ValueError /\
    os_plan s3 = os_plan s1 /\ rs_checkpoints (os_run s3) = rs_checkpoints (os_run s1)) as Hgo.
  { intros k. exists x, s2. split; [by apply bind_raise | done]. }
  unfold rest. destruct (base.decide (f = SAFETY)) as [E|Hne].
  - rewrite E. cbn. unfold bind at 1, on_run, run_set_status, bind at 1, read_clock, in_context,
      set_status_m, set_status. cbn. rewrite C1, Ht. by do 2 eexists.
  - repeat case_match; try done; apply Hgo.
Qed.

(** ** The budget of the loop *)

#[local] Instance run_budget_pre : PreOrder (run_budget (ES := ES) (CS := CS) (IS := IS)).
Proof.
  split; unfold run_budget.
  - intros s. reflexivity.
  - intros s1 s2 s3 H1 H2. etransitivity; [exact H1 | exact H2].
Qed.

Lemma budget_after_failure objective id t :
  keeps run_budget (after_failure (ES := ES) (CS := CS) (IS := IS) recovery objective id t).
Proof.
  unfold after_failure, apply_and_save, record_decision.
  repeat first [keeps_step | progress cbn zeta];
    try first [apply budget_on_run | apply budget_on_task].
  all: first [apply budget_get_context | apply budget_record | apply budget_run_recovery
             | apply budget_run_set_status | apply budget_cp_store_save].
Qed.

(** The plan of the seam: one task. *)
Definition single_task (r : ControlRequest) : task_table :=
  [("primary", mkTask "primary" (cr_capability_id r) (cr_capability_version r) (cr_input r) []
                 T_PENDING VNone None [])].

Lemma build_single_ret objective r (s s' : St) p :
  build_single_capability_plan frames registry objective r s = (Ret p, s') ->
  tasks p = single_task r /\ plan_objective p = objective /\ run_budget s s'.
Proof.
  unfold build_single_capability_plan. intros H.
  apply bind_ret_inv in H as (? & s1 & H1 & H). apply lift_inv in H1 as [_ ->].
  apply bind_ret_inv in H as (fresh & s1 & H1 & H).
  pose proof (budget_on_run _ budget_new_uuid_str s) as Hb. rewrite H1 in Hb.
  apply bind_ret_inv in H as (p1 & s2 & H2 & H). apply lift_inv in H2 as [H2 ->].
  apply lift_inv in H as [H ->]. unfold builder_task, add_task, new_builder in H2.
  cbn in H2. out_simpl. unfold build in H. destruct (validate _ _); [|done].
  cbn in H. by out_simpl.
Qed.

Lemma integrated_context_ret objective tenant md p (s s' : St) u :
  integrated_context objective tenant md p s = (Ret u, s') ->
  os_plan s' = p /\ retry_count (ctx s') = 0%Z /\
  rs_idempotency (os_run s') = rs_idempotency (os_run s).
Proof. unfold integrated_context. cbn. intros H. injection H as <- <-. done. Qed.

Lemma single_dict_ok r ts : same_graph (single_task r) ts -> dict_ok ts /\ length ts = 1%nat.
Proof.
  intros Hg. split.
  - rewrite <- Hg. apply NoDup_singleton.
  - by rewrite <- (same_graph_length _ _ Hg).
Qed.

(** The failed task of a one-task plan. *)
Lemma first_failed_some p :
  has_failed p = true -> exists id t, first_failed p = Some (id, t) /\ (id, t) ∈ tasks p /\
    task_status t = T_FAILED.
Proof.
  unfold has_failed, first_failed. intros (t & Hin & Ht)%existsb_exists.
  apply list_elem_of_In, list_elem_of_fmap in Hin as ([k t'] & -> & Hin). cbn in Ht.
  destruct (List.find _ (tasks p)) as [[id t]|] eqn:E.
  - apply List.find_some in E as [Hin' Hf]. exists id, t. split; [done|].
    split; [by apply list_elem_of_In | by apply bool_decide_eq_true in Hf].
  - apply list_elem_of_In in Hin. pose proof (List.find_none _ _ E _ Hin) as Hn.
    cbn in Hn. congruence.
Qed.

(** Turns one above the retry budget of the seam are enough. *)
Lemma integrated_loop_enough fuel rounds turns objective r (s s' : St) :
  (forall e, registered rt e -> disciplined (ce_capability e)) ->
  (1 < frames)%nat -> (1 < rounds)%nat -> same_graph (single_task r) (ts_of s) ->
  enough rt fuel s ->
  (Z.max 0 (max_retries recovery - retry_count (ctx s)) < Z.of_nat turns)%Z ->
  integrated_loop rt frames recovery fuel rounds turns objective s = (Ret None, s') -> False.
Proof.
  intros Hd Hfr Hro. revert s. induction turns as [|turns IH]; intros s Hg He Ht; [lia|].
  destruct (single_dict_ok _ _ Hg) as [Hok Hlen]. cbn [integrated_loop].
  intros H. apply bind_ret_inv in H as (o & s1 & Hx & H).
  pose proof (budget_execute_plan rt Hd frames fuel rounds s) as Hb. rewrite Hx in Hb.
  pose proof (execute_plan_graph rt frames fuel rounds s Hok) as Hg1. rewrite Hx, Hlen in Hg1.
  destruct o as [[]|]; [|eapply execute_plan_enough; [done | exact He | | exact Hx]; lia].
  apply bind_ret_inv in H as (p & s2 & Hp & H). injection Hp as <- <-.
  destruct (is_complete _); [done|]. destruct (negb _); [done|].
  destruct (first_failed _) as [[id t]|]; [|done].
  apply bind_ret_inv in H as (again & s2 & Ha & H). destruct again; [|done].
  pose proof (budget_after_failure objective id t s1) as Hb2. rewrite Ha in Hb2.
  destruct (blank objective) eqn:Ebl.
  { by apply after_failure_blank in Ha. }
  apply after_failure_ret in Ha as (Hg2 & Hlt & Hc); [|done].
  apply (IH s2); [| | |exact H].
  - rewrite Hg, Hg1 by lia. exact Hg2.
  - eapply enough_mono; [|exact He]. etransitivity; [exact Hb | exact Hb2].
  - destruct Hb as [Hb _]. unfold count in Hb. cbn in *. lia.
Qed.

(** What the loop leaves when it returns. *)
Lemma integrated_loop_ret fuel rounds turns objective r (s s' : St) :
  (1 < frames)%nat -> same_graph (single_task r) (ts_of s) -> blank objective = false ->
  integrated_loop rt frames recovery fuel rounds turns objective s = (Ret (Some tt), s') ->
  same_graph (single_task r) (ts_of s') /\
  ((is_complete (os_plan s') = true /\ status (ctx s') = COMPLETED) \/
   exists id t, first_failed (os_plan s') = Some (id, t) /\
     handled (task_failure t) (status (ctx s')) = true /\
     (task_failure t = SAFETY \/ last_failure (ctx s') = Some (FEnum (task_failure t)))).
Proof.
  intros Hfr Hg Hb. revert s Hg. induction turns as [|turns IH]; intros s Hg; [done|].
  destruct (single_dict_ok _ _ Hg) as [Hok Hlen]. cbn [integrated_loop].
  intros H. apply bind_ret_inv in H as (o & s1 & Hx & H). destruct o as [[]|]; [|done].
  pose proof (execute_plan_graph rt frames fuel rounds s Hok) as Hg1. rewrite Hx, Hlen in Hg1.
  apply execute_plan_ret in Hx; [|done | by rewrite Hlen].
  rewrite <- Hg in Hg1. specialize (Hg1 Hfr). cbn [snd] in Hg1.
  apply bind_ret_inv in H as (p & s2 & Hp & H).
  assert (p = os_plan s1 /\ s2 = s1) as [-> ->] by by injection Hp as <- <-.
  destruct (is_complete (os_plan s1)) eqn:Ec.
  { apply ret_inv in H as [_ ->]. split; [done|]. left. destruct Hx as [[_ ?]|[id Hid]]; [by split|].
    exfalso. apply has_status_spec in Hid as (t & Hk%dget_Some_elem & Hst).
    unfold is_complete in Ec. rewrite forallb_forall in Ec.
    assert (t ∈ dvalues (ts_of s1)) as Hin by (apply list_elem_of_fmap; by exists (id, t)).
    apply list_elem_of_In, Ec, bool_decide_eq_true in Hin. rewrite Hst in Hin. by destruct Hin. }
  destruct Hx as [[? _]|[k Hk]]; [done|].
  assert (has_failed (os_plan s1) = true) as Hf.
  { apply has_status_spec in Hk as (t & Ht%dget_Some_elem & Hst). apply existsb_exists.
    exists t. rewrite Hst. split; [|done]. apply list_elem_of_In, list_elem_of_fmap. by exists (k, t). }
  rewrite Hf in H. cbn [negb] in H. destruct (first_failed_some _ Hf) as (id & t & E & _ & _).
  rewrite E in H. apply bind_ret_inv in H as (again & s2 & Ha & H).
  apply after_failure_ret in Ha; [|done]. destruct again.
  - destruct Ha as (Hg2 & _). apply (IH s2); [|done]. by rewrite Hg1.
  - apply ret_inv in H as [_ ->]. destruct Ha as (Hp2 & Hh & Hl). rewrite Hp2. split; [done|].
    right. by exists id, t.
Qed.
End facts.
