(* ===== verification/ControlTheorems.v ===== *)
(** * Theorems on the supervisor and the integrated execution seam

    What the supervisor decides, which agent it selects, and how the seam that
    joins control plane, orchestrator, supervisor and recovery ends. *)

From stdpp Require Import base gmap strings list relations.
From Stdlib Require Import ZArith Lia.
From S2P Require Import Prelude Uuid Json Types State Recovery Policy Planning Stores.
From S2P Require Import Registry Fencing Runtime RuntimeFacts RuntimeRuns Orchestrator.
From S2P Require Import OrchestratorFacts OrchestratorRuns Samples RuntimeTheorems.
From S2P Require Import OrchestratorTheorems Supervisor Integrated.
Local Open Scope py_scope.

(** ** The decision table of the supervisor *)

(** The execution boundary lets the request through. *)
Record cleared (rq : SupervisionRequest) : Prop := mkCleared {
  cl_objective : blank (sr_objective rq) = false;
  cl_approval : sr_approval_required rq = true -> sr_approval_granted rq = true;
  cl_authorized : sr_authorized rq = true;
  cl_plan : sr_plan_validated rq = true }.

Definition failure_text_is (rq : SupervisionRequest) (text : string) : Prop :=
  exists f, sr_failure rq = Some f /\ failure_text f = text.

Lemma cleared_spec rq :
  cleared rq <->
  negb (blank (sr_objective rq)) && (negb (sr_approval_required rq) || sr_approval_granted rq) &&
  sr_authorized rq && sr_plan_validated rq = true.
Proof.
  rewrite !andb_true_iff, orb_true_iff, !negb_true_iff. split.
  - intros [? Ha ? ?]. split_and!; auto. destruct (sr_approval_required rq); auto.
  - intros [[[? Ha] ?] ?]. split; auto. intros E. destruct Ha; congruence.
Qed.

Lemma failure_is_spec text o :
  failure_is text o = true <-> exists f, o = Some f /\ failure_text f = text.
Proof.
  destruct o as [f|]; simpl; [|naive_solver]. rewrite String.eqb_eq. naive_solver.
Qed.

(** The supervisor never lets an execution proceed past the boundary
    conditions: it says "execute", "complete" or "retry" only for a request with
    an objective, granted approval where required, authorization and a validated
    plan; "execute" needs moreover that no failure is recorded and no recovery
    pending, "complete" exactly a finished status, and "retry" that the failure
    is neither safety, permission nor plan; and it ends the execution exactly
    when the objective is missing, the status is finished or the failure is a
    safety failure. *)
Theorem supervisor_decision_table (rq : SupervisionRequest) :
  let d := decide (Some rq) in
  (sd_action d = "execute" <-> cleared rq /\ finished_status (sr_status rq) = false /\
     sr_failure rq = None /\ sr_retry_allowed rq = false /\ sr_recovery_allowed rq = false) /\
  (sd_action d = "complete" <-> cleared rq /\ finished_status (sr_status rq) = true) /\
  (sd_action d = "retry" <-> cleared rq /\ finished_status (sr_status rq) = false /\
     sr_retry_allowed rq = true /\ ~ failure_text_is rq "safety" /\
     ~ failure_text_is rq "permission" /\ ~ failure_text_is rq "plan") /\
  (sd_terminal d = true <-> blank (sr_objective rq) = true \/
     (cleared rq /\ (finished_status (sr_status rq) = true \/ failure_text_is rq "safety"))).
Proof.
  cbn zeta. unfold failure_text_is. setoid_rewrite <- failure_is_spec.
  unfold decide, decide_request. cbn [from_option default id].
  destruct rq as [obj pv au st fl ra rc ap gr]. cbn -[blank finished_status failure_is].
  setoid_rewrite cleared_spec. cbn -[blank finished_status failure_is].
  destruct (blank obj); [cbn; intuition discriminate|].
  destruct (ap && negb gr) eqn:E1; [destruct ap, gr; try discriminate; cbn; intuition discriminate|].
  replace (negb ap || gr) with true by by destruct ap, gr.
  destruct au; [|cbn; intuition discriminate]. destruct pv; [|cbn; intuition discriminate].
  destruct (finished_status st); [cbn; intuition discriminate|].
  destruct fl as [f|]; [|cbn; destruct ra, rc; cbn; intuition discriminate].
  destruct (failure_is "safety" _); [cbn; intuition discriminate|].
  destruct (failure_is "permission" _); [cbn; intuition discriminate|].
  destruct (failure_is "plan" _); [cbn; intuition discriminate|].
  destruct ra, rc; cbn; intuition discriminate.
Qed.

(** ** Agent selection *)

Section theorems.
Context {ES CS IS : Type} `{!EvidenceStore ES} `{!CheckpointStore CS} `{!IdempotencyStore IS}.
Context {IF : IsoFormat} {CPL : CheckpointLaws CS} {IDL : IdempotencyLaws IS}.

(** The selection's evidence: one event about the execution of [c], or nothing
    for a supervisor without a ledger. *)
Definition selection_recorded (sv : Supervisor) (c : ExecutionContext) (ty cap v : string)
    (s s' : SelState ES) : Prop :=
  if sv_keeps_evidence sv then
    exists x why, ev_append x (sel_evidence s) = Ret (sel_evidence s') /\
      ev_execution_id x = execution_id (identity c) /\ ev_event_type x = ty /\
      ev_data x = [("capability_id", VStr cap); ("version", VStr v); ("reason", VStr why)]
  else sel_evidence s' = sel_evidence s.

Lemma record_selection_total sv c ty cap v why (s : SelState ES) :
  (forall e es, exists es', ev_append e es = Ret es') ->
  exists s', record_selection_evidence sv c ty cap v why s = (Ret tt, s') /\
    selection_recorded sv c ty cap v s s'.
Proof.
  intros Hev. unfold selection_recorded, record_selection_evidence, record_event.
  destruct (sv_keeps_evidence sv); [|by eexists].
  cbn. match goal with |- context [ev_append ?x ?es] => destruct (Hev x es) as [es' E] end.
  rewrite E. eexists. split; [done|]. eexists _, why. split; [exact E | done].
Qed.

(** Agent selection is exact and leaves a trace: with an agent registry, a
    policy that answers or denies and a ledger that accepts events,
    [select_agent] returns the one eligible agent if there is exactly one, and
    raises [AgentSelectionError] otherwise; either way it records exactly one
    event of the matching type for the execution it selected for. *)
Theorem select_agent_exact (sv : Supervisor) (agents : list (CapabilityEntry Capability))
    (cap v : string) (context : option ExecutionContext) (input : option dict) (inv : string)
    (s : SelState ES) :
  sv_agents sv = Some agents -> blank cap = false -> blank v = false ->
  (forall rq, policy_decides (sv_policy sv) rq) ->
  (forall e es, exists es', ev_append e es = Ret es') ->
  exists c o s', select_agent sv cap v context input inv s = (o, s') /\
    (forall c0, context = Some c0 -> c = c0) /\
    match List.filter (eligible (sv_policy sv) (sv_availability sv)
                         (mkRequest inv cap (default [] input) c None 0 None) cap v) agents with
    | [e] => o = Ret e /\ selection_recorded sv c "agent.selection.selected" cap v s s'
    | _ => (exists m, o = raise AgentSelectionError m) /\
           selection_recorded sv c "agent.selection.rejected" cap v s s'
    end.
Proof.
  intros Ha Hc Hv Hp Hev. unfold select_agent. rewrite Ha, Hc, Hv.
  destruct (selection_context_ret context cap v s) as (c & s1 & E1 & Es1 & Hctx).
  rewrite (bind_ret_intro _ _ _ _ _ E1). cbn zeta.
  exists c. set (rq := mkRequest inv cap (default [] input) c None 0 None).
  assert (forall ty s2, selection_recorded sv c ty cap v s1 s2 ->
    selection_recorded sv c ty cap v s s2) as Hs1.
  { unfold selection_recorded. by rewrite Es1. }
  destruct (route (sv_policy sv) (sv_availability sv) rq cap v agents) as [d|x] eqn:Er.
  - pose proof (route_ret _ _ _ _ _ _ _ (Hp rq) Er) as ->.
    unfold try_except, bind, lift. destruct (record_selection_total sv c "agent.selection.selected"
      cap v (ard_reason d) s1 Hev) as (s2 & -> & Hrec).
    do 2 eexists. split; [done|]. split; [by intros c0 ?%Hctx; destruct_and? |]. auto.
  - assert (is_agent_routing_error x = true) as Hx.
    { unfold is_agent_routing_error, is_class.
      apply (route_raise _ _ _ _ _ _ _ (Hp rq)) in Er as [[-> _]|[-> _]]; done. }
    unfold try_except, bind, lift. rewrite Hx.
    destruct (record_selection_total sv c "agent.selection.rejected" cap v (exn_msg x) s1 Hev)
      as (s2 & -> & Hrec).
    do 2 eexists. split; [done|]. split; [by intros c0 ?%Hctx; destruct_and? |].
    apply (route_raise _ _ _ _ _ _ _ (Hp rq)) in Er as [[_ ->]|[_ Hlen]]; [by eauto|].
    destruct (List.filter _ agents) as [|e1 [|e2 l]]; simpl in Hlen; [lia.. | by eauto].
Qed.

(** ** The integrated seam *)

(** [IntegratedExecution.execute] terminates: with disciplined capabilities
    its [while True] loop repeats the task at most as often as its retry policy
    allows, so turns one above that budget, and the fuel of the orchestrator's
    loops, are never exhausted. *)
Theorem integrated_terminates (rt : Runtime) (frames : nat) (recovery : RecoveryPolicy)
    (registry : list (CapabilityEntry Capability)) (retries rounds turns : nat)
    (objective : string) (r : ControlRequest) (tenant : string) (md : option dict)
    (s s' : OrchState ES CS IS) (o : option unit) :
  (forall e, registered rt e -> disciplined (ce_capability e)) -> cached_final (os_run s) ->
  (1 < frames)%nat -> (1 < rounds)%nat ->
  (Z.max 0 (max_retries (rt_recovery rt)) + 1 <= Z.of_nat retries)%Z ->
  (Z.max 0 (max_retries recovery) < Z.of_nat turns)%Z ->
  integrated_execute rt frames recovery registry retries rounds turns objective r tenant md s
    = (Ret o, s') -> o = Some tt.
Proof.
  intros Hd Hcf Hfr Hro Hre Htu H. destruct o as [[]|]; [done|]. exfalso.
  apply bind_ret_inv in H as (p & s1 & Hb & H). apply build_single_ret in Hb as (Hts & _ & _ & Hfin).
  apply bind_ret_inv in H as (? & s2 & Hc & H).
  apply integrated_context_ret in Hc as (Hp & Hcount & Hidem).
  eapply (integrated_loop_enough rt frames recovery retries rounds turns objective r s2 s');
    [done | done | done | by rewrite Hp, Hts | | by rewrite Hcount, Z.sub_0_r | exact H].
  split; [unfold cached_final; rewrite Hidem; by apply Hfin |]. unfold count. rewrite Hcount. lia.
Qed.

(** C18. What the caller gets: when [IntegratedExecution.execute] returns for an
    objective that is not blank, the plan is the one task of the request, and
    either it is done and the execution COMPLETED, or it failed and the status is
    the one the class of its failure calls for: ESCALATED after permission, unknown
    and exhausted transient failures, STOPPED after a safety failure, REPLANNING
    after a plan failure, RECOVERING or ESCALATED after a state failure. *)
Theorem integrated_outcome (rt : Runtime) (frames : nat) (recovery : RecoveryPolicy)
    (registry : list (CapabilityEntry Capability)) (retries rounds turns : nat)
    (objective : string) (r : ControlRequest) (tenant : string) (md : option dict)
    (s s' : OrchState ES CS IS) :
  (1 < frames)%nat -> blank objective = false ->
  integrated_execute rt frames recovery registry retries rounds turns objective r tenant md s
    = (Ret (Some tt), s') ->
  same_graph (single_task r) (tasks (os_plan s')) /\
  ((is_complete (os_plan s') = true /\ status (rs_context (os_run s')) = COMPLETED) \/
   exists id t, first_failed (os_plan s') = Some (id, t) /\
     handled (task_failure t) (status (rs_context (os_run s'))) = true /\
     (task_failure t = SAFETY \/
      last_failure (rs_context (os_run s')) = Some (FEnum (task_failure t)))).
Proof.
  intros Hfr Hb H. apply bind_ret_inv in H as (p & s1 & Hbd & H).
  apply build_single_ret in Hbd as (Hts & _). apply bind_ret_inv in H as (? & s2 & Hc & H).
  apply integrated_context_ret in Hc as (Hp & _).
  eapply integrated_loop_ret; [done | | done | exact H]. by rewrite Hp, Hts.
Qed.

(** A failure that already ended the execution is not handled by the seam:
    when the orchestrator leaves a failed task and a context that is ESCALATED
    or STOPPED, as after every permission, safety or unknown failure inside the
    runtime, the recovery round raises [ValueError] out of
    [IntegratedExecution.execute], with no checkpoint of the decision. *)
Theorem integrated_terminal_context_raises (recovery : RecoveryPolicy) (objective id : string)
    (t : TaskNode) (s : OrchState ES CS IS) :
  (forall e es, exists es', ev_append e es = Ret es') -> blank objective = false ->
  terminal (status (rs_context (os_run s))) = true -> task_failure t <> PARAMETER ->
  task_failure t <> TOOL ->
  exists x s', after_failure recovery objective id t s = (Raise x, s') /\ exn_cls x = ValueError /\
    os_plan s' = os_plan s /\ rs_checkpoints (os_run s') = rs_checkpoints (os_run s).
Proof. apply after_failure_terminal. Qed.
End theorems.

(** ** Witnesses *)

Definition sample_agent_contract : CapabilityContract :=
  mkContract "cap" "1" "agent" [] [] LOW [] [] (cc_timeout_seconds sample_contract) 0 SE_NONE true
    (AgentContract (mkAgentFields [] [] 1)).

Definition sample_agents : list (CapabilityEntry Capability) :=
  [mkCapEntry ok_capability (Some sample_agent_contract) "cap" "1"].

Definition sample_supervisor : Supervisor :=
  mkSupervisor None (Some sample_agents) None default_recovery_policy (authorize default_policy)
    true None false.

Definition sample_sel : SelState (list EvidenceEvent) := mkSel [] sample_env.

Lemma sample_policy_decides rq : policy_decides (authorize default_policy) rq.
Proof. intros k x H. by apply authorize_denied in H as [? _]. Qed.

Lemma ledger_total (e : EvidenceEvent) (es : list EvidenceEvent) :
  exists es', ev_append e es = Ret es'.
Proof. by eexists. Qed.

Lemma select_agent_exact_witness :
  exists o s', select_agent sample_supervisor "cap" "1" (Some sample_context) None "inv" sample_sel
    = (o, s') /\ o = Ret (mkCapEntry ok_capability (Some sample_agent_contract) "cap" "1") /\
    selection_recorded sample_supervisor sample_context "agent.selection.selected" "cap" "1"
      sample_sel s'.
Proof.
  destruct (select_agent_exact sample_supervisor sample_agents "cap" "1" (Some sample_context) None
    "inv" sample_sel eq_refl eq_refl eq_refl sample_policy_decides ledger_total)
    as (c & o & s' & H & Hc & Ho).
  rewrite (Hc sample_context eq_refl) in Ho. exists o, s'. split; [exact H | exact Ho].
Defined.

(** A capability that reports a time-out as a transient failure. *)
Definition timing_out : Capability := mkCapability (Some sample_contract)
  (fun rq => ret (simple_result (rq_invocation_id rq) "cap" INV_TIMED_OUT VNone
                    (Some [("failure_class", VStr "transient")]))).

Lemma timing_out_disciplined e :
  registered (sample_runtime timing_out None) e -> disciplined (ce_capability e).
Proof.
  intros ->%sample_registered. split.
  - intros rq cs r cs' [= <- _] Hw. discriminate Hw.
  - intros rq cs. simpl. lia.
Qed.

Definition sample_control : ControlRequest := mkControlRequest "cap" "1" [].

Abbreviation run_seam cap := (integrated_execute (sample_runtime cap None) 3
  default_recovery_policy (sample_registry cap) 3 3 3 "objective" sample_control
  "tenant" None sample_orch).

(** Whether a run returned. *)
Definition returned {A S} (p : outcome A * S) : bool :=
  match fst p with Ret _ => true | Raise _ => false end.

Lemma returned_spec {A S} (p : outcome A * S) :
  returned p = true -> exists a s, p = (Ret a, s).
Proof. destruct p as [[a|x] s]; [by eauto | done]. Qed.

Lemma seam_returns : returned (run_seam timing_out) = true.
Proof. vm_compute. reflexivity. Qed.

(** Three runs of the task, two repetitions granted by the seam. *)
Lemma integrated_terminates_witness : exists s', run_seam timing_out = (Ret (Some tt), s').
Proof.
  destruct (returned_spec _ seam_returns) as (o & s' & E). exists s'. rewrite E. do 2 f_equal.
  apply (integrated_terminates (sample_runtime timing_out None) 3 default_recovery_policy
    (sample_registry timing_out) 3 3 3 "objective" sample_control "tenant" None
    sample_orch s' o timing_out_disciplined sample_cached);
    [lia | lia | vm_compute; discriminate | vm_compute; reflexivity | exact E].
Defined.

Definition seam_status (p : outcome (option unit) * OrchState (list EvidenceEvent)
    (gmap uuid ExecutionContext) (gmap string InvocationResult)) : option ExecutionStatus :=
  match p with (Ret (Some tt), s) => Some (status (rs_context (os_run s))) | _ => None end.

Lemma seam_escalates : seam_status (run_seam timing_out) = Some ESCALATED.
Proof. vm_compute. reflexivity. Qed.

Lemma seam_status_ret p st :
  seam_status p = Some st -> exists s, p = (Ret (Some tt), s) /\ status (rs_context (os_run s)) = st.
Proof. destruct p as [[[[]|]|] s]; intros [=]. by eexists. Qed.

Lemma integrated_outcome_witness :
  exists s', run_seam timing_out = (Ret (Some tt), s') /\
    exists id t, first_failed (os_plan s') = Some (id, t) /\
      handled (task_failure t) (status (rs_context (os_run s'))) = true /\
      last_failure (rs_context (os_run s')) = Some (FEnum (task_failure t)).
Proof.
  destruct (seam_status_ret _ _ seam_escalates) as (s' & E & Hst). exists s'. split; [exact E|].
  destruct (integrated_outcome (sample_runtime timing_out None) 3 default_recovery_policy
    (sample_registry timing_out) 3 3 3 "objective" sample_control "tenant" None
    sample_orch s') as [_ [[_ Hc]|(id & t & Hf & Hh & Hl)]]; [lia | reflexivity | exact E | |].
  - rewrite Hst in Hc. discriminate Hc.
  - exists id, t. split; [exact Hf|]. split; [exact Hh|]. destruct Hl as [Hs|Hl]; [|exact Hl].
    rewrite Hs, Hst in Hh. discriminate Hh.
Defined.

(** What the orchestrator leaves of a permission failure. *)
Definition denied_state := snd (execute_plan (sample_runtime (failing_capability "permission") None)
  3 3 3 sample_orch).

Definition denied_task : TaskNode :=
  with_task_error (Some (exception_error (Exn ValueError
    "Terminal execution status escalated cannot transition to observing.")))
    (with_task_status T_FAILED (sample_task "a" [])).

Lemma denied_first : first_failed (os_plan denied_state) = Some ("a", denied_task).
Proof. vm_compute. reflexivity. Qed.

Lemma denied_terminal : terminal (status (rs_context (os_run denied_state))) = true.
Proof. vm_compute. reflexivity. Qed.

Lemma integrated_terminal_context_raises_witness :
  first_failed (os_plan denied_state) = Some ("a", denied_task) /\
  exists x s', after_failure default_recovery_policy "objective" "a" denied_task denied_state
    = (Raise x, s') /\ exn_cls x = ValueError.
Proof.
  split; [exact denied_first|].
  destruct (integrated_terminal_context_raises default_recovery_policy "objective" "a" denied_task
    denied_state ledger_total eq_refl denied_terminal) as (x & s' & H & Hx & _);
    [discriminate | discriminate |]. exists x, s'. split; [exact H | exact Hx].
Defined.
