(* ===== verification/Leases.v ===== *)
(** * Redis leases with fencing tokens: [ois/kernel/production_resilience.py]

    The four Lua scripts of the module and [FencedLeaseManager].  The server is
    an interface: the commands the scripts call, and, for the theorems, their
    documented effect on the keyspace.  A script runs atomically at one server
    time; an error of a command ends it and keeps the writes made before. *)

From stdpp Require Import base gmap strings list relations pretty.
From Stdlib Require Import ZArith Lia.
From S2P Require Import Prelude Uuid.
Local Open Scope py_scope.

(** ** The server *)

(** A field holds text; [RNum z] is the decimal text of a number. *)
Inductive redis_value := RText (s : string) | RNum (z : Z).

Definition value_text (v : redis_value) : string :=
  match v with RText s => s | RNum z => pretty z end.

Inductive redis_data := RHash (f : gmap string redis_value) | RCounter (z : Z).

(** The data of a key and the server time, in milliseconds, it expires at. *)
Abbreviation redis_entry := (redis_data * option datetime)%type.

Class RedisCommands (R : Type) := {
  r_exists : datetime -> string -> M R bool;
  r_incr : datetime -> string -> M R Z;
  r_hset : datetime -> string -> list (string * redis_value) -> M R unit;
  r_hget : datetime -> string -> string -> M R (option redis_value);
  r_pexpire : datetime -> string -> Z -> M R bool;
  r_del : datetime -> string -> M R bool }.

Definition alive (now : datetime) (e : redis_entry) : bool :=
  match snd e with Some t => (now <? t)%Z | None => true end.

Definition max_int64 : Z := 9223372036854775807.

(** The documented effect of the commands.  [r_view s k] is what the server
    stores under [k], expired entries included. *)
Class RedisLaws (R : Type) `{RedisCommands R} := {
  r_view : R -> string -> option redis_entry;
  r_seen now s k := match r_view s k with
                    | Some e => if alive now e then Some e else None
                    | None => None
                    end;
  r_wrote s s' k o := r_view s' k = o /\ forall k', k' <> k -> r_view s' k' = r_view s k';
  law_exists now k s : r_exists now k s = (Ret (bool_decide (is_Some (r_seen now s k))), s);
  law_incr now k s :
    match r_seen now s k with
    | Some (RHash _, _) => exists x, r_incr now k s = (Raise x, s)
    | Some (RCounter z, t) =>
        if (z <? max_int64)%Z
        then exists s', r_incr now k s = (Ret (z + 1)%Z, s') /\
               r_wrote s s' k (Some (RCounter (z + 1), t))
        else exists x, r_incr now k s = (Raise x, s)
    | None => exists s', r_incr now k s = (Ret 1%Z, s') /\ r_wrote s s' k (Some (RCounter 1, None))
    end;
  law_hset now k l s :
    match r_seen now s k with
    | Some (RCounter _, _) => exists x, r_hset now k l s = (Raise x, s)
    | Some (RHash f, t) => exists s', r_hset now k l s = (Ret tt, s') /\
                             r_wrote s s' k (Some (RHash (list_to_map l ∪ f), t))
    | None => exists s', r_hset now k l s = (Ret tt, s') /\
                r_wrote s s' k (Some (RHash (list_to_map l), None))
    end;
  law_hget now k f s :
    match r_seen now s k with
    | Some (RCounter _, _) => exists x, r_hget now k f s = (Raise x, s)
    | Some (RHash h, _) => r_hget now k f s = (Ret (h !! f), s)
    | None => r_hget now k f s = (Ret None, s)
    end;
  law_pexpire now k ttl s :
    match r_seen now s k with
    | Some (d, _) => exists s', r_pexpire now k ttl s = (Ret true, s') /\
                       r_wrote s s' k (Some (d, Some (now + ttl)%Z))
    | None => r_pexpire now k ttl s = (Ret false, s)
    end;
  law_del now k s :
    match r_seen now s k with
    | Some _ => exists s', r_del now k s = (Ret true, s') /\ r_wrote s s' k None
    | None => exists s', r_del now k s = (Ret false, s') /\
                (s' = s \/ r_wrote s s' k None)
    end }.

(** ** The scripts *)

Definition sequence_key (key : string) : string := key +:+ ":sequence".

Section scripts.
Context {R : Type} `{!RedisCommands R}.

(** [ACQUIRE_LUA] *)
Definition acquire_lua (now : datetime) (key nonce : string) (ttl : Z) : M R (Z * Z) :=
  e <- r_exists now key ;;
  if e : bool then ret (0%Z, 0%Z)
  else
    token <- r_incr now (sequence_key key) ;;
    r_hset now key [("owner_nonce", RText nonce); ("fencing_token", RNum token)] ;;;
    r_pexpire now key ttl ;;;
    ret (1%Z, token).

(** [redis.call('HGET', key, 'owner_nonce') ~= ARGV[1]] *)
Definition owned_by (now : datetime) (key nonce : string) : M R bool :=
  v <- r_hget now key "owner_nonce" ;;
  ret (match v with Some v => String.eqb (value_text v) nonce | None => false end).

(** [RENEW_LUA] *)
Definition renew_lua (now : datetime) (key nonce : string) (ttl : Z) : M R Z :=
  own <- owned_by now key nonce ;;
  if own : bool then b <- r_pexpire now key ttl ;; ret (if b : bool then 1%Z else 0%Z)
  else ret 0%Z.

(** [RELEASE_LUA] *)
Definition release_lua (now : datetime) (key nonce : string) : M R Z :=
  own <- owned_by now key nonce ;;
  if own : bool then b <- r_del now key ;; ret (if b : bool then 1%Z else 0%Z)
  else ret 0%Z.

(** [READ_LEASE_LUA]: nonce and token, or nothing. *)
Definition read_lease_lua (now : datetime) (key : string) : M R (option (redis_value * redis_value)) :=
  nonce <- r_hget now key "owner_nonce" ;;
  token <- r_hget now key "fencing_token" ;;
  ret (match nonce, token with Some n, Some t => Some (n, t) | _, _ => None end).

(** ** [FencedLeaseManager] *)

Record Lease := mkRLease {
  ls_key : string;
  ls_owner_nonce : string;
  ls_fencing_token : Z;
  ls_ttl_ms : Z }.

(** The constructor's check. *)
Definition new_lease_manager (ttl_ms : Z) : outcome Z :=
  if (ttl_ms <? 100)%Z then raise ValueError "ttl_ms must be at least 100ms" else Ret ttl_ms.

(** [acquire]; the nonce is what [secrets.token_hex(32)] draws. *)
Definition lease_acquire (ttl : Z) (now : datetime) (nonce key : string) : M R Lease :=
  r <- acquire_lua now key nonce ttl ;;
  if negb (fst r =? 1)%Z
  then lift (raise LeaseAcquisitionFailed ("RC-05 lease is already held: " +:+ key))
  else ret (mkRLease key nonce (snd r) ttl).

Definition lease_renew (now : datetime) (l : Lease) : M R unit :=
  r <- renew_lua now (ls_key l) (ls_owner_nonce l) (ls_ttl_ms l) ;;
  if negb (r =? 1)%Z
  then lift (raise FencingTokenMismatch "RC-05 lease renewal rejected: ownership lost")
  else ret tt.

(** [int(result[2])] of a field. *)
Definition value_int (v : redis_value) : outcome Z :=
  match v with
  | RNum z => Ret z
  | RText s => py_int_of (VStr s)
  end.

Definition lease_assert (now : datetime) (l : Lease) : M R unit :=
  r <- read_lease_lua now (ls_key l) ;;
  match r with
  | None => lift (raise FencingTokenMismatch "RC-05 lease no longer exists")
  | Some (nonce, token) =>
      if negb (String.eqb (value_text nonce) (ls_owner_nonce l))
      then lift (raise FencingTokenMismatch "RC-05 lease is no longer owned by this worker")
      else
        z <- lift (value_int token) ;;
        if negb (z =? ls_fencing_token l)%Z
        then lift (raise FencingTokenMismatch "RC-05 fencing token changed")
        else ret tt
  end.

Definition lease_release (now : datetime) (l : Lease) : M R unit :=
  _ <- release_lua now (ls_key l) (ls_owner_nonce l) ;; ret tt.
End scripts.

(** ** Facts *)

Section facts.
Context {R : Type} {RC : RedisCommands R} {RL : RedisLaws R}.

(** Whatever a command does, it changes one key only. *)
Definition only_at (k : string) (s s' : R) : Prop := forall k', k' <> k -> r_view s' k' = r_view s k'.

#[local] Instance only_at_preorder k : PreOrder (only_at k).
Proof.
  split; unfold only_at.
  - done.
  - intros s1 s2 s3 H1 H2 k' Hk. by rewrite H2, H1.
Qed.

Lemma sequence_key_ne k : sequence_key k <> k.
Proof.
  unfold sequence_key. intros E. apply (f_equal String.length) in E.
  rewrite length_append in E. simpl in E. lia.
Qed.

Lemma sequence_key_inj k1 k2 : sequence_key k1 = sequence_key k2 -> k1 = k2.
Proof.
  unfold sequence_key. revert k2. induction k1 as [|a k1 IH]; intros [|b k2] E; simpl in E.
  - done.
  - apply (f_equal String.length) in E. simpl in E. rewrite length_append in E. simpl in E. lia.
  - apply (f_equal String.length) in E. simpl in E. rewrite length_append in E. simpl in E. lia.
  - injection E as -> E. f_equal. by apply IH.
Qed.

(** The sequence of a key is a counter without expiry; [n] tokens are out. *)
Definition issued (key : string) (n : Z) (s : R) : Prop :=
  match r_view s (sequence_key key) with
  | None => n = 0%Z
  | Some (RCounter z, None) => n = z
  | Some _ => False
  end.

Lemma issued_same key n s s' :
  r_view s' (sequence_key key) = r_view s (sequence_key key) -> issued key n s -> issued key n s'.
Proof. unfold issued. by intros ->. Qed.

(** The hash a successful acquisition leaves. *)
Definition lease_hash (nonce : string) (token : Z) : gmap string redis_value :=
  list_to_map [("owner_nonce", RText nonce); ("fencing_token", RNum token)].

Lemma owned_by_same now key nonce s b s' : owned_by now key nonce s = (b, s') -> s' = s.
Proof.
  unfold owned_by, bind, ret. pose proof (law_hget now key "owner_nonce" s) as Hl.
  destruct (r_seen now s key) as [[[h|z] t]|]; [rewrite Hl | destruct Hl as [x ->] | rewrite Hl];
    intros H; by simplify_eq.
Qed.

Lemma pexpire_only now k ttl s o s' :
  r_pexpire now k ttl s = (o, s') -> only_at k s s' /\
  fst <$> r_view s' k = fst <$> r_view s k.
Proof.
  pose proof (law_pexpire now k ttl s) as Hl. unfold r_seen in Hl.
  destruct (r_view s k) as [[d t]|] eqn:E.
  - destruct (alive now (d, t)).
    + destruct Hl as (s1 & -> & Hw & Ho). intros H. simplify_eq. split; [done|]. by rewrite Hw.
    + rewrite Hl. intros H. simplify_eq. split; [by intros ??|]. by rewrite E.
  - rewrite Hl. intros H. simplify_eq. split; [by intros ??|]. by rewrite E.
Qed.

Lemma del_only now k s o s' : r_del now k s = (o, s') -> only_at k s s' /\
  (r_view s' k = r_view s k \/ r_view s' k = None).
Proof.
  pose proof (law_del now k s) as Hl. destruct (r_seen now s k).
  - destruct Hl as (s1 & -> & Hw & Ho). intros H. simplify_eq. auto.
  - destruct Hl as (s1 & -> & [->|[Hw Ho]]); intros H; simplify_eq; [|by auto].
    split; [by intros ??|]. by left.
Qed.

(** What [acquire] does to the server, by the outcome. *)
Lemma acquire_spec ttl now nonce k n s o s' :
  issued k n s -> lease_acquire ttl now nonce k s = (o, s') ->
  (forall k', k' <> k -> k' <> sequence_key k -> r_view s' k' = r_view s k') /\
  ((r_view s' (sequence_key k) = r_view s (sequence_key k) /\ r_view s' k = r_view s k /\
    (exists x, o = Raise x) /\ (is_Some (r_seen now s k) \/ (max_int64 <= n)%Z)) \/
   (issued k (n + 1) s' /\ o = Ret (mkRLease k nonce (n + 1) ttl) /\
    r_view s' k = Some (RHash (lease_hash nonce (n + 1)), Some (now + ttl)%Z))).
Proof.
  intros Hi. unfold lease_acquire, acquire_lua, bind, ret, lift, raise. rewrite law_exists.
  destruct (bool_decide _) eqn:Eb.
  { apply bool_decide_eq_true in Eb. intros H. simplify_eq/=. split; [done|]. left. eauto 6. }
  apply bool_decide_eq_false in Eb. rewrite <- eq_None_not_Some in Eb.
  pose proof (sequence_key_ne k) as Hne.
  assert (exists s1, (r_incr now (sequence_key k) s = (Ret (n + 1)%Z, s1) /\
      r_view s1 (sequence_key k) = Some (RCounter (n + 1), None) /\ only_at (sequence_key k) s s1) \/
    exists x, r_incr now (sequence_key k) s = (Raise x, s) /\ (max_int64 <= n)%Z)
    as (s1 & [(-> & Hv & Ho)|(x & -> & Hmax)]).
  { pose proof (law_incr now (sequence_key k) s) as Hl. unfold issued in Hi. unfold r_seen in Hl.
    destruct (r_view s (sequence_key k)) as [[[h|z] [t|]]|] eqn:E; try done; cbn in Hl.
    - subst z. destruct (Z.ltb_spec n max_int64).
      + destruct Hl as (s1 & -> & Hw & Ho). exists s1. by left.
      + destruct Hl as [x ->]. exists s. right. by exists x.
    - subst n. destruct Hl as (s1 & -> & Hw & Ho). exists s1. by left. }
  2: { intros H. simplify_eq/=. split; [done|]. left. eauto 6. }
  assert (r_seen now s1 k = None) as Eb1.
  { unfold r_seen in *. by rewrite Ho by done. }
  pose proof (law_hset now k [("owner_nonce", RText nonce); ("fencing_token", RNum (n + 1))] s1) as Hl.
  rewrite Eb1 in Hl. destruct Hl as (s2 & -> & Hw2 & Ho2).
  pose proof (law_pexpire now k ttl s2) as Hl. unfold r_seen in Hl. rewrite Hw2 in Hl. cbn in Hl.
  destruct Hl as (s3 & -> & Hw3 & Ho3). intros H. simplify_eq/=. split.
  - intros k' H1 H2. by rewrite Ho3, Ho2, Ho.
  - right. split; [|done]. unfold issued. by rewrite Ho3, Ho2, Hv by done.
Qed.

(** A free key is acquired with the next token. *)
Lemma acquire_free ttl now nonce k n s :
  issued k n s -> r_view s k = None -> (n < max_int64)%Z ->
  exists s', lease_acquire ttl now nonce k s = (Ret (mkRLease k nonce (n + 1) ttl), s') /\
    r_view s' k = Some (RHash (lease_hash nonce (n + 1)), Some (now + ttl)%Z).
Proof.
  intros Hi Hv Hn. destruct (lease_acquire ttl now nonce k s) as [o s'] eqn:E.
  destruct (acquire_spec _ _ _ _ _ _ _ _ Hi E) as [_ [(_ & _ & _ & H)|(_ & -> & H)]]; [|by eexists].
  unfold r_seen in H. rewrite Hv in H. destruct H as [[? [=]]|]; lia.
Qed.

(** The holder of an unexpired lease passes the check, which changes nothing. *)
Lemma lease_assert_held now ttl k nonce t e s :
  r_view s k = Some (RHash (lease_hash nonce t), Some e) -> (now < e)%Z ->
  lease_assert now (mkRLease k nonce t ttl) s = (Ret tt, s).
Proof.
  intros Hv Hnow. unfold lease_assert, read_lease_lua, bind, ret, lift. cbn [ls_key].
  assert (forall f, r_hget now k f s = (Ret (lease_hash nonce t !! f), s)) as Hget.
  { intros f. pose proof (law_hget now k f s) as Hl. unfold r_seen in Hl. rewrite Hv in Hl.
    cbn in Hl. by rewrite (proj2 (Z.ltb_lt now e)) in Hl. }
  rewrite !Hget. unfold lease_hash.
  cbn. rewrite lookup_insert_eq, lookup_insert_ne, lookup_insert_eq by done.
  cbn. by rewrite String.eqb_refl, Z.eqb_refl.
Qed.

(** ** Other clients *)

(** A key whose hash and counter do not collide with those of [key]. *)
Definition apart (key k : string) : Prop := k <> sequence_key key /\ sequence_key k <> key.

(** One call of some client, or the server dropping an expired entry. *)
Inductive redis_step (key : string) : R -> R -> Prop :=
  | step_acquire ttl now nonce k n s o s' :
      apart key k -> issued k n s -> lease_acquire ttl now nonce k s = (o, s') ->
      redis_step key s s'
  | step_renew now l s o s' :
      apart key (ls_key l) -> lease_renew now l s = (o, s') -> redis_step key s s'
  | step_release now l s o s' :
      apart key (ls_key l) -> lease_release now l s = (o, s') -> redis_step key s s'
  | step_expire now k e s s' :
      r_view s k = Some e -> alive now e = false -> r_wrote s s' k None -> redis_step key s s'.

(** A lease with token [t] has been superseded: more tokens are out, and what is
    stored under the key carries a larger one. *)
Definition superseded (key : string) (t : Z) (s : R) : Prop :=
  (exists n, (t < n)%Z /\ issued key n s) /\
  match r_view s key with
  | Some (RHash f, _) => exists z, f !! "fencing_token" = Some (RNum z) /\ (t < z)%Z
  | Some (RCounter _, _) => False
  | None => True
  end.

Lemma renew_only now l s o s' :
  lease_renew now l s = (o, s') -> only_at (ls_key l) s s' /\
  fst <$> r_view s' (ls_key l) = fst <$> r_view s (ls_key l).
Proof.
  unfold lease_renew, renew_lua, bind, ret, lift.
  destruct (owned_by _ _ _ s) as [[b|x] s1] eqn:E; apply owned_by_same in E as ->.
  - destruct b.
    + destruct (r_pexpire _ _ _ s) as [[b|x] s2] eqn:Ep; apply pexpire_only in Ep as [Ho Hv].
      * destruct b; cbn; intros H; by simplify_eq.
      * intros H. by simplify_eq.
    + cbn. intros H. by simplify_eq.
  - intros H. by simplify_eq.
Qed.

Lemma release_only now l s o s' :
  lease_release now l s = (o, s') -> only_at (ls_key l) s s' /\
  (r_view s' (ls_key l) = r_view s (ls_key l) \/ r_view s' (ls_key l) = None).
Proof.
  unfold lease_release, release_lua, bind, ret.
  destruct (owned_by _ _ _ s) as [[b|x] s1] eqn:E; apply owned_by_same in E as ->.
  - destruct b.
    + destruct (r_del _ _ s) as [[b|x] s2] eqn:Ed; apply del_only in Ed as [Ho Hv];
        intros H; by simplify_eq.
    + intros H. simplify_eq. split; [by intros ?? | by left].
  - intros H. simplify_eq. split; [by intros ?? | by left].
Qed.

(** The number of tokens handed out never decreases. *)
Lemma redis_step_issued key n s s' :
  issued key n s -> redis_step key s s' -> exists n', (n <= n')%Z /\ issued key n' s'.
Proof.
  intros Hi. destruct 1 as [ttl now nonce k n1 s o s' [Ha _] Hk H|now l s o s' [Ha _] H
    |now l s o s' [Ha _] H|now k e s s' Hv Hal [Hw Ho]].
  - apply acquire_spec with (n := n1) in H as [Ho H]; [|done]. destruct (decide (k = key)) as [->|Hne].
    + assert (n1 = n) as ->.
      { unfold issued in *. by destruct (r_view s (sequence_key key)) as [[[|] []]|]; subst. }
      destruct H as [(Hs & _)|(Hs & _)]; [|exists (n + 1)%Z; split; [lia | done]].
      exists n. split; [lia | by eapply issued_same].
    + exists n. split; [lia|]. eapply issued_same; [|done]. apply Ho; [by intros E; apply Ha|].
      by intros E%sequence_key_inj.
  - apply renew_only in H as [Ho _]. exists n. split; [lia|]. eapply issued_same; [|done].
    apply Ho. by intros E; apply Ha.
  - apply release_only in H as [Ho _]. exists n. split; [lia|]. eapply issued_same; [|done].
    apply Ho. by intros E; apply Ha.
  - exists n. split; [lia|]. eapply issued_same; [|done]. apply Ho. intros <-.
    unfold issued in Hi. rewrite Hv in Hi. by destruct e as [[|] []].
Qed.

Lemma superseded_same key t s s' :
  (exists n, (t < n)%Z /\ issued key n s') -> superseded key t s ->
  r_view s' key = r_view s key \/ r_view s' key = None -> superseded key t s'.
Proof. intros Hi [_ H] [E|E]; split; try done; by rewrite E. Qed.

Lemma redis_step_superseded key t s s' :
  superseded key t s -> redis_step key s s' -> superseded key t s'.
Proof.
  intros Hsup Hstep. pose proof Hsup as [(n & Hn & Hi) Hv].
  destruct (redis_step_issued _ _ _ _ Hi Hstep) as (n' & Hn' & Hi').
  assert (exists n, (t < n)%Z /\ issued key n s') as Hex by (exists n'; split; [lia | done]).
  destruct Hstep as [ttl now nonce k n1 s o s' [_ Ha] Hk H|now l s o s' _ H
    |now l s o s' _ H|now k e s s' Hk Hal [Hw Ho]].
  - apply acquire_spec with (n := n1) in H as [Ho H]; [|done]. destruct (decide (k = key)) as [->|Hne].
    + destruct H as [(_ & Hs & _)|(Hs & _ & Hh)]; [by eapply superseded_same; eauto|].
      split; [done|]. rewrite Hh. exists (n1 + 1)%Z. split; [done|].
      unfold issued in *. destruct (r_view s (sequence_key key)) as [[[|] []]|]; try done; lia.
    + eapply superseded_same; [done | done | left]. apply Ho; [done | by intros ->].
  - apply renew_only in H as [Ho Hd]. destruct (decide (ls_key l = key)) as [E|Hne].
    + rewrite E in Hd. split; [done|].
      destruct (r_view s key) as [[d e]|], (r_view s' key) as [[d' e']|]; try done.
      injection Hd as ->. exact Hv.
    + eapply superseded_same; [done | done | left]. apply Ho. by intros ->.
  - apply release_only in H as [Ho Hd]. eapply superseded_same; [done | done |].
    destruct (decide (ls_key l = key)) as [<-|Hne]; [done | left]. apply Ho. by intros ->.
  - eapply superseded_same; [done | done |].
    destruct (decide (k = key)) as [<-|Hne]; [by right | left]. apply Ho. by intros ->.
Qed.

(** A superseded lease fails every later check. *)
Lemma superseded_rejected now l s :
  superseded (ls_key l) (ls_fencing_token l) s ->
  exists m, lease_assert now l s = (raise FencingTokenMismatch m, s).
Proof.
  intros [_ Hv]. unfold lease_assert, read_lease_lua, bind, ret, lift.
  pose proof (law_hget now (ls_key l) "owner_nonce" s) as H1.
  pose proof (law_hget now (ls_key l) "fencing_token" s) as H2. unfold r_seen in H1, H2.
  destruct (r_view s (ls_key l)) as [[[f|z] e]|]; [|done|rewrite H1, H2; by eexists].
  destruct (alive now _); rewrite H1, H2; [|by eexists].
  destruct Hv as (z & -> & Hz). destruct (f !! "owner_nonce") as [v|]; [|by eexists].
  destruct (negb (String.eqb _ _)); [by eexists|]. cbn.
  rewrite (proj2 (Z.eqb_neq z (ls_fencing_token l))) by lia. by eexists.
Qed.

Lemma redis_run_superseded key t s s' :
  superseded key t s -> rtc (redis_step key) s s' -> superseded key t s'.
Proof. apply rtc_invariant. intros a b. apply redis_step_superseded. Qed.

Lemma redis_run_issued key n s s' :
  issued key n s -> rtc (redis_step key) s s' -> exists n', (n <= n')%Z /\ issued key n' s'.
Proof.
  intros Hi Hrun. revert n Hi. induction Hrun as [s|s1 s2 s3 Hs _ IH]; intros n Hi; [by exists n|].
  destruct (redis_step_issued _ _ _ _ Hi Hs) as (n1 & H1 & Hi1).
  destruct (IH _ Hi1) as (n2 & H2 & Hi2). exists n2. split; [lia | done].
Qed.
End facts.
