(* ===== verification/Resilience.v ===== *)
(** * Production resilience: the rest of [ois/kernel/production_resilience.py]

    The attested evidence chain, the dead-letter queue, the transaction that is
    retried under a fencing lease, and the check of the recovery matrix.

    The coroutine awaits between its statements, so everything outside it is a
    [World]: before the [n]-th input or output other clients, and the heartbeat
    of the lease, change the Redis server, and the [n]-th input or output may
    raise.  The protected database state is what the operation's transaction
    reads and writes. *)

From stdpp Require Import base gmap strings list relations pretty.
From Stdlib Require Import ZArith Lia Floats.SpecFloat.
From S2P Require Import Prelude Uuid Json Recovery Stores Leases.
Local Open Scope py_scope.

Record KernelTaskContext := mkTaskContext {
  kt_tenant_id : string;
  kt_thread_id : string;
  kt_workflow_version : string;
  kt_max_retries : Z;
  kt_base_backoff_s : spec_float;
  kt_max_backoff_s : spec_float;
  kt_retry_deadline_s : spec_float }.

(** [hmac.new(secret, text, sha256).hexdigest()] *)
Class Hmac := hmac_sha256 : string -> string -> string.

(** A row of [ois_attestation_evidence], in insertion order. *)
Record chain_row := mkChainRow {
  ch_tenant_id : string;
  ch_thread_id : string;
  ch_event_type : string;
  ch_payload_hash : string;
  ch_context_snapshot : json_text;
  ch_previous_event_hash : option string;
  ch_event_hash : string;
  ch_attestation_signature : string }.

(** A row of [ois_kernel_dead_letter_queue]. *)
Record dlq_row := mkDlqRow {
  dq_tenant_id : string;
  dq_thread_id : string;
  dq_last_scenario_id : string;
  dq_error_diagnostic_log : string;
  dq_frozen_context_data : json_text;
  dq_context_hash : string;
  dq_seal_signature : string }.

(** What an input or output talks to. *)
Inductive io_kind := RedisIO | DatabaseIO | RecoveryIO.

#[export] Instance io_kind_eq_dec : EqDecision io_kind.
Proof. solve_decision. Defined.

(** [(psycopg.OperationalError, OSError)] *)
Definition operational_error : exn_class := OtherException "OperationalError".
Definition is_operational (x : exn) : bool :=
  is_class operational_error x || is_class OSError x.

Section resilience.
Context {R : Type} {RC : RedisCommands R} {IF : IsoFormat} {SH : Sha256} {HM : Hmac}.
Context {D A : Type}.

Record World := mkWorld {
  w_redis : nat -> R -> R;
  w_redis_time : nat -> datetime;
  w_fault : io_kind -> nat -> option exn;
  w_lost : nat -> bool;
  w_loop_time : nat -> spec_float;
  w_uniform : nat -> spec_float -> spec_float;
  w_nonce : string }.

Record Tx := mkTx {
  tx_step : nat;
  tx_redis : R;
  tx_db : D;
  tx_chain : list chain_row;
  tx_dlq : list dlq_row;
  tx_env : Env }.

(** The constructor's arguments: the signing secret, the lease duration and
    whether a recovery pool is configured. *)
Record Resilience := mkResilience {
  rz_secret : string;
  rz_lease_ttl_ms : Z;
  rz_recovery_pool : bool }.

(** [OISProductionResilience(...)]: the checks of the two parts it creates. *)
Definition new_resilience (secret : string) (ttl_ms : Z) (pool : bool) : outcome Resilience :=
  ttl <-? new_lease_manager ttl_ms ;;
  if String.eqb secret "" then raise ValueError "evidence signing secret must not be empty"
  else Ret (mkResilience secret ttl pool).

Variable w : World.
Variable rz : Resilience.

(** One input or output: the others move first, then it may raise. *)
Definition io (k : io_kind) : M Tx nat := fun s =>
  let n := tx_step s in
  let s' := mkTx (S n) (w_redis w n (tx_redis s)) (tx_db s) (tx_chain s) (tx_dlq s) (tx_env s) in
  match w_fault w k n with
  | Some x => (Raise x, s')
  | None => (Ret n, s')
  end.

(** A script evaluated by the server. *)
Definition on_redis {B} (m : datetime -> M R B) : M Tx B :=
  n <- io RedisIO ;;
  fun s => let '(o, r) := m (w_redis_time w n) (tx_redis s) in
           (o, mkTx (tx_step s) r (tx_db s) (tx_chain s) (tx_dlq s) (tx_env s)).

(** ** [PostgresEvidenceChain] *)

Definition last_event_hash (tenant thread : string) (chain : list chain_row) : option string :=
  ch_event_hash <$>
    last (List.filter (fun r => String.eqb (ch_tenant_id r) tenant &&
                                String.eqb (ch_thread_id r) thread) chain).

(** [_event_hash]; [_canonical] is the text of the sorted JSON value. *)
Definition event_hash (payload : dict) (previous : option string) : outcome string :=
  t <-? dumps (VDict [("previous", match previous with Some h => VStr h | None => VNone end);
                      ("payload", VDict payload)]) ;;
  Ret (sha256 t).

(** [_signature] *)
Definition chain_signature (tenant thread hash : string) : string :=
  hmac_sha256 (rz_secret rz) (tenant +:+ ":" +:+ thread +:+ ":" +:+ hash).

Definition event_payload (tenant thread ty : string) (context : dict) (now : datetime) : dict := [
  ("tenant_id", VStr tenant); ("thread_id", VStr thread); ("event_type", VStr ty);
  ("context", VDict context); ("recorded_at", VStr (isoformat now))].

Definition read_utc : M Tx datetime := fun s =>
  let '(now, e) := utc_now (tx_env s) in
  (Ret now, mkTx (tx_step s) (tx_redis s) (tx_db s) (tx_chain s) (tx_dlq s) e).

Definition insert_event (r : chain_row) : M Tx unit :=
  modify (fun s => mkTx (tx_step s) (tx_redis s) (tx_db s) (tx_chain s ++ [r]) (tx_dlq s)
                     (tx_env s)).

(** [append] *)
Definition chain_append (tenant thread ty : string) (context : dict) : M Tx string :=
  now <- read_utc ;;
  let payload := event_payload tenant thread ty context now in
  payload_text <- lift (dumps (VDict payload)) ;;
  _ <- io DatabaseIO ;;
  s <- get ;;
  let previous := last_event_hash tenant thread (tx_chain s) in
  hash <- lift (event_hash payload previous) ;;
  snapshot <- lift (dumps (VDict context)) ;;
  _ <- io DatabaseIO ;;
  insert_event (mkChainRow tenant thread ty (sha256 payload_text) snapshot previous hash
                  (chain_signature tenant thread hash)) ;;;
  ret hash.

(** ** [OISProductionResilience] *)

(** [_write_dlq] *)
Definition write_dlq (c : KernelTaskContext) (scenario : string) (state_dump : dict)
    (message : string) : M Tx unit :=
  if negb (rz_recovery_pool rz) then
    lift (raise RecoverySinkUnavailable "RC-04 durable recovery_pool is not configured")
  else
    canonical <- lift (dumps (VDict state_dump)) ;;
    let hash := sha256 canonical in
    let seal := hmac_sha256 (rz_secret rz) (kt_tenant_id c +:+ ":" +:+ kt_thread_id c +:+ ":" +:+
                  scenario +:+ ":" +:+ hash) in
    _ <- io RecoveryIO ;;
    modify (fun s => mkTx (tx_step s) (tx_redis s) (tx_db s) (tx_chain s)
      (tx_dlq s ++ [mkDlqRow (kt_tenant_id c) (kt_thread_id c) scenario message canonical hash seal])
      (tx_env s)).

Definition lock_key (c : KernelTaskContext) : string :=
  "ois:lease:" +:+ kt_tenant_id c +:+ ":" +:+ kt_thread_id c.

(** [await self.leases.assert_current(lease)] *)
Definition check_lease (l : Lease) : M Tx unit := on_redis (fun now => lease_assert now l).

(** [if heartbeat.lost.is_set(): raise ...] *)
Definition check_heartbeat : M Tx unit := fun s =>
  if w_lost w (tx_step s)
  then (raise FencingTokenMismatch "RC-05 heartbeat lost during protected operation", s)
  else (Ret tt, s).

Section transaction.
Variable ctx : KernelTaskContext.
Variable scenario : string.
(** [db_operation(cur, token)]: its result and the database after it. *)
Variable operation : Z -> D -> outcome (A * D).
Variable state_dump : dict.

(** The operation inside its transaction: nothing is visible before the
    commit, and an exception rolls back.  It takes a moment, in which the other
    clients of the server move. *)
Definition run_operation (l : Lease) : M Tx (A * D) := fun s =>
  let n := tx_step s in
  (operation (ls_fencing_token l) (tx_db s),
   mkTx (S n) (w_redis w n (tx_redis s)) (tx_db s) (tx_chain s) (tx_dlq s) (tx_env s)).

(** [await conn.commit()] *)
Definition commit_db (d : D) : M Tx unit :=
  _ <- io DatabaseIO ;;
  modify (fun s => mkTx (tx_step s) (tx_redis s) d (tx_chain s) (tx_dlq s) (tx_env s)).

(** From the last check to the evidence of success. *)
Definition commit_and_attest (l : Lease) (r : A * D) : M Tx A :=
  check_lease l ;;;
  commit_db (snd r) ;;;
  _ <- chain_append (kt_tenant_id ctx) (kt_thread_id ctx) "TRANSACTION_SUCCESS"
         [("scenario_id", VStr scenario); ("fencing_token", VInt (ls_fencing_token l))] ;;
  ret (fst r).

(** The body of the [try] statement. *)
Definition tx_attempt (l : Lease) : M Tx A :=
  check_lease l ;;;
  _ <- io DatabaseIO ;;
  _ <- io DatabaseIO ;;
  check_lease l ;;;
  r <- run_operation l ;;
  check_heartbeat ;;;
  commit_and_attest l r.

(** The handler of transient errors; [count] includes this one. *)
Definition handle_transient (started : spec_float) (x : exn) (count : Z) : M Tx unit :=
  s <- get ;;
  let elapsed := SFsub 53 1024 (w_loop_time w (tx_step s)) started in
  if (kt_max_retries ctx <? count)%Z || SFleb (kt_retry_deadline_s ctx) elapsed then
    write_dlq ctx scenario state_dump (exn_msg x) ;;;
    _ <- chain_append (kt_tenant_id ctx) (kt_thread_id ctx) "RECOVERY_DLQ"
           [("scenario_id", VStr scenario); ("retry_count", VInt count)] ;;
    lift (raise RetryExhaustedException "RC-04 retry/deadline budget exhausted")
  else
    p <- lift (float_pow2 count) ;;
    let ceiling := py_min (kt_max_backoff_s ctx) (SFmul 53 1024 (kt_base_backoff_s ctx) p) in
    let delay := w_uniform w (tx_step s) ceiling in
    _ <- chain_append (kt_tenant_id ctx) (kt_thread_id ctx) "RECOVERY_RETRY"
           [("scenario_id", VStr scenario); ("retry_count", VInt count);
            ("delay_s", VFloat delay)] ;;
    ret tt.

(** [while True]; the handlers' own exceptions leave the loop. *)
Fixpoint tx_loop (fuel : nat) (started : spec_float) (l : Lease) (count : Z) : M Tx (option A) :=
  match fuel with
  | O => ret None
  | S fuel => fun s =>
      match tx_attempt l s with
      | (Ret a, s') => (Ret (Some a), s')
      | (Raise x, s') =>
          if is_operational x then
            (handle_transient started x (count + 1)%Z ;;;
             tx_loop fuel started l (count + 1)%Z) s'
          else if is_class FencingTokenMismatch x then
            (_ <- chain_append (kt_tenant_id ctx) (kt_thread_id ctx) "RC05_FENCING_REJECTED"
                    [("scenario_id", VStr scenario);
                     ("fencing_token", VInt (ls_fencing_token l))] ;;
             throw x) s'
          else (Raise x, s')
      end
  end.

(** [try: m finally: release], where the release swallows its exceptions. *)
Definition finally_release {B} (l : Lease) (m : M Tx B) : M Tx B := fun s =>
  let '(o, s1) := m s in
  let '(_, s2) := on_redis (fun now => lease_release now l) s1 in
  (o, s2).

Definition execute_fenced_transaction (fuel : nat) : M Tx (option A) :=
  l <- on_redis (fun now => lease_acquire (rz_lease_ttl_ms rz) now (w_nonce w) (lock_key ctx)) ;;
  s <- get ;;
  finally_release l (tx_loop fuel (w_loop_time w (tx_step s)) l 0).
End transaction.
End resilience.

Arguments World : clear implicits.
Arguments Tx : clear implicits.

(** ** The recovery matrix *)

Definition RECOVERY_SCENARIO_IDS : list string := [
  "RC-01"; "RC-02"; "RC-03"; "RC-04"; "RC-05"; "RC-06"; "RC-07"; "RC-08"; "RC-09"; "RC-10";
  "RC-11"; "RC-12"].

(** [validate_recovery_matrix]; only the keys of the handlers matter. *)
Definition validate_recovery_matrix (handlers : list string) : outcome unit :=
  match List.filter (fun id => negb (bool_decide (id ∈ handlers))) RECOVERY_SCENARIO_IDS with
  | [] => Ret tt
  | missing => raise KernelPanicException
                 ("Recovery conformance matrix incomplete: " +:+ join ", " missing)
  end.
