(* ===== verification/ResilienceFacts.v ===== *)
(** * Facts about the fenced transaction

    Every run refines a step system in which the database changes only by a
    commit right after the lease check succeeded, the evidence chain stays
    linked, and the retry loop is bounded. *)

From stdpp Require Import base gmap strings list relations pretty.
From Stdlib Require Import ZArith Lia Floats.SpecFloat.
From S2P Require Import Prelude Uuid Json Recovery Stores Leases Resilience.
Local Open Scope py_scope.

Section facts.
Context {R : Type} {RC : RedisCommands R} {IF : IsoFormat} {SH : Sha256} {HM : Hmac}.
Context {D A : Type}.
Variable w : World R.
Variable rz : Resilience.
Variable ctx : KernelTaskContext.
Variable scenario : string.
Variable operation : Z -> D -> outcome (A * D).
Variable state_dump : dict.

Abbreviation St := (Tx R D).

(** ** The step system *)

(** [r] continues [chain]: it names the last event of its thread, and its hash
    and signature are those of a payload with that predecessor. *)
Definition attests (chain : list chain_row) (r : chain_row) : Prop :=
  ch_previous_event_hash r = last_event_hash (ch_tenant_id r) (ch_thread_id r) chain /\
  ch_attestation_signature r =
    chain_signature rz (ch_tenant_id r) (ch_thread_id r) (ch_event_hash r) /\
  exists context now t,
    dumps (VDict (event_payload (ch_tenant_id r) (ch_thread_id r) (ch_event_type r) context now))
      = Ret t /\
    ch_payload_hash r = sha256 t /\ dumps (VDict context) = Ret (ch_context_snapshot r) /\
    event_hash (event_payload (ch_tenant_id r) (ch_thread_id r) (ch_event_type r) context now)
      (ch_previous_event_hash r) = Ret (ch_event_hash r).

(** The commands this worker sends to the server. *)
Inductive own_command (l : Lease) : (datetime -> M R unit) -> Prop :=
  | own_acquire ttl : own_command l (fun now => lease_acquire ttl now (ls_owner_nonce l) (ls_key l) ;;; ret tt)
  | own_check : own_command l (fun now => lease_assert now l)
  | own_release : own_command l (fun now => lease_release now l).

(** One move.  Time passes by moments: in each the other clients of the server
    move, and this worker sends at most one command.  The database changes by a
    commit only, whose moment is the one after that of a check of the lease that
    succeeded. *)
Inductive tx_move (l : Lease) : St -> St -> Prop :=
  | move_local s s' :
      tx_step s' = tx_step s -> tx_redis s' = tx_redis s ->
      tx_db s' = tx_db s -> tx_chain s' = tx_chain s -> tx_dlq s' = tx_dlq s -> tx_move l s s'
  | move_moment s s' :
      tx_step s' = S (tx_step s) -> tx_redis s' = w_redis w (tx_step s) (tx_redis s) ->
      tx_db s' = tx_db s -> tx_chain s' = tx_chain s -> tx_dlq s' = tx_dlq s -> tx_move l s s'
  | move_command s s' m :
      own_command l m -> tx_step s' = S (tx_step s) ->
      tx_redis s' = snd (m (w_redis_time w (tx_step s)) (w_redis w (tx_step s) (tx_redis s))) ->
      tx_db s' = tx_db s -> tx_chain s' = tx_chain s -> tx_dlq s' = tx_dlq s -> tx_move l s s'
  | move_evidence s s' r :
      tx_step s' = tx_step s -> tx_redis s' = tx_redis s ->
      attests (tx_chain s) r -> tx_chain s' = tx_chain s ++ [r] -> tx_db s' = tx_db s ->
      tx_dlq s' = tx_dlq s -> tx_move l s s'
  | move_dead_letter s s' r :
      tx_step s' = tx_step s -> tx_redis s' = tx_redis s ->
      tx_dlq s' = tx_dlq s ++ [r] -> tx_chain s' = tx_chain s -> tx_db s' = tx_db s ->
      tx_move l s s'
  | move_commit s s' a d r :
      lease_assert (w_redis_time w (tx_step s)) l (w_redis w (tx_step s) (tx_redis s)) = (Ret tt, r) ->
      operation (ls_fencing_token l) (tx_db s) = Ret (a, d) ->
      tx_step s' = S (S (tx_step s)) -> tx_redis s' = w_redis w (S (tx_step s)) r -> tx_db s' = d ->
      tx_chain s' = tx_chain s -> tx_dlq s' = tx_dlq s -> tx_move l s s'.

Definition moves_to (l : Lease) : St -> St -> Prop := rtc (tx_move l).

#[export] Instance moves_to_preorder l : PreOrder (moves_to l).
Proof. unfold moves_to. apply _. Qed.

Variable l : Lease.

(** What leaves the step, the server and the tables as they are. *)
Lemma moves_local {B} (m : M St B) :
  (forall s, tx_step (snd (m s)) = tx_step s /\ tx_redis (snd (m s)) = tx_redis s /\
     tx_db (snd (m s)) = tx_db s /\ tx_chain (snd (m s)) = tx_chain s /\
     tx_dlq (snd (m s)) = tx_dlq s) -> keeps (moves_to l) m.
Proof. intros H s. destruct (H s) as (? & ? & ? & ? & ?). by apply rtc_once, move_local. Qed.

Lemma moves_io k : keeps (moves_to l) (io (D := D) w k).
Proof. intros s. apply rtc_once, move_moment; unfold io; by destruct (w_fault w k (tx_step s)). Qed.

Lemma moves_redis {B} (m : datetime -> M R B) m' :
  own_command l m' -> (forall now r, snd (m' now r) = snd (m now r)) ->
  keeps (moves_to l) (on_redis (D := D) w m).
Proof.
  intros Hm' Hm s. unfold on_redis, bind, io. destruct (w_fault w RedisIO (tx_step s)) as [x|].
  - by apply rtc_once, move_moment.
  - cbn. pose proof (Hm (w_redis_time w (tx_step s)) (w_redis w (tx_step s) (tx_redis s))) as Hr.
    destruct (m _ _) as [o r]. by apply rtc_once, (move_command l s _ m').
Qed.

Lemma moves_check : keeps (moves_to l) (check_lease (D := D) w l).
Proof. by apply (moves_redis _ _ (own_check l)). Qed.

Lemma moves_release : keeps (moves_to l) (on_redis (D := D) w (fun now => lease_release now l)).
Proof. by apply (moves_redis _ _ (own_release l)). Qed.

Lemma moves_acquire ttl :
  keeps (moves_to l) (on_redis (D := D) w (fun now => lease_acquire ttl now (ls_owner_nonce l) (ls_key l))).
Proof.
  apply (moves_redis _ _ (own_acquire l ttl)). intros now r. unfold bind, ret.
  by destruct (lease_acquire _ _ _ _ r) as [[?|?] ?].
Qed.

Lemma moves_heartbeat : keeps (moves_to l) (check_heartbeat (D := D) w).
Proof. apply moves_local. intros s. unfold check_heartbeat. by destruct (w_lost _ _). Qed.

Lemma moves_utc : keeps (moves_to l) (read_utc (R := R) (D := D)).
Proof. by apply moves_local. Qed.

Hint Resolve moves_io moves_check moves_release moves_acquire moves_heartbeat moves_utc : core.

(** The chain a computation leaves alone. *)
Lemma io_ret k (s s' : St) n :
  io w k s = (Ret n, s') ->
  n = tx_step s /\ tx_step s' = S n /\ tx_redis s' = w_redis w n (tx_redis s) /\
  tx_db s' = tx_db s /\ tx_chain s' = tx_chain s /\ tx_dlq s' = tx_dlq s /\ tx_env s' = tx_env s.
Proof. unfold io. destruct (w_fault w k (tx_step s)); intros H; by simplify_eq. Qed.

(** [append] adds one attested event or nothing. *)
Lemma moves_append tenant thread ty context :
  keeps (moves_to l) (chain_append (D := D) w rz tenant thread ty context).
Proof.
  unfold chain_append. apply keeps_bind; [apply _ | auto |]. intros now. cbn zeta. intros s.
  unfold bind at 1, lift at 1. destruct (dumps _) as [pt|] eqn:Ep; [|by left].
  unfold bind at 1. pose proof (moves_io DatabaseIO s) as Hio.
  destruct (io w DatabaseIO s) as [[n|] s1] eqn:E1; [|done]. etransitivity; [exact Hio|].
  unfold bind at 1, get, bind at 1, lift at 1.
  destruct (event_hash _ _) as [h|] eqn:Eh; [|by left]. unfold bind at 1, lift.
  destruct (dumps (VDict context)) as [snap|] eqn:Es; [|by left].
  unfold bind at 1. pose proof (moves_io DatabaseIO s1) as Hio1.
  destruct (io w DatabaseIO s1) as [[n1|] s2] eqn:E2; [|done]. etransitivity; [exact Hio1|].
  apply io_ret in E2 as (_ & _ & _ & _ & Hc & _).
  apply rtc_once. eapply (move_evidence l s2); [done | done | |done..]. cbn.
  split_and!; cbn; [by rewrite Hc | done | by eexists _, _, _].
Qed.

Lemma moves_dlq c x : keeps (moves_to l) (write_dlq (D := D) w rz c scenario state_dump x).
Proof.
  unfold write_dlq. destruct (negb _); [by keeps_auto|].
  apply keeps_bind; [apply _ | by keeps_auto |]. intros t. cbn zeta.
  apply keeps_bind; [apply _ | auto |]. intros n s. apply rtc_once. by eapply move_dead_letter.
Qed.
Hint Resolve moves_append moves_dlq : core.

Lemma moves_handle started x n :
  keeps (moves_to l) (handle_transient (D := D) w rz ctx scenario state_dump started x n).
Proof.
  unfold handle_transient. repeat first [keeps_step | progress cbn zeta]; auto.
Qed.
Hint Resolve moves_handle : core.

(** A check that succeeds found the lease current. *)
Lemma check_lease_ret (s s' : St) u :
  check_lease w l s = (Ret u, s') ->
  lease_assert (w_redis_time w (tx_step s)) l (w_redis w (tx_step s) (tx_redis s)) = (Ret tt, tx_redis s') /\
  tx_step s' = S (tx_step s) /\ tx_db s' = tx_db s /\ tx_chain s' = tx_chain s /\ tx_dlq s' = tx_dlq s.
Proof.
  unfold check_lease, on_redis. intros H. apply bind_ret_inv in H as (n & s1 & H1 & H).
  apply io_ret in H1 as (-> & Hn & Hr & Hd & Hc & Hq & _). rewrite Hr in H.
  destruct (lease_assert _ l _) as [[[]|] r] eqn:E; by simplify_eq.
Qed.

Lemma moves_commit_attest (s : St) a d :
  operation (ls_fencing_token l) (tx_db s) = Ret (a, d) ->
  moves_to l s (snd (commit_and_attest w rz ctx scenario l (a, d) s)).
Proof.
  intros Hop. unfold commit_and_attest. unfold bind at 1.
  pose proof (moves_check s) as Hm. destruct (check_lease w l s) as [[u|] s1] eqn:E1; [|done].
  apply check_lease_ret in E1 as (Hv & Hn & Hd & Hc & Hq).
  unfold bind at 1, commit_db. unfold bind at 1.
  pose proof (moves_io DatabaseIO s1) as Hm1.
  destruct (io w DatabaseIO s1) as [[n|] s2] eqn:E2; cbn [modify snd];
    [|by etransitivity; [exact Hm | exact Hm1]].
  apply io_ret in E2 as (Hn1 & Hn2 & Hr2 & _ & Hc2 & Hq2 & _).
  unfold modify. match goal with |- context [mkTx ?n1 ?r1 d ?c1 ?q1 ?e1] => set (s3 := mkTx n1 r1 d c1 q1 e1) end.
  transitivity s3.
  { apply rtc_once, (move_commit l s s3 a d (tx_redis s1)); cbn; congruence. }
  refine (keeps_bind _ _ _ (moves_append _ _ _ _) _ s3). intros h. by keeps_auto.
Qed.

Lemma moves_attempt : keeps (moves_to l) (tx_attempt w rz ctx scenario operation l).
Proof.
  unfold tx_attempt. do 4 (apply keeps_bind; [apply _ | auto | intros _]). intros s.
  unfold bind at 1, run_operation. set (s1 := mkTx _ _ _ _ _ _).
  transitivity s1; [by apply rtc_once, move_moment|].
  destruct (operation _ (tx_db s)) as [[a1 d]|x] eqn:Eop; [|by left].
  unfold bind, check_heartbeat. destruct (w_lost w (tx_step s1)); [by left|].
  by apply moves_commit_attest.
Qed.

Lemma moves_loop fuel started n :
  keeps (moves_to l) (tx_loop w rz ctx scenario operation state_dump fuel started l n).
Proof.
  revert n. induction fuel as [|fuel IH]; intros n; [by intros s; left|]. intros s. cbn [tx_loop].
  pose proof (moves_attempt s) as Hm. destruct (tx_attempt _ _ _ _ _ l s) as [[a|x] s1]; [done|].
  etransitivity; [exact Hm|]. destruct (is_operational x).
  - exact (keeps_bind (moves_to l) _ _ (moves_handle started x (n + 1)) (fun _ => IH (n + 1)%Z) s1).
  - destruct (is_class FencingTokenMismatch x); [|by left].
    refine (keeps_bind _ _ _ (moves_append _ _ _ _) _ s1). intros h. by keeps_auto.
Qed.

Lemma moves_finally {B} (m : M St B) :
  keeps (moves_to l) m -> keeps (moves_to l) (finally_release w l m).
Proof.
  intros Hm s. unfold finally_release. specialize (Hm s). destruct (m s) as [o s1].
  pose proof (moves_release s1) as Hr.
  destruct (on_redis w _ s1) as [o2 s2]. by etransitivity; [exact Hm | exact Hr].
Qed.

(** ** The retry budget *)

Lemma handle_transient_ret started x n (s s' : St) u :
  handle_transient w rz ctx scenario state_dump started x n s = (Ret u, s') ->
  (n <= kt_max_retries ctx)%Z.
Proof.
  unfold handle_transient, bind at 1, get. destruct (Z.ltb_spec (kt_max_retries ctx) n); [|lia].
  cbn [orb]. intros H1. apply bind_ret_inv in H1 as (? & s1 & _ & H1).
  by apply bind_ret_inv in H1 as (? & s2 & _ & H1).
Qed.

Lemma tx_loop_enough fuel started n (s s' : St) :
  (Z.max 0 (kt_max_retries ctx - n) + 1 <= Z.of_nat fuel)%Z ->
  tx_loop w rz ctx scenario operation state_dump fuel started l n s = (Ret None, s') -> False.
Proof.
  revert n s. induction fuel as [|fuel IH]; intros n s Hf; [lia|]. cbn [tx_loop].
  destruct (tx_attempt _ _ _ _ _ l s) as [[a|x] s1]; [by intros H; simplify_eq|].
  destruct (is_operational x).
  - intros H. apply bind_ret_inv in H as (? & s2 & H & H2). apply handle_transient_ret in H.
    apply (IH (n + 1)%Z s2); [lia | done].
  - destruct (is_class FencingTokenMismatch x); [|done].
    intros H. by apply bind_ret_inv in H as (? & s2 & _ & H).
Qed.
End facts.

(** ** Runs while nobody interferes

    The lease is held and nothing else happens on the server; only the database
    may fail. *)

Lemma norm_dict_payload tenant thread ty context now :
  (exists v, json_norm (VDict context) = Ret v) -> forall IF : IsoFormat,
  exists v, json_norm (VDict (event_payload tenant thread ty context now)) = Ret v.
Proof.
  intros [v Hv] IF. unfold event_payload. rewrite json_norm_dict.
  cbn [norm_obj]. rewrite Hv. cbn. by eexists.
Qed.

Section calm.
Context {R : Type} {RC : RedisCommands R} {RL : RedisLaws R}.
Context {IF : IsoFormat} {SH : Sha256} {HM : Hmac}.
Context {D A : Type}.
Variable w : World R.
Variable rz : Resilience.
Variable ctx : KernelTaskContext.
Variable scenario : string.
Variable operation : Z -> D -> outcome (A * D).
Variable state_dump : dict.
Abbreviation St := (Tx R D).

Variable l : Lease.
Variable expiry : datetime.
Hypothesis Hquiet : forall n r, w_redis w n r = r.
Hypothesis Hredis : forall n, w_fault w RedisIO n = None.
Hypothesis Htime : forall n, (w_redis_time w n < expiry)%Z.

Variable r : R.
Hypothesis Hheld : r_view r (ls_key l) =
  Some (RHash (lease_hash (ls_owner_nonce l) (ls_fencing_token l)), Some expiry).

Lemma io_ok k n (d : D) c q e :
  w_fault w k n = None -> io w k (mkTx n r d c q e) = (Ret n, mkTx (S n) r d c q e).
Proof. intros Hf. unfold io. cbn. by rewrite Hf, Hquiet. Qed.

Lemma io_fail k n x (d : D) c q e :
  w_fault w k n = Some x -> io w k (mkTx n r d c q e) = (Raise x, mkTx (S n) r d c q e).
Proof. intros Hf. unfold io. cbn. by rewrite Hf, Hquiet. Qed.

Lemma check_ok n (d : D) c q e :
  check_lease w l (mkTx n r d c q e) = (Ret tt, mkTx (S n) r d c q e).
Proof.
  unfold check_lease, on_redis. rewrite (bind_ret_intro _ _ _ _ _ (io_ok RedisIO n d c q e (Hredis n))).
  cbn. destruct l as [k nonce t ttl]. cbn in Hheld.
  by rewrite (lease_assert_held _ ttl k nonce t expiry r Hheld (Htime n)).
Qed.

Lemma commit_ok n (d d' : D) c q e :
  w_fault w DatabaseIO n = None ->
  commit_db w d' (mkTx n r d c q e) = (Ret tt, mkTx (S n) r d' c q e).
Proof.
  intros Hf. unfold commit_db. by rewrite (bind_ret_intro _ _ _ _ _ (io_ok DatabaseIO n d c q e Hf)).
Qed.

(** The attempt up to the evidence of its success. *)
Lemma attempt_commits n (d : D) c q e a d' :
  (forall m, w_lost w m = false) -> operation (ls_fencing_token l) d = Ret (a, d') ->
  w_fault w DatabaseIO (1 + n) = None -> w_fault w DatabaseIO (2 + n) = None ->
  w_fault w DatabaseIO (6 + n) = None ->
  tx_attempt w rz ctx scenario operation l (mkTx n r d c q e) =
  bind (chain_append w rz (kt_tenant_id ctx) (kt_thread_id ctx) "TRANSACTION_SUCCESS"
          [("scenario_id", VStr scenario); ("fencing_token", VInt (ls_fencing_token l))])
       (fun _ => ret a) (mkTx (7 + n) r d' c q e).
Proof.
  intros Hlost Hop F1 F2 F6. unfold tx_attempt.
  rewrite (bind_ret_intro _ _ _ _ _ (check_ok n d c q e)).
  rewrite (bind_ret_intro _ _ _ _ _ (io_ok DatabaseIO (1 + n) d c q e F1)).
  rewrite (bind_ret_intro _ _ _ _ _ (io_ok DatabaseIO (2 + n) d c q e F2)).
  rewrite (bind_ret_intro _ _ _ _ _ (check_ok (3 + n) d c q e)).
  unfold bind at 1, run_operation. cbn [tx_db tx_step tx_redis tx_chain tx_dlq tx_env].
  rewrite Hop, Hquiet. unfold bind at 1, check_heartbeat. rewrite Hlost. unfold commit_and_attest.
  rewrite (bind_ret_intro _ _ _ _ _ (check_ok (5 + n) d c q e)).
  by rewrite (bind_ret_intro _ _ _ _ _ (commit_ok (6 + n) d d' c q e F6)).
Qed.

(** An append whose two database accesses succeed. *)
Lemma append_ok tenant thread ty context n (d : D) c q e :
  (exists v, json_norm (VDict context) = Ret v) ->
  w_fault w DatabaseIO n = None -> w_fault w DatabaseIO (S n) = None ->
  exists h row e', chain_append w rz tenant thread ty context (mkTx n r d c q e) =
    (Ret h, mkTx (2 + n) r d (c ++ [row]) q e') /\ ch_event_type row = ty.
Proof.
  intros Hc F0 F1. unfold chain_append, bind at 1, read_utc. cbn [tx_env utc_now].
  match goal with |- context [event_payload _ _ _ _ ?t] => set (now := t) end.
  destruct (norm_dict_payload tenant thread ty context now Hc IF) as [pv Hpv].
  unfold bind at 1, lift at 1, dumps at 1. rewrite Hpv. cbn [out_bind].
  match goal with |- context [bind (io w DatabaseIO) _ (mkTx _ _ _ _ _ ?e1)] => set (e' := e1) end.
  rewrite (bind_ret_intro _ _ _ _ _ (io_ok DatabaseIO n d c q e' F0)).
  unfold bind at 1, get. set (prev := last_event_hash _ _ _).
  assert (exists h, event_hash (event_payload tenant thread ty context now) prev = Ret h) as [h Hh].
  { unfold event_hash, dumps. rewrite json_norm_dict. cbn [norm_obj].
    rewrite Hpv. destruct prev; cbn; by eexists. }
  unfold bind at 1, lift at 1. rewrite Hh. destruct Hc as [cv Hcv].
  unfold bind at 1, lift at 1, dumps at 1. rewrite Hcv. cbn [out_bind].
  rewrite (bind_ret_intro _ _ _ _ _ (io_ok DatabaseIO (S n) d c q e' F1)).
  by eexists _, _, _.
Qed.

(** An append whose first database access fails. *)
Lemma append_fail tenant thread ty context n x (d : D) c q e :
  (exists v, json_norm (VDict context) = Ret v) -> w_fault w DatabaseIO n = Some x ->
  exists e', chain_append w rz tenant thread ty context (mkTx n r d c q e) =
    (Raise x, mkTx (S n) r d c q e').
Proof.
  intros Hc F0. unfold chain_append, bind at 1, read_utc. cbn [tx_env utc_now].
  match goal with |- context [event_payload _ _ _ _ ?t] => set (now := t) end.
  destruct (norm_dict_payload tenant thread ty context now Hc IF) as [pv Hpv].
  unfold bind at 1, lift at 1, dumps at 1. rewrite Hpv. cbn [out_bind].
  match goal with |- context [bind (io w DatabaseIO) _ (mkTx _ _ _ _ _ ?e1)] => set (e' := e1) end.
  exists e'. by rewrite (bind_raise _ _ _ _ _ (io_fail DatabaseIO n x d c q e' F0)).
Qed.

Lemma success_context_ok token :
  exists v, json_norm (VDict [("scenario_id", VStr scenario); ("fencing_token", VInt token)]) = Ret v.
Proof. by eexists. Qed.

(** The first failure of a transaction within its budget. *)
Lemma handle_first started x n (d : D) c q e :
  (1 <= kt_max_retries ctx)%Z ->
  (forall m, SFleb (kt_retry_deadline_s ctx) (SFsub 53 1024 (w_loop_time w m) started) = false) ->
  exists delay, handle_transient w rz ctx scenario state_dump started x 1 (mkTx n r d c q e) =
  bind (chain_append w rz (kt_tenant_id ctx) (kt_thread_id ctx) "RECOVERY_RETRY"
          [("scenario_id", VStr scenario); ("retry_count", VInt 1); ("delay_s", VFloat delay)])
       (fun _ => ret tt) (mkTx n r d c q e).
Proof.
  intros Hm Hd. unfold handle_transient, bind at 1, get. rewrite Hd.
  rewrite (proj2 (Z.ltb_ge (kt_max_retries ctx) 1)) by lia. by eexists.
Qed.

(** The lease is released whatever the transaction did. *)
Lemma finally_spec {B} (m : M St B) s o s1 :
  m s = (o, s1) -> exists s2, finally_release w l m s = (o, s2) /\ tx_db s2 = tx_db s1 /\
    tx_chain s2 = tx_chain s1 /\ tx_dlq s2 = tx_dlq s1.
Proof.
  intros E. unfold finally_release. rewrite E. unfold on_redis, bind, io.
  destruct (w_fault w RedisIO (tx_step s1)); [by eexists|]. cbn.
  destruct (lease_release _ l _) as [o2 r2]. by eexists.
Qed.
End calm.
