(* ===== verification/ResilienceTheorems.v ===== *)
(** * Theorems on leases and the fenced transaction

    Fencing tokens and superseded leases, the guarded commits and the bound of
    the retried transaction, and two runs that do not do what the module
    promises.  A finite map of entries that satisfies the laws of the Redis
    commands comes first, so that these are not vacuous. *)

From stdpp Require Import base gmap strings list relations pretty.
From Stdlib Require Import ZArith Lia Floats.SpecFloat.
From S2P Require Import Prelude Uuid Json Recovery Stores Samples Leases Resilience ResilienceFacts.
Local Open Scope py_scope.

Abbreviation keyspace := (gmap string redis_entry).

Definition ks_seen (now : datetime) (s : keyspace) (k : string) : option redis_entry :=
  match s !! k with
  | Some e => if alive now e then Some e else None
  | None => None
  end.

Definition wrong_type : exn :=
  Exn (OtherException "ResponseError") "WRONGTYPE Operation against a key holding the wrong kind of value".
Definition out_of_range : exn :=
  Exn (OtherException "ResponseError") "ERR increment or decrement would overflow".

#[export] Instance keyspace_commands : RedisCommands keyspace := {|
  r_exists now k s := (Ret (bool_decide (is_Some (ks_seen now s k))), s);
  r_incr now k s :=
    match ks_seen now s k with
    | Some (RHash _, _) => (Raise wrong_type, s)
    | Some (RCounter z, t) =>
        if (z <? max_int64)%Z then (Ret (z + 1)%Z, <[k := (RCounter (z + 1), t)]> s)
        else (Raise out_of_range, s)
    | None => (Ret 1%Z, <[k := (RCounter 1, None)]> s)
    end;
  r_hset now k l s :=
    match ks_seen now s k with
    | Some (RCounter _, _) => (Raise wrong_type, s)
    | Some (RHash f, t) => (Ret tt, <[k := (RHash (list_to_map l ∪ f), t)]> s)
    | None => (Ret tt, <[k := (RHash (list_to_map l), None)]> s)
    end;
  r_hget now k f s :=
    match ks_seen now s k with
    | Some (RCounter _, _) => (Raise wrong_type, s)
    | Some (RHash h, _) => (Ret (h !! f), s)
    | None => (Ret None, s)
    end;
  r_pexpire now k ttl s :=
    match ks_seen now s k with
    | Some (d, _) => (Ret true, <[k := (d, Some (now + ttl)%Z)]> s)
    | None => (Ret false, s)
    end;
  r_del now k s :=
    match ks_seen now s k with
    | Some _ => (Ret true, delete k s)
    | None => (Ret false, s)
    end |}.

Lemma ks_insert (s : keyspace) k e :
  <[k := e]> s !! k = Some e /\ forall k', k' <> k -> <[k := e]> s !! k' = s !! k'.
Proof. split; [apply lookup_insert_eq | intros k' Hk; by apply lookup_insert_ne]. Qed.

Lemma ks_delete (s : keyspace) k :
  delete k s !! k = None /\ forall k', k' <> k -> delete k s !! k' = s !! k'.
Proof. split; [apply lookup_delete_eq | intros k' Hk; by apply lookup_delete_ne]. Qed.

#[export] Program Instance keyspace_laws : RedisLaws keyspace := {| r_view s k := s !! k |}.
Next Obligation. done. Qed.
Next Obligation.
  intros now k s. cbn. fold (ks_seen now s k).
  destruct (ks_seen now s k) as [[[f|z] t]|]; [by eexists | |].
  - destruct (z <? max_int64)%Z; [|by eexists]. eexists. split; [done | apply ks_insert].
  - eexists. split; [done | apply ks_insert].
Qed.
Next Obligation.
  intros now k l s. cbn. fold (ks_seen now s k).
  destruct (ks_seen now s k) as [[[f|z] t]|]; [| by eexists |];
    (eexists; split; [done | apply ks_insert]).
Qed.
Next Obligation.
  intros now k f s. cbn. fold (ks_seen now s k).
  destruct (ks_seen now s k) as [[[h|z] t]|]; [done | by eexists | done].
Qed.
Next Obligation.
  intros now k ttl s. cbn. fold (ks_seen now s k).
  destruct (ks_seen now s k) as [[d t]|]; [|done]. eexists. split; [done | apply ks_insert].
Qed.
Next Obligation.
  intros now k s. cbn. fold (ks_seen now s k). destruct (ks_seen now s k) as [e|].
  - eexists. split; [done | apply ks_delete].
  - eexists. split; [done | by left].
Qed.

(** ** Worlds *)

(** A keyed digest for the witnesses. *)
#[export] Instance sample_hmac : Hmac := fun secret text => secret +:+ text.

Definition float_one : spec_float := S754_finite false 4503599627370496 (-52).
Definition float_ten : spec_float := S754_finite false 5629499534213120 (-49).
Definition float_sixty : spec_float := S754_finite false 8444249301319680 (-47).

Definition sample_task_context : KernelTaskContext :=
  mkTaskContext "t" "j" "1" 3 float_one float_ten float_sixty.

(** Nobody else is there, time stands still, and the given faults occur. *)
Definition sample_world (fault : io_kind -> nat -> option exn) : World keyspace :=
  mkWorld (fun _ s => s) (fun _ => 0%Z) fault (fun _ => false) (fun _ => S754_zero false)
    (fun _ ceiling => ceiling) "nonce".

Definition connection_lost : exn := Exn operational_error "connection lost".

Definition sample_resilience : Resilience := mkResilience "secret" 10000 true.

(** A protected counter. *)
Definition count_up (token d : Z) : outcome (Z * Z) := Ret (d, (d + 1)%Z).

Definition sample_tx : Tx keyspace Z := mkTx 0 (∅ : keyspace) 0%Z [] [] sample_env.

Section redis.
Context {R : Type} {RC : RedisCommands R} {RL : RedisLaws R}.

(** C36. Fencing tokens strictly increase, and a superseded lease is dead for
    good: of two acquisitions of a key the later one has the larger token,
    whatever other clients do in between, and after the later one every check of
    the earlier lease, at any time and after any further operations, raises
    [FencingTokenMismatch]. *)
Theorem superseded_lease_rejected (ttl1 ttl2 : Z) (now1 now2 : datetime) (nonce1 nonce2 key : string)
    (n : Z) (s s1 s2 s3 s4 : R) (l1 l2 : Lease) :
  issued key n s -> lease_acquire ttl1 now1 nonce1 key s = (Ret l1, s1) ->
  rtc (redis_step key) s1 s2 -> lease_acquire ttl2 now2 nonce2 key s2 = (Ret l2, s3) ->
  rtc (redis_step key) s3 s4 ->
  (ls_fencing_token l1 < ls_fencing_token l2)%Z /\
  forall now, exists m, lease_assert now l1 s4 = (raise FencingTokenMismatch m, s4).
Proof.
  intros Hi H1 Hrun H2 Hrun2.
  destruct (acquire_spec _ _ _ _ _ _ _ _ Hi H1) as [_ [(_ & _ & [x [=]] & _)|(Hi1 & [= ->] & _)]].
  destruct (redis_run_issued _ _ _ _ Hi1 Hrun) as (n2 & Hn & Hi2).
  destruct (acquire_spec _ _ _ _ _ _ _ _ Hi2 H2) as [_ [(_ & _ & [x [=]] & _)|(Hi3 & [= ->] & Hv)]].
  cbn. split; [lia|]. intros now. apply superseded_rejected. cbn.
  eapply redis_run_superseded; [|exact Hrun2]. split; [exists (n2 + 1)%Z; split; [lia | done]|].
  rewrite Hv. exists (n2 + 1)%Z. split; [done | lia].
Qed.
End redis.

Section transaction.
Context {R : Type} {RC : RedisCommands R} {IF : IsoFormat} {SH : Sha256} {HM : Hmac}.
Context {D A : Type}.

Lemma lease_acquire_ret ttl now nonce key (s s' : R) l :
  lease_acquire ttl now nonce key s = (Ret l, s') -> ls_key l = key /\ ls_owner_nonce l = nonce.
Proof.
  unfold lease_acquire. intros H. apply bind_ret_inv in H as (r & s1 & _ & H).
  destruct (negb _); [done|]. by apply ret_inv in H as [-> _].
Qed.

Lemma on_redis_ret {B} (w : World R) (m : datetime -> M R B) (s s' : Tx R D) b :
  on_redis w m s = (Ret b, s') -> exists now r r', m now r = (Ret b, r').
Proof.
  unfold on_redis. intros H. apply bind_ret_inv in H as (n & s1 & _ & H).
  destruct (m _ _) as [o r] eqn:E. simplify_eq. by eexists _, _, _.
Qed.

(** C6. Whatever the world does and however [execute_fenced_transaction] ends,
    its run is a sequence of moves, moment by moment: in each moment the other
    clients of the server move as the world says and this worker sends at most
    one command of its own lease; evidence is only appended, attested and linked
    to its thread, dead letters are only appended, and the database changes only
    by a commit of what the operation made of it, in the moment after a check of
    the lease on the server that succeeded. *)
Theorem fenced_transaction_refines (w : World R) (rz : Resilience) (ctx : KernelTaskContext)
    (scenario : string) (operation : Z -> D -> outcome (A * D)) (state_dump : dict) (fuel : nat)
    (s : Tx R D) :
  exists l, ls_key l = lock_key ctx /\ ls_owner_nonce l = w_nonce w /\
    rtc (tx_move w rz operation l) s
      (snd (execute_fenced_transaction w rz ctx scenario operation state_dump fuel s)).
Proof.
  unfold execute_fenced_transaction, bind at 1.
  assert (forall l, ls_key l = lock_key ctx -> ls_owner_nonce l = w_nonce w -> moves_to w rz operation l s
    (snd (on_redis w (fun now => lease_acquire (rz_lease_ttl_ms rz) now (w_nonce w) (lock_key ctx)) s)))
    as Hacq.
  { intros l <- <-. apply moves_acquire. }
  destruct (on_redis w _ s) as [[l|x] s1] eqn:E.
  - exists l. apply on_redis_ret in E as (now & r & r' & E). apply lease_acquire_ret in E as [Hk Hn].
    split; [done|]. split; [done|]. etransitivity; [by apply (Hacq l)|]. cbn.
    apply moves_finally, moves_loop.
  - exists (mkRLease (lock_key ctx) (w_nonce w) 0 0). split; [done|]. split; [done|]. by apply Hacq.
Qed.

(** The retry loop is bounded: fuel one above the retry budget is enough, so
    a call that returns returns the operation's result. *)
Theorem fenced_transaction_terminates (w : World R) (rz : Resilience) (ctx : KernelTaskContext)
    (scenario : string) (operation : Z -> D -> outcome (A * D)) (state_dump : dict) (fuel : nat)
    (s s' : Tx R D) (o : option A) :
  (Z.max 0 (kt_max_retries ctx) + 1 <= Z.of_nat fuel)%Z ->
  execute_fenced_transaction w rz ctx scenario operation state_dump fuel s = (Ret o, s') ->
  exists a, o = Some a.
Proof.
  intros Hf H. apply bind_ret_inv in H as (l & s1 & _ & H).
  apply bind_ret_inv in H as (s2 & s3 & Hg & H). injection Hg as <- <-.
  unfold finally_release in H. destruct (tx_loop _ _ _ _ _ _ _ _ _ _ s1) as [o1 s4] eqn:E.
  destruct (on_redis w _ s4) as [o2 s5]. simplify_eq.
  destruct o as [a|]; [by eexists|]. exfalso. eapply tx_loop_enough; [|exact E]. lia.
Qed.
End transaction.

Section failures.
Context {R : Type} {RC : RedisCommands R} {RL : RedisLaws R}.
Context {IF : IsoFormat} {SH : Sha256} {HM : Hmac} {D A : Type}.

(** The lease of a call on a free key while nobody else touches the server. *)
Lemma quiet_acquire (w : World R) ttl key n (s : Tx R D) :
  (forall m r, w_redis w m r = r) -> (forall m, w_fault w RedisIO m = None) ->
  issued key n (tx_redis s) -> r_view (tx_redis s) key = None -> (n < max_int64)%Z ->
  exists r, on_redis w (fun now => lease_acquire ttl now (w_nonce w) key) s =
    (Ret (mkRLease key (w_nonce w) (n + 1) ttl),
     mkTx (S (tx_step s)) r (tx_db s) (tx_chain s) (tx_dlq s) (tx_env s)) /\
    r_view r key = Some (RHash (lease_hash (w_nonce w) (n + 1)),
                         Some (w_redis_time w (tx_step s) + ttl)%Z).
Proof.
  intros Hq Hr Hi Hv Hn. unfold on_redis, bind, io. rewrite Hr. cbn. rewrite Hq.
  destruct (acquire_free ttl (w_redis_time w (tx_step s)) (w_nonce w) key n _ Hi Hv Hn)
    as (r & E & Hh).
  rewrite E. by exists r.
Qed.

(** Committed work is repeated: if nothing goes wrong but the first database
    access of the evidence append after the commit, the error is taken for a
    failure of the transaction, the operation runs again, and both its effects
    are committed, although the call reports one success. *)
Theorem evidence_failure_recommits (w : World R) (rz : Resilience) (ctx : KernelTaskContext)
    (scenario : string) (operation : Z -> D -> outcome (A * D)) (state_dump : dict) (fuel : nat)
    (s : Tx R D) (n : Z) (x : exn) (a1 a2 : A) (d1 d2 : D) :
  (forall m r, w_redis w m r = r) -> (forall m, w_lost w m = false) ->
  (forall m, w_fault w RedisIO m = None) ->
  (forall m, w_redis_time w m < w_redis_time w (tx_step s) + rz_lease_ttl_ms rz)%Z ->
  (forall m m', SFleb (kt_retry_deadline_s ctx)
                  (SFsub 53 1024 (w_loop_time w m) (w_loop_time w m')) = false) ->
  (forall m, w_fault w DatabaseIO m = if (m =? 8 + tx_step s)%nat then Some x else None) ->
  is_operational x = true -> (1 <= kt_max_retries ctx)%Z -> (2 <= fuel)%nat ->
  issued (lock_key ctx) n (tx_redis s) -> r_view (tx_redis s) (lock_key ctx) = None ->
  (n < max_int64)%Z ->
  operation (n + 1)%Z (tx_db s) = Ret (a1, d1) -> operation (n + 1)%Z d1 = Ret (a2, d2) ->
  exists s', execute_fenced_transaction w rz ctx scenario operation state_dump fuel s
      = (Ret (Some a2), s') /\
    tx_db s' = d2 /\ ch_event_type <$> tx_chain s' =
      (ch_event_type <$> tx_chain s) ++ ["RECOVERY_RETRY"; "TRANSACTION_SUCCESS"].
Proof.
  intros Hq Hl Hr Ht Hd Hf Hx Hm Hfu Hi Hv Hn Hop1 Hop2. unfold execute_fenced_transaction.
  destruct (quiet_acquire w (rz_lease_ttl_ms rz) (lock_key ctx) n s Hq Hr Hi Hv Hn) as (r & E & Hh).
  rewrite (bind_ret_intro _ _ _ _ _ E). rewrite (bind_ret_intro get _ _ _ _ eq_refl).
  set (l := mkRLease _ _ _ _) in *. set (k := tx_step s) in *. cbn [tx_step].
  assert (forall m, m <> (8 + k)%nat -> w_fault w DatabaseIO m = None) as Hok.
  { intros m Hne. rewrite Hf. by rewrite (proj2 (Nat.eqb_neq m (8 + k))). }
  assert (w_fault w DatabaseIO (8 + k) = Some x) as Hbad by by rewrite Hf, Nat.eqb_refl.
  destruct fuel as [|[|fuel]]; [lia..|].
  pose proof (attempt_commits w rz ctx scenario operation l _ Hq Hr Ht r Hh) as Hatt.
  destruct (append_fail w rz Hq r (kt_tenant_id ctx) (kt_thread_id ctx) "TRANSACTION_SUCCESS"
    [("scenario_id", VStr scenario); ("fencing_token", VInt (n + 1))] (8 + k) x d1 (tx_chain s)
    (tx_dlq s) (tx_env s) (success_context_ok _ _) Hbad) as (e1 & E1).
  destruct (handle_first w rz ctx scenario state_dump r (w_loop_time w (S k)) x (9 + k) d1
    (tx_chain s) (tx_dlq s) e1 Hm (fun m => Hd m (S k))) as (delay & E2).
  destruct (append_ok w rz Hq r (kt_tenant_id ctx) (kt_thread_id ctx) "RECOVERY_RETRY"
    [("scenario_id", VStr scenario); ("retry_count", VInt 1); ("delay_s", VFloat delay)] (9 + k) d1
    (tx_chain s) (tx_dlq s) e1) as (h1 & row1 & e2 & E3 & T1);
    [by eexists | apply Hok; lia | apply Hok; lia |].
  destruct (append_ok w rz Hq r (kt_tenant_id ctx) (kt_thread_id ctx) "TRANSACTION_SUCCESS"
    [("scenario_id", VStr scenario); ("fencing_token", VInt (n + 1))] (18 + k) d2
    (tx_chain s ++ [row1]) (tx_dlq s) e2) as (h2 & row2 & e3 & E4 & T2);
    [by eexists | apply Hok; lia | apply Hok; lia |].
  edestruct (finally_spec w l (tx_loop w rz ctx scenario operation state_dump (S (S fuel))
    (w_loop_time w (S k)) l 0)) as (s2 & -> & Hdb & Hch & _).
  { cbn [tx_loop]. rewrite (Hatt (S k) _ _ _ _ a1 d1 Hl Hop1) by (apply Hok; lia).
    rewrite (bind_raise _ _ _ _ _ E1), Hx. change (0 + 1)%Z with 1%Z.
    rewrite (bind_ret_intro _ _ _ _ _ (eq_trans E2 (bind_ret_intro _ _ _ _ _ E3))).
    rewrite (Hatt (11 + k)%nat _ _ _ _ a2 d2 Hl Hop2) by (apply Hok; lia).
    by rewrite (bind_ret_intro _ _ _ _ _ E4). }
  exists s2. rewrite Hdb, Hch. split; [done|]. split; [done|]. cbn.
  rewrite !fmap_app, <- app_assoc. cbn. by rewrite T1, T2.
Qed.

(** A database outage escapes the recovery it is meant to trigger: if every
    database access fails with a transient error, the call ends on the first
    failure with such an error, although the retry budget is not used up; there
    is no retry, no dead letter and no evidence, because the record of the retry
    goes to the same database. *)
Theorem outage_escapes_recovery (w : World R) (rz : Resilience) (ctx : KernelTaskContext)
    (scenario : string) (operation : Z -> D -> outcome (A * D)) (state_dump : dict) (fuel : nat)
    (s : Tx R D) (n : Z) (xs : nat -> exn) :
  (forall m r, w_redis w m r = r) -> (forall m, w_fault w RedisIO m = None) ->
  (forall m, w_redis_time w m < w_redis_time w (tx_step s) + rz_lease_ttl_ms rz)%Z ->
  (forall m m', SFleb (kt_retry_deadline_s ctx)
                  (SFsub 53 1024 (w_loop_time w m) (w_loop_time w m')) = false) ->
  (forall m, w_fault w DatabaseIO m = Some (xs m) /\ is_operational (xs m) = true) ->
  (1 <= kt_max_retries ctx)%Z -> (1 <= fuel)%nat ->
  issued (lock_key ctx) n (tx_redis s) -> r_view (tx_redis s) (lock_key ctx) = None ->
  (n < max_int64)%Z ->
  exists y s', execute_fenced_transaction w rz ctx scenario operation state_dump fuel s
      = (Raise y, s') /\
    is_operational y = true /\ tx_db s' = tx_db s /\ tx_chain s' = tx_chain s /\
    tx_dlq s' = tx_dlq s.
Proof.
  intros Hq Hr Ht Hd Hf Hm Hfu Hi Hv Hn. unfold execute_fenced_transaction.
  destruct (quiet_acquire w (rz_lease_ttl_ms rz) (lock_key ctx) n s Hq Hr Hi Hv Hn) as (r & E & Hh).
  rewrite (bind_ret_intro _ _ _ _ _ E). rewrite (bind_ret_intro get _ _ _ _ eq_refl).
  set (l := mkRLease _ _ _ _) in *. set (k := tx_step s) in *. cbn [tx_step].
  destruct fuel as [|fuel]; [lia|].
  destruct (handle_first w rz ctx scenario state_dump r (w_loop_time w (S k)) (xs (2 + k)) (3 + k)
    (tx_db s) (tx_chain s) (tx_dlq s) (tx_env s) Hm (fun m => Hd m (S k))) as (delay & E2).
  destruct (append_fail w rz Hq r (kt_tenant_id ctx) (kt_thread_id ctx) "RECOVERY_RETRY"
    [("scenario_id", VStr scenario); ("retry_count", VInt 1); ("delay_s", VFloat delay)] (3 + k)
    (xs (3 + k)) (tx_db s) (tx_chain s) (tx_dlq s) (tx_env s)) as (e & E3); [by eexists | apply Hf |].
  edestruct (finally_spec w l (tx_loop w rz ctx scenario operation state_dump (S fuel)
    (w_loop_time w (S k)) l 0)) as (s2 & -> & Hdb & Hch & Hdl).
  { cbn [tx_loop]. unfold tx_attempt at 1.
    rewrite (bind_ret_intro _ _ _ _ _ (check_ok w l _ Hq Hr Ht r Hh (S k) _ _ _ _)).
    rewrite (bind_raise _ _ _ _ _ (io_fail w Hq r DatabaseIO (2 + k) _ _ _ _ _ (proj1 (Hf _)))).
    rewrite (proj2 (Hf _)). change (0 + 1)%Z with 1%Z.
    by rewrite (bind_raise _ _ _ _ _ (eq_trans E2 (bind_raise _ _ _ _ _ E3))). }
  eexists _, s2. split; [done|]. split; [apply Hf|]. by rewrite Hdb, Hch, Hdl.
Qed.
End failures.

(** ** Witnesses *)

Definition owner_lease (nonce : string) (t : Z) : Lease := mkRLease "k" nonce t 100.

(** What one acquisition of the free key leaves in the sample server. *)
Definition after_acquire (now : datetime) (nonce : string) (s : keyspace) : keyspace :=
  snd (lease_acquire 100 now nonce "k" s).

Lemma superseded_lease_rejected_witness :
  exists s1 s3 : keyspace,
    lease_acquire 100 0%Z "a" "k" (∅ : keyspace) = (Ret (owner_lease "a" 1), s1) /\
    lease_acquire 100 200%Z "b" "k" s1 = (Ret (owner_lease "b" 2), s3) /\
    forall now, exists m, lease_assert now (owner_lease "a" 1) s3 = (raise FencingTokenMismatch m, s3).
Proof.
  exists (after_acquire 0%Z "a" ∅), (after_acquire 200%Z "b" (after_acquire 0%Z "a" ∅)).
  assert (E1 : lease_acquire 100 0%Z "a" "k" (∅ : keyspace) = (Ret (owner_lease "a" 1), after_acquire 0%Z "a" ∅))
    by (vm_compute; reflexivity).
  assert (E2 : lease_acquire 100 200%Z "b" "k" (after_acquire 0%Z "a" ∅) =
    (Ret (owner_lease "b" 2), after_acquire 200%Z "b" (after_acquire 0%Z "a" ∅))) by (vm_compute; reflexivity).
  split; [exact E1|]. split; [exact E2|].
  exact (proj2 (superseded_lease_rejected 100 100 0%Z 200%Z "a" "b" "k" 0%Z ∅ _ _ _ _ _ _
    eq_refl E1 (rtc_refl _ _) E2 (rtc_refl _ _))).
Defined.

Lemma fenced_transaction_terminates_witness :
  (Z.max 0 3 + 1 <= Z.of_nat 4)%Z /\ exists a, Some 0%Z = Some a.
Proof.
  split; [lia|].
  eapply (fenced_transaction_terminates (sample_world (fun _ _ => None)) sample_resilience
    sample_task_context "RC-04" count_up [] 4 sample_tx); [cbn; lia | vm_compute; reflexivity].
Defined.

(** Only the first access of the append after the commit fails. *)
Definition append_fault (k : io_kind) (m : nat) : option exn :=
  match k with DatabaseIO => if (m =? 8)%nat then Some connection_lost else None | _ => None end.

(** Every database access fails. *)
Definition database_down (k : io_kind) (m : nat) : option exn :=
  match k with DatabaseIO => Some connection_lost | _ => None end.

Lemma evidence_failure_recommits_witness :
  exists s', execute_fenced_transaction (sample_world append_fault) sample_resilience sample_task_context "RC-04" count_up [] 4 sample_tx = (Ret (Some 1%Z), s') /\
    tx_db s' = 2%Z /\ ch_event_type <$> tx_chain s' = ["RECOVERY_RETRY"; "TRANSACTION_SUCCESS"].
Proof.
  apply (evidence_failure_recommits (sample_world append_fault) sample_resilience
    sample_task_context "RC-04" count_up [] 4 sample_tx 0%Z connection_lost 0%Z 1%Z 1%Z 2%Z);
    try reflexivity; try done; cbn; lia.
Defined.

Lemma outage_escapes_recovery_witness :
  exists y s', execute_fenced_transaction (sample_world database_down) sample_resilience sample_task_context "RC-04" count_up [] 4 sample_tx = (Raise y, s') /\
    is_operational y = true /\ tx_db s' = 0%Z /\ tx_chain s' = [] /\ tx_dlq s' = [].
Proof.
  apply (outage_escapes_recovery (sample_world database_down) sample_resilience
    sample_task_context "RC-04" count_up [] 4 sample_tx 0%Z (fun _ => connection_lost));
    try reflexivity; try done; cbn; lia.
Defined.
