(* ===== verification/PostgresStores.v ===== *)
(** * The kernel's stores in PostgreSQL: [ois/kernel/postgres_stores.py]

    [PostgresIdempotencyStore] and [PostgresEvidenceLedger] implement the store
    interfaces of [Stores] and satisfy their laws, so what is proved of the
    runtime against the interfaces holds over these tables too. *)

From stdpp Require Import base gmap strings list sorting.
From Stdlib Require Import ZArith Lia.
From S2P Require Import Prelude Uuid Json Types State Stores Jsonb.
Local Open Scope py_scope.

(** ** Idempotency *)

(** The rows of [ois_kernel_idempotency_results] by primary key. *)
Record idempotency_table := mkIdemTable { it_rows : gmap string json_text }.

Section idempotency.
Context {JB : Jsonb}.

(** [get]; a row whose value is no result of [put] counts as a type error. *)
Definition pg_idem_get (k : string) (s : idempotency_table) : outcome (option InvocationResult) :=
  match it_rows s !! k with
  | None => Ret None
  | Some u =>
      match jsonb_out u with
      | VDict d => match result_of_payload d with
                   | Some o => r <-? o ;; Ret (Some r)
                   | None => raise TypeError "malformed idempotency row"
                   end
      | _ => raise TypeError "malformed idempotency row"
      end
  end.

(** [put]: [INSERT ... ON CONFLICT (invocation_id) DO NOTHING] *)
Definition pg_idem_put (k : string) (r : InvocationResult) (s : idempotency_table) :
    outcome idempotency_table :=
  if cacheable r then
    serialized <-? dumps (VDict (result_payload r)) ;;
    u <-? jsonb_in serialized ;;
    Ret (match it_rows s !! k with
         | Some _ => s
         | None => mkIdemTable (<[k := u]> (it_rows s))
         end)
  else Ret s.

#[export] Instance PostgresIdempotencyStore : IdempotencyStore idempotency_table :=
  {| idem_get := pg_idem_get; idem_put := pg_idem_put |}.

Lemma result_payload_like {JL : JsonbLaws} r t u :
  dumps (VDict (result_payload r)) = Ret t -> jsonb_in t = Ret u ->
  exists d r', jsonb_out u = VDict d /\ result_of_payload d = Some (Ret r') /\ same_result r r'.
Proof.
  intros Ht Hu. pose proof (jsonb_like _ _ _ Ht Hu) as Hv. pose proof Ht as Ht'.
  unfold dumps in Ht'. rewrite json_norm_dict in Ht'.
  destruct (norm_obj (result_payload r)) as [n|] eqn:E; simpl in Ht'; [|discriminate]. out_simpl.
  apply like_dict_inv in Hv as (d & Hd & Hv & _).
  assert (dict_ok n) as Hok by (unfold dict_ok; rewrite (norm_obj_keys _ _ E); apply payload_keys).
  destruct (result_rebuild r n d E) as (r' & Hr' & Hsub & Hsame).
  { intros k y Hy. apply Hv. by rewrite dget_sort_keys. }
  exists d, r'. split; [done|]. split; [done|]. apply Hsame. intros Hp.
  destruct (jsonb_plain _ _ Hp Ht) as (u' & Hu' & Hout). rewrite Hu in Hu'. injection Hu' as <-.
  apply (result_payload_norm r r' n E). intros k v Hk%Hsub. rewrite Hd in Hout. unfold dumps in Hout.
  destruct (json_norm (VDict d)) as [w|] eqn:Ew; simpl in Hout; [|discriminate]. injection Hout as ->.
  destruct (norm_dict_inv (VDict d) n Hok Ew) as (d' & [= <-] & Hn). specialize (Hn k).
  destruct (dget k n) as [y|]; [|congruence]. destruct Hn as (x & Hx & Hy). simplify_eq. by exists y.
Qed.

(** Every row holds a result. *)
Definition idem_rows_ok (s : idempotency_table) : Prop :=
  map_Forall (fun _ u => exists d r, jsonb_out u = VDict d /\ result_of_payload d = Some (Ret r))
    (it_rows s).

#[export] Instance PostgresIdempotency_laws {JL : JsonbLaws} : IdempotencyLaws idempotency_table.
Proof.
  refine {| idem_inv := idem_rows_ok |}; simpl; unfold pg_idem_get, pg_idem_put, idem_rows_ok.
  - intros k s Hs. destruct (it_rows s !! k) as [u|] eqn:E; [|eauto].
    destruct (Hs k u E) as (d & r & -> & ->). simpl. eauto.
  - intros k r s s' Hs Hc Hp. rewrite Hc in Hp.
    destruct (dumps _) as [t|] eqn:E; simpl in Hp; [|discriminate].
    destruct (jsonb_in t) as [u|] eqn:Eu; simpl in Hp; [|discriminate]. out_simpl.
    destruct (it_rows s !! k) eqn:Ek; [done|]. apply map_Forall_insert_2; [|done].
    destruct (result_payload_like _ _ _ E Eu) as (d & r' & ? & ? & _). eauto.
  - intros k r r' s s' Hs Hg Hp. destruct (cacheable r'); [|by out_simpl].
    destruct (dumps _) as [t|]; simpl in Hp; [|discriminate].
    destruct (jsonb_in t) as [u|]; simpl in Hp; [|discriminate]. out_simpl.
    destruct (it_rows s !! k) eqn:Ek; [|discriminate]. by rewrite Ek.
  - intros k r s s' Hs Hc Hg Hp. rewrite Hc in Hp.
    destruct (dumps _) as [t|] eqn:E; simpl in Hp; [|discriminate].
    destruct (jsonb_in t) as [u|] eqn:Eu; simpl in Hp; [|discriminate]. out_simpl.
    destruct (it_rows s !! k) as [t'|] eqn:Ek.
    { destruct (Hs k t' Ek) as (d & r' & Hd & Hr). rewrite Hd, Hr in Hg. discriminate. }
    simpl. rewrite lookup_insert_eq.
    destruct (result_payload_like _ _ _ E Eu) as (d & r' & -> & -> & Hr).
    simpl. eauto.
  - intros k k' r s s' Hs Hne Hp. destruct (cacheable r); [|by out_simpl].
    destruct (dumps _) as [t|]; simpl in Hp; [|discriminate].
    destruct (jsonb_in t) as [u|]; simpl in Hp; [|discriminate]. out_simpl.
    destruct (it_rows s !! k); [done|]. simpl. by rewrite lookup_insert_ne.
Defined.
End idempotency.

(** ** Evidence *)

(** A row of [ois_kernel_evidence_events]. *)
Record pg_event_row := mkPgEvRow {
  pe_event_id : uuid;
  pe_execution_id : uuid;
  pe_event_type : string;
  pe_timestamp : datetime;
  pe_actor : string;
  pe_component : string;
  pe_data : json_text;
  pe_correlation_id : option string;
  pe_causation_id : option string }.

(** [ORDER BY timestamp, event_id] *)
Definition row_le (a b : pg_event_row) : bool :=
  (pe_timestamp a <? pe_timestamp b)%Z ||
  ((pe_timestamp a =? pe_timestamp b)%Z && (pe_event_id a <=? pe_event_id b)%N).

Section evidence.
Context {JB : Jsonb}.

(** [append]; the newest row comes first in the model's table. *)
Definition pg_ev_append (e : EvidenceEvent) (s : list pg_event_row) : outcome (list pg_event_row) :=
  t <-? dumps (VDict (ev_data e)) ;;
  u <-? jsonb_in t ;;
  if existsb (fun r => (pe_event_id r =? ev_event_id e)%N) s then Ret s
  else Ret (mkPgEvRow (ev_event_id e) (ev_execution_id e) (ev_event_type e) (ev_timestamp e)
              (ev_actor e) (ev_component e) u (ev_correlation_id e) (ev_causation_id e) :: s).

Definition pg_row_event (r : pg_event_row) : outcome EvidenceEvent :=
  match jsonb_out (pe_data r) with
  | VDict d => Ret (mkEvent (pe_execution_id r) (pe_event_type r) (pe_timestamp r) (pe_event_id r)
                      (pe_actor r) (pe_component r) d (pe_correlation_id r) (pe_causation_id r))
  | _ => raise TypeError "malformed evidence row"
  end.

Fixpoint pg_row_events (rows : list pg_event_row) : outcome (list EvidenceEvent) :=
  match rows with
  | [] => Ret []
  | r :: rows => e <-? pg_row_event r ;; l <-? pg_row_events rows ;; Ret (e :: l)
  end.

(** [list(execution_id)] *)
Definition pg_ev_list (i : option uuid) (s : list pg_event_row) : outcome (list EvidenceEvent) :=
  pg_row_events (order_by row_le (match i with
                             | None => s
                             | Some i => filter (fun r => pe_execution_id r = i) s
                             end)).

Definition pg_ev_count (i : option uuid) (s : list pg_event_row) : outcome nat :=
  l <-? pg_ev_list i s ;; Ret (length l).

#[export] Instance PostgresEvidenceLedger : EvidenceStore (list pg_event_row) :=
  {| ev_append := pg_ev_append; ev_list := pg_ev_list |}.

(** *** Ordering *)

Lemma row_le_total a b : row_le a b = true \/ row_le b a = true.
Proof.
  unfold row_le. rewrite !orb_true_iff, !andb_true_iff, !Z.ltb_lt, !Z.eqb_eq, !N.leb_le.
  lia.
Qed.

Lemma row_le_trans a b c : row_le a b = true -> row_le b c = true -> row_le a c = true.
Proof.
  unfold row_le. rewrite !orb_true_iff, !andb_true_iff, !Z.ltb_lt, !Z.eqb_eq, !N.leb_le.
  lia.
Qed.

(** *** The laws *)

Definition pg_row_of (r : pg_event_row) (e : EvidenceEvent) : Prop :=
  pg_row_event r = Ret e /\ pe_event_id r = ev_event_id e /\ pe_execution_id r = ev_execution_id e.

Definition readable (r : pg_event_row) : Prop := exists d, jsonb_out (pe_data r) = VDict d.

Lemma readable_of rows : Forall readable rows -> exists l, Forall2 pg_row_of rows l.
Proof.
  induction 1 as [|r rows [d Hd] _ [l IH]]; [by exists []|].
  eexists (_ :: l). constructor; [|done]. unfold pg_row_of, pg_row_event. rewrite Hd.
  split; [done|]. by split.
Qed.

Lemma order_readable rows : Forall readable rows -> Forall readable (order_by row_le rows).
Proof. by rewrite order_by_perm. Qed.

Lemma pg_row_events_of rows l : Forall2 pg_row_of rows l -> pg_row_events rows = Ret l.
Proof. induction 1 as [|r e rows l [Hr _] _ IH]; simpl; [done|]. by rewrite Hr, IH. Qed.

Lemma pg_row_events_filter rows l i :
  Forall2 pg_row_of rows l ->
  Forall2 pg_row_of (filter (fun r => pe_execution_id r = i) rows)
    (filter (fun x => ev_execution_id x = i) l).
Proof.
  induction 1 as [|r e rows l Hr Hall IH]; [constructor|].
  rewrite !filter_cons. destruct Hr as (Hre & Hid & Heid). rewrite Heid.
  destruct (base.decide _); [|done]. constructor; [by split | done].
Qed.

Lemma pg_row_events_sublist rows rows' l l' :
  sublist rows rows' -> Forall2 pg_row_of rows l -> Forall2 pg_row_of rows' l' -> sublist l l'.
Proof.
  intros Hs. revert l l'. induction Hs as [|x rows rows' Hs IH|x rows rows' Hs IH];
    intros l l' H1 H2; inversion H2; subst.
  - by inversion H1.
  - inversion H1; subst. assert (y0 = y) as -> by (unfold pg_row_of in *; naive_solver congruence).
    constructor. by eapply IH.
  - constructor. by eapply IH.
Qed.

#[export] Instance PostgresEvidenceLedger_laws {JL : JsonbLaws} : EvidenceStoreLaws (list pg_event_row).
Proof.
  assert (forall e s s', Forall readable s -> pg_ev_append e s = Ret s' ->
    Forall readable s' /\ sublist (order_by row_le s) (order_by row_le s') /\
    exists r, r ∈ s' /\ pe_event_id r = ev_event_id e) as Happ.
  { intros e s s' Hs. unfold pg_ev_append.
    destruct (dumps _) as [t|] eqn:E; simpl; [|discriminate].
    destruct (jsonb_in t) as [u|] eqn:Eu; simpl; [|discriminate].
    destruct (existsb _ s) eqn:Ex; intros H; out_simpl.
    - split; [done|]. split; [done|]. apply existsb_exists in Ex as (r & Hin & Hid).
      exists r. split; [by apply list_elem_of_In | by apply N.eqb_eq].
    - split; [|split; [apply place_sublist | eexists; split; [by left | done]]].
      constructor; [|done]. unfold readable. simpl. pose proof (jsonb_like _ _ _ E Eu) as Hl.
      unfold dumps in E. rewrite json_norm_dict in E.
      destruct (norm_obj (ev_data e)); simpl in E; [|discriminate]. out_simpl.
      apply like_dict_inv in Hl as (d & -> & _). by exists d. }
  refine {| ev_inv := Forall readable |}; simpl.
  - intros s Hs. destruct (readable_of _ (order_readable _ Hs)) as [l Hl].
    exists l. by apply pg_row_events_of.
  - intros e s s' Hs _ _ Ha. by apply (Happ e s s').
  - intros e s s' l Hs _ _ Ha Hlist. destruct (Happ _ _ _ Hs Ha) as (Hs' & Hsub & r & Hr & Hid).
    destruct (readable_of _ (order_readable _ Hs)) as [l0 Hl0].
    destruct (readable_of _ (order_readable _ Hs')) as [l' Hl'].
    unfold pg_ev_list in *. rewrite (pg_row_events_of _ _ Hl0) in Hlist. out_simpl.
    exists l'. split; [by apply pg_row_events_of|].
    split; [by eapply pg_row_events_sublist|].
    assert (r ∈ order_by row_le s') as Hr' by by rewrite order_by_perm.
    apply list_elem_of_lookup in Hr' as [n Hn].
    destruct (Forall2_lookup_l _ _ _ _ _ Hl' Hn) as (x & Hx & _ & Hxid & _).
    exists x. split; [by eapply list_elem_of_lookup_2 | congruence].
  - intros i s l Hs _ Hlist. destruct (readable_of _ (order_readable _ Hs)) as [l0 Hl0].
    unfold pg_ev_list in *. rewrite (pg_row_events_of _ _ Hl0) in Hlist. out_simpl.
    rewrite (order_by_filter _ row_le_total row_le_trans). by apply pg_row_events_of, pg_row_events_filter.
Defined.
End evidence.
