(* ===== verification/Outbox.v ===== *)
(** * The side-effect outbox: [ois/kernel/side_effects.py]

    [TransactionalSideEffectBoundary] stores the intent of an external effect
    before a worker performs it.  The table is its list of rows in insertion
    order; each method is one transaction, with the database clock as an
    argument.  Timestamps count microseconds. *)

From stdpp Require Import base gmap strings list.
From Stdlib Require Import ZArith Lia.
From S2P Require Import Prelude Uuid Json Jsonb Fencing.
Local Open Scope py_scope.

Record SideEffectCommand := mkCommand {
  sc_effect_id : string;
  sc_tenant_id : string;
  sc_execution_id : uuid;
  sc_invocation_id : string;
  sc_capability_id : string;
  sc_idempotency_key : string;
  sc_request : dict }.

Record SideEffectResult := mkEffectResult {
  se_effect_id : string;
  se_idempotency_key : string;
  se_output : pyval;
  se_completed_at : option datetime }.

Inductive outbox_status := OB_PENDING | OB_PROCESSING | OB_COMPLETED.

#[export] Instance outbox_status_eq_dec : EqDecision outbox_status.
Proof. solve_decision. Defined.

(** A row of [ois_side_effect_outbox]. *)
Record outbox_row := mkOutboxRow {
  ob_effect_id : string;
  ob_tenant_id : string;
  ob_execution_id : uuid;
  ob_invocation_id : string;
  ob_capability_id : string;
  ob_idempotency_key : string;
  ob_request : json_text;
  ob_created_at : datetime;
  ob_status : outbox_status;
  ob_attempts : Z;
  ob_locked_at : option datetime;
  ob_completed_at : option datetime;
  ob_result : option json_text;
  ob_last_error : option json_text;
  ob_updated_at : datetime }.

Abbreviation outbox := (list outbox_row).

(** [interval '5 minutes'] *)
Definition five_minutes : Z := 300000000.

(** A statement block that commits at its end; an exception rolls it back. *)
Definition transaction {S A} (f : S -> outcome (A * S)) : M S A := fun s =>
  match f s with
  | Ret (a, s') => (Ret a, s')
  | Raise x => (Raise x, s)
  end.

Section outbox.
Context {JB : Jsonb}.

Definition unique_violation {A} (index : string) : outcome A :=
  raise (OtherException "UniqueViolation")
    ("duplicate key value violates unique constraint " +:+ index).

(** [INSERT ... ON CONFLICT (invocation_id) DO NOTHING]: the other unique
    columns still raise. *)
Definition outbox_insert (now : datetime) (c : SideEffectCommand) (s : outbox) : outcome outbox :=
  t <-? dumps (VDict (sc_request c)) ;;
  u <-? jsonb_in t ;;
  if existsb (fun r => String.eqb (ob_invocation_id r) (sc_invocation_id c)) s then Ret s
  else if existsb (fun r => String.eqb (ob_effect_id r) (sc_effect_id c)) s
  then unique_violation "effect_id"
  else if existsb (fun r => String.eqb (ob_idempotency_key r) (sc_idempotency_key c)) s
  then unique_violation "idempotency_key"
  else Ret (s ++ [mkOutboxRow (sc_effect_id c) (sc_tenant_id c) (sc_execution_id c)
                    (sc_invocation_id c) (sc_capability_id c) (sc_idempotency_key c) u now
                    OB_PENDING 0 None None None None now]).

(** The command [enqueue] builds: [effect_id or str(uuid4())]. *)
Definition new_command (tenant : string) (eid : uuid) (invocation capability key : string)
    (request : dict) (effect_id : option string) (e : Env) : SideEffectCommand * Env :=
  let '(id, e) := match effect_id with
                  | Some i => if String.eqb i "" then let '(u, e) := uuid4 e in (uuid_str u, e)
                              else (i, e)
                  | None => let '(u, e) := uuid4 e in (uuid_str u, e)
                  end in
  (mkCommand id tenant eid invocation capability key request, e).

(** [enqueue], after the command is built. *)
Definition enqueue_command (now : datetime) (c : SideEffectCommand) : M outbox SideEffectCommand :=
  transaction (fun s => s' <-? outbox_insert now c s ;; Ret (c, s')).

(** The condition of [claim]'s [WHERE] clause. *)
Definition claimable (now : datetime) (r : outbox_row) : bool :=
  match ob_status r with
  | OB_PENDING => true
  | OB_PROCESSING => match ob_locked_at r with
                     | Some t => (t <? now - five_minutes)%Z
                     | None => false
                     end
  | OB_COMPLETED => false
  end.

(** [ORDER BY created_at LIMIT 1]; of rows created at the same time, which
    PostgreSQL leaves open, the one inserted first. *)
Fixpoint oldest (l : list outbox_row) : option outbox_row :=
  match l with
  | [] => None
  | r :: l => match oldest l with
              | Some x => Some (if (ob_created_at x <? ob_created_at r)%Z then x else r)
              | None => Some r
              end
  end.

(** [UPDATE ... WHERE effect_id = id] *)
Definition update_row (id : string) (f : outbox_row -> outbox_row) (s : outbox) : outbox :=
  map (fun r => if String.eqb (ob_effect_id r) id then f r else r) s.

Definition set_state (r : outbox_row) (st : outbox_status) (attempts : Z)
    (locked completed : option datetime) (result error : option json_text) (now : datetime) :
    outbox_row :=
  mkOutboxRow (ob_effect_id r) (ob_tenant_id r) (ob_execution_id r) (ob_invocation_id r)
    (ob_capability_id r) (ob_idempotency_key r) (ob_request r) (ob_created_at r)
    st attempts locked completed result error now.

Definition mark_processing (now : datetime) (r : outbox_row) : outbox_row :=
  set_state r OB_PROCESSING (ob_attempts r + 1) (Some now) (ob_completed_at r) (ob_result r)
    (ob_last_error r) now.
Definition mark_completed (now : datetime) (at_ : option datetime) (u : json_text)
    (r : outbox_row) : outbox_row :=
  set_state r OB_COMPLETED (ob_attempts r) None (Some (default now at_)) (Some u) (ob_last_error r)
    now.
Definition mark_failed (now : datetime) (u : json_text) (r : outbox_row) : outbox_row :=
  set_state r OB_PENDING (ob_attempts r) None (ob_completed_at r) (ob_result r) (Some u) now.
Definition mark_recovered (now : datetime) (r : outbox_row) : outbox_row :=
  set_state r OB_PENDING (ob_attempts r) None (ob_completed_at r) (ob_result r) (ob_last_error r)
    now.

(** The update of [claim]; [locked] are the rows other transactions have
    locked, which [SKIP LOCKED] passes over. *)
Definition claim_row (locked : string -> bool) (now : datetime) (s : outbox) :
    option outbox_row * outbox :=
  match oldest (List.filter (fun r => claimable now r && negb (locked (ob_effect_id r))) s) with
  | Some r => (Some (mark_processing now r), update_row (ob_effect_id r) (mark_processing now) s)
  | None => (None, s)
  end.

Definition row_command (r : outbox_row) : outcome SideEffectCommand :=
  match jsonb_out (ob_request r) with
  | VDict d => Ret (mkCommand (ob_effect_id r) (ob_tenant_id r) (ob_execution_id r)
                      (ob_invocation_id r) (ob_capability_id r) (ob_idempotency_key r) d)
  | _ => raise TypeError "request is not a mapping"
  end.

(** [claim]: the command is built after the commit. *)
Definition claim_effect (locked : string -> bool) (now : datetime) :
    M outbox (option SideEffectCommand) :=
  row <- (fun s => let '(o, s') := claim_row locked now s in (Ret o, s')) ;;
  match row with
  | None => ret None
  | Some r => c <- lift (row_command r) ;; ret (Some c)
  end.

(** The fence of [complete] and [fail]. *)
Definition check_fencing (now : datetime) (fencing : option lease_table)
    (worker_lease : option WorkerLease) : outcome unit :=
  match fencing with
  | None => Ret tt
  | Some leases =>
      match worker_lease with
      | None => raise ValueError "fencing requires a worker lease"
      | Some l => assert_current now l leases
      end
  end.

Definition complete_effect (now : datetime) (fencing : option lease_table)
    (worker_lease : option WorkerLease) (c : SideEffectCommand) (r : SideEffectResult) :
    M outbox unit :=
  transaction (fun s =>
    _ <-? check_fencing now fencing worker_lease ;;
    t <-? dumps (VDict [("output", se_output r)]) ;;
    u <-? jsonb_in t ;;
    Ret (tt, update_row (sc_effect_id c) (mark_completed now (se_completed_at r) u) s)).

Definition fail_effect (now : datetime) (fencing : option lease_table)
    (worker_lease : option WorkerLease) (c : SideEffectCommand) (error : dict) : M outbox unit :=
  transaction (fun s =>
    _ <-? check_fencing now fencing worker_lease ;;
    t <-? dumps (VDict error) ;;
    u <-? jsonb_in t ;;
    Ret (tt, update_row (sc_effect_id c) (mark_failed now u) s)).

(** The rows [recover_stale] updates. *)
Definition stale (now : datetime) (r : outbox_row) : bool :=
  bool_decide (ob_status r = OB_PROCESSING) && claimable now r.

Definition recover_stale (now : datetime) : M outbox nat := fun s =>
  (Ret (length (List.filter (stale now) s)),
   map (fun r => if stale now r then mark_recovered now r else r) s).

(** ** Calls of concurrent workers *)

Inductive outbox_call :=
  | CallEnqueue (c : SideEffectCommand)
  | CallClaim (locked : string -> bool)
  | CallComplete (fencing : option lease_table) (l : option WorkerLease) (c : SideEffectCommand)
      (r : SideEffectResult)
  | CallFail (fencing : option lease_table) (l : option WorkerLease) (c : SideEffectCommand)
      (error : dict)
  | CallRecover.

Definition discard {S A} (m : M S A) : M S unit := fun s =>
  match m s with (Ret _, s') => (Ret tt, s') | (Raise x, s') => (Raise x, s') end.

Definition perform (now : datetime) (c : outbox_call) : M outbox unit :=
  match c with
  | CallEnqueue c => discard (enqueue_command now c)
  | CallClaim locked => discard (claim_effect locked now)
  | CallComplete f l c r => complete_effect now f l c r
  | CallFail f l c error => fail_effect now f l c error
  | CallRecover => discard (recover_stale now)
  end.

(** The table after some calls, each at its time, whether or not they raise. *)
Fixpoint perform_all (l : list (datetime * outbox_call)) (s : outbox) : outbox :=
  match l with
  | [] => s
  | (now, c) :: l => perform_all l (snd (perform now c s))
  end.

(** A worker that claims [n] times at one time. *)
Fixpoint claims (n : nat) (now : datetime) : M outbox (list SideEffectCommand) :=
  match n with
  | O => ret []
  | S n =>
      o <- claim_effect (fun _ => false) now ;;
      match o with
      | None => ret []
      | Some c => l <- claims n now ;; ret (c :: l)
      end
  end.
End outbox.
