(* ===== verification/OutboxFacts.v ===== *)
(** * Facts about the outbox

    The invariant of the table, how rows evolve, and what a claim takes. *)

From stdpp Require Import base gmap strings list.
From Stdlib Require Import ZArith Lia.
From S2P Require Import Prelude Uuid Json Jsonb Fencing Outbox.
Local Open Scope py_scope.

Section facts.
Context {JB : Jsonb} {JL : JsonbLaws}.

(** ** Well-formed tables *)

Definition row_ok (r : outbox_row) : Prop :=
  (is_Some (ob_locked_at r) <-> ob_status r = OB_PROCESSING) /\
  (ob_status r = OB_COMPLETED -> is_Some (ob_completed_at r) /\ is_Some (ob_result r)) /\
  (0 <= ob_attempts r)%Z /\ (ob_status r = OB_PROCESSING -> 1 <= ob_attempts r)%Z /\
  exists d, jsonb_out (ob_request r) = VDict d.

Definition outbox_ok (s : outbox) : Prop :=
  NoDup (ob_effect_id <$> s) /\ NoDup (ob_invocation_id <$> s) /\
  NoDup (ob_idempotency_key <$> s) /\ Forall row_ok s.

(** The command a row stands for never changes. *)
Definition row_evolves (r r' : outbox_row) : Prop :=
  ob_effect_id r' = ob_effect_id r /\ ob_tenant_id r' = ob_tenant_id r /\
  ob_execution_id r' = ob_execution_id r /\ ob_invocation_id r' = ob_invocation_id r /\
  ob_capability_id r' = ob_capability_id r /\ ob_idempotency_key r' = ob_idempotency_key r /\
  ob_request r' = ob_request r /\ ob_created_at r' = ob_created_at r /\
  (ob_attempts r <= ob_attempts r')%Z.

#[export] Instance row_evolves_preorder : PreOrder row_evolves.
Proof.
  split; unfold row_evolves.
  - intros r. repeat split. lia.
  - intros r1 r2 r3 H1 H2. destruct_and!. split_and!; [congruence.. | lia].
Qed.

(** Rows are only added and updated. *)
Definition outbox_evolves (s s' : outbox) : Prop :=
  exists a b, s' = a ++ b /\ Forall2 row_evolves s a.

#[export] Instance outbox_evolves_preorder : PreOrder outbox_evolves.
Proof.
  split.
  - intros s. exists s, []. rewrite app_nil_r. split; [done|]. apply Forall_Forall2_diag.
    by apply Forall_true.
  - intros s1 s2 s3 (a & b & -> & H1) (a2 & b2 & -> & H2).
    apply Forall2_app_inv_l in H2 as (a3 & b3 & H3 & _ & ->).
    exists a3, (b3 ++ b2). split; [by rewrite app_assoc|]. exact (transitivity H1 H3).
Qed.

(** A conditional update of the rows. *)
Lemma update_ok (p : outbox_row -> bool) f s :
  (forall r : outbox_row, row_ok r -> p r = true -> row_ok (f r) /\ row_evolves r (f r)) -> outbox_ok s ->
  outbox_ok (map (fun r => if p r then f r else r) s) /\
  outbox_evolves s (map (fun r => if p r then f r else r) s).
Proof.
  intros Hf (N1 & N2 & N3 & Hs).
  assert (Forall2 row_evolves s (map (fun r => if p r then f r else r) s)) as He.
  { clear N1 N2 N3. induction Hs as [|r s Hr _ IH]; simpl; constructor; [|done].
    destruct (p r) eqn:E; [by apply Hf | done]. }
  assert (forall A (g : outbox_row -> A), (forall r r', row_evolves r r' -> g r' = g r) ->
    g <$> map (fun r => if p r then f r else r) s = g <$> s) as Hg.
  { intros A g Hg. clear -He Hg. induction He; simpl; [done|]. f_equal; [by apply Hg | done]. }
  split.
  - unfold outbox_ok. rewrite !Hg by (unfold row_evolves; intros; by destruct_and!).
    split_and!; try done. clear -Hs Hf. induction Hs as [|r s Hr _ IH]; simpl; constructor; [|done].
    destruct (p r) eqn:E; [by apply Hf | done].
  - eexists _, []. by rewrite app_nil_r.
Qed.

Lemma update_row_ok id f s :
  (forall r, row_ok r -> row_ok (f r) /\ row_evolves r (f r)) -> outbox_ok s ->
  outbox_ok (update_row id f s) /\ outbox_evolves s (update_row id f s).
Proof. intros Hf. apply update_ok. intros r Hr _. by apply Hf. Qed.

Ltac row_solve := unfold row_ok, row_evolves; intros; destruct_and!; split_and!; simpl;
  try done; try lia; try (intros; done); try by split; [done | by eexists].

Lemma mark_processing_ok now r :
  row_ok r -> row_ok (mark_processing now r) /\ row_evolves r (mark_processing now r).
Proof. row_solve. Qed.

Lemma mark_completed_ok now t u r :
  row_ok r -> row_ok (mark_completed now t u r) /\ row_evolves r (mark_completed now t u r).
Proof. row_solve; split; try done; by intros [? ?]. Qed.

Lemma mark_failed_ok now u r :
  row_ok r -> row_ok (mark_failed now u r) /\ row_evolves r (mark_failed now u r).
Proof. row_solve; split; try done; by intros [? ?]. Qed.

Lemma mark_recovered_ok now r :
  row_ok r -> row_ok (mark_recovered now r) /\ row_evolves r (mark_recovered now r).
Proof. row_solve; split; try done; by intros [? ?]. Qed.

(** ** Insertion *)

Lemma not_existsb_id {A} (g : outbox_row -> A) (eqb : A -> A -> bool) s x :
  (forall a b, eqb a b = true <-> a = b) ->
  existsb (fun r => eqb (g r) x) s = false -> x ∉ g <$> s.
Proof.
  intros Heq H. intros (r & -> & Hr)%list_elem_of_fmap.
  assert (existsb (fun r' => eqb (g r') (g r)) s = true) as E; [|by rewrite E in H].
  apply existsb_exists. exists r. split; [by apply list_elem_of_In | by apply Heq].
Qed.

Lemma outbox_insert_inv now c s s' :
  outbox_insert now c s = Ret s' ->
  (s' = s /\ sc_invocation_id c ∈ ob_invocation_id <$> s) \/
  exists t u, dumps (VDict (sc_request c)) = Ret t /\ jsonb_in t = Ret u /\
    (sc_invocation_id c ∉ ob_invocation_id <$> s) /\ (sc_effect_id c ∉ ob_effect_id <$> s) /\
    (sc_idempotency_key c ∉ ob_idempotency_key <$> s) /\
    s' = s ++ [mkOutboxRow (sc_effect_id c) (sc_tenant_id c) (sc_execution_id c)
                 (sc_invocation_id c) (sc_capability_id c) (sc_idempotency_key c) u now
                 OB_PENDING 0 None None None None now].
Proof.
  unfold outbox_insert. destruct (dumps _) as [t|] eqn:Et; simpl; [|discriminate].
  destruct (jsonb_in t) as [u|] eqn:Eu; simpl; [|discriminate].
  destruct (existsb _ s) eqn:E1.
  { intros H. out_simpl. left. split; [done|]. apply existsb_exists in E1 as (r & Hr & <-%String.eqb_eq).
    apply list_elem_of_fmap_2. by apply list_elem_of_In. }
  destruct (existsb (fun r => String.eqb (ob_effect_id r) _) s) eqn:E2; [done|].
  destruct (existsb (fun r => String.eqb (ob_idempotency_key r) _) s) eqn:E3; [done|].
  intros H. out_simpl. right. exists t, u. split_and!; try done;
    eapply not_existsb_id; try done; intros; apply String.eqb_eq.
Qed.

(** The request of a stored command reads back as an object. *)
Lemma request_readable d t u :
  dumps (VDict d) = Ret t -> jsonb_in t = Ret u -> exists d', jsonb_out u = VDict d'.
Proof.
  intros Ht Hu. pose proof (jsonb_like _ _ _ Ht Hu) as Hl. unfold dumps in Ht.
  rewrite json_norm_dict in Ht. destruct (norm_obj d); simpl in Ht; [|discriminate]. out_simpl.
  apply like_dict_inv in Hl as (d' & -> & _). by exists d'.
Qed.

(** A new row whose identifiers are fresh. *)
Lemma outbox_snoc_ok s r :
  row_ok r -> ob_effect_id r ∉ ob_effect_id <$> s -> ob_invocation_id r ∉ ob_invocation_id <$> s ->
  ob_idempotency_key r ∉ ob_idempotency_key <$> s -> outbox_ok s ->
  outbox_ok (s ++ [r]) /\ outbox_evolves s (s ++ [r]).
Proof.
  intros Hr F1 F2 F3 (N1 & N2 & N3 & Hs). split.
  - unfold outbox_ok. rewrite !fmap_app. split_and!; [by apply NoDup_snoc..|].
    apply Forall_app. split; [done|]. by constructor.
  - eexists s, _. split; [done|]. apply Forall_Forall2_diag. by apply Forall_true.
Qed.

(** A pending row nobody has attempted, with a request that was stored. *)
Lemma fresh_row_ok id tenant x inv cap key d t u now :
  dumps (VDict d) = Ret t -> jsonb_in t = Ret u ->
  row_ok (mkOutboxRow id tenant x inv cap key u now OB_PENDING 0 None None None None now).
Proof.
  intros Ht Hu. unfold row_ok. simpl. split_and!; try done; try lia; try (by intros [? ?]).
  by eapply request_readable.
Qed.

Lemma outbox_insert_ok now c s s' :
  outbox_insert now c s = Ret s' -> outbox_ok s -> outbox_ok s' /\ outbox_evolves s s'.
Proof.
  intros [[-> _]|(t & u & Ht & Hu & F1 & F2 & F3 & ->)]%outbox_insert_inv Hs; [done|].
  apply outbox_snoc_ok; try done. by eapply fresh_row_ok.
Qed.

(** ** Claims *)

Lemma oldest_spec l :
  match oldest l with
  | Some r => r ∈ l /\ forall x, x ∈ l -> (ob_created_at r <= ob_created_at x)%Z
  | None => l = []
  end.
Proof.
  induction l as [|r l IH]; simpl; [done|]. destruct (oldest l) as [x|].
  - destruct IH as [Hin Hmin]. destruct (Z.ltb_spec (ob_created_at x) (ob_created_at r)).
    + split; [by right|]. intros y [->|Hy]%elem_of_cons; [lia | by apply Hmin].
    + split; [by left|]. intros y [->|Hy]%elem_of_cons; [lia|]. specialize (Hmin y Hy). lia.
  - subst l. split; [by left|]. by intros y ->%list_elem_of_singleton.
Qed.

Lemma elem_of_bfilter {A} (p : A -> bool) l x : x ∈ List.filter p l <-> x ∈ l /\ p x = true.
Proof. rewrite !list_elem_of_In. apply filter_In. Qed.

(** What the update of [claim] does. *)
Lemma claim_row_spec locked now s :
  (exists r, claim_row locked now s = (Some (mark_processing now r),
                update_row (ob_effect_id r) (mark_processing now) s) /\
     r ∈ s /\ claimable now r = true /\ locked (ob_effect_id r) = false /\
     forall x, x ∈ s -> claimable now x = true -> locked (ob_effect_id x) = false ->
       (ob_created_at r <= ob_created_at x)%Z) \/
  (claim_row locked now s = (None, s) /\
    forall x, x ∈ s -> claimable now x = true -> locked (ob_effect_id x) = true).
Proof.
  unfold claim_row. set (p := fun r => claimable now r && negb (locked (ob_effect_id r))).
  pose proof (oldest_spec (List.filter p s)) as Ho. destruct (oldest _) as [r|].
  - left. exists r. split; [done|]. destruct Ho as [[Hr [Hc Hl%negb_true_iff]%andb_true_iff]%elem_of_bfilter Hmin].
    split_and!; try done. intros x Hx Hcx Hlx. apply Hmin, elem_of_bfilter. split; [done|].
    unfold p. by rewrite Hcx, Hlx.
  - right. split; [done|]. intros x Hx Hcx. destruct (locked (ob_effect_id x)) eqn:E; [done|].
    assert (x ∈ List.filter p s) as Hin; [|rewrite Ho in Hin; by apply elem_of_nil in Hin].
    apply elem_of_bfilter. split; [done|]. unfold p. by rewrite Hcx, E.
Qed.

(** On a well-formed table a claim never raises. *)
Lemma claim_effect_spec locked now s :
  outbox_ok s ->
  (exists r d, jsonb_out (ob_request r) = VDict d /\ claim_effect locked now s =
      (Ret (Some (mkCommand (ob_effect_id r) (ob_tenant_id r) (ob_execution_id r)
                    (ob_invocation_id r) (ob_capability_id r) (ob_idempotency_key r) d)),
       update_row (ob_effect_id r) (mark_processing now) s) /\
     r ∈ s /\ claimable now r = true /\ locked (ob_effect_id r) = false /\
     forall x, x ∈ s -> claimable now x = true -> locked (ob_effect_id x) = false ->
       (ob_created_at r <= ob_created_at x)%Z) \/
  (claim_effect locked now s = (Ret None, s) /\
    forall x, x ∈ s -> claimable now x = true -> locked (ob_effect_id x) = true).
Proof.
  intros (_ & _ & _ & Hs). unfold claim_effect, bind.
  destruct (claim_row_spec locked now s) as [(r & -> & Hr & Hrest)|[-> Hnone]]; [|by right].
  left. pose proof (proj1 (Forall_forall _ _) Hs _ Hr) as (_ & _ & _ & _ & d & Hd).
  exists r, d. split; [done|]. split; [|done]. unfold row_command, lift. simpl. by rewrite Hd.
Qed.

(** ** Every call keeps the invariant *)

Ltac call_cases := unfold transaction;
  repeat (match goal with |- context [out_bind ?o _] => destruct o end;
          cbn [out_bind]; [|by left; eexists]).

Lemma enqueue_inv now c s :
  (exists x, enqueue_command now c s = (Raise x, s)) \/
  (exists s', outbox_insert now c s = Ret s' /\ enqueue_command now c s = (Ret c, s')).
Proof.
  unfold enqueue_command, transaction. destruct (outbox_insert now c s) as [s'|x]; [|by left; exists x].
  right. by exists s'.
Qed.

Lemma complete_effect_inv now f l c r s :
  (exists x, complete_effect now f l c r s = (Raise x, s)) \/
  (exists u, complete_effect now f l c r s =
     (Ret tt, update_row (sc_effect_id c) (mark_completed now (se_completed_at r) u) s)).
Proof. unfold complete_effect. call_cases. right. by eexists. Qed.

Lemma fail_effect_inv now f l c error s :
  (exists x, fail_effect now f l c error s = (Raise x, s)) \/
  (exists u, fail_effect now f l c error s =
     (Ret tt, update_row (sc_effect_id c) (mark_failed now u) s)).
Proof. unfold fail_effect. call_cases. right. by eexists. Qed.

Lemma discard_state {S A} (m : M S A) s : snd (discard m s) = snd (m s).
Proof. unfold discard. by destruct (m s) as [[]]. Qed.

Lemma perform_ok now c s :
  outbox_ok s -> outbox_ok (snd (perform now c s)) /\ outbox_evolves s (snd (perform now c s)).
Proof.
  intros Hs. destruct c as [c|locked|f l c r|f l c error|]; simpl; rewrite ?discard_state.
  - destruct (enqueue_inv now c s) as [[x ->]|(s' & E & ->)]; [done|].
    by eapply outbox_insert_ok.
  - destruct (claim_effect_spec locked now s Hs) as [(r & d & _ & -> & _)|[-> _]]; [|done].
    apply update_row_ok; [|done]. apply mark_processing_ok.
  - destruct (complete_effect_inv now f l c r s) as [[x ->]|[u ->]]; [done|].
    apply update_row_ok; [|done]. intros. by apply mark_completed_ok.
  - destruct (fail_effect_inv now f l c error s) as [[x ->]|[u ->]]; [done|].
    apply update_row_ok; [|done]. intros. by apply mark_failed_ok.
  - apply update_ok; [|done]. intros. by apply mark_recovered_ok.
Qed.

Lemma perform_all_ok l s :
  outbox_ok s -> outbox_ok (perform_all l s) /\ outbox_evolves s (perform_all l s).
Proof.
  revert s. induction l as [|[now c] l IH]; intros s Hs; simpl; [done|].
  destruct (perform_ok now c s Hs) as [H1 E1]. destruct (IH _ H1) as [H2 E2].
  split; [done|]. by etransitivity.
Qed.

(** ** Deliveries *)

(** A row that no claim takes up to the deadline, or ever. *)
Definition guarded (deadline : option datetime) (r : outbox_row) : Prop :=
  ob_status r = OB_COMPLETED \/
  (exists d t, deadline = Some d /\ ob_status r = OB_PROCESSING /\ ob_locked_at r = Some t /\
     d - five_minutes <= t)%Z.

Definition in_time (deadline : option datetime) (now : datetime) : Prop :=
  match deadline with Some d => (now <= d)%Z | None => True end.

Lemma guarded_not_claimable deadline now r :
  guarded deadline r -> in_time deadline now -> claimable now r = false.
Proof.
  unfold guarded, claimable. intros [->|(d & t & -> & -> & -> & Ht)] Hn; [done|].
  apply Z.ltb_ge. simpl in Hn. lia.
Qed.

Definition held (id : string) (deadline : option datetime) (s : outbox) : Prop :=
  id ∈ (ob_effect_id <$> s) /\ forall r, r ∈ s -> ob_effect_id r = id -> guarded deadline r.

(** A call that does not report the effect as failed. *)
Definition spares (id : string) (c : outbox_call) : Prop :=
  match c with CallFail _ _ c _ => sc_effect_id c <> id | _ => True end.

(** An update that keeps effect identifiers and guarded rows. *)
Lemma held_update id deadline (g : outbox_row -> outbox_row) s :
  (forall r, ob_effect_id (g r) = ob_effect_id r) ->
  (forall r, ob_effect_id r = id -> guarded deadline r -> guarded deadline (g r)) ->
  held id deadline s -> held id deadline (map g s).
Proof.
  intros Hid Hg [Hin Hs]. split.
  - apply list_elem_of_fmap in Hin as (r & -> & Hr). rewrite <- Hid.
    apply list_elem_of_fmap_2. by apply list_elem_of_fmap_2.
  - intros r' (r & -> & Hr)%list_elem_of_fmap Hr'. rewrite Hid in Hr'. apply Hg; [done|]. by apply Hs.
Qed.

Lemma held_update_row id deadline id' f s :
  (forall r, ob_effect_id (f r) = ob_effect_id r) ->
  (id' = id -> forall r, guarded deadline r -> guarded deadline (f r)) ->
  held id deadline s -> held id deadline (update_row id' f s).
Proof.
  intros Hid Hf. apply held_update.
  - intros r. by destruct (String.eqb _ _).
  - intros r Hr Hg. destruct (String.eqb_spec (ob_effect_id r) id') as [E|]; [|done].
    apply Hf; congruence.
Qed.

Lemma perform_held id deadline now c s :
  held id deadline s -> in_time deadline now -> spares id c -> held id deadline (snd (perform now c s)).
Proof.
  intros Hh Hn Hc. destruct c as [c|locked|f l c r|f l c error|]; simpl; rewrite ?discard_state.
  - destruct (enqueue_inv now c s) as [[x ->]|(s' & E & ->)]; [done|].
    apply outbox_insert_inv in E as [[-> _]|(t & u & _ & _ & _ & F & _ & ->)]; [done|].
    cbn [snd]. destruct Hh as [Hin Hs]. split; [rewrite fmap_app; apply elem_of_app; by left|].
    intros r [Hr|Hr]%elem_of_app Hid; [by apply Hs|]. apply list_elem_of_singleton in Hr. subst.
    by destruct F.
  - unfold claim_effect, bind.
    destruct (claim_row_spec locked now s) as [(r & -> & Hr & Hcl & _)|[-> _]]; [|done].
    assert (held id deadline (update_row (ob_effect_id r) (mark_processing now) s)) as H.
    { apply held_update_row; [done| |done]. intros E. exfalso.
      rewrite (guarded_not_claimable deadline) in Hcl; [done| |done]. by apply Hh. }
    unfold lift. by destruct (row_command _).
  - destruct (complete_effect_inv now f l c r s) as [[x ->]|[u ->]]; [done|].
    apply held_update_row; [done| |done]. intros _ r' _. by left.
  - destruct (fail_effect_inv now f l c error s) as [[x ->]|[u ->]]; [done|].
    by apply held_update_row.
  - apply (held_update id deadline (fun r => if stale now r then mark_recovered now r else r));
      [intros r; by destruct (stale now r)| |done].
    intros r _ Hg. unfold stale. rewrite (guarded_not_claimable deadline now r) by done.
    by rewrite andb_false_r.
Qed.

Lemma perform_all_held id deadline l s :
  Forall (fun nc => in_time deadline (fst nc) /\ spares id (snd nc)) l ->
  held id deadline s -> held id deadline (perform_all l s).
Proof.
  intros Hl. revert s. induction Hl as [|[now c] l [Hn Hc] _ IH]; intros s Hs; simpl; [done|].
  by apply IH, perform_held.
Qed.

(** A held effect is not delivered. *)
Lemma held_not_claimed id deadline locked now s c s' :
  held id deadline s -> in_time deadline now -> claim_effect locked now s = (Ret (Some c), s') ->
  sc_effect_id c <> id.
Proof.
  intros [_ Hs] Hn. unfold claim_effect, bind.
  destruct (claim_row_spec locked now s) as [(r & -> & Hr & Hcl & _)|[-> _]]; [|done].
  unfold row_command, lift. simpl. destruct (jsonb_out _); simpl; try done.
  intros H. injection H as <- _. simpl. intros E.
  rewrite (guarded_not_claimable deadline) in Hcl; [done| |done].
  by apply Hs.
Qed.

Lemma elem_of_update_row id f s r' :
  r' ∈ update_row id f s -> (r' ∈ s /\ ob_effect_id r' <> id) \/
  exists r, r ∈ s /\ ob_effect_id r = id /\ r' = f r.
Proof.
  intros (r & -> & Hr)%list_elem_of_fmap. destruct (String.eqb_spec (ob_effect_id r) id).
  - right. by exists r.
  - by left.
Qed.

Lemma update_row_ids id f s :
  (forall r, ob_effect_id (f r) = ob_effect_id r) ->
  ob_effect_id <$> update_row id f s = ob_effect_id <$> s.
Proof.
  intros Hf. induction s as [|r s IH]; [done|]. rewrite !fmap_cons. cbn [update_row map].
  rewrite fmap_cons. f_equal; [|done]. destruct (String.eqb _ _); [apply Hf | done].
Qed.

(** ** Draining the table *)

Lemma update_row_absent id f s : id ∉ (ob_effect_id <$> s) -> update_row id f s = s.
Proof.
  induction s as [|r s IH]; simpl; [done|]. intros [Hne Hs]%not_elem_of_cons.
  rewrite IH by done. by rewrite (proj2 (String.eqb_neq (ob_effect_id r) id)) by done.
Qed.

Lemma processing_not_claimable now r : claimable now (mark_processing now r) = false.
Proof. unfold claimable. simpl. apply Z.ltb_ge. unfold five_minutes. lia. Qed.

Lemma claimed_rows now r s :
  NoDup (ob_effect_id <$> s) -> r ∈ s -> claimable now r = true ->
  ob_effect_id <$> List.filter (claimable now) s ≡ₚ
  ob_effect_id r :: (ob_effect_id <$>
    List.filter (claimable now) (update_row (ob_effect_id r) (mark_processing now) s)).
Proof.
  intros Hnd Hr Hc. induction s as [|x s IH]; [by apply elem_of_nil in Hr|].
  rewrite fmap_cons in Hnd. apply NoDup_cons in Hnd as [Hx Hnd].
  cbn [update_row map]. fold (update_row (ob_effect_id r) (mark_processing now) s).
  apply elem_of_cons in Hr as [->|Hr].
  - rewrite String.eqb_refl, update_row_absent by done. cbn [List.filter].
    by rewrite Hc, processing_not_claimable.
  - rewrite (proj2 (String.eqb_neq (ob_effect_id x) (ob_effect_id r))).
    2: { intros E. apply Hx. rewrite E. by apply list_elem_of_fmap_2. }
    cbn [List.filter]. destruct (claimable now x); [|by apply IH].
    rewrite !fmap_cons, IH by done. apply Permutation_swap.
Qed.

Lemma claims_drain n now s :
  outbox_ok s -> (length (List.filter (claimable now) s) <= n)%nat ->
  exists l s', claims n now s = (Ret l, s') /\
    sc_effect_id <$> l ≡ₚ ob_effect_id <$> List.filter (claimable now) s /\
    List.filter (claimable now) s' = [].
Proof.
  revert s. induction n as [|n IH]; intros s Hs Hn.
  { exists [], s. assert (List.filter (claimable now) s = []) as -> by (apply nil_length_inv; lia). done. }
  cbn [claims]. unfold bind at 1.
  destruct (claim_effect_spec (fun _ => false) now s Hs)
    as [(r & d & _ & -> & Hr & Hc & _ & _)|[-> Hnone]].
  - pose proof (proj1 Hs) as Hnd. pose proof (claimed_rows now r s Hnd Hr Hc) as Hp.
    set (s1 := update_row _ _ s) in *.
    assert (outbox_ok s1) as Hs1 by (apply update_row_ok; [apply mark_processing_ok | done]).
    destruct (IH s1 Hs1) as (l & s' & E & Hl & Hnil).
    { apply Permutation_length in Hp. cbn [length] in Hp. rewrite !length_fmap in Hp. lia. }
    rewrite (bind_ret_intro _ _ _ _ _ E). eexists (_ :: l), s'. split; [done|]. split; [|done].
    rewrite fmap_cons, Hp. cbn. by constructor.
  - exists [], s. split; [done|].
    assert (List.filter (claimable now) s = []) as ->; [|done].
    destruct (List.filter (claimable now) s) as [|x l] eqn:E; [done|].
    assert (x ∈ List.filter (claimable now) s) as [Hx Hcx]%elem_of_bfilter by (rewrite E; by left).
    by specialize (Hnone x Hx Hcx).
Qed.
End facts.
