(* ===== verification/PostgresExecution.v ===== *)
(** * Durable execution in PostgreSQL

    [ois/kernel/tenant.py], [PostgresDurableExecutionStore] of
    [ois/kernel/postgres.py] and [FencedPostgresDurableExecutionStore] of
    [ois/infrastructure/postgres_fencing.py].  Each method runs one transaction
    on the tables below and commits at its end, so an exception leaves them as
    they were; the context a method touched stays touched.  Row-level security
    is not modelled: a statement sees every row. *)

From stdpp Require Import base gmap strings list.
From Stdlib Require Import ZArith Lia.
From S2P Require Import Prelude Uuid Json Types State Stores Jsonb Fencing Outbox.
Local Open Scope py_scope.

(** ** Tenants *)

(** [normalize_tenant_id] *)
Definition normalize_tenant_id (tenant : string) : outcome string :=
  match uuid_parse tenant with
  | Ret u => Ret (uuid_str u)
  | Raise _ => raise TenantContextError "tenant_id must be a valid UUID"
  end.

(** ** Tables *)

(** A row of [ois_execution_checkpoints]. *)
Record pg_checkpoint := mkPgCheckpoint {
  pc_tenant_id : string;
  pc_workflow_id : option string;
  pc_workflow_version : option string;
  pc_status : string;
  pc_schema_version : Z;
  pc_state : json_text;
  pc_state_hash : string;
  pc_created_at : datetime;
  pc_updated_at : datetime }.

(** A row of [ois_execution_checkpoint_history]. *)
Record pg_snapshot := mkPgSnapshot {
  ps_checkpoint_id : uuid;
  ps_execution_id : uuid;
  ps_tenant_id : string;
  ps_workflow_id : option string;
  ps_workflow_version : option string;
  ps_step_index : Z;
  ps_status : string;
  ps_schema_version : Z;
  ps_state : json_text;
  ps_state_hash : string;
  ps_created_at : datetime }.

(** A row of [ois_idempotency_results]. *)
Record pg_result := mkPgResult {
  pr_execution_id : uuid;
  pr_tenant_id : string;
  pr_capability_id : string;
  pr_status : string;
  pr_result : json_text }.

Record pg_db := mkDb {
  db_checkpoints : gmap uuid pg_checkpoint;
  db_history : list pg_snapshot;
  db_results : gmap string pg_result;
  db_outbox : outbox;
  db_leases : lease_table }.

Definition with_checkpoints t (db : pg_db) : pg_db :=
  mkDb t (db_history db) (db_results db) (db_outbox db) (db_leases db).
Definition with_history t (db : pg_db) : pg_db :=
  mkDb (db_checkpoints db) t (db_results db) (db_outbox db) (db_leases db).
Definition with_results t (db : pg_db) : pg_db :=
  mkDb (db_checkpoints db) (db_history db) t (db_outbox db) (db_leases db).
Definition with_outbox t (db : pg_db) : pg_db :=
  mkDb (db_checkpoints db) (db_history db) (db_results db) t (db_leases db).

(** [UUID(sha256(text.encode()).hexdigest()[:32])] *)
Class DigestUuid := digest_uuid : string -> uuid.

(** An [INTEGER] column. *)
Definition int4 (z : Z) : outcome Z :=
  if ((- 2147483648 <=? z) && (z <=? 2147483647))%Z then Ret z
  else raise (OtherException "NumericValueOutOfRange") "integer out of range".

Section store.
Context {IF : IsoFormat} {SH : Sha256} {JB : Jsonb} {DU : DigestUuid}.

(** The result of a method that touches a context: the tables after it, the
    context, and the environment. *)
Abbreviation saving := (outcome pg_db * ExecutionContext * Env)%type.

(** [_state_payload] *)
Definition state_payload (c : ExecutionContext) : outcome (json_text * string) :=
  d <-? to_dict c ;;
  t <-? dumps (VDict d) ;;
  Ret (t, sha256 t).

(** The statement of [_checkpoint_sql]: an existing row keeps its [created_at]. *)
Definition upsert_checkpoint (c : ExecutionContext) (p : json_text * string) (db : pg_db) :
    outcome pg_db :=
  u <-? jsonb_in (fst p) ;;
  let i := identity c in
  let created := match db_checkpoints db !! execution_id i with
                 | Some r => pc_created_at r
                 | None => created_at c
                 end in
  Ret (with_checkpoints
         (<[execution_id i := mkPgCheckpoint (tenant_id i) (workflow_id i) (workflow_version i)
              (enum_value (status c)) 1 u (snd p) created (updated_at c)]> (db_checkpoints db)) db).

(** [_assert_context] of a store bound to [scope]. *)
Definition assert_context (scope : option string) (tenant : string) : outcome unit :=
  normalized <-? normalize_tenant_id tenant ;;
  match scope with
  | Some t => if String.eqb normalized t then Ret tt
              else raise ValueError "execution tenant does not match store tenant scope"
  | None => Ret tt
  end.

(** The second statement of [_save_with_history]. *)
Definition insert_snapshot (c : ExecutionContext) (id : uuid) (step : Z) (p : json_text * string)
    (db : pg_db) : outcome pg_db :=
  step <-? int4 step ;;
  u <-? jsonb_in (fst p) ;;
  if existsb (fun r => (ps_checkpoint_id r =? id)%N) (db_history db) then Ret db
  else
    let i := identity c in
    Ret (with_history (db_history db ++ [mkPgSnapshot id (execution_id i) (tenant_id i)
           (workflow_id i) (workflow_version i) step (enum_value (status c)) 1 u (snd p)
           (updated_at c)]) db).

(** [int(context.metadata.get("step_index", context.retry_count))] *)
Definition step_index (c : ExecutionContext) : outcome Z :=
  py_int_of (dget_or "step_index" (VInt (retry_count c)) (metadata c)).

(** [_save_with_history] *)
Definition save_with_history (c : ExecutionContext) (checkpoint_id : uuid) (e : Env) (db : pg_db) :
    saving :=
  let '(now, e) := utc_now e in
  let c := touch now c in
  (p <-? state_payload c ;;
   step <-? step_index c ;;
   let id := if (checkpoint_id =? 0)%N
             then digest_uuid (uuid_str (execution_id (identity c)) +:+ ":" +:+
                               isoformat (updated_at c))
             else checkpoint_id in
   db1 <-? upsert_checkpoint c p db ;;
   insert_snapshot c id step p db1, c, e).

(** [save] *)
Definition pg_save (scope : option string) (c : ExecutionContext) (e : Env) (db : pg_db) : saving :=
  match assert_context scope (tenant_id (identity c)) with
  | Raise x => (Raise x, c, e)
  | Ret _ => save_with_history c 0%N e db
  end.

(** [save_checkpoint] *)
Definition pg_save_checkpoint (checkpoint_id : uuid) (c : ExecutionContext) (e : Env) (db : pg_db) :
    saving := save_with_history c checkpoint_id e db.

(** [ORDER BY step_index DESC, created_at DESC]; of equal rows, which
    PostgreSQL leaves open, the one inserted first. *)
Definition snapshot_before (a b : pg_snapshot) : bool :=
  (ps_step_index b <? ps_step_index a)%Z ||
  ((ps_step_index a =? ps_step_index b)%Z && (ps_created_at b <=? ps_created_at a)%Z).

Definition snapshots (eid : uuid) (tenant : string) (db : pg_db) : list pg_snapshot :=
  order_by snapshot_before
    (List.filter (fun r => String.eqb (ps_tenant_id r) tenant && (ps_execution_id r =? eid)%N)
       (db_history db)).

(** The digest of the state a row holds is the recorded one. *)
Definition intact (u : json_text) (hash : string) : outcome bool :=
  t <-? dumps (jsonb_out u) ;; Ret (String.eqb (sha256 t) hash).

(** [except (TypeError, ValueError, KeyError)] *)
Definition skipped_error (x : exn) : bool :=
  is_class TypeError x || is_class ValueError x || is_class KeyError x.

(** The loop of [fetch_last_valid_checkpoint]. *)
Fixpoint first_valid (rows : list pg_snapshot) (e : Env) : outcome (option ExecutionContext) * Env :=
  match rows with
  | [] => (Ret None, e)
  | r :: rows =>
      match intact (ps_state r) (ps_state_hash r) with
      | Raise x => (Raise x, e)
      | Ret false => first_valid rows e
      | Ret true =>
          match context_of_value (jsonb_out (ps_state r)) e with
          | (Ret c, e) => (Ret (Some c), e)
          | (Raise x, e) => if skipped_error x then first_valid rows e else (Raise x, e)
          end
      end
  end.

Definition fetch_last_valid_checkpoint (eid : uuid) (tenant : string) (e : Env) (db : pg_db) :
    outcome (option ExecutionContext) * Env := first_valid (snapshots eid tenant db) e.

(** [commit_checkpoint_and_side_effect]; [now] is the database clock. *)
Definition commit_checkpoint_and_side_effect (scope : option string) (now : datetime)
    (c : ExecutionContext) (cmd : SideEffectCommand) (e : Env) (db : pg_db) : saving :=
  match (_ <-? assert_context scope (tenant_id (identity c)) ;;
         assert_context scope (sc_tenant_id cmd)) with
  | Raise x => (Raise x, c, e)
  | Ret _ =>
      let '(t, e) := utc_now e in
      let c := touch t c in
      (p <-? state_payload c ;;
       db1 <-? upsert_checkpoint c p db ;;
       o <-? outbox_insert now cmd (db_outbox db1) ;;
       Ret (with_outbox o db1), c, e)
  end.

(** [load] *)
Definition pg_load (eid : uuid) (e : Env) (db : pg_db) : outcome ExecutionContext * Env :=
  match db_checkpoints db !! eid with
  | None => (raise CheckpointNotFound ("No PostgreSQL checkpoint for execution " +:+ uuid_str eid), e)
  | Some r =>
      match intact (pc_state r) (pc_state_hash r) with
      | Raise x => (Raise x, e)
      | Ret false => (raise ValueError ("Checkpoint integrity failure for execution " +:+ uuid_str eid), e)
      | Ret true => context_of_value (jsonb_out (pc_state r)) e
      end
  end.

(** [delete] *)
Definition pg_delete (eid : uuid) (db : pg_db) : outcome pg_db :=
  Ret (with_checkpoints (delete eid (db_checkpoints db)) db).

(** [get_idempotency] *)
Definition pg_get_idempotency (k : string) (db : pg_db) : outcome (option InvocationResult) :=
  match db_results db !! k with
  | None => Ret None
  | Some row =>
      match jsonb_out (pr_result row) with
      | VDict d => match result_of_payload d with
                   | Some o => r <-? o ;; Ret (Some r)
                   | None => raise TypeError "malformed idempotency row"
                   end
      | _ => raise TypeError "malformed idempotency row"
      end
  end.

(** The [INSERT] of [put_idempotency], with the encoding of its argument. *)
Definition insert_result (k : string) (eid : uuid) (tenant : string) (r : InvocationResult)
    (db : pg_db) : outcome pg_db :=
  t <-? dumps (VDict (result_payload r)) ;;
  u <-? jsonb_in t ;;
  Ret (match db_results db !! k with
       | Some _ => db
       | None => with_results (<[k := mkPgResult eid tenant (ir_capability_id r)
                                        (enum_value (ir_status r)) u]> (db_results db)) db
       end).

(** [put_idempotency] *)
Definition pg_put_idempotency (scope : option string) (k : string) (eid : uuid) (tenant : string)
    (r : InvocationResult) (db : pg_db) : outcome pg_db :=
  _ <-? assert_context scope tenant ;;
  if cacheable r then insert_result k eid tenant r db else Ret db.

(** ** [FencedPostgresDurableExecutionStore]

    Each mutation asserts the lease in its own transaction. *)

Definition fenced_save (l : WorkerLease) (now : datetime) (c : ExecutionContext) (e : Env)
    (db : pg_db) : saving :=
  let '(t, e) := utc_now e in
  let c := touch t c in
  (p <-? state_payload c ;;
   _ <-? assert_current now l (db_leases db) ;;
   upsert_checkpoint c p db, c, e).

Definition fenced_put_idempotency (l : WorkerLease) (now : datetime) (k : string) (eid : uuid)
    (tenant : string) (r : InvocationResult) (db : pg_db) : outcome pg_db :=
  if cacheable r then
    _ <-? assert_current now l (db_leases db) ;;
    insert_result k eid tenant r db
  else Ret db.

Definition fenced_commit (l : WorkerLease) (now : datetime) (c : ExecutionContext)
    (cmd : SideEffectCommand) (e : Env) (db : pg_db) : saving :=
  let '(t, e) := utc_now e in
  let c := touch t c in
  (p <-? state_payload c ;;
   _ <-? assert_current now l (db_leases db) ;;
   db1 <-? upsert_checkpoint c p db ;;
   o <-? outbox_insert now cmd (db_outbox db1) ;;
   Ret (with_outbox o db1), c, e).

(** [complete_side_effect]: exactly one row of the execution must match. *)
Definition fenced_complete (l : WorkerLease) (now : datetime) (cmd : SideEffectCommand)
    (r : SideEffectResult) (db : pg_db) : outcome pg_db :=
  _ <-? assert_current now l (db_leases db) ;;
  t <-? dumps (VDict [("output", se_output r)]) ;;
  u <-? jsonb_in t ;;
  let hit row := String.eqb (ob_effect_id row) (sc_effect_id cmd) &&
                 (ob_execution_id row =? sc_execution_id cmd)%N in
  if (length (List.filter hit (db_outbox db)) =? 1)%nat then
    Ret (with_outbox (map (fun row => if hit row
                                      then mark_completed now (se_completed_at r) u row
                                      else row) (db_outbox db)) db)
  else raise FencingError "side-effect completion target is missing".

Definition fenced_delete (l : WorkerLease) (now : datetime) (eid : uuid) (db : pg_db) :
    outcome pg_db :=
  _ <-? assert_current now l (db_leases db) ;;
  pg_delete eid db.

(** The mutations a worker can call through its fenced store. *)
Inductive fenced_call :=
  | FencedSave (c : ExecutionContext) (e : Env)
  | FencedPutIdempotency (k : string) (eid : uuid) (tenant : string) (r : InvocationResult)
  | FencedCommit (c : ExecutionContext) (cmd : SideEffectCommand) (e : Env)
  | FencedComplete (cmd : SideEffectCommand) (r : SideEffectResult)
  | FencedDelete (eid : uuid).

Definition fenced_result (l : WorkerLease) (now : datetime) (call : fenced_call) (db : pg_db) :
    outcome pg_db :=
  match call with
  | FencedSave c e => fst (fst (fenced_save l now c e db))
  | FencedPutIdempotency k eid tenant r => fenced_put_idempotency l now k eid tenant r db
  | FencedCommit c cmd e => fst (fst (fenced_commit l now c cmd e db))
  | FencedComplete cmd r => fenced_complete l now cmd r db
  | FencedDelete eid => fenced_delete l now eid db
  end.

(** The tables after the call; an exception rolls back. *)
Definition perform_fenced (l : WorkerLease) (now : datetime) (call : fenced_call) (db : pg_db) : pg_db :=
  match fenced_result l now call db with Ret db' => db' | Raise _ => db end.
End store.
