(* ===== verification/OutboxTheorems.v ===== *)
(** * Theorems on the side-effect outbox

    The table's invariant, what a stored command becomes, the window in which
    an effect is delivered to one worker only, that everything pending is
    delivered, and the redelivery of a completed effect. *)

From stdpp Require Import base gmap strings list.
From Stdlib Require Import ZArith Lia.
From S2P Require Import Prelude Uuid Json Jsonb Fencing Outbox OutboxFacts.
Local Open Scope py_scope.

Section theorems.
Context {JB : Jsonb} {JL : JsonbLaws}.

(** C33. Whatever calls concurrent workers make, and whether or not they raise,
    the outbox stays well-formed (identifiers, invocations and idempotency keys
    are unique; exactly the rows being processed are locked and were attempted;
    completed rows have a result and a time; requests read back as objects), no
    row is lost, and the command of a row never changes. *)
Theorem outbox_well_formed (l : list (datetime * outbox_call)) (s : outbox) :
  outbox_ok s -> outbox_ok (perform_all l s) /\ outbox_evolves s (perform_all l s).
Proof. apply perform_all_ok. Qed.

(** A stored command is the one a worker receives: after [enqueue] of a new
    invocation, a claim that finds no other row free returns a command with the
    same identifiers and a request that prints as the same JSON. *)
Theorem enqueue_claim_roundtrip (now now' : datetime) (c c1 : SideEffectCommand) (s s1 : outbox)
    (locked : string -> bool) :
  outbox_ok s -> sc_invocation_id c ∉ (ob_invocation_id <$> s) ->
  json_plain (VDict (sc_request c)) = true -> enqueue_command now c s = (Ret c1, s1) ->
  (forall id, locked id = true <-> id ∈ (ob_effect_id <$> s)) ->
  exists c' s2, claim_effect locked now' s1 = (Ret (Some c'), s2) /\
    sc_effect_id c' = sc_effect_id c /\ sc_tenant_id c' = sc_tenant_id c /\
    sc_execution_id c' = sc_execution_id c /\ sc_invocation_id c' = sc_invocation_id c /\
    sc_capability_id c' = sc_capability_id c /\ sc_idempotency_key c' = sc_idempotency_key c /\
    dumps (VDict (sc_request c')) = dumps (VDict (sc_request c)).
Proof.
  intros Hs Hnew Hplain He Hlock.
  destruct (enqueue_inv now c s) as [[x E]|(s' & E & E')]; [congruence|].
  rewrite E' in He. injection He as _ <-. pose proof (outbox_insert_ok _ _ _ _ E Hs) as [Hs' _].
  apply outbox_insert_inv in E as [[_ E]|(t & u & Ht & Hu & _ & F & _ & ->)]; [done|].
  destruct (claim_effect_spec locked now' _ Hs') as [(r & d & Hd & -> & Hr & _ & Hl & _)|[_ Hnone]].
  - assert (ob_effect_id r ∉ (ob_effect_id <$> s)) as Hnr by (rewrite <- Hlock, Hl; done).
    apply elem_of_app in Hr as [Hr|Hr%list_elem_of_singleton];
      [by destruct Hnr; apply list_elem_of_fmap_2|]. subst r. simpl in Hd.
    eexists _, _. split; [done|]. simpl. split_and!; try done.
    destruct (jsonb_plain _ _ Hplain Ht) as (u' & Hu' & Hdump). rewrite Hu in Hu'. out_simpl.
    by rewrite <- Hd, Hdump, Ht.
  - exfalso. apply F, Hlock. refine (Hnone (mkOutboxRow _ _ _ _ _ _ _ _ _ _ _ _ _ _ _) _ _).
    + apply elem_of_app. right. by apply list_elem_of_singleton.
    + done.
Qed.

(** C7. An effect is delivered to one worker at a time: for five minutes after a
    claim no claim of any worker returns the same effect again, and after it is
    reported as completed no claim ever does, whatever else is called in between,
    unless some worker reports the effect as failed. *)
Theorem outbox_exclusive_delivery (locked locked' : string -> bool) (t now : datetime)
    (l : list (datetime * outbox_call)) (c c' : SideEffectCommand) (s s1 s2 : outbox)
    (fencing : option lease_table) (lease : option WorkerLease) (result : SideEffectResult) :
  Forall (fun nc => spares (sc_effect_id c) (snd nc)) l ->
  claim_effect locked' now (perform_all l s1) = (Ret (Some c'), s2) ->
  (claim_effect locked t s = (Ret (Some c), s1) /\ (now <= t + five_minutes)%Z /\
   Forall (fun nc => fst nc <= t + five_minutes)%Z l) \/
  (complete_effect t fencing lease c result s = (Ret tt, s1) /\
   sc_effect_id c ∈ (ob_effect_id <$> s)) ->
  sc_effect_id c' <> sc_effect_id c.
Proof.
  intros Hl Hc' [(Hc & Hnow & Ht)|[Hc Hin]].
  - eapply (held_not_claimed (sc_effect_id c) (Some (t + five_minutes)%Z)); [|exact Hnow|exact Hc'].
    apply perform_all_held; [by apply Forall_and|]. revert Hc. unfold claim_effect, bind.
    destruct (claim_row_spec locked t s) as [(r & -> & Hr & _)|[-> _]]; [|done].
    unfold row_command, lift. simpl. destruct (jsonb_out _); try done.
    intros H. injection H as <- <-. simpl. split.
    + rewrite update_row_ids by done. by apply list_elem_of_fmap_2.
    + intros r' [[_ Hne]|(r0 & _ & _ & ->)]%elem_of_update_row Hid; [done|].
      right. exists (t + five_minutes)%Z, t. split_and!; try done. lia.
  - eapply (held_not_claimed (sc_effect_id c) None); [|exact I|exact Hc'].
    apply perform_all_held; [by eapply Forall_impl; [exact Hl|]|].
    destruct (complete_effect_inv t fencing lease c result s) as [[x E]|[u E]]; rewrite E in Hc; [done|].
    injection Hc as <-. split; [by rewrite update_row_ids|].
    intros r' [[_ Hne]|(r0 & _ & _ & ->)]%elem_of_update_row Hid; [done | by left].
Qed.

(** C37. Nothing pending is overlooked: a worker that claims often enough on a
    well-formed table receives every effect that is pending or whose claim is
    older than five minutes, each exactly once, no claim raises, and nothing
    claimable is left. *)
Theorem outbox_drained (n : nat) (now : datetime) (s : outbox) :
  outbox_ok s -> (length s <= n)%nat ->
  exists l s', claims n now s = (Ret l, s') /\
    (sc_effect_id <$> l ≡ₚ ob_effect_id <$> List.filter (claimable now) s) /\
    List.filter (claimable now) s' = [].
Proof.
  intros Hs Hn. apply claims_drain; [done|].
  etransitivity; [|exact Hn]. clear. induction s as [|r s IH]; simpl; [lia|].
  destruct (claimable now r); simpl; lia.
Qed.

(** A completed effect can be performed again: [fail] does not look at the
    status, so a report of failure that arrives after the completion puts the
    row back to pending, and the next claim that finds only this row free
    delivers the effect once more. *)
Theorem late_failure_redelivers (t1 t2 t3 : datetime) (f1 f2 : option lease_table)
    (w1 w2 : option WorkerLease) (c : SideEffectCommand) (result : SideEffectResult) (error : dict)
    (s s1 s2 : outbox) (r : outbox_row) :
  outbox_ok s -> r ∈ s -> ob_effect_id r = sc_effect_id c ->
  complete_effect t1 f1 w1 c result s = (Ret tt, s1) ->
  fail_effect t2 f2 w2 c error s1 = (Ret tt, s2) ->
  exists c' s3, claim_effect (fun id => negb (String.eqb id (sc_effect_id c))) t3 s2
      = (Ret (Some c'), s3) /\
    sc_effect_id c' = sc_effect_id c /\ sc_idempotency_key c' = ob_idempotency_key r.
Proof.
  intros Hs Hr Hid H1 H2.
  destruct (complete_effect_inv t1 f1 w1 c result s) as [[x E]|[u E]]; rewrite E in H1; [done|].
  destruct (update_row_ok (sc_effect_id c) (mark_completed t1 (se_completed_at result) u) s
    (fun r => mark_completed_ok t1 _ u r) Hs) as [Hs1 _]. injection H1 as H1. rewrite H1 in Hs1.
  destruct (fail_effect_inv t2 f2 w2 c error s1) as [[x E2]|[u2 E2]]; rewrite E2 in H2; [done|].
  destruct (update_row_ok (sc_effect_id c) (mark_failed t2 u2) s1 (fun r => mark_failed_ok t2 u2 r) Hs1)
    as [Hs2 _]. injection H2 as H2. rewrite H2 in Hs2.
  set (r1 := mark_completed t1 (se_completed_at result) u r).
  assert (r1 ∈ s1) as Hr1.
  { rewrite <- H1. apply list_elem_of_fmap. exists r. by rewrite Hid, String.eqb_refl. }
  set (r2 := mark_failed t2 u2 r1).
  assert (r2 ∈ s2) as Hr2.
  { rewrite <- H2. apply list_elem_of_fmap. exists r1. simpl. by rewrite Hid, String.eqb_refl. }
  destruct (claim_effect_spec (fun id => negb (String.eqb id (sc_effect_id c))) t3 s2 Hs2)
    as [(r3 & d & _ & -> & Hr3 & _ & Hl & _)|[_ Hnone]].
  - apply negb_false_iff, String.eqb_eq in Hl. eexists _, _. split; [done|]. simpl. split; [done|].
    assert (r3 = r2) as ->; [|done]. destruct Hs2 as [Hnd _].
    apply list_elem_of_lookup in Hr2 as [i Hi], Hr3 as [j Hj].
    assert (i = j) as ->; [|congruence].
    eapply NoDup_lookup; [exact Hnd | by rewrite list_lookup_fmap, Hi |].
    rewrite list_lookup_fmap, Hj. simpl. by rewrite Hl, Hid.
  - specialize (Hnone r2 Hr2 eq_refl). simpl in Hnone. by rewrite Hid, String.eqb_refl in Hnone.
Qed.
End theorems.

(** ** Witnesses *)

#[local] Existing Instance text_jsonb.
#[local] Existing Instance text_jsonb_laws.

Definition command_a : SideEffectCommand := mkCommand "a" "t" 7%N "inv-a" "mail" "key-a" [("to", VStr "x")].
Definition command_b : SideEffectCommand := mkCommand "b" "t" 7%N "inv-b" "mail" "key-b" [].

(** Both commands stored, one second apart. *)
Definition two_commands : outbox :=
  perform_all [(0%Z, CallEnqueue command_a); (1000000%Z, CallEnqueue command_b)] [].

Lemma outbox_ok_nil : outbox_ok [].
Proof. unfold outbox_ok. split_and!; constructor. Qed.

Lemma two_commands_ok : outbox_ok two_commands.
Proof. apply perform_all_ok, outbox_ok_nil. Qed.

Definition sent : SideEffectResult := mkEffectResult "a" "key-a" VNone None.

Lemma outbox_well_formed_witness :
  length two_commands = 2%nat /\ outbox_ok two_commands /\ outbox_evolves [] two_commands.
Proof.
  split; [vm_compute; reflexivity|].
  exact (outbox_well_formed [(0%Z, CallEnqueue command_a); (1000000%Z, CallEnqueue command_b)] []
    outbox_ok_nil).
Defined.

Lemma enqueue_claim_roundtrip_witness :
  exists c' s2, claim_effect (fun _ => false) 5%Z (snd (enqueue_command 0%Z command_a [])) =
      (Ret (Some c'), s2) /\
    sc_effect_id c' = "a" /\ sc_tenant_id c' = "t" /\ sc_execution_id c' = 7%N /\
    sc_invocation_id c' = "inv-a" /\ sc_capability_id c' = "mail" /\
    sc_idempotency_key c' = "key-a" /\
    dumps (VDict (sc_request c')) = dumps (VDict [("to", VStr "x")]).
Proof.
  apply (enqueue_claim_roundtrip 0%Z 5%Z command_a command_a []).
  - apply outbox_ok_nil.
  - apply not_elem_of_nil.
  - vm_compute. reflexivity.
  - vm_compute. reflexivity.
  - intros id. split; [done | intros H; by apply elem_of_nil in H].
Defined.

Lemma outbox_exclusive_delivery_witness :
  exists s1 s2, claim_effect (fun _ => false) 2000000%Z two_commands = (Ret (Some command_a), s1) /\
    claim_effect (fun _ => false) 3000000%Z (perform_all [(2500000%Z, CallRecover)] s1) =
      (Ret (Some command_b), s2) /\ sc_effect_id command_b <> sc_effect_id command_a.
Proof.
  set (s1 := snd (claim_effect (fun _ => false) 2000000%Z two_commands)).
  set (s2 := snd (claim_effect (fun _ => false) 3000000%Z (perform_all [(2500000%Z, CallRecover)] s1))).
  assert (H1 : claim_effect (fun _ => false) 2000000%Z two_commands = (Ret (Some command_a), s1))
    by (vm_compute; reflexivity).
  assert (H2 : claim_effect (fun _ => false) 3000000%Z (perform_all [(2500000%Z, CallRecover)] s1) =
    (Ret (Some command_b), s2)) by (vm_compute; reflexivity).
  exists s1, s2. split; [exact H1|]. split; [exact H2|].
  apply (outbox_exclusive_delivery (fun _ => false) (fun _ => false) 2000000%Z 3000000%Z
    [(2500000%Z, CallRecover)] command_a command_b two_commands s1 s2 None None sent).
  - by repeat constructor.
  - exact H2.
  - left. split; [exact H1|]. split; [done | by repeat constructor].
Defined.

Lemma outbox_drained_witness :
  exists l s', claims 2 2000000%Z two_commands = (Ret l, s') /\
    sc_effect_id <$> l ≡ₚ ["a"; "b"] /\ List.filter (claimable 2000000%Z) s' = [].
Proof. apply (outbox_drained 2 2000000%Z two_commands two_commands_ok). vm_compute. lia. Defined.

Lemma late_failure_redelivers_witness :
  exists s1 s2 c' s3,
    complete_effect 3000000%Z None None command_a sent two_commands = (Ret tt, s1) /\
    fail_effect 4000000%Z None None command_a [] s1 = (Ret tt, s2) /\
    claim_effect (fun id => negb (String.eqb id "a")) 5000000%Z s2 = (Ret (Some c'), s3) /\
    sc_effect_id c' = "a" /\ sc_idempotency_key c' = "key-a".
Proof.
  set (s1 := snd (complete_effect 3000000%Z None None command_a sent two_commands)).
  set (s2 := snd (fail_effect 4000000%Z None None command_a [] s1)).
  assert (H1 : complete_effect 3000000%Z None None command_a sent two_commands = (Ret tt, s1))
    by (vm_compute; reflexivity).
  assert (H2 : fail_effect 4000000%Z None None command_a [] s1 = (Ret tt, s2))
    by (vm_compute; reflexivity).
  destruct (late_failure_redelivers 3000000%Z 4000000%Z 5000000%Z None None None None command_a
    sent [] two_commands s1 s2 (hd (mkOutboxRow "" "" 0%N "" "" "" (JsonText VNone) 0%Z OB_PENDING 0
      None None None None 0%Z) two_commands) two_commands_ok) as (c' & s3 & H3).
  - apply (list_elem_of_lookup_2 _ 0). vm_compute. reflexivity.
  - vm_compute. reflexivity.
  - exact H1.
  - exact H2.
  - by exists s1, s2, c', s3.
Defined.
