(* ===== verification/PostgresFacts.v ===== *)
(** * Facts about the PostgreSQL execution store

    Contexts through a JSONB column, and what each statement does to the
    tables. *)

From stdpp Require Import base gmap strings list.
From Stdlib Require Import ZArith Lia.
From S2P Require Import Prelude Uuid Json Types State Stores Jsonb Fencing Outbox OutboxFacts.
From S2P Require Import PostgresExecution.
Local Open Scope py_scope.

(** ** Contexts through JSONB *)

(** A field that is printed to JSON and read back from any value that prints
    the same and has the same structure. *)
Definition reads_back {A} (read : pyval -> option A) (print : A -> pyval) : Prop :=
  forall a x y, json_norm (print a) = Ret y -> json_norm x = Ret y -> json_like y x ->
  exists a', read x = Some a' /\ json_norm (print a') = Ret y.

Lemma norm_str_inv x s : json_norm x = Ret (VStr s) -> x = VStr s.
Proof.
  destruct x as [| | | | |l|l|d|]; intros H; try (simpl in H; by out_simpl).
  - rewrite json_norm_list in H. by destruct (norm_seq l).
  - rewrite json_norm_tuple in H. by destruct (norm_seq l).
  - rewrite json_norm_dict in H. by destruct (norm_obj d).
Qed.

Lemma norm_int_inv x z : json_norm x = Ret (VInt z) -> x = VInt z.
Proof.
  destruct x as [| | | | |l|l|d|]; intros H; try (simpl in H; by out_simpl).
  - rewrite json_norm_list in H. by destruct (norm_seq l).
  - rewrite json_norm_tuple in H. by destruct (norm_seq l).
  - rewrite json_norm_dict in H. by destruct (norm_obj d).
Qed.

Lemma norm_dict_ret d y : json_norm (VDict d) = Ret y -> exists d', y = VDict d'.
Proof. rewrite json_norm_dict. destruct (norm_obj d); simpl; intros; out_simpl; by eexists. Qed.

Lemma reads_int : reads_back read_int VInt.
Proof. intros z x y H Hx _. simpl in H. out_simpl. apply norm_int_inv in Hx as ->. by exists z. Qed.

Lemma reads_time `{IsoFormat} : reads_back read_time (fun t => VStr (isoformat t)).
Proof.
  intros t x y H1 Hx _. simpl in H1. out_simpl. apply norm_str_inv in Hx as ->.
  exists t. split; [apply fromisoformat_isoformat | done].
Qed.

Lemma reads_opt_str : reads_back read_opt_str opt_str.
Proof.
  intros [s|] x y H Hx Hl; simpl in H; out_simpl.
  - apply norm_str_inv in Hx as ->. by exists (Some s).
  - apply like_none_inv in Hl as ->. by exists None.
Qed.

Lemma reads_dict : reads_back read_dict VDict.
Proof.
  intros d x y H Hx Hl. destruct (norm_dict_ret _ _ H) as [d' ->].
  apply like_dict_inv in Hl as (m & -> & _). by exists m.
Qed.

Lemma reads_opt_dict : reads_back read_opt_dict opt_dict.
Proof.
  intros [d|] x y H Hx Hl.
  - destruct (reads_dict d x y H Hx Hl) as (m & Hm & E). exists (Some m).
    destruct x; try discriminate Hm. cbn in *. by simplify_eq.
  - simpl in H. out_simpl. apply like_none_inv in Hl as ->. by exists None.
Qed.

Lemma like_list_inv l w : json_like (VList l) w -> exists k, w = VList k /\ Forall2 json_like l k.
Proof. inversion 1; subst; [done | by eexists]. Qed.

Lemma reads_dict_list : reads_back read_dict_list dict_list.
Proof.
  intros l x y H Hx Hl. unfold dict_list in H. rewrite json_norm_list in H.
  destruct (norm_seq (VDict <$> l)) as [ys|] eqn:E; simpl in H; [|discriminate]. out_simpl.
  apply like_list_inv in Hl as (xs & -> & Hl). unfold dict_list.
  assert (exists ds, xs = VDict <$> ds) as [ds ->].
  { clear Hx. revert ys E Hl. revert xs. induction l as [|d l IH]; intros xs ys E Hl;
      cbn [fmap list_fmap norm_seq] in E; [out_simpl; inversion Hl; by exists []|].
    destruct (json_norm (VDict d)) as [y|] eqn:Ed; simpl in E; [|discriminate].
    destruct (norm_seq (VDict <$> l)) as [zs|] eqn:El; simpl in E; [|discriminate]. out_simpl.
    inversion Hl as [|? x ? xs' Hy Hrest]; subst. destruct (norm_dict_ret _ _ Ed) as [? ->].
    apply like_dict_inv in Hy as (m & -> & _). destruct (IH _ _ eq_refl Hrest) as [ds ->].
    by exists (m :: ds). }
  exists ds. split; [apply read_dict_list_spec | done].
Qed.

Section roundtrip.
Context {IF : IsoFormat} {SH : Sha256} {JB : Jsonb} {JL : JsonbLaws}.

(** [d'] binds the keys of the encoded object [nd] to values that print alike. *)
Definition prints_as (nd d' : dict) : Prop :=
  forall k y, dget k nd = Some y ->
    exists x, dget k d' = Some x /\ json_norm x = Ret y /\ json_like y x.

Lemma prints_field {A} (read : pyval -> option A) print d nd d' k a :
  reads_back read print -> norm_obj d = Ret nd -> prints_as nd d' -> dget k d = Some (print a) ->
  exists x a', dget k d' = Some x /\ read x = Some a' /\ json_norm (print a') = json_norm (print a).
Proof.
  intros Hr Hn Hp Hk. pose proof (norm_obj_get k _ _ Hn) as Hg. rewrite Hk in Hg.
  destruct Hg as (y & Hy & Hg). destruct (Hp _ _ Hg) as (x & Hx & Hxy & Hl).
  destruct (Hr a x y Hy Hxy Hl) as (a' & Ha & E). exists x, a'. split; [done|]. split; congruence.
Qed.

Lemma prints_str d nd d' k s :
  norm_obj d = Ret nd -> prints_as nd d' -> dget k d = Some (VStr s) -> dget k d' = Some (VStr s).
Proof.
  intros Hn Hp Hk. pose proof (norm_obj_get k _ _ Hn) as Hg. rewrite Hk in Hg.
  destruct Hg as (y & Hy & Hg). simpl in Hy. out_simpl. destruct (Hp _ _ Hg) as (x & Hx & Hxy & _).
  by apply norm_str_inv in Hxy as ->.
Qed.

Lemma prints_failure d nd d' k o v :
  norm_obj d = Ret nd -> prints_as nd d' -> last_failure_value o = Ret v -> dget k d = Some v ->
  exists x f, dget k d' = Some x /\ read_failure x = Some f.
Proof.
  intros Hn Hp Ho Hk. pose proof (norm_obj_get k _ _ Hn) as Hg. rewrite Hk in Hg.
  destruct Hg as (y & Hy & Hg). destruct (Hp _ _ Hg) as (x & Hx & Hxy & Hl). exists x.
  destruct o as [[f|s]|]; simpl in Ho; [|destruct (String.eqb s ""); [|discriminate]|];
    out_simpl; simpl in Hy; out_simpl.
  - apply norm_str_inv in Hxy as ->. by eexists.
  - apply like_none_inv in Hl as ->. by eexists.
  - apply like_none_inv in Hl as ->. by eexists.
Qed.

(** The identity of a checkpoint is read back exactly. *)
Definition identity_dict (i : ExecutionIdentity) : dict := [
  ("execution_id", VStr (uuid_str (execution_id i))); ("tenant_id", VStr (tenant_id i));
  ("workflow_id", opt_str (workflow_id i)); ("workflow_version", opt_str (workflow_version i))].

Lemma norm_opt_str o : json_norm (opt_str o) = Ret (opt_str o).
Proof. by destruct o. Qed.

Lemma norm_opt_str_inv x o : json_norm x = Ret (opt_str o) -> x = opt_str o.
Proof.
  destruct o as [s|]; [apply norm_str_inv|]. intros H.
  destruct x as [| | | | |l|l|d|]; try (simpl in H; by out_simpl).
  - rewrite json_norm_list in H. by destruct (norm_seq l).
  - rewrite json_norm_tuple in H. by destruct (norm_seq l).
  - rewrite json_norm_dict in H. by destruct (norm_obj d).
Qed.

Lemma prints_identity d nd d' i fresh :
  norm_obj d = Ret nd -> prints_as nd d' -> uuid_ok (execution_id i) ->
  dget "identity" d = Some (VDict (identity_dict i)) -> restore_identity d' fresh = Some i.
Proof.
  intros Hn Hp Hu Hk. pose proof (norm_obj_get "identity" _ _ Hn) as Hg. rewrite Hk in Hg.
  destruct Hg as (y & Hy & Hg). destruct (Hp _ _ Hg) as (x & Hx & Hxy & _).
  assert (norm_obj (identity_dict i) = Ret (identity_dict i)) as Hid.
  { unfold identity_dict. cbn [norm_obj]. rewrite !norm_opt_str. done. }
  rewrite json_norm_dict, Hid in Hy. cbn [out_bind] in Hy. out_simpl.
  change (json_norm x = Ret (VDict (sort_keys (identity_dict i)))) in Hxy.
  apply norm_dict_inv in Hxy as (ip & -> & Hip).
  2: { unfold dict_ok, dkeys, identity_dict. cbn [map fst]. apply (bool_decide_unpack _). by vm_compute. }
  pose proof (Hip "execution_id") as H1. pose proof (Hip "tenant_id") as H2.
  pose proof (Hip "workflow_id") as H3. pose proof (Hip "workflow_version") as H4. clear Hip.
  cbn in H1, H2, H3, H4.
  destruct H1 as (x1 & E1 & N1), H2 as (x2 & E2 & N2), H3 as (x3 & E3 & N3), H4 as (x4 & E4 & N4).
  apply norm_str_inv in N1, N2. apply norm_opt_str_inv in N3, N4. subst.
  unfold restore_identity. rewrite Hx. unfold dget_or. rewrite E1, E2, E3, E4.
  cbn -[uuid_parse uuid_str]. rewrite uuid_parse_str by done. destruct i as [? ? [?|] [?|]]; done.
Qed.

(** A context is restored, up to the order of keys, from any value that prints
    as its checkpoint. *)
Lemma from_dict_like (c : ExecutionContext) (d nd d' : dict) (e : Env) :
  to_dict c = Ret d -> norm_obj d = Ret nd -> uuid_ok (execution_id (identity c)) ->
  prints_as nd d' ->
  exists c2 d2, fst (from_dict d' e) = Some c2 /\
    to_dict (with_last_failure (last_failure c) c2) = Ret d2 /\ norm_obj d2 = Ret nd /\
    identity c2 = identity c.
Proof.
  intros Hd Hn Hu Hp. unfold to_dict in Hd.
  destruct (last_failure_value (last_failure c)) as [lf|] eqn:Elf; simpl in Hd; [|discriminate].
  injection Hd as Hd.
  assert (forall A (read : pyval -> option A) print k a, reads_back read print ->
    dget k d = Some (print a) -> exists x a', dget k d' = Some x /\ read x = Some a' /\
      json_norm (print a') = json_norm (print a)) as F
    by (intros A read print k a Hr; by apply prints_field with (nd := nd)).
  assert (forall k s, dget k d = Some (VStr s) -> dget k d' = Some (VStr s)) as FS
    by (intros k s; by apply prints_str with (nd := nd)).
  destruct (F _ _ _ "constraints" (constraints c) reads_dict) as (x0 & a0 & G0 & R0 & N0); [by rewrite <- Hd|].
  destruct (F _ _ _ "metadata" (metadata c) reads_dict) as (x1 & a1 & G1 & R1 & N1); [by rewrite <- Hd|].
  destruct (F _ _ _ "intent" (intent c) reads_opt_dict) as (x2 & a2 & G2 & R2 & N2); [by rewrite <- Hd|].
  destruct (F _ _ _ "plan" (plan c) reads_opt_dict) as (x3 & a3 & G3 & R3 & N3); [by rewrite <- Hd|].
  destruct (F _ _ _ "current_node" (current_node c) reads_opt_str) as (x4 & a4 & G4 & R4 & N4); [by rewrite <- Hd|].
  destruct (F _ _ _ "working_memory" (working_memory c) reads_dict) as (x5 & a5 & G5 & R5 & N5); [by rewrite <- Hd|].
  destruct (F _ _ _ "retrieved_context" (retrieved_context c) reads_dict_list) as (x6 & a6 & G6 & R6 & N6); [by rewrite <- Hd|].
  destruct (F _ _ _ "artifacts" (artifacts c) reads_dict_list) as (x7 & a7 & G7 & R7 & N7); [by rewrite <- Hd|].
  destruct (F _ _ _ "approvals" (approvals c) reads_dict_list) as (x8 & a8 & G8 & R8 & N8); [by rewrite <- Hd|].
  destruct (F _ _ _ "escalations" (escalations c) reads_dict_list) as (x9 & a9 & G9 & R9 & N9); [by rewrite <- Hd|].
  destruct (F _ _ _ "observations" (observations c) reads_dict_list) as (x10 & a10 & G10 & R10 & N10); [by rewrite <- Hd|].
  destruct (F _ _ _ "validation_results" (validation_results c) reads_dict_list) as (x11 & a11 & G11 & R11 & N11); [by rewrite <- Hd|].
  destruct (F _ _ _ "retry_count" (retry_count c) reads_int) as (x12 & a12 & G12 & R12 & N12); [by rewrite <- Hd|].
  destruct (F _ _ _ "recovery_attempts" (recovery_attempts c) reads_int) as (x13 & a13 & G13 & R13 & N13); [by rewrite <- Hd|].
  destruct (F _ _ _ "error" (error c) reads_opt_dict) as (x14 & a14 & G14 & R14 & N14); [by rewrite <- Hd|].
  destruct (F _ _ _ "created_at" (created_at c) reads_time) as (x15 & a15 & G15 & R15 & N15); [by rewrite <- Hd|].
  destruct (F _ _ _ "updated_at" (updated_at c) reads_time) as (x16 & a16 & G16 & R16 & N16); [by rewrite <- Hd|].
  destruct (prints_failure d nd d' "last_failure" _ _ Hn Hp Elf) as (xf & af & Gf & Rf); [by rewrite <- Hd|].
  pose proof (FS "status" (enum_value (status c))) as Gs. pose proof (FS "risk_level" (enum_value (risk_level c))) as Gr.
  pose proof (FS "objective" (objective c)) as Go. rewrite <- Hd in Gs, Gr, Go.
  specialize (Gs eq_refl). specialize (Gr eq_refl). specialize (Go eq_refl).
  unfold from_dict. cbn [uuid4 utc_now fst].
  rewrite (prints_identity d nd d' (identity c) _ Hn Hp Hu) by (by rewrite <- Hd).
  unfold dget_or at 1. rewrite Go. cbn [mbind option_bind py_str default from_option id].
  cbv [id]. cbn [mbind option_bind py_str].
  repeat first [ erewrite set_field_hit; [| eassumption | eassumption]
               | erewrite set_enum_hit by eassumption ].
  eexists _, _. split; [reflexivity|]. unfold to_dict. cbn. rewrite Elf. cbn. split; [reflexivity|].
  split; [|done]. rewrite <- Hn, <- Hd. apply norm_obj_same.
  repeat (constructor; [split; [done | first [done | assumption]]|]). constructor.
Qed.

Lemma to_dict_ok c d : to_dict c = Ret d -> dict_ok d.
Proof.
  unfold to_dict. destruct (last_failure_value _); simpl; [|discriminate]. intros [= <-].
  unfold dict_ok, dkeys. cbn [map fst]. apply (bool_decide_unpack _). by vm_compute.
Qed.

(** What the column gives back for the text of a plain checkpoint. *)
Lemma decoded_prints d t u :
  dict_ok d -> json_plain (VDict d) = true -> dumps (VDict d) = Ret t -> jsonb_in t = Ret u ->
  exists nd d', norm_obj d = Ret nd /\ jsonb_out u = VDict d' /\ prints_as nd d' /\
    dumps (jsonb_out u) = Ret t.
Proof.
  intros Hok Hp Ht Hu. destruct (jsonb_plain _ _ Hp Ht) as (u' & Hu' & Hout).
  rewrite Hu in Hu'. injection Hu' as <-. pose proof (jsonb_like _ _ _ Ht Hu) as Hl.
  unfold dumps in Ht. rewrite json_norm_dict in Ht.
  destruct (norm_obj d) as [nd|] eqn:En; cbn [out_bind] in Ht; [|discriminate]. injection Ht as <-.
  apply like_dict_inv in Hl as (d' & Hd' & Hl & _). exists nd, d'. split; [done|]. split; [done|].
  split; [|done]. assert (dict_ok nd) as Hnd.
  { unfold dict_ok in *. by rewrite (norm_obj_keys _ _ En). }
  rewrite Hd' in Hout. unfold dumps in Hout.
  destruct (json_norm (VDict d')) as [w|] eqn:Ew; cbn [out_bind] in Hout; [|discriminate].
  injection Hout as ->. apply norm_dict_inv in Ew as (? & [= <-] & Hk); [|done].
  intros k y Hy. specialize (Hk k). rewrite Hy in Hk. destruct Hk as (x & Hx & Hxy).
  rewrite <- (dget_sort_keys k nd) in Hy by done. destruct (Hl _ _ Hy) as (x' & Hx' & Hlx).
  rewrite Hx in Hx'. injection Hx' as <-. by exists x.
Qed.

(** The same checkpoint up to the order of keys and the type of a recorded
    failure. *)
Definition same_text (c c2 : ExecutionContext) : Prop :=
  identity c2 = identity c /\ exists d d2, to_dict c = Ret d /\
    to_dict (with_last_failure (last_failure c) c2) = Ret d2 /\
    dumps (VDict d2) = dumps (VDict d).

Definition plain_context (c : ExecutionContext) : Prop :=
  forall d, to_dict c = Ret d -> json_plain (VDict d) = true.

(** A stored plain checkpoint passes the integrity check and reads back. *)
Lemma stored_reads c d t u e :
  to_dict c = Ret d -> plain_context c -> uuid_ok (execution_id (identity c)) ->
  dumps (VDict d) = Ret t -> jsonb_in t = Ret u ->
  intact u (sha256 t) = Ret true /\
  exists c2, fst (context_of_value (jsonb_out u) e) = Ret c2 /\ same_text c c2.
Proof.
  intros Hd Hp Hid Ht Hu.
  destruct (decoded_prints d t u (to_dict_ok _ _ Hd) (Hp _ Hd) Ht Hu) as (nd & d' & Hn & Hout & Hpr & Hdump).
  split; [unfold intact; rewrite Hdump; cbn [out_bind]; by rewrite String.eqb_refl|].
  destruct (from_dict_like c d nd d' e Hd Hn Hid Hpr) as (c2 & d2 & Hf & Hd2 & Hn2 & Hi).
  exists c2. split.
  - rewrite Hout. unfold context_of_value. destruct (from_dict d' e) as [o e']. simpl in Hf. by subst.
  - split; [done|]. exists d, d2. split; [done|]. split; [done|].
    unfold dumps. by rewrite !json_norm_dict, Hn, Hn2.
Qed.
End roundtrip.

Section statements.
Context {IF : IsoFormat} {SH : Sha256} {JB : Jsonb} {DU : DigestUuid}.

(** ** The statements *)

Lemma state_payload_inv c p :
  state_payload c = Ret p -> exists d t, to_dict c = Ret d /\ dumps (VDict d) = Ret t /\ p = (t, sha256 t).
Proof.
  unfold state_payload. destruct (to_dict c) as [d|]; simpl; [|discriminate].
  destruct (dumps _) as [t|] eqn:E; simpl; [|discriminate]. intros [= <-]. by exists d, t.
Qed.

(** The row [save] leaves for a context. *)
Definition checkpoint_of (c : ExecutionContext) (u : json_text) (h : string) (r : pg_checkpoint) : Prop :=
  pc_tenant_id r = tenant_id (identity c) /\ pc_status r = enum_value (status c) /\
  pc_state r = u /\ pc_state_hash r = h /\ pc_updated_at r = updated_at c.

Lemma upsert_inv c p db db' :
  upsert_checkpoint c p db = Ret db' ->
  exists u r, jsonb_in (fst p) = Ret u /\ checkpoint_of c u (snd p) r /\
    db' = with_checkpoints (<[execution_id (identity c) := r]> (db_checkpoints db)) db.
Proof.
  unfold upsert_checkpoint. destruct (jsonb_in _) as [u|]; simpl; [|discriminate]. intros [= <-].
  eexists u, _. split; [done|]. split; [|reflexivity]. by split_and!.
Qed.

Definition snapshot_of (c : ExecutionContext) (id : uuid) (step : Z) (u : json_text) (h : string) :
    pg_snapshot :=
  mkPgSnapshot id (execution_id (identity c)) (tenant_id (identity c)) (workflow_id (identity c))
    (workflow_version (identity c)) step (enum_value (status c)) 1 u h (updated_at c).

Lemma insert_snapshot_inv c id step p db db' :
  insert_snapshot c id step p db = Ret db' ->
  exists u, jsonb_in (fst p) = Ret u /\
    ((id ∈ (ps_checkpoint_id <$> db_history db) /\ db' = db) \/
     ((id ∉ (ps_checkpoint_id <$> db_history db)) /\
      db' = with_history (db_history db ++ [snapshot_of c id step u (snd p)]) db)).
Proof.
  unfold insert_snapshot. destruct (int4 step) as [z|] eqn:E; simpl; [|discriminate].
  assert (z = step) as -> by (unfold int4 in E; destruct (_ && _)%Z; [by injection E | discriminate]).
  destruct (jsonb_in _) as [u|]; simpl; [|discriminate]. exists u. split; [done|].
  destruct (existsb _ _) eqn:Ex; injection H as <-; [left | right].
  - split; [|done]. apply existsb_exists in Ex as (r & Hr & <-%N.eqb_eq).
    apply list_elem_of_fmap_2. by apply list_elem_of_In.
  - split; [|done]. intros (r & -> & Hr)%list_elem_of_fmap.
    assert (existsb (fun r' => (ps_checkpoint_id r' =? ps_checkpoint_id r)%N) (db_history db) = true)
      as E2; [|by rewrite E2 in Ex].
    apply existsb_exists. exists r. split; [by apply list_elem_of_In | apply N.eqb_refl].
Qed.

(** What [_save_with_history] wrote when it returned. *)
Lemma save_with_history_inv c id e db db' c' e' :
  save_with_history c id e db = (Ret db', c', e') ->
  same_but_time c c' /\ identity c' = identity c /\
  exists d t u r id' step, to_dict c' = Ret d /\ dumps (VDict d) = Ret t /\ jsonb_in t = Ret u /\
    checkpoint_of c' u (sha256 t) r /\ (id <> 0%N -> id' = id) /\ step_index c' = Ret step /\
    db_checkpoints db' = <[execution_id (identity c) := r]> (db_checkpoints db) /\
    ((id' ∈ (ps_checkpoint_id <$> db_history db) /\ db_history db' = db_history db) \/
     ((id' ∉ (ps_checkpoint_id <$> db_history db)) /\
      db_history db' = db_history db ++ [snapshot_of c' id' step u (sha256 t)])) /\
    db_outbox db' = db_outbox db /\ db_results db' = db_results db /\ db_leases db' = db_leases db.
Proof.
  unfold save_with_history. cbn [utc_now]. intros H. injection H as H <- _.
  set (c' := touch _ c) in *. split; [by destruct c|]. split; [done|].
  destruct (state_payload c') as [p|] eqn:Ep; simpl in H; [|discriminate].
  apply state_payload_inv in Ep as (d & t & Hd & Ht & ->).
  destruct (step_index c') as [step|] eqn:Es; simpl in H; [|discriminate].
  set (id' := if (id =? 0)%N then _ else id) in H.
  destruct (upsert_checkpoint c' _ db) as [db1|] eqn:E1; simpl in H; [|discriminate].
  apply upsert_inv in E1 as (u & r & Hu & Hr & ->).
  apply insert_snapshot_inv in H as (u' & Hu' & H). simpl in *. rewrite Hu in Hu'. injection Hu' as <-.
  exists d, t, u, r, id', step. split; [done|]. split; [done|]. split; [done|]. split; [done|].
  split; [intros Hid; apply N.eqb_neq in Hid; unfold id'; by rewrite Hid|].
  split; [done|]. split_and!.
  - by destruct H as [[_ ->]|[_ ->]].
  - by destruct H as [[? ->]|[? ->]]; [left | right].
  - by destruct H as [[_ ->]|[_ ->]].
  - by destruct H as [[_ ->]|[_ ->]].
  - by destruct H as [[_ ->]|[_ ->]].
Qed.

(** ** The fenced store *)

(** A fenced call that returns either had nothing to do or found the lease
    current; it never touches the history or the leases. *)
Lemma fenced_result_inv l now call db db' :
  fenced_result l now call db = Ret db' ->
  (db' = db \/ is_current now l (db_leases db) = true) /\
  db_history db' = db_history db /\ db_leases db' = db_leases db.
Proof.
  assert (forall A (k : unit -> outcome A) a,
    (x <-? assert_current now l (db_leases db) ;; k x) = Ret a ->
    is_current now l (db_leases db) = true /\ k tt = Ret a) as Hg.
  { intros A k a. unfold assert_current. by destruct (is_current now l (db_leases db)). }
  destruct call as [c e|k eid tenant r|c cmd e|cmd r|eid]; simpl.
  - unfold fenced_save. cbn [utc_now fst]. destruct (state_payload _); simpl; [|done].
    intros [Hc H]%Hg. apply upsert_inv in H as (? & ? & _ & _ & ->). auto.
  - unfold fenced_put_idempotency. destruct (cacheable r); [|intros [= <-]; auto].
    intros [Hc H]%Hg. unfold insert_result in H.
    destruct (dumps _); simpl in H; [|done]. destruct (jsonb_in _); simpl in H; [|done].
    injection H as <-. destruct (_ !! k); auto.
  - unfold fenced_commit. cbn [utc_now fst]. destruct (state_payload _); simpl; [|done].
    intros [Hc H]%Hg. destruct (upsert_checkpoint _ _ _) eqn:E; simpl in H; [|done].
    destruct (outbox_insert _ _ _); simpl in H; [|done]. injection H as <-.
    apply upsert_inv in E as (? & ? & _ & _ & ->). auto.
  - unfold fenced_complete. intros [Hc H]%Hg.
    destruct (dumps _); simpl in H; [|done]. destruct (jsonb_in _); simpl in H; [|done].
    destruct (_ =? 1)%nat; [|done]. injection H as <-. auto.
  - unfold fenced_delete. intros [Hc H]%Hg. injection H as <-. auto.
Qed.

(** ** Recovery from the history *)

Lemma snapshot_before_total a b : snapshot_before a b = true \/ snapshot_before b a = true.
Proof.
  unfold snapshot_before. rewrite !orb_true_iff, !andb_true_iff, !Z.ltb_lt, !Z.eqb_eq, !Z.leb_le. lia.
Qed.

Lemma snapshot_before_trans a b c :
  snapshot_before a b = true -> snapshot_before b c = true -> snapshot_before a c = true.
Proof.
  unfold snapshot_before. rewrite !orb_true_iff, !andb_true_iff, !Z.ltb_lt, !Z.eqb_eq, !Z.leb_le. lia.
Qed.

(** Corrupted rows in front are skipped. *)
Lemma first_valid_skip l1 l2 e :
  (forall r, r ∈ l1 -> intact (ps_state r) (ps_state_hash r) = Ret false) ->
  first_valid (l1 ++ l2) e = first_valid l2 e.
Proof.
  induction l1 as [|r l1 IH]; intros H; [done|]. simpl. rewrite H by by left.
  apply IH. intros r' Hr'. apply H. by right.
Qed.
End statements.
