(* ===== verification/PostgresTheorems.v ===== *)
(** * Theorems on durable execution in PostgreSQL

    Checkpoints come back, recovery finds the newest intact snapshot, a
    checkpoint and its side effect are stored together, and the fenced store
    lets only the current worker write but keeps no history. *)

From stdpp Require Import base gmap strings list.
From Stdlib Require Import ZArith Lia.
From S2P Require Import Prelude Uuid Json Types State Stores Jsonb Fencing Outbox OutboxFacts.
From S2P Require Import PostgresExecution PostgresFacts Samples.
Local Open Scope py_scope.

Section theorems.
Context {IF : IsoFormat} {SH : Sha256} {JB : Jsonb} {JL : JsonbLaws} {DU : DigestUuid}.

(** A checkpoint saved in PostgreSQL passes the integrity check of [load] and
    comes back as the same checkpoint, up to the order of keys and the type of a
    recorded failure, when its values are plain: no floats, no NUL characters. *)
Theorem pg_checkpoint_roundtrip (scope : option string) (c c' : ExecutionContext) (e e' e2 : Env)
    (db db' : pg_db) :
  pg_save scope c e db = (Ret db', c', e') -> plain_context c' ->
  uuid_ok (execution_id (identity c)) ->
  exists c2, fst (pg_load (execution_id (identity c)) e2 db') = Ret c2 /\ same_text c' c2.
Proof.
  intros H Hp Hu. unfold pg_save in H. destruct (assert_context _ _); [|done].
  apply save_with_history_inv in H as (_ & Hid & d & t & u & r & id & step & Hd & Ht & Hin & Hr & _ & _
    & Hdb & _). destruct Hr as (_ & _ & Hs & Hh & _).
  rewrite <- Hid in Hu. destruct (stored_reads c' d t u e2 Hd Hp Hu Ht Hin) as (Hi & c2 & Hc & Hsame).
  exists c2. split; [|done]. unfold pg_load. rewrite Hdb, lookup_insert_eq, Hs, Hh, Hi. exact Hc.
Qed.

(** C13. Recovery returns the newest intact snapshot.  After a [save_checkpoint]
    that drew a new, non-zero checkpoint id for an execution with a well-formed
    identifier, [fetch_last_valid_checkpoint] returns the saved context, provided
    that no stored snapshot of the execution ordered before it, that is with the
    same step or a later one, is intact.  The context must survive JSONB: plain
    text and no floating-point numbers, whose notation PostgreSQL may change, so
    that a snapshot that holds one can look corrupt. *)
Theorem pg_recovers_newest_intact (id : uuid) (c c' : ExecutionContext) (e e' e2 : Env)
    (db db' : pg_db) :
  pg_save_checkpoint id c e db = (Ret db', c', e') -> id <> 0%N -> plain_context c' ->
  uuid_ok (execution_id (identity c)) -> id ∉ (ps_checkpoint_id <$> db_history db) ->
  (forall r step, r ∈ db_history db -> ps_execution_id r = execution_id (identity c) ->
     step_index c' = Ret step -> (step <= ps_step_index r)%Z ->
     intact (ps_state r) (ps_state_hash r) = Ret false) ->
  exists c2, fst (fetch_last_valid_checkpoint (execution_id (identity c)) (tenant_id (identity c)) e2 db')
      = Ret (Some c2) /\ same_text c' c2.
Proof.
  intros H Hid0 Hp Hu Hnew Hbad.
  apply save_with_history_inv in H as (_ & Hid & d & t & u & r & id' & step & Hd & Ht & Hin & _ & Hid'
    & Hstep & _ & Hh & _). specialize (Hid' Hid0) as ->.
  destruct Hh as [[Hin' _]|[_ Hh]]; [done|].
  rewrite <- Hid in Hu. destruct (stored_reads c' d t u e2 Hd Hp Hu Ht Hin) as (Hi & c2 & Hc & Hsame).
  exists c2. split; [|done]. unfold fetch_last_valid_checkpoint, snapshots.
  set (mine := fun r => _ && _). set (new := snapshot_of c' id step u (sha256 t)) in *.
  pose proof (order_by_perm snapshot_before (List.filter mine (db_history db'))) as Hperm.
  assert (new ∈ order_by snapshot_before (List.filter mine (db_history db'))) as Hn.
  { rewrite Hperm. apply elem_of_bfilter. split; [rewrite Hh; apply elem_of_app; right; by left|].
    unfold mine, new, snapshot_of. simpl. by rewrite Hid, String.eqb_refl, N.eqb_refl. }
  apply list_elem_of_split in Hn as (l1 & l2 & E).
  pose proof (order_by_ordered _ snapshot_before_total snapshot_before_trans
    (List.filter mine (db_history db'))) as Hord.
  rewrite E in Hord, Hperm |- *. rewrite first_valid_skip.
  - cbn [first_valid]. unfold new, snapshot_of at 1 2 3. cbn [ps_state ps_state_hash]. rewrite Hi.
    destruct (context_of_value _ _) as [o e3] eqn:Ec. simpl in Hc. by subst.
  - intros x Hx. pose proof (ordered_before _ _ _ _ Hord x Hx) as Hbefore.
    rewrite Hh, List.filter_app in Hperm. cbn [List.filter] in Hperm.
    assert (mine new = true) as Hm
      by (unfold mine, new, snapshot_of; simpl; by rewrite Hid, String.eqb_refl, N.eqb_refl).
    rewrite Hm in Hperm. rewrite <- Permutation_middle, <- Permutation_cons_append in Hperm.
    apply Permutation_cons_inv in Hperm.
    assert (x ∈ List.filter mine (db_history db)) as [Hxh Hxm]%elem_of_bfilter
      by (rewrite <- Hperm; apply elem_of_app; by left).
    unfold mine in Hxm. apply andb_true_iff in Hxm as [_ Hxe%N.eqb_eq].
    apply (Hbad x step); [done | done | done|].
    unfold snapshot_before in Hbefore. rewrite orb_true_iff, andb_true_iff, Z.ltb_lt, Z.eqb_eq in Hbefore.
    simpl in Hbefore. lia.
Qed.

(** State and intent are stored together: when
    [commit_checkpoint_and_side_effect] returns, the context's checkpoint is
    stored and the invocation is in the outbox, as a pending row for this
    command if it was new; the outbox stays well-formed and nothing else
    changes. *)
Theorem pg_commit_stores_both (scope : option string) (now : datetime) (c c' : ExecutionContext)
    (cmd : SideEffectCommand) (e e' : Env) (db db' : pg_db) :
  commit_checkpoint_and_side_effect scope now c cmd e db = (Ret db', c', e') ->
  outbox_ok (db_outbox db) ->
  same_but_time c c' /\
  (exists d t u r, to_dict c' = Ret d /\ dumps (VDict d) = Ret t /\ jsonb_in t = Ret u /\
     checkpoint_of c' u (sha256 t) r /\
     db_checkpoints db' = <[execution_id (identity c) := r]> (db_checkpoints db)) /\
  outbox_ok (db_outbox db') /\ sc_invocation_id cmd ∈ (ob_invocation_id <$> db_outbox db') /\
  (sc_invocation_id cmd ∉ (ob_invocation_id <$> db_outbox db) ->
   exists r, db_outbox db' = db_outbox db ++ [r] /\ ob_effect_id r = sc_effect_id cmd /\
     ob_status r = OB_PENDING) /\
  db_history db' = db_history db /\ db_results db' = db_results db /\ db_leases db' = db_leases db.
Proof.
  unfold commit_checkpoint_and_side_effect. destruct (out_bind _ _); [|done]. cbn [utc_now].
  intros H Hok. injection H as H <- _. set (c' := touch _ c) in *. split; [done|].
  destruct (state_payload c') as [p|] eqn:Ep; simpl in H; [|discriminate].
  apply state_payload_inv in Ep as (d & t & Hd & Ht & ->).
  destruct (upsert_checkpoint c' _ db) as [db1|] eqn:E1; simpl in H; [|discriminate].
  apply upsert_inv in E1 as (u & r & Hu & Hr & ->). simpl in H.
  destruct (outbox_insert now cmd (db_outbox db)) as [o|] eqn:Eo; simpl in H; [|discriminate].
  injection H as <-. split; [by exists d, t, u, r|].
  pose proof (outbox_insert_ok _ _ _ _ Eo Hok) as [Hok' _]. split; [done|]. simpl.
  apply outbox_insert_inv in Eo as [[-> Hin]|(t' & u' & _ & _ & _ & _ & _ & ->)].
  - split_and!; try done.
  - split_and!; try done.
    + rewrite fmap_app. apply elem_of_app. right. by left.
    + intros _. by eexists.
Qed.

(** Only the current worker writes through the fenced store: a call that
    changes any table, save, result, commit, completion or deletion, found the
    lease of the caller current in the same transaction; with a superseded or
    expired lease the tables stay as they were. *)
Theorem fenced_store_guards_writes (l : WorkerLease) (now : datetime) (call : fenced_call)
    (db : pg_db) :
  perform_fenced l now call db = db \/
  (is_current now l (db_leases db) = true /\
   fenced_result l now call db = Ret (perform_fenced l now call db) /\
   db_leases (perform_fenced l now call db) = db_leases db).
Proof.
  unfold perform_fenced. destruct (fenced_result l now call db) as [db'|x] eqn:E; [|by left].
  apply fenced_result_inv in E as ([->|Hc] & _ & Hl); [by left | by right].
Qed.

(** The fenced store keeps no history: where the plain store saves a context
    and adds a snapshot, the fenced store under a current lease writes the same
    checkpoint and no snapshot, so [fetch_last_valid_checkpoint] still returns
    what it returned before the save. *)
Theorem fenced_save_skips_history (scope : option string) (l : WorkerLease) (now : datetime)
    (c c' : ExecutionContext) (e e' : Env) (db db' : pg_db) :
  pg_save scope c e db = (Ret db', c', e') -> is_current now l (db_leases db) = true ->
  fenced_save l now c e db = (Ret (with_history (db_history db) db'), c', e') /\
  forall eid tenant e2, fetch_last_valid_checkpoint eid tenant e2 (with_history (db_history db) db')
    = fetch_last_valid_checkpoint eid tenant e2 db.
Proof.
  intros H Hc. split; [|done]. unfold pg_save in H. destruct (assert_context _ _); [|done].
  unfold save_with_history, fenced_save in *. cbn [utc_now] in *.
  set (c1 := touch _ c) in *. injection H as H <- <-.
  destruct (state_payload c1) as [p|]; cbn [out_bind] in *; [|done].
  destruct (step_index c1) as [step|]; cbn [out_bind] in H; [|done].
  destruct (upsert_checkpoint c1 p db) as [db1|] eqn:E1; cbn [out_bind] in H; [|done].
  unfold assert_current. rewrite Hc. cbn [out_bind].
  apply upsert_inv in E1 as (u & r & _ & _ & ->).
  apply insert_snapshot_inv in H as (u' & _ & [[_ ->]|[_ ->]]); [|done].
  by destruct db.
Qed.
End theorems.

(** ** Witnesses *)

#[local] Existing Instance text_jsonb.
#[local] Existing Instance text_jsonb_laws.
#[local] Instance sample_digest : DigestUuid := fun _ => 9%N.

(** A context of the tenant with the UUID 5. *)
Definition tenant_context : ExecutionContext :=
  new_context (mkIdentity 7%N (uuid_str 5%N) None None) "objective" 0%Z 0%Z.

Definition empty_db : pg_db := mkDb ∅ [] ∅ [] ∅.
Definition leased_db : pg_db := mkDb ∅ [] ∅ [] {[7%N := mkLeaseRow "w" 1 1000%Z]}.
Definition sample_lease : WorkerLease := mkLease 7%N "w" 1 1000%Z.

Definition saved_db : pg_db :=
  match fst (fst (pg_save None tenant_context sample_env empty_db)) with Ret db => db | Raise _ => empty_db end.

Lemma plain_by_compute (c : ExecutionContext) (d : dict) :
  to_dict c = Ret d -> json_plain (VDict d) = true -> plain_context c.
Proof. intros H Hp d' Hd'. rewrite H in Hd'. by injection Hd' as <-. Qed.

(** The context as [save] touched it. *)
Definition saved_context : ExecutionContext := touch 0%Z tenant_context.

Lemma saved_context_plain : plain_context saved_context.
Proof. eapply plain_by_compute; vm_compute; reflexivity. Qed.

Definition later_env : Env := snd (utc_now sample_env).

Lemma pg_checkpoint_roundtrip_witness :
  exists c2, fst (pg_load 7%N sample_env saved_db) = Ret c2 /\ same_text saved_context c2.
Proof.
  apply (pg_checkpoint_roundtrip None tenant_context saved_context sample_env later_env sample_env
    empty_db saved_db).
  - vm_compute. reflexivity.
  - exact saved_context_plain.
  - vm_compute. reflexivity.
Defined.

(** A history whose newest snapshot, of step 4, has been corrupted. *)
Definition corrupted_snapshot : pg_snapshot :=
  mkPgSnapshot 3%N 7%N (uuid_str 5%N) None None 4 "planned" 1 (JsonText VNone) "damaged" 0%Z.
Definition corrupted_db : pg_db := mkDb ∅ [corrupted_snapshot] ∅ [] ∅.

Definition corrupted_saved : pg_db :=
  match fst (fst (pg_save_checkpoint 8%N tenant_context sample_env corrupted_db)) with
  | Ret db => db
  | Raise _ => empty_db
  end.

Lemma pg_recovers_newest_intact_witness :
  exists c2, fst (fetch_last_valid_checkpoint 7%N (uuid_str 5%N) sample_env corrupted_saved) = Ret (Some c2) /\
    same_text saved_context c2.
Proof.
  apply (pg_recovers_newest_intact 8%N tenant_context saved_context sample_env later_env sample_env
    corrupted_db corrupted_saved).
  - vm_compute. reflexivity.
  - done.
  - exact saved_context_plain.
  - vm_compute. reflexivity.
  - apply (bool_decide_unpack _). vm_compute. reflexivity.
  - intros r step ->%list_elem_of_singleton _ _ _. vm_compute. reflexivity.
Defined.

Definition mail_command : SideEffectCommand :=
  mkCommand "a" (uuid_str 5%N) 7%N "inv-a" "mail" "key-a" [].

Definition committed_db : pg_db :=
  match fst (fst (commit_checkpoint_and_side_effect None 0%Z tenant_context mail_command sample_env empty_db)) with
  | Ret db => db
  | Raise _ => empty_db
  end.

Lemma pg_commit_stores_both_witness :
  length (db_outbox committed_db) = 1%nat /\ "inv-a" ∈ (ob_invocation_id <$> db_outbox committed_db).
Proof.
  split; [vm_compute; reflexivity|].
  refine (proj1 (proj2 (proj2 (proj2 (pg_commit_stores_both None 0%Z tenant_context saved_context
    mail_command sample_env later_env empty_db committed_db _ _))))).
  - vm_compute. reflexivity.
  - unfold outbox_ok. split_and!; constructor.
Defined.

Definition history_db : pg_db :=
  match fst (fst (pg_save None tenant_context sample_env leased_db)) with
  | Ret db => db
  | Raise _ => empty_db
  end.

Lemma fenced_save_skips_history_witness :
  length (db_history history_db) = 1%nat /\
  fenced_save sample_lease 5%Z tenant_context sample_env leased_db =
    (Ret (with_history [] history_db), saved_context, later_env).
Proof.
  split; [vm_compute; reflexivity|].
  refine (proj1 (fenced_save_skips_history None sample_lease 5%Z tenant_context saved_context
    sample_env later_env leased_db history_db _ _)).
  - vm_compute. reflexivity.
  - vm_compute. reflexivity.
Defined.
