(* ===== verification/Automation.v ===== *)
(** * Autonomous operations: [ois/autonomy]

    Events, workflows and triggers ([events.py], [workflows.py]), the automation
    policy ([policy.py]), human approvals ([approvals.py]), failure recovery
    ([recovery.py]), the bounded loop ([loops.py]) and the application that joins
    them ([operations.py]), with the SQLite event outbox of
    [infrastructure/source_gateway/outbox.py].

    The action of a workflow is an arbitrary function of the event on a world
    [W]; it cannot reach the application object.  Timestamps count
    microseconds. *)

From stdpp Require Import base gmap strings list.
From Stdlib Require Import ZArith Lia.
From S2P Require Import Prelude Uuid Json Types Policy.
Local Open Scope py_scope.

(** ** Events *)

(** [source_id] holds what the payload has under that key, so it is any value. *)
Record EventEnvelope := mkEnvelope {
  ee_event_id : string;
  ee_tenant_id : string;
  ee_workspace_id : string;
  ee_event_type : string;
  ee_aggregate_id : string;
  ee_payload : dict;
  ee_created_at : datetime;
  ee_source_id : pyval;
  ee_correlation_id : option string }.

Record OutboxEvent := mkOutboxEvent {
  oe_event_id : string;
  oe_tenant_id : string;
  oe_workspace_id : string;
  oe_event_type : string;
  oe_aggregate_id : string;
  oe_payload : dict;
  oe_created_at : datetime }.

(** [EventEnvelope.from_outbox]; the default of [getattr] is always evaluated. *)
Definition from_outbox (event : OutboxEvent) (e : Env) : EventEnvelope * Env :=
  let '(_, e) := utc_now e in
  (mkEnvelope (oe_event_id event) (oe_tenant_id event) (oe_workspace_id event) (oe_event_type event)
     (oe_aggregate_id event) (oe_payload event) (oe_created_at event)
     (dget_or "source_id" VNone (oe_payload event)) None, e).

(** ** Workflows *)

Inductive WorkflowStatus := WF_ENABLED | WF_PAUSED | WF_DISABLED.

#[export] Instance WorkflowStatus_eq_dec : EqDecision WorkflowStatus.
Proof. solve_decision. Defined.

Record WorkflowTrigger := mkTrigger {
  wt_event_type : string;
  wt_source_id : option string;
  wt_conditions : dict }.

Definition trigger_matches (t : WorkflowTrigger) (event : EventEnvelope) : bool :=
  if negb (String.eqb (ee_event_type event) (wt_event_type t)) then false
  else if match wt_source_id t with
          | Some s => negb (py_eq (VStr s) (ee_source_id event))
          | None => false
          end then false
  else forallb (fun kv => py_eq (dget_or (fst kv) VNone (ee_payload event)) (snd kv))
         (wt_conditions t).

(** ** Policy *)

Inductive PolicyOutcome := ALLOW | DENY | APPROVAL_REQUIRED.

#[export] Instance PolicyOutcome_eq_dec : EqDecision PolicyOutcome.
Proof. solve_decision. Defined.

Record PolicyRule := mkRule {
  ru_rule_id : string;
  ru_event_type : option string;
  ru_maximum_risk : RiskLevel;
  ru_allow_side_effects : bool;
  ru_required_tags : list string }.

Record PolicyEvaluation := mkEvaluation {
  pv_outcome : PolicyOutcome;
  pv_rule_id : option string;
  pv_reason : string;
  pv_requires_approval : bool }.

(** [RiskLevel(str(v))] *)
Definition risk_of (v : pyval) : outcome RiskLevel :=
  match py_str v with
  | Some s => match enum_lookup s with
              | Some r => Ret r
              | None => raise ValueError ("'" +:+ s +:+ "' is not a valid RiskLevel")
              end
  | None => raise ValueError "not a valid RiskLevel"
  end.

(** The strings among the tags, when they are a collection. *)
Definition tag_strings (v : pyval) : list string :=
  match v with
  | VList l | VTuple l => omap (fun t => match t with VStr s => Some s | _ => None end) l
  | _ => []
  end.

Definition requires_approval (context : dict) : bool :=
  truthy (dget_or "requires_approval" (VBool false) context).

(** [PolicyRule.evaluate] *)
Definition rule_evaluate (r : PolicyRule) (context : dict) : outcome (bool * string) :=
  if match ru_event_type r with
     | Some t => negb (py_eq (dget_or "event_type" VNone context) (VStr t))
     | None => false
     end then Ret (false, "event type does not match")
  else
    risk <-? risk_of (dget_or "risk_level" (VStr "low") context) ;;
    if (risk_order (ru_maximum_risk r) <? risk_order risk)%Z && negb (requires_approval context) then
      Ret (false, "risk exceeds automation policy")
    else if negb (py_in (dget_or "side_effects" VNone context) [VNone; VStr "none"]) &&
            negb (ru_allow_side_effects r) then
      Ret (false, "side effects are not permitted by automation policy")
    else if negb (forallb (fun t => bool_decide (t ∈ tag_strings (dget_or "tags" (VTuple []) context)))
                    (ru_required_tags r)) then
      Ret (false, "required policy tags are missing")
    else Ret (true, "rule matched").

(** [AutomationPolicy.evaluate]: the first matching rule wins. *)
Fixpoint policy_evaluate (rules : list PolicyRule) (context : dict) : outcome PolicyEvaluation :=
  match rules with
  | [] => Ret (mkEvaluation DENY None "no automation policy rule matched" false)
  | r :: rules =>
      m <-? rule_evaluate r context ;;
      if fst m then
        let required := requires_approval context in
        Ret (mkEvaluation (if required then APPROVAL_REQUIRED else ALLOW) (Some (ru_rule_id r)) (snd m)
               required)
      else policy_evaluate rules context
  end.

(** The context of an event: its payload with the event type. *)
Definition event_context (event : EventEnvelope) : dict :=
  dset "event_type" (VStr (ee_event_type event)) (ee_payload event).

(** ** Recovery *)

Inductive AutonomyAction := AR_RETRY | AR_PAUSE | AR_REPLAN | AR_ESCALATE | AR_STOP.

#[export] Instance AutonomyAction_eq_dec : EqDecision AutonomyAction.
Proof. solve_decision. Defined.

(** [FailureRecovery.decide]: the action; the reason names the failure. *)
Definition recovery_decide (max_retries attempt : Z) (failure : string) (safe_to_retry : bool) :
    outcome (AutonomyAction * string) :=
  if (attempt <? 1)%Z then raise ValueError "attempt must be positive"
  else
    let action :=
      if String.eqb failure "safety" then AR_STOP
      else if String.eqb failure "permission" || String.eqb failure "approval" then AR_ESCALATE
      else if String.eqb failure "plan" then AR_REPLAN
      else if (String.eqb failure "transient" || String.eqb failure "timeout") && safe_to_retry &&
              (attempt <=? max_retries)%Z then AR_RETRY
      else if String.eqb failure "state" then AR_PAUSE
      else AR_ESCALATE in
    Ret (action, "recovery decision for " +:+ failure).

(** ** Approvals *)

Inductive ApprovalDecision := AP_PENDING | AP_APPROVED | AP_REJECTED | AP_EXPIRED.

#[export] Instance ApprovalDecision_eq_dec : EqDecision ApprovalDecision.
Proof. solve_decision. Defined.

Record ApprovalRequest := mkApproval {
  ap_approval_id : string;
  ap_tenant_id : string;
  ap_workspace_id : string;
  ap_workflow_id : string;
  ap_event_id : string;
  ap_reason : string;
  ap_created_at : datetime;
  ap_expires_at : datetime;
  ap_event : option EventEnvelope;
  ap_decision : ApprovalDecision;
  ap_decided_by : option string;
  ap_decided_at : option datetime }.

(** The copies [decide] makes. *)
Definition with_decision (d : ApprovalDecision) (by_ : option string) (at_ : option datetime)
    (a : ApprovalRequest) : ApprovalRequest :=
  mkApproval (ap_approval_id a) (ap_tenant_id a) (ap_workspace_id a) (ap_workflow_id a) (ap_event_id a)
    (ap_reason a) (ap_created_at a) (ap_expires_at a) (ap_event a) d by_ at_.

Abbreviation approvals := (list (string * ApprovalRequest)).

(** [InMemoryApprovalStore.create] *)
Definition approval_create (r : ApprovalRequest) (s : approvals) : outcome approvals :=
  if dmem (ap_approval_id r) s then raise ValueError "approval already exists"
  else Ret (dset (ap_approval_id r) r s).

(** [InMemoryApprovalStore.decide]: an expired request is recorded as such
    before the error. *)
Definition approval_decide (id : string) (d : ApprovalDecision) (actor : string) :
    M (approvals * Env) ApprovalRequest := fun se =>
  let '(s, e) := se in
  match dget id s with
  | None => (raise KeyError "approval not found", (s, e))
  | Some current =>
      if negb (bool_decide (ap_decision current = AP_PENDING)) then
        (raise ValueError "approval is already decided", (s, e))
      else
        let '(now, e) := utc_now e in
        if (ap_expires_at current <=? now)%Z then
          (raise ValueError "approval has expired",
           (dset id (with_decision AP_EXPIRED (ap_decided_by current) (ap_decided_at current) current) s,
            e))
        else
          let '(now, e) := utc_now e in
          let updated := with_decision d (Some actor) (Some now) current in
          (Ret updated, (dset id updated s, e))
  end.

Definition list_pending (tenant workspace : string) (s : approvals) : list ApprovalRequest :=
  List.filter (fun a => String.eqb (ap_tenant_id a) tenant && String.eqb (ap_workspace_id a) workspace &&
                        bool_decide (ap_decision a = AP_PENDING)) (dvalues s).

(** [ApprovalGate.request] *)
Definition gate_request (ttl_seconds : Z) (tenant workspace workflow event_id : string)
    (event : option EventEnvelope) (reason : string) : M (approvals * Env) ApprovalRequest := fun se =>
  let '(s, e) := se in
  let '(now, e) := utc_now e in
  let '(id, e) := uuid4 e in
  let r := mkApproval (uuid_str id) tenant workspace workflow event_id reason now
             (now / 1000000 * 1000000 + ttl_seconds * 1000000)%Z event AP_PENDING None None in
  match approval_create r s with
  | Ret s' => (Ret r, (s', e))
  | Raise x => (Raise x, (s, e))
  end.

(** ** The event outbox *)

(** A row of [outbox]. *)
Record event_row := mkEventRow {
  eo_event_id : string;
  eo_tenant_id : string;
  eo_workspace_id : string;
  eo_event_type : string;
  eo_aggregate_id : string;
  eo_payload : json_text;
  eo_created_at : string;
  eo_published_at : option string }.

Section event_outbox.
Context {IF : IsoFormat}.

(** [SQLiteOutboxStore.append] *)
Definition outbox_append (event : OutboxEvent) (s : list event_row) : outcome (bool * list event_row) :=
  payload <-? dumps (VDict (oe_payload event)) ;;
  if existsb (fun r => String.eqb (eo_event_id r) (oe_event_id event)) s then Ret (false, s)
  else Ret (true, s ++ [mkEventRow (oe_event_id event) (oe_tenant_id event) (oe_workspace_id event)
                          (oe_event_type event) (oe_aggregate_id event) payload
                          (isoformat (oe_created_at event)) None]).

(** [ORDER BY created_at, event_id], on text *)
Definition event_row_le (a b : event_row) : bool :=
  if String.eqb (eo_created_at a) (eo_created_at b) then String.leb (eo_event_id a) (eo_event_id b)
  else String.leb (eo_created_at a) (eo_created_at b).

Definition row_outbox_event (r : event_row) : outcome OutboxEvent :=
  match loads (eo_payload r), fromisoformat (eo_created_at r) with
  | VDict d, Some t => Ret (mkOutboxEvent (eo_event_id r) (eo_tenant_id r) (eo_workspace_id r)
                              (eo_event_type r) (eo_aggregate_id r) d t)
  | _, _ => raise ValueError "malformed outbox row"
  end.

Fixpoint row_outbox_events (l : list event_row) : outcome (list OutboxEvent) :=
  match l with
  | [] => Ret []
  | r :: l => e <-? row_outbox_event r ;; k <-? row_outbox_events l ;; Ret (e :: k)
  end.

(** [pending(limit)]; SQLite takes a negative limit for none. *)
Definition outbox_pending (limit : Z) (s : list event_row) : outcome (list OutboxEvent) :=
  let rows := order_by event_row_le (List.filter (fun r => bool_decide (eo_published_at r = None)) s) in
  row_outbox_events (if (limit <? 0)%Z then rows else take (Z.to_nat limit) rows).

(** [mark_published] *)
Definition mark_published (now : datetime) (id : string) (s : list event_row) : list event_row :=
  map (fun r => if String.eqb (eo_event_id r) id
                then mkEventRow (eo_event_id r) (eo_tenant_id r) (eo_workspace_id r) (eo_event_type r)
                       (eo_aggregate_id r) (eo_payload r) (eo_created_at r) (Some (isoformat now))
                else r) s.
End event_outbox.
