(* ===== verification/Operations.v ===== *)
(** * The autonomous loop and its application: [loops.py], [operations.py]

    [AutonomousLoop.run] takes an event through policy, approval and a bounded
    number of attempts; [AutonomousOperations] routes events to registered
    workflows, drains the event outbox and resumes approved runs.  The handler a
    workflow registers with the router is the call of that workflow, so a route
    holds the workflow's identifier. *)

From stdpp Require Import base gmap strings list.
From Stdlib Require Import ZArith Lia.
From S2P Require Import Prelude Uuid Json Types Automation.
Local Open Scope py_scope.

Inductive LoopState := LS_IDLE | LS_RUNNING | LS_WAITING_APPROVAL | LS_RECOVERING | LS_STOPPED.

#[export] Instance LoopState_eq_dec : EqDecision LoopState.
Proof. solve_decision. Defined.

Record WorkflowRun := mkWorkflowRun {
  wr_run_id : string;
  wr_workflow_id : string;
  wr_workflow_version : string;
  wr_event_id : string;
  wr_status : string;
  wr_result : pyval;
  wr_error : option dict }.

Record LoopDecision := mkDecision {
  ld_state : LoopState;
  ld_workflow_run : option WorkflowRun;
  ld_approval_id : option string;
  ld_reason : string }.

Record EventRoute := mkRoute {
  rt_route_id : string;
  rt_event_type : string;
  rt_source_id : option string;
  rt_workflow : string }.

Record OperationReceipt := mkReceipt {
  rc_event_id : string;
  rc_workflow_ids : list string;
  rc_decisions : list LoopDecision }.

(** The constructor's settings. *)
Record OpsConfig := mkOpsConfig {
  oc_rules : list PolicyRule;
  oc_ttl_seconds : Z;
  oc_max_retries : Z;
  oc_max_iterations : Z }.

(** The checks of the parts [AutonomousOperations] is built from. *)
Definition new_ops_config (rules : list PolicyRule) (ttl max_retries max_iterations : Z) :
    outcome OpsConfig :=
  if (ttl <=? 0)%Z then raise ValueError "ttl_seconds must be positive"
  else if (max_retries <? 0)%Z then raise ValueError "max_retries must be >= 0"
  else if (max_iterations <? 1)%Z then raise ValueError "max_iterations must be positive"
  else Ret (mkOpsConfig rules ttl max_retries max_iterations).

Section operations.
Context {W : Type} {IF : IsoFormat}.

Record SourceWorkflow := mkWorkflow {
  sw_workflow_id : string;
  sw_version : string;
  sw_tenant_id : string;
  sw_workspace_id : string;
  sw_trigger : WorkflowTrigger;
  sw_action : EventEnvelope -> M W pyval;
  sw_status : WorkflowStatus }.

(** [SourceWorkflow.matches] *)
Definition workflow_matches (w : SourceWorkflow) (event : EventEnvelope) : bool :=
  bool_decide (sw_status w = WF_ENABLED) && String.eqb (ee_tenant_id event) (sw_tenant_id w) &&
  String.eqb (ee_workspace_id event) (sw_workspace_id w) && trigger_matches (sw_trigger w) event.

(** The application object. *)
Record Ops := mkOps {
  op_outbox : option (list event_row);
  op_approvals : approvals;
  op_routes : list (string * EventRoute);
  op_workflows : list (string * SourceWorkflow);
  op_processed : list (string * string);
  op_env : Env;
  op_world : W }.

Definition on_approvals {A} (m : M (approvals * Env) A) : M Ops A := fun s =>
  let '(o, (a, e)) := m (op_approvals s, op_env s) in
  (o, mkOps (op_outbox s) a (op_routes s) (op_workflows s) (op_processed s) e (op_world s)).

Definition ops_env {A} (f : Env -> A * Env) : M Ops A := fun s =>
  let '(a, e) := f (op_env s) in
  (Ret a, mkOps (op_outbox s) (op_approvals s) (op_routes s) (op_workflows s) (op_processed s) e
            (op_world s)).

(** [runner(workflow, event)] with the default runner. *)
Definition run_action (w : SourceWorkflow) (event : EventEnvelope) : M Ops pyval := fun s =>
  let '(o, world) := sw_action w event (op_world s) in
  (o, mkOps (op_outbox s) (op_approvals s) (op_routes s) (op_workflows s) (op_processed s) (op_env s)
        world).

Definition run_success (w : SourceWorkflow) (event : EventEnvelope) (result : pyval) :
    M Ops WorkflowRun :=
  id <- ops_env uuid4 ;;
  ret (mkWorkflowRun (uuid_str id) (sw_workflow_id w) (sw_version w) (ee_event_id event) "completed"
         result None).

Definition run_failure (w : SourceWorkflow) (event : EventEnvelope) (x : exn) : M Ops WorkflowRun :=
  id <- ops_env uuid4 ;;
  ret (mkWorkflowRun (uuid_str id) (sw_workflow_id w) (sw_version w) (ee_event_id event) "failed"
         VNone (Some [("type", VStr (class_name (exn_cls x))); ("message", VStr (exn_msg x))])).

Variable cfg : OpsConfig.

(** [for attempt in range(attempt, attempt + n)] *)
Fixpoint loop_attempts (n : nat) (attempt : Z) (w : SourceWorkflow) (event : EventEnvelope) :
    M Ops LoopDecision :=
  match n with
  | O => ret (mkDecision LS_RECOVERING None None "recovery attempt limit exhausted")
  | S n => fun s =>
      match run_action w event s with
      | (Ret result, s) =>
          (r <- run_success w event result ;;
           ret (mkDecision LS_IDLE (Some r) None "workflow completed")) s
      | (Raise x, s) =>
          (d <- lift (recovery_decide (oc_max_retries cfg) attempt "transient" true) ;;
           if bool_decide (fst d = AR_RETRY) then loop_attempts n (attempt + 1)%Z w event
           else
             r <- run_failure w event x ;;
             ret (mkDecision LS_RECOVERING (Some r) None (snd d))) s
      end
  end.

(** [AutonomousLoop.run] *)
Definition loop_run (w : SourceWorkflow) (event : EventEnvelope) (approval_granted : bool) :
    M Ops LoopDecision :=
  if negb (workflow_matches w event) then
    ret (mkDecision LS_STOPPED None None "workflow trigger did not match")
  else
    v <- lift (policy_evaluate (oc_rules cfg) (event_context event)) ;;
    if bool_decide (pv_outcome v = DENY) then ret (mkDecision LS_STOPPED None None (pv_reason v))
    else if bool_decide (pv_outcome v = APPROVAL_REQUIRED) && negb approval_granted then
      a <- on_approvals (gate_request (oc_ttl_seconds cfg) (ee_tenant_id event) (ee_workspace_id event)
             (sw_workflow_id w) (ee_event_id event) (Some event) (pv_reason v)) ;;
      ret (mkDecision LS_WAITING_APPROVAL None (Some (ap_approval_id a)) "")
    else loop_attempts (Z.to_nat (oc_max_iterations cfg)) 1 w event.

Definition add_processed (k : string * string) : M Ops unit :=
  modify (fun s => mkOps (op_outbox s) (op_approvals s) (op_routes s) (op_workflows s)
                     (k :: op_processed s) (op_env s) (op_world s)).

(** [_run_workflow] *)
Definition run_workflow (id : string) (event : EventEnvelope) (approval_granted : bool) :
    M Ops LoopDecision :=
  s <- get ;;
  if bool_decide ((id, ee_event_id event) ∈ op_processed s) then
    ret (mkDecision LS_IDLE None None "workflow event already processed")
  else
    match dget id (op_workflows s) with
    | None => lift (raise KeyError id)
    | Some w =>
        d <- loop_run w event approval_granted ;;
        (if bool_decide (ld_state d = LS_IDLE) then add_processed (id, ee_event_id event)
         else ret tt) ;;;
        ret d
    end.

(** The loop over the routes of [InMemoryEventRouter.route]. *)
Fixpoint run_routes (routes : list EventRoute) (event : EventEnvelope) : M Ops (list LoopDecision) :=
  match routes with
  | [] => ret []
  | r :: routes =>
      if negb (String.eqb (rt_event_type r) (ee_event_type event)) then run_routes routes event
      else if match rt_source_id r with
              | Some s => negb (py_eq (VStr s) (ee_source_id event))
              | None => false
              end then run_routes routes event
      else
        d <- run_workflow (rt_workflow r) event false ;;
        l <- run_routes routes event ;;
        ret (d :: l)
  end.

(** [InMemoryEventRouter.register] *)
Definition router_register (r : EventRoute) : M Ops unit :=
  if String.eqb (rt_route_id r) "" || String.eqb (rt_event_type r) "" then
    lift (raise ValueError "route_id and event_type are required")
  else
    s <- get ;;
    if dmem (rt_route_id r) (op_routes s) then
      lift (raise ValueError ("event route already registered: " +:+ rt_route_id r))
    else modify (fun s => mkOps (op_outbox s) (op_approvals s) (dset (rt_route_id r) r (op_routes s))
                            (op_workflows s) (op_processed s) (op_env s) (op_world s)).

(** [register_workflow] *)
Definition register_workflow (w : SourceWorkflow) : M Ops unit :=
  s <- get ;;
  if dmem (sw_workflow_id w) (op_workflows s) then
    lift (raise ValueError ("workflow already registered: " +:+ sw_workflow_id w))
  else
    modify (fun s => mkOps (op_outbox s) (op_approvals s) (op_routes s)
                       (dset (sw_workflow_id w) w (op_workflows s)) (op_processed s) (op_env s)
                       (op_world s)) ;;;
    router_register (mkRoute (sw_workflow_id w) (wt_event_type (sw_trigger w))
                       (wt_source_id (sw_trigger w)) (sw_workflow_id w)).

(** [AutonomousOperations.route] *)
Definition ops_route (event : EventEnvelope) : M Ops OperationReceipt :=
  s <- get ;;
  decisions <- run_routes (dvalues (op_routes s)) event ;;
  s <- get ;;
  ret (mkReceipt (ee_event_id event)
         (fst <$> List.filter (fun kw => workflow_matches (snd kw) event) (op_workflows s)) decisions).

Definition publish (id : string) : M Ops unit :=
  now <- ops_env utc_now ;;
  modify (fun s => mkOps (mark_published now id <$> op_outbox s) (op_approvals s) (op_routes s)
                     (op_workflows s) (op_processed s) (op_env s) (op_world s)).

(** The receipt settles its event. *)
Definition settled (r : OperationReceipt) : bool :=
  negb (bool_decide (rc_decisions r = [])) &&
  forallb (fun d => bool_decide (ld_state d = LS_IDLE)) (rc_decisions r).

(** The loop of [drain_outbox]. *)
Fixpoint drain_events (l : list OutboxEvent) : M Ops (list OperationReceipt) :=
  match l with
  | [] => ret []
  | event :: l =>
      envelope <- ops_env (from_outbox event) ;;
      r <- ops_route envelope ;;
      (if settled r then publish (oe_event_id event) else ret tt) ;;;
      k <- drain_events l ;;
      ret (r :: k)
  end.

(** [drain_outbox] *)
Definition drain_outbox (limit : Z) : M Ops (list OperationReceipt) :=
  s <- get ;;
  match op_outbox s with
  | None => lift (raise RuntimeError "outbox is not configured")
  | Some rows => l <- lift (outbox_pending limit rows) ;; drain_events l
  end.

(** The event an approved request resumes. *)
Definition approved_event (a : ApprovalRequest) (w : SourceWorkflow) (created : datetime) :
    EventEnvelope :=
  match ap_event a with
  | Some event => event
  | None => mkEnvelope (ap_event_id a) (ap_tenant_id a) (ap_workspace_id a)
              (wt_event_type (sw_trigger w)) (ap_event_id a) [] created VNone None
  end.

(** [approve_and_resume] *)
Definition approve_and_resume (id actor : string) : M Ops LoopDecision :=
  a <- on_approvals (approval_decide id AP_APPROVED actor) ;;
  s <- get ;;
  match dget (ap_workflow_id a) (op_workflows s) with
  | None => lift (raise KeyError ("workflow not registered: " +:+ ap_workflow_id a))
  | Some w =>
      created <- match ap_event a with
                 | Some event => ret (ee_created_at event)
                 | None => ops_env utc_now
                 end ;;
      run_workflow (sw_workflow_id w) (approved_event a w created) true
  end.

(** [reject] *)
Definition ops_reject (id actor : string) : M Ops unit :=
  _ <- on_approvals (approval_decide id AP_REJECTED actor) ;; ret tt.
End operations.

Arguments SourceWorkflow : clear implicits.
Arguments Ops : clear implicits.
