(* ===== verification/OperationsFacts.v ===== *)
(** * Facts about autonomous operations

    The moves an operation may make, and the loop against a reference. *)

From stdpp Require Import base gmap strings list relations.
From Stdlib Require Import ZArith Lia ZifyBool.
From S2P Require Import Prelude Uuid Json Types Automation Operations.
Local Open Scope py_scope.

(** ** Approvals *)

(** What may happen to an approval: nothing, or one decision while it is
    pending; it is approved only if the clock read a time before its expiry. *)
Definition approval_step (e : Env) (a a' : ApprovalRequest) : Prop :=
  a' = a \/
  (ap_decision a = AP_PENDING /\ exists d by_ at_, d <> AP_PENDING /\ a' = with_decision d by_ at_ a /\
     (d = AP_APPROVED -> exists n, (ticks e <= n)%nat /\ (clock e n < ap_expires_at a)%Z)).

(** Approvals are never lost, and new ones are pending. *)
Definition approvals_evolve (e : Env) (s s' : approvals) : Prop :=
  (forall id a, dget id s = Some a -> exists a', dget id s' = Some a' /\ approval_step e a a') /\
  (forall id a', dget id s = None -> dget id s' = Some a' -> ap_decision a' = AP_PENDING).

Lemma approvals_evolve_refl e s : approvals_evolve e s s.
Proof. split; [intros id a Ha; exists a; split; [done | by left] | intros; congruence]. Qed.

Lemma approvals_evolve_set e s id a a' :
  dget id s = Some a -> approval_step e a a' -> approvals_evolve e s (dset id a' s).
Proof.
  intros Ha Hs. split.
  - intros id0 a0 H0. rewrite dget_dset. case_decide; [subst | by exists a0; split; [|left]].
    exists a'. split; [done|]. by simplify_eq.
  - intros id0 a0 H0. rewrite dget_dset. case_decide; subst; congruence.
Qed.

Lemma approvals_evolve_new e s id a :
  dget id s = None -> ap_decision a = AP_PENDING -> approvals_evolve e s (dset id a s).
Proof.
  intros Hn Ha. split.
  - intros id0 a0 H0. rewrite dget_dset_ne by congruence. by exists a0; split; [|left].
  - intros id0 a0 H0. rewrite dget_dset. case_decide; [by intros [= <-] | congruence].
Qed.

(** What [decide] leaves in the store: what was there, or one decision on the
    pending request, which is the caller's, taken before its expiry, or the
    record that it has expired. *)
Lemma approval_decide_cases id d actor s e o s' e' :
  approval_decide id d actor (s, e) = (o, (s', e')) ->
  clock e' = clock e /\ (ticks e <= ticks e')%nat /\
  ((s' = s /\ forall a, o <> Ret a) \/
   exists a d' by_ at_, dget id s = Some a /\ ap_decision a = AP_PENDING /\
     s' = dset id (with_decision d' by_ at_ a) s /\
     ((d' = d /\ by_ = Some actor /\ o = Ret (with_decision d' by_ at_ a) /\
       (clock e (ticks e) < ap_expires_at a)%Z) \/
      (d' = AP_EXPIRED /\ (forall a, o <> Ret a) /\ (ap_expires_at a <= clock e (ticks e))%Z))).
Proof.
  unfold approval_decide. destruct (dget id s) as [a|] eqn:Ea.
  2: { intros [= <- <- <-]. split_and!; [done | done | by left]. }
  destruct (bool_decide _) eqn:Ep; simpl.
  2: { intros [= <- <- <-]. split_and!; [done | done | by left]. }
  apply bool_decide_eq_true in Ep.
  destruct (Z.leb_spec (ap_expires_at a) (clock e (ticks e))) as [Hx|Hx]; intros H; simplify_eq/=;
    (split; [done|]); (split; [lia|]); right; eexists a, _, _, _; (do 3 (split; [done|]));
    [by right | by left].
Qed.

(** What the gate leaves: what was there, or a pending request for the event. *)
Lemma gate_request_cases ttl t ws wf ev ee reason s e o s' e' :
  gate_request ttl t ws wf ev ee reason (s, e) = (o, (s', e')) ->
  clock e' = clock e /\ (ticks e <= ticks e')%nat /\
  (s' = s \/ exists a, dget (ap_approval_id a) s = None /\ s' = dset (ap_approval_id a) a s /\
     ap_tenant_id a = t /\ ap_workspace_id a = ws /\ ap_workflow_id a = wf /\ ap_event_id a = ev /\
     ap_event a = ee /\ ap_reason a = reason /\ ap_decision a = AP_PENDING).
Proof.
  unfold gate_request. cbn [utc_now uuid4]. unfold approval_create. cbn [ap_approval_id].
  destruct (dmem _ s) eqn:Em; intros H; simplify_eq/=; (split; [done|]); (split; [lia|]); [by left|].
  right. eexists (mkApproval _ _ _ _ _ _ _ _ _ _ _ _). cbn. split; [|by split_and!].
  unfold dmem in Em. apply bool_decide_eq_false in Em. by apply eq_None_not_Some.
Qed.

Section operations.
Context {W : Type} {IF : IsoFormat}.
Variable cfg : OpsConfig.

Abbreviation St := (Ops W).

(** ** Calls *)

(** What callers do to one application object; events also reach its outbox from
    outside, and a workflow's status is a mutable field. *)
Inductive ops_call :=
  | OC_append (event : OutboxEvent)
  | OC_register (w : SourceWorkflow W)
  | OC_set_status (id : string) (status : WorkflowStatus)
  | OC_route (event : EventEnvelope)
  | OC_drain (limit : Z)
  | OC_approve (id actor : string)
  | OC_reject (id actor : string).

(** The decision a call takes, on which request, by whom. *)
Definition decides (c : ops_call) (id : string) (d : ApprovalDecision) (actor : string) : Prop :=
  match c with
  | OC_approve i n => id = i /\ actor = n /\ d = AP_APPROVED
  | OC_reject i n => id = i /\ actor = n /\ d = AP_REJECTED
  | _ => False
  end.

(** ** Moves *)

(** The workflow is enabled and its tenant, workspace and trigger are those of
    the event. *)
Definition eligible (w : SourceWorkflow W) (event : EventEnvelope) : Prop :=
  sw_status w = WF_ENABLED /\ ee_tenant_id event = sw_tenant_id w /\
  ee_workspace_id event = sw_workspace_id w /\
  ee_event_type event = wt_event_type (sw_trigger w) /\
  (forall s, wt_source_id (sw_trigger w) = Some s -> py_eq (VStr s) (ee_source_id event) = true) /\
  (forall k v, (k, v) ∈ wt_conditions (sw_trigger w) ->
     py_eq (dget_or k VNone (ee_payload event)) v = true).

Lemma workflow_matches_eligible w event : workflow_matches w event = true -> eligible w event.
Proof.
  unfold workflow_matches, trigger_matches, eligible.
  intros [[[Hs%bool_decide_eq_true Ht%String.eqb_eq]%andb_true_iff Hw%String.eqb_eq]%andb_true_iff H]%andb_true_iff.
  destruct (String.eqb_spec (ee_event_type event) (wt_event_type (sw_trigger w))) as [He|]; [|done].
  cbn [negb] in H. split_and!; try done.
  - intros s E. rewrite E in H. by destruct (py_eq (VStr s) (ee_source_id event)).
  - intros k v Hkv. destruct (match wt_source_id _ with Some _ => _ | None => _ end); [done|].
    rewrite forallb_forall in H. by apply (H (k, v)), list_elem_of_In.
Qed.

(** The registered workflow may still take the event. *)
Definition pending_for (s : St) (w : SourceWorkflow W) (event : EventEnvelope) : Prop :=
  dget (sw_workflow_id w) (op_workflows s) = Some w /\ eligible w event /\
  (sw_workflow_id w, ee_event_id event) ∉ op_processed s.

(** The policy lets the workflow act on the event, or a person approved it. *)
Definition authorized (s : St) (w : SourceWorkflow W) (event : EventEnvelope) : Prop :=
  exists v, policy_evaluate (oc_rules cfg) (event_context event) = Ret v /\
    (pv_outcome v = ALLOW \/
     (pv_outcome v = APPROVAL_REQUIRED /\ exists id a created,
        dget id (op_approvals s) = Some a /\ ap_decision a = AP_APPROVED /\
        ap_workflow_id a = sw_workflow_id w /\ approved_event a w created = event)).

(** The clock goes on. *)
Definition time_passes (e e' : Env) : Prop := clock e' = clock e /\ (ticks e <= ticks e')%nat.

(** A move inside the call [c]: the registered workflows stay; requests for
    approval are added for events that need one, and decided by the call of a
    person only; an action runs for a pending event, with authority. *)
Inductive ops_move (c : ops_call) : St -> St -> Prop :=
  | ops_internal s s' :
      op_world s' = op_world s -> op_workflows s' = op_workflows s ->
      op_approvals s' = op_approvals s -> time_passes (op_env s) (op_env s') ->
      (forall k, k ∈ op_processed s -> k ∈ op_processed s') -> ops_move c s s'
  | ops_request s s' w event v a :
      pending_for s w event -> policy_evaluate (oc_rules cfg) (event_context event) = Ret v ->
      pv_outcome v = APPROVAL_REQUIRED ->
      ap_tenant_id a = ee_tenant_id event -> ap_workspace_id a = ee_workspace_id event ->
      ap_workflow_id a = sw_workflow_id w -> ap_event_id a = ee_event_id event ->
      ap_event a = Some event -> ap_reason a = pv_reason v -> ap_decision a = AP_PENDING ->
      dget (ap_approval_id a) (op_approvals s) = None ->
      op_approvals s' = dset (ap_approval_id a) a (op_approvals s) ->
      op_world s' = op_world s -> op_workflows s' = op_workflows s ->
      op_processed s' = op_processed s -> time_passes (op_env s) (op_env s') -> ops_move c s s'
  | ops_decide s s' id d actor a d' by_ at_ :
      decides c id d actor -> dget id (op_approvals s) = Some a -> ap_decision a = AP_PENDING ->
      (d' = d /\ by_ = Some actor /\ (clock (op_env s) (ticks (op_env s)) < ap_expires_at a)%Z \/
       d' = AP_EXPIRED /\ (ap_expires_at a <= clock (op_env s) (ticks (op_env s)))%Z) ->
      op_approvals s' = dset id (with_decision d' by_ at_ a) (op_approvals s) ->
      op_world s' = op_world s -> op_workflows s' = op_workflows s ->
      op_processed s' = op_processed s -> time_passes (op_env s) (op_env s') -> ops_move c s s'
  | ops_act s s' w event :
      pending_for s w event -> authorized s w event ->
      op_world s' = snd (sw_action w event (op_world s)) -> op_workflows s' = op_workflows s ->
      op_approvals s' = op_approvals s -> op_env s' = op_env s -> op_processed s' = op_processed s ->
      ops_move c s s'.

(** Workflows are stored under their identifiers. *)
Definition ops_ok (s : St) : Prop :=
  forall k w, dget k (op_workflows s) = Some w -> sw_workflow_id w = k.

Variable c : ops_call.

Definition governed (s s' : St) : Prop :=
  ops_ok s -> op_workflows s' = op_workflows s /\ rtc (ops_move c) s s'.

Lemma governed_ok s s' : governed s s' -> ops_ok s -> ops_ok s'.
Proof. intros H Hs. unfold ops_ok. by rewrite (proj1 (H Hs)). Qed.

#[export] Instance governed_preorder : PreOrder governed.
Proof.
  split.
  - intros s Hs. split; [done | apply rtc_refl].
  - intros s1 s2 s3 H1 H2 Hs. destruct (H1 Hs) as [Hw2 R1].
    destruct (H2 (governed_ok _ _ H1 Hs)) as [Hw3 R2]. split; [congruence|]. by etransitivity.
Qed.

(** A proof may use the invariant of the state before. *)
Lemma governed_from_ok s s' : (ops_ok s -> governed s s') -> governed s s'.
Proof. unfold governed. auto. Qed.

Lemma governed_once s s' :
  op_workflows s' = op_workflows s -> ops_move c s s' -> governed s s'.
Proof. intros Hw Hm Hs. split; [done|]. by apply rtc_once. Qed.

Lemma governed_internal s s' :
  op_workflows s' = op_workflows s -> op_world s' = op_world s -> op_approvals s' = op_approvals s ->
  time_passes (op_env s) (op_env s') ->
  (forall k, k ∈ op_processed s -> k ∈ op_processed s') -> governed s s'.
Proof. intros. by apply governed_once, ops_internal. Qed.

Lemma governed_uuid : keeps governed (ops_env (W := W) uuid4).
Proof. intros s. by apply governed_internal. Qed.

Lemma governed_now : keeps governed (ops_env (W := W) utc_now).
Proof. intros s. apply governed_internal; try done. split; [done | simpl; lia]. Qed.

Lemma governed_from_outbox event : keeps governed (ops_env (W := W) (from_outbox event)).
Proof. intros s. apply governed_internal; try done. split; [done | simpl; lia]. Qed.

Lemma governed_success w event r : keeps governed (run_success (W := W) w event r).
Proof. unfold run_success. keeps_auto. apply governed_uuid. Qed.

Lemma governed_failure w event x : keeps governed (run_failure (W := W) w event x).
Proof. unfold run_failure. keeps_auto. apply governed_uuid. Qed.

(** The request of the gate. *)
Lemma governed_gate w event v s :
  pending_for s w event -> policy_evaluate (oc_rules cfg) (event_context event) = Ret v ->
  pv_outcome v = APPROVAL_REQUIRED ->
  governed s (snd (on_approvals (W := W) (gate_request (oc_ttl_seconds cfg) (ee_tenant_id event)
    (ee_workspace_id event) (sw_workflow_id w) (ee_event_id event) (Some event) (pv_reason v)) s)).
Proof.
  intros Hp Hv Ho. unfold on_approvals. destruct (gate_request _ _ _ _ _ _ _ _) as [o [l e]] eqn:E.
  apply gate_request_cases in E as (Hc & Ht & [->|(a & Hn & -> & ? & ? & ? & ? & ? & ? & ?)]).
  - by apply governed_internal.
  - apply governed_once; [done|]. by eapply (ops_request c s _ w event v a).
Qed.

Lemma governed_decide id d actor :
  decides c id d actor -> keeps governed (on_approvals (W := W) (approval_decide id d actor)).
Proof.
  intros Hd s. unfold on_approvals. destruct (approval_decide _ _ _ _) as [o [l e]] eqn:E.
  apply approval_decide_cases in E as (Hc & Ht & [[-> _]|(a & d' & b & t & Ha & Hp & -> & Hcase)]).
  - by apply governed_internal.
  - apply governed_once; [done|]. eapply (ops_decide c s _ id d actor a d' b t); try done.
    destruct Hcase as [(? & ? & _ & ?)|(? & _ & ?)]; [by left | by right].
Qed.

Lemma governed_processed k : keeps governed (add_processed (W := W) k).
Proof.
  intros s. apply governed_internal; try done. intros k' Hk. by right.
Qed.

(** ** The loop *)

(** The state in which the loop may act. *)
Definition may_act (w : SourceWorkflow W) (event : EventEnvelope) (s : St) : Prop :=
  pending_for s w event /\ authorized s w event.

Lemma governed_attempts n attempt w event s :
  may_act w event s -> governed s (snd (loop_attempts cfg n attempt w event s)).
Proof.
  revert attempt s. induction n as [|n IH]; intros attempt s Hact; [reflexivity|].
  cbn [loop_attempts]. unfold run_action.
  destruct (sw_action w event (op_world s)) as [o world] eqn:Ea.
  set (s1 := mkOps (op_outbox s) (op_approvals s) (op_routes s) (op_workflows s) (op_processed s)
               (op_env s) world).
  assert (governed s s1) as H1.
  { apply governed_once; [done|]. destruct Hact as [? ?].
    apply (ops_act c s s1 w event); try done. simpl. by rewrite Ea. }
  destruct o as [result|x].
  - etransitivity; [exact H1|]. refine (keeps_bind _ _ _ (governed_success _ _ _) _ s1).
    intros r. by keeps_auto.
  - etransitivity; [exact H1|]. unfold bind at 1, lift.
    destruct (recovery_decide _ _ _ _) as [d|]; [|reflexivity].
    destruct (bool_decide _); [by apply IH|].
    refine (keeps_bind _ _ _ (governed_failure _ _ _) _ s1). intros r. by keeps_auto.
Qed.

Lemma governed_loop w event granted s :
  dget (sw_workflow_id w) (op_workflows s) = Some w ->
  (sw_workflow_id w, ee_event_id event) ∉ op_processed s ->
  (granted = true -> exists id a created,
     dget id (op_approvals s) = Some a /\ ap_decision a = AP_APPROVED /\
     ap_workflow_id a = sw_workflow_id w /\ approved_event a w created = event) ->
  governed s (snd (loop_run cfg w event granted s)).
Proof.
  intros Hw Hp Hg. unfold loop_run. destruct (workflow_matches w event) eqn:Em; [|reflexivity].
  assert (pending_for s w event) as Hpend by (split_and!; [done | by apply workflow_matches_eligible | done]).
  cbn [negb]. unfold bind at 1, lift. destruct (policy_evaluate _ _) as [v|] eqn:Ev; [|reflexivity].
  destruct (bool_decide (pv_outcome v = DENY)) eqn:Ed; [reflexivity|].
  apply bool_decide_eq_false in Ed.
  destruct (bool_decide (pv_outcome v = APPROVAL_REQUIRED)) eqn:Ea; cbn [andb].
  - apply bool_decide_eq_true in Ea. destruct granted; cbn [negb].
    + apply governed_attempts. split; [done|]. exists v. split; [done|]. right. auto.
    + unfold bind. pose proof (governed_gate w event v s Hpend Ev Ea) as Hgate.
      by destruct (on_approvals _ s) as [[r|x] s1].
  - apply bool_decide_eq_false in Ea. apply governed_attempts. split; [done|].
    exists v. split; [done|]. left. by destruct (pv_outcome v).
Qed.

Lemma governed_run_workflow id event granted s :
  (granted = true -> exists w i a created, dget id (op_workflows s) = Some w /\
     dget i (op_approvals s) = Some a /\ ap_decision a = AP_APPROVED /\
     ap_workflow_id a = sw_workflow_id w /\ approved_event a w created = event) ->
  governed s (snd (run_workflow cfg id event granted s)).
Proof.
  intros Hg. apply governed_from_ok. intros Hok.
  unfold run_workflow, bind at 1, get. destruct (bool_decide _) eqn:Ep; [reflexivity|].
  apply bool_decide_eq_false in Ep. destruct (dget id (op_workflows s)) as [w|] eqn:Ew; [|reflexivity].
  pose proof (Hok _ _ Ew) as <-. unfold bind at 1.
  assert (governed s (snd (loop_run cfg w event granted s))) as Hl.
  { apply governed_loop; try done. intros Hgr. destruct (Hg Hgr) as (w' & i & a & created & [= <-] & ?).
    by exists i, a, created. }
  destruct (loop_run cfg w event granted s) as [[d|x] s1]; [|done].
  etransitivity; [exact Hl|].
  revert s1 Hl. intros s1 _. apply (keeps_bind governed).
  - destruct (bool_decide _); [apply governed_processed | by keeps_auto].
  - intros ?. by keeps_auto.
Qed.

Lemma governed_routes routes event : keeps governed (run_routes cfg routes event).
Proof.
  induction routes as [|r routes IH]; [by keeps_auto|]. cbn [run_routes].
  do 2 (lazymatch goal with |- keeps _ (if ?b then _ else _) => destruct b; [done|] end).
  apply keeps_bind; [apply _ | intros s; by apply governed_run_workflow|]. intros d.
  apply keeps_bind; [apply _ | done|]. intros l. by keeps_auto.
Qed.

Lemma governed_route event : keeps governed (ops_route cfg event).
Proof.
  unfold ops_route. apply keeps_bind; [apply _ | by keeps_auto|]. intros s.
  apply keeps_bind; [apply _ | apply governed_routes|]. intros l. by keeps_auto.
Qed.

Lemma governed_publish id : keeps governed (publish (W := W) id).
Proof.
  unfold publish. apply keeps_bind; [apply _ | apply governed_now|]. intros now s.
  by apply governed_internal.
Qed.

Lemma governed_drain l : keeps governed (drain_events cfg l).
Proof.
  induction l as [|event l IH]; [by keeps_auto|]. cbn [drain_events].
  apply keeps_bind; [apply _ | apply governed_from_outbox|]. intros envelope.
  apply keeps_bind; [apply _ | apply governed_route|]. intros r.
  apply keeps_bind; [apply _ | destruct (settled r); [apply governed_publish | by keeps_auto]|].
  intros []. apply keeps_bind; [apply _ | done|]. intros k. by keeps_auto.
Qed.

Lemma governed_drain_outbox limit : keeps governed (drain_outbox cfg limit).
Proof.
  unfold drain_outbox. apply keeps_bind; [apply _ | by keeps_auto|]. intros s.
  destruct (op_outbox s); [|by keeps_auto]. apply keeps_bind; [apply _ | by keeps_auto|].
  intros k. apply governed_drain.
Qed.

Lemma governed_reject id actor :
  decides c id AP_REJECTED actor -> keeps governed (ops_reject (W := W) id actor).
Proof. intros Hd. unfold ops_reject. keeps_auto. by apply governed_decide. Qed.

Lemma governed_approve id actor :
  decides c id AP_APPROVED actor -> keeps governed (approve_and_resume cfg id actor).
Proof.
  intros Hdec s. apply governed_from_ok. intros Hok.
  unfold approve_and_resume, bind at 1.
  pose proof (governed_decide id AP_APPROVED actor Hdec s) as Hd.
  unfold on_approvals in *. destruct (approval_decide _ _ _ _) as [o [l e']] eqn:E.
  apply approval_decide_cases in E as (_ & _ & Ho). cbn [snd] in Hd.
  destruct o as [a|x]; [|done].
  assert (dget id l = Some a /\ ap_decision a = AP_APPROVED) as [Hget Hap].
  { destruct Ho as [[_ Ho]|(a0 & d' & b & t & _ & _ & -> & [(-> & _ & Ho & _)|(_ & Ho & _)])];
      try by destruct (Ho a). injection Ho as ->. by rewrite dget_dset_eq. }
  etransitivity; [exact Hd|]. unfold bind at 1, get. cbn [op_workflows].
  destruct (dget (ap_workflow_id a) (op_workflows s)) as [w|] eqn:Ew; [|reflexivity].
  pose proof (Hok _ _ Ew) as Hid.
  set (s1 := mkOps _ _ _ _ _ _ _). unfold bind at 1.
  destruct (ap_event a) as [event|] eqn:Ee; cbn [ret ops_env utc_now].
  - apply governed_run_workflow. intros _. exists w, id, a, (ee_created_at event). by rewrite Hid.
  - set (s2 := mkOps _ _ _ _ _ _ _). transitivity s2.
    { apply governed_internal; try done. split; [done | simpl; lia]. }
    apply governed_run_workflow. intros _. eexists w, id, a, _. rewrite Hid. done.
Qed.
End operations.

Section calls.
Context {W : Type} {IF : IsoFormat}.
Variable cfg : OpsConfig.
Abbreviation St := (Ops W).
Abbreviation ops_call := (ops_call (W := W)).

(** ** Sequences of calls *)

Definition with_workflow_status (st : WorkflowStatus) (w : SourceWorkflow W) : SourceWorkflow W :=
  mkWorkflow (sw_workflow_id w) (sw_version w) (sw_tenant_id w) (sw_workspace_id w) (sw_trigger w)
    (sw_action w) st.

(** The state a call leaves, also when it raises. *)
Definition ops_perform (c : ops_call) (s : St) : St :=
  match c with
  | OC_append event =>
      match op_outbox s with
      | Some rows =>
          match outbox_append event rows with
          | Ret (_, rows) => mkOps (Some rows) (op_approvals s) (op_routes s) (op_workflows s)
                               (op_processed s) (op_env s) (op_world s)
          | Raise _ => s
          end
      | None => s
      end
  | OC_register w => snd (register_workflow w s)
  | OC_set_status id st =>
      match dget id (op_workflows s) with
      | Some w => mkOps (op_outbox s) (op_approvals s) (op_routes s)
                    (dset id (with_workflow_status st w) (op_workflows s)) (op_processed s) (op_env s)
                    (op_world s)
      | None => s
      end
  | OC_route event => snd (ops_route cfg event s)
  | OC_drain limit => snd (drain_outbox cfg limit s)
  | OC_approve id actor => snd (approve_and_resume cfg id actor s)
  | OC_reject id actor => snd (ops_reject id actor s)
  end.

Definition ops_perform_all (l : list ops_call) (s : St) : St := foldl (fun s c => ops_perform c s) s l.

(** Everything that matters to an action but the workflows is as before. *)
Definition unmoved (s s' : St) : Prop :=
  op_world s' = op_world s /\ op_approvals s' = op_approvals s /\ op_env s' = op_env s /\
  op_processed s' = op_processed s.

(** What a call may do: registering adds one new workflow, or none; setting a
    status changes that of one workflow; every other call moves as above. *)
Definition call_refines (c : ops_call) (s s' : St) : Prop :=
  match c with
  | OC_register w =>
      unmoved s s' /\
      (op_workflows s' = op_workflows s \/
       (dget (sw_workflow_id w) (op_workflows s) = None /\
        op_workflows s' = dset (sw_workflow_id w) w (op_workflows s)))
  | OC_set_status id st =>
      unmoved s s' /\
      (op_workflows s' = op_workflows s \/
       exists w, dget id (op_workflows s) = Some w /\
         op_workflows s' = dset id (with_workflow_status st w) (op_workflows s))
  | _ => op_workflows s' = op_workflows s /\ rtc (ops_move cfg c) s s'
  end.

Lemma router_register_unmoved r s :
  unmoved s (snd (router_register (W := W) r s)) /\
  op_workflows (snd (router_register r s)) = op_workflows s.
Proof.
  unfold router_register. destruct (_ || _); [done|]. unfold bind, get.
  destruct (dmem _ _); done.
Qed.

Lemma register_refines w s :
  call_refines (OC_register w) s (snd (register_workflow w s)).
Proof.
  unfold register_workflow, bind, get. destruct (dmem _ _) eqn:Em; [by split; [|left]|].
  unfold modify. set (s1 := mkOps _ _ _ _ _ _ _). match goal with |- context [router_register ?r s1] =>
    destruct (router_register_unmoved r s1) as [Hu Hw]; destruct (router_register r s1) as [o s2] end.
  cbn [snd] in *. split; [exact Hu|]. right. split; [|exact Hw].
  unfold dmem in Em. apply bool_decide_eq_false in Em. by apply eq_None_not_Some.
Qed.

Lemma perform_refines c s : ops_ok s -> call_refines c s (ops_perform c s).
Proof.
  intros Hok. destruct c as [event|w|id st|event|limit|id actor|id actor]; simpl.
  - assert (governed cfg (OC_append event) s (ops_perform (OC_append event) s)) as H; [|by apply H].
    unfold ops_perform. destruct (op_outbox s) as [rows|]; [|reflexivity].
    destruct (outbox_append event rows) as [[b rows']|]; [|reflexivity]. by apply governed_internal.
  - apply register_refines.
  - destruct (dget id (op_workflows s)) as [w|] eqn:Ew; [|by split; [|left]].
    split; [done|]. right. by exists w.
  - by apply (governed_route cfg (OC_route event) event s).
  - by apply (governed_drain_outbox cfg (OC_drain limit) limit s).
  - by apply (governed_approve cfg (OC_approve id actor) id actor).
  - by apply (governed_reject cfg (OC_reject id actor) id actor).
Qed.

Lemma ops_perform_ok c s : ops_ok s -> ops_ok (ops_perform c s).
Proof.
  intros Hok. pose proof (perform_refines c s Hok) as H. unfold ops_ok.
  destruct c as [event|w|id st|event|limit|id actor|id actor]; unfold call_refines in H;
    try (by rewrite (proj1 H)).
  - destruct H as [_ [->|[_ ->]]]; [done|]. intros k w'. rewrite dget_dset.
    case_decide; [by intros [= <-] | apply Hok].
  - destruct H as [_ [->|(w & Hw & ->)]]; [done|]. intros k w'. rewrite dget_dset.
    case_decide; [intros [= <-]; subst; exact (Hok _ _ Hw) | apply Hok].
Qed.

Lemma ops_perform_all_ok l s : ops_ok s -> ops_ok (ops_perform_all l s).
Proof.
  unfold ops_perform_all. revert s. induction l as [|c l IH]; intros s Hs; simpl; [done|].
  by apply IH, ops_perform_ok.
Qed.

(** ** What moves preserve *)

Lemma approval_step_trans e e' a1 a2 a3 :
  clock e' = clock e -> (ticks e <= ticks e')%nat ->
  approval_step e a1 a2 -> approval_step e' a2 a3 -> approval_step e a1 a3.
Proof.
  intros Hc Ht [->|(Hp & d & b & t & Hd & -> & Hx)] [->|(Hp' & d' & b' & t' & Hd' & -> & Hx')].
  - by left.
  - right. split; [done|]. exists d', b', t'. split; [done|]. split; [done|].
    intros Hap. destruct (Hx' Hap) as (n & Hn & Hlt). exists n. rewrite <- Hc. split; [lia | done].
  - right. split; [done|]. by exists d, b, t.
  - done.
Qed.

(** The clock goes on, processed events stay, decided approvals are final. *)
Definition preserves (s s' : St) : Prop :=
  time_passes (op_env s) (op_env s') /\
  (forall k, k ∈ op_processed s -> k ∈ op_processed s') /\
  (forall id a, dget id (op_approvals s) = Some a ->
     exists a', dget id (op_approvals s') = Some a' /\ approval_step (op_env s) a a').

#[export] Instance preserves_preorder : PreOrder preserves.
Proof.
  split.
  - intros s. do 2 (split; [done|]). intros id a Ha. exists a. by split; [|left].
  - intros s s1 s' ([Hc1 Ht1] & Hp1 & Ha1) ([Hc Ht] & Hp & Ha).
    split; [split; [congruence | lia]|]. split; [auto|]. intros id a Hga.
    destruct (Ha1 id a Hga) as (a1 & Hg1 & Hs1). destruct (Ha id a1 Hg1) as (a2 & Hg2 & Hs2).
    exists a2. split; [done|]. by eapply approval_step_trans.
Qed.

Lemma preserves_evolve s s' :
  time_passes (op_env s) (op_env s') -> (forall k, k ∈ op_processed s -> k ∈ op_processed s') ->
  approvals_evolve (op_env s) (op_approvals s) (op_approvals s') -> preserves s s'.
Proof. intros Ht Hp [Ha _]. by split_and!. Qed.

Lemma ops_move_preserves c s s' : ops_move cfg c s s' -> preserves s s'.
Proof.
  destruct 1 as [s s' Hw Hwf Ha Ht Hp|s s' w event v a _ _ _ _ _ _ _ _ _ Hd Hn Ha _ _ Hp Ht
    |s s' id d actor a d' b t Hdec Hg Hd Hcase Ha _ _ Hp Ht|s s' w event _ _ _ _ Ha He Hp];
    apply preserves_evolve; try done; try (by rewrite Hp).
  - rewrite Ha. apply approvals_evolve_refl.
  - rewrite Ha. by apply approvals_evolve_new.
  - rewrite Ha. apply (approvals_evolve_set _ _ _ a); [done|]. right. split; [done|]. exists d', b, t.
    destruct Hcase as [(-> & _ & Hlt)|(-> & _)]; [|by split_and!].
    split; [by destruct c; try done; destruct Hdec as (_ & _ & ->)|]. split; [done|].
    intros _. by exists (ticks (op_env s)).
  - by rewrite He.
  - rewrite Ha. apply approvals_evolve_refl.
Qed.

Lemma unmoved_preserves s s' : unmoved s s' -> preserves s s'.
Proof.
  intros (_ & Ha & He & Hp). apply preserves_evolve; [by rewrite He | by rewrite Hp|].
  rewrite Ha. apply approvals_evolve_refl.
Qed.

Lemma perform_preserves c s : ops_ok s -> preserves s (ops_perform c s).
Proof.
  intros Hok. pose proof (perform_refines c s Hok) as H.
  destruct c; unfold call_refines in H; destruct H as [H1 H2];
    first [by apply unmoved_preserves
          | revert H2; apply rtc_preorder; [apply _ | apply ops_move_preserves]].
Qed.

Lemma perform_all_preserves l s : ops_ok s -> preserves s (ops_perform_all l s).
Proof.
  unfold ops_perform_all. revert s. induction l as [|c l IH]; intros s Hs; simpl; [reflexivity|].
  etransitivity; [by apply perform_preserves | by apply IH, ops_perform_ok].
Qed.

(** An idle decision of [_run_workflow] leaves its key processed. *)
Lemma run_workflow_idle id event granted (s : St) d (s' : St) :
  run_workflow cfg id event granted s = (Ret d, s') -> ld_state d = LS_IDLE ->
  (id, ee_event_id event) ∈ op_processed s'.
Proof.
  unfold run_workflow, bind at 1, get. destruct (bool_decide _) eqn:Ep.
  { intros [= <- <-] _. by apply bool_decide_eq_true in Ep. }
  destruct (dget id (op_workflows s)) as [w|]; [|done]. unfold bind at 1.
  destruct (loop_run cfg w event granted s) as [[d'|x] s1]; [|done].
  unfold bind. destruct (bool_decide (ld_state d' = LS_IDLE)) eqn:Ei.
  - intros [= <- <-] _. cbn [op_processed]. by left.
  - apply bool_decide_eq_false in Ei. by intros [= <- <-] ?.
Qed.

(** ** The attempts against a reference *)

(** Perform [m] until it returns, [n] times at most: the exceptions met and the
    result. *)
Fixpoint tries (n : nat) (m : M W pyval) (world : W) : (list exn * option pyval) * W :=
  match n with
  | O => ([], None, world)
  | S n =>
      match m world with
      | (Ret r, world) => ([], Some r, world)
      | (Raise x, world) =>
          let '(l, o, world) := tries n m world in (x :: l, o, world)
      end
  end.

(** Everything but the world and the identifiers drawn. *)
Definition same_books (s s' : St) : Prop :=
  op_outbox s' = op_outbox s /\ op_approvals s' = op_approvals s /\ op_routes s' = op_routes s /\
    op_workflows s' = op_workflows s /\ op_processed s' = op_processed s.

Definition exn_dict (x : exn) : dict :=
  [("type", VStr (class_name (exn_cls x))); ("message", VStr (exn_msg x))].

(** What the loop decides from the outcome of the attempts; [full]: the retry
    budget ended before the iterations did. *)
Definition attempts_decided (full : bool) (errs : list exn) (res : option pyval) (d : LoopDecision) :
    Prop :=
  match res, ld_workflow_run d with
  | Some r, Some run =>
      ld_state d = LS_IDLE /\ wr_status run = "completed" /\ wr_result run = r /\ wr_error run = None
  | None, Some run =>
      full = true /\ ld_state d = LS_RECOVERING /\ wr_status run = "failed" /\
    wr_error run = exn_dict <$> last errs
  | None, None => full = false /\ ld_state d = LS_RECOVERING
  | Some _, None => False
  end.

Lemma attempts_spec n k w event (s : St) errs res world :
  (1 <= k <= oc_max_retries cfg + 1)%Z -> (0 < n)%nat ->
  tries (Z.to_nat (Z.min (Z.of_nat n) (oc_max_retries cfg + 2 - k))) (sw_action w event) (op_world s)
    = (errs, res, world) ->
  exists d s', loop_attempts cfg n k w event s = (Ret d, s') /\ op_world s' = world /\
    same_books s s' /\
    attempts_decided (oc_max_retries cfg + 2 - k <=? Z.of_nat n)%Z errs res d.
Proof.
  revert k s errs. induction n as [|n IH]; intros k s errs Hk Hn; [lia|].
  replace (Z.to_nat (Z.min (Z.of_nat (S n)) (oc_max_retries cfg + 2 - k)))
    with (S (Z.to_nat (Z.min (Z.of_nat n) (oc_max_retries cfg + 1 - k)))) by lia.
  cbn [tries loop_attempts]. unfold run_action.
  destruct (sw_action w event (op_world s)) as [[r|x] world1].
  { intros [= <- <- <-]. by eexists _, _. }
  set (s1 := mkOps _ _ _ _ _ _ world1). unfold bind at 1, lift, recovery_decide.
  destruct (Z.ltb_spec k 1); [lia|]. simpl.
  destruct (Z.leb_spec k (oc_max_retries cfg)) as [Hr|Hr].
  - destruct (tries _ _ world1) as [[errs1 res1] world2] eqn:Et. intros [= <- <- <-]. simpl.
    destruct n as [|n].
    { replace (Z.to_nat _) with O in Et by lia. injection Et as <- <- <-.
      eexists _, s1. split; [done|]. split; [done|]. split; [done|]. split; [|done]. lia. }
    destruct (IH (k + 1)%Z s1 errs1) as (d & s' & -> & Hw & Hb & Hd); [lia | lia | |].
    { rewrite <- Et. f_equal. lia. }
    exists d, s'. split; [done|]. split; [done|]. split; [done|].
    revert Hd. unfold attempts_decided.
    replace (oc_max_retries cfg + 2 - (k + 1) <=? Z.of_nat (S n))%Z
      with (oc_max_retries cfg + 2 - k <=? Z.of_nat (S (S n)))%Z by lia.
    destruct res1; [done|]. destruct (ld_workflow_run d) as [run|]; [|done].
    intros (? & ? & ? & He). split; [done|]. split; [done|]. split; [done|]. rewrite He.
    destruct errs1; [|done]. revert Et. replace (Z.to_nat _)
      with (S (Z.to_nat (Z.min (Z.of_nat n) (oc_max_retries cfg - k)))) by lia.
    cbn [tries]. destruct (sw_action w event world1) as [[?|?] ?]; [done|].
    by destruct (tries _ _ _) as [[? ?] ?].
  - replace (Z.to_nat _) with O by lia. intros [= <- <- <-]. eexists _, _.
    split; [reflexivity|]. split; [done|]. split; [done|]. split; [lia | done].
Qed.

(** ** Events without a route *)

Definition unrouted (s : St) (event : OutboxEvent) : Prop :=
  forall r, r ∈ dvalues (op_routes s) -> rt_event_type r <> oe_event_type event.

Lemma run_routes_none routes event (s : St) :
  (forall r, r ∈ routes -> rt_event_type r <> ee_event_type event) ->
  run_routes cfg routes event s = (Ret [], s).
Proof.
  induction routes as [|r routes IH]; intros H; [done|]. cbn [run_routes].
  destruct (String.eqb_spec (rt_event_type r) (ee_event_type event)) as [He|]; simpl.
  - by destruct (H r (list_elem_of_here _ _)).
  - apply IH. intros r' Hr'. apply H. by right.
Qed.

Lemma drain_unrouted l (s : St) :
  (forall event, event ∈ l -> unrouted s event) ->
  exists k s', drain_events cfg l s = (Ret k, s') /\ same_books s s' /\ op_world s' = op_world s /\
    Forall (fun r => rc_decisions r = []) k.
Proof.
  revert s. induction l as [|event l IH]; intros s H; [by eexists [], s|].
  cbn [drain_events]. unfold bind at 1, ops_env.
  destruct (from_outbox event (op_env s)) as [envelope e] eqn:Ef. unfold from_outbox in Ef.
  destruct (utc_now (op_env s)) as [now e1]. injection Ef as <- <-.
  set (s1 := mkOps _ _ _ _ _ _ _). unfold bind at 1, ops_route, bind at 1, get at 1, bind at 1.
  rewrite run_routes_none by (by apply (H event (list_elem_of_here _ _))).
  destruct (IH s1) as (k & s' & E & Hb & Hw & Hk).
  { intros ev Hev. apply (H ev). by right. }
  cbv [bind get ret settled rc_decisions]. change (bool_decide ([] = [])) with true. cbn [negb andb].
  rewrite E. eexists _, s'. split; [reflexivity|]. split; [done|]. split; [done|]. by constructor.
Qed.
End calls.

Arguments ops_call : clear implicits.
