(* ===== verification/OperationsTheorems.v ===== *)
(** * Theorems on autonomous operations

    Actions run only with authority, decided approvals are final, processed
    events are not run again, the loop against its reference, and events without
    a route at the head of the outbox. *)

From stdpp Require Import base gmap strings list relations.
From Stdlib Require Import ZArith Lia ZifyBool.
From S2P Require Import Prelude Uuid Json Types Automation Operations OperationsFacts Samples.
Local Open Scope py_scope.

(** ** A sample application *)

(** The world counts the calls of the action, which fails the first time. *)
Definition flaky_action (_ : EventEnvelope) : M nat pyval := fun n =>
  (match n with O => raise RuntimeError "boom" | S _ => Ret (VStr "done") end, S n).
Definition sample_workflow : SourceWorkflow nat :=
  mkWorkflow "wf" "1" "tenant" "space" (mkTrigger "changed" None []) flaky_action WF_ENABLED.
Definition sample_cfg : OpsConfig := mkOpsConfig [mkRule "low" None LOW false []] 3600 2 3.
Definition approval_event : EventEnvelope :=
  mkEnvelope "e1" "tenant" "space" "changed" "a" [("requires_approval", VBool true)] 0%Z VNone None.
Definition routed_event (id type : string) : OutboxEvent :=
  mkOutboxEvent id "tenant" "space" type "a" [] 0%Z.

Definition empty_ops : Ops nat := mkOps (Some []) [] [] [] [] sample_env 0.
Definition sample_calls : list (ops_call nat) :=
  [OC_register sample_workflow; OC_append (routed_event "e2" "changed"); OC_route approval_event;
   OC_drain 10].
Definition sample_ops : Ops nat := ops_perform_all sample_cfg sample_calls empty_ops.
Definition sample_approval : string := uuid_str 100%N.

Lemma ops_ok_empty : ops_ok empty_ops.
Proof. done. Qed.

Lemma ops_ok_sample : ops_ok sample_ops.
Proof. apply ops_perform_all_ok, ops_ok_empty. Qed.

Section theorems.
Context {W : Type} {IF : IsoFormat}.

(** C8. Whatever calls were made before, a call does no more than this, however
    it ends.  Registering a workflow adds one under a new identifier, setting a
    status changes that of one workflow, and neither does anything else; every
    other call leaves the registered workflows alone and moves by internal steps,
    by requests for approval, by a decision that only the call of a person takes,
    on the request it names and before its expiry, and by the action of a workflow
    on an event: the workflow is registered and enabled, its tenant, workspace and
    trigger are those of the event, the pair was not processed, and the first
    matching policy rule allows it or requires an approval that a person gave for
    this very workflow and event. *)
Theorem operations_refine_moves (cfg : OpsConfig) (l : list (ops_call W)) (c : ops_call W) (s : Ops W) :
  ops_ok s ->
  let s1 := ops_perform_all cfg l s in
  let s2 := ops_perform cfg c s1 in
  ops_ok s2 /\ call_refines cfg c s1 s2.
Proof.
  intros Hs s1 s2. assert (ops_ok s1) as H1 by (by apply ops_perform_all_ok).
  split; [by apply ops_perform_ok | by apply perform_refines].
Qed.

(** Decided approvals are final and none is lost: after any calls an approval
    is unchanged, or it was pending and got one decision; it is approved only
    after the clock read a time before its expiry. *)
Theorem approvals_final (cfg : OpsConfig) (l : list (ops_call W)) (s : Ops W) (id : string)
    (a : ApprovalRequest) :
  ops_ok s -> dget id (op_approvals s) = Some a ->
  exists a', dget id (op_approvals (ops_perform_all cfg l s)) = Some a' /\
    (a' = a \/
     (ap_decision a = AP_PENDING /\ exists d by_ at_, d <> AP_PENDING /\
        a' = with_decision d by_ at_ a /\
        (d = AP_APPROVED ->
         exists n, (ticks (op_env s) <= n)%nat /\ (clock (op_env s) n < ap_expires_at a)%Z))).
Proof.
  intros Hs Ha. destruct (perform_all_preserves cfg l s Hs) as (_ & _ & H). by apply H.
Qed.

(** At most once per workflow and event: after [_run_workflow] ended idle,
    whatever calls follow, running the pair again does nothing at all. *)
Theorem processed_never_reruns (cfg : OpsConfig) (id : string) (event : EventEnvelope)
    (granted granted' : bool) (l : list (ops_call W)) (s s1 : Ops W) (d : LoopDecision) :
  run_workflow cfg id event granted s = (Ret d, s1) -> ld_state d = LS_IDLE -> ops_ok s1 ->
  let s2 := ops_perform_all cfg l s1 in
  run_workflow cfg id event granted' s2
    = (Ret (mkDecision LS_IDLE None None "workflow event already processed"), s2).
Proof.
  intros Hrun Hd Hs1 s2. apply run_workflow_idle in Hrun; [|done].
  destruct (perform_all_preserves cfg l s1 Hs1) as (_ & Hp & _). apply Hp in Hrun.
  unfold run_workflow, bind at 1, get. by rewrite (bool_decide_eq_true_2 _ Hrun).
Qed.

(** The bounded loop is the reference [tries]: with settings the constructors
    accept, it performs the action until it first returns, at most
    min(max_iterations, max_retries + 1) times, changes only the world and the
    identifiers drawn, and reports the result, the last exception, or no run when
    the iterations ended before the retry budget. *)
Theorem loop_attempts_reference (cfg : OpsConfig) (w : SourceWorkflow W) (event : EventEnvelope)
    (s : Ops W) (errs : list exn) (res : option pyval) (world : W) :
  new_ops_config (oc_rules cfg) (oc_ttl_seconds cfg) (oc_max_retries cfg) (oc_max_iterations cfg)
    = Ret cfg ->
  tries (Z.to_nat (Z.min (oc_max_iterations cfg) (oc_max_retries cfg + 1))) (sw_action w event)
    (op_world s) = (errs, res, world) ->
  exists d s', loop_attempts cfg (Z.to_nat (oc_max_iterations cfg)) 1 w event s = (Ret d, s') /\
    op_world s' = world /\ same_books s s' /\
    attempts_decided (oc_max_retries cfg <? oc_max_iterations cfg)%Z errs res d.
Proof.
  unfold new_ops_config. destruct (Z.leb_spec (oc_ttl_seconds cfg) 0); [done|].
  destruct (Z.ltb_spec (oc_max_retries cfg) 0); [done|].
  destruct (Z.ltb_spec (oc_max_iterations cfg) 1); [done|]. intros _ Ht.
  replace (oc_max_retries cfg <? oc_max_iterations cfg)%Z
    with (oc_max_retries cfg + 2 - 1 <=? Z.of_nat (Z.to_nat (oc_max_iterations cfg)))%Z by lia.
  apply attempts_spec; [lia | lia|]. rewrite <- Ht. do 2 f_equal. lia.
Qed.

(** Events without a route block the outbox: if no route takes the type of
    any of the first [limit] pending events, draining, however often, publishes
    nothing, performs no action and returns only empty receipts, so the events
    behind them are never reached. *)
Theorem unrouted_head_blocks (cfg : OpsConfig) (limit : Z) (n : nat) (s : Ops W)
    (rows : list event_row) (l : list OutboxEvent) :
  op_outbox s = Some rows -> outbox_pending limit rows = Ret l ->
  (forall event, event ∈ l -> unrouted s event) ->
  let s' := ops_perform_all cfg (replicate n (OC_drain limit)) s in
  same_books s s' /\ op_world s' = op_world s /\
  exists k s'', drain_outbox cfg limit s' = (Ret k, s'') /\ Forall (fun r => rc_decisions r = []) k.
Proof.
  revert s. induction n as [|n IH]; intros s Hrows Hl Hun; simpl.
  - split; [done|]. split; [done|]. unfold drain_outbox, bind at 1, get. rewrite Hrows.
    unfold bind, lift. rewrite Hl. destruct (drain_unrouted cfg l s Hun) as (k & s' & E & _ & _ & Hk).
    by exists k, s'.
  - assert (exists k s1, drain_outbox cfg limit s = (Ret k, s1) /\ same_books s s1 /\
      op_world s1 = op_world s) as (k & s1 & E & Hb & Hw).
    { unfold drain_outbox, bind at 1, get. rewrite Hrows. unfold bind, lift. rewrite Hl.
      destruct (drain_unrouted cfg l s Hun) as (k & s' & E & ? & ? & _). by exists k, s'. }
    rewrite E. destruct Hb as (B1 & B2 & B3 & B4 & B5).
    destruct (IH s1) as ((C1 & C2 & C3 & C4 & C5) & Cw & Ck); [congruence | done | |].
    { intros ev Hev. unfold unrouted. rewrite B3. by apply Hun. }
    split; [|split; [by rewrite <- Hw | done]]. unfold same_books. rewrite <- B1, <- B2, <- B3, <- B4, <- B5.
    done.
Qed.
End theorems.

(** The outbox event runs the action twice (it fails once); the approval runs it
    a third time. *)
Lemma operations_refine_moves_witness :
  let s2 := ops_perform sample_cfg (OC_approve sample_approval "ann") sample_ops in
  op_world sample_ops = 2 /\ op_world s2 = 3 /\ ops_ok s2 /\
  op_workflows s2 = op_workflows sample_ops /\
  rtc (ops_move sample_cfg (OC_approve sample_approval "ann")) sample_ops s2.
Proof.
  intros s2. split; [vm_compute; reflexivity|]. split; [vm_compute; reflexivity|].
  exact (operations_refine_moves sample_cfg sample_calls (OC_approve sample_approval "ann") empty_ops
    ops_ok_empty).
Defined.

Lemma approvals_final_witness :
  exists a, ops_ok sample_ops /\ dget sample_approval (op_approvals sample_ops) = Some a /\
    ap_decision a = AP_PENDING /\
    exists a', dget sample_approval (op_approvals
        (ops_perform_all sample_cfg [OC_reject sample_approval "ann"; OC_approve sample_approval "bob"]
           sample_ops)) = Some a' /\
      (a' = a \/
       (ap_decision a = AP_PENDING /\ exists d by_ at_, d <> AP_PENDING /\
          a' = with_decision d by_ at_ a /\
          (d = AP_APPROVED -> exists n, (ticks (op_env sample_ops) <= n)%nat /\
             (clock (op_env sample_ops) n < ap_expires_at a)%Z))).
Proof.
  eexists. split; [exact ops_ok_sample|]. split; [vm_compute; reflexivity|]. split; [reflexivity|].
  apply (approvals_final sample_cfg _ sample_ops); [exact ops_ok_sample | vm_compute; reflexivity].
Defined.

Lemma processed_never_reruns_witness :
  let env := mkEnvelope "e3" "tenant" "space" "changed" "a" [] 0%Z VNone None in
  exists d s1, run_workflow sample_cfg "wf" env false sample_ops = (Ret d, s1) /\
    ld_state d = LS_IDLE /\
    let s2 := ops_perform_all sample_cfg [OC_route env; OC_drain 10] s1 in
    run_workflow sample_cfg "wf" env true s2
      = (Ret (mkDecision LS_IDLE None None "workflow event already processed"), s2).
Proof.
  intros env. destruct (run_workflow sample_cfg "wf" env false sample_ops) as [[d|x] s1] eqn:E.
  - exists d, s1. assert (ld_state d = LS_IDLE) as Hd.
    { vm_compute in E. by injection E as <- _. }
    split; [reflexivity|]. split; [exact Hd|].
    apply (processed_never_reruns sample_cfg "wf" env false true _ sample_ops s1 d E Hd).
    replace s1 with (snd (run_workflow sample_cfg "wf" env false sample_ops)) by (by rewrite E).
    by apply (governed_ok sample_cfg (OC_route env) sample_ops);
      [apply governed_run_workflow | exact ops_ok_sample].
  - exfalso. vm_compute in E. discriminate E.
Defined.

Lemma loop_attempts_reference_witness :
  exists d s', loop_attempts sample_cfg 3 1 sample_workflow approval_event empty_ops = (Ret d, s') /\
    op_world s' = 2 /\ same_books empty_ops s' /\
    attempts_decided true [Exn RuntimeError "boom"] (Some (VStr "done")) d.
Proof.
  apply (loop_attempts_reference sample_cfg sample_workflow approval_event empty_ops
           [Exn RuntimeError "boom"] (Some (VStr "done")) 2); vm_compute; reflexivity.
Defined.

(** An event nobody routes stays in front of one that has a workflow. *)
Lemma unrouted_head_blocks_witness :
  let s := ops_perform_all sample_cfg
    [OC_register sample_workflow; OC_append (routed_event "e1" "unknown");
     OC_append (routed_event "e2" "changed")] empty_ops in
  exists rows, op_outbox s = Some rows /\ outbox_pending 1 rows = Ret [routed_event "e1" "unknown"] /\
    let s' := ops_perform_all sample_cfg (replicate 5 (OC_drain 1)) s in
    same_books s s' /\ op_world s' = op_world s /\
    exists k s'', drain_outbox sample_cfg 1 s' = (Ret k, s'') /\ Forall (fun r => rc_decisions r = []) k.
Proof.
  intros s. exists (default [] (op_outbox s)). split; [vm_compute; reflexivity|]. split; [vm_compute; reflexivity|].
  apply (unrouted_head_blocks sample_cfg 1 5 s (default [] (op_outbox s)) [routed_event "e1" "unknown"]);
    [vm_compute; reflexivity | vm_compute; reflexivity|].
  intros event He r Hr. apply list_elem_of_singleton in He as ->.
  assert (dvalues (op_routes s) = [mkRoute "wf" "changed" None "wf"]) as Er by (vm_compute; reflexivity).
  rewrite Er in Hr. apply list_elem_of_singleton in Hr as ->. discriminate.
Defined.
