(* ===== verification/AutonomousRuns.v ===== *)
(** * Durable autonomous runs

    [autonomy/durable.py], [autonomy/durable_approvals.py],
    [autonomy/recovery_store.py] and [autonomy/side_effects.py].  A table is its
    list of rows; each function below is what one transaction does to the tables
    at a reading of the database clock.  A method commits before it decodes the
    row it returns, so the decoding is a separate function. *)

From stdpp Require Import base gmap strings list.
From Stdlib Require Import ZArith Lia.
From S2P Require Import Prelude Uuid Json Jsonb Fencing Automation.
Local Open Scope py_scope.

(** ** What the code relies on outside the repository *)

(** [json.loads] of a text that is no JSONB column. *)
Class JsonParse := json_parse : string -> outcome pyval.

(** How the server reads a parameter for a [UUID] and for a [TEXT] column. *)
Class PgInputs := {
  pg_uuid : string -> outcome uuid;
  pg_text : pyval -> outcome (option string) }.

Class PgInputsLaws `{PI : PgInputs} := {
  pg_uuid_str u : uuid_ok u -> pg_uuid (uuid_str u) = Ret u;
  pg_text_none : pg_text VNone = Ret None;
  pg_text_str s : plain_string s = true -> pg_text (VStr s) = Ret (Some s) }.

(** ** Rows *)

Inductive DurableRunStatus :=
  | DR_RECEIVED | DR_RUNNING | DR_WAITING_APPROVAL | DR_RECOVERING | DR_COMPLETED | DR_FAILED
  | DR_STOPPED.

#[export] Instance DurableRunStatus_eq_dec : EqDecision DurableRunStatus.
Proof. solve_decision. Defined.

Record DurableWorkflowRun := mkRun {
  dr_run_id : uuid;
  dr_tenant_id : string;
  dr_workspace_id : string;
  dr_workflow_id : string;
  dr_workflow_version : string;
  dr_event_id : string;
  dr_status : DurableRunStatus;
  dr_attempt : Z;
  dr_checkpoint : pyval;
  dr_result : pyval;
  dr_error : pyval;
  dr_idempotency_key : string }.

(** What identifies the event of a run, and the key [new] makes of it. *)
Abbreviation run_identity := (string * string * string * string * string)%type.

Definition default_key (k : run_identity) : string :=
  let '(tenant, workspace, workflow, version, event) := k in
  tenant +:+ ":" +:+ workspace +:+ ":" +:+ workflow +:+ ":" +:+ version +:+ ":" +:+ event.

(** [DurableWorkflowRun.new] without a key. *)
Definition new_run (tenant workspace workflow version event : string) (e : Env) :
    DurableWorkflowRun * Env :=
  let '(id, e) := uuid4 e in
  (mkRun id tenant workspace workflow version event DR_RECEIVED 0 VNone VNone VNone
     (default_key (tenant, workspace, workflow, version, event)), e).

(** A row of [autonomous_workflow_runs]; the status column holds what the code
    writes. *)
Record run_row := mkRunRow {
  rr_run_id : uuid;
  rr_identity : run_identity;
  rr_status : DurableRunStatus;
  rr_attempt : Z;
  rr_checkpoint : json_text;
  rr_result : option json_text;
  rr_error : option json_text;
  rr_idempotency_key : string;
  rr_updated_at : datetime;
  rr_last_heartbeat_at : datetime;
  rr_recovery_count : Z;
  rr_next_attempt_at : option datetime }.

(** A row of [autonomous_approvals]. *)
Record approval_row := mkApprovalRow {
  aw_approval_id : uuid;
  aw_tenant_id : string;
  aw_workspace_id : string;
  aw_workflow_id : string;
  aw_event_id : string;
  aw_reason : string;
  aw_decision : ApprovalDecision;
  aw_created_at : datetime;
  aw_expires_at : datetime;
  aw_decided_by : option string;
  aw_decided_at : option datetime;
  aw_event_payload : json_text;
  aw_source_id : option string;
  aw_event_type : option string;
  aw_run_id : option uuid }.

Inductive effect_status := EF_PREPARED | EF_PROCESSING | EF_COMPLETED | EF_FAILED.

#[export] Instance effect_status_eq_dec : EqDecision effect_status.
Proof. solve_decision. Defined.

(** A row of [autonomous_side_effect_ledger]. *)
Record effect_row := mkEffectRow {
  er_effect_id : uuid;
  er_tenant_id : string;
  er_workspace_id : string;
  er_run_id : uuid;
  er_invocation_id : string;
  er_idempotency_key : string;
  er_capability_id : string;
  er_request : json_text;
  er_status : effect_status;
  er_result : option json_text;
  er_error : option json_text;
  er_completed_at : option datetime }.

Record SideEffectLedgerEntry := mkLedgerEntry {
  le_effect_id : uuid;
  le_tenant_id : string;
  le_workspace_id : string;
  le_run_id : uuid;
  le_invocation_id : string;
  le_idempotency_key : string;
  le_capability_id : string;
  le_request : dict;
  le_status : effect_status;
  le_result : pyval;
  le_error : pyval;
  le_completed_at : option datetime }.

(** The tables; [ad_claims] is [autonomous_workflow_idempotency]. *)
Record auto_db := mkAutoDb {
  ad_runs : list run_row;
  ad_claims : gmap string (string * string * uuid);
  ad_approvals : list approval_row;
  ad_effects : list effect_row;
  ad_leases : lease_table }.

Definition with_runs t (db : auto_db) : auto_db :=
  mkAutoDb t (ad_claims db) (ad_approvals db) (ad_effects db) (ad_leases db).
Definition with_claims t (db : auto_db) : auto_db :=
  mkAutoDb (ad_runs db) t (ad_approvals db) (ad_effects db) (ad_leases db).
Definition with_approvals t (db : auto_db) : auto_db :=
  mkAutoDb (ad_runs db) (ad_claims db) t (ad_effects db) (ad_leases db).
Definition with_effects t (db : auto_db) : auto_db :=
  mkAutoDb (ad_runs db) (ad_claims db) (ad_approvals db) t (ad_leases db).
Definition with_leases t (db : auto_db) : auto_db :=
  mkAutoDb (ad_runs db) (ad_claims db) (ad_approvals db) (ad_effects db) t.

Definition run_violation {A} : outcome A :=
  raise (OtherException "UniqueViolation") "duplicate key value violates unique constraint".

(** An [INTEGER] parameter. *)
Definition pg_integer (z : Z) : outcome Z :=
  if ((- 2147483648 <=? z) && (z <=? 2147483647))%Z then Ret z
  else raise (OtherException "NumericValueOutOfRange") "integer out of range".

(** [UPDATE ... SET ... WHERE p] *)
Definition update_where {R} (p : R -> bool) (f : R -> R) (l : list R) : list R :=
  map (fun r => if p r then f r else r) l.

(** ** JSON columns *)

Section rows.
Context {JB : Jsonb} {JP : JsonParse} {OS : ObjStr} {PI : PgInputs}.

(** [_payload], written to a JSONB column. *)
Definition json_column (v : pyval) : outcome json_text :=
  t <-? dumps (stringify v) ;; jsonb_in t.

(** A parameter that is only passed when it is not [None], and its cast. *)
Definition optional_payload (v : pyval) : outcome (option json_text) :=
  match v with
  | VNone => Ret None
  | _ => t <-? dumps (stringify v) ;; Ret (Some t)
  end.
Definition optional_cast (t : option json_text) : outcome (option json_text) :=
  match t with
  | Some t => u <-? jsonb_in t ;; Ret (Some u)
  | None => Ret None
  end.

(** [value if not isinstance(value, str) else json.loads(value)] *)
Definition decode_column (c : option json_text) : outcome pyval :=
  match c with
  | Some t => match jsonb_out t with VStr s => json_parse s | v => Ret v end
  | None => Ret VNone
  end.

(** [checkpoint if isinstance(checkpoint, dict) else json.loads(checkpoint or "{}")] *)
Definition decode_object (t : json_text) : outcome pyval :=
  match jsonb_out t with
  | VDict d => Ret (VDict d)
  | v => if negb (truthy v) then Ret (VDict [])
         else match v with
              | VStr s => json_parse s
              | _ => raise TypeError "the JSON object must be str, bytes or bytearray"
              end
  end.

(** ** [PostgresWorkflowRunRepository] *)

(** [_row] *)
Definition decode_run (r : run_row) : outcome DurableWorkflowRun :=
  checkpoint <-? decode_object (rr_checkpoint r) ;;
  result <-? decode_column (rr_result r) ;;
  error <-? decode_column (rr_error r) ;;
  let '(tenant, workspace, workflow, version, event) := rr_identity r in
  Ret (mkRun (rr_run_id r) tenant workspace workflow version event (rr_status r) (rr_attempt r)
         checkpoint result error (rr_idempotency_key r)).

Definition run_key (r : DurableWorkflowRun) : run_identity :=
  (dr_tenant_id r, dr_workspace_id r, dr_workflow_id r, dr_workflow_version r, dr_event_id r).

Definition run_by_id (id : uuid) (l : list run_row) : option run_row :=
  List.find (fun r => (rr_run_id r =? id)%N) l.
Definition run_by_event (k : run_identity) (l : list run_row) : option run_row :=
  List.find (fun r => bool_decide (rr_identity r = k)) l.

(** The [INSERT] of [create]: whether a row came back. *)
Definition insert_run (now : datetime) (r : DurableWorkflowRun) (db : auto_db) :
    outcome (bool * auto_db) :=
  attempt <-? pg_integer (dr_attempt r) ;;
  checkpoint <-? json_column (if truthy (dr_checkpoint r) then dr_checkpoint r else VDict []) ;;
  match run_by_event (run_key r) (ad_runs db) with
  | Some _ => Ret (false, db)
  | None =>
      if existsb (fun x => (rr_run_id x =? dr_run_id r)%N ||
                           String.eqb (rr_idempotency_key x) (dr_idempotency_key r)) (ad_runs db)
      then run_violation
      else Ret (true, with_runs (ad_runs db ++
             [mkRunRow (dr_run_id r) (run_key r) (dr_status r) attempt checkpoint None None
                (dr_idempotency_key r) now now 0 None]) db)
  end.

(** The columns [transition] sets. *)
Record run_update := mkUpdate {
  up_status : DurableRunStatus;
  up_attempt : option Z;
  up_checkpoint : option json_text;
  up_result : option json_text;
  up_error : option json_text }.

(** [updates] and [params] of [transition]. *)
Definition transition_columns (status : DurableRunStatus) (attempt : option Z)
    (checkpoint : option dict) (result : pyval) (error : option dict) : outcome run_update :=
  c <-? optional_payload (from_option VDict VNone checkpoint) ;;
  r <-? optional_payload result ;;
  e <-? optional_payload (from_option VDict VNone error) ;;
  Ret (mkUpdate status attempt c r e).

(** The casts of the [SET] clause. *)
Definition cast_columns (u : run_update) : outcome run_update :=
  c <-? optional_cast (up_checkpoint u) ;;
  r <-? optional_cast (up_result u) ;;
  e <-? optional_cast (up_error u) ;;
  Ret (mkUpdate (up_status u) (up_attempt u) c r e).

(** The [SET] clause; the heartbeat is not among the columns. *)
Definition apply_update (now : datetime) (u : run_update) (r : run_row) : run_row :=
  mkRunRow (rr_run_id r) (rr_identity r) (up_status u) (default (rr_attempt r) (up_attempt u))
    (default (rr_checkpoint r) (up_checkpoint u))
    (match up_result u with Some t => Some t | None => rr_result r end)
    (match up_error u with Some t => Some t | None => rr_error r end)
    (rr_idempotency_key r) now (rr_last_heartbeat_at r) (rr_recovery_count r) (rr_next_attempt_at r).

(** The [UPDATE] of [transition]. *)
Definition update_run (now : datetime) (id : uuid) (u : run_update) (db : auto_db) :
    outcome (run_row * auto_db) :=
  u <-? cast_columns u ;;
  match run_by_id id (ad_runs db) with
  | Some r =>
      _ <-? pg_integer (default 0%Z (up_attempt u)) ;;
      Ret (apply_update now u r,
           with_runs (update_where (fun x => (rr_run_id x =? id)%N) (apply_update now u)
             (ad_runs db)) db)
  | None => raise KeyError ("workflow run not found: " +:+ uuid_str id)
  end.

(** The transaction of [FencedPostgresWorkflowRunRepository.transition]. *)
Definition fenced_update (now : datetime) (l : WorkerLease) (id : uuid) (u : run_update)
    (db : auto_db) : outcome (run_row * auto_db) :=
  _ <-? assert_current now l (ad_leases db) ;; update_run now id u db.

(** [claim_idempotency] *)
Definition claim_key (r : DurableWorkflowRun) (db : auto_db) : outcome (bool * auto_db) :=
  match ad_claims db !! dr_idempotency_key r with
  | Some _ => Ret (false, db)
  | None => Ret (true, with_claims (<[dr_idempotency_key r :=
                   (dr_tenant_id r, dr_workspace_id r, dr_run_id r)]> (ad_claims db)) db)
  end.

(** ** [WorkflowRecoverySweeper] *)

Record SweeperConfig := mkSweeper { sv_stale_after_seconds : Z; sv_max_recoveries : Z }.

Definition new_sweeper (stale max_recoveries : Z) : outcome SweeperConfig :=
  if (stale <=? 0)%Z then raise ValueError "stale_after_seconds must be positive"
  else if (max_recoveries <? 1)%Z then raise ValueError "max_recoveries must be positive"
  else Ret (mkSweeper stale max_recoveries).

(** The [WHERE] clause of [sweep]. *)
Definition abandoned (c : SweeperConfig) (now : datetime) (r : run_row) : bool :=
  bool_decide (rr_status r = DR_RUNNING \/ rr_status r = DR_RECOVERING) &&
  (rr_last_heartbeat_at r <? now - sv_stale_after_seconds c * 1000000)%Z &&
  (rr_recovery_count r <? sv_max_recoveries c)%Z.

Definition heartbeat_le (a b : run_row) : bool :=
  (rr_last_heartbeat_at a <=? rr_last_heartbeat_at b)%Z.

(** The rows the [SELECT] returns; [locked]: those other transactions hold. *)
Definition sweep_candidates (c : SweeperConfig) (locked : uuid -> bool) (now : datetime) (limit : Z)
    (l : list run_row) : list run_row :=
  take (Z.to_nat limit)
    (List.filter (fun r => negb (locked (rr_run_id r)))
       (order_by heartbeat_le (List.filter (abandoned c now) l))).

(** The [UPDATE] of [sweep]. *)
Definition mark_recovering (now : datetime) (r : run_row) : run_row :=
  mkRunRow (rr_run_id r) (rr_identity r) DR_RECOVERING (rr_attempt r) (rr_checkpoint r) (rr_result r)
    (rr_error r) (rr_idempotency_key r) now now (rr_recovery_count r + 1)%Z (Some now).

(** The loop of [sweep] over the selected runs; it decodes inside the
    transaction. *)
Fixpoint sweep_loop (now : datetime) (ids : list uuid) (l : list run_row) :
    outcome (list DurableWorkflowRun * list run_row) :=
  match ids with
  | [] => Ret ([], l)
  | id :: ids =>
      match run_by_id id l with
      | Some r =>
          count <-? pg_integer (rr_recovery_count r + 1) ;;
          run <-? decode_run (mark_recovering now r) ;;
          k <-? sweep_loop now ids
                  (update_where (fun x => (rr_run_id x =? id)%N) (mark_recovering now) l) ;;
          Ret (run :: fst k, snd k)
      | None => sweep_loop now ids l
      end
  end.

Definition sweep (c : SweeperConfig) (locked : uuid -> bool) (now : datetime) (limit : Z)
    (db : auto_db) : outcome (list DurableWorkflowRun * auto_db) :=
  if (limit <? 1)%Z then raise ValueError "limit must be positive"
  else
    k <-? sweep_loop now (rr_run_id <$> sweep_candidates c locked now limit (ad_runs db))
            (ad_runs db) ;;
    Ret (fst k, with_runs (snd k) db).

(** [WorkflowRecoverySweeper.resume], for the run that [get] returned. *)
Definition sweeper_resume (id : uuid) (db : auto_db) : outcome dict :=
  match run_by_id id (ad_runs db) with
  | None => raise KeyError ("workflow run not found: " +:+ uuid_str id)
  | Some r =>
      run <-? decode_run r ;;
      if negb (bool_decide (dr_status run = DR_RECOVERING \/ dr_status run = DR_RUNNING)) then
        raise ValueError "workflow run is not resumable"
      else if negb (truthy (dr_checkpoint run)) then Ret []
      else match dr_checkpoint run with
           | VDict d => Ret d
           | _ => raise TypeError "the checkpoint is no mapping"
           end
  end.

(** ** [PostgresApprovalStore] *)

(** [create] *)
Definition insert_approval (r : ApprovalRequest) (run : option uuid) (db : auto_db) :
    outcome (unit * auto_db) :=
  t <-? dumps (from_option (fun ev => VDict (ee_payload ev)) (VDict []) (ap_event r)) ;;
  id <-? pg_uuid (ap_approval_id r) ;;
  payload <-? jsonb_in t ;;
  source <-? match ap_event r with Some ev => pg_text (ee_source_id ev) | None => Ret None end ;;
  if existsb (fun x => (aw_approval_id x =? id)%N) (ad_approvals db) then run_violation
  else Ret (tt, with_approvals (ad_approvals db ++
         [mkApprovalRow id (ap_tenant_id r) (ap_workspace_id r) (ap_workflow_id r) (ap_event_id r)
            (ap_reason r) AP_PENDING (ap_created_at r) (ap_expires_at r) None None payload source
            (ee_event_type <$> ap_event r) run]) db).

(** [_row]; an event that is rebuilt reads the clock for its [created_at]. *)
Definition decode_approval (r : approval_row) (e : Env) : outcome ApprovalRequest * Env :=
  match decode_object (aw_event_payload r) with
  | Raise x => (Raise x, e)
  | Ret payload =>
      let '(event, e) :=
        match aw_event_type r with
        | None => (Ret None, e)
        | Some type =>
            let '(created, e) := utc_now e in
            (match payload with
             | VDict d => Ret (Some (mkEnvelope (aw_event_id r) (aw_tenant_id r) (aw_workspace_id r) type
                                       (aw_event_id r) d created
                                       (from_option VStr VNone (aw_source_id r)) None))
             | _ => raise TypeError "the event payload is no mapping"
             end, e)
        end in
      (ev <-? event ;;
       Ret (mkApproval (uuid_str (aw_approval_id r)) (aw_tenant_id r) (aw_workspace_id r)
              (aw_workflow_id r) (aw_event_id r) (aw_reason r) (aw_created_at r) (aw_expires_at r) ev
              (aw_decision r) (aw_decided_by r) (aw_decided_at r)), e)
  end.

Definition approval_by_id (id : uuid) (l : list approval_row) : option approval_row :=
  List.find (fun r => (aw_approval_id r =? id)%N) l.

(** [get]: the row. *)
Definition select_approval (id : string) (db : auto_db) : outcome (option approval_row) :=
  u <-? pg_uuid id ;; Ret (approval_by_id u (ad_approvals db)).

(** [ORDER BY created_at DESC] *)
Definition newer_first (a b : approval_row) : bool := (aw_created_at b <=? aw_created_at a)%Z.

(** [get_by_event]: the row. *)
Definition pending_by_event (event : string) (db : auto_db) : option approval_row :=
  head (order_by newer_first
    (List.filter (fun r => String.eqb (aw_event_id r) event && bool_decide (aw_decision r = AP_PENDING))
       (ad_approvals db))).

Definition decide_row (d : ApprovalDecision) (by_ : option string) (at_ : option datetime)
    (r : approval_row) : approval_row :=
  mkApprovalRow (aw_approval_id r) (aw_tenant_id r) (aw_workspace_id r) (aw_workflow_id r)
    (aw_event_id r) (aw_reason r) d (aw_created_at r) (aw_expires_at r) by_ at_ (aw_event_payload r)
    (aw_source_id r) (aw_event_type r) (aw_run_id r).

(** The transaction of [decide] at the Python time [now]: the row, or [None] after
    the [UPDATE] that marks an expired request, which commits before the error. *)
Definition decide_approval (now : datetime) (id : string) (d : ApprovalDecision) (actor : string)
    (db : auto_db) : outcome (option approval_row * auto_db) :=
  u <-? pg_uuid id ;;
  match approval_by_id u (ad_approvals db) with
  | Some r =>
      if bool_decide (aw_decision r = AP_PENDING) then
        if (now <? aw_expires_at r)%Z then
          let f := decide_row d (Some actor) (Some now) in
          Ret (Some (f r), with_approvals (update_where (fun x => (aw_approval_id x =? u)%N) f
                             (ad_approvals db)) db)
        else
          Ret (None, with_approvals
                 (update_where (fun x => (aw_approval_id x =? u)%N)
                    (fun x => decide_row AP_EXPIRED (aw_decided_by x) (aw_decided_at x) x)
                    (ad_approvals db)) db)
      else Ret (None, db)
  | None => Ret (None, db)
  end.

(** ** [PostgresSideEffectLedger] *)

Definition effect_by_key (k : string) (l : list effect_row) : option effect_row :=
  List.find (fun r => String.eqb (er_idempotency_key r) k) l.

(** [_row] on a row of twelve columns. *)
Definition decode_effect (r : effect_row) : outcome SideEffectLedgerEntry :=
  request <-? decode_column (Some (er_request r)) ;;
  result <-? decode_column (er_result r) ;;
  error <-? decode_column (er_error r) ;;
  match request with
  | VDict d => Ret (mkLedgerEntry (er_effect_id r) (er_tenant_id r) (er_workspace_id r) (er_run_id r)
                      (er_invocation_id r) (er_idempotency_key r) (er_capability_id r) d (er_status r)
                      result error (er_completed_at r))
  | _ => raise TypeError "the request is no mapping"
  end.

(** What [fetchone] left in [row]. *)
Inductive fetched :=
  | FullRow (r : effect_row)
  | ShortRow (id : uuid) (status : effect_status)  (** [RETURNING effect_id, status] *)
  | NoRow.

(** The transaction of [prepare]. *)
Definition prepare_effect (id : uuid) (tenant workspace : string) (run : uuid)
    (invocation key capability : string) (request : dict) (db : auto_db) :
    outcome (fetched * auto_db) :=
  t <-? json_column (VDict request) ;;
  match effect_by_key key (ad_effects db) with
  | Some r => Ret (FullRow r, db)
  | None =>
      if existsb (fun x => (er_effect_id x =? id)%N) (ad_effects db) then run_violation
      else Ret (ShortRow id EF_PREPARED, with_effects (ad_effects db ++
             [mkEffectRow id tenant workspace run invocation key capability t EF_PREPARED None None None])
             db)
  end.

(** The end of [prepare]: [_row] reads twelve columns of the row. *)
Definition prepared_entry (f : fetched) : outcome SideEffectLedgerEntry :=
  match f with
  | FullRow r => decode_effect r
  | ShortRow _ _ => raise (OtherException "IndexError") "tuple index out of range"
  | NoRow => raise RuntimeError "side-effect ledger entry disappeared"
  end.

Definition completed_row (now : datetime) (result : json_text) (r : effect_row) : effect_row :=
  mkEffectRow (er_effect_id r) (er_tenant_id r) (er_workspace_id r) (er_run_id r) (er_invocation_id r)
    (er_idempotency_key r) (er_capability_id r) (er_request r) EF_COMPLETED (Some result) (er_error r)
    (Some (default now (er_completed_at r))).

(** The transaction of [complete]. *)
Definition complete_effect (now : datetime) (key : string) (result : pyval) (db : auto_db) :
    outcome (effect_row * auto_db) :=
  t <-? json_column result ;;
  match effect_by_key key (ad_effects db) with
  | Some r =>
      if bool_decide (er_status r = EF_COMPLETED) then Ret (r, db)
      else Ret (completed_row now t r,
                with_effects (update_where (fun x => String.eqb (er_idempotency_key x) key)
                  (completed_row now t) (ad_effects db)) db)
  | None => raise KeyError ("side-effect not found: " +:+ key)
  end.
End rows.
