(* ===== verification/AutonomousEngine.v ===== *)
(** * The durable engine: [autonomy/engine.py]

    [DurableAutonomousExecutionEngine] and the repository methods it calls, as
    one worker runs them.  Other workers share the database: before the [n]-th
    transaction of this worker they may have changed the tables, and the server
    clock reads its [n]-th time.  A ghost field logs what each of its transactions
    found and left.  The action a caller supplies works on a world
    [W]; it cannot reach the engine's tables. *)

From stdpp Require Import base gmap strings list.
From Stdlib Require Import ZArith Lia.
From S2P Require Import Prelude Uuid Json Jsonb Fencing Automation Operations AutonomousRuns.
Local Open Scope py_scope.

(** Everything outside this worker. *)
Record Others := mkOthers {
  ot_moves : nat -> auto_db -> auto_db;
  ot_time : nat -> datetime }.

(** A transaction as the server saw it: its time, and the tables around it. *)
Record transaction := mkTx {
  tx_time : datetime;
  tx_before : auto_db;
  tx_after : auto_db }.

Record EngineConfig := mkEngine {
  en_rules : list PolicyRule;
  en_lease_ttl : Z }.

Record DurableExecutionReceipt := mkDurableReceipt {
  de_run : DurableWorkflowRun;
  de_approval_id : option string;
  de_resumed : bool }.

Section engine.
Context {JB : Jsonb} {JP : JsonParse} {OS : ObjStr} {PI : PgInputs}.
Context {W : Type}.

(** One worker: the number of its transactions so far, the tables, its clock and
    UUIDs, the world.  The log is a ghost: what each of its transactions found
    and left, which the code does not record and no operation reads. *)
Record Worker := mkWorker {
  wk_step : nat;
  wk_db : auto_db;
  wk_env : Env;
  wk_world : W;
  wk_log : list transaction }.

Variable o : Others.
Variable cfg : EngineConfig.

(** One transaction: the others move first; an exception rolls back. *)
Definition on_db {A} (f : datetime -> auto_db -> outcome (A * auto_db)) : M Worker A := fun s =>
  let n := wk_step s in
  let db := ot_moves o n (wk_db s) in
  let committed db' := mkWorker (S n) db' (wk_env s) (wk_world s)
                         (wk_log s ++ [mkTx (ot_time o n) db db']) in
  match f (ot_time o n) db with
  | Ret (a, db') => (Ret a, committed db')
  | Raise x => (Raise x, committed db)
  end.

(** A transaction that only reads. *)
Definition query {A} (f : auto_db -> outcome A) : M Worker A :=
  on_db (fun _ db => a <-? f db ;; Ret (a, db)).

Definition wk_env_op {A} (f : Env -> A * Env) : M Worker A := fun s =>
  let '(a, e) := f (wk_env s) in (Ret a, mkWorker (wk_step s) (wk_db s) e (wk_world s) (wk_log s)).

(** ** The repository *)

Definition runs_get_by_event (k : run_identity) : M Worker (option DurableWorkflowRun) :=
  row <- query (fun db => Ret (run_by_event k (ad_runs db))) ;;
  match row with
  | Some r => run <- lift (decode_run r) ;; ret (Some run)
  | None => ret None
  end.

Definition runs_get (id : uuid) : M Worker (option DurableWorkflowRun) :=
  row <- query (fun db => Ret (run_by_id id (ad_runs db))) ;;
  match row with
  | Some r => run <- lift (decode_run r) ;; ret (Some run)
  | None => ret None
  end.

(** [create] *)
Definition runs_create (r : DurableWorkflowRun) : M Worker DurableWorkflowRun :=
  inserted <- on_db (fun now => insert_run now r) ;;
  if inserted : bool then ret r
  else
    existing <- runs_get_by_event (run_key r) ;;
    match existing with
    | Some run => ret run
    | None => lift (raise RuntimeError "workflow run insert conflicted but existing run was not found")
    end.

(** [PostgresWorkflowRunRepository.transition] *)
Definition runs_transition (id : uuid) (status : DurableRunStatus) (attempt : option Z)
    (checkpoint : option dict) (result : pyval) (error : option dict) : M Worker DurableWorkflowRun :=
  u <- lift (transition_columns status attempt checkpoint result error) ;;
  row <- on_db (fun now => update_run now id u) ;;
  lift (decode_run row).

(** [FencedPostgresWorkflowRunRepository.transition] *)
Definition fenced_transition (l : WorkerLease) (id : uuid) (status : DurableRunStatus)
    (attempt : option Z) (checkpoint : option dict) (result : pyval) (error : option dict) :
    M Worker DurableWorkflowRun :=
  u <- lift (transition_columns status attempt checkpoint result error) ;;
  row <- on_db (fun now => fenced_update now l id u) ;;
  lift (decode_run row).

Definition claim_idempotency (r : DurableWorkflowRun) : M Worker bool :=
  on_db (fun _ => claim_key r).

(** [sweep] *)
Definition runs_sweep (c : SweeperConfig) (locked : uuid -> bool) (limit : Z) :
    M Worker (list DurableWorkflowRun) :=
  on_db (fun now => sweep c locked now limit).

(** ** Leases *)

(** The Python clock is an arbitrary stream: [claim] reads it twice at most. *)
Definition lease_claim (id : uuid) (worker : string) : M Worker (option WorkerLease) :=
  py1 <- wk_env_op utc_now ;;
  py2 <- wk_env_op utc_now ;;
  on_db (fun now db => r <-? claim (en_lease_ttl cfg) now py1 py2 id worker (ad_leases db) ;;
                       Ret (fst r, with_leases (snd r) db)).

Definition lease_release (l : WorkerLease) : M Worker unit :=
  on_db (fun _ db => Ret (tt, with_leases (release l (ad_leases db)) db)).

Definition lease_renew (l : WorkerLease) : M Worker WorkerLease :=
  on_db (fun now db => r <-? renew (en_lease_ttl cfg) now l (ad_leases db) ;;
                       Ret (fst r, with_leases (snd r) db)).

Definition lease_assert (l : WorkerLease) : M Worker unit :=
  on_db (fun now db => _ <-? assert_current now l (ad_leases db) ;; Ret (tt, db)).

(** ** Approvals *)

Definition approvals_create (r : ApprovalRequest) (run : option uuid) : M Worker ApprovalRequest :=
  on_db (fun _ => insert_approval r run) ;;; ret r.

Definition read_approval (r : option approval_row) : M Worker (option ApprovalRequest) :=
  match r with
  | Some r => fun s =>
      let '(a, e) := decode_approval r (wk_env s) in
      (x <-? a ;; Ret (Some x), mkWorker (wk_step s) (wk_db s) e (wk_world s) (wk_log s))
  | None => ret None
  end.

Definition approvals_get (id : string) : M Worker (option ApprovalRequest) :=
  row <- query (select_approval id) ;; read_approval row.

Definition approvals_get_by_event (event : string) : M Worker (option ApprovalRequest) :=
  row <- query (fun db => Ret (pending_by_event event db)) ;; read_approval row.

(** [decide] *)
Definition approvals_decide (id : string) (d : ApprovalDecision) (actor : string) :
    M Worker ApprovalRequest :=
  now <- wk_env_op utc_now ;;
  row <- on_db (fun _ => decide_approval now id d actor) ;;
  a <- read_approval row ;;
  match a with
  | Some a => ret a
  | None => lift (raise ValueError "approval is missing, already decided, or expired")
  end.

(** [PostgresApprovalStore.resume_event] *)
Definition approvals_resume_event (id : string) : M Worker EventEnvelope :=
  a <- approvals_get id ;;
  match a with
  | None => lift (raise KeyError "approval not found")
  | Some a =>
      if negb (bool_decide (ap_decision a = AP_APPROVED)) then
        lift (raise ValueError "approval is not approved")
      else
        match ap_event a with
        | Some ev => ret ev
        | None =>
            created <- wk_env_op utc_now ;;
            ret (mkEnvelope (ap_event_id a) (ap_tenant_id a) (ap_workspace_id a) "approval.resumed"
                   (ap_event_id a) [] created VNone None)
        end
  end.

(** [FencedApprovalResume.resume_event] *)
Definition fenced_resume_event (l : WorkerLease) (id : string) : M Worker EventEnvelope :=
  lease_assert l ;;; approvals_resume_event id.

(** ** The ledger *)

(** [prepare] *)
Definition effects_prepare (tenant workspace : string) (run : uuid)
    (invocation key capability : string) (request : dict) : M Worker SideEffectLedgerEntry :=
  id <- wk_env_op uuid4 ;;
  f <- on_db (fun _ => prepare_effect id tenant workspace run invocation key capability request) ;;
  lift (prepared_entry f).

(** [complete] *)
Definition effects_complete (key : string) (result : pyval) : M Worker SideEffectLedgerEntry :=
  row <- on_db (fun now => complete_effect now key result) ;; lift (decode_effect row).

Definition effects_get (key : string) : M Worker (option SideEffectLedgerEntry) :=
  row <- query (fun db => Ret (effect_by_key key (ad_effects db))) ;;
  match row with
  | Some r => en <- lift (decode_effect r) ;; ret (Some en)
  | None => ret None
  end.

(** [prepare_side_effect] *)
Definition prepare_side_effect (l : WorkerLease) (tenant workspace : string) (run : uuid)
    (invocation key capability : string) (request : dict) : M Worker SideEffectLedgerEntry :=
  lease_assert l ;;;
  effects_prepare tenant workspace run invocation key capability request.

(** ** The engine *)

Variable execute : SourceWorkflow W -> EventEnvelope -> M W pyval.

Definition on_world {A} (m : M W A) : M Worker A := fun s =>
  let '(r, w) := m (wk_world s) in (r, mkWorker (wk_step s) (wk_db s) (wk_env s) w (wk_log s)).

(** Release the lease and return the receipt. *)
Definition finish (l : WorkerLease) (r : DurableWorkflowRun) (approval : option string) :
    M Worker DurableExecutionReceipt :=
  lease_release l ;;; ret (mkDurableReceipt r approval false).

(** The approval [_execute] asks for: valid for an hour, under the run's id. *)
Definition engine_approval (run : DurableWorkflowRun) (event : EventEnvelope) (reason : string)
    (now : datetime) : ApprovalRequest :=
  mkApproval (uuid_str (dr_run_id run)) (dr_tenant_id run) (dr_workspace_id run) (dr_workflow_id run)
    (dr_event_id run) reason now (now + 3600000000)%Z (Some event) AP_PENDING None None.

(** The branch of [_execute] that waits for a person. *)
Definition await_approval (run : DurableWorkflowRun) (event : EventEnvelope) (l : WorkerLease)
    (reason : string) : M Worker DurableExecutionReceipt :=
  pending <- approvals_get_by_event (dr_event_id run) ;;
  approval <- match pending with
              | Some a => ret a
              | None =>
                  now <- wk_env_op utc_now ;;
                  approvals_create (engine_approval run event reason now) (Some (dr_run_id run))
              end ;;
  waiting <- fenced_transition l (dr_run_id run) DR_WAITING_APPROVAL None
               (Some [("phase", VStr "approval"); ("approval_id", VStr (ap_approval_id approval))])
               VNone None ;;
  finish l waiting (Some (ap_approval_id approval)).

(** The branch of [_execute] that performs the action. *)
Definition perform_run (run : DurableWorkflowRun) (w : SourceWorkflow W) (event : EventEnvelope)
    (l : WorkerLease) : M Worker DurableExecutionReceipt :=
  let phase name := Some [("phase", VStr name); ("event_id", VStr (ee_event_id event))] in
  running <- fenced_transition l (dr_run_id run) DR_RUNNING None (phase "execution") VNone None ;;
  fun s =>
    match on_world (execute w event) s with
    | (Raise x, s) =>
        (failed <- fenced_transition l (dr_run_id run) DR_RECOVERING (Some (dr_attempt running + 1)%Z)
                     (phase "recovery") VNone
                     (Some [("type", VStr (class_name (exn_cls x))); ("message", VStr (exn_msg x))]) ;;
         finish l failed None) s
    | (Ret result, s) =>
        (completed <- fenced_transition l (dr_run_id run) DR_COMPLETED None (phase "completed") result
                        None ;;
         finish l completed None) s
    end.

(** [_execute] *)
Definition execute_run (run : DurableWorkflowRun) (w : SourceWorkflow W) (event : EventEnvelope)
    (l : WorkerLease) (granted : bool) : M Worker DurableExecutionReceipt :=
  v <- lift (policy_evaluate (en_rules cfg) (event_context event)) ;;
  if bool_decide (pv_outcome v = DENY) then
    stopped <- fenced_transition l (dr_run_id run) DR_STOPPED None None VNone None ;;
    finish l stopped None
  else if bool_decide (pv_outcome v = APPROVAL_REQUIRED) && negb granted then
    await_approval run event l (pv_reason v)
  else perform_run run w event l.

(** [start]; its flag [approval_granted] is not used. *)
Definition engine_start (w : SourceWorkflow W) (event : EventEnvelope) (worker : string) :
    M Worker DurableExecutionReceipt :=
  if negb (workflow_matches w event) then
    lift (raise ValueError "workflow trigger did not match event")
  else
    fresh <- wk_env_op (new_run (ee_tenant_id event) (ee_workspace_id event) (sw_workflow_id w)
                          (sw_version w) (ee_event_id event)) ;;
    run <- runs_create fresh ;;
    claimed <- claim_idempotency run ;;
    if negb claimed then
      existing <- runs_get_by_event (run_key run) ;;
      match existing with
      | Some run => ret (mkDurableReceipt run None false)
      | None => lift (raise RuntimeError "idempotency claim lost without an existing workflow run")
      end
    else
      lease <- lease_claim (dr_run_id run) worker ;;
      match lease with
      | None => ret (mkDurableReceipt run None false)
      | Some l => execute_run run w event l false
      end.

(** [resume_approval] *)
Definition engine_resume (id worker : string) (w : SourceWorkflow W) :
    M Worker DurableExecutionReceipt :=
  a <- approvals_get id ;;
  match a with
  | None => lift (raise KeyError "approval not found")
  | Some a =>
      if negb (bool_decide (ap_decision a = AP_APPROVED)) then
        lift (raise ValueError "approval is not approved")
      else
        run <- runs_get_by_event (ap_tenant_id a, ap_workspace_id a, ap_workflow_id a, sw_version w,
                                  ap_event_id a) ;;
        match run with
        | None => lift (raise KeyError "workflow run for approval not found")
        | Some run =>
            lease <- lease_claim (dr_run_id run) worker ;;
            match lease with
            | None => lift (raise RuntimeError "workflow run is owned by another worker")
            | Some l =>
                event <- fenced_resume_event l id ;;
                execute_run run w event l true
            end
        end
  end.
End engine.

Arguments Worker : clear implicits.
