(* ===== verification/AutonomousFacts.v ===== *)
(** * Facts about durable autonomous runs

    The transactions of all workers as one step relation, the invariant of the
    tables, and what the steps may do to a row. *)

From stdpp Require Import base gmap strings list relations.
From Stdlib Require Import ZArith Lia.
From S2P Require Import Prelude Uuid Json Jsonb Fencing Automation AutonomousRuns.
Local Open Scope py_scope.

(** ** Tables that grow: rows evolve in place, new rows come last *)

Section grows.
Context {R : Type} (step : R -> R -> Prop) `{!PreOrder step}.

Definition grows (l l' : list R) : Prop := exists l1 k, l' = l1 ++ k /\ Forall2 step l l1.

Lemma Forall2_step_refl l : Forall2 step l l.
Proof. induction l; constructor; [reflexivity | done]. Qed.

#[export] Instance grows_preorder : PreOrder grows.
Proof.
  split.
  - intros l. exists l, []. rewrite app_nil_r. split; [done | apply Forall2_step_refl].
  - intros l1 l2 l3 (a & k & -> & Ha) (b & k' & -> & Hb).
    apply Forall2_app_inv_l in Hb as (b1 & b2 & Hb1 & Hb2 & ->).
    exists b1, (b2 ++ k'). rewrite app_assoc. split; [done|].
    by transitivity a.
Qed.

Lemma grows_app l k : grows l (l ++ k).
Proof. exists l, k. split; [done | apply Forall2_step_refl]. Qed.

Lemma grows_pointwise l l' : Forall2 step l l' -> grows l l'.
Proof. intros H. exists l', []. by rewrite app_nil_r. Qed.

Lemma update_where_step p f l : (forall r, r ∈ l -> p r = true -> step r (f r)) ->
  Forall2 step l (update_where p f l).
Proof.
  induction l as [|r l IH]; simpl; intros H; constructor.
  - destruct (p r) eqn:E; [apply H; [left | done] | reflexivity].
  - apply IH. intros x Hx. apply H. by right.
Qed.

End grows.

Lemma fmap_update_where {R B} (g : R -> B) p f l :
  (forall r, g (f r) = g r) -> g <$> update_where p f l = g <$> l.
Proof.
  intros H. induction l as [|r l IH]; [done|]. cbn. f_equal; [by destruct (p r); rewrite ?H | exact IH].
Qed.

Lemma Forall_update_where {R} (P : R -> Prop) p f l :
  Forall P l -> (forall r, P r -> p r = true -> P (f r)) -> Forall P (update_where p f l).
Proof. intros Hl H. induction Hl as [|r l Hr _ IH]; constructor; [destruct (p r) eqn:E; auto | done]. Qed.

Lemma existsb_absent {A B} (g : A -> B) (eqb : A -> bool) x l :
  (forall r, eqb r = false -> g r <> x) -> existsb eqb l = false -> x ∉ (g <$> l).
Proof.
  intros H. induction l as [|r l IH]; simpl; intros E; [apply not_elem_of_nil|].
  apply orb_false_iff in E as [E1 E2]. apply not_elem_of_cons.
  split; [intros ->; by apply (H r) | by apply IH].
Qed.

Lemma find_absent {A B} (g : A -> B) (p : A -> bool) x l :
  (forall r, p r = false -> g r <> x) -> List.find p l = None -> x ∉ (g <$> l).
Proof.
  intros H E. apply (existsb_absent _ p); [done|]. induction l as [|r l IH]; simpl in *; [done|].
  destruct (p r); [done|]. by apply IH.
Qed.

Lemma elem_of_fmap_bfilter {A B} (g : A -> B) p x l :
  x ∈ (g <$> List.filter p l) -> x ∈ (g <$> l).
Proof.
  induction l as [|r l IH]; simpl; [done|]. intros Hx. destruct (p r); simpl in Hx; [|by right; apply IH].
  apply elem_of_cons in Hx as [->|Hx]; [left | by right; apply IH].
Qed.

Lemma NoDup_fmap_bfilter {A B} (g : A -> B) p l : NoDup (g <$> l) -> NoDup (g <$> List.filter p l).
Proof.
  induction l as [|r l IH]; simpl; [done|]. intros [Hr Hl]%NoDup_cons.
  destruct (p r); [|by apply IH]. simpl. apply NoDup_cons.
  split; [by intros ?%elem_of_fmap_bfilter | by apply IH].
Qed.

(** ** Steps *)

Section steps.
Context {JB : Jsonb} {JP : JsonParse} {OS : ObjStr} {PI : PgInputs}.

(** The largest recovery budget of any sweeper. *)
Variable budget : Z.

(** One transaction at the server time [now], under leases of the workers [me]
    and by the sweepers [sw]. *)
Inductive auto_at (now : datetime) (me : string -> Prop) (sw : SweeperConfig -> Prop) :
    auto_db -> auto_db -> Prop :=
  | as_create r b db db' :
      dr_status r = DR_RECEIVED -> dr_idempotency_key r = default_key (run_key r) ->
      insert_run now r db = Ret (b, db') -> auto_at now me sw db db'
  | as_key r b db db' : claim_key r db = Ret (b, db') -> auto_at now me sw db db'
  | as_transition l u row db db' :
      me (wl_worker_id l) ->
      fenced_update now l (wl_execution_id l) u db = Ret (row, db') -> auto_at now me sw db db'
  | as_sweep c locked limit k db db' :
      sw c -> (sv_max_recoveries c <= budget)%Z -> sweep c locked now limit db = Ret (k, db') ->
      auto_at now me sw db db'
  | as_approval r run db db' : insert_approval r run db = Ret (tt, db') -> auto_at now me sw db db'
  | as_decide py id d actor row db db' :
      d <> AP_PENDING -> decide_approval py id d actor db = Ret (row, db') -> auto_at now me sw db db'
  | as_prepare id t ws run inv key cap req f db db' :
      prepare_effect id t ws run inv key cap req db = Ret (f, db') -> auto_at now me sw db db'
  | as_complete key result row db db' :
      complete_effect now key result db = Ret (row, db') -> auto_at now me sw db db'
  | as_claim ttl py1 py2 id worker l t db :
      me worker -> claim ttl now py1 py2 id worker (ad_leases db) = Ret (l, t) ->
      auto_at now me sw db (with_leases t db)
  | as_renew ttl l l' t db :
      me (wl_worker_id l) -> renew ttl now l (ad_leases db) = Ret (l', t) ->
      auto_at now me sw db (with_leases t db)
  | as_release l db :
      me (wl_worker_id l) -> auto_at now me sw db (with_leases (release l (ad_leases db)) db).

(** One transaction of some worker, person or sweeper at some time. *)
Definition auto_step (db db' : auto_db) : Prop := exists now me sw, auto_at now me sw db db'.

(** ** The invariant *)

Definition runs_ok (l : list run_row) : Prop :=
  NoDup (rr_run_id <$> l) /\ NoDup (rr_identity <$> l) /\ NoDup (rr_idempotency_key <$> l) /\
  Forall (fun r => (0 <= rr_recovery_count r <= Z.max 0 budget)%Z) l /\
  Forall (fun r => rr_idempotency_key r = default_key (rr_identity r)) l.

Definition effect_ok (r : effect_row) : Prop :=
  er_status r = EF_COMPLETED -> is_Some (er_result r) /\ is_Some (er_completed_at r).

Definition durable_ok (db : auto_db) : Prop :=
  runs_ok (ad_runs db) /\ NoDup (aw_approval_id <$> ad_approvals db) /\
  NoDup (er_effect_id <$> ad_effects db) /\ NoDup (er_idempotency_key <$> ad_effects db) /\
  Forall effect_ok (ad_effects db).

(** What may happen to a row. *)
Definition run_evolves (r r' : run_row) : Prop :=
  rr_run_id r' = rr_run_id r /\ rr_identity r' = rr_identity r /\
  rr_idempotency_key r' = rr_idempotency_key r /\ (rr_recovery_count r <= rr_recovery_count r')%Z.

Definition approval_evolves (r r' : approval_row) : Prop :=
  r' = r \/
  (aw_decision r = AP_PENDING /\ exists d by_ at_, d <> AP_PENDING /\ r' = decide_row d by_ at_ r /\
     (d = AP_APPROVED -> exists now, at_ = Some now /\ (now < aw_expires_at r)%Z)).

Definition effect_evolves (r r' : effect_row) : Prop :=
  er_effect_id r' = er_effect_id r /\ er_idempotency_key r' = er_idempotency_key r /\
  er_request r' = er_request r /\ (er_status r = EF_COMPLETED -> r' = r).

#[export] Instance run_evolves_preorder : PreOrder run_evolves.
Proof.
  split; unfold run_evolves; [intros r; split_and!; [done..|lia]|].
  intros a b c (? & ? & ? & ?) (? & ? & ? & ?). split_and!; [congruence..|lia].
Qed.

#[export] Instance approval_evolves_preorder : PreOrder approval_evolves.
Proof.
  split; unfold approval_evolves; [intros r; by left|].
  intros a b c [->|(Hp & d & by_ & at_ & Hd & -> & Hx)] Hbc; [done|].
  destruct Hbc as [->|(Hp' & _)]; [right | done]. split; [done|]. by exists d, by_, at_.
Qed.

#[export] Instance effect_evolves_preorder : PreOrder effect_evolves.
Proof.
  split; unfold effect_evolves; [intros r; by split_and!|].
  intros a b c (? & ? & ? & Hb) (? & ? & ? & Hc). split_and!; [congruence..|].
  intros Ha. specialize (Hb Ha) as ->. auto.
Qed.

(** No row is lost; claimed keys keep their run. *)
Definition durable_evolves (db db' : auto_db) : Prop :=
  grows run_evolves (ad_runs db) (ad_runs db') /\ ad_claims db ⊆ ad_claims db' /\
  grows approval_evolves (ad_approvals db) (ad_approvals db') /\
  grows effect_evolves (ad_effects db) (ad_effects db').

#[export] Instance durable_evolves_preorder : PreOrder durable_evolves.
Proof.
  split; unfold durable_evolves; [intros db; by split_and!|].
  intros a b c (? & ? & ? & ?) (? & ? & ? & ?). split_and!; by etransitivity.
Qed.

(** ** Steps respect both *)

Definition durable_move (db db' : auto_db) : Prop :=
  durable_ok db -> durable_ok db' /\ durable_evolves db db'.

#[export] Instance durable_move_preorder : PreOrder durable_move.
Proof.
  split; unfold durable_move; [intros db Hdb; by split|].
  intros a b c Hab Hbc Ha. destruct (Hab Ha) as [Hb Eab]. destruct (Hbc Hb) as [Hc Ebc].
  split; [done|]. by etransitivity.
Qed.

Lemma move_runs db t :
  (runs_ok (ad_runs db) -> runs_ok t /\ grows run_evolves (ad_runs db) t) ->
  durable_move db (with_runs t db).
Proof. intros H (Hr & Hrest). destruct (H Hr) as [Ht Hg]. by split; [split|split_and!]. Qed.

Lemma move_approvals db t :
  (NoDup (aw_approval_id <$> ad_approvals db) ->
   NoDup (aw_approval_id <$> t) /\ grows approval_evolves (ad_approvals db) t) ->
  durable_move db (with_approvals t db).
Proof.
  intros H (Hr & Ha & Hrest). destruct (H Ha) as [Ht Hg].
  split; [by split_and!; try apply Hrest|]. by split_and!.
Qed.

Lemma move_effects db t :
  (NoDup (er_effect_id <$> ad_effects db) -> NoDup (er_idempotency_key <$> ad_effects db) ->
   Forall effect_ok (ad_effects db) ->
   NoDup (er_effect_id <$> t) /\ NoDup (er_idempotency_key <$> t) /\ Forall effect_ok t /\
   grows effect_evolves (ad_effects db) t) ->
  durable_move db (with_effects t db).
Proof.
  intros H (Hr & Ha & He & Hk & Ho). destruct (H He Hk Ho) as (? & ? & ? & ?).
  split; by split_and!.
Qed.

Lemma runs_ok_update p f l :
  runs_ok l -> (forall r, run_evolves r (f r)) ->
  (forall r, r ∈ l -> p r = true -> (rr_recovery_count (f r) <= Z.max 0 budget)%Z) ->
  runs_ok (update_where p f l) /\ Forall2 run_evolves l (update_where p f l).
Proof.
  intros (Hi & He & Hk & Hc & Hd) Hf Hb. split.
  - unfold runs_ok. rewrite !fmap_update_where by (intros r; apply Hf). split_and!; try done.
    + apply Forall_forall. intros r' Hr'. unfold update_where in Hr'.
      apply list_elem_of_fmap in Hr' as (r & -> & Hr). rewrite Forall_forall in Hc.
      specialize (Hc r Hr). destruct (p r) eqn:Ep; [|done]. specialize (Hb r Hr Ep).
      destruct (Hf r) as (_ & _ & _ & ?). lia.
    + apply Forall_update_where; [done|]. intros r Hr _. destruct (Hf r) as (_ & Ei & Ek & _). congruence.
  - apply update_where_step; [apply _|]. intros r _ _. apply Hf.
Qed.

Lemma insert_run_move now r b db db' :
  dr_idempotency_key r = default_key (run_key r) -> insert_run now r db = Ret (b, db') ->
  durable_move db db'.
Proof.
  unfold insert_run. intros Hkey H. destruct (pg_integer _); simpl in H; [|discriminate].
  destruct (json_column _) as [t|]; simpl in H; [|discriminate].
  destruct (run_by_event _ _) eqn:Ee; [by injection H as _ <-|].
  destruct (existsb _ _) eqn:Ex; [discriminate|]. injection H as _ <-. apply move_runs.
  intros (Hi & He & Hk & Hc & Hd). split; [|apply grows_app; apply _]. unfold runs_ok.
  rewrite !fmap_app. split_and!; try (apply NoDup_snoc; [done|]); simpl.
  - refine (existsb_absent _ _ _ _ _ Ex). intros x [Hx _]%orb_false_iff E. by rewrite E, N.eqb_refl in Hx.
  - refine (find_absent _ _ _ _ _ Ee). intros x Hx. by apply bool_decide_eq_false in Hx.
  - refine (existsb_absent _ _ _ _ _ Ex). intros x [_ Hx]%orb_false_iff E.
    by rewrite E, String.eqb_refl in Hx.
  - apply Forall_app. split; [done|]. constructor; [simpl; lia | done].
  - apply Forall_app. split; [done|]. by constructor.
Qed.

Lemma claim_key_move r b db db' : claim_key r db = Ret (b, db') -> durable_move db db'.
Proof.
  unfold claim_key. destruct (ad_claims db !! _) as [x|] eqn:E; intros H; injection H as _ <-.
  - reflexivity.
  - intros Hok. split; [done|]. split_and!; try reflexivity. by apply insert_subseteq.
Qed.

Lemma apply_update_evolves now u r : run_evolves r (apply_update now u r).
Proof. unfold run_evolves. split_and!; [done..|]. simpl. lia. Qed.

Lemma cast_columns_status u v : cast_columns u = Ret v -> up_status v = up_status u.
Proof.
  unfold cast_columns. destruct (optional_cast _); cbn; [|discriminate].
  destruct (optional_cast _); cbn; [|discriminate]. destruct (optional_cast _); cbn; [|discriminate].
  by intros [= <-].
Qed.

Lemma update_run_move now id u row db db' :
  update_run now id u db = Ret (row, db') -> durable_move db db'.
Proof.
  unfold update_run. intros H. destruct (cast_columns u) as [v|]; simpl in H; [|discriminate].
  destruct (run_by_id _ _); [|discriminate]. destruct (pg_integer _); simpl in H; [|discriminate].
  injection H as _ <-. apply move_runs. intros Hok.
  destruct (runs_ok_update (fun x => (rr_run_id x =? id)%N) (apply_update now v) (ad_runs db) Hok)
    as [Ht Hg]; [apply apply_update_evolves | |by split; [|apply grows_pointwise]].
  intros r0 Hr _. simpl. destruct Hok as (_ & _ & _ & Hc & _). rewrite Forall_forall in Hc.
  specialize (Hc r0 Hr). lia.
Qed.

Lemma fenced_update_move now l id u row db db' :
  fenced_update now l id u db = Ret (row, db') -> durable_move db db'.
Proof.
  unfold fenced_update. destruct (assert_current _ _ _); simpl; [apply update_run_move | discriminate].
Qed.

Lemma insert_approval_move r run db db' :
  insert_approval r run db = Ret (tt, db') -> durable_move db db'.
Proof.
  unfold insert_approval. intros H. destruct (dumps _) as [t|]; simpl in H; [|discriminate].
  destruct (pg_uuid _) as [id|]; simpl in H; [|discriminate].
  destruct (jsonb_in _); simpl in H; [|discriminate].
  destruct (match ap_event r with Some _ => _ | None => _ end); simpl in H; [|discriminate].
  destruct (existsb _ _) eqn:Ex; [discriminate|]. injection H as <-. apply move_approvals. intros Hn.
  split; [|apply grows_app; apply _]. rewrite fmap_app. apply NoDup_snoc; [done|]. simpl.
  refine (existsb_absent _ _ _ _ _ Ex). intros x Hx E. by rewrite E, N.eqb_refl in Hx.
Qed.

Lemma approval_by_id_unique u l r x :
  NoDup (aw_approval_id <$> l) -> approval_by_id u l = Some r -> x ∈ l ->
  (aw_approval_id x =? u)%N = true -> x = r.
Proof.
  intros Hn Hr Hx Hid. apply List.find_some in Hr as [Hr Hid'].
  apply list_elem_of_In in Hr. apply N.eqb_eq in Hid, Hid'.
  apply (NoDup_fmap_elem_eq aw_approval_id l); try done. congruence.
Qed.

Lemma decide_approval_move now id d actor row db db' :
  d <> AP_PENDING -> decide_approval now id d actor db = Ret (row, db') -> durable_move db db'.
Proof.
  unfold decide_approval. intros Hd H. destruct (pg_uuid id) as [u|]; simpl in H; [|discriminate].
  destruct (approval_by_id u (ad_approvals db)) as [r|] eqn:Er; [|by injection H as _ <-].
  destruct (bool_decide _) eqn:Ep; [|by injection H as _ <-]. apply bool_decide_eq_true in Ep.
  destruct (Z.ltb_spec now (aw_expires_at r)) as [Hx|Hx]; injection H as _ <-;
    apply move_approvals; intros Hn; rewrite fmap_update_where by done; (split; [done|]);
    apply grows_pointwise, update_where_step; try apply _; intros x Hin Hid;
    pose proof (approval_by_id_unique _ _ _ _ Hn Er Hin Hid) as ->; right; (split; [done|]).
  - eexists d, _, _. split; [done|]. split; [done|]. intros _. by exists now.
  - by eexists AP_EXPIRED, _, _.
Qed.

Lemma prepare_effect_move id t ws run inv key cap req f db db' :
  prepare_effect id t ws run inv key cap req db = Ret (f, db') -> durable_move db db'.
Proof.
  unfold prepare_effect. intros H. destruct (json_column _); simpl in H; [|discriminate].
  destruct (effect_by_key key (ad_effects db)) eqn:Ek; [by injection H as _ <-|].
  destruct (existsb _ _) eqn:Ex; [discriminate|]. injection H as _ <-. apply move_effects.
  intros Hi Hk Ho. rewrite !fmap_app. split_and!.
  - apply NoDup_snoc; [done|]. refine (existsb_absent _ _ _ _ _ Ex). intros x Hx E.
    by rewrite E, N.eqb_refl in Hx.
  - apply NoDup_snoc; [done|]. refine (find_absent _ _ _ _ _ Ek). intros x Hx. by apply String.eqb_neq.
  - apply Forall_app. split; [done|]. constructor; [done | constructor].
  - apply grows_app. apply _.
Qed.

Lemma complete_effect_move now key result row db db' :
  complete_effect now key result db = Ret (row, db') -> durable_move db db'.
Proof.
  unfold complete_effect. intros H. destruct (json_column _) as [t|]; simpl in H; [|discriminate].
  destruct (effect_by_key key (ad_effects db)) as [r|] eqn:Er; [|discriminate].
  destruct (bool_decide _) eqn:Ec; [by injection H as _ <-|]. apply bool_decide_eq_false in Ec.
  injection H as _ <-. apply move_effects. intros Hi Hk Ho. rewrite !fmap_update_where by done.
  split_and!; try done.
  - apply Forall_update_where; [done|]. intros x _ _ _. by split; eexists.
  - apply grows_pointwise, update_where_step; [apply _|]. intros x Hx Hxk. unfold effect_evolves.
    split_and!; try done. intros Hxc. exfalso. apply Ec. apply List.find_some in Er as [Hr Hrk].
    apply list_elem_of_In in Hr. apply String.eqb_eq in Hrk, Hxk.
    rewrite <- (NoDup_fmap_elem_eq er_idempotency_key (ad_effects db) x r); congruence.
Qed.

(** ** Sweeps *)

Lemma mark_recovering_evolves now r : run_evolves r (mark_recovering now r).
Proof. unfold run_evolves. split_and!; [done..|]. simpl. lia. Qed.

Lemma run_by_id_spec id l r : run_by_id id l = Some r -> r ∈ l /\ rr_run_id r = id.
Proof. intros [Hr Hid]%List.find_some. by apply list_elem_of_In in Hr; apply N.eqb_eq in Hid. Qed.

(** The loop marks each selected run once. *)
Lemma sweep_loop_ok now ids l k :
  runs_ok l -> NoDup ids ->
  (forall r, r ∈ l -> rr_run_id r ∈ ids -> (rr_recovery_count r < Z.max 0 budget)%Z) ->
  sweep_loop now ids l = Ret k -> runs_ok (snd k) /\ Forall2 run_evolves l (snd k).
Proof.
  revert l k. induction ids as [|id ids IH]; intros l k Hl Hn Hb H; simpl in H.
  { injection H as <-. split; [done | apply Forall2_step_refl, _]. }
  apply NoDup_cons in Hn as [Hid Hn].
  destruct (run_by_id id l) as [r|] eqn:Er.
  2: { apply (IH l k Hl Hn); [|done]. intros x Hx Hxi. apply Hb; [done | by right]. }
  destruct (pg_integer _); simpl in H; [|discriminate].
  destruct (decode_run _) as [run|]; simpl in H; [|discriminate].
  destruct (sweep_loop now ids _) as [k'|] eqn:Ek; simpl in H; [|discriminate]. injection H as <-.
  destruct (runs_ok_update (fun x => (rr_run_id x =? id)%N) (mark_recovering now) l Hl) as [Hl' Hf].
  { apply mark_recovering_evolves. }
  { intros x Hx Hxi. apply N.eqb_eq in Hxi. simpl. specialize (Hb x Hx). rewrite Hxi in Hb.
    specialize (Hb (list_elem_of_here _ _)). lia. }
  destruct (IH _ k' Hl' Hn) as [Hk HF]; [|done|].
  { intros x Hx Hxi. unfold update_where in Hx. apply list_elem_of_fmap in Hx as (y & -> & Hy).
    destruct (rr_run_id y =? id)%N eqn:Ey; [|apply Hb; [done | by right]].
    apply N.eqb_eq in Ey. simpl in Hxi. congruence. }
  split; [done|]. simpl. by etransitivity.
Qed.

(** Exactly the selected runs are marked. *)
Lemma sweep_loop_marks now ids l k :
  NoDup ids -> sweep_loop now ids l = Ret k ->
  snd k = update_where (fun r => bool_decide (rr_run_id r ∈ ids)) (mark_recovering now) l.
Proof.
  revert l k. induction ids as [|id ids IH]; intros l k Hn H; simpl in H.
  { injection H as <-. simpl. symmetry. induction l as [|r l IHl]; [done|]. simpl. by rewrite IHl. }
  apply NoDup_cons in Hn as [Hid Hn]. destruct (run_by_id id l) as [r|] eqn:Er.
  - destruct (pg_integer _); simpl in H; [|discriminate].
    destruct (decode_run _); simpl in H; [|discriminate].
    destruct (sweep_loop now ids _) as [k'|] eqn:Ek; simpl in H; [|discriminate]. injection H as <-.
    simpl. rewrite (IH _ _ Hn Ek). unfold update_where. rewrite map_map. apply map_ext. intros x.
    destruct (N.eqb_spec (rr_run_id x) id) as [E|E].
    + rewrite (bool_decide_eq_false_2 (rr_run_id (mark_recovering now x) ∈ ids))
        by (simpl; congruence). rewrite bool_decide_eq_true_2; [done|]. rewrite E. left.
    + rewrite (bool_decide_ext (rr_run_id x ∈ ids) (rr_run_id x ∈ id :: ids)); [done|].
      rewrite elem_of_cons. naive_solver.
  - rewrite (IH l k Hn H). unfold update_where.
    assert (id ∉ (rr_run_id <$> l)) as Habs.
    { refine (find_absent _ _ _ _ _ Er). intros x Hx. by apply N.eqb_neq in Hx. }
    apply map_ext_in. intros x Hx. apply list_elem_of_In in Hx.
    rewrite (bool_decide_ext (rr_run_id x ∈ ids) (rr_run_id x ∈ id :: ids)); [done|].
    rewrite elem_of_cons. split; [by right|]. intros [E|?]; [|done]. destruct Habs.
    rewrite <- E. by apply list_elem_of_fmap_2.
Qed.

Lemma sweep_candidates_nodup c locked now limit l :
  NoDup (rr_run_id <$> l) -> NoDup (rr_run_id <$> sweep_candidates c locked now limit l).
Proof.
  intros Hn. unfold sweep_candidates. rewrite fmap_take. eapply sublist_NoDup; [|apply sublist_take].
  apply NoDup_fmap_bfilter. rewrite order_by_perm. by apply NoDup_fmap_bfilter.
Qed.

Lemma elem_of_candidates c locked now limit l r :
  r ∈ sweep_candidates c locked now limit l ->
  r ∈ l /\ abandoned c now r = true /\ locked (rr_run_id r) = false.
Proof.
  unfold sweep_candidates. intros Hr. assert (r ∈ List.filter (fun r => negb (locked (rr_run_id r)))
    (order_by heartbeat_le (List.filter (abandoned c now) l))) as Hr'.
  { eapply elem_of_take in Hr as (i & Hi & _). by eapply list_elem_of_lookup_2. }
  apply list_elem_of_In, List.filter_In in Hr' as [Hin Hlock]. apply negb_true_iff in Hlock.
  apply list_elem_of_In in Hin. rewrite order_by_perm in Hin.
  apply list_elem_of_In, List.filter_In in Hin as [Hin Hab]. by apply list_elem_of_In in Hin.
Qed.

(** A sweep whose limit covers the table takes every abandoned run. *)
Lemma abandoned_candidate c locked now limit l r :
  r ∈ l -> abandoned c now r = true -> locked (rr_run_id r) = false ->
  (Z.of_nat (length l) <= limit)%Z -> r ∈ sweep_candidates c locked now limit l.
Proof.
  intros Hr Hab Hlock Hlim. unfold sweep_candidates. rewrite take_ge.
  - apply list_elem_of_In, List.filter_In. rewrite Hlock. split; [|done]. apply list_elem_of_In.
    rewrite order_by_perm. apply list_elem_of_In, List.filter_In. split; [|done]. by apply list_elem_of_In.
  - apply Nat2Z.inj_le. rewrite Z2Nat.id by lia. etransitivity; [|exact Hlim]. apply inj_le.
    etransitivity; [apply List.filter_length_le|]. rewrite order_by_perm. apply List.filter_length_le.
Qed.

(** The row of a marked run. *)
Lemma run_by_id_marked now (ids : list uuid) id l r :
  run_by_id id l = Some r -> id ∈ ids ->
  run_by_id id (update_where (fun x => bool_decide (rr_run_id x ∈ ids)) (mark_recovering now) l)
    = Some (mark_recovering now r).
Proof.
  intros Hr Hin. pose proof (proj2 (run_by_id_spec _ _ _ Hr)) as Hid. revert Hr.
  induction l as [|x l IH]; [done|]. unfold run_by_id in *. simpl.
  destruct (N.eqb_spec (rr_run_id x) id) as [Ex|Ex].
  - intros [= ->]. rewrite bool_decide_eq_true_2 by congruence. simpl. by rewrite Hid, N.eqb_refl.
  - intros Hr. destruct (bool_decide _); simpl; rewrite (proj2 (N.eqb_neq _ _) Ex); by apply IH.
Qed.

Lemma sweep_move c locked now limit k db db' :
  (sv_max_recoveries c <= budget)%Z -> sweep c locked now limit db = Ret (k, db') ->
  durable_move db db'.
Proof.
  intros Hc. unfold sweep. destruct (limit <? 1)%Z; [discriminate|].
  destruct (sweep_loop _ _ _) as [[runs l]|] eqn:E; simpl; [|discriminate]. intros H. injection H as _ <-.
  apply move_runs. intros Hok. pose proof Hok as (Hid & _).
  destruct (sweep_loop_ok now _ _ (runs, l) Hok (sweep_candidates_nodup c locked now limit _ Hid))
    as [Hl Hf]; [|done|by split; [|apply grows_pointwise]].
  intros r Hr Hri. apply list_elem_of_fmap in Hri as (r' & He & Hr').
  apply elem_of_candidates in Hr' as (Hin & Hab & _).
  rewrite (NoDup_fmap_elem_eq rr_run_id _ _ _ Hid Hr Hin He).
  unfold abandoned in Hab. apply andb_true_iff in Hab as [_ Hab]. apply Z.ltb_lt in Hab. lia.
Qed.

Lemma auto_at_move now me sw db db' : auto_at now me sw db db' -> durable_move db db'.
Proof.
  destruct 1 as [r b db db' _ Hk H|r b db db' H|l u row db db' _ H|c locked limit k db db' _ Hc H
    |r run db db' H|py id d actor row db db' Hd H|id t ws run inv key cap req f db db' H
    |key result row db db' H|ttl py1 py2 id worker l t db _ H|ttl l l' t db _ H|l db _].
  - by eapply insert_run_move.
  - by eapply claim_key_move.
  - by eapply fenced_update_move.
  - by eapply sweep_move.
  - by eapply insert_approval_move.
  - by eapply decide_approval_move.
  - by eapply prepare_effect_move.
  - by eapply complete_effect_move.
  - intros Hok. split; [done|]. by split_and!.
  - intros Hok. split; [done|]. by split_and!.
  - intros Hok. split; [done|]. by split_and!.
Qed.

Lemma auto_step_move db db' : auto_step db db' -> durable_move db db'.
Proof. intros (now & me & sw & H). by eapply auto_at_move. Qed.

Lemma auto_steps_move db db' : rtc auto_step db db' -> durable_move db db'.
Proof. apply rtc_preorder; [apply _ | apply auto_step_move]. Qed.


(** ** The abstract system *)

(** At the server time [now], a worker of [me] holds an unexpired lease of the
    run. *)
Definition held (now : datetime) (me : string -> Prop) (t : lease_table) (id : uuid) : Prop :=
  exists row, t !! id = Some row /\ me (lr_worker row) /\ (now < lr_expires row)%Z.

(** The run is in progress, has shown no sign of life for the limit of the
    sweeper, and has recoveries left. *)
Definition left_behind (c : SweeperConfig) (now : datetime) (r : run_row) : Prop :=
  (rr_status r = DR_RUNNING \/ rr_status r = DR_RECOVERING) /\
  (rr_last_heartbeat_at r + sv_stale_after_seconds c * 1000000 < now)%Z /\
  (rr_recovery_count r < sv_max_recoveries c)%Z.

(** How a run may change in a transaction at [now] that finds the leases [t]:
    under a lease of this very run that a worker of [me] holds, which leaves the
    heartbeat and the count of recoveries alone, or by a sweeper of [sw] that
    finds it left behind. *)
Definition run_move (now : datetime) (me : string -> Prop) (sw : SweeperConfig -> Prop)
    (t : lease_table) (r r' : run_row) : Prop :=
  r' = r \/
  (rr_run_id r' = rr_run_id r /\ rr_identity r' = rr_identity r /\
   rr_idempotency_key r' = rr_idempotency_key r /\
   ((rr_last_heartbeat_at r' = rr_last_heartbeat_at r /\ rr_recovery_count r' = rr_recovery_count r /\
     held now me t (rr_run_id r)) \/
    (exists c, sw c /\ left_behind c now r /\ rr_status r' = DR_RECOVERING /\
       rr_last_heartbeat_at r' = now /\ rr_recovery_count r' = (rr_recovery_count r + 1)%Z))).

(** How the lease of a run may change: a worker of [me] takes or renews it, under
    a larger epoch if it was another's, or gives up its own. *)
Definition lease_move (me : string -> Prop) (old new : option lease_row) : Prop :=
  new = old \/
  (exists row, new = Some row /\ me (lr_worker row) /\
     forall row', old = Some row' -> (lr_epoch row' <= lr_epoch row)%Z /\
       (lr_worker row' <> lr_worker row -> (lr_epoch row' < lr_epoch row)%Z)) \/
  (new = None /\ exists row, old = Some row /\ me (lr_worker row)).

(** One guarded transaction: runs change as above and new ones are RECEIVED,
    claims stay, decided approvals and completed effects are final, leases move
    as above. *)
Definition guarded (now : datetime) (me : string -> Prop) (sw : SweeperConfig -> Prop)
    (db db' : auto_db) : Prop :=
  (exists l k, ad_runs db' = l ++ k /\
     Forall2 (run_move now me sw (ad_leases db)) (ad_runs db) l /\
     Forall (fun r => rr_status r = DR_RECEIVED /\ rr_recovery_count r = 0%Z) k) /\
  ad_claims db ⊆ ad_claims db' /\
  grows approval_evolves (ad_approvals db) (ad_approvals db') /\
  grows effect_evolves (ad_effects db) (ad_effects db') /\
  (forall id, lease_move me (ad_leases db !! id) (ad_leases db' !! id)).

Section guard.
Variables (now : datetime) (me : string -> Prop) (sw : SweeperConfig -> Prop).

Lemma runs_still t l : Forall2 (run_move now me sw t) l l.
Proof. induction l; constructor; [by left | done]. Qed.

Lemma update_where_runs t p f l :
  (forall r, r ∈ l -> p r = true -> run_move now me sw t r (f r)) ->
  Forall2 (run_move now me sw t) l (update_where p f l).
Proof.
  induction l as [|r l IH]; intros H; [constructor|]. simpl. constructor.
  - destruct (p r) eqn:E; [apply H; [left | done] | by left].
  - apply IH. intros x Hx. apply H. by right.
Qed.

(** A move of the tables that leaves the leases alone. *)
Lemma guarded_of_move db db' l k :
  durable_ok db -> durable_move db db' -> ad_leases db' = ad_leases db -> ad_runs db' = l ++ k ->
  Forall2 (run_move now me sw (ad_leases db)) (ad_runs db) l ->
  Forall (fun r => rr_status r = DR_RECEIVED /\ rr_recovery_count r = 0%Z) k ->
  guarded now me sw db db'.
Proof.
  intros Hok Hm Hl Hr Hf Hk. destruct (Hm Hok) as [_ (_ & ? & ? & ?)].
  split; [by exists l, k|]. split_and!; try done. intros id. left. by rewrite Hl.
Qed.

(** A move that leaves the runs alone, too. *)
Lemma guarded_still db db' :
  durable_ok db -> durable_move db db' -> ad_leases db' = ad_leases db -> ad_runs db' = ad_runs db ->
  guarded now me sw db db'.
Proof.
  intros Hok Hm Hl Hr. apply (guarded_of_move db db' (ad_runs db) []); try done; [by rewrite app_nil_r|].
  apply runs_still.
Qed.

Lemma insert_run_guarded r b db db' :
  durable_ok db -> dr_status r = DR_RECEIVED -> dr_idempotency_key r = default_key (run_key r) ->
  insert_run now r db = Ret (b, db') -> guarded now me sw db db'.
Proof.
  intros Hok Hs Hk H. pose proof (insert_run_move _ _ _ _ _ Hk H) as Hm. unfold insert_run in H.
  destruct (pg_integer _); simpl in H; [|discriminate].
  destruct (json_column _); simpl in H; [|discriminate].
  destruct (run_by_event _ _); [injection H as _ <-; by apply guarded_still|].
  destruct (existsb _ _); [discriminate|]. injection H as _ <-.
  eapply guarded_of_move; try done; [apply runs_still|]. by constructor.
Qed.

(** The check of the lease is what the guard asks for. *)
Lemma current_held l t :
  me (wl_worker_id l) -> is_current now l t = true -> held now me t (wl_execution_id l).
Proof. intros Hme (r & Hr & Hw & _ & Hx)%is_current_spec. exists r. by rewrite Hw. Qed.

Lemma fenced_update_guarded l u row db db' :
  durable_ok db -> me (wl_worker_id l) ->
  fenced_update now l (wl_execution_id l) u db = Ret (row, db') -> guarded now me sw db db'.
Proof.
  intros Hok Hme H. pose proof (fenced_update_move _ _ _ _ _ _ _ H) as Hm.
  unfold fenced_update, assert_current in H.
  destruct (is_current now l (ad_leases db)) eqn:El; simpl in H; [|discriminate].
  unfold update_run in H. destruct (cast_columns u) as [v|]; simpl in H; [|discriminate].
  destruct (run_by_id _ _) as [r0|]; [|discriminate]. destruct (pg_integer _); simpl in H; [|discriminate].
  injection H as _ <-. eapply (guarded_of_move _ _ _ []); try done; [by rewrite app_nil_r|].
  apply update_where_runs. intros r Hr Hid. apply N.eqb_eq in Hid. right.
  do 3 (split; [done|]). left. do 2 (split; [done|]). rewrite Hid. by apply current_held.
Qed.

Lemma abandoned_left_behind c r : abandoned c now r = true -> left_behind c now r.
Proof.
  unfold abandoned, left_behind.
  intros [[Hs%bool_decide_eq_true Hh%Z.ltb_lt]%andb_true_iff Hc%Z.ltb_lt]%andb_true_iff.
  split_and!; [done | lia | done].
Qed.

Lemma sweep_guarded c locked limit k db db' :
  durable_ok db -> sw c -> (sv_max_recoveries c <= budget)%Z ->
  sweep c locked now limit db = Ret (k, db') -> guarded now me sw db db'.
Proof.
  intros Hok Hsw Hc H. pose proof (sweep_move _ _ _ _ _ _ _ Hc H) as Hm. unfold sweep in H.
  destruct (limit <? 1)%Z; [discriminate|].
  destruct (sweep_loop _ _ _) as [k'|] eqn:E; simpl in H; [|discriminate]. injection H as _ <-.
  pose proof Hok as ((Hid & _) & _).
  apply sweep_loop_marks in E; [|by apply sweep_candidates_nodup].
  eapply (guarded_of_move _ _ (snd k') []); try done; [by rewrite app_nil_r|]. rewrite E.
  apply update_where_runs. intros r Hr Hin. apply bool_decide_eq_true in Hin.
  apply list_elem_of_fmap in Hin as (r' & He & Hr'). apply elem_of_candidates in Hr' as (Hin & Hab & _).
  rewrite (NoDup_fmap_elem_eq rr_run_id _ _ _ Hid Hr Hin He) in *. right.
  do 3 (split; [done|]). right. exists c. do 2 (split; [by try apply abandoned_left_behind|]). done.
Qed.

(** *** Leases *)

Lemma guarded_leases t db :
  (forall id, lease_move me (ad_leases db !! id) (t !! id)) -> guarded now me sw db (with_leases t db).
Proof.
  intros H. split; [exists (ad_runs db), []; rewrite app_nil_r; split_and!; [done | apply runs_still | done]|].
  by split_and!.
Qed.

Lemma lease_move_insert (t : lease_table) id row :
  me (lr_worker row) ->
  (forall row', t !! id = Some row' -> (lr_epoch row' <= lr_epoch row)%Z /\
     (lr_worker row' <> lr_worker row -> (lr_epoch row' < lr_epoch row)%Z)) ->
  forall i, lease_move me (t !! i) (<[id := row]> t !! i).
Proof.
  intros Hme He i. destruct (decide (id = i)) as [<-|Hne].
  - rewrite lookup_insert_eq. right. left. by exists row.
  - rewrite lookup_insert_ne by done. by left.
Qed.

Lemma claim_lease_move ttl py1 py2 id worker l (t t' : lease_table) :
  me worker -> claim ttl now py1 py2 id worker t = Ret (l, t') ->
  forall i, lease_move me (t !! i) (t' !! i).
Proof.
  unfold claim. intros Hme. destruct (String.eqb worker ""); [done|]. destruct (t !! id) as [r|] eqn:Er.
  - destruct (_ && negb _); intros H; injection H as _ <-; [by left|]. apply lease_move_insert; [done|].
    intros row'. rewrite Er. intros [= <-]. cbn.
    destruct (String.eqb_spec (lr_worker r) worker) as [E|E]; cbn; [|lia].
    destruct (py2 <? lr_expires r)%Z; split; try lia; done.
  - intros H. injection H as _ <-. apply lease_move_insert; [done|]. intros row'. by rewrite Er.
Qed.

Lemma renew_lease_move ttl l l' (t t' : lease_table) :
  me (wl_worker_id l) -> renew ttl now l t = Ret (l', t') -> forall i, lease_move me (t !! i) (t' !! i).
Proof.
  unfold renew. intros Hme. destruct (is_current now l t) eqn:El; [|done]. intros H. injection H as _ <-.
  apply is_current_spec in El as (r & Hr & Hw & He & _). apply lease_move_insert; [done|].
  intros row'. rewrite Hr. intros [= <-]. cbn. split; [lia | congruence].
Qed.

Lemma release_lease_move l (t : lease_table) :
  me (wl_worker_id l) -> forall i, lease_move me (t !! i) (release l t !! i).
Proof.
  unfold release. intros Hme i. destruct (t !! wl_execution_id l) as [r|] eqn:Er; [|by left].
  destruct (String.eqb_spec (lr_worker r) (wl_worker_id l)) as [E|]; [|by left].
  destruct (lr_epoch r =? wl_epoch l)%Z; [|by left]. cbn [andb].
  destruct (decide (wl_execution_id l = i)) as [<-|Hne].
  - right. right. rewrite lookup_delete_eq. split; [done|]. exists r. by rewrite E.
  - rewrite lookup_delete_ne by done. by left.
Qed.

Lemma auto_at_guarded db db' : durable_ok db -> auto_at now me sw db db' -> guarded now me sw db db'.
Proof.
  intros Hok Hstep. pose proof (auto_at_move _ _ _ _ _ Hstep) as Hm.
  destruct Hstep as [r b db db' Hs Hk H|r b db db' H|l u row db db' Hme H|c locked limit k db db' Hsw Hc H
    |r run db db' H|py id d actor row db db' Hd H|id t ws run inv key cap req f db db' H
    |key result row db db' H|ttl py1 py2 id worker l t db Hme H|ttl l l' t db Hme H|l db Hme].
  - by eapply insert_run_guarded.
  - unfold claim_key in H. destruct (ad_claims db !! _); injection H as _ <-; by apply guarded_still.
  - by eapply fenced_update_guarded.
  - by eapply sweep_guarded.
  - unfold insert_approval in H. destruct (dumps _); simpl in H; [|discriminate].
    destruct (pg_uuid _); simpl in H; [|discriminate]. destruct (jsonb_in _); simpl in H; [|discriminate].
    destruct (match ap_event r with Some _ => _ | None => _ end); simpl in H; [|discriminate].
    destruct (existsb _ _); [discriminate|]. injection H as <-. by apply guarded_still.
  - unfold decide_approval in H. destruct (pg_uuid id); simpl in H; [|discriminate].
    destruct (approval_by_id _ _); [|injection H as _ <-; by apply guarded_still].
    destruct (bool_decide _); [|injection H as _ <-; by apply guarded_still].
    destruct (_ <? _)%Z; injection H as _ <-; by apply guarded_still.
  - unfold prepare_effect in H. destruct (json_column _); simpl in H; [|discriminate].
    destruct (effect_by_key _ _); [injection H as _ <-; by apply guarded_still|].
    destruct (existsb _ _); [discriminate|]. injection H as _ <-. by apply guarded_still.
  - unfold complete_effect in H. destruct (json_column _); simpl in H; [|discriminate].
    destruct (effect_by_key _ _); [|discriminate].
    destruct (bool_decide _); injection H as _ <-; by apply guarded_still.
  - by eapply guarded_leases, claim_lease_move.
  - by eapply guarded_leases, renew_lease_move.
  - by apply guarded_leases, release_lease_move.
Qed.

(** A transaction that changes nothing is guarded. *)
Lemma guarded_refl db : guarded now me sw db db.
Proof.
  split; [exists (ad_runs db), []; rewrite app_nil_r; split_and!; [done | apply runs_still | done]|].
  split_and!; try done. intros id. by left.
Qed.
End guard.
End steps.

(** ** The approval store of [Automation] as the specification of the table *)

(** The request a row stores, but for the event and the time of the decision. *)
Definition same_approval (a : ApprovalRequest) (r : approval_row) : Prop :=
  ap_approval_id a = uuid_str (aw_approval_id r) /\ ap_tenant_id a = aw_tenant_id r /\
  ap_workspace_id a = aw_workspace_id r /\ ap_workflow_id a = aw_workflow_id r /\
  ap_event_id a = aw_event_id r /\ ap_reason a = aw_reason r /\ ap_created_at a = aw_created_at r /\
  ap_expires_at a = aw_expires_at r /\ ap_decision a = aw_decision r /\
  ap_decided_by a = aw_decided_by r /\ (is_Some (ap_decided_at a) <-> is_Some (aw_decided_at r)).

Definition abstracts (s : approvals) (l : list approval_row) : Prop :=
  Forall2 (fun kv r => fst kv = uuid_str (aw_approval_id r) /\ same_approval (snd kv) r) s l /\
  Forall (fun r => uuid_ok (aw_approval_id r)) l.

Lemma abstracts_get s l u :
  uuid_ok u -> abstracts s l ->
  match dget (uuid_str u) s, approval_by_id u l with
  | Some a, Some r => same_approval a r
  | None, None => True
  | _, _ => False
  end.
Proof.
  intros Hu [HF Hok]. induction HF as [|[k a] r s l [Hk Ha] _ IH]; [done|].
  apply Forall_cons in Hok as [Hr Hok]. unfold approval_by_id in *. cbn [fst snd] in Hk, Ha. subst k.
  cbn [dget List.find].
  destruct (String.eqb_spec (uuid_str u) (uuid_str (aw_approval_id r))) as [E|E].
  - apply (uuid_str_inj _ _ Hu Hr) in E. subst u. by rewrite N.eqb_refl.
  - destruct (N.eqb_spec (aw_approval_id r) u) as [e|_]; [by destruct E; rewrite e | by apply IH].
Qed.

Lemma abstracts_set s l u a f :
  uuid_ok u -> abstracts s l -> NoDup (aw_approval_id <$> l) ->
  (forall r, aw_approval_id (f r) = aw_approval_id r) ->
  (forall r, approval_by_id u l = Some r -> same_approval a (f r)) -> is_Some (approval_by_id u l) ->
  abstracts (dset (uuid_str u) a s) (update_where (fun x => (aw_approval_id x =? u)%N) f l).
Proof.
  intros Hu [HF Hok] Hn Hf Ha Hin. split.
  2: { apply Forall_update_where; [done|]. intros r Hr _. by rewrite Hf. }
  revert Hn Hok Ha Hin. induction HF as [|[k b] r s l [Hk Hb] HF IH]; intros Hn Hok Ha Hin.
  { destruct Hin as [? Hin]. discriminate Hin. }
  apply Forall_cons in Hok as [Hr Hok]. apply NoDup_cons in Hn as [Hnr Hn].
  unfold approval_by_id in *. cbn [fst snd] in Hk, Hb. subst k.
  cbn [dset update_where map]. cbn [List.find] in Ha, Hin.
  destruct (String.eqb_spec (uuid_str u) (uuid_str (aw_approval_id r))) as [E|E].
  - apply (uuid_str_inj _ _ Hu Hr) in E. subst u. rewrite N.eqb_refl in *.
    constructor; [split; [by rewrite Hf | by apply Ha]|].
    clear -HF Hnr. revert Hnr. induction HF as [|kv r' s l ? _ IH]; [constructor|]. cbn [update_where map]. intros Hnr.
    apply not_elem_of_cons in Hnr as [Hne Hnr]. constructor; [|by apply IH].
    by rewrite (proj2 (N.eqb_neq _ _) (not_eq_sym Hne)).
  - destruct (N.eqb_spec (aw_approval_id r) u) as [e|_]; [by destruct E; rewrite e|]. constructor; [done|]. by apply IH.
Qed.
