(* ===== verification/EngineFacts.v ===== *)
(** * Facts about the durable engine

    Every method of a worker is a run of steps, whatever the other workers do;
    what [start] does before it acts; and the methods of a worker that is alone,
    as equations: how [start] reaches the action, and what becomes of the run when
    the action ends. *)

From stdpp Require Import base gmap strings list relations.
From Stdlib Require Import ZArith Lia.
From S2P Require Import Prelude Uuid Json Fencing Jsonb Automation Operations AutonomousRuns AutonomousEngine.
From S2P Require Import AutonomousFacts.
Local Open Scope py_scope.

Section engine.
Context {JB : Jsonb} {JP : JsonParse} {OS : ObjStr} {PI : PgInputs}.
Context {W : Type}.
Variable budget : Z.

(** The others make steps, too. *)
Definition others_ok (o : Others) : Prop :=
  forall n db, rtc (auto_step budget) db (ot_moves o n db).

(** The log [l] is what a worker did from its [n]-th transaction at [db] to its
    [n']-th at [db']: each transaction found the tables where the others had
    brought them, at the time of the server. *)
Fixpoint followed (o : Others) (n : nat) (db : auto_db) (l : list transaction) (n' : nat)
    (db' : auto_db) : Prop :=
  match l with
  | [] => n' = n /\ db' = db
  | e :: l => tx_time e = ot_time o n /\ tx_before e = ot_moves o n db /\
              followed o (S n) (tx_after e) l n' db'
  end.

Lemma followed_app o n db l n1 db1 l' n2 db2 :
  followed o n db l n1 db1 -> followed o n1 db1 l' n2 db2 -> followed o n db (l ++ l') n2 db2.
Proof.
  revert n db. induction l as [|e l IH]; cbn; intros n db.
  - by intros [-> ->].
  - intros (Ht & Hb & H) H'. split_and!; [done..|]. by apply IH.
Qed.

(** The workers whose leases count, and the sweepers. *)
Variables (me : string -> Prop) (sw : SweeperConfig -> Prop).

(** A transaction of the engine, or one that leaves the tables as they were. *)
Definition tx_ok (e : transaction) : Prop :=
  tx_after e = tx_before e \/ auto_at budget (tx_time e) me sw (tx_before e) (tx_after e).

Variable o : Others.
Variable cfg : EngineConfig.
Variable execute : SourceWorkflow W -> EventEnvelope -> M W pyval.

Abbreviation St := (Worker W).

(** What the worker logged between two states: transactions of the engine. *)
Definition stepped (s s' : St) : Prop := exists l, wk_log s' = wk_log s ++ l /\
  followed o (wk_step s) (wk_db s) l (wk_step s') (wk_db s') /\ Forall tx_ok l.

(** The steps of a worker that does not act. *)
Definition quiet (s s' : St) : Prop := stepped s s' /\ wk_world s' = wk_world s.

(** A worker that makes no transaction. *)
Lemma stepped_still (s s' : St) :
  wk_log s' = wk_log s -> wk_step s' = wk_step s -> wk_db s' = wk_db s -> stepped s s'.
Proof. intros Hl Hn Hdb. exists []. rewrite app_nil_r, Hl, Hn, Hdb. by split_and!. Qed.

#[export] Instance stepped_preorder : PreOrder stepped.
Proof.
  split.
  - intros s. by apply stepped_still.
  - intros a b c (l & Hl & Hf & Ho) (l' & Hl' & Hf' & Ho'). exists (l ++ l').
    rewrite Hl', Hl, app_assoc. split_and!; [done | by eapply followed_app | by apply Forall_app].
Qed.

#[export] Instance quiet_preorder : PreOrder quiet.
Proof.
  split; unfold quiet; [intros s; by split|].
  intros a b c [? ?] [? ?]. split; [by etransitivity | congruence].
Qed.

Lemma quiet_on_db {A} (f : datetime -> auto_db -> outcome (A * auto_db)) :
  (forall now db a db', f now db = Ret (a, db') -> db' = db \/ auto_at budget now me sw db db') ->
  keeps quiet (on_db (W := W) o f).
Proof.
  intros Hf s. unfold on_db. destruct (f _ _) as [[a db']|x] eqn:E; (split; [|done]); eexists;
    (split; [reflexivity|]); (split; [by split_and!|]); apply Forall_singleton.
  - exact (Hf _ _ a _ E).
  - by left.
Qed.

(** ** The log and the tables *)

Lemma tx_ok_step e : tx_ok e -> rtc (auto_step budget) (tx_before e) (tx_after e).
Proof. intros [->|H]; [apply rtc_refl|]. apply rtc_once. by eexists _, _, _. Qed.

Lemma followed_steps n db l n' db' :
  others_ok o -> followed o n db l n' db' -> Forall tx_ok l ->
  rtc (auto_step budget) db db' /\
  (durable_ok budget db -> Forall (fun e => durable_ok budget (tx_before e)) l).
Proof.
  intros Ho. revert n db. induction l as [|e l IH]; cbn; intros n db.
  - intros [_ ->] _. split; [apply rtc_refl | by constructor].
  - intros (_ & Hb & H) [He Hl]%Forall_cons. destruct (IH _ _ H Hl) as [Hr Hok].
    assert (rtc (auto_step budget) db (tx_before e)) as Hm by (rewrite Hb; apply Ho).
    apply tx_ok_step in He. split; [by do 2 (etransitivity; [eassumption|])|].
    intros Hdb. assert (durable_ok budget (tx_before e)) as Hbok by (by eapply auto_steps_move).
    constructor; [done|]. apply Hok. by eapply auto_steps_move.
Qed.

Lemma stepped_steps (s s' : St) :
  others_ok o -> stepped s s' -> rtc (auto_step budget) (wk_db s) (wk_db s').
Proof. intros Ho (l & _ & Hf & Hl). by eapply followed_steps. Qed.

(** Every logged transaction of the engine is guarded. *)
Lemma stepped_guarded (s s' : St) :
  others_ok o -> durable_ok budget (wk_db s) -> stepped s s' ->
  exists l, wk_log s' = wk_log s ++ l /\
    followed o (wk_step s) (wk_db s) l (wk_step s') (wk_db s') /\
    Forall (fun e => guarded (tx_time e) me sw (tx_before e) (tx_after e)) l.
Proof.
  intros Ho Hok (l & Hl & Hf & Hs). exists l. do 2 (split; [done|]).
  destruct (followed_steps _ _ _ _ _ Ho Hf Hs) as [_ Hb]. specialize (Hb Hok).
  rewrite !Forall_forall in *. intros e He. destruct (Hs e He) as [->|H]; [apply guarded_refl|].
  apply (auto_at_guarded budget); [by apply Hb | done].
Qed.

Lemma quiet_query {A} (f : auto_db -> outcome A) : keeps quiet (query (W := W) o f).
Proof.
  apply quiet_on_db. intros now db a db' H. destruct (f db); simpl in H; [|discriminate].
  injection H as _ <-. by left.
Qed.

Lemma quiet_env {A} (f : Env -> A * Env) : keeps quiet (wk_env_op (W := W) f).
Proof. intros s. unfold wk_env_op. destruct (f _) as [a e]. split; [by apply stepped_still | done]. Qed.

Hint Resolve quiet_query quiet_env : ois.

Lemma quiet_get_by_event k : keeps quiet (runs_get_by_event (W := W) o k).
Proof. unfold runs_get_by_event. keeps_auto. Qed.
Hint Resolve quiet_get_by_event : ois.

Lemma quiet_create r :
  dr_status r = DR_RECEIVED -> dr_idempotency_key r = default_key (run_key r) ->
  keeps quiet (runs_create (W := W) o r).
Proof.
  intros Hs Hk. unfold runs_create. keeps_auto.
  apply quiet_on_db. intros now db b db' H. right. by eapply as_create.
Qed.

Lemma quiet_claim_key r : keeps quiet (claim_idempotency (W := W) o r).
Proof. apply quiet_on_db. intros now db b db' H. right. by eapply as_key. Qed.

Lemma quiet_transition l id st at_ cp res err :
  wl_execution_id l = id -> me (wl_worker_id l) ->
  keeps quiet (fenced_transition (W := W) o l id st at_ cp res err).
Proof.
  intros <- Hme. unfold fenced_transition. keeps_auto. apply quiet_on_db. intros now db row db' H.
  right. by eapply as_transition.
Qed.

Lemma quiet_lease_claim id worker : me worker -> keeps quiet (lease_claim (W := W) o cfg id worker).
Proof.
  intros Hme. unfold lease_claim. keeps_auto. apply quiet_on_db. intros now db l db' H.
  destruct (claim _ _ _ _ _ _ _) as [[l' t]|] eqn:E; simpl in H; [|discriminate]. injection H as _ <-.
  right. by eapply as_claim.
Qed.

(** The lease is the worker's, for the run that was asked for. *)
Lemma lease_claim_id id worker s l s' :
  lease_claim (W := W) o cfg id worker s = (Ret (Some l), s') ->
  wl_execution_id l = id /\ wl_worker_id l = worker.
Proof.
  unfold lease_claim, bind, wk_env_op. cbn [utc_now]. unfold on_db. cbn [wk_step wk_db].
  destruct (claim _ _ _ _ _ _ _) as [[l' t]|x] eqn:E; cbn [out_bind]; [|done].
  intros H. injection H as -> _. by apply claim_row in E as (_ & ? & ? & _).
Qed.

Lemma quiet_lease_release l : me (wl_worker_id l) -> keeps quiet (lease_release (W := W) o l).
Proof. intros Hme. apply quiet_on_db. intros now db u db' H. injection H as _ <-. right. by apply as_release. Qed.

Lemma quiet_lease_assert l : keeps quiet (lease_assert (W := W) o l).
Proof.
  apply quiet_on_db. intros now db u db' H. destruct (assert_current _ _ _); simpl in H; [|discriminate].
  injection H as _ <-. by left.
Qed.
Hint Resolve quiet_claim_key quiet_transition quiet_lease_claim quiet_lease_release quiet_lease_assert : ois.

Lemma quiet_finish l r a : me (wl_worker_id l) -> keeps quiet (finish (W := W) o l r a).
Proof. intros Hme. unfold finish. keeps_auto. Qed.

Lemma quiet_read_approval r : keeps quiet (read_approval (W := W) r).
Proof.
  destruct r as [r|]; [|by keeps_auto]. intros s. unfold read_approval.
  destruct (decode_approval _ _) as [a e]. split; [by apply stepped_still | done].
Qed.
Hint Resolve quiet_finish quiet_read_approval : ois.

Lemma quiet_approvals_create r run : keeps quiet (approvals_create (W := W) o r run).
Proof.
  unfold approvals_create. keeps_auto. apply quiet_on_db. intros now db [] db' H.
  right. by eapply as_approval.
Qed.

Lemma quiet_approvals_get id : keeps quiet (approvals_get (W := W) o id).
Proof. unfold approvals_get. keeps_auto. Qed.

Lemma quiet_approvals_get_by_event ev : keeps quiet (approvals_get_by_event (W := W) o ev).
Proof. unfold approvals_get_by_event. keeps_auto. Qed.
Hint Resolve quiet_approvals_create quiet_approvals_get quiet_approvals_get_by_event : ois.

Lemma quiet_decide id d actor : d <> AP_PENDING -> keeps quiet (approvals_decide (W := W) o id d actor).
Proof.
  intros Hd. unfold approvals_decide. keeps_auto. apply quiet_on_db. intros now db row db' H.
  right. by eapply as_decide.
Qed.

Lemma quiet_resume_event l id : keeps quiet (fenced_resume_event (W := W) o l id).
Proof. unfold fenced_resume_event, approvals_resume_event. keeps_auto. Qed.
Hint Resolve quiet_resume_event : ois.

Lemma quiet_await run ev l reason :
  wl_execution_id l = dr_run_id run -> me (wl_worker_id l) ->
  keeps quiet (await_approval (W := W) o run ev l reason).
Proof. intros Hl Hme. unfold await_approval. keeps_auto. Qed.

Lemma quiet_sweep c locked limit :
  sw c -> (sv_max_recoveries c <= budget)%Z -> keeps quiet (runs_sweep (W := W) o c locked limit).
Proof.
  intros Hsw Hc. apply quiet_on_db. intros now db k db' H. right. by eapply as_sweep.
Qed.

Lemma quiet_prepare l t ws run inv key cap req :
  keeps quiet (prepare_side_effect (W := W) o l t ws run inv key cap req).
Proof.
  unfold prepare_side_effect, effects_prepare. keeps_auto. apply quiet_on_db. intros now db f db' H.
  right. by eapply as_prepare.
Qed.

Lemma quiet_complete key result : keeps quiet (effects_complete (W := W) o key result).
Proof.
  unfold effects_complete. keeps_auto. apply quiet_on_db. intros now db row db' H.
  right. by eapply as_complete.
Qed.

Lemma quiet_stepped {A} (m : M St A) : keeps quiet m -> keeps stepped m.
Proof. intros H s. apply H. Qed.

(** The action itself leaves the tables alone. *)
Lemma stepped_perform run w ev l :
  wl_execution_id l = dr_run_id run -> me (wl_worker_id l) ->
  keeps stepped (perform_run (W := W) o execute run w ev l).
Proof.
  intros Hl Hme. unfold perform_run.
  apply keeps_bind; [apply _ | by apply quiet_stepped, quiet_transition|].
  intros running s. unfold on_world. destruct (execute w ev (wk_world s)) as [[result|x] world];
    set (s1 := mkWorker _ _ _ world _); (transitivity s1; [by apply stepped_still|]).
  - refine (keeps_bind _ _ _ (quiet_stepped _ (quiet_transition _ _ _ _ _ _ _ Hl Hme)) _ s1).
    intros r. by apply quiet_stepped, quiet_finish.
  - refine (keeps_bind _ _ _ (quiet_stepped _ (quiet_transition _ _ _ _ _ _ _ Hl Hme)) _ s1).
    intros r. by apply quiet_stepped, quiet_finish.
Qed.

Lemma stepped_execute run w ev l g :
  wl_execution_id l = dr_run_id run -> me (wl_worker_id l) ->
  keeps stepped (execute_run (W := W) o cfg execute run w ev l g).
Proof.
  intros Hl Hme. unfold execute_run. keeps_step; [by keeps_auto|]. destruct (bool_decide _).
  - apply quiet_stepped. keeps_auto.
  - destruct (_ && _); [by apply quiet_stepped, quiet_await | by apply stepped_perform].
Qed.

(** What follows the claim of a lease may rely on whose lease it is. *)
Lemma stepped_with_lease {A} id worker (k : option WorkerLease -> M St A) :
  me worker -> (forall l, wl_execution_id l = id -> me (wl_worker_id l) -> keeps stepped (k (Some l))) ->
  keeps stepped (k None) ->
  keeps stepped (bind (lease_claim (W := W) o cfg id worker) k).
Proof.
  intros Hme Hs Hn. apply keeps_bind_val; [apply _ | by apply quiet_stepped, quiet_lease_claim|].
  intros [l|] s s' E; [|apply Hn]. apply lease_claim_id in E as [Hid Hw]. apply Hs; [done | by rewrite Hw].
Qed.

(** ** What [start] does before it acts *)

Lemma decode_run_key r run :
  decode_run r = Ret run ->
  run_key run = rr_identity r /\ dr_idempotency_key run = rr_idempotency_key r /\
  dr_run_id run = rr_run_id r /\ dr_attempt run = rr_attempt r /\ dr_status run = rr_status r.
Proof.
  unfold decode_run. intros H. destruct (decode_object _); simpl in H; [|discriminate].
  destruct (decode_column (rr_result r)); simpl in H; [|discriminate].
  destruct (decode_column (rr_error r)); simpl in H; [|discriminate].
  destruct (rr_identity r) as [[[[? ?] ?] ?] ?]. by injection H as <-.
Qed.

(** Every transaction logged between the two states found [P]. *)
Definition found (P : auto_db -> Prop) (s s' : St) : Prop :=
  forall l, wk_log s' = wk_log s ++ l -> Forall (fun e => P (tx_before e)) l.

Lemma found_split P (s s1 s' : St) :
  stepped s s1 -> stepped s1 s' -> found P s s' -> found P s s1 /\ found P s1 s'.
Proof.
  intros (l1 & E1 & _) (l2 & E2 & _) H. specialize (H (l1 ++ l2)).
  rewrite E2, E1, app_assoc in H. specialize (H eq_refl). apply Forall_app in H as [H1 H2].
  split; intros l E; [rewrite E1 in E | rewrite E2 in E]; by apply app_inv_head in E as <-.
Qed.

Lemma get_by_event_key k s run s' :
  found (durable_ok budget) s s' -> runs_get_by_event (W := W) o k s = (Ret (Some run), s') ->
  run_key run = k /\ dr_idempotency_key run = default_key k.
Proof.
  intros Hok. unfold runs_get_by_event, query, on_db, bind at 1. simpl.
  set (db := ot_moves o (wk_step s) (wk_db s)).
  destruct (run_by_event k (ad_runs db)) as [r|] eqn:Er; [|done]. unfold bind, lift, ret.
  destruct (decode_run r) as [run'|] eqn:Ed; [|done]. intros H. injection H as <- <-.
  assert (durable_ok budget db) as Hdb.
  { specialize (Hok _ eq_refl). by inversion Hok. }
  apply decode_run_key in Ed as (Hk & Hkey & _). apply List.find_some in Er as [Hin Heq].
  apply bool_decide_eq_true in Heq. apply list_elem_of_In in Hin.
  destruct Hdb as ((_ & _ & _ & _ & Hd) & _). rewrite Forall_forall in Hd. specialize (Hd r Hin).
  split; congruence.
Qed.

Lemma create_key r s run s' :
  found (durable_ok budget) s s' -> dr_status r = DR_RECEIVED ->
  dr_idempotency_key r = default_key (run_key r) ->
  runs_create (W := W) o r s = (Ret run, s') ->
  run_key run = run_key r /\ dr_idempotency_key run = default_key (run_key r).
Proof.
  intros Hok Hs Hk. unfold runs_create, bind at 1.
  set (m := on_db (W := W) o (fun now => insert_run now r)).
  assert (keeps quiet m) as Hm.
  { apply quiet_on_db. intros now db b db' H. right. by eapply as_create. }
  pose proof (Hm s) as [Hq _]. destruct (m s) as [[b|x] s1]; [|done].
  destruct b; [by intros H; injection H as <- _|]. unfold bind at 1.
  pose proof (quiet_get_by_event (run_key r) s1) as [Hq1 _].
  destruct (runs_get_by_event o (run_key r) s1) as [[[run'|]|x] s2] eqn:E; try done.
  intros H. injection H as <- <-. eapply get_by_event_key; [|exact E].
  by apply (found_split _ s s1 s2).
Qed.

(** [_execute] without an approval acts only if the policy allows it. *)
Lemma execute_acts run w ev l s :
  wl_execution_id l = dr_run_id run -> me (wl_worker_id l) ->
  let s' := snd (execute_run (W := W) o cfg execute run w ev l false s) in
  wk_world s' = wk_world s \/
  exists v, policy_evaluate (en_rules cfg) (event_context ev) = Ret v /\ pv_outcome v = ALLOW.
Proof.
  intros Hl Hme. cbv zeta. unfold execute_run, bind at 1, lift.
  destruct (policy_evaluate _ _) as [v|x] eqn:Ev; [|by left].
  destruct (bool_decide (pv_outcome v = DENY)) eqn:Ed.
  { left. refine (proj2 (keeps_bind quiet _ _ (quiet_transition _ _ _ _ _ _ _ Hl Hme) _ s)).
    intros r. by apply quiet_finish. }
  destruct (bool_decide (pv_outcome v = APPROVAL_REQUIRED)) eqn:Ea; cbn [andb negb].
  { left. by apply quiet_await. }
  right. exists v. split; [done|]. apply bool_decide_eq_false in Ed, Ea. by destruct (pv_outcome v).
Qed.

(** The key under which an event is started. *)
Definition event_key (w : SourceWorkflow W) (ev : EventEnvelope) : string :=
  default_key (ee_tenant_id ev, ee_workspace_id ev, sw_workflow_id w, sw_version w, ee_event_id ev).

(** Trigger and policy let the event through. *)
Definition allowed (w : SourceWorkflow W) (ev : EventEnvelope) : Prop :=
  workflow_matches w ev = true /\
  exists v, policy_evaluate (en_rules cfg) (event_context ev) = Ret v /\ pv_outcome v = ALLOW.

(** What [start] does once it has claimed the key. *)
Lemma claimed_acts w ev worker run s r s' :
  me worker ->
  (lease <- lease_claim (W := W) o cfg (dr_run_id run) worker ;;
   match lease with
   | None => ret (mkDurableReceipt run None false)
   | Some l => execute_run o cfg execute run w ev l false
   end) s = (r, s') ->
  stepped s s' /\
  (wk_world s' = wk_world s \/
   exists v, policy_evaluate (en_rules cfg) (event_context ev) = Ret v /\ pv_outcome v = ALLOW).
Proof.
  intros Hme H. split.
  { change s' with (snd (r, s')). rewrite <- H. apply stepped_with_lease; [done | | by keeps_auto].
    intros l Hl Hw. by apply stepped_execute. }
  unfold bind in H. pose proof (quiet_lease_claim (dr_run_id run) worker Hme s) as [_ Hw].
  destruct (lease_claim o cfg (dr_run_id run) worker s) as [[[l|]|x] s4] eqn:E4; cbn [snd] in Hw.
  - apply lease_claim_id in E4 as [Hid Hwk]. rewrite <- Hw. rewrite <- Hwk in Hme.
    pose proof (execute_acts run w ev l s4 Hid Hme) as Hx. cbv zeta in Hx. by rewrite H in Hx.
  - injection H as _ <-. by left.
  - injection H as _ <-. by left.
Qed.

(** A [start] that acts was allowed to, and has claimed the key of the event
    before, in one of its transactions. *)
Lemma start_claims w ev worker s r s' :
  me worker -> engine_start (W := W) o cfg execute w ev worker s = (r, s') ->
  found (durable_ok budget) s s' ->
  wk_world s' = wk_world s \/
  (allowed w ev /\
   exists run e l1 l2, dr_idempotency_key run = event_key w ev /\
     wk_log s' = wk_log s ++ l1 ++ e :: l2 /\ claim_key run (tx_before e) = Ret (true, tx_after e)).
Proof.
  intros Hme H Hok. revert H. unfold engine_start, allowed.
  destruct (workflow_matches w ev); [|intros H; injection H as _ <-; by left]. cbn [negb].
  unfold bind at 1, wk_env_op at 1, new_run. cbn [uuid4].
  set (fresh := mkRun _ _ _ _ _ _ _ _ _ _ _ _). set (s1 := mkWorker _ _ _ _ _).
  unfold bind at 1. pose proof (quiet_create fresh eq_refl eq_refl s1) as [Hq2 Hw2].
  destruct (runs_create o fresh s1) as [[run|x] s2] eqn:E2; [|intros H; injection H as _ <-; by left].
  cbn [snd] in Hq2, Hw2. change (wk_world s1) with (wk_world s) in Hw2.
  unfold bind at 1. pose proof (quiet_claim_key run s2) as [Hq3 Hw3].
  destruct (claim_idempotency o run s2) as [[claimed|x] s3] eqn:E3; cbn [snd] in Hq3, Hw3;
    [|intros H; injection H as _ <-; left; congruence].
  destruct claimed; cbn [negb]; intros H.
  2: { left. rewrite <- Hw2, <- Hw3. change s' with (snd (r, s')). rewrite <- H.
    refine (proj2 (keeps_bind quiet _ _ (quiet_get_by_event _) _ s3)). intros [x|]; by keeps_auto. }
  apply (claimed_acts w ev worker run s3 r s' Hme) in H as [Hq4 [Hw|Hv]]; [left; congruence|].
  right. split; [done|]. assert (stepped s2 s') as Hq by (by etransitivity).
  assert (found (durable_ok budget) s1 s2) as Hf.
  { apply (found_split _ s1 s2 s'); try done. }
  destruct (create_key fresh s1 run s2 Hf eq_refl eq_refl E2) as [_ Hkey].
  unfold claim_idempotency, on_db in E3. set (db1 := ot_moves o (wk_step s2) (wk_db s2)) in E3.
  destruct (claim_key run db1) as [[c db2]|x] eqn:Ec; [|discriminate]. injection E3 as -> E3.
  destruct Hq2 as (l1 & El1 & _), Hq4 as (l2 & El2 & _).
  exists run, (mkTx (ot_time o (wk_step s2)) db1 db2), l1, l2. split; [exact Hkey|]. split; [|exact Ec].
  rewrite El2, <- E3. cbn [wk_log]. rewrite El1, <- !app_assoc. done.
Qed.

(** A claimed key is not claimed again. *)
Lemma claimed_once run run' db1 db2 db3 :
  durable_ok budget db2 -> claim_key run db1 = Ret (true, db2) ->
  dr_idempotency_key run' = dr_idempotency_key run -> rtc (auto_step budget) db2 db3 ->
  claim_key run' db3 = Ret (false, db3).
Proof.
  intros Hok Hc Hk Hr. destruct (auto_steps_move budget db2 db3 Hr Hok) as [_ (_ & Hsub & _)].
  unfold claim_key in *. destruct (ad_claims db1 !! _) eqn:E; [done|]. injection Hc as <-.
  assert (is_Some (ad_claims db3 !! dr_idempotency_key run')) as [x ->]; [|done].
  eexists. eapply lookup_weaken; [|exact Hsub]. simpl. rewrite Hk. apply lookup_insert_eq.
Qed.

(** ** The calls of workers, people and sweepers *)

Inductive engine_call :=
  | EC_start (w : SourceWorkflow W) (ev : EventEnvelope) (worker : string)
  | EC_resume (id worker : string) (w : SourceWorkflow W)
  | EC_decide (id : string) (d : ApprovalDecision) (actor : string)
  | EC_sweep (c : SweeperConfig) (locked : uuid -> bool) (limit : Z)
  | EC_prepare (l : WorkerLease) (tenant workspace : string) (run : uuid)
      (invocation key capability : string) (request : dict)
  | EC_complete (key : string) (result : pyval).

(** The calls the engine's users make: no decision is "pending", and no sweeper
    has a larger budget. *)
Definition call_ok (c : engine_call) : Prop :=
  match c with
  | EC_decide _ d _ => d <> AP_PENDING
  | EC_sweep c _ _ => (sv_max_recoveries c <= budget)%Z
  | _ => True
  end.

(** The worker a call claims leases for, and the sweeper it is. *)
Definition acting (c : engine_call) (worker : string) : Prop :=
  match c with
  | EC_start _ _ n | EC_resume _ n _ => worker = n
  | _ => False
  end.
Definition sweeping (c : engine_call) (x : SweeperConfig) : Prop :=
  match c with EC_sweep y _ _ => x = y | _ => False end.

(** The state a call leaves, also when it raises. *)
Definition engine_perform (c : engine_call) (s : St) : St :=
  match c with
  | EC_start w ev worker => snd (engine_start o cfg execute w ev worker s)
  | EC_resume id worker w => snd (engine_resume o cfg execute id worker w s)
  | EC_decide id d actor => snd (approvals_decide o id d actor s)
  | EC_sweep c locked limit => snd (runs_sweep o c locked limit s)
  | EC_prepare l t ws run inv key cap req => snd (prepare_side_effect o l t ws run inv key cap req s)
  | EC_complete key result => snd (effects_complete o key result s)
  end.

Definition engine_perform_all (l : list engine_call) (s : St) : St :=
  foldl (fun s c => engine_perform c s) s l.

Lemma stepped_start w ev worker :
  me worker -> keeps stepped (engine_start (W := W) o cfg execute w ev worker).
Proof.
  intros Hme. unfold engine_start. destruct (negb _); [by keeps_auto|].
  apply keeps_bind_val; [apply _ | apply quiet_stepped, quiet_env|]. intros fresh s s' E.
  unfold wk_env_op, new_run in E. injection E as <- _. revert s'.
  apply keeps_bind; [apply _ | by apply quiet_stepped, quiet_create|]. intros run.
  apply keeps_bind; [apply _ | by apply quiet_stepped, quiet_claim_key|]. intros claimed.
  destruct (negb claimed).
  - apply quiet_stepped. keeps_auto.
  - apply stepped_with_lease; [done | intros l Hl Hw; by apply stepped_execute | by keeps_auto].
Qed.

Lemma stepped_resume id worker w :
  me worker -> keeps stepped (engine_resume (W := W) o cfg execute id worker w).
Proof.
  intros Hme. unfold engine_resume.
  apply keeps_bind; [apply _ | by apply quiet_stepped, quiet_approvals_get|].
  intros [a|]; [|by keeps_auto]. destruct (negb _); [by keeps_auto|].
  apply keeps_bind; [apply _ | by apply quiet_stepped, quiet_get_by_event|].
  intros [run|]; [|by keeps_auto].
  apply stepped_with_lease; [done | | by keeps_auto]. intros l Hl Hw.
  apply keeps_bind; [apply _ | by apply quiet_stepped, quiet_resume_event|].
  intros ev. by apply stepped_execute.
Qed.

Lemma stepped_perform_call c s :
  call_ok c -> (forall n, acting c n -> me n) -> (forall x, sweeping c x -> sw x) ->
  stepped s (engine_perform c s).
Proof.
  destruct c; simpl; intros Hc Ha Hs.
  - by apply stepped_start, Ha.
  - by apply stepped_resume, Ha.
  - by apply quiet_decide.
  - apply quiet_sweep; [by apply Hs | done].
  - by apply quiet_prepare.
  - by apply quiet_complete.
Qed.

Lemma stepped_perform_all l s :
  Forall call_ok l -> (forall c n, c ∈ l -> acting c n -> me n) ->
  (forall c x, c ∈ l -> sweeping c x -> sw x) -> stepped s (engine_perform_all l s).
Proof.
  unfold engine_perform_all. revert s. induction l as [|c l IH]; intros s Hl Ha Hs; simpl; [reflexivity|].
  apply Forall_cons in Hl as [Hc Hl]. etransitivity.
  - apply stepped_perform_call; [done | |]; intros n; [apply (Ha c) | apply (Hs c)]; left.
  - apply IH; [done | |]; intros c' n Hin; [apply (Ha c') | apply (Hs c')]; by right.
Qed.
End engine.

Arguments engine_call : clear implicits.

(** ** The history of the database

    The transactions of everybody, in the order the server ran them, each tagged
    with the call it belongs to. *)

Section history.
Context {JB : Jsonb} {JP : JsonParse} {OS : ObjStr} {PI : PgInputs}.
Variable budget : Z.

Abbreviation history := (list (nat * transaction)).

(** Each transaction finds what the one before it left, and is a step of the
    engine, of a person or of a sweeper, or leaves the tables as they were. *)
Fixpoint chained (db : auto_db) (T : history) : Prop :=
  match T with
  | [] => True
  | (_, e) :: T =>
      tx_before e = db /\
      (tx_after e = tx_before e \/ auto_step budget (tx_before e) (tx_after e)) /\
      chained (tx_after e) T
  end.

(** The transactions of one call. *)
Definition part (k : nat) (T : history) : list transaction :=
  snd <$> filter (fun x => fst x = k) T.

Lemma elem_of_part k T e : e ∈ part k T <-> (k, e) ∈ T.
Proof.
  unfold part. rewrite list_elem_of_fmap. split.
  - intros ([k' e'] & -> & [Hk Hin]%list_elem_of_filter). cbn in *. by subst.
  - intros H. exists (k, e). split; [done|]. apply list_elem_of_filter. by split.
Qed.

Lemma chained_split db T1 k e T2 :
  durable_ok budget db -> chained db (T1 ++ (k, e) :: T2) ->
  durable_ok budget (tx_before e) /\ durable_ok budget (tx_after e) /\
  rtc (auto_step budget) db (tx_before e) /\ chained (tx_after e) T2.
Proof.
  revert db. induction T1 as [|[k1 e1] T1 IH]; cbn; intros db Hok (Hb & Hs & HT); subst db.
  - assert (rtc (auto_step budget) (tx_before e) (tx_after e)) as Hr.
    { destruct Hs as [->|Hs]; [apply rtc_refl | by apply rtc_once]. }
    split; [done|]. split; [by eapply auto_steps_move|]. split; [apply rtc_refl | done].
  - assert (rtc (auto_step budget) (tx_before e1) (tx_after e1)) as Hr.
    { destruct Hs as [->|Hs]; [apply rtc_refl | by apply rtc_once]. }
    destruct (IH (tx_after e1)) as (? & ? & ? & ?); [by eapply auto_steps_move | done|].
    split_and!; try done. by etransitivity.
Qed.

Lemma part_ok db T k :
  durable_ok budget db -> chained db T -> Forall (fun e => durable_ok budget (tx_before e)) (part k T).
Proof.
  intros Hok HT. apply Forall_forall. intros e (T1 & T2 & ->)%elem_of_part%list_elem_of_split.
  by apply (chained_split db T1 k e T2).
Qed.

(** Of two different transactions one comes first. *)
Lemma in_order {A} (x y : A) (T : list A) :
  x ∈ T -> y ∈ T -> x <> y ->
  (exists T1 T2 T3, T = T1 ++ x :: T2 ++ y :: T3) \/ (exists T1 T2 T3, T = T1 ++ y :: T2 ++ x :: T3).
Proof.
  intros (T1 & T2 & ->)%list_elem_of_split Hy Hne.
  apply elem_of_app in Hy as [(T3 & T4 & ->)%list_elem_of_split|Hy].
  - right. exists T3, T4, T2. by rewrite <- app_assoc.
  - apply elem_of_cons in Hy as [->|(T3 & T4 & ->)%list_elem_of_split]; [done|]. left. by exists T1, T3, T4.
Qed.

(** A key that one transaction claims is not claimed by a later one. *)
Lemma claimed_before db T1 a e T2 b e' T3 run run' :
  durable_ok budget db -> chained db (T1 ++ (a, e) :: T2 ++ (b, e') :: T3) ->
  claim_key run (tx_before e) = Ret (true, tx_after e) ->
  dr_idempotency_key run' = dr_idempotency_key run ->
  claim_key run' (tx_before e') = Ret (true, tx_after e') -> False.
Proof.
  intros Hok HT Hc Hk Hc'. apply chained_split in HT as (_ & Hok1 & _ & HT); [|done].
  apply chained_split in HT as (_ & _ & Hr & _); [|done].
  rewrite (claimed_once budget run run' _ _ _ Hok1 Hc Hk Hr) in Hc'. discriminate Hc'.
Qed.

Lemma claimed_by_one db T a b e e' run run' :
  durable_ok budget db -> chained db T -> a <> b -> (a, e) ∈ T -> (b, e') ∈ T ->
  dr_idempotency_key run' = dr_idempotency_key run ->
  claim_key run (tx_before e) = Ret (true, tx_after e) ->
  claim_key run' (tx_before e') = Ret (true, tx_after e') -> False.
Proof.
  intros Hok HT Hab Ha Hb Hk Hc Hc'.
  destruct (in_order _ _ _ Ha Hb) as [(T1 & T2 & T3 & ->)|(T1 & T2 & T3 & ->)]; [congruence | |].
  - by eapply (claimed_before db T1 a e T2 b e' T3 run run').
  - by eapply (claimed_before db T1 b e' T2 a e T3 run' run).
Qed.

(** Transactions of the engine that follow each other are a history. *)
Fixpoint linked (db : auto_db) (T : history) : Prop :=
  match T with
  | [] => True
  | (_, e) :: T => tx_before e = db /\ linked (tx_after e) T
  end.

Lemma chained_linked me sw db T :
  linked db T -> Forall (tx_ok budget me sw) (snd <$> T) -> chained db T.
Proof.
  revert db. induction T as [|[k e] T IH]; cbn; [done|]. intros db [Hb HT] [He Hl]%Forall_cons.
  split; [done|]. split; [|by apply IH]. destruct He as [?|He]; [by left | right; by eexists _, _, _].
Qed.

(** A start whose transactions are a part of the history acts only if it claims
    the key of the event in one of them. *)
Lemma start_once {W} db T a (o : Others) cfg execute (w : SourceWorkflow W) ev worker s r s' :
  durable_ok budget db -> chained db T -> engine_start o cfg execute w ev worker s = (r, s') ->
  wk_log s' = wk_log s ++ part a T ->
  wk_world s' = wk_world s \/
  (allowed cfg w ev /\ exists run e, dr_idempotency_key run = event_key w ev /\ (a, e) ∈ T /\
     claim_key run (tx_before e) = Ret (true, tx_after e)).
Proof.
  intros Hok HT Hs Hl.
  destruct (start_claims budget (fun _ => True) (fun _ => True) o cfg execute w ev worker s r s' I Hs)
    as [?|(Ha & run & e & l1 & l2 & Hkey & El & Hc)].
  - intros l El. rewrite Hl in El. apply app_inv_head in El as <-. by apply part_ok with (db := db).
  - by left.
  - right. split; [done|]. exists run, e. split; [done|]. split; [|done].
    rewrite Hl in El. apply app_inv_head in El. apply elem_of_part. rewrite El.
    apply elem_of_app. right. left.
Qed.
End history.

Lemma run_by_id_update id f l :
  (forall r, rr_run_id (f r) = rr_run_id r) ->
  run_by_id id (update_where (fun x => (rr_run_id x =? id)%N) f l) = f <$> run_by_id id l.
Proof.
  intros Hf. induction l as [|r l IH]; [done|]. unfold run_by_id in *. simpl.
  destruct (rr_run_id r =? id)%N eqn:E; simpl; [by rewrite Hf, E | by rewrite E].
Qed.

Lemma run_by_id_other id id' f l :
  (forall r, rr_run_id (f r) = rr_run_id r) -> id' <> id ->
  run_by_id id' (update_where (fun x => (rr_run_id x =? id)%N) f l) = run_by_id id' l.
Proof.
  intros Hf Hne. induction l as [|r l IH]; [done|]. unfold run_by_id in *. simpl.
  destruct (N.eqb_spec (rr_run_id r) id) as [E|E]; simpl; [|by rewrite IH].
  rewrite Hf. destruct (N.eqb_spec (rr_run_id r) id'); [congruence | done].
Qed.

Lemma run_by_id_elem l r : NoDup (rr_run_id <$> l) -> r ∈ l -> run_by_id (rr_run_id r) l = Some r.
Proof.
  induction l as [|x l IH]; [by intros ? ?%elem_of_nil|]. intros [Hx Hn]%NoDup_cons Hr.
  unfold run_by_id in *. simpl. destruct (N.eqb_spec (rr_run_id x) (rr_run_id r)) as [E|E].
  - f_equal. apply elem_of_cons in Hr as [->|Hr]; [done|]. destruct Hx. rewrite E.
    by apply list_elem_of_fmap_2.
  - apply elem_of_cons in Hr as [->|Hr]; [done | by apply IH].
Qed.

Section columns.
Context {JB : Jsonb} {JP : JsonParse} {OS : ObjStr} {JL : JsonbLaws}.

(** What the engine writes to a [checkpoint] or [error] column comes back. *)
Lemma object_column d t :
  json_plain (VDict d) = true -> dumps (stringify (VDict d)) = Ret t ->
  stringify (VDict d) = VDict d ->
  exists u d', jsonb_in t = Ret u /\ jsonb_out u = VDict d'.
Proof.
  intros Hp Ht Hs. rewrite Hs in Ht. destruct (jsonb_plain _ _ Hp Ht) as (u & Hu & _).
  pose proof (jsonb_like _ _ _ Ht Hu) as Hl. unfold dumps in Ht.
  destruct (json_norm (VDict d)) as [x|] eqn:E; simpl in Ht; [|discriminate]. injection Ht as <-.
  rewrite json_norm_dict in E. destruct (norm_obj d); simpl in E; [|discriminate]. injection E as <-.
  simpl in Hl. apply like_dict_inv in Hl as (d' & Hd & _). by exists u, d'.
Qed.

(** Two string members. *)
Lemma pair_column k1 v1 k2 v2 :
  plain_string k1 = true -> plain_string v1 = true -> plain_string k2 = true ->
  plain_string v2 = true ->
  exists t u d', optional_payload (VDict [(k1, VStr v1); (k2, VStr v2)]) = Ret (Some t) /\
    jsonb_in t = Ret u /\ jsonb_out u = VDict d'.
Proof.
  intros H1 H2 H3 H4. set (d := [(k1, VStr v1); (k2, VStr v2)]).
  destruct (dumps (stringify (VDict d))) as [t|x] eqn:E; [|discriminate E].
  destruct (object_column d t) as (u & d' & Hu & Hd); [|done|done|].
  { unfold d. cbn [json_plain forallb fst snd]. by rewrite H1, H2, H3, H4. }
  exists t, u, d'. split; [|done]. unfold optional_payload. fold d. by rewrite E.
Qed.

(** The new run's checkpoint. *)
Lemma empty_column : exists u d', json_column (VDict []) = Ret u /\ jsonb_out u = VDict d'.
Proof.
  destruct (dumps (stringify (VDict []))) as [t|] eqn:E; [|discriminate E].
  destruct (object_column [] t) as (u & d' & Hu & Hd); [done..|]. exists u, d'.
  split; [|done]. unfold json_column. by rewrite E.
Qed.
End columns.

Section alone.
Context {JB : Jsonb} {JP : JsonParse} {OS : ObjStr} {PI : PgInputs} {JL : JsonbLaws}.
Context {W : Type}.
Variable o : Others.
Variable cfg : EngineConfig.
Variable execute : SourceWorkflow W -> EventEnvelope -> M W pyval.
Hypothesis Halone : forall n db, ot_moves o n db = db.

Abbreviation St := (Worker W).

(** The worker after a transaction that leaves the tables [db]. *)
Definition after_tx (db : auto_db) (s : St) : St :=
  mkWorker (S (wk_step s)) db (wk_env s) (wk_world s)
    (wk_log s ++ [mkTx (ot_time o (wk_step s)) (wk_db s) db]).

Lemma on_db_alone {A} (f : datetime -> auto_db -> outcome (A * auto_db)) (s : St) a db :
  f (ot_time o (wk_step s)) (wk_db s) = Ret (a, db) -> on_db o f s = (Ret a, after_tx db s).
Proof. unfold on_db. by rewrite Halone; intros ->. Qed.

(** The worker after a transaction that updates one run. *)
Definition after_update (id : uuid) (f : run_row -> run_row) (s : St) : St :=
  after_tx (with_runs (update_where (fun x => (rr_run_id x =? id)%N) f (ad_runs (wk_db s))) (wk_db s)) s.

Lemma fenced_transition_alone l id st at_ cp res err u v r s :
  transition_columns st at_ cp res err = Ret u -> cast_columns u = Ret v ->
  pg_integer (default 0%Z at_) = Ret (default 0%Z at_) -> run_by_id id (ad_runs (wk_db s)) = Some r ->
  is_current (ot_time o (wk_step s)) l (ad_leases (wk_db s)) = true ->
  let f := apply_update (ot_time o (wk_step s)) v in
  fenced_transition o l id st at_ cp res err s = (decode_run (f r), after_update id f s).
Proof.
  intros Hu Hv Hat Hr Hl f. unfold fenced_transition, bind, lift. rewrite Hu.
  assert (up_attempt v = at_) as Hva.
  { unfold transition_columns in Hu. destruct (optional_payload _); simpl in Hu; [|discriminate].
    destruct (optional_payload _); simpl in Hu; [|discriminate].
    destruct (optional_payload _); simpl in Hu; [|discriminate]. injection Hu as <-.
    unfold cast_columns in Hv. simpl in Hv. destruct (optional_cast _); simpl in Hv; [|discriminate].
    destruct (optional_cast _); simpl in Hv; [|discriminate].
    destruct (optional_cast _); simpl in Hv; [|discriminate]. by injection Hv as <-. }
  rewrite (on_db_alone _ s (f r) (wk_db (after_update id f s))); [done|].
  unfold fenced_update, assert_current, update_run. rewrite Hl. cbn [out_bind]. rewrite Hv.
  cbn [out_bind]. rewrite Hr, Hva, Hat. done.
Qed.

Lemma lease_release_alone l (s : St) :
  lease_release o l s = (Ret tt, after_tx (with_leases (release l (ad_leases (wk_db s))) (wk_db s)) s).
Proof. unfold lease_release. by apply on_db_alone. Qed.

(** The lease is held for longer than the run takes. *)
Definition holds (l : WorkerLease) (s : St) : Prop :=
  exists x, ad_leases (wk_db s) !! wl_execution_id l = Some (mkLeaseRow (wl_worker_id l) (wl_epoch l) x) /\
    forall n, (ot_time o n < x)%Z.

Lemma holds_current l s n : holds l s -> is_current (ot_time o n) l (ad_leases (wk_db s)) = true.
Proof.
  intros (x & Hx & Ht). apply is_current_spec. eexists. split; [exact Hx|]. by split_and!.
Qed.

Lemma holds_release l s : holds l s -> release l (ad_leases (wk_db s)) !! wl_execution_id l = None.
Proof.
  intros (x & Hx & _). unfold release. rewrite Hx. simpl. rewrite String.eqb_refl, Z.eqb_refl. simpl.
  apply lookup_delete_eq.
Qed.

(** ** The action *)

(** The run, its row and its lease before the action. *)
Definition ready_to_run (run : DurableWorkflowRun) (l : WorkerLease) (r : run_row) (s : St) : Prop :=
  run_by_id (dr_run_id run) (ad_runs (wk_db s)) = Some r /\ holds l s /\
  (exists y, decode_column (rr_result r) = Ret y) /\ (exists y, decode_column (rr_error r) = Ret y) /\
  (0 <= rr_attempt r < 2147483647)%Z.

(** Up to the end of the action: the run is RUNNING. *)
Lemma perform_starts run ev l r s :
  ready_to_run run l r s -> plain_string (ee_event_id ev) = true ->
  exists r1 s1, wk_world s1 = wk_world s /\ wk_env s1 = wk_env s /\
    wk_db s1 = with_runs (ad_runs (wk_db s1)) (wk_db s) /\
    run_by_id (dr_run_id run) (ad_runs (wk_db s1)) = Some r1 /\
    (forall id, id <> dr_run_id run -> run_by_id id (ad_runs (wk_db s1)) = run_by_id id (ad_runs (wk_db s))) /\
    rr_status r1 = DR_RUNNING /\ rr_attempt r1 = rr_attempt r /\ rr_result r1 = rr_result r /\
    rr_error r1 = rr_error r /\ rr_last_heartbeat_at r1 = rr_last_heartbeat_at r /\ holds l s1 /\
    exists running, dr_attempt running = rr_attempt r /\
      fenced_transition o l (dr_run_id run) DR_RUNNING None
        (Some [("phase", VStr "execution"); ("event_id", VStr (ee_event_id ev))]) VNone None s
      = (Ret running, s1).
Proof.
  intros (Hr & Hl & (y & Hy) & (z & Hz) & Ha) Hp.
  destruct (pair_column "phase" "execution" "event_id" (ee_event_id ev)) as (t & u & d' & Ht & Hu & Hd);
    [done..|].
  set (f := apply_update (ot_time o (wk_step s)) (mkUpdate DR_RUNNING None (Some u) None None)).
  assert (exists running, decode_run (f r) = Ret running /\ dr_attempt running = rr_attempt r)
    as (running & Hrun & Hatt).
  { unfold decode_run, decode_object. cbn. rewrite Hd. cbn. rewrite Hy. cbn. rewrite Hz. cbn.
    destruct (rr_identity r) as [[[[? ?] ?] ?] ?]. by eexists. }
  exists (f r), (after_update (dr_run_id run) f s). do 2 (split; [done|]). split; [done|].
  split; [cbn [after_update after_tx wk_db with_runs ad_runs]; by rewrite run_by_id_update, Hr|].
  split; [intros id Hid; by apply run_by_id_other|]. do 5 (split; [done|]). split; [exact Hl|].
  exists running. split; [done|].
  rewrite (fenced_transition_alone l (dr_run_id run) DR_RUNNING None _ _ _
    (mkUpdate DR_RUNNING None (Some t) None None) (mkUpdate DR_RUNNING None (Some u) None None) r s);
    [by fold f; rewrite Hrun | | | done | done | by apply holds_current].
  - unfold transition_columns. cbn [from_option]. by rewrite Ht.
  - unfold cast_columns. cbn. by rewrite Hu.
Qed.

(** The worker after the release of its lease. *)
Definition released (l : WorkerLease) (s : St) : St :=
  after_tx (with_leases (release l (ad_leases (wk_db s))) (wk_db s)) s.

Lemma finish_alone l r a s : finish o l r a s = (Ret (mkDurableReceipt r a false), released l s).
Proof. unfold finish, bind. by rewrite lease_release_alone. Qed.

Lemma decode_run_parts r c y z :
  decode_object (rr_checkpoint r) = Ret c -> decode_column (rr_result r) = Ret y ->
  decode_column (rr_error r) = Ret z ->
  exists run, decode_run r = Ret run /\ dr_status run = rr_status r /\ dr_attempt run = rr_attempt r /\
    dr_result run = y /\ dr_error run = z /\ dr_run_id run = rr_run_id r.
Proof.
  intros Hc Hy Hz. unfold decode_run. rewrite Hc. cbn. rewrite Hy. cbn. rewrite Hz. cbn.
  destruct (rr_identity r) as [[[[? ?] ?] ?] ?]. by eexists.
Qed.

(** The action returned [x]: the run is COMPLETED; decoding it may still fail,
    and then the lease is kept. *)
Lemma perform_returns run w ev l r s x world t u :
  ready_to_run run l r s -> plain_string (ee_event_id ev) = true ->
  execute w ev (wk_world s) = (Ret x, world) ->
  optional_payload x = Ret t -> optional_cast t = Ret u ->
  exists r2 s2, run_by_id (dr_run_id run) (ad_runs (wk_db s2)) = Some r2 /\
    rr_status r2 = DR_COMPLETED /\ rr_attempt r2 = rr_attempt r /\
    rr_result r2 = (match u with Some _ => u | None => rr_result r end) /\
    wk_world s2 = world /\ wk_env s2 = wk_env s /\
    wk_db s2 = with_runs (ad_runs (wk_db s2)) (wk_db s) /\
    (forall id, id <> dr_run_id run ->
       run_by_id id (ad_runs (wk_db s2)) = run_by_id id (ad_runs (wk_db s))) /\
    match decode_column (rr_result r2) with
    | Ret y => exists run2, decode_run r2 = Ret run2 /\ dr_status run2 = DR_COMPLETED /\
        dr_result run2 = y /\
        perform_run o execute run w ev l s = (Ret (mkDurableReceipt run2 None false), released l s2)
    | Raise e => decode_run r2 = Raise e /\ perform_run o execute run w ev l s = (Raise e, s2)
    end.
Proof.
  intros Hready Hp Hx Ht Hu. pose proof Hready as (_ & _ & _ & (z & Hz) & _).
  destruct (perform_starts run ev l r s Hready Hp) as (r1 & s1 & Hw & He & Hdb & Hr1 & Hoth & _ & Ha &
    Hres & Herr & _ & Hl & running & _ & Hstart).
  destruct (pair_column "phase" "completed" "event_id" (ee_event_id ev)) as (tc & uc & d' & Htc & Huc & Hd);
    [done..|].
  set (s1' := mkWorker (wk_step s1) (wk_db s1) (wk_env s1) world (wk_log s1)).
  set (f := apply_update (ot_time o (wk_step s1')) (mkUpdate DR_COMPLETED None (Some uc) u None)).
  exists (f r1), (after_update (dr_run_id run) f s1').
  split; [cbn [after_update after_tx wk_db with_runs ad_runs s1']; by rewrite run_by_id_update, Hr1|].
  split; [done|]. split; [done|]. split; [cbn; by destruct u|]. split; [done|]. split; [done|].
  split; [cbn; by rewrite Hdb|].
  split; [intros id Hid; rewrite <- (Hoth id Hid); by apply run_by_id_other|].
  assert (perform_run o execute run w ev l s =
    match decode_run (f r1) with
    | Ret run2 => (Ret (mkDurableReceipt run2 None false), released l (after_update (dr_run_id run) f s1'))
    | Raise e => (Raise e, after_update (dr_run_id run) f s1')
    end) as ->.
  { unfold perform_run, bind at 1. rewrite Hstart. unfold on_world. rewrite Hw, Hx. fold s1'.
    unfold bind. rewrite (fenced_transition_alone l (dr_run_id run) DR_COMPLETED None _ _ _
      (mkUpdate DR_COMPLETED None (Some tc) t None) (mkUpdate DR_COMPLETED None (Some uc) u None) r1 s1').
    - fold f. destruct (decode_run (f r1)); [by rewrite finish_alone | done].
    - unfold transition_columns. cbn [from_option]. rewrite Htc. cbn. by rewrite Ht.
    - unfold cast_columns. cbn. rewrite Huc. cbn. by rewrite Hu.
    - done.
    - done.
    - by apply holds_current. }
  destruct (decode_column (rr_result (f r1))) as [y|e] eqn:Ey.
  - destruct (decode_run_parts (f r1) (VDict d') y z) as (run2 & -> & ? & _ & ? & _); [| done | |].
    + unfold decode_object. cbn. by rewrite Hd.
    + cbn. by rewrite Herr.
    + by exists run2.
  - assert (decode_run (f r1) = Raise e) as ->; [|done].
    unfold decode_run, decode_object. cbn. rewrite Hd. cbn.
    change (match u with Some t0 => Some t0 | None => rr_result r1 end) with (rr_result (f r1)).
    by rewrite Ey.
Qed.

(** The action raised: the run is RECOVERING with one more attempt, the error is
    recorded and the lease is released. *)
Lemma perform_raises run w ev l r s x world :
  ready_to_run run l r s -> plain_string (ee_event_id ev) = true ->
  execute w ev (wk_world s) = (Raise x, world) ->
  plain_string (class_name (exn_cls x)) = true -> plain_string (exn_msg x) = true ->
  exists r2 s2 run2, run_by_id (dr_run_id run) (ad_runs (wk_db s2)) = Some r2 /\
    rr_status r2 = DR_RECOVERING /\ rr_attempt r2 = (rr_attempt r + 1)%Z /\
    rr_result r2 = rr_result r /\ is_Some (rr_error r2) /\
    wk_world s2 = world /\ wk_env s2 = wk_env s /\
    wk_db s2 = with_runs (ad_runs (wk_db s2)) (wk_db s) /\
    (forall id, id <> dr_run_id run ->
       run_by_id id (ad_runs (wk_db s2)) = run_by_id id (ad_runs (wk_db s))) /\
    decode_run r2 = Ret run2 /\
    perform_run o execute run w ev l s = (Ret (mkDurableReceipt run2 None false), released l s2).
Proof.
  intros Hready Hp Hx Hc Hm. pose proof Hready as (_ & _ & (y & Hy) & _ & Hatt).
  destruct (perform_starts run ev l r s Hready Hp) as (r1 & s1 & Hw & He & Hdb & Hr1 & Hoth & _ & Ha &
    Hres & Herr & _ & Hl & running & Hra & Hstart).
  destruct (pair_column "phase" "recovery" "event_id" (ee_event_id ev)) as (tc & uc & d' & Htc & Huc & Hd);
    [done..|].
  destruct (pair_column "type" (class_name (exn_cls x)) "message" (exn_msg x))
    as (te & ue & de & Hte & Hue & Hde); [done..|].
  set (s1' := mkWorker (wk_step s1) (wk_db s1) (wk_env s1) world (wk_log s1)).
  set (f := apply_update (ot_time o (wk_step s1'))
              (mkUpdate DR_RECOVERING (Some (rr_attempt r + 1)%Z) (Some uc) None (Some ue))).
  destruct (decode_run_parts (f r1) (VDict d') y (VDict de)) as (run2 & Hrun2 & _ & _ & _ & _ & _).
  { unfold decode_object. cbn. by rewrite Hd. }
  { cbn. by rewrite Hres. }
  { cbn. by rewrite Hde. }
  exists (f r1), (after_update (dr_run_id run) f s1'), run2.
  split; [cbn [after_update after_tx wk_db with_runs ad_runs s1']; by rewrite run_by_id_update, Hr1|].
  split; [done|]. split; [done|]. split; [done|]. split; [done|]. split; [done|]. split; [done|].
  split; [cbn; by rewrite Hdb|].
  split; [intros id Hid; rewrite <- (Hoth id Hid); by apply run_by_id_other|]. split; [done|].
  unfold perform_run, bind at 1. rewrite Hstart. unfold on_world. rewrite Hw, Hx, Hra. fold s1'.
  unfold bind. rewrite (fenced_transition_alone l (dr_run_id run) DR_RECOVERING
    (Some (rr_attempt r + 1)%Z) _ _ _
    (mkUpdate DR_RECOVERING (Some (rr_attempt r + 1)%Z) (Some tc) None (Some te))
    (mkUpdate DR_RECOVERING (Some (rr_attempt r + 1)%Z) (Some uc) None (Some ue)) r1 s1').
  - fold f. by rewrite Hrun2, finish_alone.
  - unfold transition_columns. cbn [from_option]. rewrite Htc. cbn [out_bind]. by rewrite Hte.
  - unfold cast_columns. cbn. rewrite Huc. cbn. by rewrite Hue.
  - unfold pg_integer. cbn. by rewrite (proj2 (Z.leb_le _ _)), (proj2 (Z.leb_le _ _)) by lia.
  - done.
  - by apply holds_current.
Qed.

(** ** Reaching the action *)

Lemma lease_claim_alone id worker (s : St) :
  worker <> "" -> ad_leases (wk_db s) !! id = None ->
  (forall i j, (ot_time o i < ot_time o j + en_lease_ttl cfg)%Z) ->
  exists l s', lease_claim o cfg id worker s = (Ret (Some l), s') /\
    wl_execution_id l = id /\ wl_worker_id l = worker /\ holds l s' /\ wk_world s' = wk_world s /\
    (exists t, wk_db s' = with_leases t (wk_db s)).
Proof.
  intros Hw Hn Ht. unfold lease_claim, bind, wk_env_op. cbn [utc_now].
  set (s1 := mkWorker _ _ _ (wk_world s) _). set (x := (ot_time o (wk_step s) + en_lease_ttl cfg)%Z).
  eexists (mkLease id worker 1 x), _. split.
  - apply on_db_alone. change (ad_leases (wk_db s1)) with (ad_leases (wk_db s)).
    cbn [wk_db s1 wk_step]. unfold claim.
    rewrite (proj2 (String.eqb_neq worker "") Hw), Hn. cbn [out_bind fst snd]. reflexivity.
  - split; [done|]. split; [done|]. split; [|split; [done | by eexists]].
    exists x. cbn. rewrite lookup_insert_eq. split; [done|]. intros n. apply Ht.
Qed.

(** A [start] of a new event, with its lease free, reaches [_execute]. *)
Lemma start_reaches w ev worker (s : St) :
  let k := (ee_tenant_id ev, ee_workspace_id ev, sw_workflow_id w, sw_version w, ee_event_id ev) in
  let run := fst (new_run (ee_tenant_id ev) (ee_workspace_id ev) (sw_workflow_id w) (sw_version w)
                    (ee_event_id ev) (wk_env s)) in
  workflow_matches w ev = true -> worker <> "" ->
  run_by_event k (ad_runs (wk_db s)) = None ->
  existsb (fun x => (rr_run_id x =? dr_run_id run)%N ||
                    String.eqb (rr_idempotency_key x) (default_key k)) (ad_runs (wk_db s)) = false ->
  ad_claims (wk_db s) !! default_key k = None -> ad_leases (wk_db s) !! dr_run_id run = None ->
  (forall i j, (ot_time o i < ot_time o j + en_lease_ttl cfg)%Z) ->
  exists l r s3, engine_start o cfg execute w ev worker s = execute_run o cfg execute run w ev l false s3 /\
    ready_to_run run l r s3 /\ rr_attempt r = 0%Z /\ rr_result r = None /\ rr_error r = None /\
    wl_execution_id l = dr_run_id run /\ wl_worker_id l = worker /\
    wk_world s3 = wk_world s /\ ad_runs (wk_db s3) = ad_runs (wk_db s) ++ [r] /\
    is_Some (ad_claims (wk_db s3) !! default_key k) /\
    ad_approvals (wk_db s3) = ad_approvals (wk_db s) /\ ad_effects (wk_db s3) = ad_effects (wk_db s).
Proof.
  intros k. destruct (new_run _ _ _ _ _ (wk_env s)) as [run e] eqn:En. cbn [fst].
  intros Hm Hw Hk Hx Hc Hl Ht. unfold engine_start. rewrite Hm. cbn [negb].
  unfold bind at 1, wk_env_op at 1. rewrite En.
  set (s1 := mkWorker (wk_step s) (wk_db s) e (wk_world s) (wk_log s)).
  destruct empty_column as (u & d' & Hu & Hd).
  assert (run_key run = k /\ dr_idempotency_key run = default_key k /\ dr_status run = DR_RECEIVED /\
    dr_attempt run = 0%Z /\ dr_checkpoint run = VNone) as (Ek & Ekey & Est & Eatt & Ecp).
  { unfold new_run in En. cbn [uuid4] in En. by injection En as <- _. }
  set (row := mkRunRow (dr_run_id run) k DR_RECEIVED 0 u None None (default_key k)
                (ot_time o (wk_step s1)) (ot_time o (wk_step s1)) 0 None).
  set (s2 := after_tx (with_runs (ad_runs (wk_db s1) ++ [row]) (wk_db s1)) s1).
  assert (runs_create o run s1 = (Ret run, s2)) as E2.
  { unfold runs_create, bind. rewrite (on_db_alone _ s1 true (wk_db s2)); [done|].
    unfold insert_run. rewrite Eatt, Ecp, Ek, Ekey, Est. cbn [truthy]. rewrite Hu.
    change (ad_runs (wk_db s1)) with (ad_runs (wk_db s)).
    change (pg_integer 0) with (Ret 0%Z). cbn [out_bind]. by rewrite Hk, Hx. }
  unfold bind at 1. rewrite E2.
  set (s3 := after_tx (with_claims (<[default_key k :=
    (dr_tenant_id run, dr_workspace_id run, dr_run_id run)]> (ad_claims (wk_db s2))) (wk_db s2)) s2).
  assert (claim_idempotency o run s2 = (Ret true, s3)) as E3.
  { unfold claim_idempotency. apply (on_db_alone _ s2 true (wk_db s3)). unfold claim_key. rewrite Ekey.
    change (ad_claims (wk_db s2)) with (ad_claims (wk_db s)). by rewrite Hc. }
  unfold bind at 1. rewrite E3. cbn [negb].
  destruct (lease_claim_alone (dr_run_id run) worker s3) as (l & s4 & E4 & Hid & Hwk & Hh & Hwd & t & Hdb);
    [done | exact Hl | done|].
  exists l, row, s4. unfold bind at 1. rewrite E4. split; [done|]. rewrite Hdb.
  assert (run_by_id (dr_run_id run) (ad_runs (wk_db s4)) = Some row) as Hrow.
  { rewrite Hdb. cbn. unfold run_by_id. rewrite find_app.
    replace (List.find _ (ad_runs (wk_db s))) with (@None run_row).
    - cbn. by rewrite N.eqb_refl.
    - clear -Hx. induction (ad_runs (wk_db s)) as [|r rs IH]; [done|]. simpl in *.
      apply orb_false_iff in Hx as [Hx1 Hx2]. apply orb_false_iff in Hx1 as [-> _]. by apply IH. }
  split.
  { unfold ready_to_run. split; [done|]. split; [done|]. do 2 (split; [by eexists|]). cbn. lia. }
  do 3 (split; [done|]). split; [done|]. split; [done|]. split; [by rewrite Hwd|].
  split; [done|]. split; [cbn; rewrite lookup_insert_eq; by eexists | done].
Qed.

(** A resumption of an approved request reaches [_execute], whatever the status
    of its run. *)
Lemma resume_reaches id worker w (s : St) u a d' ty r run :
  pg_uuid id = Ret u -> approval_by_id u (ad_approvals (wk_db s)) = Some a ->
  aw_decision a = AP_APPROVED -> jsonb_out (aw_event_payload a) = VDict d' ->
  aw_event_type a = Some ty ->
  run_by_event (aw_tenant_id a, aw_workspace_id a, aw_workflow_id a, sw_version w, aw_event_id a)
    (ad_runs (wk_db s)) = Some r ->
  run_by_id (rr_run_id r) (ad_runs (wk_db s)) = Some r ->
  decode_run r = Ret run -> (0 <= rr_attempt r < 2147483647)%Z ->
  worker <> "" -> ad_leases (wk_db s) !! rr_run_id r = None ->
  (forall i j, (ot_time o i < ot_time o j + en_lease_ttl cfg)%Z) ->
  exists l s4 created, let ev := mkEnvelope (aw_event_id a) (aw_tenant_id a) (aw_workspace_id a) ty
      (aw_event_id a) d' created (from_option VStr VNone (aw_source_id a)) None in
    engine_resume o cfg execute id worker w s = execute_run o cfg execute run w ev l true s4 /\
    ready_to_run run l r s4 /\ wl_execution_id l = rr_run_id r /\ wk_world s4 = wk_world s /\
    (exists t, wk_db s4 = with_leases t (wk_db s)).
Proof.
  intros Hu Ha Hap Hpay Hty Hev Hid Hrun Hatt Hw Hl Ht.
  assert (forall s' : St, ad_approvals (wk_db s') = ad_approvals (wk_db s) ->
    exists a' s2, approvals_get o id s' = (Ret (Some a'), s2) /\ ap_decision a' = AP_APPROVED /\
      ap_tenant_id a' = aw_tenant_id a /\ ap_workspace_id a' = aw_workspace_id a /\
      ap_workflow_id a' = aw_workflow_id a /\ ap_event_id a' = aw_event_id a /\
      wk_db s2 = wk_db s' /\ wk_world s2 = wk_world s' /\
      exists created, ap_event a' = Some (mkEnvelope (aw_event_id a) (aw_tenant_id a) (aw_workspace_id a)
        ty (aw_event_id a) d' created (from_option VStr VNone (aw_source_id a)) None)) as Hget.
  { intros s' Hs'. unfold approvals_get, bind, query.
    rewrite (on_db_alone _ s' (Some a) (wk_db s')).
    - unfold read_approval, decode_approval, decode_object. rewrite Hpay, Hty. cbn [utc_now wk_env].
      eexists _, _. split; [reflexivity|]. by split_and!; try (eexists; reflexivity).
    - unfold select_approval. by rewrite Hu, Hs'; cbn; rewrite Ha. }
  unfold engine_resume. destruct (Hget s eq_refl) as (a1 & s1 & E1 & Hd1 & H1 & H2 & H3 & H4 & Hdb1 & Hw1 & _).
  unfold bind at 1. rewrite E1, (bool_decide_eq_true_2 _ Hd1). cbn [negb]. rewrite H1, H2, H3, H4.
  unfold bind at 1. unfold runs_get_by_event at 1, bind at 1, query.
  rewrite (on_db_alone _ s1 (Some r) (wk_db s1)) by (by rewrite Hdb1; cbn; rewrite Hev).
  unfold bind at 1, lift. rewrite Hrun. cbn [ret].
  set (s2 := after_tx (wk_db s1) s1).
  pose proof (decode_run_key r run Hrun) as (_ & _ & Hrid & Hratt & _).
  destruct (lease_claim_alone (dr_run_id run) worker s2) as (l & s3 & E3 & Hlid & Hwk & Hh & Hwd & t & Hdb);
    [done | cbn; by rewrite Hdb1, Hrid | done|].
  unfold bind at 1. rewrite E3. unfold bind at 1, fenced_resume_event, bind at 1, lease_assert.
  rewrite (on_db_alone _ s3 tt (wk_db s3)).
  2: { unfold assert_current. rewrite (holds_current l s3) by done. done. }
  set (s3' := after_tx (wk_db s3) s3).
  destruct (Hget s3') as (a4 & s4 & E4 & Hd4 & _ & _ & _ & _ & Hdb4 & Hw4 & created & Hev4).
  { cbn. rewrite Hdb. cbn. by rewrite Hdb1. }
  unfold approvals_resume_event, bind at 1. rewrite E4, (bool_decide_eq_true_2 _ Hd4). cbn [negb].
  rewrite Hev4. exists l, s4, created. split; [done|].
  assert (wk_db s4 = with_leases t (wk_db s)) as Hdbs.
  { rewrite Hdb4. cbn. rewrite Hdb. cbn. by rewrite Hdb1. }
  split; [|split; [congruence|split; [|by exists t]]].
  - unfold ready_to_run. rewrite Hrid. split; [by rewrite Hdbs|]. split.
    { destruct Hh as (x & Hx & Hlt). exists x. rewrite Hdb4. done. }
    unfold decode_run in Hrun. destruct (decode_object _); cbn in Hrun; [|discriminate].
    destruct (decode_column (rr_result r)) as [y|]; cbn in Hrun; [|discriminate].
    destruct (decode_column (rr_error r)) as [z|]; cbn in Hrun; [|discriminate].
    split; [by exists y|]. split; [by exists z | done].
  - rewrite Hw4. cbn. rewrite Hwd. cbn. done.
Qed.

(** The action is performed once, whatever becomes of the run afterwards. *)
Lemma perform_world run w ev l r s :
  wl_execution_id l = dr_run_id run -> ready_to_run run l r s -> plain_string (ee_event_id ev) = true ->
  wk_world (snd (perform_run o execute run w ev l s)) = snd (execute w ev (wk_world s)).
Proof.
  intros Hid Hready Hp. set (me := fun _ : string => True). set (sw := fun _ : SweeperConfig => True).
  destruct (perform_starts run ev l r s Hready Hp) as (r1 & s1 & Hw & _ & _ & _ & _ & _ & _ & _ & _ & _ &
    _ & running & _ & Hstart).
  unfold perform_run, bind at 1. rewrite Hstart. unfold on_world. rewrite Hw.
  destruct (execute w ev (wk_world s)) as [[x|x] world];
    set (s1' := mkWorker (wk_step s1) (wk_db s1) (wk_env s1) world (wk_log s1)); change (snd _) with (wk_world s1') at 2;
    refine (proj2 (keeps_bind (quiet 0 me sw o) _ _ (quiet_transition 0 me sw o _ _ _ _ _ _ _ Hid I) _ s1'));
    intros run2; by apply quiet_finish.
Qed.
End alone.
