(* ===== verification/DurableTheorems.v ===== *)
(** * Theorems on durable autonomous runs

    What any number of workers may do to the tables, who acts and how often, what
    becomes of a run, the approval table against the in-memory store, and the
    failures the code does not handle. *)

From stdpp Require Import base gmap strings list relations.
From Stdlib Require Import ZArith Lia.
From S2P Require Import Prelude Uuid Json Jsonb Types Fencing Automation Operations AutonomousRuns.
From S2P Require Import AutonomousEngine AutonomousFacts EngineFacts.
Local Open Scope py_scope.

Section theorems.
Context {JB : Jsonb} {JP : JsonParse} {OS : ObjStr} {PI : PgInputs}.
Context {W : Type}.
Variable execute : SourceWorkflow W -> EventEnvelope -> M W pyval.

(** C3. Whatever calls a worker makes, and whatever other workers, people and
    sweepers do between its transactions, the tables stay well-formed, and the
    transactions of these calls, in the order and at the times the server ran
    them, each on the tables it found, are guarded moves: a run changes only
    while a worker of these calls holds an unexpired lease of that very run,
    without touching its heartbeat or its count of recoveries, or by a sweeper of
    these calls that finds it left behind and within its budget; new runs are
    RECEIVED; claims stay; decided approvals and completed effects are final; a
    lease is taken over only under a larger epoch and given up only by its
    worker. *)
Theorem engine_refines_guarded_moves (budget : Z) (o : Others) (cfg : EngineConfig)
    (l : list (engine_call W)) (s : Worker W) :
  others_ok budget o -> Forall (call_ok budget) l -> durable_ok budget (wk_db s) ->
  let s' := engine_perform_all o cfg execute l s in
  let me worker := exists c, c ∈ l /\ acting c worker in
  let sw x := exists c, c ∈ l /\ sweeping c x in
  durable_ok budget (wk_db s') /\
  exists log, wk_log s' = wk_log s ++ log /\
    followed o (wk_step s) (wk_db s) log (wk_step s') (wk_db s') /\
    Forall (fun e => guarded (tx_time e) me sw (tx_before e) (tx_after e)) log.
Proof.
  intros Ho Hl Hok s' me sw.
  assert (stepped budget me sw o s s') as Hs.
  { apply stepped_perform_all; [done | |]; intros c n Hc Hn; by exists c. }
  split; [|by eapply stepped_guarded].
  eapply auto_steps_move; [by eapply stepped_steps | done].
Qed.

(** C4. [start] acts at most once per event, also when starts run at the same
    time: let [T] be a history of the database that starts from well-formed
    tables, in which the transactions of two starts of the same event occur in
    any interleaving, with each other and with the steps of other workers, people
    and sweepers.  Each start that changes the world was allowed by trigger and
    policy, and only one of the two changes it. *)
Theorem start_acts_at_most_once (budget : Z) (db0 : auto_db) (T : list (nat * transaction))
    (a b : nat) (o o' : Others) (cfg cfg' : EngineConfig) (w w' : SourceWorkflow W)
    (ev ev' : EventEnvelope) (worker worker' : string) (s s1 s' s1' : Worker W)
    (r r' : outcome DurableExecutionReceipt) :
  durable_ok budget db0 -> chained budget db0 T -> a <> b -> event_key w ev = event_key w' ev' ->
  engine_start o cfg execute w ev worker s = (r, s1) -> wk_log s1 = wk_log s ++ part a T ->
  engine_start o' cfg' execute w' ev' worker' s' = (r', s1') -> wk_log s1' = wk_log s' ++ part b T ->
  (wk_world s1 = wk_world s \/ allowed cfg w ev) /\
  (wk_world s1' = wk_world s' \/ allowed cfg' w' ev') /\
  (wk_world s1 = wk_world s \/ wk_world s1' = wk_world s').
Proof.
  intros Hok HT Hab Hk Hs Hl Hs' Hl'.
  destruct (start_once budget db0 T a o cfg execute w ev worker s r s1 Hok HT Hs Hl)
    as [?|(Ha & run & e & Hkey & Hin & Hc)];
  destruct (start_once budget db0 T b o' cfg' execute w' ev' worker' s' r' s1' Hok HT Hs' Hl')
    as [?|(Ha' & run' & e' & Hkey' & Hin' & Hc')]; try (by split_and!; auto).
  destruct (claimed_by_one budget db0 T a b e e' run run' Hok HT Hab Hin Hin'); try done. congruence.
Qed.

(** Preparing a side effect under a new key stores it and then fails: the
    [INSERT] returns two columns and the decoder reads twelve, so the caller gets
    an IndexError for an effect that is in the ledger, and the entry only when
    it asks again. *)
Theorem prepare_new_key_raises (o : Others) (tenant workspace : string) (run : uuid)
    (invocation key capability : string) (request : dict) (t : json_text) (s : Worker W) :
  let db := ot_moves o (wk_step s) (wk_db s) in
  let id := fst (uuid4 (wk_env s)) in
  json_column (VDict request) = Ret t -> effect_by_key key (ad_effects db) = None ->
  existsb (fun x => (er_effect_id x =? id)%N) (ad_effects db) = false ->
  let row := mkEffectRow id tenant workspace run invocation key capability t EF_PREPARED None None None in
  exists s', effects_prepare o tenant workspace run invocation key capability request s
      = (Raise (Exn (OtherException "IndexError") "tuple index out of range"), s') /\
    wk_db s' = with_effects (ad_effects db ++ [row]) db /\
    forall (o' : Others) (s2 : Worker W),
      effect_by_key key (ad_effects (ot_moves o' (wk_step s2) (wk_db s2))) = Some row ->
      fst (effects_prepare o' tenant workspace run invocation key capability request s2) = decode_effect row.
Proof.
  intros db id Ht Hk Hx row. unfold effects_prepare at 1, bind at 1, wk_env_op at 1. cbn [uuid4].
  unfold bind at 1, on_db. cbn [wk_step wk_db]. fold db. unfold prepare_effect at 1. rewrite Ht.
  cbn [out_bind]. rewrite Hk. change (entropy (wk_env s) (drawn (wk_env s))) with id. rewrite Hx.
  eexists. split; [reflexivity|]. split; [done|]. intros o' s2 H2.
  unfold effects_prepare, bind, wk_env_op. cbn [uuid4]. unfold on_db. cbn [wk_step wk_db].
  unfold prepare_effect. rewrite Ht. cbn [out_bind]. by rewrite H2.
Qed.

(** The sweeper takes runs that are being executed: the transition to RUNNING
    leaves the heartbeat where [create] put it, so a run that starts later than
    the stale limit after it was received is moved to RECOVERING by the next
    sweep, at the same instant, while the lease of its worker is current. *)
Theorem active_run_swept (budget now stale max limit : Z) (c : SweeperConfig) (l : WorkerLease)
    (u : run_update) (r row : run_row) (db db' db'' : auto_db) (k : list DurableWorkflowRun) :
  durable_ok budget db -> new_sweeper stale max = Ret c -> up_status u = DR_RUNNING ->
  run_by_id (wl_execution_id l) (ad_runs db) = Some r ->
  (rr_last_heartbeat_at r < now - stale * 1000000)%Z -> (rr_recovery_count r < max)%Z ->
  fenced_update now l (wl_execution_id l) u db = Ret (row, db') ->
  (Z.of_nat (length (ad_runs db')) <= limit)%Z ->
  sweep c (fun _ => false) now limit db' = Ret (k, db'') ->
  rr_status row = DR_RUNNING /\ is_current now l (ad_leases db'') = true /\
  run_by_id (wl_execution_id l) (ad_runs db'') = Some (mark_recovering now row) /\
  rr_status (mark_recovering now row) = DR_RECOVERING.
Proof.
  intros Hok Hc Hu Hr Hhb Hcount Hf Hlim Hs.
  pose proof (fenced_update_move budget _ _ _ _ _ _ _ Hf Hok) as [(Hok' & _) _].
  unfold fenced_update, assert_current in Hf.
  destruct (is_current now l (ad_leases db)) eqn:El; cbn [out_bind] in Hf; [|discriminate].
  unfold update_run in Hf. destruct (cast_columns u) as [v|] eqn:Ev; cbn [out_bind] in Hf; [|discriminate].
  rewrite Hr in Hf. destruct (pg_integer _); cbn [out_bind] in Hf; [|discriminate]. injection Hf as <- <-.
  apply cast_columns_status in Ev. rewrite Hu in Ev.
  set (row := apply_update now v r).
  set (runs := update_where _ _ _) in *. cbn [with_runs ad_runs] in Hok', Hlim.
  assert (run_by_id (wl_execution_id l) runs = Some row) as Hrow.
  { unfold runs. by rewrite run_by_id_update, Hr. }
  assert (rr_run_id row = wl_execution_id l) as Hid by (by apply run_by_id_spec in Hrow as [_ ?]).
  unfold sweep in Hs. destruct (limit <? 1)%Z; [discriminate|].
  destruct (sweep_loop _ _ _) as [k'|] eqn:E; cbn [out_bind] in Hs; [|discriminate]. injection Hs as _ <-.
  destruct Hok' as (Hnd & _). apply sweep_loop_marks in E; [|by apply sweep_candidates_nodup].
  split; [done|]. split; [done|]. split; [|done]. cbn [with_runs ad_runs]. rewrite E.
  apply run_by_id_marked; [done|]. apply list_elem_of_fmap. exists row. split; [done|].
  apply abandoned_candidate; [by apply run_by_id_spec in Hrow as [? _] | | done | done].
  unfold new_sweeper in Hc. destruct (stale <=? 0)%Z; [discriminate|].
  destruct (max <? 1)%Z; [discriminate|]. injection Hc as <-. unfold abandoned. cbn.
  rewrite Ev, bool_decide_eq_true_2 by (by left). cbn.
  by rewrite (proj2 (Z.ltb_lt _ _) Hhb), (proj2 (Z.ltb_lt _ _) Hcount).
Qed.

(** The approval table implements the in-memory approval store: on abstracted
    contents [PostgresApprovalStore.decide] succeeds exactly when
    [InMemoryApprovalStore.decide] does, at the same clock reading, returns the
    same request (but for its event and the exact time of the decision) and
    leaves abstracted contents, also when it refuses: an expired request is
    recorded as expired by both. *)
Theorem pg_decide_refines_memory (PL : PgInputsLaws) (u : uuid) (d : ApprovalDecision)
    (actor : string) (e : Env) (s : approvals) (db db' : auto_db) (row : option approval_row) :
  uuid_ok u -> abstracts s (ad_approvals db) -> NoDup (aw_approval_id <$> ad_approvals db) ->
  decide_approval (fst (utc_now e)) (uuid_str u) d actor db = Ret (row, db') ->
  exists res s' e', approval_decide (uuid_str u) d actor (s, e) = (res, (s', e')) /\
    abstracts s' (ad_approvals db') /\
    match res, row with
    | Ret a, Some r => same_approval a r
    | Raise _, None => True
    | _, _ => False
    end.
Proof.
  intros Hu Hab Hn. unfold decide_approval. rewrite (pg_uuid_str u Hu). cbn [out_bind].
  pose proof (abstracts_get s (ad_approvals db) u Hu Hab) as Hget. unfold approval_decide.
  destruct (approval_by_id u (ad_approvals db)) as [r|] eqn:Er; destruct (dget (uuid_str u) s) as [a|];
    try done; [|intros [= <- <-]; by eexists _, _, _].
  pose proof Hget as (Hid & Ht & Hws & Hwf & Hev & Hre & Hcr & Hexp & Hdec & Hby & Hat).
  rewrite Hdec. destruct (bool_decide (aw_decision r = AP_PENDING)); cbn [negb];
    [|intros [= <- <-]; by eexists _, _, _].
  cbn [utc_now fst]. rewrite Hexp, Z.leb_antisym.
  destruct (clock e (ticks e) <? aw_expires_at r)%Z; cbn [negb]; intros [= <- <-].
  - assert (same_approval (with_decision d (Some actor) (Some (clock e (S (ticks e)))) a)
      (decide_row d (Some actor) (Some (clock e (ticks e))) r)) as Hsame.
    { unfold same_approval. cbn. do 10 (split; [done|]). split; intros _; by eexists. }
    eexists _, _, _. split; [reflexivity|]. split; [|exact Hsame].
    cbn [with_approvals ad_approvals]. apply abstracts_set; try done. intros r' Hr'. rewrite Er in Hr'.
    injection Hr' as <-. exact Hsame.
  - eexists _, _, _. split; [reflexivity|]. split; [|done].
    cbn [with_approvals ad_approvals]. apply abstracts_set; try done. intros r' Hr'. rewrite Er in Hr'.
    injection Hr' as <-. unfold same_approval. cbn. by do 10 (split; [done|]).
Qed.
End theorems.

(** ** One worker alone *)

Section alone.
Context {JB : Jsonb} {JP : JsonParse} {OS : ObjStr} {PI : PgInputs} {JL : JsonbLaws}.
Context {W : Type}.
Variable execute : SourceWorkflow W -> EventEnvelope -> M W pyval.

Definition alone (o : Others) : Prop := forall n db, ot_moves o n db = db.

(** No lease expires while the worker runs. *)
Definition long_leases (o : Others) (cfg : EngineConfig) : Prop :=
  forall i j, (ot_time o i < ot_time o j + en_lease_ttl cfg)%Z.

Definition event_run (w : SourceWorkflow W) (ev : EventEnvelope) (e : Env) : DurableWorkflowRun :=
  fst (new_run (ee_tenant_id ev) (ee_workspace_id ev) (sw_workflow_id w) (sw_version w)
         (ee_event_id ev) e).

(** A matching event that no worker has started, and that the policy allows. *)
Definition fresh_event (cfg : EngineConfig) (w : SourceWorkflow W) (ev : EventEnvelope) (s : Worker W) :
    Prop :=
  let k := (ee_tenant_id ev, ee_workspace_id ev, sw_workflow_id w, sw_version w, ee_event_id ev) in
  let run := event_run w ev (wk_env s) in
  workflow_matches w ev = true /\ plain_string (ee_event_id ev) = true /\
  run_by_event k (ad_runs (wk_db s)) = None /\
  existsb (fun x => (rr_run_id x =? dr_run_id run)%N ||
                    String.eqb (rr_idempotency_key x) (default_key k)) (ad_runs (wk_db s)) = false /\
  ad_claims (wk_db s) !! default_key k = None /\ ad_leases (wk_db s) !! dr_run_id run = None /\
  exists v, policy_evaluate (en_rules cfg) (event_context ev) = Ret v /\ pv_outcome v = ALLOW.

(** Such a [start] performs the run. *)
Lemma fresh_performs o cfg w ev worker (s : Worker W) :
  alone o -> long_leases o cfg -> worker <> "" -> fresh_event cfg w ev s ->
  exists l r s3, engine_start o cfg execute w ev worker s
      = perform_run o execute (event_run w ev (wk_env s)) w ev l s3 /\
    ready_to_run o (event_run w ev (wk_env s)) l r s3 /\ rr_attempt r = 0%Z /\ rr_result r = None /\
    rr_error r = None /\ wl_execution_id l = dr_run_id (event_run w ev (wk_env s)) /\
    wk_world s3 = wk_world s.
Proof.
  intros Ho Ht Hw (Hm & Hp & Hk & Hx & Hc & Hl & v & Hv & Ha).
  destruct (start_reaches o cfg execute Ho w ev worker s Hm Hw Hk Hx Hc Hl Ht)
    as (l & r & s3 & E & Hready & H1 & H2 & H3 & H4 & _ & H5 & _).
  exists l, r, s3. split; [|by split_and!]. etransitivity; [exact E|]. unfold execute_run, bind at 1, lift.
  rewrite Hv, Ha. done.
Qed.

(** What [start] returns for a fresh event that the policy allows, with no
    other worker around: the action is performed once; if it returns, the run is
    COMPLETED with the result as JSON decodes it; if it raises, the run is
    RECOVERING at attempt 1; either way the receipt is the stored run and the
    lease is released. *)
Theorem start_performs_fresh_event (o : Others) (cfg : EngineConfig) (w : SourceWorkflow W)
    (ev : EventEnvelope) (worker : string) (s : Worker W) :
  alone o -> long_leases o cfg -> worker <> "" -> fresh_event cfg w ev s ->
  let id := dr_run_id (event_run w ev (wk_env s)) in
  (forall x world t u y, execute w ev (wk_world s) = (Ret x, world) ->
     optional_payload x = Ret t -> optional_cast t = Ret u -> decode_column u = Ret y ->
     exists r run s', engine_start o cfg execute w ev worker s
         = (Ret (mkDurableReceipt run None false), s') /\ wk_world s' = world /\
       run_by_id id (ad_runs (wk_db s')) = Some r /\ decode_run r = Ret run /\
       dr_status run = DR_COMPLETED /\ dr_result run = y /\ ad_leases (wk_db s') !! id = None) /\
  (forall x world, execute w ev (wk_world s) = (Raise x, world) ->
     plain_string (class_name (exn_cls x)) = true -> plain_string (exn_msg x) = true ->
     exists r run s', engine_start o cfg execute w ev worker s
         = (Ret (mkDurableReceipt run None false), s') /\ wk_world s' = world /\
       run_by_id id (ad_runs (wk_db s')) = Some r /\ decode_run r = Ret run /\
       dr_status run = DR_RECOVERING /\ dr_attempt run = 1%Z /\ is_Some (rr_error r) /\
       ad_leases (wk_db s') !! id = None).
Proof.
  intros Ho Ht Hw Hf id.
  destruct (fresh_performs o cfg w ev worker s Ho Ht Hw Hf)
    as (l & r & s3 & E & Hready & Hatt & Hres & Herr & Hid & Hwd).
  destruct Hf as (_ & Hp & _). rewrite E. clear E. split.
  - intros x world t u y Hx Hxt Hxu Hy. rewrite <- Hwd in Hx.
    destruct (perform_returns o execute Ho _ w ev l r s3 x world t u Hready Hp Hx Hxt Hxu)
      as (r2 & s2 & Hr2 & _ & _ & Hr2res & Hwd2 & _ & Hdb & _ & Hend).
    assert (decode_column (rr_result r2) = Ret y) as Hdec.
    { rewrite Hr2res. destruct u; [exact Hy|]. by rewrite Hres. }
    rewrite Hdec in Hend. destruct Hend as (run2 & Hrun2 & Hst & Hr & ->).
    exists r2, run2, (released o l s2). do 6 (split; [done|]). subst id. rewrite <- Hid. cbn.
    rewrite Hdb. cbn. by apply (holds_release o l s3), Hready.
  - intros x world Hx Hc Hm. rewrite <- Hwd in Hx.
    destruct (perform_raises o execute Ho _ w ev l r s3 x world Hready Hp Hx Hc Hm)
      as (r2 & s2 & run2 & Hr2 & Hst & Hatt2 & _ & He2 & Hwd2 & _ & Hdb & _ & Hrun2 & ->).
    pose proof (decode_run_key r2 run2 Hrun2) as (_ & _ & _ & Ha & Hs).
    exists r2, run2, (released o l s2). do 4 (split; [done|]). split; [congruence|].
    split; [rewrite Ha, Hatt2, Hatt; done|]. split; [done|]. subst id. rewrite <- Hid. cbn.
    rewrite Hdb. cbn. by apply (holds_release o l s3), Hready.
Qed.

(** An action that returns a string breaks its run: the decoder takes a JSON
    string for JSON text, so unless the string parses, [start] raises after it
    has committed the run as COMPLETED; the lease is never released and every
    later read of the run raises the same error. *)
Theorem string_result_raises (o : Others) (cfg : EngineConfig) (w : SourceWorkflow W)
    (ev : EventEnvelope) (worker text : string) (x : exn) (world : W) (s : Worker W) :
  alone o -> long_leases o cfg -> worker <> "" -> fresh_event cfg w ev s ->
  execute w ev (wk_world s) = (Ret (VStr text), world) -> plain_string text = true ->
  json_parse text = Raise x ->
  let id := dr_run_id (event_run w ev (wk_env s)) in
  exists r s', engine_start o cfg execute w ev worker s = (Raise x, s') /\ wk_world s' = world /\
    run_by_id id (ad_runs (wk_db s')) = Some r /\ rr_status r = DR_COMPLETED /\
    is_Some (ad_leases (wk_db s') !! id) /\
    fst (runs_get o id s') = Raise x.
Proof.
  intros Ho Ht Hw Hf Hx Hplain Hparse id.
  destruct (fresh_performs o cfg w ev worker s Ho Ht Hw Hf)
    as (l & r & s3 & E & Hready & Hatt & Hres & Herr & Hid & Hwd).
  destruct Hf as (_ & Hp & _). rewrite E. clear E. rewrite <- Hwd in Hx.
  assert (exists u, jsonb_in (JsonText (VStr text)) = Ret u /\ jsonb_out u = VStr text) as (u & Hu & Hout).
  { destruct (jsonb_plain (VStr text) (JsonText (VStr text))) as (u & Hu & _); [done..|].
    exists u. split; [done|]. apply like_str_inv.
    by apply (jsonb_like (VStr text) (JsonText (VStr text))). }
  destruct (perform_returns o execute Ho _ w ev l r s3 (VStr text) world
      (Some (JsonText (VStr text))) (Some u) Hready Hp Hx)
    as (r2 & s2 & Hr2 & Hst & _ & Hr2res & Hwd2 & _ & Hdb & _ & Hend).
  { done. }
  { cbn. by rewrite Hu. }
  assert (decode_column (rr_result r2) = Raise x) as Hdec by (by rewrite Hr2res; cbn; rewrite Hout).
  rewrite Hdec in Hend. destruct Hend as [Hrun Hend]. exists r2, s2. do 4 (split; [done|]). split.
  { subst id. rewrite <- Hid, Hdb. destruct Hready as (_ & (z & Hz & _) & _). cbn. rewrite Hz. by eexists. }
  unfold runs_get, bind, query. rewrite (on_db_alone o Ho _ s2 (Some r2) (wk_db s2)).
  - unfold lift. by rewrite Hrun.
  - cbn [out_bind]. unfold id. by rewrite Hr2.
Qed.

(** [resume_approval] does not look at the status of the run: as long as the
    lease is free, resuming an approved request performs the action, also when
    the run is COMPLETED already, so resuming twice performs it twice. *)
Theorem resume_repeats_action (PL : PgInputsLaws) (budget : Z) (o : Others) (cfg : EngineConfig)
    (worker : string) (w : SourceWorkflow W) (s : Worker W) (a : approval_row) (d : dict) (ty : string)
    (r : run_row) (run : DurableWorkflowRun) (v : PolicyEvaluation) :
  alone o -> long_leases o cfg -> worker <> "" -> durable_ok budget (wk_db s) ->
  approval_by_id (aw_approval_id a) (ad_approvals (wk_db s)) = Some a -> uuid_ok (aw_approval_id a) ->
  aw_decision a = AP_APPROVED -> jsonb_out (aw_event_payload a) = VDict d ->
  aw_event_type a = Some ty -> plain_string (aw_event_id a) = true ->
  run_by_event (aw_tenant_id a, aw_workspace_id a, aw_workflow_id a, sw_version w, aw_event_id a)
    (ad_runs (wk_db s)) = Some r ->
  decode_run r = Ret run -> (0 <= rr_attempt r < 2147483647)%Z ->
  ad_leases (wk_db s) !! rr_run_id r = None ->
  policy_evaluate (en_rules cfg) (dset "event_type" (VStr ty) d) = Ret v -> pv_outcome v <> DENY ->
  exists created,
    wk_world (snd (engine_resume o cfg execute (uuid_str (aw_approval_id a)) worker w s)) =
    snd (execute w (mkEnvelope (aw_event_id a) (aw_tenant_id a) (aw_workspace_id a) ty (aw_event_id a) d
                      created (from_option VStr VNone (aw_source_id a)) None) (wk_world s)).
Proof.
  intros Ho Ht Hw Hok Ha Hu Hap Hpay Hty Hp Hev Hrun Hatt Hl Hv Hd.
  assert (run_by_id (rr_run_id r) (ad_runs (wk_db s)) = Some r) as Hid.
  { apply List.find_some in Hev as [Hin _]. apply list_elem_of_In in Hin.
    destruct Hok as ((Hn & _) & _). by apply run_by_id_elem. }
  destruct (resume_reaches o cfg execute Ho _ worker w s _ a d ty r run (pg_uuid_str _ Hu) Ha Hap Hpay Hty
    Hev Hid Hrun Hatt Hw Hl Ht) as (l & s4 & created & E & Hready & Hlid & Hwd & _).
  exists created. rewrite E, <- Hwd. unfold execute_run, bind at 1, lift.
  change (event_context _) with (dset "event_type" (VStr ty) d). rewrite Hv.
  rewrite (bool_decide_eq_false_2 _ Hd), andb_false_r.
  apply (perform_world o execute Ho run w _ l r s4); [|done|done].
  by apply decode_run_key in Hrun as (_ & _ & -> & _).
Qed.
End alone.

(** ** Concrete inputs *)

#[local] Existing Instance text_jsonb.
#[local] Existing Instance text_jsonb_laws.

(** No text parses; identifiers are read as Python reads them. *)
#[local] Instance sample_parse : JsonParse := fun _ => raise ValueError "Expecting value".
#[local] Instance sample_objects : ObjStr := fun n => n.
#[local] Instance sample_inputs : PgInputs :=
  {| pg_uuid := uuid_parse;
     pg_text v := match v with
                  | VNone => Ret None
                  | VStr s => Ret (Some s)
                  | _ => raise TypeError "a text was expected"
                  end |}.
#[local] Instance sample_inputs_laws : PgInputsLaws.
Proof. split; [apply uuid_parse_str | reflexivity | reflexivity]. Defined.

Definition quiet_others : Others := mkOthers (fun _ db => db) (fun _ => 1000000000%Z).
Definition sample_engine : EngineConfig := mkEngine [mkRule "low" None LOW false []] 60000000.
Definition empty_auto : auto_db := mkAutoDb [] ∅ [] [] ∅.
Definition sample_worker : Worker nat :=
  mkWorker 0 empty_auto (mkEnv (fun n => Z.of_nat n) 0 (fun n => N.of_nat n + 100)%N 0) 0 [].

(** The world counts the calls. *)
Definition counting (x : outcome pyval) (_ : SourceWorkflow nat) (_ : EventEnvelope) : M nat pyval :=
  fun n => (x, S n).
Definition durable_workflow : SourceWorkflow nat :=
  mkWorkflow "wf" "1" "tenant" "space" (mkTrigger "changed" None []) (fun _ => ret VNone) WF_ENABLED.
Definition durable_event : EventEnvelope :=
  mkEnvelope "e1" "tenant" "space" "changed" "a" [] 0%Z VNone None.
Definition risky_event : EventEnvelope :=
  mkEnvelope "e1" "tenant" "space" "changed" "a" [("requires_approval", VBool true)] 0%Z VNone None.

Lemma quiet_others_ok budget : others_ok budget quiet_others.
Proof. intros n db. apply rtc_refl. Qed.

Lemma quiet_others_alone : alone quiet_others.
Proof. by intros n db. Qed.

Lemma sample_leases : long_leases quiet_others sample_engine.
Proof. intros i j. simpl. lia. Qed.

Lemma empty_auto_ok budget : durable_ok budget empty_auto.
Proof. unfold durable_ok, runs_ok. simpl. split_and!; constructor. Qed.

Lemma durable_fresh : fresh_event sample_engine durable_workflow durable_event sample_worker.
Proof. unfold fresh_event. split_and!; try (vm_compute; reflexivity). by eexists. Qed.

(** The request for the risky event, approved, and a first resumption. *)
Definition sample_request_id : string := uuid_str 100%N.
Definition approved_worker : Worker nat :=
  engine_perform_all quiet_others sample_engine (counting (Ret VNone))
    [EC_start durable_workflow risky_event "w1"; EC_decide sample_request_id AP_APPROVED "ann"]
    sample_worker.
Definition resumed_worker : Worker nat :=
  snd (engine_resume quiet_others sample_engine (counting (Ret VNone)) sample_request_id "w1"
         durable_workflow approved_worker).

Definition anyone {A} (_ : A) : Prop := True.

Lemma resumed_worker_ok : durable_ok 3 (wk_db resumed_worker).
Proof.
  eapply (auto_steps_move 3 (wk_db sample_worker)); [|apply empty_auto_ok].
  transitivity (wk_db approved_worker);
    apply (stepped_steps 3 anyone anyone quiet_others); try apply quiet_others_ok.
  - apply (stepped_perform_all 3 anyone anyone quiet_others sample_engine); [by repeat constructor | done | done].
  - by apply (stepped_resume 3 anyone anyone quiet_others sample_engine).
Qed.

(** Two workers start the same event at the same time: the second creates the
    run, the first does all its work before the second claims the key. *)
Definition worker_at (db : auto_db) (base : N) : Worker nat :=
  mkWorker 0 db (mkEnv (fun n => Z.of_nat n) 0 (fun n => N.of_nat n + base)%N 0) 0 [].
Definition count_start (o : Others) (worker : string) (s : Worker nat) :=
  engine_start o sample_engine (counting (Ret VNone)) durable_workflow durable_event worker s.
Definition whole_start (db : auto_db) : Worker nat :=
  snd (count_start quiet_others "w1" (worker_at db 100)).
Definition racing_others : Others :=
  mkOthers (fun n db => match n with 1 => wk_db (whole_start db) | _ => db end) (fun _ => 1000000000%Z).
Definition second_start : Worker nat := snd (count_start racing_others "w2" (worker_at empty_auto 200)).
Definition created_db : auto_db :=
  match wk_log second_start with e :: _ => tx_after e | [] => empty_auto end.
Definition first_start : Worker nat := whole_start created_db.
Definition race : list (nat * transaction) :=
  match wk_log second_start with
  | e :: log => (1, e) :: ((fun x => (0, x)) <$> wk_log first_start) ++ ((fun x => (1, x)) <$> log)
  | [] => []
  end.

Lemma count_start_log o worker db base :
  Forall (tx_ok 3 anyone anyone) (wk_log (snd (count_start o worker (worker_at db base)))).
Proof.
  destruct (stepped_start 3 anyone anyone o sample_engine (counting (Ret VNone)) durable_workflow
    durable_event worker I (worker_at db base)) as (l & El & _ & Hl).
  unfold count_start. by rewrite El.
Qed.

Lemma first_log : Forall (tx_ok 3 anyone anyone) (wk_log first_start).
Proof. unfold first_start, whole_start. apply count_start_log. Qed.

Lemma second_log : Forall (tx_ok 3 anyone anyone) (wk_log second_start).
Proof. unfold second_start. apply count_start_log. Qed.

Lemma race_chained : chained 3 empty_auto race.
Proof.
  apply (chained_linked 3 anyone anyone); [vm_compute; by split_and!|].
  unfold race. generalize first_log second_log. generalize (wk_log first_start) (wk_log second_start).
  intros l [|e log] Hl Hl'; [constructor|]. apply Forall_cons in Hl' as [He Hl'].
  cbn. rewrite fmap_app, <- !list_fmap_compose. unfold compose. cbn. rewrite !list_fmap_id.
  constructor; [done|]. by apply Forall_app.
Qed.

(** ** Witnesses *)

Lemma engine_refines_guarded_moves_witness :
  let l := [EC_start durable_workflow risky_event "w1"; EC_decide sample_request_id AP_APPROVED "ann";
            EC_resume sample_request_id "w2" durable_workflow;
            EC_sweep (mkSweeper 300 3) (fun _ => false) 10] in
  let s' := engine_perform_all quiet_others sample_engine (counting (Ret VNone)) l sample_worker in
  let me worker := exists c, c ∈ l /\ acting c worker in
  let sw x := exists c, c ∈ l /\ sweeping c x in
  wk_world s' = 1 /\ durable_ok 3 (wk_db s') /\
  exists log, wk_log s' = wk_log sample_worker ++ log /\
    followed quiet_others (wk_step sample_worker) (wk_db sample_worker) log (wk_step s') (wk_db s') /\
    Forall (fun e => guarded (tx_time e) me sw (tx_before e) (tx_after e)) log.
Proof.
  intros l s' me sw. split; [vm_compute; reflexivity|].
  apply (engine_refines_guarded_moves (counting (Ret VNone)) 3 quiet_others sample_engine l sample_worker).
  - apply quiet_others_ok.
  - unfold l. repeat constructor; simpl; [discriminate | lia].
  - apply empty_auto_ok.
Defined.

Lemma start_acts_at_most_once_witness :
  length race = 10 /\ wk_world first_start = 1 /\
  wk_world second_start = wk_world (worker_at empty_auto 200).
Proof.
  split; [vm_compute; reflexivity|]. split; [vm_compute; reflexivity|].
  destruct (start_acts_at_most_once (counting (Ret VNone)) 3 empty_auto race 0 1 quiet_others racing_others
    sample_engine sample_engine durable_workflow durable_workflow durable_event durable_event "w1" "w2"
    (worker_at created_db 100) first_start (worker_at empty_auto 200) second_start
    (fst (count_start quiet_others "w1" (worker_at created_db 100)))
    (fst (count_start racing_others "w2" (worker_at empty_auto 200)))) as (_ & _ & [H|H]).
  - apply empty_auto_ok.
  - apply race_chained.
  - discriminate.
  - reflexivity.
  - vm_compute. reflexivity.
  - vm_compute. reflexivity.
  - vm_compute. reflexivity.
  - vm_compute. reflexivity.
  - vm_compute in H. discriminate H.
  - exact H.
Defined.

Lemma prepare_new_key_raises_witness :
  exists s', effects_prepare quiet_others "tenant" "space" 7%N "inv" "key" "cap" [] sample_worker
      = (Raise (Exn (OtherException "IndexError") "tuple index out of range"), s') /\
    length (ad_effects (wk_db s')) = 1.
Proof.
  destruct (prepare_new_key_raises (W := nat) quiet_others "tenant" "space" 7%N "inv" "key" "cap" []
    (JsonText (VDict [])) sample_worker) as (s' & E & Hdb & _); try (vm_compute; reflexivity).
  exists s'. split; [exact E|]. rewrite Hdb. vm_compute. reflexivity.
Defined.

(** A run received long ago that starts now. *)
Definition old_run : run_row :=
  mkRunRow 7%N ("tenant", "space", "wf", "1", "e1") DR_RECEIVED 0 (JsonText (VDict [])) None None
    (default_key ("tenant", "space", "wf", "1", "e1")) 0%Z 0%Z 0 None.
Definition old_lease : WorkerLease := mkLease 7%N "w1" 1 2000000000%Z.
Definition old_db : auto_db :=
  mkAutoDb [old_run] ∅ [] [] (<[7%N := mkLeaseRow "w1" 1 2000000000%Z]> ∅).
Definition to_running : run_update := mkUpdate DR_RUNNING None None None None.

Definition start_time : datetime := 1000000000%Z.

Lemma active_run_swept_witness :
  exists row db' db'' k,
    fenced_update start_time old_lease 7%N to_running old_db = Ret (row, db') /\
    sweep (mkSweeper 300 3) (fun _ => false) start_time 10%Z db' = Ret (k, db'') /\
    rr_status row = DR_RUNNING /\ is_current start_time old_lease (ad_leases db'') = true /\
    run_by_id 7%N (ad_runs db'') = Some (mark_recovering start_time row) /\
    rr_status (mark_recovering start_time row) = DR_RECOVERING.
Proof.
  eexists _, _, _, _. split; [vm_compute; reflexivity|]. split; [vm_compute; reflexivity|].
  apply (active_run_swept 3 start_time 300 3 10 (mkSweeper 300 3) old_lease to_running old_run _ old_db
    (with_runs [apply_update start_time to_running old_run] old_db) _
    [mkRun 7%N "tenant" "space" "wf" "1" "e1" DR_RECOVERING 0 (VDict []) VNone VNone
       (default_key ("tenant", "space", "wf", "1", "e1"))]);
    try (vm_compute; reflexivity).
  - unfold durable_ok, runs_ok. simpl.
    split_and!; try apply NoDup_singleton; repeat constructor; simpl; lia.
  - vm_compute. discriminate.
Defined.

Lemma pg_decide_refines_memory_witness :
  let e := mkEnv (fun n => Z.of_nat n) 0 (fun n => N.of_nat n) 0 in
  let a := mkApproval (uuid_str 100%N) "t" "w" "wf" "e1" "why" 0%Z 9%Z None AP_PENDING None None in
  let r := mkApprovalRow 100%N "t" "w" "wf" "e1" "why" AP_PENDING 0%Z 9%Z None None (JsonText (VDict []))
             None None None in
  let db := with_approvals [r] empty_auto in
  exists row db' res s' e', decide_approval (fst (utc_now e)) (uuid_str 100%N) AP_APPROVED "ann" db
      = Ret (row, db') /\ is_Some row /\
    approval_decide (uuid_str 100%N) AP_APPROVED "ann" ([(uuid_str 100%N, a)], e) = (res, (s', e')) /\
    abstracts s' (ad_approvals db') /\
    match res, row with
    | Ret a, Some r => same_approval a r
    | Raise _, None => True
    | _, _ => False
    end.
Proof.
  intros e a r db.
  set (r' := decide_row AP_APPROVED (Some "ann") (Some 0%Z) r).
  exists (Some r'), (with_approvals [r'] db).
  destruct (pg_decide_refines_memory sample_inputs_laws 100%N AP_APPROVED "ann" e [(uuid_str 100%N, a)] db
    (with_approvals [r'] db) (Some r')) as (res & s' & e' & H1 & H2 & H3).
  - vm_compute. reflexivity.
  - split; [|repeat constructor; vm_compute; reflexivity]. constructor; [|constructor].
    split; [reflexivity|]. unfold same_approval. do 10 (split; [reflexivity|]).
    split; intros [? H]; discriminate H.
  - apply NoDup_singleton.
  - vm_compute. reflexivity.
  - exists res, s', e'. split; [vm_compute; reflexivity|]. split; [by eexists|]. by split_and!.
Defined.

Lemma start_performs_fresh_event_witness :
  exists r run s', engine_start quiet_others sample_engine (counting (Ret (VInt 5))) durable_workflow
      durable_event "w1" sample_worker = (Ret (mkDurableReceipt run None false), s') /\ wk_world s' = 1 /\
    run_by_id 100%N (ad_runs (wk_db s')) = Some r /\ decode_run r = Ret run /\
    dr_status run = DR_COMPLETED /\ dr_result run = VInt 5 /\ ad_leases (wk_db s') !! 100%N = None.
Proof.
  destruct (start_performs_fresh_event (counting (Ret (VInt 5))) quiet_others sample_engine
    durable_workflow durable_event "w1" sample_worker quiet_others_alone sample_leases ltac:(discriminate)
    durable_fresh) as [H _].
  apply (H (VInt 5) 1 (Some (JsonText (VInt 5))) (Some (JsonText (VInt 5))) (VInt 5)); reflexivity.
Defined.

Lemma string_result_raises_witness :
  exists r s', engine_start quiet_others sample_engine (counting (Ret (VStr "done"))) durable_workflow
      durable_event "w1" sample_worker = (Raise (Exn ValueError "Expecting value"), s') /\
    wk_world s' = 1 /\ run_by_id 100%N (ad_runs (wk_db s')) = Some r /\ rr_status r = DR_COMPLETED /\
    is_Some (ad_leases (wk_db s') !! 100%N) /\
    fst (runs_get quiet_others 100%N s') = Raise (Exn ValueError "Expecting value").
Proof.
  apply (string_result_raises (counting (Ret (VStr "done"))) quiet_others sample_engine durable_workflow
    durable_event "w1" "done" _ 1 sample_worker quiet_others_alone sample_leases ltac:(discriminate)
    durable_fresh); reflexivity.
Defined.

(** The run is COMPLETED by the first resumption, and the second acts again. *)
Lemma resume_repeats_action_witness :
  exists a r, wk_world resumed_worker = 1 /\
    ad_approvals (wk_db resumed_worker) = [a] /\ ad_runs (wk_db resumed_worker) = [r] /\
    rr_status r = DR_COMPLETED /\ uuid_str (aw_approval_id a) = sample_request_id /\
    exists created,
      wk_world (snd (engine_resume quiet_others sample_engine (counting (Ret VNone))
        (uuid_str (aw_approval_id a)) "w2" durable_workflow resumed_worker)) =
      snd (counting (Ret VNone) durable_workflow (mkEnvelope "e1" "tenant" "space" "changed" "e1"
        [("requires_approval", VBool true)] created VNone None) (wk_world resumed_worker)).
Proof.
  eexists _, _. split; [vm_compute; reflexivity|]. split; [vm_compute; reflexivity|].
  split; [vm_compute; reflexivity|]. split; [reflexivity|]. split; [reflexivity|].
  eapply (resume_repeats_action (counting (Ret VNone)) sample_inputs_laws 3 quiet_others sample_engine "w2"
    durable_workflow resumed_worker _ [("requires_approval", VBool true)] "changed" _ _ _
    quiet_others_alone sample_leases ltac:(discriminate) resumed_worker_ok).
  all: try (vm_compute; reflexivity).
  - vm_compute. split; [discriminate | reflexivity].
  - vm_compute. discriminate.
Defined.
