(* ===== verification/SourceLimits.v ===== *)
(** * Rate limits and retries of the source gateway

    [infrastructure/source_gateway/limits.py] (a token bucket),
    [rate_limits.py] (one bucket per key) and [retry.py] (bounded retry
    decisions).  Rates, tokens and delays are binary64; [monotonic()] and the
    seeded [Random] are streams of floats. *)

From stdpp Require Import base gmap strings list.
From Stdlib Require Import ZArith Lia Floats.SpecFloat.
From S2P Require Import Prelude Recovery.
Local Open Scope py_scope.

Abbreviation fadd := (SFadd 53 1024).
Abbreviation fsub := (SFsub 53 1024).
Abbreviation fmul := (SFmul 53 1024).
Abbreviation fdiv := (SFdiv 53 1024).

Definition zero_float : spec_float := S754_zero false.
Definition one_float : spec_float := S754_finite false 4503599627370496 (-52).

(** Python's [max(a, b)] keeps [a] unless [a < b]. *)
Definition py_max (a b : spec_float) : spec_float := if SFltb a b then b else a.

(** A stream of floats and how much of it has been read. *)
Record float_stream := mkStream { fs_at : nat -> spec_float; fs_read : nat }.

Definition next_float (s : float_stream) : spec_float * float_stream :=
  (fs_at s (fs_read s), mkStream (fs_at s) (S (fs_read s))).

(** ** [limits.py] *)

Record RateLimitPolicy := mkRatePolicy { rp_capacity : spec_float; rp_refill_per_second : spec_float }.

(** The checks of [RateLimitPolicy.__post_init__]. *)
Definition new_rate_policy (capacity refill : spec_float) : outcome RateLimitPolicy :=
  if SFleb capacity zero_float || SFleb refill zero_float then
    raise ValueError "rate-limit capacity and refill must be positive"
  else Ret (mkRatePolicy capacity refill).

Record RateLimitState := mkRateState { rs_tokens : spec_float; rs_observed_at : spec_float }.

Record TokenBucket := mkBucket { tb_policy : RateLimitPolicy; tb_state : RateLimitState }.

Definition new_bucket (p : RateLimitPolicy) (clock : float_stream) : TokenBucket * float_stream :=
  let '(now, clock) := next_float clock in
  (mkBucket p (mkRateState (rp_capacity p) now), clock).

(** [TokenBucket.acquire] *)
Definition bucket_acquire (cost : spec_float) (b : TokenBucket) (clock : float_stream) :
    outcome bool * TokenBucket * float_stream :=
  let p := tb_policy b in
  if SFleb cost zero_float || SFltb (rp_capacity p) cost then
    (raise ValueError "cost must be > 0 and <= bucket capacity", b, clock)
  else
    let '(now, clock) := next_float clock in
    let elapsed := py_max zero_float (fsub now (rs_observed_at (tb_state b))) in
    let tokens := py_min (rp_capacity p)
                    (fadd (rs_tokens (tb_state b)) (fmul elapsed (rp_refill_per_second p))) in
    if SFltb tokens cost then (Ret false, mkBucket p (mkRateState tokens now), clock)
    else (Ret true, mkBucket p (mkRateState (fsub tokens cost) now), clock).

(** ** [rate_limits.py] *)

Record RateLimitDecision := mkRateDecision {
  rd_allowed : bool;
  rd_retry_after_seconds : spec_float;
  rd_key : string }.

Record RateLimitManager := mkRateManager {
  rm_policies : list (string * RateLimitPolicy);
  rm_buckets : gmap string TokenBucket;
  rm_last_denied : gmap string spec_float }.

Definition new_rate_manager (policies : list (string * RateLimitPolicy)) : RateLimitManager :=
  mkRateManager policies ∅ ∅.

Definition configure (key : string) (p : RateLimitPolicy) (m : RateLimitManager) : RateLimitManager :=
  mkRateManager (dset key p (rm_policies m)) (delete key (rm_buckets m)) (rm_last_denied m).

(** [_bucket]: the bucket of a key is created at its first use. *)
Definition manager_bucket (key : string) (m : RateLimitManager) (clock : float_stream) :
    option TokenBucket * RateLimitManager * float_stream :=
  match dget key (rm_policies m) with
  | None => (None, m, clock)
  | Some p =>
      match rm_buckets m !! key with
      | Some b => (Some b, m, clock)
      | None =>
          let '(b, clock) := new_bucket p clock in
          (Some b, mkRateManager (rm_policies m) (<[key := b]> (rm_buckets m)) (rm_last_denied m), clock)
      end
  end.

(** The division of [allow], by a refill rate that was checked to be positive;
    a rate that is not positive and not zero cannot be configured. *)
Definition retry_after (cost tokens refill : spec_float) : spec_float :=
  py_max zero_float (fdiv (fsub cost tokens) refill).

(** [RateLimitManager.allow] *)
Definition allow (key : string) (cost : spec_float) (m : RateLimitManager) (clock : float_stream) :
    outcome RateLimitDecision * RateLimitManager * float_stream :=
  let '(bucket, m, clock) := manager_bucket key m clock in
  match bucket with
  | None => (Ret (mkRateDecision true zero_float key), m, clock)
  | Some b =>
      let '(r, b, clock) := bucket_acquire cost b clock in
      let m := mkRateManager (rm_policies m) (<[key := b]> (rm_buckets m)) (rm_last_denied m) in
      match r with
      | Raise x => (Raise x, m, clock)
      | Ret true =>
          (Ret (mkRateDecision true zero_float key),
           mkRateManager (rm_policies m) (rm_buckets m) (delete key (rm_last_denied m)), clock)
      | Ret false =>
          let '(now, clock) := next_float clock in
          let refill := match dget key (rm_policies m) with
                        | Some p => rp_refill_per_second p
                        | None => rp_refill_per_second (tb_policy b)
                        end in
          (Ret (mkRateDecision false (retry_after cost (rs_tokens (tb_state b)) refill) key),
           mkRateManager (rm_policies m) (rm_buckets m) (<[key := now]> (rm_last_denied m)), clock)
      end
  end.

(** ** [retry.py] *)

Record RetryPolicy := mkRetryPolicy {
  ry_max_attempts : Z;
  ry_base_delay_seconds : spec_float;
  ry_max_delay_seconds : spec_float;
  ry_jitter_ratio : spec_float }.

(** The checks of [RetryPolicy.__post_init__]. *)
Definition new_retry_policy (attempts : Z) (base max jitter : spec_float) : outcome RetryPolicy :=
  if (attempts <? 1)%Z then raise ValueError "max_attempts must be positive"
  else if SFleb base zero_float || SFleb max zero_float then
    raise ValueError "retry delays must be positive"
  else if SFltb max base then raise ValueError "base delay cannot exceed max delay"
  else if negb (SFleb zero_float jitter && SFleb jitter one_float) then
    raise ValueError "jitter_ratio must be between 0 and 1"
  else Ret (mkRetryPolicy attempts base max jitter).

Record RetryDecision := mkRetryDecision {
  re_retry : bool;
  re_attempt : Z;
  re_delay_seconds : spec_float;
  re_reason : string }.

(** [RetryController.decide] *)
Definition retry_decide (p : RetryPolicy) (attempt : Z) (retryable : bool) (reason : string)
    (random : float_stream) : outcome RetryDecision * float_stream :=
  if (attempt <? 1)%Z then (raise ValueError "attempt must be positive", random)
  else if negb retryable || (ry_max_attempts p <=? attempt)%Z then
    (Ret (mkRetryDecision false attempt zero_float reason), random)
  else
    match float_pow2 (attempt - 1) with
    | Raise x => (Raise x, random)
    | Ret f =>
        let exponential := py_min (ry_max_delay_seconds p) (fmul (ry_base_delay_seconds p) f) in
        let '(r, random) := next_float random in
        let jitter := fmul (fmul exponential (ry_jitter_ratio p)) r in
        (Ret (mkRetryDecision true attempt
                (py_min (ry_max_delay_seconds p) (fadd exponential jitter)) reason), random)
    end.

(** ** Facts *)

Lemma retry_decide_bounded p attempt retryable reason s d s' :
  retry_decide p attempt retryable reason s = (Ret d, s') -> re_retry d = true ->
  SFltb (ry_max_delay_seconds p) (re_delay_seconds d) = false /\ (attempt < ry_max_attempts p)%Z.
Proof.
  unfold retry_decide. intros H Hr. repeat (case_match; simplify_eq/=); try done.
  apply orb_false_iff in H1 as [_ Hlt]. split; [apply py_min_bound | lia].
Qed.
