(* ===== verification/SourceStores.v ===== *)
(** * Stores of the source gateway

    [infrastructure/source_gateway/evidence.py], [ledger.py], [idempotency.py]
    and [cursors.py].  A table is its list of rows, or a map when only its
    primary key is used; a transaction that raises leaves it alone.  The outbox
    table is the one of [Automation].

    The claims of idempotency keys are an interface with laws, implemented by a
    SQLite and a PostgreSQL table. *)

From stdpp Require Import base gmap strings list.
From Stdlib Require Import ZArith Lia.
From S2P Require Import Prelude Json Jsonb Automation.
Local Open Scope py_scope.

(** The SHA-256 digest of the compact UTF-8 text of a value. *)
Class CanonicalSha := canonical_sha : json_text -> string.

(** ** Raw evidence *)

Record RawEvidence := mkEvidence {
  ev_evidence_id : string;
  ev_tenant_id : string;
  ev_workspace_id : string;
  ev_source_id : string;
  ev_source_record_id : string;
  ev_payload : pyval;
  ev_payload_hash : string;
  ev_collected_at : datetime;
  ev_connector_version : string;
  ev_schema_version : string;
  ev_ingestion_run_id : string }.

(** A row of [raw_evidence]. *)
Record evidence_row := mkEvidenceRow {
  re_evidence_id : string;
  re_tenant_id : string;
  re_workspace_id : string;
  re_source_id : string;
  re_source_record_id : string;
  re_payload : json_text;
  re_payload_hash : string;
  re_collected_at : string;
  re_connector_version : string;
  re_schema_version : string;
  re_ingestion_run_id : string }.

(** The columns of the [UNIQUE] constraint. *)
Definition observation (r : evidence_row) : string * string * string * string * string :=
  (re_tenant_id r, re_workspace_id r, re_source_id r, re_source_record_id r, re_payload_hash r).

(** Two rows the primary key or the [UNIQUE] constraint keeps apart. *)
Definition evidence_conflict (a b : evidence_row) : bool :=
  String.eqb (re_evidence_id a) (re_evidence_id b) || bool_decide (observation a = observation b).

Section stores.
Context {IF : IsoFormat} {OS : ObjStr} {CS : CanonicalSha}.

Definition canonical_hash (payload : pyval) : outcome string :=
  t <-? dumps (stringify payload) ;; Ret (canonical_sha t).

(** [if canonical_hash(evidence.payload) != evidence.payload_hash: raise] *)
Definition check_hash (ev : RawEvidence) : outcome unit :=
  h <-? canonical_hash (ev_payload ev) ;;
  if String.eqb h (ev_payload_hash ev) then Ret tt
  else raise ValueError "payload_hash does not match canonical payload".

(** The values of the [INSERT]. *)
Definition new_evidence_row (ev : RawEvidence) : outcome evidence_row :=
  t <-? dumps (stringify (ev_payload ev)) ;;
  Ret (mkEvidenceRow (ev_evidence_id ev) (ev_tenant_id ev) (ev_workspace_id ev) (ev_source_id ev)
         (ev_source_record_id ev) t (ev_payload_hash ev) (isoformat (ev_collected_at ev))
         (ev_connector_version ev) (ev_schema_version ev) (ev_ingestion_run_id ev)).

(** [SQLiteRawEvidenceWriter.append] *)
Definition evidence_append (ev : RawEvidence) (s : list evidence_row) :
    outcome (bool * list evidence_row) :=
  _ <-? check_hash ev ;;
  row <-? new_evidence_row ev ;;
  if existsb (evidence_conflict row) s then Ret (false, s) else Ret (true, s ++ [row]).

(** [SQLiteRawEvidenceWriter.get] and [SQLiteSourceLedger.evidence] *)
Definition evidence_get (id : string) (s : list evidence_row) : outcome (option RawEvidence) :=
  match List.find (fun r => String.eqb (re_evidence_id r) id) s with
  | None => Ret None
  | Some r =>
      match fromisoformat (re_collected_at r) with
      | None => raise ValueError "Invalid isoformat string"
      | Some t =>
          Ret (Some (mkEvidence (re_evidence_id r) (re_tenant_id r) (re_workspace_id r)
                       (re_source_id r) (re_source_record_id r) (loads (re_payload r))
                       (re_payload_hash r) t (re_connector_version r) (re_schema_version r)
                       (re_ingestion_run_id r)))
      end
  end.

(** ** The SQLite ledger: evidence and outbox in one database *)

Record source_ledger := mkLedger {
  sl_evidence : list evidence_row;
  sl_outbox : list event_row }.

(** [SQLiteSourceLedger.commit_ingest]: one transaction for both rows. *)
Definition commit_ingest (ev : RawEvidence) (event : OutboxEvent) (s : source_ledger) :
    outcome (bool * source_ledger) :=
  _ <-? check_hash ev ;;
  if negb (String.eqb (ev_tenant_id ev) (oe_tenant_id event)) ||
     negb (String.eqb (ev_workspace_id ev) (oe_workspace_id event)) then
    raise PermissionError "evidence and outbox event scopes differ"
  else
    row <-? new_evidence_row ev ;;
    if existsb (evidence_conflict row) (sl_evidence s) then Ret (false, s)
    else
      r <-? outbox_append event (sl_outbox s) ;;
      let '(inserted, outbox) := r in
      if inserted then Ret (true, mkLedger (sl_evidence s ++ [row]) outbox) else Ret (false, s).

(** [SQLiteSourceLedger.pending] *)
Definition ledger_pending (limit : Z) (s : source_ledger) : outcome (list OutboxEvent) :=
  outbox_pending limit (sl_outbox s).

(** [SQLiteSourceLedger.mark_published]: [now] is the text of
    [CURRENT_TIMESTAMP]. *)
Definition ledger_mark_published (now : string) (id : string) (s : source_ledger) : source_ledger :=
  mkLedger (sl_evidence s)
    (map (fun r => if String.eqb (eo_event_id r) id
                   then mkEventRow (eo_event_id r) (eo_tenant_id r) (eo_workspace_id r)
                          (eo_event_type r) (eo_aggregate_id r) (eo_payload r) (eo_created_at r)
                          (Some now)
                   else r) (sl_outbox s)).
End stores.

(** ** Claims of idempotency keys *)

(** Tenant, workspace and key. *)
Abbreviation claim_key := (string * string * string)%type.

Record IdempotencyRecord := mkIdemRecord {
  ir_key : claim_key;
  ir_event_id : string;
  ir_created_at : datetime }.

Class SourceClaims (C : Type) := {
  claim_key_for : claim_key -> string -> C -> Env -> outcome bool * C * Env;
  get_claim : claim_key -> C -> outcome (option IdempotencyRecord);
  release_claim : claim_key -> string -> C -> outcome bool * C }.

(** What the gateway relies on: a claim succeeds exactly when the key is free and
    is given back only by naming the event it was made for.  [cl_ok] is the
    representation invariant and [cl_text] what the store accepts as text. *)
Class SourceClaimsLaws (C : Type) `{SourceClaims C} := {
  cl_view : C -> gmap claim_key string;
  cl_ok : C -> Prop;
  cl_text : claim_key -> string -> Prop;
  cl_claim k ev c e : cl_ok c -> cl_text k ev ->
    exists c' e', claim_key_for k ev c e = (Ret (bool_decide (cl_view c !! k = None)), c', e') /\
      cl_ok c' /\ cl_view c' = if decide (cl_view c !! k = None) then <[k := ev]> (cl_view c) else cl_view c;
  cl_get k c : cl_ok c -> cl_text k "" ->
    exists r, get_claim k c = Ret r /\ ir_event_id <$> r = cl_view c !! k;
  cl_release k ev c : cl_ok c -> cl_text k ev ->
    exists c', release_claim k ev c = (Ret (bool_decide (cl_view c !! k = Some ev)), c') /\
      cl_ok c' /\ cl_view c' = if decide (cl_view c !! k = Some ev) then delete k (cl_view c) else cl_view c }.

Section sqlite_claims.
Context {IF : IsoFormat}.

Record claim_row := mkClaimRow { cr_event_id : string; cr_created_at : string }.
Abbreviation claim_table := (gmap claim_key claim_row).

(** [SQLiteIdempotencyStore.claim] *)
Definition sqlite_claim (k : claim_key) (ev : string) (s : claim_table) (e : Env) :
    outcome bool * claim_table * Env :=
  let '(now, e) := utc_now e in
  match s !! k with
  | Some _ => (Ret false, s, e)
  | None => (Ret true, <[k := mkClaimRow ev (isoformat now)]> s, e)
  end.

(** [SQLiteIdempotencyStore.get] *)
Definition sqlite_get_claim (k : claim_key) (s : claim_table) : outcome (option IdempotencyRecord) :=
  match s !! k with
  | None => Ret None
  | Some r => match fromisoformat (cr_created_at r) with
              | Some t => Ret (Some (mkIdemRecord k (cr_event_id r) t))
              | None => raise ValueError "Invalid isoformat string"
              end
  end.

(** [SQLiteIdempotencyStore.release] *)
Definition sqlite_release (k : claim_key) (ev : string) (s : claim_table) : outcome bool * claim_table :=
  match s !! k with
  | Some r => if String.eqb (cr_event_id r) ev then (Ret true, delete k s) else (Ret false, s)
  | None => (Ret false, s)
  end.

#[export] Instance SQLiteIdempotencyStore : SourceClaims claim_table :=
  {| claim_key_for := sqlite_claim; get_claim := sqlite_get_claim; release_claim := sqlite_release |}.

(** Every timestamp can be read back. *)
Definition claims_readable (s : claim_table) : Prop :=
  map_Forall (fun _ r => is_Some (fromisoformat (cr_created_at r))) s.

#[export] Instance SQLiteIdempotencyStore_laws : SourceClaimsLaws claim_table.
Proof.
  refine {| cl_view s := cr_event_id <$> s; cl_ok := claims_readable; cl_text _ _ := True |}.
  - intros k ev c e Hok _. unfold claim_key_for, SQLiteIdempotencyStore, sqlite_claim. cbn [utc_now].
    rewrite lookup_fmap. destruct (c !! k) eqn:E; simpl.
    + by eexists _, _.
    + eexists _, _. split; [done|]. split.
      * apply map_Forall_insert_2; [|done]. cbn. by rewrite fromisoformat_isoformat.
      * by rewrite fmap_insert.
  - intros k c Hok _. unfold get_claim, SQLiteIdempotencyStore, sqlite_get_claim.
    rewrite lookup_fmap. destruct (c !! k) as [r|] eqn:E; simpl; [|by eexists].
    destruct (Hok _ _ E) as [t ->]. by eexists.
  - intros k ev c Hok _. unfold release_claim, SQLiteIdempotencyStore, sqlite_release.
    rewrite lookup_fmap. destruct (c !! k) as [r|] eqn:E; simpl.
    + destruct (String.eqb_spec (cr_event_id r) ev) as [->|Hne].
      * rewrite bool_decide_eq_true_2, decide_True by done. eexists. split; [done|]. split.
        -- by apply map_Forall_delete.
        -- by rewrite fmap_delete.
      * rewrite bool_decide_eq_false_2, decide_False by congruence. by eexists.
    + by eexists.
Defined.
End sqlite_claims.

(** [PostgresIdempotencyStore]: the server dates a claim with its own clock and
    rejects texts with a NUL character. *)
Definition pg_texts (k : claim_key) (ev : string) : bool :=
  plain_string (fst (fst k)) && plain_string (snd (fst k)) && plain_string (snd k) && plain_string ev.

Definition data_error {A} : outcome A := raise (OtherException "DataError") "text with a NUL character".

Abbreviation pg_claim_table := (gmap claim_key (string * datetime)).

Definition pg_claim (k : claim_key) (ev : string) (s : pg_claim_table) (e : Env) :
    outcome bool * pg_claim_table * Env :=
  if negb (pg_texts k ev) then (data_error, s, e)
  else
    let '(now, e) := utc_now e in
    match s !! k with
    | Some _ => (Ret false, s, e)
    | None => (Ret true, <[k := (ev, now)]> s, e)
    end.

Definition pg_get_claim (k : claim_key) (s : pg_claim_table) : outcome (option IdempotencyRecord) :=
  if negb (pg_texts k "") then data_error
  else Ret ((fun r => mkIdemRecord k (fst r) (snd r)) <$> s !! k).

Definition pg_release (k : claim_key) (ev : string) (s : pg_claim_table) : outcome bool * pg_claim_table :=
  if negb (pg_texts k ev) then (data_error, s)
  else
    match s !! k with
    | Some r => if String.eqb (fst r) ev then (Ret true, delete k s) else (Ret false, s)
    | None => (Ret false, s)
    end.

#[export] Instance PostgresIdempotencyStore : SourceClaims pg_claim_table :=
  {| claim_key_for := pg_claim; get_claim := pg_get_claim; release_claim := pg_release |}.

#[export] Instance PostgresIdempotencyStore_laws : SourceClaimsLaws pg_claim_table.
Proof.
  refine {| cl_view s := fst <$> s; cl_ok _ := True; cl_text k ev := pg_texts k ev = true |}.
  - intros k ev c e _ Ht. unfold claim_key_for, PostgresIdempotencyStore, pg_claim.
    rewrite Ht, lookup_fmap. cbn [negb utc_now]. destruct (c !! k) eqn:E; simpl.
    + by eexists _, _.
    + eexists _, _. split; [done|]. split; [done|].
      by rewrite fmap_insert.
  - intros k c _ Ht. unfold get_claim, PostgresIdempotencyStore, pg_get_claim.
    rewrite Ht, lookup_fmap. cbn [negb]. eexists. split; [done|]. by destruct (c !! k).
  - intros k ev c _ Ht. unfold release_claim, PostgresIdempotencyStore, pg_release.
    rewrite Ht, lookup_fmap. cbn [negb]. destruct (c !! k) as [r|] eqn:E; simpl.
    + destruct (String.eqb_spec (fst r) ev) as [->|Hne].
      * rewrite bool_decide_eq_true_2, decide_True by done. eexists. split; [done|]. split; [done|].
        by rewrite fmap_delete.
      * rewrite bool_decide_eq_false_2, decide_False by congruence. by eexists.
    + by eexists.
Defined.

(** ** Cursors *)

Record SourceCursor := mkCursor {
  sc_scope : claim_key;  (** tenant, workspace and source *)
  sc_cursor : string;
  sc_updated_at : datetime;
  sc_version : Z }.

Record cursor_row := mkCursorRow { cu_cursor : string; cu_version : Z; cu_updated_at : string }.
Abbreviation cursor_table := (gmap claim_key cursor_row).

Section cursors.
Context {IF : IsoFormat}.

(** [SQLiteCursorStore.get] *)
Definition cursor_get (k : claim_key) (s : cursor_table) : outcome (option SourceCursor) :=
  match s !! k with
  | None => Ret None
  | Some r => match fromisoformat (cu_updated_at r) with
              | Some t => Ret (Some (mkCursor k (cu_cursor r) t (cu_version r)))
              | None => raise ValueError "Invalid isoformat string"
              end
  end.

(** [SQLiteCursorStore.advance] *)
Definition cursor_advance (k : claim_key) (cursor : string) (expected : option Z) :
    M (cursor_table * Env) SourceCursor := fun se =>
  let '(s, e) := se in
  match cursor_get k s with
  | Raise x => (Raise x, (s, e))
  | Ret current =>
      if match expected, current with
         | Some v, Some c => negb (sc_version c =? v)%Z
         | Some _, None => true
         | None, _ => false
         end then (raise ValueError "source cursor version conflict", (s, e))
      else
        let version := match current with None => 1%Z | Some c => (sc_version c + 1)%Z end in
        let '(now, e) := utc_now e in
        (Ret (mkCursor k cursor now version),
         (<[k := mkCursorRow cursor version (isoformat now)]> s, e))
  end.
End cursors.
