(* ===== verification/SourceGateway.v ===== *)
(** * The source gateway: [infrastructure/source_gateway]

    Credentials ([credentials.py], [manager.py]), provenance ([contracts.py])
    and [SourceGateway] of [gateway.py]: one observation goes through credential
    check, rate limits, the claim of its idempotency key, the commit of evidence
    and event, and the intelligence pipeline.

    Where evidence and events go is an interface, [EvidenceSink], with the SQLite
    ledger and the pair of separate stores as instances.  The pipeline is an
    arbitrary function on a world [W]. *)

From stdpp Require Import base gmap strings list.
From Stdlib Require Import ZArith Lia Floats.SpecFloat.
From S2P Require Import Prelude Uuid Json Automation SourceLimits SourceStores.
Local Open Scope py_scope.

(** [uuid5(NAMESPACE_URL, name)] *)
Class Uuid5 := uuid5 : string -> uuid.

(** ** Credentials *)

Record TenantScope := mkScope { ts_tenant_id : string; ts_workspace_id : string }.

Record CredentialRef := mkCredential {
  cd_credential_id : string;
  cd_tenant_id : string;
  cd_provider : string;
  cd_scopes : list string;
  cd_expires_at : option datetime }.

(** [InMemoryCredentialResolver.resolve] *)
Definition in_memory_resolve (credentials owners : list (string * string)) (strict : bool)
    (ref : CredentialRef) (scope : TenantScope) : outcome string :=
  if negb (String.eqb (cd_tenant_id ref) (ts_tenant_id scope)) then
    raise PermissionError "credential belongs to another tenant"
  else
    match dget (cd_credential_id ref) owners with
    | None => if strict then raise PermissionError "credential has no tenant owner"
              else match dget (cd_credential_id ref) credentials with
                   | Some s => Ret s
                   | None => raise KeyError ("credential not configured: " +:+ cd_credential_id ref)
                   end
    | Some owner =>
        if negb (String.eqb owner (ts_tenant_id scope)) then
          raise PermissionError "credential belongs to another tenant"
        else match dget (cd_credential_id ref) credentials with
             | Some s => Ret s
             | None => raise KeyError ("credential not configured: " +:+ cd_credential_id ref)
             end
    end.

Record CredentialMaterial := mkMaterial {
  cm_secret : string;
  cm_client_id : option string;
  cm_token_type : string }.

(** The members of [required] that are not in [granted]. *)
Definition missing_scopes (required granted : list string) : list string :=
  List.filter (fun s => negb (bool_decide (s ∈ granted))) required.

(** [CredentialAuthManager.resolve]; expiry times are aware of their zone. *)
Definition manager_resolve (resolver : CredentialRef -> TenantScope -> outcome string)
    (ref : CredentialRef) (scope : TenantScope) (client_id : option string) (token_type : string)
    (required : list string) (provider : option string) (now : option datetime) (e : Env) :
    outcome CredentialMaterial * Env :=
  if negb (String.eqb (cd_tenant_id ref) (ts_tenant_id scope)) then
    (raise PermissionError "credential belongs to another tenant", e)
  else if match provider with Some p => negb (String.eqb (cd_provider ref) p) | None => false end then
    (raise PermissionError "credential belongs to another provider", e)
  else
    let '(expired, e) :=
      match cd_expires_at ref with
      | None => (false, e)
      | Some t => match now with
                  | Some n => ((t <=? n)%Z, e)
                  | None => let '(n, e) := utc_now e in ((t <=? n)%Z, e)
                  end
      end in
    if expired then (raise PermissionError "credential has expired", e)
    else
      match missing_scopes required (cd_scopes ref) with
      | _ :: _ as missing =>
          (raise PermissionError ("credential lacks required scopes: " +:+
                                  join ", " (sorted_strings (remove_dups missing))), e)
      | [] =>
          match resolver ref scope with
          | Raise x => (Raise x, e)
          | Ret secret =>
              if String.eqb secret "" then (raise PermissionError "credential material is empty", e)
              else (Ret (mkMaterial secret client_id token_type), e)
          end
      end.

(** ** Requests *)

Record SourceProvenance := mkProvenance {
  pr_provider : string;
  pr_endpoint : string;
  pr_operation : string;
  pr_request_id : string;
  pr_resource_id : string;
  pr_cursor : option string;
  pr_observed_at : option datetime;
  pr_metadata : dict }.

Definition opt_str (s : option string) : pyval := from_option VStr VNone s.

Record SourceRequest := mkRequest {
  sq_tenant_id : string;
  sq_workspace_id : string;
  sq_source_type : string;
  sq_source_record_id : string;
  sq_payload : pyval;
  sq_credential : option CredentialRef;
  sq_connector_version : string;
  sq_schema_version : string;
  sq_source_id : string;
  sq_provenance : option SourceProvenance;
  sq_event_type : string;
  sq_idempotency_key : option string;
  sq_observed_at : option datetime;
  sq_rate_limit_lease : option string }.

(** [SourceRequest.__post_init__] on the fields as they were passed. *)
Definition post_init (r : SourceRequest) : SourceRequest :=
  mkRequest (sq_tenant_id r) (sq_workspace_id r) (sq_source_type r) (sq_source_record_id r)
    (match sq_payload r with VNone => VDict [] | v => v end) (sq_credential r)
    (sq_connector_version r) (sq_schema_version r)
    (if String.eqb (sq_source_id r) "" && negb (String.eqb (sq_source_type r) "")
     then sq_source_type r +:+ ":" +:+ sq_source_record_id r else sq_source_id r)
    (sq_provenance r) (sq_event_type r) (sq_idempotency_key r) (sq_observed_at r)
    (sq_rate_limit_lease r).

Record SourceResponse := mkResponse {
  sp_accepted : bool;
  sp_evidence_id : string;
  sp_event_id : string;
  sp_payload_hash : string;
  sp_reason : option string }.

Definition rejected (reason : string) : SourceResponse := mkResponse false "" "" "" (Some reason).

(** What the pipeline is given and what the gateway reads of its result, which
    may have no [reason] at all. *)
Record CanonicalSourceEvent := mkCanonical {
  ce_event_id : string;
  ce_tenant_id : string;
  ce_workspace_id : string;
  ce_source_id : string;
  ce_source_record_id : string;
  ce_event_type : string;
  ce_payload : dict;
  ce_payload_hash : string;
  ce_connector_version : string;
  ce_schema_version : string;
  ce_observed_at : datetime }.

Record PipelineResult := mkPipelineResult { pi_accepted : bool; pi_reason : option (option string) }.

(** ** Where evidence and events go *)

Class EvidenceSink (T : Type) := sink_commit : RawEvidence -> OutboxEvent -> M T bool.

Section sinks.
Context {IF : IsoFormat} {OS : ObjStr} {CS : CanonicalSha}.

(** The ledger is both the evidence writer and the outbox. *)
#[export] Instance LedgerSink : EvidenceSink source_ledger := fun ev event s =>
  match commit_ingest ev event s with
  | Ret (accepted, s') => (Ret accepted, s')
  | Raise x => (Raise x, s)
  end.

(** An evidence writer and an outbox, each of them optional: the outbox is
    written whether or not the evidence was accepted. *)
Abbreviation separate_stores := (option (list evidence_row) * option (list event_row))%type.

#[export] Instance SeparateSink : EvidenceSink separate_stores := fun ev event s =>
  let '(evidence, outbox) := s in
  match match evidence with
        | None => Ret (true, None)
        | Some t => r <-? evidence_append ev t ;; Ret (fst r, Some (snd r))
        end with
  | Raise x => (Raise x, s)
  | Ret (accepted, evidence) =>
      match match outbox with
            | None => Ret (true, None)
            | Some t => r <-? outbox_append event t ;; Ret (fst r, Some (snd r))
            end with
      | Raise x => (Raise x, (evidence, outbox))
      | Ret (outbox_ok, outbox) =>
          if accepted && negb outbox_ok then
            (raise RuntimeError "evidence committed but outbox append failed; use SQLiteSourceLedger for atomicity",
             (evidence, outbox))
          else (Ret accepted, (evidence, outbox))
      end
  end.
End sinks.

(** ** The gateway *)

Section gateway.
Context {IF : IsoFormat} {OS : ObjStr} {CS : CanonicalSha} {U5 : Uuid5}.
Context {T C W : Type} {ES : EvidenceSink T} {SC : SourceClaims C}.

(** The objects the gateway was built with; the auth manager wraps a resolver. *)
Record GatewayConfig := mkGatewayConfig {
  gc_resolver : option (CredentialRef -> TenantScope -> outcome string);
  gc_pipeline : option (CanonicalSourceEvent -> bool -> M W PipelineResult) }.

Record GatewayState := mkGateway {
  gs_sink : T;
  gs_claims : option C;
  gs_limiters : list (string * TokenBucket);
  gs_leases : gmap string (string * string);
  gs_manager : option RateLimitManager;
  gs_clock : float_stream;
  gs_env : Env;
  gs_world : W }.

Implicit Types g : GatewayState.

Definition set_sink v g : GatewayState := ltac:(upd (mkGateway (gs_sink g) (gs_claims g) (gs_limiters g) (gs_leases g) (gs_manager g) (gs_clock g) (gs_env g) (gs_world g)) (gs_sink g) v).
Definition set_claims v g : GatewayState := ltac:(upd (mkGateway (gs_sink g) (gs_claims g) (gs_limiters g) (gs_leases g) (gs_manager g) (gs_clock g) (gs_env g) (gs_world g)) (gs_claims g) v).
Definition set_leases v g : GatewayState := ltac:(upd (mkGateway (gs_sink g) (gs_claims g) (gs_limiters g) (gs_leases g) (gs_manager g) (gs_clock g) (gs_env g) (gs_world g)) (gs_leases g) v).
Definition set_limiters v g : GatewayState := ltac:(upd (mkGateway (gs_sink g) (gs_claims g) (gs_limiters g) (gs_leases g) (gs_manager g) (gs_clock g) (gs_env g) (gs_world g)) (gs_limiters g) v).
Definition set_manager v g : GatewayState := ltac:(upd (mkGateway (gs_sink g) (gs_claims g) (gs_limiters g) (gs_leases g) (gs_manager g) (gs_clock g) (gs_env g) (gs_world g)) (gs_manager g) v).
Definition set_clock v g : GatewayState := ltac:(upd (mkGateway (gs_sink g) (gs_claims g) (gs_limiters g) (gs_leases g) (gs_manager g) (gs_clock g) (gs_env g) (gs_world g)) (gs_clock g) v).
Definition set_env v g : GatewayState := ltac:(upd (mkGateway (gs_sink g) (gs_claims g) (gs_limiters g) (gs_leases g) (gs_manager g) (gs_clock g) (gs_env g) (gs_world g)) (gs_env g) v).
Definition set_world v g : GatewayState := ltac:(upd (mkGateway (gs_sink g) (gs_claims g) (gs_limiters g) (gs_leases g) (gs_manager g) (gs_clock g) (gs_env g) (gs_world g)) (gs_world g) v).

Definition now_g : M GatewayState datetime := fun g =>
  let '(t, e) := utc_now (gs_env g) in (Ret t, set_env e g).
(** [str(uuid4())] *)
Definition new_id : M GatewayState string := fun g =>
  let '(u, e) := uuid4 (gs_env g) in (Ret (uuid_str u), set_env e g).

(** [SourceGateway.__init__]: one bucket per configured policy. *)
Fixpoint init_limiters (policies : list (string * RateLimitPolicy)) (clock : float_stream) :
    list (string * TokenBucket) * float_stream :=
  match policies with
  | [] => ([], clock)
  | (k, p) :: policies =>
      let '(b, clock) := new_bucket p clock in
      let '(l, clock) := init_limiters policies clock in
      ((k, b) :: l, clock)
  end.

(** [resolve_credential] *)
Definition resolve_credential (cfg : GatewayConfig) (ref : CredentialRef) (scope : TenantScope) :
    M GatewayState CredentialMaterial := fun g =>
  if negb (String.eqb (cd_tenant_id ref) (ts_tenant_id scope)) then
    (raise PermissionError "credential belongs to another tenant", g)
  else
    match gc_resolver cfg with
    | None => (raise RuntimeError "credential resolver is not configured", g)
    | Some resolver =>
        let '(r, e) := manager_resolve resolver ref scope None "Bearer" [] None None (gs_env g) in
        (r, set_env e g)
    end.

(** The key of the bucket [_select_rate_limiter] returns. *)
Definition select_rate_limiter (source_type source_id : string) g : option string :=
  if dmem source_type (gs_limiters g) then Some source_type
  else if dmem source_id (gs_limiters g) then Some source_id
  else None.

(** [acquire_rate_limit] *)
Definition acquire_rate_limit (source_type source_id : string) : M GatewayState (option string) := fun g =>
  match select_rate_limiter source_type source_id g with
  | None => (Ret None, g)
  | Some k =>
      match dget k (gs_limiters g) with
      | None => (Ret None, g)
      | Some b =>
          let '(r, b, clock) := bucket_acquire one_float b (gs_clock g) in
          let g := set_clock clock (set_limiters (dset k b (gs_limiters g)) g) in
          match r with
          | Raise x => (Raise x, g)
          | Ret false => (Ret None, g)
          | Ret true =>
              (lease <- new_id ;;
               modify (fun g => set_leases (<[lease := (source_type, source_id)]> (gs_leases g)) g) ;;;
               ret (Some lease)) g
          end
      end
  end.

(** [if request.credential and self._auth_manager: ...] *)
Definition verify_credential (cfg : GatewayConfig) (r : SourceRequest) : M GatewayState bool :=
  match sq_credential r, gc_resolver cfg with
  | Some ref, Some _ =>
      resolve_credential cfg ref (mkScope (sq_tenant_id r) (sq_workspace_id r)) ;;; ret true
  | _, _ => ret false
  end.

Definition rate_key (r : SourceRequest) : string :=
  sq_tenant_id r +:+ ":" +:+ sq_workspace_id r +:+ ":" +:+ sq_source_id r.

(** The tenant's rate limit. *)
Definition check_rate (r : SourceRequest) : M GatewayState bool := fun g =>
  match gs_manager g with
  | None => (Ret true, g)
  | Some m =>
      let '(d, m, clock) := allow (rate_key r) one_float m (gs_clock g) in
      let g := set_clock clock (set_manager (Some m) g) in
      match d with
      | Raise x => (Raise x, g)
      | Ret d => (Ret (rd_allowed d), g)
      end
  end.

(** The lease of the request, or one acquired for it: the reason to reject it. *)
Definition check_lease (r : SourceRequest) : M GatewayState (option string) :=
  match sq_rate_limit_lease r with
  | Some lease => fun g =>
      let scope := gs_leases g !! lease in
      (Ret (if bool_decide (scope = Some (sq_source_type r, sq_source_id r)) then None
            else Some "invalid_rate_limit_lease"),
       set_leases (delete lease (gs_leases g)) g)
  | None => fun g =>
      match select_rate_limiter (sq_source_type r) (sq_source_id r) g with
      | None => (Ret None, g)
      | Some _ =>
          (lease <- acquire_rate_limit (sq_source_type r) (sq_source_id r) ;;
           ret (match lease with None => Some "rate_limited" | Some _ => None end)) g
      end
  end.

(** [request.payload or {}] *)
Definition payload_of (r : SourceRequest) : pyval :=
  if truthy (sq_payload r) then sq_payload r else VDict [].

(** The names the identifiers are derived from. *)
Definition evidence_name (r : SourceRequest) (hash : string) : string :=
  sq_tenant_id r +:+ ":" +:+ sq_workspace_id r +:+ ":" +:+ sq_source_id r +:+ ":" +:+
  sq_source_record_id r +:+ ":" +:+ hash.
Definition evidence_id_of (r : SourceRequest) (hash : string) : string :=
  uuid_str (uuid5 (evidence_name r hash)).
Definition event_id_of (evidence_id : string) : string :=
  uuid_str (uuid5 ("source-outbox:" +:+ evidence_id)).

(** [SourceProvenance.as_dict] *)
Definition provenance_dict (p : SourceProvenance) : M GatewayState dict :=
  observed <- (match pr_observed_at p with Some t => ret t | None => now_g end) ;;
  ret [("provider", VStr (pr_provider p)); ("endpoint", VStr (pr_endpoint p));
       ("operation", VStr (pr_operation p)); ("request_id", VStr (pr_request_id p));
       ("resource_id", VStr (pr_resource_id p)); ("cursor", opt_str (pr_cursor p));
       ("observed_at", VStr (isoformat observed)); ("metadata", VDict (pr_metadata p))].

(** The evidence and the event of a request. *)
Definition build_evidence (r : SourceRequest) (hash : string) : M GatewayState RawEvidence :=
  collected <- (match sq_observed_at r with Some t => ret t | None => now_g end) ;;
  run <- new_id ;;
  ret (mkEvidence (evidence_id_of r hash) (sq_tenant_id r) (sq_workspace_id r) (sq_source_id r)
         (sq_source_record_id r) (payload_of r) hash collected (sq_connector_version r)
         (sq_schema_version r) run).

Definition event_payload (r : SourceRequest) (hash : string) : dict :=
  [("event_type", VStr (sq_event_type r)); ("evidence_id", VStr (evidence_id_of r hash));
   ("source_id", VStr (sq_source_id r)); ("source_record_id", VStr (sq_source_record_id r));
   ("payload_hash", VStr hash); ("connector_version", VStr (sq_connector_version r));
   ("schema_version", VStr (sq_schema_version r))].

Definition build_event (r : SourceRequest) (hash : string) : M GatewayState OutboxEvent :=
  payload <- (match sq_provenance r with
              | Some p => d <- provenance_dict p ;; ret (dset "provenance" (VDict d) (event_payload r hash))
              | None => ret (event_payload r hash)
              end) ;;
  now <- now_g ;;
  ret (mkOutboxEvent (event_id_of (evidence_id_of r hash)) (sq_tenant_id r) (sq_workspace_id r)
         "source.raw_evidence.created" (evidence_id_of r hash) payload now).

Definition key_of (r : SourceRequest) (key : string) : claim_key :=
  (sq_tenant_id r, sq_workspace_id r, key).

(** [if request.idempotency_key and self._idempotency is not None]: the key that
    was claimed, or the event that holds it. *)
Inductive claim_result := NotClaimed | Claimed (k : claim_key) | Duplicate (existing : option string).

Definition claim_idempotency (r : SourceRequest) (event_id : string) : M GatewayState claim_result := fun g =>
  match sq_idempotency_key r, gs_claims g with
  | Some key, Some c =>
      if String.eqb key "" then (Ret NotClaimed, g)
      else
        let '(claimed, c, e) := claim_key_for (key_of r key) event_id c (gs_env g) in
        let g := set_env e (set_claims (Some c) g) in
        match claimed with
        | Raise x => (Raise x, g)
        | Ret true => (Ret (Claimed (key_of r key)), g)
        | Ret false => (out_bind (get_claim (key_of r key) c)
                          (fun found => Ret (Duplicate (ir_event_id <$> found))), g)
        end
  | _, _ => (Ret NotClaimed, g)
  end.

(** Give back what was claimed. *)
Definition release (claimed : claim_result) (event_id : string) : M GatewayState unit := fun g =>
  match claimed, gs_claims g with
  | Claimed k, Some c =>
      let '(r, c) := release_claim k event_id c in
      (match r with Ret _ => Ret tt | Raise x => Raise x end, set_claims (Some c) g)
  | _, _ => (Ret tt, g)
  end.

Definition commit (ev : RawEvidence) (event : OutboxEvent) : M GatewayState bool := fun g =>
  let '(r, s) := sink_commit ev event (gs_sink g) in (r, set_sink s g).

(** Hand the observation to the pipeline: the reason it gives, if it does not
    accept.  The event model only takes mappings as payload. *)
Definition run_pipeline (cfg : GatewayConfig) (r : SourceRequest) (hash event_id : string)
    (verified : bool) : M GatewayState (option string) :=
  match gc_pipeline cfg with
  | None => ret None
  | Some process =>
      now <- now_g ;;
      match payload_of r with
      | VDict d =>
          let event := mkCanonical event_id (sq_tenant_id r) (sq_workspace_id r) (sq_source_id r)
                         (sq_source_record_id r) "source.raw_evidence.created" d hash
                         (sq_connector_version r) (sq_schema_version r) now in
          fun g =>
            let '(o, w) := process event verified (gs_world g) in
            let g := set_world w g in
            match o with
            | Raise x => (Raise x, g)
            | Ret result =>
                (Ret (if pi_accepted result then None
                      else default (Some "intelligence_pipeline_rejected") (pi_reason result)), g)
            end
      | _ => throw (Exn (OtherException "ValidationError") "payload is not a dictionary")
      end
  end.

(** What follows the rate limits. *)
Definition ingest_admitted (cfg : GatewayConfig) (r : SourceRequest) (verified : bool) :
    M GatewayState SourceResponse :=
  hash <- lift (canonical_hash (payload_of r)) ;;
  let evidence_id := evidence_id_of r hash in
  let event_id := event_id_of evidence_id in
  ev <- build_evidence r hash ;;
  event <- build_event r hash ;;
  claimed <- claim_idempotency r event_id ;;
  match claimed with
  | Duplicate existing =>
      ret (mkResponse false (default evidence_id existing) (default event_id existing) hash
             (Some "duplicate_idempotency"))
  | _ =>
      accepted <- try_except (commit ev event) any_exception
                    (fun x => release claimed event_id ;;; throw x) ;;
      if accepted : bool then
        reason <- run_pipeline cfg r hash event_id verified ;;
        ret (mkResponse true evidence_id event_id hash reason)
      else
        release claimed event_id ;;;
        ret (mkResponse false evidence_id event_id hash (Some "duplicate_evidence"))
  end.

(** [SourceGateway.ingest] *)
Definition ingest (cfg : GatewayConfig) (r : SourceRequest) : M GatewayState SourceResponse :=
  verified <- verify_credential cfg r ;;
  allowed <- check_rate r ;;
  if negb allowed then ret (rejected "rate_limited")
  else
    limit <- check_lease r ;;
    match limit with
    | Some reason => ret (rejected reason)
    | None => ingest_admitted cfg r verified
    end.
End gateway.

Arguments GatewayConfig W : clear implicits.
Arguments GatewayState T C W : clear implicits.
