(* ===== verification/SourceFacts.v ===== *)
(** * Facts about the source gateway

    What one call of [ingest] does to the evidence sink and to the claimed keys,
    proved against the interfaces of the claims and of the sink. *)

From stdpp Require Import base gmap strings list relations.
From Stdlib Require Import ZArith Lia Floats.SpecFloat.
From S2P Require Import Prelude Uuid Json Automation SourceLimits SourceStores SourceGateway.
Local Open Scope py_scope.

Section facts.
Context {IF : IsoFormat} {OS : ObjStr} {CS : CanonicalSha} {U5 : Uuid5}.
Context {T C W : Type} {ES : EvidenceSink T} {SC : SourceClaims C} {SL : SourceClaimsLaws C}.
Abbreviation St := (GatewayState T C W).
Implicit Types (g : St) (r : SourceRequest) (cfg : GatewayConfig W).

(** ** What leaves the stores alone *)

Definition quiet g g' : Prop :=
  gs_sink g' = gs_sink g /\ gs_claims g' = gs_claims g /\ gs_world g' = gs_world g.

#[export] Instance quiet_preorder : PreOrder quiet.
Proof. unfold quiet. split; [by intros x | intros x y z (? & ? & ?) (? & ? & ?); split_and!; congruence]. Qed.

Lemma keeps_now : keeps quiet (now_g (T := T) (C := C) (W := W)).
Proof. intros g. done. Qed.
Lemma keeps_id : keeps quiet (new_id (T := T) (C := C) (W := W)).
Proof. intros g. done. Qed.
Hint Resolve keeps_now keeps_id : core.

Lemma verify_quiet cfg r : keeps quiet (verify_credential (T := T) (C := C) cfg r).
Proof.
  unfold verify_credential. repeat keeps_step. intros g. unfold resolve_credential.
  repeat case_match; done.
Qed.

Lemma check_rate_quiet r : keeps quiet (check_rate (T := T) (C := C) (W := W) r).
Proof. intros g. unfold check_rate. repeat case_match; done. Qed.

Lemma acquire_quiet t i : keeps quiet (acquire_rate_limit (T := T) (C := C) (W := W) t i).
Proof.
  intros g. unfold acquire_rate_limit. repeat (case_match; [|done]).
  destruct (bucket_acquire _ _ _) as [[[[] |] b] clock]; done.
Qed.

Lemma check_lease_quiet r : keeps quiet (check_lease (T := T) (C := C) (W := W) r).
Proof.
  unfold check_lease. destruct (sq_rate_limit_lease r); intros g; [done|].
  case_match; [|done].
  refine (keeps_bind _ _ _ (acquire_quiet _ _) _ g). repeat keeps_step.
Qed.

Lemma check_lease_reason r g reason g' :
  check_lease r g = (Ret (Some reason), g') -> reason = "rate_limited" \/ reason = "invalid_rate_limit_lease".
Proof.
  unfold check_lease. destruct (sq_rate_limit_lease r).
  - intros [= H _]. case_bool_decide; naive_solver.
  - case_match; [|done]. unfold bind, ret.
    destruct (acquire_rate_limit _ _ g) as [[[]|] ?]; intros [=]; by auto.
Qed.

Lemma build_evidence_quiet r hash : keeps quiet (build_evidence (T := T) (C := C) (W := W) r hash).
Proof. unfold build_evidence. repeat keeps_step; auto. Qed.

Lemma build_event_quiet r hash : keeps quiet (build_event (T := T) (C := C) (W := W) r hash).
Proof. unfold build_event, provenance_dict. repeat keeps_step; auto. Qed.

Lemma run_pipeline_stores cfg r hash id v g res g' :
  run_pipeline cfg r hash id v g = (res, g') ->
  gs_sink g' = gs_sink g /\ gs_claims g' = gs_claims g /\ (gc_pipeline cfg = None -> res = Ret None).
Proof.
  unfold run_pipeline, now_g. mred. intros H.
  repeat (case_match; simplify_eq/=); split_and!; done.
Qed.

(** ** What is committed for a request *)

Definition evidence_for r (hash : string) (ev : RawEvidence) : Prop :=
  exists collected run,
    ev = mkEvidence (evidence_id_of r hash) (sq_tenant_id r) (sq_workspace_id r) (sq_source_id r)
           (sq_source_record_id r) (payload_of r) hash collected (sq_connector_version r)
           (sq_schema_version r) run /\
    (forall t, sq_observed_at r = Some t -> collected = t).

Definition event_for r (hash : string) (event : OutboxEvent) : Prop :=
  exists payload now,
    event = mkOutboxEvent (event_id_of (evidence_id_of r hash)) (sq_tenant_id r) (sq_workspace_id r)
              "source.raw_evidence.created" (evidence_id_of r hash) payload now /\
    match sq_provenance r with
    | None => payload = event_payload r hash
    | Some _ => exists d, payload = dset "provenance" (VDict d) (event_payload r hash)
    end.

Lemma build_evidence_for r hash g : exists ev g',
  build_evidence r hash g = (Ret ev, g') /\ evidence_for r hash ev /\ quiet g g'.
Proof.
  pose proof (build_evidence_quiet r hash g) as Hq. revert Hq. unfold build_evidence. mred.
  destruct (sq_observed_at r) eqn:Eo; cbn; intros Hq; eexists _, _; split_and!; try done;
    eexists _, _; split; (done || congruence).
Qed.

Lemma build_event_for r hash g : exists event g',
  build_event r hash g = (Ret event, g') /\ event_for r hash event /\ quiet g g'.
Proof.
  pose proof (build_event_quiet r hash g) as Hq. revert Hq.
  unfold build_event, provenance_dict, event_for. mred.
  destruct (sq_provenance r) as [p|]; [destruct (pr_observed_at p)|]; cbn -[event_payload dset]; intros Hq;
    eexists _, _; (split_and!; [done | | done]); eexists _, _; (split; [done|]); eauto.
Qed.

(** ** The keys *)

Definition keys g : gmap claim_key string := from_option cl_view ∅ (gs_claims g).
Definition claims_ok g : Prop := from_option cl_ok True (gs_claims g).

(** The claim store takes the texts of the request. *)
Definition fits (r : SourceRequest) : Prop :=
  forall key, sq_idempotency_key r = Some key ->
    cl_text (key_of r key) "" /\ forall u, cl_text (key_of r key) (uuid_str u).

(** The key under which a request is ingested, by a gateway that keeps claims. *)
Definition keyed g r : option claim_key :=
  match sq_idempotency_key r, gs_claims g with
  | Some key, Some _ => if String.eqb key "" then None else Some (key_of r key)
  | _, _ => None
  end.

(** ** The specification of [ingest]

    A call is refused before anything is written; or its key is taken; or it
    claims its key, if it has one, and tries to commit once: the key stays claimed
    exactly when the commit stored the observation. *)

Inductive outcome_refused : outcome SourceResponse -> Prop :=
  | refused_raises x : outcome_refused (Raise x)
  | refused_limit : outcome_refused (Ret (rejected "rate_limited"))
  | refused_lease : outcome_refused (Ret (rejected "invalid_rate_limit_lease")).

Inductive ingest_spec cfg r (key : option claim_key) :
    T * gmap claim_key string -> outcome SourceResponse -> T * gmap claim_key string -> Prop :=
  | spec_refused s ks res : outcome_refused res -> ingest_spec cfg r key (s, ks) res (s, ks)
  | spec_key_taken s ks k held hash :
      key = Some k -> ks !! k = Some held -> canonical_hash (payload_of r) = Ret hash ->
      ingest_spec cfg r key (s, ks)
        (Ret (mkResponse false held held hash (Some "duplicate_idempotency"))) (s, ks)
  | spec_stored s s' ks hash ev event res :
      (forall k, key = Some k -> ks !! k = None) -> canonical_hash (payload_of r) = Ret hash ->
      evidence_for r hash ev -> event_for r hash event ->
      sink_commit ev event s = (Ret true, s') ->
      (exists reason, res = Ret (mkResponse true (evidence_id_of r hash)
                                   (event_id_of (evidence_id_of r hash)) hash reason) /\
                      (gc_pipeline cfg = None -> reason = None)) \/
      (gc_pipeline cfg <> None /\ exists x, res = Raise x) ->
      ingest_spec cfg r key (s, ks) res
        (s', match key with
             | Some k => <[k := event_id_of (evidence_id_of r hash)]> ks
             | None => ks
             end)
  | spec_known s s' ks hash ev event :
      (forall k, key = Some k -> ks !! k = None) -> canonical_hash (payload_of r) = Ret hash ->
      evidence_for r hash ev -> event_for r hash event ->
      sink_commit ev event s = (Ret false, s') ->
      ingest_spec cfg r key (s, ks)
        (Ret (mkResponse false (evidence_id_of r hash) (event_id_of (evidence_id_of r hash)) hash
                (Some "duplicate_evidence"))) (s', ks)
  | spec_failed s s' ks hash ev event x :
      (forall k, key = Some k -> ks !! k = None) -> canonical_hash (payload_of r) = Ret hash ->
      evidence_for r hash ev -> event_for r hash event ->
      sink_commit ev event s = (Raise x, s') ->
      ingest_spec cfg r key (s, ks) (Raise x) (s', ks).

(** ** The steps that use the claims *)

Definition claimed_key (c : claim_result) : option claim_key :=
  match c with Claimed k => Some k | _ => None end.

Lemma claim_idempotency_spec r id g :
  claims_ok g -> fits r -> (exists u, id = uuid_str u) ->
  exists c g', claim_idempotency r id g = (Ret c, g') /\ claims_ok g' /\
    gs_sink g' = gs_sink g /\ keyed g' r = keyed g r /\
    match c with
    | Duplicate held => exists k ev, keyed g r = Some k /\ keys g !! k = Some ev /\ held = Some ev /\
                                     keys g' = keys g
    | _ => claimed_key c = keyed g r /\
           (forall k, keyed g r = Some k -> keys g !! k = None) /\
           keys g' = match keyed g r with Some k => <[k := id]> (keys g) | None => keys g end
    end.
Proof.
  unfold claims_ok, keys, keyed, claim_idempotency. intros Hok Hf [u ->].
  destruct (sq_idempotency_key r) as [key|] eqn:Ek; [|eexists _, _; split; [done|]; split_and!; done].
  destruct (gs_claims g) as [c|] eqn:Ec; [|eexists _, _; split; [done|]; rewrite Ec; split_and!; done].
  destruct (String.eqb key ""); [eexists _, _; split; [done|]; rewrite Ec; split_and!; done|].
  simpl in *. destruct (Hf _ Ek) as [Hf0 Hfu].
  destruct (cl_claim (key_of r key) (uuid_str u) c (gs_env g) Hok (Hfu u)) as (c' & e' & -> & Hok' & Hv).
  case_decide as Hd.
  - rewrite bool_decide_eq_true_2 by done. eexists _, _. split; [done|]. simpl. split_and!; try done.
    by intros k [= <-].
  - rewrite bool_decide_eq_false_2 by done.
    destruct (cl_get (key_of r key) c' Hok' Hf0) as (rec & -> & Hrec). rewrite Hv in Hrec.
    destruct (cl_view c !! key_of r key) as [ev|] eqn:El; [|done].
    eexists _, _. split; [done|]. simpl. split_and!; try done.
    by exists (key_of r key), ev.
Qed.

Lemma release_spec r c id ks g :
  claims_ok g -> fits r -> (exists u, id = uuid_str u) -> (forall h, c <> Duplicate h) ->
  claimed_key c = keyed g r ->
  (forall k, keyed g r = Some k -> ks !! k = None) ->
  keys g = match keyed g r with Some k => <[k := id]> ks | None => ks end ->
  exists g', release c id g = (Ret tt, g') /\ claims_ok g' /\ gs_sink g' = gs_sink g /\ keys g' = ks.
Proof.
  unfold claims_ok, keys, keyed, release. intros Hok Hf [u ->] Hd Hc Hfree Hks.
  destruct c as [|k|h]; simpl in *; [|clear Hd|by destruct (Hd h)].
  - rewrite <- Hc in Hks. by eexists.
  - rewrite <- Hc in Hks, Hfree. destruct (sq_idempotency_key r) as [key|] eqn:Ek; [|done].
    destruct (gs_claims g) as [c|] eqn:Ec; [|done]. simpl in *.
    destruct (String.eqb key ""); [done|]. injection Hc as ->.
    destruct (Hf _ Ek) as [_ Hfu].
    destruct (cl_release (key_of r key) (uuid_str u) c Hok (Hfu u)) as (c' & -> & Hok' & Hv).
    eexists. split; [done|]. simpl. split_and!; [done|done|].
    rewrite Hv, Hks, lookup_insert_eq, decide_True by done.
    rewrite delete_insert_eq. apply delete_id. by apply Hfree.
Qed.

(** Whether the gateway keeps claims does not change. *)
Definition same_shape g g' : Prop := forall r, keyed g' r = keyed g r.

Lemma quiet_keys g g' : quiet g g' ->
  keys g' = keys g /\ gs_sink g' = gs_sink g /\ (claims_ok g -> claims_ok g') /\
  forall r, keyed g' r = keyed g r.
Proof. unfold quiet, keys, claims_ok, keyed. intros (Hs & Hc & _). rewrite Hc. by split_and!. Qed.

Lemma ingest_admitted_spec cfg r v g res g' :
  claims_ok g -> fits r -> ingest_admitted cfg r v g = (res, g') ->
  claims_ok g' /\ ingest_spec cfg r (keyed g r) (gs_sink g, keys g) res (gs_sink g', keys g').
Proof.
  intros Hok Hf. unfold ingest_admitted. unfold bind at 1, lift.
  destruct (canonical_hash (payload_of r)) as [hash|x] eqn:Eh;
    [|intros [= <- <-]; split; [done | constructor; constructor]].
  destruct (build_evidence_for r hash g) as (ev & g1 & E1 & Hev & Hq1). unfold bind at 1. rewrite E1.
  destruct (build_event_for r hash g1) as (event & g2 & E2 & Hevent & Hq2). unfold bind at 1. rewrite E2.
  destruct (quiet_keys _ _ (transitivity Hq1 Hq2)) as (Hk & Hs & Hcl & Hkd). specialize (Hcl Hok).
  rewrite <- Hk, <- Hs, <- (Hkd r). clear E1 E2 Hq1 Hq2 g1 Hok Hk Hs Hkd g. rename g2 into g.
  set (id := event_id_of (evidence_id_of r hash)) in *.
  assert (exists u, id = uuid_str u) as Hid by by eexists.
  destruct (claim_idempotency_spec r id g Hcl Hf Hid) as (c & g1 & E1 & Hok1 & Hs1 & Hkd1 & Hc).
  unfold bind at 1. rewrite E1. clear E1.
  assert (forall s', (forall h, c <> Duplicate h) -> exists g3, release c id (set_sink s' g1) = (Ret tt, g3) /\
    claims_ok g3 /\ gs_sink g3 = s' /\ keys g3 = keys g) as Hrel.
  { intros s' Hd.
    assert (claimed_key c = keyed g r /\ (forall k, keyed g r = Some k -> keys g !! k = None) /\
      keys g1 = match keyed g r with Some k => <[k := id]> (keys g) | None => keys g end)
      as (Hck & Hfree & Hks) by (destruct c as [| |held]; [done | done | by destruct (Hd held)]).
    apply (release_spec r c id (keys g) (set_sink s' g1)); try done;
      change (keyed (set_sink s' g1) r) with (keyed g1 r); rewrite Hkd1; done. }
  destruct c as [|k|held];
    [| |destruct Hc as (k & held' & Hkey & Hheld & -> & Hk); intros [= <- <-]; split; [done|];
        rewrite Hs1, Hk; by eapply spec_key_taken];
  destruct Hc as (Hck & Hfree & Hks).
  all: unfold bind at 1, try_except, commit; rewrite Hs1;
    destruct (sink_commit ev event (gs_sink g)) as [[accepted|x] s'] eqn:Ec; cbn [any_exception].
  all: destruct (Hrel s') as (g3 & Er & Hok3 & Hs3 & Hk3); [done|].
  all: try (unfold bind at 1; rewrite Er; intros [= <- <-]; split; [done|]; rewrite Hs3, Hk3;
            by eapply spec_failed).
  all: destruct accepted;
    [|unfold bind at 1; rewrite Er; intros [= <- <-]; split; [done|]; rewrite Hs3, Hk3;
      by eapply spec_known].
  all: clear Er Hok3 Hs3 Hk3 g3; unfold bind;
    destruct (run_pipeline cfg r hash id v (set_sink s' g1)) as [o g4] eqn:Ep;
    pose proof (run_pipeline_stores _ _ _ _ _ _ _ _ Ep) as (Hs4 & Hc4 & Hnone);
    assert (keys g4 = keys g1) as Hk4 by (unfold keys; by rewrite Hc4);
    assert (claims_ok g4) as Hok4 by (unfold claims_ok; by rewrite Hc4).
  all: destruct o as [reason|x]; intros [= <- <-]; (split; [done|]); rewrite Hs4, Hk4, Hks;
    eapply spec_stored; try done.
  all: first [left; exists reason; split; [done|]; intros HN; specialize (Hnone HN); congruence
             | right; split; [intros HN; specialize (Hnone HN); discriminate | by eexists]].
Qed.

Lemma ingest_meets_spec cfg r g res g' :
  claims_ok g -> fits r -> ingest cfg r g = (res, g') ->
  claims_ok g' /\ ingest_spec cfg r (keyed g r) (gs_sink g, keys g) res (gs_sink g', keys g').
Proof.
  intros Hok Hf. unfold ingest, bind at 1.
  pose proof (verify_quiet cfg r g) as H1. destruct (verify_credential cfg r g) as [[v|x] g1];
    simpl in H1; destruct (quiet_keys _ _ H1) as (Hk1 & Hs1 & Hok1 & Hkd1); specialize (Hok1 Hok);
    rewrite <- Hk1, <- Hs1, <- (Hkd1 r);
    [|intros [= <- <-]; split; [done | constructor; constructor]].
  clear Hok Hk1 Hs1 Hkd1 H1. unfold bind at 1.
  pose proof (check_rate_quiet r g1) as H2. destruct (check_rate r g1) as [[a|x] g2];
    simpl in H2; destruct (quiet_keys _ _ H2) as (Hk2 & Hs2 & Hok2 & Hkd2); specialize (Hok2 Hok1);
    rewrite <- Hk2, <- Hs2, <- (Hkd2 r);
    [|intros [= <- <-]; split; [done | constructor; constructor]].
  clear Hk2 Hs2 Hkd2 H2. destruct a; cbn [negb];
    [|intros [= <- <-]; split; [done | constructor; constructor]].
  unfold bind at 1.
  pose proof (check_lease_quiet r g2) as H3. destruct (check_lease r g2) as [[l|x] g3] eqn:El;
    simpl in H3; destruct (quiet_keys _ _ H3) as (Hk3 & Hs3 & Hok3 & Hkd3); specialize (Hok3 Hok2);
    rewrite <- Hk3, <- Hs3, <- (Hkd3 r);
    [|intros [= <- <-]; split; [done | constructor; constructor]].
  destruct l as [reason|]; [|by apply ingest_admitted_spec].
  intros [= <- <-]. split; [done|]. constructor.
  apply check_lease_reason in El as [-> | ->]; constructor.
Qed.
End facts.

(** ** The SQLite ledger *)

Section ledger.
Context {IF : IsoFormat} {OS : ObjStr} {CS : CanonicalSha} {U5 : Uuid5}.
Implicit Types s : source_ledger.

(** The row announces the evidence. *)
Definition announces (e : evidence_row) (o : event_row) : Prop :=
  eo_aggregate_id o = re_evidence_id e /\ eo_event_id o = event_id_of (re_evidence_id e) /\
  eo_tenant_id o = re_tenant_id e /\ eo_workspace_id o = re_workspace_id e /\
  eo_event_type o = "source.raw_evidence.created".

(** The identifier and the digest of a row are those of its columns. *)
Definition row_sound (e : evidence_row) : Prop :=
  re_payload_hash e = canonical_sha (re_payload e) /\
  re_evidence_id e = uuid_str (uuid5 (re_tenant_id e +:+ ":" +:+ re_workspace_id e +:+ ":" +:+
    re_source_id e +:+ ":" +:+ re_source_record_id e +:+ ":" +:+ re_payload_hash e)).

Record ledger_ok s : Prop := {
  lo_paired : Forall2 announces (sl_evidence s) (sl_outbox s);
  lo_sound : Forall row_sound (sl_evidence s);
  lo_ids : NoDup (re_evidence_id <$> sl_evidence s);
  lo_observations : NoDup (observation <$> sl_evidence s);
  lo_events : NoDup (eo_event_id <$> sl_outbox s) }.

(** The same event, published or not; a published one stays so. *)
Definition event_kept (a b : event_row) : Prop :=
  eo_event_id b = eo_event_id a /\ eo_tenant_id b = eo_tenant_id a /\
  eo_workspace_id b = eo_workspace_id a /\ eo_event_type b = eo_event_type a /\
  eo_aggregate_id b = eo_aggregate_id a /\ eo_payload b = eo_payload a /\
  eo_created_at b = eo_created_at a /\ (eo_published_at a <> None -> eo_published_at b <> None).

#[export] Instance event_kept_preorder : PreOrder event_kept.
Proof. unfold event_kept. split; [by intros x | intros x y z; naive_solver congruence]. Qed.

(** Nothing is lost. *)
Definition ledger_grows s s' : Prop :=
  (exists new, sl_evidence s' = sl_evidence s ++ new) /\
  (exists kept new, sl_outbox s' = kept ++ new /\ Forall2 event_kept (sl_outbox s) kept).

#[export] Instance ledger_grows_preorder : PreOrder ledger_grows.
Proof.
  split.
  - intros x. split; [exists []; by rewrite app_nil_r|]. exists (sl_outbox x), [].
    split; [by rewrite app_nil_r | reflexivity].
  - intros x y z [[n1 E1] (k1 & m1 & F1 & G1)] [[n2 E2] (k2 & m2 & F2 & G2)]. split.
    { exists (n1 ++ n2). by rewrite E2, E1, app_assoc. }
    rewrite F1 in G2. apply Forall2_app_inv_l in G2 as (k3 & k4 & G3 & G4 & ->).
    exists k3, (k4 ++ m2). split; [by rewrite F2, app_assoc|]. by etransitivity.
Qed.

Lemma existsb_false {A} (f : A -> bool) l : existsb f l = false -> Forall (fun x => f x = false) l.
Proof. intros H. induction l as [|x l IH]; simpl in H; [done|]. apply orb_false_iff in H as [? ?]. auto. Qed.

Lemma NoDup_snoc_distinct {A} (l : list A) x : NoDup l -> Forall (fun y => x <> y) l -> NoDup (l ++ [x]).
Proof. intros Hl Hx. apply NoDup_snoc; [done|]. intros H. by apply (proj1 (Forall_forall _ _) Hx x H). Qed.

Lemma outbox_append_inv event o b o' : outbox_append event o = Ret (b, o') ->
  if b then exists row, o' = o ++ [row] /\ Forall (fun r => eo_event_id row <> eo_event_id r) o /\
    eo_event_id row = oe_event_id event /\ eo_tenant_id row = oe_tenant_id event /\
    eo_workspace_id row = oe_workspace_id event /\ eo_event_type row = oe_event_type event /\
    eo_aggregate_id row = oe_aggregate_id event
  else o' = o.
Proof.
  unfold outbox_append. destruct (dumps _); simpl; [|done].
  destruct (existsb _ o) eqn:E; intros [= <- <-]; [done|]. eexists. split; [done|]. simpl.
  split_and!; try done. apply existsb_false in E. eapply Forall_impl; [exact E|].
  intros x Hx. simpl in Hx. apply String.eqb_neq in Hx. congruence.
Qed.

(** A successful commit appends the evidence row and the row of its event. *)
Lemma commit_ingest_inv r hash ev event s b s' :
  evidence_for r hash ev -> event_for r hash event -> canonical_hash (payload_of r) = Ret hash ->
  commit_ingest ev event s = Ret (b, s') ->
  if b then exists e o, s' = mkLedger (sl_evidence s ++ [e]) (sl_outbox s ++ [o]) /\ announces e o /\
    row_sound e /\ Forall (fun x => evidence_conflict e x = false) (sl_evidence s) /\
    Forall (fun x => eo_event_id o <> eo_event_id x) (sl_outbox s)
  else s' = s.
Proof.
  intros (t & run & -> & _) (payload & now & -> & _) Hh. unfold commit_ingest, check_hash. cbn.
  rewrite Hh. simpl. rewrite String.eqb_refl. simpl. rewrite !String.eqb_refl. simpl.
  unfold new_evidence_row. simpl. unfold canonical_hash in Hh.
  destruct (dumps (stringify (payload_of r))) as [text|]; simpl in *; [|done]. injection Hh as Hh.
  destruct (existsb _ (sl_evidence s)) eqn:Ec; [by intros [= <- <-]|].
  destruct (outbox_append _ _) as [[i o']|] eqn:Eo; simpl; [|done].
  apply outbox_append_inv in Eo. destruct i; intros [= <- <-]; [|done].
  destruct Eo as (row & -> & Hf & E1 & E2 & E3 & E4 & E5). simpl in *.
  eexists _, row. split; [done|]. split; [|split; [|split; [by apply existsb_false|done]]].
  - unfold announces. simpl. by rewrite E1, E2, E3, E4, E5.
  - unfold row_sound. simpl. by rewrite Hh.
Qed.

Lemma commit_ingest_ok r hash ev event s b s' :
  evidence_for r hash ev -> event_for r hash event -> canonical_hash (payload_of r) = Ret hash ->
  commit_ingest ev event s = Ret (b, s') -> ledger_ok s -> ledger_ok s' /\ ledger_grows s s'.
Proof.
  intros He Hv Hh Hc Hok. pose proof (commit_ingest_inv _ _ _ _ _ _ _ He Hv Hh Hc) as H.
  destruct b; [|subst; split; [done|reflexivity]].
  destruct H as (e & o & -> & Ha & Hr & Hn & Ho). destruct Hok. split; [split; simpl|].
  - by apply Forall2_app; [|constructor].
  - by apply Forall_app; split; [|constructor].
  - rewrite fmap_app. apply NoDup_snoc_distinct; [done|]. apply Forall_fmap. eapply Forall_impl; [exact Hn|].
    intros x Hx. simpl. apply orb_false_iff in Hx as [Hx _]. by apply String.eqb_neq.
  - rewrite fmap_app. apply NoDup_snoc_distinct; [done|]. apply Forall_fmap. eapply Forall_impl; [exact Hn|].
    intros x Hx. simpl. apply orb_false_iff in Hx as [_ Hx]. by apply bool_decide_eq_false in Hx.
  - rewrite fmap_app. apply NoDup_snoc_distinct; [done|]. by apply Forall_fmap.
  - split; simpl; [by eexists|]. exists (sl_outbox s), [o]. split; [done | reflexivity].
Qed.

Lemma mark_published_ok now id s :
  ledger_ok s -> ledger_ok (ledger_mark_published now id s) /\ ledger_grows s (ledger_mark_published now id s).
Proof.
  intros [H1 H2 H3 H4 H5]. unfold ledger_mark_published.
  set (f := fun r => if String.eqb (eo_event_id r) id then _ else r).
  assert (forall r, event_kept r (f r)) as Hf.
  { intros r. unfold f, event_kept. case_match; simpl; split_and!; done. }
  split; [split; simpl; try done|].
  - apply Forall2_fmap_r. eapply Forall2_impl; [exact H1|]. intros e o. unfold announces.
    destruct (Hf o) as (E1 & E2 & E3 & E4 & E5 & _). cbv [compose]. by rewrite E1, E2, E3, E4, E5.
  - rewrite <- list_fmap_compose. erewrite list_fmap_ext; [exact H5|]. intros i x _. simpl.
    by destruct (Hf x) as (-> & _).
  - split; simpl; [exists []; by rewrite app_nil_r|]. exists (f <$> sl_outbox s), [].
    split; [by rewrite app_nil_r|]. apply Forall2_fmap_r, Forall_Forall2_diag, Forall_forall.
    intros x _. apply Hf.
Qed.

Lemma ledger_ok_empty : ledger_ok (mkLedger [] []).
Proof. split; simpl; constructor. Qed.

Lemma existsb_true {A} (f : A -> bool) l : existsb f l = true -> exists x, x ∈ l /\ f x = true.
Proof. intros (x & Hx & Hf)%existsb_exists. exists x. split; [by apply list_elem_of_In | done]. Qed.

(** Whether the commit stores the observation or finds it stored, the outbox then
    holds an event with the identifier of the observation. *)
Lemma commit_ingest_announced r hash ev event s b s' :
  evidence_for r hash ev -> event_for r hash event -> canonical_hash (payload_of r) = Ret hash ->
  ledger_ok s -> commit_ingest ev event s = Ret (b, s') ->
  exists o, o ∈ sl_outbox s' /\ eo_event_id o = event_id_of (evidence_id_of r hash).
Proof.
  intros (t & run & -> & _) (payload & now & -> & _) Hh Hok. unfold commit_ingest, check_hash. cbn.
  rewrite Hh. simpl. rewrite String.eqb_refl. simpl. rewrite !String.eqb_refl. simpl.
  unfold new_evidence_row. simpl. unfold canonical_hash in Hh.
  destruct (dumps (stringify (payload_of r))) as [text|]; simpl in *; [|done].
  destruct (existsb _ (sl_evidence s)) eqn:Ec.
  { intros [= <- <-]. apply existsb_true in Ec as (e & He & Hc).
    assert (re_evidence_id e = evidence_id_of r hash) as Hid.
    { unfold evidence_conflict in Hc. cbn [re_evidence_id] in Hc. apply orb_true_iff in Hc as [Hc|Hc].
      - by apply String.eqb_eq in Hc.
      - apply bool_decide_eq_true in Hc. unfold observation in Hc.
        cbn [re_tenant_id re_workspace_id re_source_id re_source_record_id re_payload_hash] in Hc. injection Hc as H1 H2 H3 H4 H5.
        destruct (proj1 (Forall_forall _ _) (lo_sound _ Hok) e He) as [_ ->].
        rewrite <- H1, <- H2, <- H3, <- H4, <- H5. done. }
    apply list_elem_of_lookup in He as [i He].
    destruct (Forall2_lookup_l _ _ _ _ _ (lo_paired _ Hok) He) as (o & Ho & Ha).
    exists o. split; [by eapply list_elem_of_lookup_2|]. destruct Ha as (_ & -> & _). by rewrite Hid. }
  unfold outbox_append. simpl. destruct (dumps (VDict payload)); simpl; [|done].
  destruct (existsb _ (sl_outbox s)) eqn:Eo; simpl; intros [= <- <-].
  - apply existsb_true in Eo as (o & Ho & Hid). exists o. split; [done|]. by apply String.eqb_eq in Hid.
  - eexists. split; [simpl; apply elem_of_app; right; by left | done].
Qed.
End ledger.

(** ** Ingestion over the ledger *)

Section ledger_gateway.
Context {IF : IsoFormat} {OS : ObjStr} {CS : CanonicalSha} {U5 : Uuid5}.
Context {C W : Type} {SC : SourceClaims C} {SL : SourceClaimsLaws C}.
Abbreviation St := (GatewayState source_ledger C W).

Lemma ledger_sink ev event s res s' :
  sink_commit (T := source_ledger) ev event s = (res, s') ->
  match res with Ret b => commit_ingest ev event s = Ret (b, s') | Raise _ => s' = s end.
Proof.
  unfold sink_commit, LedgerSink. destruct (commit_ingest ev event s) as [[b s1]|x]; by intros [= <- <-].
Qed.

Lemma ingest_ledger_ok cfg r (g g' : St) res :
  claims_ok g -> fits (C := C) r -> ingest cfg r g = (res, g') -> ledger_ok (gs_sink g) ->
  claims_ok g' /\ ledger_ok (gs_sink g') /\ ledger_grows (gs_sink g) (gs_sink g').
Proof.
  intros Hok Hf E Hl. destruct (ingest_meets_spec _ _ _ _ _ Hok Hf E) as [Hok' Hs]. split; [done|].
  inversion Hs as [| |? ? ? hash ev event ? ? Hh He Hv Hc|? ? ? hash ev event ? Hh He Hv Hc
                  |? ? ? hash ev event x ? Hh He Hv Hc]; subst; try (by split; [congruence|]).
  all: try (by split; [|reflexivity]).
  1,2: apply ledger_sink in Hc; by eapply commit_ingest_ok.
  apply ledger_sink in Hc. rewrite Hc. by split; [|reflexivity].
Qed.


(** The outbox holds an event with the identifier of the request. *)
Definition announced (s : source_ledger) (r : SourceRequest) : Prop :=
  exists hash o, canonical_hash (payload_of r) = Ret hash /\ o ∈ sl_outbox s /\
    eo_event_id o = event_id_of (evidence_id_of r hash).

Lemma announced_grows s s' r : ledger_grows s s' -> announced s r -> announced s' r.
Proof.
  intros [_ (kept & new & E & Hk)] (hash & o & Hh & Ho & Hid).
  apply list_elem_of_lookup in Ho as [i Ho]. destruct (Forall2_lookup_l _ _ _ _ _ Hk Ho) as (o' & Ho' & Hk').
  exists hash, o'. split; [done|]. rewrite E. split; [apply elem_of_app; left; by eapply list_elem_of_lookup_2|].
  destruct Hk' as (-> & _). done.
Qed.

Lemma ingest_announces cfg r (g g' : St) p :
  claims_ok g -> fits (C := C) r -> ledger_ok (gs_sink g) -> ingest cfg r g = (Ret p, g') ->
  sp_accepted p = true \/ sp_reason p = Some "duplicate_evidence" -> announced (gs_sink g') r.
Proof.
  intros Hok Hf Hl E Hp. destruct (ingest_meets_spec _ _ _ _ _ Hok Hf E) as [_ Hs].
  inversion Hs as [? ? ? Hr| |? ? ? h ev event ? ? Hh Hev Hevt Hc Hres|? ? ? h ev event ? Hh Hev Hevt Hc|]; subst;
    simpl in *.
  - inversion Hr; subst; by destruct Hp.
  - by destruct Hp.
  - apply ledger_sink in Hc. destruct (commit_ingest_announced _ _ _ _ _ _ _ Hev Hevt Hh Hl Hc) as (o & ? & ?).
    by exists h, o.
  - apply ledger_sink in Hc. destruct (commit_ingest_announced _ _ _ _ _ _ _ Hev Hevt Hh Hl Hc) as (o & ? & ?).
    by exists h, o.
Qed.
End ledger_gateway.
