(* ===== verification/SourceRegistry.v ===== *)
(** * Registered sources: [infrastructure/source_registry.py], [source_health.py]

    A source definition with its lifecycle, the SQLite table of definitions, the
    control surface [SourceControlAPI], and the in-process health registry. *)

From stdpp Require Import base gmap strings list sorting.
From Stdlib Require Import ZArith Lia Floats.SpecFloat.
From S2P Require Import Prelude Json SourceLimits SourceStores.
Local Open Scope py_scope.

Inductive SourceStatus := SS_REGISTERED | SS_ENABLED | SS_PAUSED | SS_DEGRADED | SS_DISABLED.

#[export] Instance SourceStatus_eq_dec : EqDecision SourceStatus.
Proof. solve_decision. Defined.

Definition SourceStatus_value (s : SourceStatus) : string :=
  match s with
  | SS_REGISTERED => "registered" | SS_ENABLED => "enabled" | SS_PAUSED => "paused"
  | SS_DEGRADED => "degraded" | SS_DISABLED => "disabled"
  end.

#[export, program] Instance SourceStatus_enum : StrEnum SourceStatus := {|
  enum_value := SourceStatus_value;
  enum_members := [SS_REGISTERED; SS_ENABLED; SS_PAUSED; SS_DEGRADED; SS_DISABLED] |}.
Next Obligation. by intros []. Qed.

(** [_ALLOWED_TRANSITIONS] *)
Definition allowed_transitions (s : SourceStatus) : list SourceStatus :=
  match s with
  | SS_REGISTERED => [SS_ENABLED; SS_DISABLED]
  | SS_ENABLED => [SS_PAUSED; SS_DEGRADED; SS_DISABLED]
  | SS_PAUSED => [SS_ENABLED; SS_DISABLED]
  | SS_DEGRADED => [SS_ENABLED; SS_PAUSED; SS_DISABLED]
  | SS_DISABLED => [SS_REGISTERED]
  end.

Record SourceDefinition := mkSource {
  sd_source_id : string;
  sd_tenant_id : string;
  sd_workspace_id : string;
  sd_provider : string;
  sd_mode : string;
  sd_enabled : bool;
  sd_config : option dict;
  sd_credential_id : option string;
  sd_updated_at : option datetime;
  sd_status : SourceStatus;
  sd_poll_interval_seconds : option spec_float;
  sd_capabilities : list string }.

(** [SourceStatus(v)] *)
Definition status_of (s : string) : outcome SourceStatus :=
  match enum_lookup s with
  | Some m => Ret m
  | None => raise ValueError ("'" +:+ s +:+ "' is not a valid SourceStatus")
  end.

(** The constructor: [__post_init__] checks the fields and derives [enabled] from
    the status. *)
Definition new_source (source_id tenant workspace provider mode : string) (enabled : bool)
    (config : option dict) (credential_id : option string) (updated_at : option datetime)
    (status : option string) (interval : option spec_float) (capabilities : list string) :
    outcome SourceDefinition :=
  if String.eqb tenant "" || String.eqb workspace "" || String.eqb source_id "" ||
     String.eqb provider "" then
    raise ValueError "tenant_id, workspace_id, source_id, and provider are required"
  else if negb (bool_decide (mode ∈ ["poll"; "webhook"; "push"])) then
    raise ValueError "unsupported source mode"
  else if match interval with Some f => SFleb f zero_float | None => false end then
    raise ValueError "poll_interval_seconds must be positive"
  else
    s <-? (match status with
           | Some s => status_of s
           | None => Ret (if enabled then SS_ENABLED else SS_DISABLED)
           end) ;;
    Ret (mkSource source_id tenant workspace provider mode (bool_decide (s = SS_ENABLED)) config
           credential_id updated_at s interval capabilities).

(** [SourceDefinition.transition] *)
Definition source_transition (target : SourceStatus) (d : SourceDefinition) : outcome SourceDefinition :=
  if bool_decide (target = sd_status d) then Ret d
  else if negb (bool_decide (target ∈ allowed_transitions (sd_status d))) then
    raise ValueError ("invalid source lifecycle transition: " +:+ SourceStatus_value (sd_status d) +:+
                      " -> " +:+ SourceStatus_value target)
  else new_source (sd_source_id d) (sd_tenant_id d) (sd_workspace_id d) (sd_provider d) (sd_mode d)
         (bool_decide (target = SS_ENABLED)) (Some (default [] (sd_config d))) (sd_credential_id d) None
         (Some (SourceStatus_value target)) (sd_poll_interval_seconds d) (sd_capabilities d).

Definition source_key (d : SourceDefinition) : claim_key :=
  (sd_tenant_id d, sd_workspace_id d, sd_source_id d).

(** ** The SQLite table *)

(** A row of [source_registry], by primary key. *)
Record registry_row := mkRegistryRow {
  sr_provider : string;
  sr_mode : string;
  sr_enabled : bool;
  sr_config : json_text;
  sr_credential_id : option string;
  sr_updated_at : string;
  sr_status : string;
  sr_poll_interval_seconds : option spec_float;
  sr_capabilities : json_text }.

Abbreviation registry_table := (gmap claim_key registry_row).

Section registry.
Context {IF : IsoFormat}.

(** [SQLiteSourceRegistry._source]; what is stored in the two JSON columns decides
    whether they decode to the types of the record. *)
Definition strings_of (v : pyval) : option (list string) :=
  match v with
  | VList l => mapM (fun x => match x with VStr s => Some s | _ => None end) l
  | _ => None
  end.

Definition source_of_row (k : claim_key) (r : registry_row) : outcome SourceDefinition :=
  match fromisoformat (sr_updated_at r), loads (sr_config r), strings_of (loads (sr_capabilities r)) with
  | None, _, _ => raise ValueError "Invalid isoformat string"
  | Some t, VDict config, Some caps =>
      new_source (snd k) (fst (fst k)) (snd (fst k)) (sr_provider r) (sr_mode r) (sr_enabled r)
        (Some config) (sr_credential_id r) (Some t) (Some (sr_status r)) (sr_poll_interval_seconds r) caps
  | _, _, _ => raise TypeError "malformed source row"
  end.

(** A [REAL] column stores NaN as [NULL]. *)
Definition sql_real (f : option spec_float) : option spec_float :=
  match f with Some S754_nan => None | _ => f end.

(** [SQLiteSourceRegistry.put] *)
Definition registry_put (d : SourceDefinition) : M (registry_table * Env) unit := fun se =>
  let '(s, e) := se in
  let '(now, e) := match sd_updated_at d with Some t => (t, e) | None => utc_now e end in
  match (config <-? dumps (VDict (default [] (sd_config d))) ;;
         caps <-? dumps (VList (VStr <$> sorted_strings (sd_capabilities d))) ;;
         Ret (config, caps)) with
  | Raise x => (Raise x, (s, e))
  | Ret (config, caps) =>
      (Ret tt,
       (<[source_key d := mkRegistryRow (sd_provider d) (sd_mode d) (sd_enabled d) config
            (sd_credential_id d) (isoformat now) (SourceStatus_value (sd_status d))
            (sql_real (sd_poll_interval_seconds d)) caps]> s, e))
  end.

(** [SQLiteSourceRegistry.get] *)
Definition registry_get (k : claim_key) (s : registry_table) : outcome (option SourceDefinition) :=
  match s !! k with
  | None => Ret None
  | Some r => d <-? source_of_row k r ;; Ret (Some d)
  end.

Fixpoint sources_of_rows (l : list (claim_key * registry_row)) : outcome (list SourceDefinition) :=
  match l with
  | [] => Ret []
  | (k, r) :: l => d <-? source_of_row k r ;; ds <-? sources_of_rows l ;; Ret (d :: ds)
  end.

(** [SQLiteSourceRegistry.list] *)
Definition registry_list (tenant workspace : string) (s : registry_table) :
    outcome (list SourceDefinition) :=
  sources_of_rows
    (order_by (fun a b => String.leb (snd (fst a)) (snd (fst b)))
       (List.filter (fun kr => String.eqb (fst (fst (fst kr))) tenant &&
                               String.eqb (snd (fst (fst kr))) workspace) (map_to_list s))).

(** [SQLiteSourceRegistry.delete] *)
Definition registry_delete (k : claim_key) (s : registry_table) : registry_table := delete k s.

(** ** [SourceControlAPI] *)

Abbreviation Reg A := (M (registry_table * Env) A).

Definition control_get (k : claim_key) : Reg SourceDefinition := fun se =>
  match registry_get k (fst se) with
  | Raise x => (Raise x, se)
  | Ret None => (raise KeyError ("source not registered: " +:+ snd k), se)
  | Ret (Some d) => (Ret d, se)
  end.

Definition control_register (d : SourceDefinition) : Reg SourceDefinition :=
  existing <- (fun se => (registry_get (source_key d) (fst se), se)) ;;
  if match existing with Some x => negb (bool_decide (sd_status x = SS_DISABLED)) | None => false end then
    throw (Exn ValueError ("source already registered: " +:+ sd_source_id d))
  else
    registered <- lift (new_source (sd_source_id d) (sd_tenant_id d) (sd_workspace_id d) (sd_provider d)
                          (sd_mode d) false (sd_config d) (sd_credential_id d) None
                          (Some (SourceStatus_value SS_REGISTERED)) (sd_poll_interval_seconds d)
                          (sd_capabilities d)) ;;
    registry_put registered ;;;
    control_get (source_key d).

Definition control_transition (k : claim_key) (target : SourceStatus) : Reg SourceDefinition :=
  source <- control_get k ;;
  updated <- lift (source_transition target source) ;;
  registry_put updated ;;;
  control_get k.

Definition control_enable (k : claim_key) : Reg SourceDefinition := control_transition k SS_ENABLED.
Definition control_pause (k : claim_key) : Reg SourceDefinition := control_transition k SS_PAUSED.
Definition control_degrade (k : claim_key) : Reg SourceDefinition := control_transition k SS_DEGRADED.
Definition control_disable (k : claim_key) : Reg SourceDefinition := control_transition k SS_DISABLED.

Definition set_enabled (k : claim_key) (enabled : bool) : Reg SourceDefinition :=
  if enabled then control_enable k else control_disable k.

Definition control_delete (k : claim_key) : Reg unit :=
  control_get k ;;; modify (fun se => (registry_delete k (fst se), snd se)).
End registry.

(** ** Health *)

Record SourceHealthSnapshot := mkHealth {
  sh_healthy : bool;
  sh_checked_at : datetime;
  sh_latency_us : option Z;  (** microseconds *)
  sh_consecutive_failures : Z;
  sh_last_error : option string }.

Abbreviation health_table := (gmap claim_key SourceHealthSnapshot).

(** [SourceHealthRegistry.record] *)
Definition health_record (k : claim_key) (healthy : bool) (latency : option Z) (error : option string)
    (checked_at : option datetime) : M (health_table * Env) SourceHealthSnapshot := fun se =>
  let '(s, e) := se in
  let failures := if healthy then 0%Z
                  else match s !! k with Some p => (sh_consecutive_failures p + 1)%Z | None => 1%Z end in
  let '(now, e) := match checked_at with Some t => (t, e) | None => utc_now e end in
  let snapshot := mkHealth healthy now latency failures (if healthy then None else error) in
  (Ret snapshot, (<[k := snapshot]> s, e)).

Definition health_get (k : claim_key) (s : health_table) : option SourceHealthSnapshot := s !! k.
Definition health_clear (k : claim_key) (s : health_table) : health_table := delete k s.

(** [SourceHealthRegistry.list], in the order of the keys *)
Definition health_list (tenant workspace : string) (s : health_table) : list SourceHealthSnapshot :=
  snd <$> order_by (fun a b => String.leb (snd (fst a)) (snd (fst b)))
    (List.filter (fun kr => String.eqb (fst (fst (fst kr))) tenant &&
                            String.eqb (snd (fst (fst kr))) workspace) (map_to_list s)).
