(* ===== verification/SourceAdapters.v ===== *)
(** * Source adapters: [infrastructure/source_adapters]

    The adapter registry ([base.py]) with its conformance metadata
    ([integration/conformance_metadata.py]), incremental polling ([polling.py]),
    the polling scheduler ([polling_engine.py]) and the webhook boundary
    ([webhook.py], [webhook_gateway.py], [source_gateway/webhook_security.py]).

    An adapter that is plugged in is a function on the gateway.  The replay store
    of a webhook boundary is an object of the same kind as the claims of the
    gateway, and may be the same table. *)

From stdpp Require Import base gmap strings list sorting.
From Stdlib Require Import ZArith Lia Ascii Floats.SpecFloat.
From S2P Require Import Prelude Uuid Json Automation SourceLimits SourceStores SourceGateway.
Local Open Scope py_scope.

(** What the code relies on: [float] of a text, HMAC-SHA256 as hexadecimal
    text, and [json.loads] of a body that is decoded as UTF-8. *)
Class FloatParse := float_of : string -> option spec_float.
Class HmacHex := hmac_hex : string -> string -> string.
Class BodyParse := parse_body : string -> option pyval.

(** [s.split(":", 1)[0]] *)
Fixpoint before_colon (s : string) : string :=
  match s with
  | EmptyString => EmptyString
  | String a s => if Ascii.eqb a ":"%char then EmptyString else String a (before_colon s)
  end.

(** [s.removeprefix(p)] *)
Definition removeprefix (p s : string) : string :=
  if String.prefix p s then String.substring (String.length p) (String.length s - String.length p) s else s.

(** ** Results and specifications *)

Record AdapterHealth := mkAdapterHealth { ah_source_id : string; ah_healthy : bool; ah_reason : option string }.

Record AdapterResult := mkAdapterResult {
  ar_source_id : string;
  ar_records : Z;
  ar_evidence_ids : list string;
  ar_event_ids : list string;
  ar_payload_hashes : list string }.

(** [SourceAdapterRegistry.response] *)
Definition adapter_response (source_id : string) (responses : list SourceResponse) : AdapterResult :=
  let accepted := List.filter sp_accepted responses in
  mkAdapterResult source_id (Z.of_nat (length accepted)) (map sp_evidence_id accepted)
    (map sp_event_id accepted) (map sp_payload_hash accepted).

Record SourceSpec := mkSpec {
  sx_source_id : string;
  sx_provider : string;
  sx_protocol : string;
  sx_version : string;
  sx_max_age_seconds : option spec_float;
  sx_capabilities : list string;
  sx_enabled : bool }.

(** [SourceSpec(source_id=..., provider=..., protocol=...)] *)
Definition new_spec (source_id provider protocol : string) : outcome SourceSpec :=
  if String.eqb source_id "" || String.eqb provider "" || String.eqb protocol "" then
    raise ValueError "source_id, provider, and protocol are required"
  else Ret (mkSpec source_id provider protocol "v1" None [] true).

Definition CONFORMANCE_METADATA_COLUMNS : list string :=
  ["ADAPTER"; "REGISTRATION"; "CAPABILITY"; "TOOL"; "AUTH"; "CREDENTIAL"; "SCOPES"; "POLICY";
   "RATE LIMIT"; "RETRY"; "TIMEOUT"; "IDEMPOTENCY"; "EVENTS"; "PROVENANCE"; "EVIDENCE";
   "STRUCTURAL TEST"; "CONTRACT TEST"; "LIVE TEST"; "E2E TEST"; "NEGATIVE TEST"; "CI GATE";
   "PRODUCTION VERIFICATION"].

Definition CONFORMANCE_METADATA_STATUSES : list string :=
  ["IMPLEMENTED"; "TESTED"; "INTEGRATED"; "LIVE VERIFIED"; "E2E VERIFIED"; "PRODUCTION VERIFIED";
   "N/A"; "MISSING"; "UNKNOWN"].

Record ConformanceEvidence := mkConformanceEvidence {
  cv_status : string;
  cv_evidence : list string;
  cv_note : option string }.

(** The checks of [ConformanceEvidence.__post_init__]. *)
Definition new_conformance_evidence (status : string) (evidence : list string) (note : option string) :
    outcome ConformanceEvidence :=
  if negb (bool_decide (status ∈ CONFORMANCE_METADATA_STATUSES)) then
    raise ValueError ("unknown conformance status: " +:+ status)
  else if bool_decide (evidence = []) && negb (bool_decide (status ∈ ["UNKNOWN"; "N/A"])) then
    raise ValueError "non-unknown conformance claims require evidence"
  else if bool_decide (status ∈ ["LIVE VERIFIED"; "E2E VERIFIED"; "PRODUCTION VERIFIED"]) then
    raise ValueError "runtime verification statuses require runtime/CI evidence, not provider metadata"
  else Ret (mkConformanceEvidence status evidence note).

Record ConformanceMetadata := mkConformance {
  cf_source_id : string;
  cf_claims : list (string * ConformanceEvidence) }.

(** The checks of [ProviderConformanceMetadata.__post_init__]. *)
Definition new_conformance (source_id : string) (claims : list (string * ConformanceEvidence)) :
    outcome ConformanceMetadata :=
  if String.eqb source_id "" then raise ValueError "source_id is required"
  else if negb (forallb (fun c => bool_decide (c ∈ CONFORMANCE_METADATA_COLUMNS)) (dkeys claims)) then
    raise ValueError "unknown conformance metadata columns"
  else Ret (mkConformance source_id claims).

Definition conformance_claim (m : ConformanceMetadata) (column : string) : option ConformanceEvidence :=
  dget column (cf_claims m).

(** [ProviderConformanceMetadata.to_dict] *)
Definition conformance_to_dict (m : ConformanceMetadata) : dict :=
  [("source_id", VStr (cf_source_id m));
   ("claims", VDict (map (fun kc => (fst kc, VDict
      [("status", VStr (cv_status (snd kc)));
       ("evidence", VList (map VStr (cv_evidence (snd kc))));
       ("note", opt_str (cv_note (snd kc)))])) (cf_claims m)))].

(** ** The adapter registry *)

Section registry.
Context {G : Type}.

(** An adapter: its identifier, [ingest] for a tenant, a workspace and a
    credential, and [health] if it has one. *)
Record SourceAdapter := mkAdapter {
  ad_source_id : string;
  ad_ingest : string -> string -> option string -> M G AdapterResult;
  ad_health : option (option string -> option string -> option string -> M G AdapterHealth) }.

Record AdapterRegistry := mkAdapterRegistry {
  ag_adapters : gmap string SourceAdapter;
  ag_specs : gmap string SourceSpec;
  ag_conformance : gmap string ConformanceMetadata }.

Definition empty_adapters : AdapterRegistry := mkAdapterRegistry ∅ ∅ ∅.

(** [SourceAdapterRegistry.register]: the adapter is in the table before its
    default specification is built. *)
Definition adapter_register (a : SourceAdapter) (spec : option SourceSpec)
    (conformance : option ConformanceMetadata) : M AdapterRegistry unit := fun s =>
  let id := ad_source_id a in
  if bool_decide (is_Some (ag_adapters s !! id)) then
    (raise ValueError ("source adapter already registered: " +:+ id), s)
  else if match spec with Some x => negb (String.eqb (sx_source_id x) id) | None => false end then
    (raise ValueError "source spec source_id must match adapter source_id", s)
  else if match conformance with Some c => negb (String.eqb (cf_source_id c) id) | None => false end then
    (raise ValueError "conformance source_id must match adapter source_id", s)
  else
    let s := mkAdapterRegistry (<[id := a]> (ag_adapters s)) (ag_specs s) (ag_conformance s) in
    match match spec with Some x => Ret x | None => new_spec id (before_colon id) "unknown" end with
    | Raise x => (Raise x, s)
    | Ret x =>
        (Ret tt, mkAdapterRegistry (ag_adapters s) (<[id := x]> (ag_specs s))
                   (match conformance with
                    | Some c => <[id := c]> (ag_conformance s)
                    | None => ag_conformance s
                    end))
    end.

Definition adapter_get (id : string) (s : AdapterRegistry) : outcome SourceAdapter :=
  match ag_adapters s !! id with
  | Some a => Ret a
  | None => raise KeyError ("source adapter not registered: " +:+ id)
  end.

Definition adapter_spec (id : string) (s : AdapterRegistry) : outcome SourceSpec :=
  match ag_specs s !! id with
  | Some x => Ret x
  | None => raise KeyError ("source specification not registered: " +:+ id)
  end.

Definition adapter_conformance (id : string) (s : AdapterRegistry) : outcome (option ConformanceMetadata) :=
  if bool_decide (is_Some (ag_adapters s !! id)) then Ret (ag_conformance s !! id)
  else raise KeyError ("source adapter not registered: " +:+ id).

Definition adapter_unregister (id : string) (s : AdapterRegistry) : outcome AdapterRegistry :=
  if bool_decide (is_Some (ag_adapters s !! id)) then
    Ret (mkAdapterRegistry (delete id (ag_adapters s)) (delete id (ag_specs s))
           (delete id (ag_conformance s)))
  else raise KeyError ("source adapter not registered: " +:+ id).

Definition adapter_list (s : AdapterRegistry) : list string := sorted_strings (elements (dom (ag_adapters s))).
End registry.

Arguments SourceAdapter G : clear implicits.
Arguments AdapterRegistry G : clear implicits.

(** ** Polling *)

Section adapters.
Context {IF : IsoFormat} {OS : ObjStr} {CS : CanonicalSha} {U5 : Uuid5} {PS : PyStr}.
Context {T C W : Type} {ES : EvidenceSink T} {SC : SourceClaims C}.
Abbreviation G := (GatewayState T C W).

(** A request with the defaults of [SourceRequest] for the fields an adapter does
    not pass. *)
Definition simple_request (tenant workspace source_id record_id : string) (payload : pyval)
    (connector schema : string) : SourceRequest :=
  post_init (mkRequest tenant workspace "" record_id payload None connector schema source_id None
    "source.observation" None None None).

Record PollPage := mkPage { pg_records : list dict; pg_next_cursor : option string }.

(** The constructor's arguments; the callables work on the world. *)
Record PollingSource := mkPolling {
  po_source_id : string;
  po_fetch_page : option string -> M W PollPage;
  po_get_cursor : M W (option string);
  po_set_cursor : option string -> M W unit;
  po_max_pages : Z;
  po_connector_version : string }.

Definition on_world {A} (m : M W A) : M G A := fun g =>
  let '(r, w) := m (gs_world g) in (r, set_world w g).

(** The request for one record of a page fetched at [cursor]. *)
Definition poll_request (p : PollingSource) (tenant workspace : string) (cursor : option string)
    (record : dict) : SourceRequest :=
  let fallback := match cursor with
                  | Some c => if String.eqb c "" then "page" else c
                  | None => "page"
                  end in
  simple_request tenant workspace (po_source_id p) (to_str (dget_or "id" (VStr fallback) record))
    (VDict record) (po_connector_version p) "poll.record.v1".

Definition poll_record (cfg : GatewayConfig W) (p : PollingSource) (tenant workspace : string)
    (cursor : option string) (record : dict) : M G SourceResponse :=
  response <- ingest cfg (poll_request p tenant workspace cursor record) ;;
  if negb (sp_accepted response) &&
     negb (bool_decide (sp_reason response = Some "duplicate_evidence")) then
    throw (Exn RuntimeError ("source gateway rejected " +:+ po_source_id p +:+ ": " +:+
                             default "None" (sp_reason response)))
  else ret response.

Fixpoint poll_records (cfg : GatewayConfig W) (p : PollingSource) (tenant workspace : string)
    (cursor : option string) (records : list dict) : M G (list SourceResponse) :=
  match records with
  | [] => ret []
  | record :: records =>
      x <- poll_record cfg p tenant workspace cursor record ;;
      xs <- poll_records cfg p tenant workspace cursor records ;;
      ret (x :: xs)
  end.

(** [for _ in range(self._max_pages)] *)
Fixpoint poll_pages (cfg : GatewayConfig W) (p : PollingSource) (tenant workspace : string) (n : nat)
    (cursor : option string) : M G (list SourceResponse) :=
  match n with
  | O => ret []
  | S n =>
      page <- on_world (po_fetch_page p cursor) ;;
      xs <- poll_records cfg p tenant workspace cursor (pg_records page) ;;
      on_world (po_set_cursor p (pg_next_cursor page)) ;;;
      match pg_next_cursor page with
      | None => ret xs
      | Some c =>
          ys <- poll_pages cfg p tenant workspace n (Some c) ;;
          ret (xs ++ ys)
      end
  end.

(** [PollingSourceAdapter.ingest] *)
Definition poll_ingest (cfg : GatewayConfig W) (p : PollingSource) (tenant workspace : string)
    (_ : option string) : M G AdapterResult :=
  cursor <- on_world (po_get_cursor p) ;;
  responses <- poll_pages cfg p tenant workspace (Z.to_nat (po_max_pages p)) cursor ;;
  ret (adapter_response (po_source_id p) responses).

Definition polling_adapter (cfg : GatewayConfig W) (p : PollingSource) : SourceAdapter G :=
  mkAdapter (po_source_id p) (poll_ingest cfg p) None.

(** ** The polling engine *)

Record PollingJob := mkJob {
  jb_source_id : string;
  jb_interval_seconds : spec_float;
  jb_adapter : SourceAdapter G;
  jb_tenant_id : string;
  jb_workspace_id : string;
  jb_credential_id : option string }.

Definition new_job (source_id : string) (interval : spec_float) (a : SourceAdapter G)
    (tenant workspace : string) (credential : option string) : outcome PollingJob :=
  if SFleb interval zero_float then raise ValueError "poll interval must be positive"
  else Ret (mkJob source_id interval a tenant workspace credential).

Record PollingRun := mkPollingRun {
  pn_source_id : string;
  pn_started_at : spec_float;
  pn_completed_at : spec_float;
  pn_result : option AdapterResult;
  pn_error : option string }.

(** [f"{type(exc).__name__}: {exc}"]; the text of a [KeyError] is its quoted
    message. *)
Definition exception_text (x : exn) : string :=
  class_name (exn_cls x) +:+ ": " +:+
  (if bool_decide (exn_cls x = KeyError) then "'" +:+ exn_msg x +:+ "'" else exn_msg x).

Definition clock_reading : M G spec_float := fun g =>
  let '(t, s) := next_float (gs_clock g) in (Ret t, set_clock s g).

(** [PollingEngine.register] and [unregister] on the jobs and their due times *)
Definition engine_register (j : PollingJob) (jobs : gmap string PollingJob) :
    outcome (gmap string PollingJob) :=
  if bool_decide (is_Some (jobs !! jb_source_id j)) then
    raise ValueError ("polling job already registered: " +:+ jb_source_id j)
  else Ret (<[jb_source_id j := j]> jobs).

Definition engine_unregister (id : string) (jobs : gmap string PollingJob) (due : gmap string spec_float) :
    outcome (gmap string PollingJob * gmap string spec_float) :=
  if bool_decide (is_Some (jobs !! id)) then Ret (delete id jobs, delete id due)
  else raise KeyError ("polling job not registered: " +:+ id).

(** [PollingEngine.run_once] *)
Definition engine_run_once (id : string) (jobs : gmap string PollingJob) : M G PollingRun :=
  match jobs !! id with
  | None => throw (Exn KeyError id)
  | Some job =>
      started <- clock_reading ;;
      try_except
        (result <- ad_ingest (jb_adapter job) (jb_tenant_id job) (jb_workspace_id job)
                     (jb_credential_id job) ;;
         completed <- clock_reading ;;
         ret (mkPollingRun id started completed (Some result) None))
        any_exception
        (fun x =>
         completed <- clock_reading ;;
         ret (mkPollingRun id started completed None (Some (exception_text x))))
  end.

(** [PollingEngine.due_sources] *)
Definition due_sources (jobs : gmap string PollingJob) (due : gmap string spec_float) : M G (list string) :=
  now <- clock_reading ;;
  ret (sorted_strings (List.filter (fun id => SFleb (default zero_float (due !! id)) now)
                         (elements (dom jobs)))).
End adapters.

Arguments PollingSource W : clear implicits.
Arguments PollingJob T C W : clear implicits.

(** ** Webhooks *)

Section webhooks.
Context {IF : IsoFormat} {OS : ObjStr} {CS : CanonicalSha} {U5 : Uuid5} {PS : PyStr}.
Context {FP : FloatParse} {HH : HmacHex} {BP : BodyParse}.
Context {T C W : Type} {ES : EvidenceSink T} {SC : SourceClaims C}.
Abbreviation G := (GatewayState T C W).

(** [WebhookVerifier] of [webhook.py]; [compare_digest] only compares ASCII. *)
Definition is_ascii (s : string) : bool :=
  forallb (fun a => (N_of_ascii a <? 128)%N) (String.list_ascii_of_string s).

Definition compare_digest (supplied expected : string) : outcome bool :=
  if is_ascii supplied && is_ascii expected then Ret (String.eqb supplied expected)
  else raise TypeError "comparing strings with non-ASCII characters is not supported".

Definition verifier_verify (secret payload signature : string) : outcome bool :=
  compare_digest (removeprefix "sha256=" signature) (hmac_hex secret payload).

Definition verifier_ingest (cfg : GatewayConfig W) (secret tenant workspace source_id record_id payload
    signature : string) : M G AdapterResult :=
  ok <- lift (verifier_verify secret payload signature) ;;
  if negb ok then throw (Exn PermissionError "invalid webhook signature")
  else
    match parse_body payload with
    | None => throw (Exn ValueError "Expecting value")
    | Some decoded =>
        response <- ingest cfg (simple_request tenant workspace source_id record_id decoded "webhook-v1"
                                  "webhook.event.v1") ;;
        ret (adapter_response source_id [response])
    end.

(** [WebhookSecurityPolicy]; the algorithm is always SHA-256. *)
Record WebhookSecurityPolicy := mkWebhookPolicy {
  wp_secret : string;
  wp_max_age_seconds : spec_float;
  wp_prefix : string }.

Definition new_webhook_policy (secret : string) (max_age : spec_float) (algorithm prefix : string) :
    outcome WebhookSecurityPolicy :=
  if String.eqb secret "" then raise ValueError "webhook secret must not be empty"
  else if negb (String.eqb algorithm "sha256") then
    raise ValueError "only sha256 webhook signatures are supported"
  else if SFleb max_age zero_float then raise ValueError "max_age_seconds must be positive"
  else Ret (mkWebhookPolicy secret max_age prefix).

(** Which claims a replay reservation uses: none, a store of its own, or the
    claims of the gateway. *)
Inductive replay_config := NoReplay | OwnReplay | SharedReplay.

Record WebhookState := mkWebhookState {
  ws_gateway : G;
  ws_replay : C;
  ws_time : float_stream }.

Definition set_gateway (g : G) (s : WebhookState) : WebhookState :=
  mkWebhookState g (ws_replay s) (ws_time s).

Definition on_gateway {A} (m : M G A) : M WebhookState A := fun s =>
  let '(r, g) := m (ws_gateway s) in (r, set_gateway g s).

(** The replay store [rc] names, and putting it back. *)
Definition replay_store (rc : replay_config) (s : WebhookState) : option C :=
  match rc with
  | NoReplay => None
  | OwnReplay => Some (ws_replay s)
  | SharedReplay => gs_claims (ws_gateway s)
  end.

Definition set_replay (rc : replay_config) (c : C) (s : WebhookState) : WebhookState :=
  match rc with
  | NoReplay => s
  | OwnReplay => mkWebhookState (ws_gateway s) c (ws_time s)
  | SharedReplay => set_gateway (set_claims (Some c) (ws_gateway s)) s
  end.

(** [WebhookSecurity.verify] *)
Definition security_verify (p : WebhookSecurityPolicy) (rc : replay_config)
    (payload signature timestamp : string) (k : claim_key) : M WebhookState bool := fun s =>
  match float_of timestamp with
  | None => (Ret false, s)
  | Some observed =>
      let '(now, time) := next_float (ws_time s) in
      let s := mkWebhookState (ws_gateway s) (ws_replay s) time in
      if SFltb (wp_max_age_seconds p) (SFabs (fsub now observed)) then (Ret false, s)
      else
        match compare_digest (removeprefix (wp_prefix p) signature)
                (hmac_hex (wp_secret p) (timestamp +:+ "." +:+ payload)) with
        | Raise x => (Raise x, s)
        | Ret false => (Ret false, s)
        | Ret true =>
            match replay_store rc s with
            | None => (Ret true, s)
            | Some c =>
                let '(r, c, e) := claim_key_for k (snd k) c (gs_env (ws_gateway s)) in
                (r, set_replay rc c (set_gateway (set_env e (ws_gateway s)) s))
            end
        end
  end.

(** [WebhookSecurity.release] *)
Definition security_release (rc : replay_config) (k : claim_key) : M WebhookState bool := fun s =>
  match replay_store rc s with
  | None => (Ret false, s)
  | Some c => let '(r, c) := release_claim k (snd k) c in (r, set_replay rc c s)
  end.

Record WebhookRequest := mkWebhookRequest {
  wr_tenant_id : string;
  wr_workspace_id : string;
  wr_source_id : string;
  wr_record_id : string;
  wr_body : string;
  wr_signature : string;
  wr_timestamp : string;
  wr_idempotency_key : string }.

(** The checks of [WebhookRequest.__post_init__]. *)
Definition new_webhook_request (tenant workspace source_id record_id body signature timestamp key : string) :
    outcome WebhookRequest :=
  if String.eqb tenant "" || String.eqb workspace "" || String.eqb source_id "" then
    raise ValueError "webhook tenant, workspace, and source are required"
  else if String.eqb record_id "" || String.eqb key "" then
    raise ValueError "webhook record and idempotency keys are required"
  else Ret (mkWebhookRequest tenant workspace source_id record_id body signature timestamp key).

Record WebhookGateway := mkWebhookGateway {
  wg_policy : WebhookSecurityPolicy;
  wg_replay : replay_config;
  wg_max_body_bytes : Z }.

Definition new_webhook_gateway (p : WebhookSecurityPolicy) (rc : replay_config) (max_body : Z) :
    outcome WebhookGateway :=
  if (max_body <=? 0)%Z then raise ValueError "max_body_bytes must be positive"
  else Ret (mkWebhookGateway p rc max_body).

Definition webhook_key (r : WebhookRequest) : claim_key :=
  (wr_tenant_id r, wr_workspace_id r, wr_idempotency_key r).

(** What the gateway is asked to ingest for a body that is a JSON object. *)
Definition webhook_source_request (r : WebhookRequest) (payload : dict) : SourceRequest :=
  post_init (mkRequest (wr_tenant_id r) (wr_workspace_id r) "" (wr_record_id r) (VDict payload) None
    "webhook-v2" "source.event.v1" (wr_source_id r) None
    (to_str (dget_or "type" (VStr "source.webhook") payload)) (Some (wr_idempotency_key r)) None None).

(** [WebhookGateway.receive] *)
Definition webhook_receive (cfg : GatewayConfig W) (w : WebhookGateway) (r : WebhookRequest) :
    M WebhookState AdapterResult :=
  if (wg_max_body_bytes w <? Z.of_nat (String.length (wr_body r)))%Z then
    throw (Exn ValueError "webhook payload exceeds configured size limit")
  else
    verified <- security_verify (wg_policy w) (wg_replay w) (wr_body r) (wr_signature r) (wr_timestamp r)
                  (webhook_key r) ;;
    if negb verified then throw (Exn PermissionError "invalid or replayed webhook")
    else
      match parse_body (wr_body r) with
      | None => throw (Exn ValueError "webhook payload must be valid JSON")
      | Some (VDict payload) =>
          response <- try_except (on_gateway (ingest cfg (webhook_source_request r payload))) any_exception
                        (fun x => security_release (wg_replay w) (webhook_key r) ;;; throw x) ;;
          ret (mkAdapterResult (wr_source_id r) (if sp_accepted response then 1 else 0)%Z
                 (if sp_accepted response then [sp_evidence_id response] else [])
                 (if sp_accepted response then [sp_event_id response] else [])
                 (if sp_accepted response then [sp_payload_hash response] else []))
      | Some _ => throw (Exn ValueError "webhook payload must be a JSON object")
      end.
End webhooks.

Arguments WebhookState T C W : clear implicits.
