(* ===== verification/SourceFabric.v ===== *)
(** * The source fabric: [infrastructure/source_fabric.py], [source_gateway/socket.py]

    [SourceFabric] joins the control plane of sources, the adapters, polling,
    webhooks, cursors, retries and health over one gateway; [ApiSourceSocket] is
    the facade it reads health through.  The polling engine of the fabric keeps
    its jobs by source identifier alone.  Sleeping between retries has no effect
    on the state. *)

From stdpp Require Import base gmap strings list.
From Stdlib Require Import ZArith Lia Floats.SpecFloat.
From S2P Require Import Prelude Uuid Json Automation SourceLimits SourceStores SourceGateway SourceRegistry SourceAdapters.
Local Open Scope py_scope.

(** [60.0] *)
Definition sixty_float : spec_float := S754_finite false 8444249301319680 (-47).

Record SourceFabricRun := mkFabricRun {
  fr_source_id : string;
  fr_result : option AdapterResult;
  fr_attempts : Z;
  fr_retries : list RetryDecision;
  fr_error : option string }.

Section fabric.
Context {IF : IsoFormat} {OS : ObjStr} {CS : CanonicalSha} {U5 : Uuid5} {PS : PyStr}.
Context {FP : FloatParse} {HH : HmacHex} {BP : BodyParse}.
Context {T C W : Type} {ES : EvidenceSink T} {SC : SourceClaims C}.
Abbreviation G := (GatewayState T C W).

Record FabricState := mkFabric {
  fb_webhook : WebhookState T C W;  (** with the gateway *)
  fb_registry : registry_table;
  fb_adapters : AdapterRegistry G;
  fb_jobs : gmap string (PollingJob T C W);
  fb_due : gmap string spec_float;
  fb_webhooks : gmap claim_key WebhookGateway;
  fb_cursors : cursor_table;
  fb_health : health_table;
  fb_random : float_stream }.

Abbreviation F A := (M FabricState A).
Implicit Types s : FabricState.

Definition fb_gateway s : G := ws_gateway (fb_webhook s).
Definition fb_env s : Env := gs_env (fb_gateway s).

Definition with_webhook v s : FabricState := mkFabric v (fb_registry s) (fb_adapters s) (fb_jobs s) (fb_due s) (fb_webhooks s) (fb_cursors s) (fb_health s) (fb_random s).
Definition with_registry v s : FabricState := mkFabric (fb_webhook s) v (fb_adapters s) (fb_jobs s) (fb_due s) (fb_webhooks s) (fb_cursors s) (fb_health s) (fb_random s).
Definition with_adapters v s : FabricState := mkFabric (fb_webhook s) (fb_registry s) v (fb_jobs s) (fb_due s) (fb_webhooks s) (fb_cursors s) (fb_health s) (fb_random s).
Definition with_jobs v s : FabricState := mkFabric (fb_webhook s) (fb_registry s) (fb_adapters s) v (fb_due s) (fb_webhooks s) (fb_cursors s) (fb_health s) (fb_random s).
Definition with_webhooks v s : FabricState := mkFabric (fb_webhook s) (fb_registry s) (fb_adapters s) (fb_jobs s) (fb_due s) v (fb_cursors s) (fb_health s) (fb_random s).
Definition with_cursors v s : FabricState := mkFabric (fb_webhook s) (fb_registry s) (fb_adapters s) (fb_jobs s) (fb_due s) (fb_webhooks s) v (fb_health s) (fb_random s).
Definition with_health v s : FabricState := mkFabric (fb_webhook s) (fb_registry s) (fb_adapters s) (fb_jobs s) (fb_due s) (fb_webhooks s) (fb_cursors s) v (fb_random s).
Definition with_random v s : FabricState := mkFabric (fb_webhook s) (fb_registry s) (fb_adapters s) (fb_jobs s) (fb_due s) (fb_webhooks s) (fb_cursors s) (fb_health s) v.
Definition with_gateway (g : G) s : FabricState := with_webhook (set_gateway g (fb_webhook s)) s.
Definition with_env (e : Env) s : FabricState := with_gateway (set_env e (fb_gateway s)) s.

(** Run a computation of a part on the part. *)
Definition on_gateway_of {A} (m : M G A) : F A := fun s =>
  let '(r, g) := m (fb_gateway s) in (r, with_gateway g s).
Definition on_webhook {A} (m : M (WebhookState T C W) A) : F A := fun s =>
  let '(r, v) := m (fb_webhook s) in (r, with_webhook v s).
Definition on_registry {A} (m : M (registry_table * Env) A) : F A := fun s =>
  let '(r, (t, e)) := m (fb_registry s, fb_env s) in (r, with_registry t (with_env e s)).
Definition on_adapters {A} (m : M (AdapterRegistry G) A) : F A := fun s =>
  let '(r, v) := m (fb_adapters s) in (r, with_adapters v s).
Definition on_cursors {A} (m : M (cursor_table * Env) A) : F A := fun s =>
  let '(r, (t, e)) := m (fb_cursors s, fb_env s) in (r, with_cursors t (with_env e s)).
Definition on_health {A} (m : M (health_table * Env) A) : F A := fun s =>
  let '(r, (t, e)) := m (fb_health s, fb_env s) in (r, with_health t (with_env e s)).
Definition fabric_now : F datetime := fun s =>
  let '(t, e) := utc_now (fb_env s) in (Ret t, with_env e s).

(** ** Guards *)

(** [_require_source] *)
Definition require_source (k : claim_key) : F SourceDefinition := on_registry (control_get k).

(** [_require_enabled] *)
Definition require_enabled (k : claim_key) : F SourceDefinition :=
  source <- require_source k ;;
  if bool_decide (sd_status source = SS_ENABLED) then ret source
  else throw (Exn PermissionError ("source is not enabled: " +:+ snd k +:+ " (" +:+
                                   SourceStatus_value (sd_status source) +:+ ")")).

(** [_require_retryable] *)
Definition require_retryable (k : claim_key) : F SourceDefinition :=
  source <- require_source k ;;
  if bool_decide (sd_status source ∈ [SS_ENABLED; SS_DEGRADED]) then ret source
  else throw (Exn PermissionError ("source is not retryable: " +:+ snd k +:+ " (" +:+
                                   SourceStatus_value (sd_status source) +:+ ")")).

(** [_record_success] *)
Definition record_success (d : SourceDefinition) (started : datetime) : F SourceHealthSnapshot :=
  now <- fabric_now ;;
  snapshot <- on_health (health_record (source_key d) true (Some (now - started)%Z) None None) ;;
  (if bool_decide (sd_status d = SS_DEGRADED)
   then on_registry (control_enable (source_key d)) ;;; ret tt else ret tt) ;;;
  ret snapshot.

(** [_record_failure] *)
Definition record_failure (d : SourceDefinition) (error : string) (started : datetime) :
    F SourceHealthSnapshot :=
  now <- fabric_now ;;
  snapshot <- on_health (health_record (source_key d) false (Some (now - started)%Z) (Some error) None) ;;
  (if bool_decide (sd_status d = SS_ENABLED)
   then on_registry (control_degrade (source_key d)) ;;; ret tt else ret tt) ;;;
  ret snapshot.

(** ** Registration *)

(** [SourceFabric.register] *)
Definition fabric_register (d : SourceDefinition) (a : SourceAdapter G) : F SourceDefinition :=
  definition <- on_registry (control_register d) ;;
  on_adapters (adapter_register a None None) ;;;
  (if String.eqb (sd_mode definition) "poll" then
     let interval := match sd_poll_interval_seconds definition with
                     | Some f => if truthy (VFloat f) then f else sixty_float
                     | None => sixty_float
                     end in
     job <- lift (new_job (sd_source_id definition) interval a (sd_tenant_id definition)
                    (sd_workspace_id definition) (sd_credential_id definition)) ;;
     fun s => match engine_register job (fb_jobs s) with
              | Ret jobs => (Ret tt, with_jobs jobs s)
              | Raise x => (Raise x, s)
              end
   else ret tt) ;;;
  ret definition.

Definition fabric_enable (k : claim_key) : F SourceDefinition := on_registry (control_enable k).
Definition fabric_pause (k : claim_key) : F SourceDefinition := on_registry (control_pause k).
Definition fabric_disable (k : claim_key) : F SourceDefinition := on_registry (control_disable k).

(** [register_webhook] *)
Definition register_webhook (k : claim_key) (w : WebhookGateway) : F unit :=
  require_enabled k ;;; modify (fun s => with_webhooks (<[k := w]> (fb_webhooks s)) s).

(** ** Polling *)

(** [_run_poll] *)
Definition run_poll (k : claim_key) : F SourceFabricRun :=
  started <- fabric_now ;;
  run <- (fun s => on_gateway_of (engine_run_once (snd k) (fb_jobs s)) s) ;;
  definition <- require_source k ;;
  (match pn_error run with
   | None => record_success definition started
   | Some error => record_failure definition error started
   end) ;;;
  ret (mkFabricRun (pn_source_id run) (pn_result run) 1 [] (pn_error run)).

Definition require_poll (k : claim_key) : F unit :=
  definition <- require_retryable k ;;
  if String.eqb (sd_mode definition) "poll" then ret tt
  else throw (Exn ValueError ("source is not configured for polling: " +:+ snd k)).

(** [poll_once] *)
Definition poll_once (k : claim_key) : F SourceFabricRun := require_poll k ;;; run_poll k.

Definition decide_retry (p : RetryPolicy) (attempt : Z) (reason : string) : F RetryDecision := fun s =>
  let '(d, random) := retry_decide p attempt true reason (fb_random s) in (d, with_random random s).

(** The [for] loop of [poll_with_retry], [n] attempts before its bound. *)
Fixpoint retry_loop (p : RetryPolicy) (k : claim_key) (n : nat) (attempt : Z)
    (retries : list RetryDecision) : F SourceFabricRun :=
  match n with
  | O => throw (Exn (OtherException "AssertionError") "retry controller exceeded its configured attempt bound")
  | S n =>
      run <- run_poll k ;;
      match fr_error run with
      | None => ret (mkFabricRun (snd k) (fr_result run) attempt retries None)
      | Some error =>
          decision <- decide_retry p attempt error ;;
          let retries := retries ++ [decision] in
          if negb (re_retry decision) then
            ret (mkFabricRun (snd k) None attempt retries (Some error))
          else retry_loop p k n (attempt + 1) retries
      end
  end.

(** [poll_with_retry] *)
Definition poll_with_retry (p : RetryPolicy) (k : claim_key) : F SourceFabricRun :=
  require_poll k ;;; retry_loop p k (Z.to_nat (ry_max_attempts p)) 1 [].

(** ** Webhooks, observations, cursors and health *)

Definition request_key (r : WebhookRequest) : claim_key :=
  (wr_tenant_id r, wr_workspace_id r, wr_source_id r).

(** [receive_webhook] *)
Definition receive_webhook (cfg : GatewayConfig W) (r : WebhookRequest) : F AdapterResult :=
  definition <- require_retryable (request_key r) ;;
  if negb (String.eqb (sd_mode definition) "webhook") then
    throw (Exn ValueError ("source is not configured for webhooks: " +:+ wr_source_id r))
  else
    gateway <- (fun s => (Ret (fb_webhooks s !! request_key r), s)) ;;
    match gateway with
    | None => throw (Exn KeyError ("webhook gateway not registered: " +:+ wr_source_id r))
    | Some w =>
        started <- fabric_now ;;
        result <- try_except (on_webhook (webhook_receive cfg w r)) any_exception
                    (fun x => record_failure definition (exception_text x) started ;;; throw x) ;;
        record_success definition started ;;;
        ret result
    end.

(** [ingest_observation] *)
Definition ingest_observation (cfg : GatewayConfig W) (k : claim_key) (record_id : string) (payload : dict)
    (provenance : SourceProvenance) (connector schema : string) : F SourceResponse :=
  require_enabled k ;;;
  on_gateway_of (ingest cfg (post_init (mkRequest (fst (fst k)) (snd (fst k)) "" record_id (VDict payload)
    None connector schema (snd k) (Some provenance) "source.observation" None None None))).

(** [cursor] and [advance_cursor] *)
Definition fabric_cursor (k : claim_key) : F (option SourceCursor) :=
  require_source k ;;; fun s => (cursor_get k (fb_cursors s), s).

Definition advance_cursor (k : claim_key) (cursor : string) (expected : option Z) : F SourceCursor :=
  require_enabled k ;;; on_cursors (cursor_advance k cursor expected).

(** ** The socket *)

(** One check of [ApiSourceSocket.health]. *)
Definition check_adapter (tenant workspace credential : option string) (id : string) : F AdapterHealth :=
  a <- (fun s => (adapter_get id (fb_adapters s), s)) ;;
  match ad_health a with
  | Some check => on_gateway_of (check tenant workspace credential)
  | None => fabric_now ;;; ret (mkAdapterHealth id true (Some "health_check_not_supported"))
  end.

Fixpoint check_adapters (tenant workspace credential : option string) (ids : list string) :
    F (list AdapterHealth) :=
  match ids with
  | [] => ret []
  | id :: ids =>
      x <- check_adapter tenant workspace credential id ;;
      xs <- check_adapters tenant workspace credential ids ;;
      ret (x :: xs)
  end.

(** [ApiSourceSocket.health] *)
Definition socket_health (id : option string) (tenant workspace credential : option string) :
    F (list AdapterHealth) := fun s =>
  let ids := match id with
             | Some i => if String.eqb i "" then adapter_list (fb_adapters s) else [i]
             | None => adapter_list (fb_adapters s)
             end in
  check_adapters tenant workspace credential ids s.

(** [_definition_for_ingest] of a socket with or without source control *)
Definition definition_for_ingest (controlled : bool) (k : claim_key) : F (option SourceDefinition) :=
  if negb controlled then ret None
  else
    definition <- require_source k ;;
    if negb (sd_enabled definition) then throw (Exn PermissionError ("source is disabled: " +:+ snd k))
    else ret (Some definition).

(** [credential_id or (definition.credential_id if definition else None)] *)
Definition effective_credential (credential : option string) (d : option SourceDefinition) : option string :=
  match credential with
  | Some c => if String.eqb c "" then d ≫= sd_credential_id else Some c
  | None => d ≫= sd_credential_id
  end.

(** [ApiSourceSocket.ingest] *)
Definition socket_ingest (controlled : bool) (k : claim_key) (credential : option string) : F AdapterResult :=
  definition <- definition_for_ingest controlled k ;;
  a <- (fun s => (adapter_get (snd k) (fb_adapters s), s)) ;;
  on_gateway_of (ad_ingest a (fst (fst k)) (snd (fst k)) (effective_credential credential definition)).

(** [ApiSourceSocket.ingest_payload] *)
Definition ingest_payload (controlled : bool) (cfg : GatewayConfig W) (k : claim_key) (record_id : string)
    (payload : dict) (credential : option string) (connector schema : string) : F AdapterResult :=
  definition <- definition_for_ingest controlled k ;;
  let ref := match effective_credential credential definition with
             | Some c => if String.eqb c "" then None
                         else Some (mkCredential c (fst (fst k)) (before_colon (snd k)) [] None)
             | None => None
             end in
  response <- on_gateway_of (ingest cfg (post_init (mkRequest (fst (fst k)) (snd (fst k)) "" record_id
                (VDict payload) ref connector schema (snd k) None "source.observation" None None None))) ;;
  ret (adapter_response (snd k) [response]).

Record SocketStatus := mkSocketStatus {
  so_source_id : string;
  so_registered : bool;
  so_healthy : option bool;
  so_reason : option string }.

(** [ApiSourceSocket.status] *)
Definition socket_status (id : string) (tenant workspace credential : option string) : F SocketStatus := fun s =>
  match ag_adapters (fb_adapters s) !! id with
  | None => (Ret (mkSocketStatus id false None (Some "source_not_registered")), s)
  | Some a =>
      match ad_health a with
      | None => (Ret (mkSocketStatus id true (Some true) (Some "health_check_not_supported")), s)
      | Some check =>
          (h <- on_gateway_of (check tenant workspace credential) ;;
           ret (mkSocketStatus id true (Some (ah_healthy h)) (ah_reason h))) s
      end
  end.

(** [SourceFabric.check_health]: the whole check is in the [try]. *)
Definition check_health (k : claim_key) : F SourceHealthSnapshot :=
  definition <- require_source k ;;
  started <- fabric_now ;;
  try_except
    (checks <- socket_health (Some (snd k)) (Some (fst (fst k))) (Some (snd (fst k)))
                 (sd_credential_id definition) ;;
     match checks with
     | [] => throw (Exn (OtherException "IndexError") "tuple index out of range")
     | result :: _ =>
         if ah_healthy result then record_success definition started
         else record_failure definition
                (match ah_reason result with
                 | Some r => if String.eqb r "" then "source health check failed" else r
                 | None => "source health check failed"
                 end) started
     end)
    any_exception
    (fun x => record_failure definition (exception_text x) started).
End fabric.

Arguments FabricState T C W : clear implicits.
