(* ===== verification/SourceSamples.v ===== *)
(** * Concrete inputs for the source gateway and the fabric *)

From stdpp Require Import base gmap strings list.
From Stdlib Require Import ZArith Lia Ascii Floats.SpecFloat.
From S2P Require Import Prelude Uuid Json Samples Automation SourceLimits SourceStores SourceGateway SourceRegistry SourceAdapters SourceFabric.

#[export] Instance sample_obj_str : ObjStr := fun n => n.

(** Digests: the integer under the first key; a polynomial in the characters. *)
#[export] Instance sample_canonical : CanonicalSha := fun t =>
  match t with JsonText (VDict ((_, VInt z) :: _)) => pretty.pretty z | _ => "" end.

Fixpoint poly (acc : N) (s : string) : N :=
  match s with
  | EmptyString => acc
  | String a s => poly ((acc * 257 + N_of_ascii a) mod 2 ^ 128) s
  end.
#[export] Instance sample_uuid5 : Uuid5 := poly 0.

#[export] Instance sample_py_str : PyStr := fun _ => "value".
#[export] Instance sample_float_of : FloatParse := fun _ => Some zero_float.
#[export] Instance sample_hmac : HmacHex := fun _ _ => "digest".
#[export] Instance sample_body : BodyParse := fun _ => Some (VDict [("id", VInt 1)]).

Abbreviation SampleGateway W := (GatewayState source_ledger (gmap claim_key claim_row) W).

Definition still_clock : float_stream := mkStream (fun _ => zero_float) 0.

(** A gateway on an empty ledger that keeps claims, over a world. *)
Definition empty_gateway {W} (w : W) : SampleGateway W :=
  mkGateway (mkLedger [] []) (Some ∅) [] ∅ None still_clock sample_env w.

Definition plain_gateway {W} : GatewayConfig W := mkGatewayConfig None None.

(** Request [n] of a tenant and a workspace. *)
Definition observation_of (tenant workspace : string) (n : Z) (key : option string) : SourceRequest :=
  post_init (mkRequest tenant workspace "" "record" (VDict [("id", VInt n)]) None "v1" "v1" "feed" None
    "source.observation" key None None).

(** A webhook and the boundary that receives it. *)
Definition sample_webhook : WebhookRequest :=
  mkWebhookRequest "t" "w" "hooks" "r" "body" "digest" "0" "key".
Definition webhook_gateway (rc : replay_config) : WebhookGateway :=
  mkWebhookGateway (mkWebhookPolicy "secret" one_float "") rc 100.
Definition webhook_state (g : SampleGateway unit) : WebhookState source_ledger (gmap claim_key claim_row) unit :=
  mkWebhookState g ∅ still_clock.

(** A bucket that holds one token and never refills on a still clock: the state
    after the token has been taken. *)
Definition one_token : RateLimitPolicy := mkRatePolicy one_float one_float.
Definition drained_manager (key : string) : RateLimitManager :=
  mkRateManager [(key, one_token)] (<[key := mkBucket one_token (mkRateState zero_float zero_float)]> ∅) ∅.
Definition limited_gateway : SampleGateway unit :=
  mkGateway (mkLedger [] []) (Some ∅) [] ∅ (Some (drained_manager "t:w:hooks")) still_clock sample_env tt.

(** A source with two pages; the world is its cursor. *)
Definition two_pages : PollingSource (option string) :=
  mkPolling "feed"
    (fun c w => (Ret (match c with
                      | None => mkPage [[("id", VInt 1)]] (Some "next")
                      | Some _ => mkPage [[("id", VInt 2)]] (Some "end")
                      end), w))
    (fun w => (Ret w, w)) (fun c w => (Ret tt, c)) 2 "poll-v1".

(** Sources of two tenants with one identifier, and their adapters: the result
    names the tenant it was made for. *)
Definition source_of (tenant : string) : SourceDefinition :=
  mkSource "feed" tenant "w" "provider" "poll" true (Some []) None None SS_ENABLED None ["b"; "a"].
Definition naming_adapter : SourceAdapter (SampleGateway unit) :=
  mkAdapter "feed" (fun tenant _ _ g => (Ret (mkAdapterResult tenant 0 [] [] []), g)) None.
Definition failing_adapter : SourceAdapter (SampleGateway unit) :=
  mkAdapter "feed" (fun _ _ _ g => (raise OSError "down", g)) None.

Definition empty_fabric : FabricState source_ledger (gmap claim_key claim_row) unit :=
  mkFabric (webhook_state (empty_gateway tt)) ∅ empty_adapters ∅ ∅ ∅ ∅ ∅ still_clock.

Definition two_attempts : RetryPolicy := mkRetryPolicy 2 one_float one_float zero_float.
