(* ===== verification/SourceTheorems.v ===== *)
(** * Theorems about the source gateway *)

From stdpp Require Import base gmap strings list relations.
From Stdlib Require Import ZArith Lia Floats.SpecFloat.
From S2P Require Import Prelude Uuid Json Automation SourceLimits SourceStores SourceGateway SourceFacts Samples SourceSamples.
Local Open Scope py_scope.

Section theorems.
Context {IF : IsoFormat} {OS : ObjStr} {CS : CanonicalSha} {U5 : Uuid5}.

Section claims.
Context {T C W : Type} {ES : EvidenceSink T} {SC : SourceClaims C} {SL : SourceClaimsLaws C}.
Abbreviation St := (GatewayState T C W).

(** C11. [SourceGateway.ingest] refines its specification: it is refused before
    anything is written, or its idempotency key is taken and it names the event
    that holds it, or it commits evidence and event of the request once; the key
    is then held by that event exactly when the commit accepted it, also when the
    commit or the pipeline raises. *)
Theorem ingest_refines_spec (cfg : GatewayConfig W) (r : SourceRequest) (g g' : St) res :
  claims_ok g -> fits (C := C) r -> ingest cfg r g = (res, g') ->
  claims_ok g' /\ ingest_spec cfg r (keyed g r) (gs_sink g, keys g) res (gs_sink g', keys g').
Proof. apply ingest_meets_spec. Qed.

(** Any gateway call by anyone who shares the stores. *)
Definition source_call (g g' : St) : Prop :=
  exists cfg r res, fits (C := C) r /\ ingest cfg r g = (res, g').

Definition holds_key (k : claim_key) (ev : string) (g : St) : Prop :=
  claims_ok g /\ keys g !! k = Some ev.

Lemma holds_key_kept k ev g g' : holds_key k ev g -> source_call g g' -> holds_key k ev g'.
Proof.
  intros [Hok Hk] (cfg & r & res & Hf & E).
  destruct (ingest_meets_spec _ _ _ _ _ Hok Hf E) as [Hok' Hs]. split; [done|].
  inversion Hs as [| |? ? ? ? ? ? ? Hfree| |]; subst; try congruence.
  destruct (keyed g r) as [k'|] eqn:Ek; [|done].
  rewrite lookup_insert_ne; [done|]. intros ->. rewrite (Hfree _ eq_refl) in Hk. discriminate.
Qed.

Lemma holds_key_keyed k ev g r key :
  holds_key k ev g -> sq_idempotency_key r = Some key -> key <> "" -> key_of r key = k ->
  keyed g r = Some k.
Proof.
  intros [_ Hk] Er Hne <-. unfold keyed, keys in *. rewrite Er.
  destruct (gs_claims g); simpl in Hk; [|by rewrite lookup_empty in Hk].
  by rewrite (proj2 (String.eqb_neq key "")).
Qed.

(** Once an observation has been accepted under an idempotency key, no later
    request of the same tenant and workspace with that key stores anything,
    whatever was ingested in between; it is refused, or told the event of the
    accepted one. *)
Theorem idempotency_key_accepted_once (cfg cfg' : GatewayConfig W) r r' key (g g1 g2 g3 : St) p res :
  claims_ok g -> gs_claims g <> None -> fits (C := C) r -> fits (C := C) r' ->
  sq_idempotency_key r = Some key -> sq_idempotency_key r' = Some key -> key <> "" ->
  key_of r' key = key_of r key ->
  ingest cfg r g = (Ret p, g1) -> sp_accepted p = true ->
  rtc source_call g1 g2 -> ingest cfg' r' g2 = (res, g3) ->
  gs_sink g3 = gs_sink g2 /\
  (outcome_refused res \/
   exists q, res = Ret q /\ sp_accepted q = false /\ sp_reason q = Some "duplicate_idempotency" /\
             sp_event_id q = sp_event_id p).
Proof.
  intros Hok Hc Hf Hf' Er Er' Hne Hkk E1 Hp Hrun E3.
  assert (holds_key (key_of r key) (sp_event_id p) g1) as H1.
  { destruct (ingest_meets_spec _ _ _ _ _ Hok Hf E1) as [Hok' Hs]. split; [done|].
    assert (keyed g r = Some (key_of r key)) as Hk.
    { unfold keyed. rewrite Er. destruct (gs_claims g); [|done]. by rewrite (proj2 (String.eqb_neq key "")). }
    rewrite Hk in Hs. inversion Hs as [? ? ? Hr| |? ? ? ? ? ? ? ? ? ? ? ? Hres| |]; subst; simpl in *; try done.
    { inversion Hr; subst; done. }
    destruct Hres as [(reason & [= ->] & _)|(_ & x & ?)]; [|done]. apply lookup_insert_eq. }
  assert (holds_key (key_of r key) (sp_event_id p) g2) as H2.
  { revert H1 Hrun. apply rtc_invariant. by apply holds_key_kept. }
  pose proof (holds_key_keyed _ _ _ _ _ H2 Er' Hne Hkk) as Hk2. destruct H2 as [Hok2 H2].
  destruct (ingest_meets_spec _ _ _ _ _ Hok2 Hf' E3) as [_ Hs]. rewrite Hk2 in Hs.
  inversion Hs as [|? ? k held hash Hkey Hheld|? ? ? ? ? ? ? Hfree|? ? ? ? ? ? Hfree|? ? ? ? ? ? ? Hfree]; subst;
    try (by rewrite (Hfree _ eq_refl) in H2); [by auto|].
  split; [done|]. right. injection Hkey as <-. rewrite H2 in Hheld. injection Hheld as <-. by eexists.
Qed.
End claims.

(** ** Over the SQLite ledger *)

Section ledger.
Context {C W : Type} {SC : SourceClaims C} {SL : SourceClaimsLaws C}.
Abbreviation St := (GatewayState source_ledger C W).

(** Ingestion through any gateway on the ledger, or a consumer that reports an
    event as published. *)
Inductive ledger_step : St -> St -> Prop :=
  | step_ingest g g' : source_call g g' -> ledger_step g g'
  | step_publish now id g : ledger_step g (set_sink (ledger_mark_published now id (gs_sink g)) g).

Lemma ledger_step_ok g g' : claims_ok g /\ ledger_ok (gs_sink g) -> ledger_step g g' ->
  (claims_ok g' /\ ledger_ok (gs_sink g')) /\ ledger_grows (gs_sink g) (gs_sink g').
Proof.
  intros [Hok Hl] Hs. destruct Hs as [g g' (cfg & r & res & Hf & E)|now id g].
  - destruct (ingest_ledger_ok _ _ _ _ _ Hok Hf E Hl) as (? & ? & ?). done.
  - destruct (mark_published_ok now id _ Hl). done.
Qed.

Lemma ledger_run_ok g g' : claims_ok g /\ ledger_ok (gs_sink g) -> rtc ledger_step g g' ->
  (claims_ok g' /\ ledger_ok (gs_sink g')) /\ ledger_grows (gs_sink g) (gs_sink g').
Proof.
  intros H Hr. revert H. induction Hr as [g|g1 g2 g3 Hs _ IH]; intros H; [by split; [|reflexivity]|].
  destruct (ledger_step_ok _ _ H Hs) as [H2 G2]. destruct (IH H2) as [H3 G3].
  split; [done|]. by etransitivity.
Qed.

(** C12. Whatever gateways and consumers do to a ledger that starts empty, its
    evidence rows and its events correspond one to one and in order, each event
    announcing its evidence within the same tenant and workspace; identifiers and
    digests are those of the rows' columns, no observation is stored twice, and
    neither evidence nor events are ever lost or altered. *)
Theorem ledger_events_match_evidence (g g1 g2 : St) :
  claims_ok g -> gs_sink g = mkLedger [] [] -> rtc ledger_step g g1 -> rtc ledger_step g1 g2 ->
  ledger_ok (gs_sink g2) /\ ledger_grows (gs_sink g1) (gs_sink g2).
Proof.
  intros Hok He H1 H2.
  assert (claims_ok g /\ ledger_ok (gs_sink g)) as H by (split; [done | rewrite He; apply ledger_ok_empty]).
  destruct (ledger_run_ok _ _ H H1) as [H' _]. by destruct (ledger_run_ok _ _ H' H2) as [[_ ?] ?].
Qed.

(** The row a request would be stored as. *)
Definition stored_for (r : SourceRequest) (hash : string) (e : evidence_row) : Prop :=
  observation e = (sq_tenant_id r, sq_workspace_id r, sq_source_id r, sq_source_record_id r, hash) /\
  re_evidence_id e = evidence_id_of r hash.

Lemma commit_ingest_row r hash ev event s s' :
  evidence_for r hash ev -> event_for r hash event -> commit_ingest ev event s = Ret (true, s') ->
  exists e, sl_evidence s' = sl_evidence s ++ [e] /\ stored_for r hash e.
Proof.
  intros (t & run & -> & _) (payload & now & -> & _). unfold commit_ingest, new_evidence_row. simpl.
  destruct (check_hash _); simpl; [|done]. destruct (_ || _); [done|].
  destruct (dumps _); simpl; [|done]. destruct (existsb _ _); [done|].
  destruct (outbox_append _ _) as [[[] o]|]; simpl; try done. intros [= <-]. by eexists.
Qed.

(** When two requests have the same text of identifiers, as with tenant
    ["a:b"], workspace ["c"] and tenant ["a"], workspace ["b:c"], their evidence
    gets the same identifier: once one is accepted the other is never stored. It
    is answered as a duplicate although its tenant has no such evidence. *)
Theorem scope_collision_hides_evidence (cfg cfg' : GatewayConfig W) r r' hash (g g1 g2 g3 : St) p q :
  claims_ok g -> fits (C := C) r -> fits (C := C) r' -> ledger_ok (gs_sink g) ->
  canonical_hash (payload_of r') = Ret hash -> evidence_name r hash = evidence_name r' hash ->
  ingest cfg r g = (Ret p, g1) -> sp_accepted p = true -> sp_payload_hash p = hash ->
  rtc ledger_step g1 g2 -> ingest cfg' r' g2 = (Ret q, g3) ->
  sp_accepted q = false /\ gs_sink g3 = gs_sink g2 /\
  (sp_reason q = Some "rate_limited" \/ sp_reason q = Some "invalid_rate_limit_lease" \/
   sp_reason q = Some "duplicate_idempotency" \/ sp_reason q = Some "duplicate_evidence").
Proof.
  intros Hok Hf Hf' Hl Hh' Hname E1 Hp Hph Hrun E3.
  assert (exists e, e ∈ sl_evidence (gs_sink g1) /\ re_evidence_id e = evidence_id_of r hash) as (e & He & Hid).
  { destruct (ingest_meets_spec _ _ _ _ _ Hok Hf E1) as [_ Hs].
    inversion Hs as [? ? ? Hr| |? ? ? h ev event ? ? Hh Hev Hevt Hc Hres| |]; subst; simpl in *; try done.
    { inversion Hr; subst; done. }
    destruct Hres as [(reason & [= ->] & _)|(_ & x & ?)]; [|done]. simpl in *.
    apply ledger_sink in Hc. destruct (commit_ingest_row _ _ _ _ _ _ Hev Hevt Hc) as (e & -> & _ & Hid).
    exists e. split; [apply elem_of_app; right; by left | done]. }
  destruct (ingest_ledger_ok _ _ _ _ _ Hok Hf E1 Hl) as (Hok1 & Hl1 & _).
  destruct (ledger_run_ok _ _ (conj Hok1 Hl1) Hrun) as [[Hok2 Hl2] [[new Hnew] _]].
  assert (e ∈ sl_evidence (gs_sink g2)) as He2 by (rewrite Hnew; apply elem_of_app; by left).
  destruct (ingest_meets_spec _ _ _ _ _ Hok2 Hf' E3) as [_ Hs].
  inversion Hs as [? ? ? Hr| |? ? ? h ev event ? ? Hh Hev Hevt Hc Hres|? ? ? h ev event ? Hh Hev Hevt Hc|]; subst;
    simpl in *.
  - inversion Hr; subst; simpl; (split_and!; [done | congruence | by auto]).
  - split_and!; [done | congruence | by auto].
  - exfalso. apply ledger_sink in Hc. rewrite Hh in Hh'. injection Hh' as ->.
    pose proof (commit_ingest_inv _ _ _ _ _ _ _ Hev Hevt Hh Hc) as (e' & o & Hs' & _ & _ & Hn & _).
    destruct (commit_ingest_row _ _ _ _ _ _ Hev Hevt Hc) as (e2 & Hs2 & _ & Hid2).
    rewrite Hs' in Hs2. simpl in Hs2. apply app_inj_2 in Hs2 as [_ [= ->]]; [|done].
    pose proof (proj1 (Forall_forall _ _) Hn e He2) as Hno. simpl in Hno.
    apply orb_false_iff in Hno as [Hno _]. apply String.eqb_neq in Hno. apply Hno.
    rewrite Hid, Hid2. unfold evidence_id_of. by rewrite Hname.
  - apply ledger_sink in Hc. pose proof (commit_ingest_inv _ _ _ _ _ _ _ Hev Hevt Hh Hc) as E.
    split_and!; [done | congruence | by auto].
Qed.
End ledger.
End theorems.

(** ** Witnesses *)

Section witnesses.

Definition quiet_gateway : GatewayConfig unit := plain_gateway.

Definition keyed_request (n : Z) : SourceRequest := observation_of "t" "w" n (Some "key").

Lemma sample_fits r : fits (C := gmap claim_key claim_row) r.
Proof. by intros key. Qed.

Definition ingested (r : SourceRequest) (g : SampleGateway unit) : SampleGateway unit :=
  snd (ingest quiet_gateway r g).
Definition answer (r : SourceRequest) (g : SampleGateway unit) : outcome SourceResponse :=
  fst (ingest quiet_gateway r g).

Lemma ingest_refines_spec_witness :
  let g := empty_gateway tt in
  let r := keyed_request 1 in
  keyed g r = Some ("t", "w", "key") /\
  claims_ok (ingested r g) /\
  ingest_spec quiet_gateway r (keyed g r) (gs_sink g, keys g) (answer r g)
    (gs_sink (ingested r g), keys (ingested r g)).
Proof.
  intros g r. split; [reflexivity|]. apply (ingest_refines_spec quiet_gateway r g (ingested r g) (answer r g));
    [by intros ? ? ? | apply sample_fits | apply surjective_pairing].
Defined.

Lemma idempotency_key_accepted_once_witness :
  let g1 := ingested (keyed_request 1) (empty_gateway tt) in
  let g3 := ingested (keyed_request 2) g1 in
  gs_sink g3 = gs_sink g1 /\
  (outcome_refused (answer (keyed_request 2) g1) \/
   exists q, answer (keyed_request 2) g1 = Ret q /\ sp_accepted q = false /\
     sp_reason q = Some "duplicate_idempotency" /\
     Ret (sp_event_id q) = (p <-? answer (keyed_request 1) (empty_gateway tt) ;; Ret (sp_event_id p))).
Proof.
  intros g1 g3. destruct (answer (keyed_request 1) (empty_gateway tt)) as [p|x] eqn:E; [|vm_compute in E; discriminate E].
  edestruct (idempotency_key_accepted_once quiet_gateway quiet_gateway (keyed_request 1) (keyed_request 2) "key"
    (empty_gateway tt) g1 g1 g3 p (answer (keyed_request 2) g1)) as [H1 H2];
    [by intros ? ? ? | discriminate | apply sample_fits | apply sample_fits | reflexivity | reflexivity | discriminate
    | reflexivity | rewrite <- E; apply surjective_pairing | vm_compute in E; injection E as <-; reflexivity
    | apply rtc_refl | apply surjective_pairing|].
  split; [exact H1|]. destruct H2 as [H2|(q & Hq & Ha & Hr & Hid)]; [by left|right].
  exists q. split; [exact Hq|]. split; [exact Ha|]. split; [exact Hr|]. cbn [out_bind]. by rewrite Hid.
Defined.

Lemma ledger_events_match_evidence_witness :
  let g1 := ingested (keyed_request 1) (empty_gateway tt) in
  let g2 := set_sink (ledger_mark_published "now" "e" (gs_sink g1)) g1 in
  length (sl_evidence (gs_sink g2)) = 1 /\
  ledger_ok (gs_sink g2) /\ ledger_grows (gs_sink g1) (gs_sink g2).
Proof.
  intros g1 g2. split; [vm_compute; reflexivity|].
  apply (ledger_events_match_evidence (empty_gateway tt) g1 g2); [by intros ? ? ? | reflexivity | |].
  - apply rtc_once, step_ingest. exists quiet_gateway, (keyed_request 1), (answer (keyed_request 1) (empty_gateway tt)).
    split; [apply sample_fits | apply surjective_pairing].
  - apply rtc_once, step_publish.
Defined.

(** Two tenants whose identifiers read the same. *)
Definition first_tenant : SourceRequest := observation_of "a:b" "c" 1 None.
Definition second_tenant : SourceRequest := observation_of "a" "b:c" 1 None.

Lemma scope_collision_hides_evidence_witness :
  let g1 := ingested first_tenant (empty_gateway tt) in
  exists q, answer second_tenant g1 = Ret q /\ sp_accepted q = false /\
    gs_sink (ingested second_tenant g1) = gs_sink g1 /\
    (sp_reason q = Some "rate_limited" \/ sp_reason q = Some "invalid_rate_limit_lease" \/
     sp_reason q = Some "duplicate_idempotency" \/ sp_reason q = Some "duplicate_evidence").
Proof.
  intros g1. destruct (answer first_tenant (empty_gateway tt)) as [p|x] eqn:E; [|vm_compute in E; discriminate E].
  destruct (answer second_tenant g1) as [q|x] eqn:E2; [|vm_compute in E2; discriminate E2].
  exists q. split; [reflexivity|].
  apply (scope_collision_hides_evidence quiet_gateway quiet_gateway first_tenant second_tenant "1"
    (empty_gateway tt) g1 g1 (ingested second_tenant g1) p q);
    [by intros ? ? ? | apply sample_fits | apply sample_fits | apply ledger_ok_empty | vm_compute; reflexivity
    | reflexivity | rewrite <- E; apply surjective_pairing | vm_compute in E; injection E as <-; reflexivity
    | vm_compute in E; injection E as <-; reflexivity | apply rtc_refl | rewrite <- E2; apply surjective_pairing].
Defined.
End witnesses.
