(* ===== verification/AdapterFacts.v ===== *)
(** * Facts about webhooks and polling

    What verification, release and [receive] do to the replay reservations and to
    the evidence sink, and what a polling run leaves behind its cursor. *)

From stdpp Require Import base gmap strings list relations.
From Stdlib Require Import ZArith Lia Floats.SpecFloat.
From S2P Require Import Prelude Uuid Json Automation SourceLimits SourceStores SourceGateway SourceFacts SourceAdapters.
Local Open Scope py_scope.

Section webhooks.
Context {IF : IsoFormat} {OS : ObjStr} {CS : CanonicalSha} {U5 : Uuid5} {PS : PyStr}.
Context {FP : FloatParse} {HH : HmacHex} {BP : BodyParse}.
Context {T C W : Type} {ES : EvidenceSink T} {SC : SourceClaims C} {SL : SourceClaimsLaws C}.
Abbreviation St := (WebhookState T C W).
Implicit Types (s : St) (k : claim_key).

(** The sink, the claims, the limits and the world of the gateway. *)
Definition same_gateway (g g' : GatewayState T C W) : Prop :=
  gs_sink g' = gs_sink g /\ gs_claims g' = gs_claims g /\ gs_manager g' = gs_manager g /\
  gs_clock g' = gs_clock g /\ gs_world g' = gs_world g.

(** ** A replay store of its own *)

Definition reserved s : gmap claim_key string := cl_view (ws_replay s).

(** Verification reserves a free key exactly when it succeeds. *)
Lemma verify_own p payload sig ts k s o s' :
  cl_ok (ws_replay s) -> cl_text k (snd k) ->
  security_verify p OwnReplay payload sig ts k s = (o, s') ->
  cl_ok (ws_replay s') /\ same_gateway (ws_gateway s) (ws_gateway s') /\
  (o <> Ret true /\ reserved s' = reserved s \/
   o = Ret true /\ reserved s !! k = None /\ reserved s' = <[k := snd k]> (reserved s)).
Proof.
  intros Hok Ht. unfold security_verify, reserved.
  destruct (float_of ts); [|intros [= <- <-]; split_and!; by auto].
  destruct (next_float (ws_time s)) as [now time].
  destruct (SFltb _ _); [intros [= <- <-]; split_and!; by auto|].
  destruct (compare_digest _ _) as [[]|]; [|intros [= <- <-]; split_and!; by auto..].
  simpl. destruct (cl_claim k (snd k) (ws_replay s) (gs_env (ws_gateway s)) Hok Ht) as (c & e & -> & Hok' & Hv).
  intros [= <- <-]. simpl. split_and!; try done. rewrite Hv.
  destruct (cl_view (ws_replay s) !! k) eqn:E; simpl; [left|right]; by auto.
Qed.

Lemma release_own k s : cl_ok (ws_replay s) -> cl_text k (snd k) -> reserved s !! k = Some (snd k) ->
  exists s', security_release OwnReplay k s = (Ret true, s') /\ cl_ok (ws_replay s') /\
    ws_gateway s' = ws_gateway s /\ reserved s' = delete k (reserved s).
Proof.
  intros Hok Ht Hk. unfold security_release, reserved in *. simpl.
  destruct (cl_release k (snd k) (ws_replay s) Hok Ht) as (c & -> & Hok' & Hv).
  rewrite Hk in *. rewrite bool_decide_eq_true_2, decide_True in * by done.
  eexists. split; [done|]. by rewrite <- Hv.
Qed.

(** [receive] with a replay store of its own: nothing happens, or the key was
    free and stays reserved exactly when [receive] does not fail in the gateway. *)
Lemma receive_own cfg w r s res s' :
  wg_replay w = OwnReplay -> cl_ok (ws_replay s) -> cl_text (webhook_key r) (wr_idempotency_key r) ->
  webhook_receive cfg w r s = (res, s') ->
  cl_ok (ws_replay s') /\
  (same_gateway (ws_gateway s) (ws_gateway s') /\ reserved s' = reserved s /\ (exists x, res = Raise x) \/
   reserved s !! webhook_key r = None /\
   (reserved s' = <[webhook_key r := wr_idempotency_key r]> (reserved s) /\
    (same_gateway (ws_gateway s) (ws_gateway s') /\ (exists x, res = Raise x) /\
     (forall d, parse_body (wr_body r) <> Some (VDict d)) \/
     exists d g p, parse_body (wr_body r) = Some (VDict d) /\ same_gateway (ws_gateway s) g /\
       ingest cfg (webhook_source_request r d) g = (Ret p, ws_gateway s') /\
       exists a, res = Ret a /\ ar_records a = (if sp_accepted p then 1 else 0)%Z) \/
    reserved s' = reserved s /\
    exists d g x, parse_body (wr_body r) = Some (VDict d) /\ same_gateway (ws_gateway s) g /\
      ingest cfg (webhook_source_request r d) g = (Raise x, ws_gateway s') /\ res = Raise x)).
Proof.
  intros Hw Hok Ht. unfold webhook_receive. rewrite Hw.
  destruct (_ <? _)%Z; [intros [= <- <-]; split; [done|]; left; split_and!; by eauto|].
  unfold bind at 1. destruct (security_verify _ _ _ _ _ _ s) as [o s1] eqn:Ev.
  destruct (verify_own _ _ _ _ _ _ _ _ Hok Ht Ev) as (Hok1 & Hg & [[Hne Hr]|(-> & Hfree & Hr)]).
  { destruct o as [[]|x]; [done | |]; intros [= <- <-]; (split; [done|]); left; split_and!; by eauto. }
  cbn [negb]. destruct (parse_body (wr_body r)) as [[| | | | | | |d|]|] eqn:Eb;
    try (intros [= <- <-]; split; [done|]; right; split; [done|]; left; split; [done|]; left;
         split_and!; (done || by eexists)).
  unfold bind at 1, try_except, on_gateway.
  destruct (ingest cfg (webhook_source_request r d) (ws_gateway s1)) as [[p|x] g2] eqn:Ei; cbn [any_exception].
  - intros [= <- <-]. split; [done|]. right. split; [done|]. left. split; [done|]. right.
    exists d, (ws_gateway s1), p. split_and!; try done. by eexists.
  - unfold bind. destruct (release_own (webhook_key r) (set_gateway g2 s1)) as (s3 & -> & Hok3 & Hg3 & Hr3);
      [done | done | unfold reserved in *; simpl; rewrite Hr; apply lookup_insert_eq |].
    intros [= <- <-]. split; [done|]. right. split; [done|]. right. split.
    + rewrite Hr3. unfold reserved in *. simpl. rewrite Hr, delete_insert_eq. by apply delete_id.
    + exists d, (ws_gateway s1), x. split_and!; try done. by rewrite Hg3.
Qed.

(** ** The claims of the gateway as replay store *)

Lemma verify_shared p payload sig ts k s o s' :
  gs_claims (ws_gateway s) <> None -> claims_ok (ws_gateway s) -> cl_text k (snd k) ->
  security_verify p SharedReplay payload sig ts k s = (o, s') ->
  gs_claims (ws_gateway s') <> None /\ claims_ok (ws_gateway s') /\
  gs_sink (ws_gateway s') = gs_sink (ws_gateway s) /\
  (o = Ret true -> keys (ws_gateway s') !! k = Some (snd k)).
Proof.
  intros Hc Hok Ht. unfold security_verify.
  destruct (float_of ts); [|by intros [= <- <-]].
  destruct (next_float (ws_time s)) as [now time].
  destruct (SFltb _ _); [by intros [= <- <-]|].
  destruct (compare_digest _ _) as [[]|]; [|by intros [= <- <-]..].
  unfold claims_ok, keys in *. simpl. destruct (gs_claims (ws_gateway s)) as [c|] eqn:Ec; [|done]. simpl in *.
  destruct (cl_claim k (snd k) c (gs_env (ws_gateway s)) Hok Ht) as (c' & e & -> & Hok' & Hv).
  intros [= <- <-]. simpl. split_and!; try done. intros [= Hd]. rewrite Hv.
  apply bool_decide_eq_true in Hd. rewrite decide_True by done. apply lookup_insert_eq.
Qed.

Lemma release_shared_sink k s o s' :
  security_release SharedReplay k s = (o, s') -> gs_sink (ws_gateway s') = gs_sink (ws_gateway s).
Proof.
  unfold security_release, replay_store, set_replay. destruct (gs_claims (ws_gateway s)); [|by intros [= <- <-]].
  destruct (release_claim _ _ _). by intros [= <- <-].
Qed.

Lemma webhook_fits r d :
  cl_text (webhook_key r) "" -> (forall u, cl_text (webhook_key r) (uuid_str u)) ->
  fits (C := C) (webhook_source_request r d).
Proof. intros H1 H2 key [= <-]. done. Qed.
End webhooks.

(** ** Polling *)

Section polling.
Context {IF : IsoFormat} {OS : ObjStr} {CS : CanonicalSha} {U5 : Uuid5} {PS : PyStr}.
Context {C W : Type} {SC : SourceClaims C} {SL : SourceClaimsLaws C}.
Abbreviation St := (GatewayState source_ledger C W).

(** Where the world keeps the cursor. *)
Context (cell : W -> option string).

Definition cell_of (g : St) : option string := cell (gs_world g).
Definition same_cell (g g' : St) : Prop := cell_of g' = cell_of g.

#[export] Instance same_cell_preorder : PreOrder same_cell.
Proof. unfold same_cell. split; [by intros x | intros x y z; congruence]. Qed.

(** The pipeline does not move the cursor. *)
Definition pipeline_keeps (cfg : GatewayConfig W) : Prop :=
  forall process, gc_pipeline cfg = Some process -> forall event v w, cell (snd (process event v w)) = cell w.

Lemma quiet_cell {A} (m : M St A) : keeps quiet m -> keeps same_cell m.
Proof. intros H g. destruct (H g) as (_ & _ & Hw). unfold same_cell, cell_of. by rewrite Hw. Qed.

Lemma ingest_keeps_cell cfg r : pipeline_keeps cfg -> keeps same_cell (ingest cfg r).
Proof.
  intros Hp. unfold ingest.
  apply keeps_bind; [apply _ | apply quiet_cell, verify_quiet | intros v].
  apply keeps_bind; [apply _ | apply quiet_cell, check_rate_quiet | intros a].
  destruct (negb a); [apply keeps_ret; apply _|].
  apply keeps_bind; [apply _ | apply quiet_cell, check_lease_quiet | intros [reason|]];
    [apply keeps_ret; apply _|].
  unfold ingest_admitted. apply keeps_bind; [apply _ | apply keeps_lift; apply _ | intros hash].
  apply keeps_bind; [apply _ | apply quiet_cell, build_evidence_quiet | intros ev].
  apply keeps_bind; [apply _ | apply quiet_cell, build_event_quiet | intros event].
  assert (forall c id, keeps same_cell (release (W := W) (T := source_ledger) (C := C) c id)) as Hrel.
  { intros c id g. unfold release. repeat case_match; done. }
  apply keeps_bind; [apply _ | | intros c].
  { intros g. unfold claim_idempotency. repeat case_match; done. }
  assert (keeps same_cell (try_except (commit (W := W) (C := C) ev event) any_exception
    (fun x => release c (event_id_of (evidence_id_of r hash)) ;;; throw x))) as Hcommit.
  { apply keeps_try; [apply _ | | intros x; apply keeps_bind; [apply _ | apply Hrel | intros _; apply keeps_throw; apply _]].
    intros g. unfold commit. by destruct (sink_commit ev event (gs_sink g)). }
  assert (keeps same_cell (run_pipeline (T := source_ledger) (C := C) cfg r hash
            (event_id_of (evidence_id_of r hash)) v)) as Hpipe.
  { intros g. unfold run_pipeline. destruct (gc_pipeline cfg) as [process|] eqn:E; [|done].
    unfold now_g, bind. simpl. destruct (payload_of r); try done.
    pose proof (Hp _ E) as Hc. simpl. unfold same_cell, cell_of.
    match goal with |- context [process ?e ?v ?w] => specialize (Hc e v w); destruct (process e v w) as [[|] w'] end;
      simpl in *; done. }
  destruct c; try (apply keeps_ret; apply _);
    (apply keeps_bind; [apply _ | apply Hcommit | intros [|]];
     [apply keeps_bind; [apply _ | apply Hpipe | intros reason; apply keeps_ret; apply _]
     | apply keeps_bind; [apply _ | apply Hrel | intros _; apply keeps_ret; apply _]]).
Qed.

(** The callables of a polling source: reading the cursor reads the cell,
    fetching leaves it, and setting it either fails or sets it. *)
Record polls_cell (p : PollingSource W) : Prop := {
  pl_get w : exists w', po_get_cursor p w = (Ret (cell w), w') /\ cell w' = cell w;
  pl_fetch c w : cell (snd (po_fetch_page p c w)) = cell w;
  pl_set c w : match po_set_cursor p c w with
               | (Ret _, w') => cell w' = c
               | (Raise _, w') => cell w' = cell w \/ cell w' = c
               end }.

(** A page the source answered for a cursor. *)
Definition served (p : PollingSource W) (c : option string) (page : PollPage) : Prop :=
  exists w w', po_fetch_page p c w = (Ret page, w').

(** From cursor [c] to cursor [c'] along pages all of whose records have their
    event in the outbox. *)
Inductive covered (p : PollingSource W) (tenant workspace : string) (s : source_ledger) (c : option string) :
    option string -> Prop :=
  | covered_here : covered p tenant workspace s c c
  | covered_page c' page :
      covered p tenant workspace s c c' -> served p c' page ->
      Forall (fun record => announced s (poll_request p tenant workspace c' record)) (pg_records page) ->
      covered p tenant workspace s c (pg_next_cursor page).

Lemma covered_grows (p : PollingSource W) t w s s' c c' : ledger_grows s s' -> covered p t w s c c' -> covered p t w s' c c'.
Proof.
  intros Hg. induction 1 as [|c' page _ IH Hs Hr]; [constructor|]. econstructor; [done..|].
  eapply Forall_impl; [exact Hr|]. intros record. by apply announced_grows.
Qed.

Definition gateway_ok (g : St) : Prop := claims_ok g /\ ledger_ok (gs_sink g).

Lemma poll_request_fits (p : PollingSource W) t w c record : fits (C := C) (poll_request p t w c record).
Proof. by intros key. Qed.

Lemma poll_records_stored cfg (p : PollingSource W) t w c records (g : St) res g' :
  pipeline_keeps cfg -> gateway_ok g -> poll_records cfg p t w c records g = (res, g') ->
  gateway_ok g' /\ ledger_grows (gs_sink g) (gs_sink g') /\ cell_of g' = cell_of g /\
  ((exists xs, res = Ret xs) ->
   Forall (fun record => announced (gs_sink g') (poll_request p t w c record)) records).
Proof.
  intros Hp. revert g res g'. induction records as [|record records IH]; intros g res g' [Hok Hl]; simpl.
  { intros [= <- <-]. split_and!; try done. }
  unfold bind at 1, poll_record, bind at 1.
  destruct (ingest cfg (poll_request p t w c record) g) as [o g1] eqn:Ei.
  pose proof (ingest_keeps_cell _ (poll_request p t w c record) Hp g) as Hcell. rewrite Ei in Hcell. simpl in Hcell.
  destruct (ingest_ledger_ok _ _ _ _ _ Hok (poll_request_fits _ _ _ _ _) Ei Hl) as (Hok1 & Hl1 & Hg1).
  destruct o as [x|x]; [|intros [= <- <-]; split_and!; try done; by intros [? ?]].
  destruct (negb (sp_accepted x) && _) eqn:Er; [intros [= <- <-]; split_and!; try done; by intros [? ?]|].
  assert (announced (gs_sink g1) (poll_request p t w c record)) as Ha.
  { eapply ingest_announces; [exact Hok | apply poll_request_fits | exact Hl | exact Ei|].
    apply andb_false_iff in Er as [Er|Er]; apply negb_false_iff in Er; [by left|right].
    by apply bool_decide_eq_true in Er. }
  unfold ret at 1, bind at 1.
  destruct (poll_records cfg p t w c records g1) as [o g2] eqn:Ep.
  destruct (IH _ _ _ (conj Hok1 Hl1) Ep) as (Hok2 & Hg2 & Hc2 & Hall).
  assert (ledger_grows (gs_sink g) (gs_sink g2)) as Hg by by etransitivity.
  assert (cell_of g2 = cell_of g) as Hc by (rewrite Hc2; exact Hcell).
  destruct o as [xs|x']; intros [= <- <-]; split_and!; try done; [|by intros [? ?]].
  intros _. constructor; [exact (announced_grows _ _ _ Hg2 Ha) | apply Hall; by eexists].
Qed.

Lemma poll_pages_covered cfg (p : PollingSource W) t w c0 n (g : St) c res g' :
  pipeline_keeps cfg -> polls_cell p -> gateway_ok g -> cell_of g = c ->
  covered p t w (gs_sink g) c0 c -> poll_pages cfg p t w n c g = (res, g') ->
  gateway_ok g' /\ covered p t w (gs_sink g') c0 (cell_of g').
Proof.
  intros Hp Hcl. revert g c res g'. induction n as [|n IH]; intros g c res g' Hok Hc Hcov; simpl.
  { intros [= <- <-]. by rewrite Hc. }
  unfold bind at 1, on_world at 1. pose proof (pl_fetch p Hcl c (gs_world g)) as Hf.
  destruct (po_fetch_page p c (gs_world g)) as [[page|x] w1] eqn:Ef; simpl in Hf.
  2:{ intros [= <- <-]. split; [done|]. unfold cell_of in *. simpl. by rewrite Hf, Hc. }
  unfold bind at 1. destruct (poll_records cfg p t w c (pg_records page) (set_world w1 g)) as [o g1] eqn:Ep.
  assert (gateway_ok (set_world w1 g)) as Hok0 by done.
  destruct (poll_records_stored _ _ _ _ _ _ _ _ _ Hp Hok0 Ep) as (Hok1 & Hg1 & Hc1 & Hall). simpl in Hg1.
  assert (cell_of g1 = c) as Hc1' by (rewrite Hc1; unfold cell_of in *; simpl; congruence).
  pose proof (covered_grows _ _ _ _ _ _ _ Hg1 Hcov) as Hcov1.
  destruct o as [xs|x]; [|intros [= <- <-]; by rewrite Hc1'].
  assert (covered p t w (gs_sink g1) c0 (pg_next_cursor page)) as Hcov2.
  { econstructor; [exact Hcov1 | by eexists _, _ | apply Hall; by eexists]. }
  unfold bind at 1, on_world. pose proof (pl_set p Hcl (pg_next_cursor page) (gs_world g1)) as Hset.
  destruct (po_set_cursor p (pg_next_cursor page) (gs_world g1)) as [[[]|x] w2].
  2:{ intros [= <- <-]. split; [done|]. unfold cell_of in *. simpl. destruct Hset as [-> | ->]; [|done].
      by rewrite Hc1'. }
  destruct (pg_next_cursor page) as [c2|] eqn:En.
  2:{ intros [= <- <-]. split; [done|]. unfold cell_of. simpl. by rewrite Hset. }
  unfold bind at 1. destruct (poll_pages cfg p t w n (Some c2) (set_world w2 g1)) as [o g3] eqn:Er.
  assert (gateway_ok g3 /\ covered p t w (gs_sink g3) c0 (cell_of g3)) as H3.
  { by apply (IH _ _ _ _ (Hok1 : gateway_ok (set_world w2 g1)) Hset Hcov2 Er). }
  destruct o; intros [= <- <-]; done.
Qed.
End polling.
