(* ===== verification/FabricFacts.v ===== *)
(** * Facts about registered sources and the fabric

    A definition comes back from its row, the lifecycle of sources under every
    operation of the fabric, and the attempts of [poll_with_retry]. *)

From stdpp Require Import base gmap strings list relations sorting.
From Stdlib Require Import ZArith Lia Floats.SpecFloat.
From S2P Require Import Prelude Uuid Json Recovery Automation SourceLimits SourceStores SourceGateway SourceRegistry SourceAdapters SourceFabric.
Local Open Scope py_scope.

Section registry.
Context {IF : IsoFormat}.
Implicit Types (d : SourceDefinition) (k : claim_key) (s : registry_table).

(** What the constructor guarantees. *)
Record valid_source d : Prop := {
  vs_ids : sd_tenant_id d <> "" /\ sd_workspace_id d <> "" /\ sd_source_id d <> "" /\ sd_provider d <> "";
  vs_mode : sd_mode d ∈ ["poll"; "webhook"; "push"];
  vs_interval : forall f, sd_poll_interval_seconds d = Some f -> SFleb f zero_float = false;
  vs_enabled : sd_enabled d = bool_decide (sd_status d = SS_ENABLED) }.

Lemma status_of_value st : status_of (SourceStatus_value st) = Ret st.
Proof. by destruct st. Qed.

Lemma new_source_inv id t w p m en cfg cr up st iv caps d :
  new_source id t w p m en cfg cr up st iv caps = Ret d ->
  valid_source d /\ sd_source_id d = id /\ sd_tenant_id d = t /\ sd_workspace_id d = w /\
  sd_provider d = p /\ sd_mode d = m /\ sd_config d = cfg /\ sd_credential_id d = cr /\
  sd_updated_at d = up /\ sd_poll_interval_seconds d = iv /\ sd_capabilities d = caps /\
  (forall x, st = Some (SourceStatus_value x) -> sd_status d = x).
Proof.
  unfold new_source. destruct (_ || _) eqn:Eid; [done|]. destruct (negb _) eqn:Em; [done|].
  destruct (match iv with Some f => _ | None => false end) eqn:Ei; [done|].
  intros H.
  assert (exists y, (match st with Some z => status_of z
                     | None => Ret (if en then SS_ENABLED else SS_DISABLED) end) = Ret y /\
            d = mkSource id t w p m (bool_decide (y = SS_ENABLED)) cfg cr up y iv caps) as (x & Hx & ->).
  { destruct (match st with Some z => status_of z | None => _ end) as [x|]; [|done].
    injection H as <-. by exists x. }
  repeat rewrite orb_false_iff in Eid. destruct Eid as [[[E1 E2] E3] E4].
  apply String.eqb_neq in E1, E2, E3, E4. apply negb_false_iff, bool_decide_eq_true in Em.
  split_and!; try done; [split; simpl; try done; by intros f -> |].
  intros y ->. rewrite status_of_value in Hx. by injection Hx as <-.
Qed.

Lemma new_source_valid d cfg up iv caps :
  valid_source d -> (forall f, iv = Some f -> SFleb f zero_float = false) ->
  forall en, new_source (sd_source_id d) (sd_tenant_id d) (sd_workspace_id d) (sd_provider d) (sd_mode d) en
    cfg (sd_credential_id d) up (Some (SourceStatus_value (sd_status d))) iv caps =
  Ret (mkSource (sd_source_id d) (sd_tenant_id d) (sd_workspace_id d) (sd_provider d) (sd_mode d)
         (sd_enabled d) cfg (sd_credential_id d) up (sd_status d) iv caps).
Proof.
  intros [(H1 & H2 & H3 & H4) Hm _ He] Hi en. unfold new_source.
  rewrite !(proj2 (String.eqb_neq _ _)) by done. cbn [orb].
  rewrite bool_decide_eq_true_2 by done. cbn [negb].
  destruct (match iv with Some f => SFleb f zero_float | None => false end) eqn:E.
  { destruct iv; [|done]. by rewrite (Hi _ eq_refl) in E. }
  rewrite status_of_value. simpl. by rewrite He.
Qed.

(** ** Rows *)

Lemma dumps_strings l : dumps (VList (VStr <$> l)) = Ret (JsonText (VList (VStr <$> l))).
Proof.
  unfold dumps. rewrite json_norm_list.
  assert (norm_seq (VStr <$> l) = Ret (VStr <$> l)) as ->; [|done].
  induction l as [|x l IH]; [done|]. rewrite fmap_cons. cbn [norm_seq json_norm out_bind]. by rewrite IH.
Qed.

Lemma strings_of_list l : strings_of (VList (VStr <$> l)) = Some l.
Proof.
  unfold strings_of. induction l as [|x l IH]; [done|]. rewrite fmap_cons. cbn [mapM].
  by rewrite IH.
Qed.

(** The definition as it is read back. *)
Definition reread d (config : dict) (now : datetime) : SourceDefinition :=
  mkSource (sd_source_id d) (sd_tenant_id d) (sd_workspace_id d) (sd_provider d) (sd_mode d) (sd_enabled d)
    (Some config) (sd_credential_id d) (Some now) (sd_status d) (sql_real (sd_poll_interval_seconds d))
    (sorted_strings (sd_capabilities d)).

(** Storing a definition fails, and changes nothing, exactly when its
    configuration is not JSON; otherwise the definition can be read back. *)
Lemma registry_put_get d s e o s' e' :
  valid_source d -> registry_put d (s, e) = (o, (s', e')) ->
  match json_norm (VDict (default [] (sd_config d))) with
  | Raise x => o = Raise x /\ s' = s
  | Ret v => o = Ret tt /\ (forall k, k <> source_key d -> s' !! k = s !! k) /\
      exists config now row, v = VDict config /\ s' !! source_key d = Some row /\
        source_of_row (source_key d) row = Ret (reread d config now) /\
        (forall t, sd_updated_at d = Some t -> now = t)
  end.
Proof.
  intros Hv. unfold registry_put.
  destruct (match sd_updated_at d with Some t => (t, e) | None => utc_now e end) as [now e1] eqn:Et.
  rewrite dumps_strings. unfold dumps.
  destruct (json_norm (VDict (default [] (sd_config d)))) as [v|x] eqn:Ej; simpl; intros [= <- <- <-]; [|done].
  split; [done|]. split; [intros k Hk; by rewrite lookup_insert_ne|].
  rewrite json_norm_dict in Ej. destruct (norm_obj _) as [config|]; [|done]. injection Ej as <-.
  exists (sort_keys config), now. eexists. split; [done|]. rewrite lookup_insert_eq. split; [done|]. split.
  - unfold source_of_row. cbn [sr_updated_at sr_config sr_capabilities sr_status sr_enabled sr_mode sr_provider
      sr_credential_id sr_poll_interval_seconds source_key fst snd].
    rewrite fromisoformat_isoformat. unfold loads. rewrite strings_of_list.
    apply (new_source_valid d (Some (sort_keys config)) (Some now)); [done|].
    intros f Hf. destruct (sd_poll_interval_seconds d) as [g|] eqn:Eg; [|done].
    destruct g; simpl in Hf; try done; injection Hf as <-; by apply (vs_interval d Hv).
  - intros t Ht. rewrite Ht in Et. by injection Et as <- _.
Qed.

Lemma reread_key d config now : source_key (reread d config now) = source_key d.
Proof. done. Qed.

(** ** The lifecycle *)

Definition status_at k s : option SourceStatus :=
  match registry_get k s with Ret (Some d) => Some (sd_status d) | _ => None end.

(** The lifecycle of a source: which status may follow which. *)
Definition follows (a b : SourceStatus) : Prop :=
  match a, b with
  | SS_REGISTERED, (SS_ENABLED | SS_DISABLED)
  | SS_ENABLED, (SS_PAUSED | SS_DEGRADED | SS_DISABLED)
  | SS_PAUSED, (SS_ENABLED | SS_DISABLED)
  | SS_DEGRADED, (SS_ENABLED | SS_PAUSED | SS_DISABLED)
  | SS_DISABLED, SS_REGISTERED => True
  | _, _ => False
  end.

Lemma allowed_follows a b : b ∈ allowed_transitions a -> follows a b.
Proof. destruct a; cbn; rewrite ?elem_of_cons, elem_of_nil; intuition subst; exact I. Qed.

(** The calls, by what they may do to a source. *)
Inductive call_kind :=
  | Registers (k : claim_key)
  | Controls (k : claim_key) (target : SourceStatus)
  | Deletes (k : claim_key)
  | Runs (k : claim_key)
  | Observes.

(** Health moves a source between these two. *)
Definition running (a : option SourceStatus) : Prop := a = Some SS_ENABLED \/ a = Some SS_DEGRADED.

(** What a call may do to the status of the source [k]: registering creates it,
    or starts it again when it is disabled; a command of the control plane moves
    it to its target, if that may follow; a deletion removes it; polling, a
    webhook or a health check moves it between enabled and degraded; other calls
    leave it alone, and no call changes another source. *)
Definition changes (c : call_kind) (k : claim_key) (a b : option SourceStatus) : Prop :=
  b = a \/
  match c with
  | Registers k' => k = k' /\ (a = None \/ a = Some SS_DISABLED) /\ b = Some SS_REGISTERED
  | Controls k' t => k = k' /\ b = Some t /\ exists x, a = Some x /\ follows x t
  | Deletes k' => k = k' /\ is_Some a /\ b = None
  | Runs k' => k = k' /\ running a /\ running b
  | Observes => False
  end.

#[export] Instance changes_preorder c k : PreOrder (changes c k).
Proof.
  split; [intros a; by left|]. intros a1 a2 a3 [->|H1] [->|H2]; [by left | by right | by right|].
  destruct c; right.
  - destruct H1 as (_ & _ & ->), H2 as (_ & [?|?] & _); done.
  - destruct H1 as (_ & -> & _), H2 as (_ & _ & x & [= <-] & Hf). by destruct target.
  - destruct H1 as (_ & _ & ->), H2 as (_ & [? ?] & _); done.
  - destruct H1 as (? & ? & _), H2 as (_ & _ & ?). done.
  - done.
Qed.

(** Every row decodes to a definition. *)
Definition table_ok s : Prop := map_Forall (fun k r => exists d, source_of_row k r = Ret d) s.

Section kind.
Variable c : call_kind.

(** A table moves to another one as the call may, source by source. *)
Definition lifecycle s s' : Prop :=
  table_ok s -> table_ok s' /\ forall k, changes c k (status_at k s) (status_at k s').

#[export] Instance lifecycle_preorder : PreOrder lifecycle.
Proof.
  split.
  - intros s Hok. by split.
  - intros s1 s2 s3 H1 H2 Hok. destruct (H1 Hok) as [Hok2 M1]. destruct (H2 Hok2) as [Hok3 M2].
    split; [done|]. intros k. transitivity (status_at k s2); [apply M1 | apply M2].
Qed.

Lemma source_of_row_key k r d : source_of_row k r = Ret d -> source_key d = k /\ valid_source d.
Proof.
  unfold source_of_row. destruct (fromisoformat _); [|done]. destruct (loads (sr_config r)); try done.
  destruct (strings_of _); [|done]. intros H.
  apply new_source_inv in H as (Hv & E1 & E2 & E3 & _). split; [|done].
  unfold source_key. rewrite E1, E2, E3. by destruct k as [[]].
Qed.

Lemma control_get_inv k se o se' : control_get k se = (o, se') ->
  se' = se /\ forall d, o = Ret d ->
    registry_get k (fst se) = Ret (Some d) /\ source_key d = k /\ valid_source d.
Proof.
  unfold control_get, registry_get. intros H. destruct (fst se !! k) as [r|] eqn:Er; [|by injection H as <- <-].
  destruct (source_of_row k r) as [d|] eqn:Ed; injection H as <- <-; (split; [done|]); [|done].
  intros d' [= <-]. destruct (source_of_row_key _ _ _ Ed). done.
Qed.

(** Writing a definition whose move the call allows. *)
Lemma put_lifecycle d s e o s' e' :
  valid_source d -> registry_put d (s, e) = (o, (s', e')) ->
  changes c (source_key d) (status_at (source_key d) s) (Some (sd_status d)) -> lifecycle s s'.
Proof.
  intros Hv Hp Hm Hok. pose proof (registry_put_get _ _ _ _ _ _ Hv Hp) as H.
  destruct (json_norm _) as [v|x]; [|destruct H as [_ ->]; by split].
  destruct H as (_ & Hother & config & now & row & _ & Hrow & Hread & _). split.
  - intros k r Hk. destruct (decide (k = source_key d)) as [->|Hne].
    + rewrite Hrow in Hk. injection Hk as <-. by eexists.
    + rewrite Hother in Hk by done. by apply (Hok k r).
  - intros k. destruct (decide (k = source_key d)) as [->|Hne].
    + assert (status_at (source_key d) s' = Some (sd_status d)) as ->; [|done].
      unfold status_at, registry_get. rewrite Hrow, Hread. done.
    + unfold status_at, registry_get. by rewrite Hother.
Qed.

Lemma registry_get_status k s d : registry_get k s = Ret (Some d) -> status_at k s = Some (sd_status d).
Proof. unfold status_at. by intros ->. Qed.

Definition reg_keeps {A} (m : M (registry_table * Env) A) : Prop :=
  forall se, lifecycle (fst se) (fst (snd (m se))).

Lemma control_get_keeps k : reg_keeps (control_get k).
Proof. intros se. destruct (control_get k se) as [o se'] eqn:E. by destruct (control_get_inv _ _ _ _ E) as [-> _]. Qed.

Lemma control_register_keeps d : c = Registers (source_key d) -> reg_keeps (control_register d).
Proof.
  intros Hc [s e]. unfold control_register, bind at 1. simpl.
  destruct (registry_get (source_key d) s) as [existing|x] eqn:Eg; [|done].
  destruct (match existing with Some x => _ | None => false end) eqn:Ex; [done|].
  unfold bind at 1, lift. destruct (new_source _ _ _ _ _ _ _ _ _ _ _ _) as [d'|] eqn:En; [|done].
  apply new_source_inv in En as (Hv & E1 & E2 & E3 & _ & _ & _ & _ & _ & _ & _ & Hst).
  assert (source_key d' = source_key d) as Hk by (unfold source_key; congruence).
  unfold bind at 1. destruct (registry_put d' (s, e)) as [o [s1 e1]] eqn:Ep.
  assert (lifecycle s s1) as Hl.
  { eapply put_lifecycle; [exact Hv | exact Ep|]. rewrite Hk, (Hst SS_REGISTERED eq_refl).
    unfold status_at. rewrite Eg, Hc. right. split; [done|]. split; [|done].
    destruct existing as [x|]; [right | by left].
    apply negb_false_iff, bool_decide_eq_true in Ex. by rewrite Ex. }
  destruct o; [|done]. simpl. etransitivity; [exact Hl|]. apply (control_get_keeps _ (s1, e1)).
Qed.

(** What a successful registration returns. *)
Lemma control_register_inv d se x se' : control_register d se = (Ret x, se') ->
  source_key x = source_key d /\ sd_credential_id x = sd_credential_id d /\ sd_mode x = sd_mode d.
Proof.
  destruct se as [s e]. unfold control_register, bind at 1. simpl.
  destruct (registry_get (source_key d) s) as [existing|]; [|done].
  destruct (match existing with Some x => _ | None => false end); [done|].
  unfold bind at 1, lift. destruct (new_source _ _ _ _ _ _ _ _ _ _ _ _) as [d'|] eqn:En; [|done].
  apply new_source_inv in En as (Hv & E1 & E2 & E3 & _ & E5 & _ & E7 & _ & _ & _ & _).
  assert (source_key d' = source_key d) as Hk by (unfold source_key; congruence).
  unfold bind at 1. destruct (registry_put d' (s, e)) as [[[]|] [s1 e1]] eqn:Ep; [|done].
  pose proof (registry_put_get _ _ _ _ _ _ Hv Ep) as H. destruct (json_norm _) as [v|]; [|by destruct H].
  destruct H as (_ & _ & config & now & row & _ & Hrow & Hread & _). rewrite Hk in Hrow, Hread.
  unfold control_get, registry_get. cbn [fst]. rewrite Hrow, Hread. intros [= <- _].
  rewrite reread_key, Hk. done.
Qed.

Lemma source_transition_inv t d d' : valid_source d -> source_transition t d = Ret d' ->
  valid_source d' /\ source_key d' = source_key d /\
  (d' = d \/ sd_status d' = t /\ follows (sd_status d) t).
Proof.
  intros Hv. unfold source_transition. case_bool_decide as Heq; [intros [= <-]; by auto|].
  case_bool_decide as Hin; [|done]. intros H.
  apply new_source_inv in H as (Hv' & E1 & E2 & E3 & _ & _ & _ & _ & _ & _ & _ & Hst).
  split; [done|]. split; [unfold source_key; congruence|]. right. split; [by apply Hst | by apply allowed_follows].
Qed.

Lemma control_transition_from k t s e :
  (forall x, status_at k s = Some x -> follows x t -> changes c k (Some x) (Some t)) ->
  lifecycle s (fst (snd (control_transition k t (s, e)))).
Proof.
  intros Hc. unfold control_transition, bind at 1.
  destruct (control_get k (s, e)) as [o se1] eqn:Eg. destruct (control_get_inv _ _ _ _ Eg) as [-> Hg].
  destruct o as [d|]; [|done]. destruct (Hg _ eq_refl) as (Hd & Hk & Hv). simpl in Hd.
  unfold bind at 1, lift. destruct (source_transition t d) as [d'|] eqn:Et; [|done].
  destruct (source_transition_inv _ _ _ Hv Et) as (Hv' & Hk' & Hcase).
  unfold bind at 1. destruct (registry_put d' (s, e)) as [o [s1 e1]] eqn:Ep.
  assert (lifecycle s s1) as Hl.
  { eapply put_lifecycle; [exact Hv' | exact Ep|]. rewrite Hk', Hk, (registry_get_status _ _ _ Hd).
    destruct Hcase as [-> | [<- Hin]]; [done|]. apply Hc; [by apply registry_get_status | done]. }
  destruct o; [|done]. simpl. etransitivity; [exact Hl|]. apply (control_get_keeps _ (s1, e1)).
Qed.

Lemma control_transition_keeps k t : c = Controls k t -> reg_keeps (control_transition k t).
Proof.
  intros Hc [s e]. apply control_transition_from. intros x _ Hf. rewrite Hc. right. split; [done|].
  split; [done|]. by exists x.
Qed.

Lemma control_delete_keeps k : c = Deletes k -> reg_keeps (control_delete k).
Proof.
  intros Hc [s e]. unfold control_delete, bind.
  destruct (control_get k (s, e)) as [o se1] eqn:Eg. destruct (control_get_inv _ _ _ _ Eg) as [-> Hg].
  destruct o as [d|]; [|done]. destruct (Hg _ eq_refl) as (Hd & _ & _). simpl in *. intros Hok. split.
  - by apply map_Forall_delete.
  - intros k'. unfold registry_delete. destruct (decide (k' = k)) as [->|Hne].
    + rewrite (registry_get_status _ _ _ Hd). unfold status_at, registry_get at 1.
      rewrite lookup_delete_eq, Hc. right. split_and!; [done | by eexists | done].
    + unfold status_at, registry_get. by rewrite lookup_delete_ne.
Qed.
End kind.
End registry.

(** ** Every operation of the fabric *)

Create HintDb fabric.

Section fabric.
Context {IF : IsoFormat} {OS : ObjStr} {CS : CanonicalSha} {U5 : Uuid5} {PS : PyStr}.
Context {FP : FloatParse} {HH : HmacHex} {BP : BodyParse}.
Context {T C W : Type} {ES : EvidenceSink T} {SC : SourceClaims C}.
Abbreviation St := (FabricState T C W).
Abbreviation G := (GatewayState T C W).
Implicit Types s : St.

Section kind.
Variable c : call_kind.

Definition fabric_lifecycle s s' : Prop := lifecycle c (fb_registry s) (fb_registry s').

#[export] Instance fabric_lifecycle_preorder : PreOrder fabric_lifecycle.
Proof.
  unfold fabric_lifecycle. split; [by intros s|]. intros s1 s2 s3 H1 H2. by etransitivity.
Qed.

(** What runs on another part leaves the registry alone. *)
Definition same_registry s s' : Prop := fb_registry s' = fb_registry s.

Lemma same_registry_lifecycle {A} (m : M St A) :
  (forall s, same_registry s (snd (m s))) -> keeps fabric_lifecycle m.
Proof. intros H s. unfold fabric_lifecycle. by rewrite H. Qed.

Lemma on_gateway_keeps {A} (m : M G A) : keeps fabric_lifecycle (on_gateway_of m).
Proof. apply same_registry_lifecycle. intros s. unfold on_gateway_of. by destruct (m _). Qed.
Lemma on_webhook_keeps {A} (m : M (WebhookState T C W) A) : keeps fabric_lifecycle (on_webhook m).
Proof. apply same_registry_lifecycle. intros s. unfold on_webhook. by destruct (m _). Qed.
Lemma on_adapters_keeps {A} (m : M (AdapterRegistry G) A) : keeps fabric_lifecycle (on_adapters m).
Proof. apply same_registry_lifecycle. intros s. unfold on_adapters. by destruct (m _). Qed.
Lemma on_cursors_keeps {A} (m : M (cursor_table * Env) A) : keeps fabric_lifecycle (on_cursors (T := T) (C := C) (W := W) m).
Proof. apply same_registry_lifecycle. intros s. unfold on_cursors. by destruct (m _) as [? []]. Qed.
Lemma on_health_keeps {A} (m : M (health_table * Env) A) : keeps fabric_lifecycle (on_health (T := T) (C := C) (W := W) m).
Proof. apply same_registry_lifecycle. intros s. unfold on_health. by destruct (m _) as [? []]. Qed.
Lemma fabric_now_keeps : keeps fabric_lifecycle (fabric_now (T := T) (C := C) (W := W)).
Proof. by apply same_registry_lifecycle. Qed.

Lemma on_registry_keeps {A} (m : M (registry_table * Env) A) :
  reg_keeps c m -> keeps fabric_lifecycle (on_registry (T := T) (C := C) (W := W) m).
Proof.
  intros H s. unfold on_registry, fabric_lifecycle. specialize (H (fb_registry s, fb_env s)).
  by destruct (m _) as [? []].
Qed.

Hint Resolve on_gateway_keeps on_webhook_keeps on_adapters_keeps on_cursors_keeps on_health_keeps
  fabric_now_keeps on_registry_keeps control_get_keeps : fabric.

(** The operations of [SourceFabric] and of its socket are made of those. *)
Ltac fabric_keeps :=
  repeat first
    [ keeps_step
    | solve [auto with fabric]
    | apply on_registry_keeps; auto with fabric
    | apply same_registry_lifecycle; intros ?; done ].

Lemma require_source_keeps k : keeps fabric_lifecycle (require_source (T := T) (C := C) (W := W) k).
Proof. unfold require_source. fabric_keeps. Qed.
Hint Resolve require_source_keeps : fabric.

Lemma require_enabled_keeps k : keeps fabric_lifecycle (require_enabled (T := T) (C := C) (W := W) k).
Proof. unfold require_enabled. fabric_keeps. Qed.
Lemma require_retryable_keeps k : keeps fabric_lifecycle (require_retryable (T := T) (C := C) (W := W) k).
Proof. unfold require_retryable. fabric_keeps. Qed.
Hint Resolve require_enabled_keeps require_retryable_keeps : fabric.

Lemma require_poll_keeps k : keeps fabric_lifecycle (require_poll (T := T) (C := C) (W := W) k).
Proof. unfold require_poll. fabric_keeps. Qed.
Lemma decide_retry_keeps p n x : keeps fabric_lifecycle (decide_retry (T := T) (C := C) (W := W) p n x).
Proof. apply same_registry_lifecycle. intros s. unfold decide_retry. by destruct (retry_decide _ _ _ _ _). Qed.
Lemma definition_for_ingest_keeps b k : keeps fabric_lifecycle (definition_for_ingest (T := T) (C := C) (W := W) b k).
Proof. unfold definition_for_ingest. fabric_keeps. Qed.
Lemma check_adapter_keeps t w cr id : keeps fabric_lifecycle (check_adapter (T := T) (C := C) (W := W) t w cr id).
Proof. unfold check_adapter. fabric_keeps. Qed.
Lemma check_adapters_keeps t w cr ids : keeps fabric_lifecycle (check_adapters (T := T) (C := C) (W := W) t w cr ids).
Proof.
  induction ids as [|id ids IH]; cbn [check_adapters]; fabric_keeps; first [apply check_adapter_keeps | apply IH].
Qed.
Lemma engine_run_keeps id :
  keeps fabric_lifecycle (fun s => on_gateway_of (engine_run_once (T := T) (C := C) (W := W) id (fb_jobs s)) s).
Proof. intros s. apply on_gateway_keeps. Qed.
Lemma socket_health_keeps id t w cr :
  keeps fabric_lifecycle (socket_health (T := T) (C := C) (W := W) id t w cr).
Proof. intros s. apply check_adapters_keeps. Qed.
Hint Resolve require_poll_keeps decide_retry_keeps
  definition_for_ingest_keeps engine_run_keeps socket_health_keeps : fabric.

Lemma fabric_register_keeps d a :
  c = Registers (source_key d) -> keeps fabric_lifecycle (fabric_register (T := T) (C := C) (W := W) d a).
Proof.
  intros Hc. unfold fabric_register. pose proof (control_register_keeps c d Hc).
  fabric_keeps; apply same_registry_lifecycle; intros s; by case_match.
Qed.
End kind.

#[local] Hint Resolve on_gateway_keeps on_webhook_keeps on_adapters_keeps on_cursors_keeps on_health_keeps
  fabric_now_keeps on_registry_keeps control_get_keeps require_source_keeps require_enabled_keeps
  require_retryable_keeps require_poll_keeps decide_retry_keeps definition_for_ingest_keeps
  engine_run_keeps socket_health_keeps : fabric.

Ltac fabric_keeps :=
  repeat first
    [ keeps_step
    | solve [auto with fabric]
    | apply on_registry_keeps; auto with fabric
    | apply same_registry_lifecycle; intros ?; done ].

(** ** Runs

    A run reads the definition first; what it then does rests on the status it
    read, which is still one of the two when it was one of them. *)

Section runs.
Variable d : SourceDefinition.

Definition as_read s : Prop :=
  running (Some (sd_status d)) -> running (status_at (source_key d) (fb_registry s)).

Definition live s s' : Prop :=
  as_read s -> table_ok (fb_registry s) ->
  as_read s' /\ table_ok (fb_registry s') /\
  forall k, changes (Runs (source_key d)) k (status_at k (fb_registry s)) (status_at k (fb_registry s')).

#[export] Instance live_preorder : PreOrder live.
Proof.
  split; [by intros s|]. intros s1 s2 s3 H1 H2 Hr Hok. destruct (H1 Hr Hok) as (Hr2 & Hok2 & M1).
  destruct (H2 Hr2 Hok2) as (Hr3 & Hok3 & M2). split; [done|]. split; [done|]. intros k.
  by transitivity (status_at k (fb_registry s2)).
Qed.

Lemma live_of s s' : (as_read s -> fabric_lifecycle (Runs (source_key d)) s s') -> live s s'.
Proof.
  intros H Hr Hok. destruct (H Hr Hok) as [Hok' M]. split; [|done]. intros Hrun.
  destruct (M (source_key d)) as [->|(_ & _ & ?)]; [by apply Hr | done].
Qed.

Lemma live_keeps {A} (m : M St A) : keeps (fabric_lifecycle (Runs (source_key d))) m -> keeps live m.
Proof. intros H s. by apply live_of. Qed.

Lemma live_control t :
  running (Some t) -> running (Some (sd_status d)) ->
  keeps live (on_registry (T := T) (C := C) (W := W) (control_transition (source_key d) t)).
Proof.
  intros Ht Hd s. apply live_of. intros Hr. unfold on_registry, fabric_lifecycle.
  pose proof (control_transition_from (Runs (source_key d)) (source_key d) t (fb_registry s) (fb_env s)) as H.
  destruct (control_transition _ _ _) as [o [s1 e1]]. apply H.
  intros x Hx _. right. split; [done|]. rewrite <- Hx. split; [by apply Hr | done].
Qed.

Lemma record_success_live t : keeps live (record_success (T := T) (C := C) (W := W) d t).
Proof.
  unfold record_success, control_enable.
  apply keeps_bind; [apply _ | apply live_keeps; auto with fabric | intros now].
  apply keeps_bind; [apply _ | apply live_keeps; auto with fabric | intros snapshot].
  apply keeps_bind; [apply _ | | intros []; by keeps_auto]. case_bool_decide as E; [|by keeps_auto].
  apply keeps_bind; [apply _ | | intros x; by keeps_auto].
  apply live_control; [by left | right; by rewrite E].
Qed.

Lemma record_failure_live x t : keeps live (record_failure (T := T) (C := C) (W := W) d x t).
Proof.
  unfold record_failure, control_degrade.
  apply keeps_bind; [apply _ | apply live_keeps; auto with fabric | intros now].
  apply keeps_bind; [apply _ | apply live_keeps; auto with fabric | intros snapshot].
  apply keeps_bind; [apply _ | | intros []; by keeps_auto]. case_bool_decide as E; [|by keeps_auto].
  apply keeps_bind; [apply _ | | intros y; by keeps_auto].
  apply live_control; [by right | left; by rewrite E].
Qed.
End runs.

#[local] Hint Resolve record_success_live record_failure_live : fabric.

Ltac live_keeps :=
  repeat first
    [ keeps_step
    | solve [auto with fabric]
    | apply live_keeps; solve [fabric_keeps] ].

(** What follows the reading of the definition. *)
Lemma with_definition {A} k (m : M St SourceDefinition) (f : SourceDefinition -> M St A) :
  keeps (fabric_lifecycle (Runs k)) m ->
  (forall s d s', m s = (Ret d, s') -> source_key d = k /\ status_at k (fb_registry s') = Some (sd_status d)) ->
  (forall d, source_key d = k -> keeps (live d) (f d)) ->
  keeps (fabric_lifecycle (Runs k)) (bind m f).
Proof.
  intros Hm Hd Hf. apply keeps_bind_val; [apply _ | done|]. intros d s s' E.
  destruct (Hd _ _ _ E) as [Hk Hst]. intros Hok.
  destruct (Hf d Hk s') as (_ & Hok' & M); [|done|].
  - intros Hr. by rewrite Hk, Hst.
  - rewrite Hk in M. by split.
Qed.

Lemma require_source_read k s d s' :
  require_source (T := T) (C := C) (W := W) k s = (Ret d, s') ->
  source_key d = k /\ status_at k (fb_registry s') = Some (sd_status d).
Proof.
  unfold require_source, on_registry. destruct (control_get k (fb_registry s, fb_env s)) as [o [t e]] eqn:E.
  intros [= -> <-]. apply control_get_inv in E as [[= -> ->] H]. destruct (H d eq_refl) as (Hg & Hk & _).
  split; [done|]. by apply registry_get_status.
Qed.

Lemma require_retryable_read k s d s' :
  require_retryable (T := T) (C := C) (W := W) k s = (Ret d, s') ->
  source_key d = k /\ status_at k (fb_registry s') = Some (sd_status d).
Proof.
  unfold require_retryable. intros H. apply bind_ret_inv in H as (x & s1 & H1 & H).
  destruct (bool_decide _); [|done]. apply ret_inv in H as [-> ->]. by eapply require_source_read.
Qed.

Lemma run_poll_keeps k : keeps (fabric_lifecycle (Runs k)) (run_poll (T := T) (C := C) (W := W) k).
Proof.
  unfold run_poll. apply keeps_bind; [apply _ | auto with fabric | intros started].
  apply keeps_bind; [apply _ | auto with fabric | intros run].
  apply with_definition; [auto with fabric | intros; by eapply require_source_read|].
  intros d Hk. live_keeps.
Qed.

Lemma retry_loop_keeps p k n i l :
  keeps (fabric_lifecycle (Runs k)) (retry_loop (T := T) (C := C) (W := W) p k n i l).
Proof.
  pose proof (run_poll_keeps k).
  revert i l. induction n as [|n IH]; intros i l; cbn [retry_loop]; fabric_keeps; apply IH.
Qed.

Lemma poll_with_retry_keeps p k :
  keeps (fabric_lifecycle (Runs k)) (poll_with_retry (T := T) (C := C) (W := W) p k).
Proof. unfold poll_with_retry. fabric_keeps; apply retry_loop_keeps. Qed.

Lemma receive_webhook_keeps cfg r :
  keeps (fabric_lifecycle (Runs (request_key r))) (receive_webhook (T := T) (C := C) (W := W) cfg r).
Proof.
  unfold receive_webhook. apply with_definition; [auto with fabric | intros; by eapply require_retryable_read|].
  intros d Hk. live_keeps.
Qed.

Lemma check_health_keeps k : keeps (fabric_lifecycle (Runs k)) (check_health (T := T) (C := C) (W := W) k).
Proof.
  unfold check_health. apply with_definition; [auto with fabric | intros; by eapply require_source_read|].
  intros d Hk. live_keeps.
Qed.

(** A call of the fabric, of its socket, or of the control plane behind them. *)
Inductive fabric_call cfg p : call_kind -> St -> St -> Prop :=
  | call_register d a s : fabric_call cfg p (Registers (source_key d)) s (snd (fabric_register d a s))
  | call_control k target s :
      fabric_call cfg p (Controls k target) s (snd (on_registry (control_transition k target) s))
  | call_delete k s : fabric_call cfg p (Deletes k) s (snd (on_registry (control_delete k) s))
  | call_register_webhook k w s : fabric_call cfg p Observes s (snd (register_webhook k w s))
  | call_poll_once k s : fabric_call cfg p (Runs k) s (snd (poll_once k s))
  | call_poll_with_retry k s : fabric_call cfg p (Runs k) s (snd (poll_with_retry p k s))
  | call_webhook r s : fabric_call cfg p (Runs (request_key r)) s (snd (receive_webhook cfg r s))
  | call_observation k i d v x y s :
      fabric_call cfg p Observes s (snd (ingest_observation cfg k i d v x y s))
  | call_advance k c v s : fabric_call cfg p Observes s (snd (advance_cursor k c v s))
  | call_health k s : fabric_call cfg p (Runs k) s (snd (check_health k s))
  | call_ingest b k c s : fabric_call cfg p Observes s (snd (socket_ingest b k c s))
  | call_payload b k i d c x y s :
      fabric_call cfg p Observes s (snd (ingest_payload b cfg k i d c x y s)).

Lemma fabric_call_lifecycle cfg p c s s' : fabric_call cfg p c s s' -> fabric_lifecycle c s s'.
Proof.
  pose proof run_poll_keeps. destruct 1.
  - by apply fabric_register_keeps.
  - by apply on_registry_keeps, control_transition_keeps.
  - by apply on_registry_keeps, control_delete_keeps.
  - revert s. change (keeps (fabric_lifecycle Observes) (register_webhook k w)).
    unfold register_webhook. fabric_keeps.
  - revert s. change (keeps (fabric_lifecycle (Runs k)) (poll_once (T := T) (C := C) (W := W) k)).
    unfold poll_once. fabric_keeps.
  - apply poll_with_retry_keeps.
  - apply receive_webhook_keeps.
  - match goal with |- _ ?s (snd (?m ?s)) => enough (keeps (fabric_lifecycle Observes) m) as Hk by apply Hk end.
    unfold ingest_observation. fabric_keeps.
  - match goal with |- _ ?s (snd (?m ?s)) => enough (keeps (fabric_lifecycle Observes) m) as Hk by apply Hk end.
    unfold advance_cursor. fabric_keeps.
  - apply check_health_keeps.
  - match goal with |- _ ?s (snd (?m ?s)) => enough (keeps (fabric_lifecycle Observes) m) as Hk by apply Hk end.
    unfold socket_ingest. fabric_keeps.
  - match goal with |- _ ?s (snd (?m ?s)) => enough (keeps (fabric_lifecycle Observes) m) as Hk by apply Hk end.
    unfold ingest_payload. fabric_keeps.
Qed.

(** ** The attempts of [poll_with_retry] *)

(** A decision to try again, after a delay within the maximum. *)
Definition retries_bounded (p : RetryPolicy) (d : RetryDecision) : Prop :=
  re_retry d = true /\ SFltb (ry_max_delay_seconds p) (re_delay_seconds d) = false.

(** The attempts of a run: each but the last one was followed by a decision to
    retry; a failed run used them all up. *)
Definition attempts_explained (p : RetryPolicy) (run : SourceFabricRun) : Prop :=
  (1 <= fr_attempts run <= ry_max_attempts p)%Z /\
  exists waits, Forall (retries_bounded p) waits /\ Z.of_nat (length waits) = (fr_attempts run - 1)%Z /\
    match fr_error run with
    | None => fr_retries run = waits
    | Some _ => fr_attempts run = ry_max_attempts p /\ fr_result run = None /\
                exists last, fr_retries run = waits ++ [last] /\ re_retry last = false
    end.

Lemma retry_loop_spec p k n attempt waits s res s' :
  (1 <= attempt <= ry_max_attempts p)%Z -> (ry_max_attempts p <= attempt - 1 + Z.of_nat n)%Z ->
  Forall (retries_bounded p) waits -> Z.of_nat (length waits) = (attempt - 1)%Z ->
  retry_loop (T := T) (C := C) (W := W) p k n attempt waits s = (res, s') ->
  (forall m, (ry_max_attempts p <= attempt - 1 + Z.of_nat m)%Z ->
             retry_loop p k m attempt waits s = (res, s')) /\
  forall run, res = Ret run -> attempts_explained p run.
Proof.
  revert attempt waits s res s'. induction n as [|n IH]; intros attempt waits s res s' Ha Hn Hw Hl; [lia|].
  cbn [retry_loop]. unfold bind at 1. destruct (run_poll k s) as [[run|x] s1] eqn:Er.
  2:{ intros [= <- <-]. split; [|done]. intros [|m] Hm; [lia|]. cbn [retry_loop]. unfold bind at 1. by rewrite Er. }
  destruct (fr_error run) as [error|] eqn:Ee.
  2:{ intros [= <- <-]. split.
      - intros [|m] Hm; [lia|]. cbn [retry_loop]. unfold bind at 1. by rewrite Er, Ee.
      - intros ? [= <-]. unfold attempts_explained. simpl. split; [lia|]. by exists waits. }
  unfold bind at 1. destruct (decide_retry p attempt error s1) as [[d|x] s2] eqn:Ed.
  2:{ intros [= <- <-]. split; [|done]. intros [|m] Hm; [lia|]. cbn [retry_loop]. unfold bind at 1.
      rewrite Er, Ee. unfold bind at 1. by rewrite Ed. }
  unfold decide_retry in Ed. destruct (retry_decide p attempt true error (fb_random s1)) as [o random] eqn:Eo.
  injection Ed as -> <-. destruct (re_retry d) eqn:Erd; cbn [negb].
  - destruct (retry_decide_bounded _ _ _ _ _ _ _ Eo Erd) as [Hd Hlt]. intros H.
    apply IH in H as [Hmore Hrun]; [|lia|lia| |].
    + split; [|done]. intros [|m] Hm; [lia|]. cbn [retry_loop]. unfold bind at 1. rewrite Er, Ee.
      unfold bind at 1, decide_retry. rewrite Eo, Erd. cbn [negb]. apply Hmore. lia.
    + apply Forall_app. split; [done|]. constructor; [by split | constructor].
    + rewrite length_app. simpl. lia.
  - intros [= <- <-]. split.
    + intros [|m] Hm; [lia|]. cbn [retry_loop]. unfold bind at 1. rewrite Er, Ee.
      unfold bind at 1, decide_retry. rewrite Eo, Erd. done.
    + intros ? [= <-]. unfold attempts_explained. simpl. split; [lia|]. exists waits. split_and!; try done.
      * unfold retry_decide in Eo. destruct (attempt <? 1)%Z eqn:E1; [lia|]. cbn [negb orb] in Eo.
        destruct (ry_max_attempts p <=? attempt)%Z eqn:E2; [lia|].
        destruct (float_pow2 _); [|done]. destruct (next_float _). injection Eo as <- _. done.
      * by exists d.
Qed.

(** ** What a poll runs *)

(** The gateway apart from its clocks. *)
Definition same_stores (g g' : G) : Prop :=
  gs_sink g' = gs_sink g /\ gs_claims g' = gs_claims g /\ gs_world g' = gs_world g.

(** [job] ran on the stores of [s] and left those of [s']; [run] reports it. *)
Definition job_ran (job : PollingJob T C W) s (run : SourceFabricRun) s' : Prop :=
  exists g0 r g1, same_stores (fb_gateway s) g0 /\
    ad_ingest (jb_adapter job) (jb_tenant_id job) (jb_workspace_id job) (jb_credential_id job) g0 = (r, g1) /\
    same_stores g1 (fb_gateway s') /\
    match r with
    | Ret x => fr_result run = Some x /\ fr_error run = None
    | Raise x => fr_result run = None /\ fr_error run = Some (exception_text x)
    end.

Definition stores_kept s s' : Prop :=
  same_stores (fb_gateway s) (fb_gateway s') /\ fb_jobs s' = fb_jobs s.

#[export] Instance stores_kept_preorder : PreOrder stores_kept.
Proof.
  unfold stores_kept, same_stores. split; [by intros s|].
  intros s1 s2 s3 ((? & ? & ?) & ?) ((? & ? & ?) & ?). split_and!; congruence.
Qed.

Lemma on_registry_stores {A} (m : M (registry_table * Env) A) : keeps stores_kept (on_registry (T := T) (C := C) (W := W) m).
Proof. intros s. unfold on_registry. by destruct (m _) as [? []]. Qed.
Lemma on_health_stores {A} (m : M (health_table * Env) A) : keeps stores_kept (on_health (T := T) (C := C) (W := W) m).
Proof. intros s. unfold on_health. by destruct (m _) as [? []]. Qed.
Lemma now_stores : keeps stores_kept (fabric_now (T := T) (C := C) (W := W)).
Proof. by intros s. Qed.
Hint Resolve on_registry_stores on_health_stores now_stores : fabric.

Ltac stores_keeps := repeat first [keeps_step | solve [auto with fabric]].

Lemma require_source_stores k : keeps stores_kept (require_source (T := T) (C := C) (W := W) k).
Proof. unfold require_source. stores_keeps. Qed.
Hint Resolve require_source_stores : fabric.
Lemma record_success_stores d t : keeps stores_kept (record_success (T := T) (C := C) (W := W) d t).
Proof. unfold record_success. stores_keeps. Qed.
Lemma record_failure_stores d x t : keeps stores_kept (record_failure (T := T) (C := C) (W := W) d x t).
Proof. unfold record_failure. stores_keeps. Qed.
Lemma require_poll_stores k : keeps stores_kept (require_poll (T := T) (C := C) (W := W) k).
Proof. unfold require_poll, require_retryable. stores_keeps. Qed.

(** [run_once] never raises for a registered job. *)
Lemma engine_run_once_job id jobs job (g : G) :
  jobs !! id = Some job ->
  exists pr g0 r g1 g', engine_run_once id jobs g = (Ret pr, g') /\ same_stores g g0 /\
    ad_ingest (jb_adapter job) (jb_tenant_id job) (jb_workspace_id job) (jb_credential_id job) g0 = (r, g1) /\
    same_stores g1 g' /\
    match r with
    | Ret x => pn_result pr = Some x /\ pn_error pr = None
    | Raise x => pn_result pr = None /\ pn_error pr = Some (exception_text x)
    end.
Proof.
  intros Hj. unfold engine_run_once. rewrite Hj. unfold clock_reading. mred. cbn [next_float].
  match goal with |- context [ad_ingest (jb_adapter job) ?a ?b ?c ?g] =>
    destruct (ad_ingest (jb_adapter job) a b c g) as [[x|x] g1] eqn:Ei end; cbn [any_exception];
    (eexists _, _, _, g1, _; split; [reflexivity|]; split; [|split; [exact Ei|]]; done).
Qed.

Lemma run_poll_job k s run s' job :
  fb_jobs s !! snd k = Some job -> run_poll k s = (Ret run, s') -> job_ran job s run s'.
Proof.
  intros Hj. unfold run_poll, bind at 1. pose proof (now_stores s) as H0.
  destruct (fabric_now s) as [[started|] s0] eqn:E0; [|done]. simpl in H0. destruct H0 as [H0 Hjobs].
  unfold bind at 1, on_gateway_of. rewrite <- Hjobs in Hj.
  destruct (engine_run_once_job _ _ _ (fb_gateway s0) Hj) as (pr & g0 & r & g1 & g' & -> & Hg0 & Hi & Hg1 & Hr).
  intros H.
  assert (stores_kept (with_gateway g' s0) s' /\ fr_result run = pn_result pr /\ fr_error run = pn_error pr)
    as ((Hk & _) & E1 & E2).
  { revert H. unfold bind at 1. pose proof (require_source_stores k (with_gateway g' s0)) as H1.
    destruct (require_source k (with_gateway g' s0)) as [[d|] s2]; [|done]. simpl in H1. unfold bind.
    destruct (pn_error pr) as [x|] eqn:Ee.
    - pose proof (record_failure_stores d x started s2) as H2.
      destruct (record_failure d x started s2) as [[y|] s3]; [|done]. simpl in H2.
      intros [= <- <-]. split; [by etransitivity | done].
    - pose proof (record_success_stores d started s2) as H2.
      destruct (record_success d started s2) as [[y|] s3]; [|done]. simpl in H2.
      intros [= <- <-]. split; [by etransitivity | done]. }
  exists g0, r, g1. rewrite E1, E2. unfold same_stores in *.
  change (fb_gateway (with_gateway g' s0)) with g' in Hk.
  destruct H0 as (? & ? & ?), Hg0 as (? & ? & ?), Hg1 as (? & ? & ?), Hk as (? & ? & ?).
  split; [split_and!; congruence|]. split; [done|]. split; [split_and!; congruence | done].
Qed.

(** ** Registration *)

Lemma fabric_register_inv d a s x s' : fabric_register d a s = (Ret x, s') ->
  is_Some (ag_adapters (fb_adapters s') !! ad_source_id a) /\
  (sd_mode d = "poll" -> exists job, fb_jobs s' !! sd_source_id d = Some job /\ jb_adapter job = a /\
     jb_tenant_id job = sd_tenant_id d /\ jb_workspace_id job = sd_workspace_id d /\
     jb_credential_id job = sd_credential_id d).
Proof.
  unfold fabric_register, bind at 1, on_registry at 1.
  destruct (control_register d (fb_registry s, fb_env s)) as [[y|] [t e]] eqn:Ec; [|done].
  apply control_register_inv in Ec as (Hk & Hcr & Hm). injection Hk as Ht Hws Hid.
  unfold bind at 1, on_adapters at 1, adapter_register. set (s1 := with_registry _ _).
  case_bool_decide; [done|]. simpl.
  destruct (new_spec _ _ _); [|done]. simpl.
  rewrite Hm. destruct (String.eqb_spec (sd_mode d) "poll") as [->|Hne].
  2:{ intros [= _ <-]. simpl. split; [by rewrite lookup_insert_eq | done]. }
  unfold bind at 2, lift at 1, new_job. destruct (SFleb _ _); [done|].
  unfold bind, engine_register. case_bool_decide; [done|].
  intros [= _ <-]. simpl. split; [by rewrite lookup_insert_eq|]. intros _.
  eexists. rewrite <- Hid, lookup_insert_eq. split; [done|]. simpl. split_and!; congruence.
Qed.

(** A second adapter with the identifier of a registered one. *)
Lemma fabric_register_again d a s o s' :
  is_Some (ag_adapters (fb_adapters s) !! ad_source_id a) -> fabric_register d a s = (o, s') ->
  (exists x, o = Raise x) /\ fb_jobs s' = fb_jobs s /\ same_stores (fb_gateway s) (fb_gateway s').
Proof.
  intros Ha. unfold fabric_register, bind at 1, on_registry at 1.
  destruct (control_register d (fb_registry s, fb_env s)) as [[y|x] [t e]];
    [|intros [= <- <-]; split; [by eexists | done]].
  unfold bind at 1, on_adapters at 1, adapter_register. simpl. rewrite bool_decide_eq_true_2 by done.
  intros [= <- <-]. split; [by eexists | done].
Qed.
End fabric.
