(* ===== verification/FabricTheorems.v ===== *)
(** * Theorems about webhooks, polling and the source fabric *)

From stdpp Require Import base gmap strings list relations.
From Stdlib Require Import ZArith Lia Floats.SpecFloat.
From S2P Require Import Prelude Uuid Json Automation SourceLimits SourceStores SourceGateway SourceFacts SourceRegistry SourceAdapters AdapterFacts SourceFabric FabricFacts Samples SourceSamples.
Local Open Scope py_scope.

Section theorems.
Context {IF : IsoFormat} {OS : ObjStr} {CS : CanonicalSha} {U5 : Uuid5} {PS : PyStr}.
Context {FP : FloatParse} {HH : HmacHex} {BP : BodyParse}.

Section webhooks.
Context {T C W : Type} {ES : EvidenceSink T} {SC : SourceClaims C} {SL : SourceClaimsLaws C}.
Abbreviation St := (WebhookState T C W).

(** Any webhook, received by anyone who shares the replay store. *)
Definition webhook_call (s s' : St) : Prop :=
  exists cfg w r res, wg_replay w = OwnReplay /\ cl_text (webhook_key r) (wr_idempotency_key r) /\
    webhook_receive cfg w r s = (res, s').

Definition reservation (k : claim_key) (s : St) : Prop :=
  cl_ok (ws_replay s) /\ reserved s !! k <> None.

Lemma reservation_kept k s s' : reservation k s -> webhook_call s s' -> reservation k s'.
Proof.
  intros [Hok Hk] (cfg & w & r & res & Hw & Ht & E).
  destruct (receive_own _ _ _ _ _ _ Hw Hok Ht E) as [Hok' [(_ & Hr & _)|(Hfree & [(Hr & _)|(Hr & _)])]];
    (split; [done|]); rewrite Hr; try done.
  destruct (decide (webhook_key r = k)) as [->|Hne]; [by rewrite lookup_insert_eq | by rewrite lookup_insert_ne].
Qed.

(** C28. Boundaries that share a readable replay store, which is not the
    gateway's own store of claims, let each key the store accepts through at most
    once: after [receive] has returned, every later webhook with that key raises and
    leaves the sink as it is, whatever webhooks are received in between.  When
    [receive] raises for a body that is a JSON object, a key that was free before
    is free again, so the sender can deliver it once more. *)
Theorem webhook_delivered_once (cfg cfg' : GatewayConfig W) w w' r r' (s s1 s2 s3 : St) res res' :
  wg_replay w = OwnReplay -> wg_replay w' = OwnReplay -> cl_ok (ws_replay s) ->
  cl_text (webhook_key r) (wr_idempotency_key r) -> webhook_key r' = webhook_key r ->
  webhook_receive cfg w r s = (res, s1) -> rtc webhook_call s1 s2 ->
  webhook_receive cfg' w' r' s2 = (res', s3) ->
  match res with
  | Ret _ => (exists x, res' = Raise x) /\ gs_sink (ws_gateway s3) = gs_sink (ws_gateway s2)
  | Raise _ => reserved s !! webhook_key r = None -> (exists d, parse_body (wr_body r) = Some (VDict d)) ->
               reserved s1 !! webhook_key r = None
  end.
Proof.
  intros Hw Hw' Hok Ht Hkk E1 Hrun E3.
  destruct (receive_own _ _ _ _ _ _ Hw Hok Ht E1) as [Hok1 H1]. destruct res as [a|x].
  - assert (reservation (webhook_key r) s1) as Hr1.
    { split; [done|]. destruct H1 as [(_ & _ & x & ?)|(_ & [(-> & _)|(_ & d & g & x & _ & _ & _ & ?)])];
        [done | by rewrite lookup_insert_eq | done]. }
    assert (reservation (webhook_key r) s2) as [Hok2 Hr2].
    { revert Hr1 Hrun. apply rtc_invariant, reservation_kept. }
    assert (wr_idempotency_key r' = wr_idempotency_key r) as Hk by (by injection Hkk).
    destruct (receive_own cfg' w' r' s2 res' s3 Hw' Hok2) as [_ [((Hs & _) & _ & Hx)|(Hfree & _)]];
      [by rewrite Hkk, Hk | done | done | by rewrite Hkk in Hfree].
  - intros Hfree [d Hd]. destruct H1 as [(_ & -> & _)|(_ & [(_ & [(_ & _ & Hno)|(?&?&?&?&?&?&?&?&?)])|(-> & _)])];
      try done. by destruct (Hno d).
Qed.

(** A webhook that the rate limit of its source refuses is lost: [receive]
    returns normally with no record, nothing is stored, and the key stays
    reserved, so that every redelivery raises, whatever happens in between. *)
Theorem rate_limited_webhook_is_lost (cfg cfg' : GatewayConfig W) w w' r r' d m dec m' clock'
    (s s1 s2 s3 : St) a res' :
  wg_replay w = OwnReplay -> wg_replay w' = OwnReplay -> cl_ok (ws_replay s) ->
  cl_text (webhook_key r) (wr_idempotency_key r) -> webhook_key r' = webhook_key r ->
  parse_body (wr_body r) = Some (VDict d) ->
  gs_manager (ws_gateway s) = Some m ->
  allow (rate_key (webhook_source_request r d)) one_float m (gs_clock (ws_gateway s)) = (Ret dec, m', clock') ->
  rd_allowed dec = false ->
  webhook_receive cfg w r s = (Ret a, s1) -> rtc webhook_call s1 s2 ->
  webhook_receive cfg' w' r' s2 = (res', s3) ->
  ar_records a = 0%Z /\ gs_sink (ws_gateway s1) = gs_sink (ws_gateway s) /\
  (exists x, res' = Raise x) /\ gs_sink (ws_gateway s3) = gs_sink (ws_gateway s2).
Proof.
  intros Hw Hw' Hok Ht Hkk Hd Hm Hall Hdec E1 Hrun E3.
  destruct (receive_own _ _ _ _ _ _ Hw Hok Ht E1) as [Hok1 H1].
  destruct H1 as [(_ & _ & x & ?)|(Hfree & [(Hr1 & [(_ & (x & ?) & _)|(d' & g & p & Hd' & Hg & Ei & a' & [= <-] & Ha)])
    |(_ & ? & ? & x & _ & _ & _ & ?)])]; try done.
  rewrite Hd in Hd'. injection Hd' as <-. destruct Hg as (Hs & Hc & Hmg & Hcl & Hwd).
  assert (p = rejected "rate_limited" /\ gs_sink (ws_gateway s1) = gs_sink g) as [-> Hsink].
  { revert Ei. unfold ingest, bind at 1, verify_credential. simpl.
    unfold ret at 1. unfold bind, check_rate. rewrite Hmg, Hm, Hcl, Hall, Hdec. simpl. by intros [= <- <-]. }
  split; [exact Ha|]. split; [congruence|].
  assert (reservation (webhook_key r) s1) as Hr.
  { split; [done|]. rewrite Hr1. by rewrite lookup_insert_eq. }
  assert (reservation (webhook_key r) s2) as [Hok2 Hr2].
  { revert Hr Hrun. apply rtc_invariant, reservation_kept. }
  assert (wr_idempotency_key r' = wr_idempotency_key r) as Hk by (by injection Hkk).
  destruct (receive_own cfg' w' r' s2 res' s3 Hw' Hok2) as [_ [((Hs2 & _) & _ & Hx)|(Hfree2 & _)]];
    [by rewrite Hkk, Hk | done | done | by rewrite Hkk in Hfree2].
Qed.

(** When the replay store is the claim table of the gateway, as with two
    [PostgresIdempotencyStore]s on one database, no webhook is ever ingested: the
    reservation of the key makes the gateway take its own request for a duplicate,
    and [receive] returns normally with no record. *)
Theorem shared_replay_store_drops_webhooks (cfg : GatewayConfig W) w r (s s' : St) res :
  wg_replay w = SharedReplay -> gs_claims (ws_gateway s) <> None -> claims_ok (ws_gateway s) ->
  wr_idempotency_key r <> "" -> cl_text (webhook_key r) "" ->
  cl_text (webhook_key r) (wr_idempotency_key r) -> (forall u, cl_text (webhook_key r) (uuid_str u)) ->
  webhook_receive cfg w r s = (res, s') ->
  gs_sink (ws_gateway s') = gs_sink (ws_gateway s) /\ forall a, res = Ret a -> ar_records a = 0%Z.
Proof.
  intros Hw Hc Hok Hne Ht0 Ht Htu. unfold webhook_receive. rewrite Hw.
  destruct (_ <? _)%Z; [by intros [= <- <-]|].
  unfold bind at 1. destruct (security_verify _ _ _ _ _ _ s) as [o s1] eqn:Ev.
  destruct (verify_shared _ _ _ _ _ _ _ _ Hc Hok Ht Ev) as (Hc1 & Hok1 & Hs1 & Hk1).
  destruct o as [[]|x]; cbn [negb]; [|by intros [= <- <-]..]. specialize (Hk1 eq_refl).
  destruct (parse_body (wr_body r)) as [[| | | | | | |d|]|]; try by intros [= <- <-].
  unfold bind at 1, try_except, on_gateway.
  destruct (ingest cfg (webhook_source_request r d) (ws_gateway s1)) as [o g2] eqn:Ei.
  destruct (ingest_meets_spec _ _ _ _ _ Hok1 (webhook_fits r d Ht0 Htu) Ei) as [_ Hspec].
  assert (keyed (ws_gateway s1) (webhook_source_request r d) = Some (webhook_key r)) as Hkd.
  { unfold keyed. simpl. destruct (gs_claims (ws_gateway s1)); [|done]. by rewrite (proj2 (String.eqb_neq _ "")). }
  rewrite Hkd in Hspec.
  assert (gs_sink g2 = gs_sink (ws_gateway s1) /\ forall p, o = Ret p -> sp_accepted p = false) as [Hs2 Hp].
  { inversion Hspec as [? ? ? Hr| |? ? ? ? ? ? ? Hfree|? ? ? ? ? ? Hfree|? ? ? ? ? ? ? Hfree]; subst;
      try (by rewrite (Hfree _ eq_refl) in Hk1); (split; [done|]); intros p Hp; [|by injection Hp as <-].
    inversion Hr; subst; by simplify_eq. }
  destruct o as [p|x]; cbn [any_exception].
  - intros [= <- <-]. split; [simpl; congruence|]. intros a [= <-]. simpl. by rewrite (Hp _ eq_refl).
  - unfold bind. destruct (security_release SharedReplay (webhook_key r) (set_gateway g2 s1)) as [o s3] eqn:Er.
    apply release_shared_sink in Er. simpl in Er. destruct o; intros [= <- <-]; (split; [congruence | done]).
Qed.
End webhooks.

(** ** Polling *)

Section polling.
Context {C W : Type} {SC : SourceClaims C} {SL : SourceClaimsLaws C}.

(** C21. Checkpoint after commit: however a run of a [PollingSourceAdapter] over
    the SQLite ledger ends, also by an exception, the stored cursor is reached
    from the one it started at along pages the source served, and the outbox has
    an event for every record of those pages. *)
Theorem poll_cursor_covered (cell : W -> option string) (cfg : GatewayConfig W) (p : PollingSource W)
    tenant workspace credential (g g' : GatewayState source_ledger C W) res :
  pipeline_keeps cell cfg -> polls_cell cell p -> claims_ok g -> ledger_ok (gs_sink g) ->
  poll_ingest cfg p tenant workspace credential g = (res, g') ->
  covered p tenant workspace (gs_sink g') (cell_of cell g) (cell_of cell g') /\ ledger_ok (gs_sink g').
Proof.
  intros Hp Hc Hok Hl. unfold poll_ingest, bind at 1, on_world at 1.
  destruct (pl_get cell p Hc (gs_world g)) as (w & -> & Hw). unfold bind at 1.
  destruct (poll_pages cfg p tenant workspace (Z.to_nat (po_max_pages p)) (cell (gs_world g)) (set_world w g))
    as [o g1] eqn:E.
  assert (cell_of cell (set_world w g) = cell (gs_world g)) as Hcell by done.
  destruct (poll_pages_covered cell cfg p tenant workspace (cell (gs_world g)) _ (set_world w g) _ _ _ Hp Hc
              (conj Hok Hl) Hcell (covered_here _ _ _ _ _) E) as [[_ Hl1] Hcov].
  destruct o; intros [= <- <-]; done.
Qed.
End polling.

(** ** The fabric *)

Section fabric.
Context {T C W : Type} {ES : EvidenceSink T} {SC : SourceClaims C}.
Abbreviation St := (FabricState T C W).

(** A source definition that is stored is read back with its status, its
    configuration as JSON denotes it and its capabilities in order; when the
    configuration is not JSON the store raises and is left alone. *)
Theorem source_definition_roundtrip (d : SourceDefinition) (s s' : registry_table) e e' o :
  valid_source d -> registry_put d (s, e) = (o, (s', e')) ->
  match json_norm (VDict (default [] (sd_config d))) with
  | Raise x => o = Raise x /\ s' = s
  | Ret v => o = Ret tt /\ (forall k, k <> source_key d -> registry_get k s' = registry_get k s) /\
      exists config now, v = VDict config /\ (forall t, sd_updated_at d = Some t -> now = t) /\
        registry_get (source_key d) s' = Ret (Some (reread d config now))
  end.
Proof.
  intros Hv E. pose proof (registry_put_get _ _ _ _ _ _ Hv E) as H.
  destruct (json_norm (VDict (default [] (sd_config d)))) as [v|x]; [|done].
  destruct H as (-> & Hother & config & now & row & -> & Hrow & Hread & Hnow). split; [done|]. split.
  - intros k Hk. unfold registry_get. by rewrite Hother.
  - exists config, now. split; [done|]. split; [done|]. unfold registry_get. by rewrite Hrow, Hread.
Qed.

(** C38. Whatever was called before on the fabric, its socket and its control
    plane, every stored definition is readable after a call, also when it raises,
    and the call does no more to the status of a source than its kind allows:
    registering creates a source, or starts a disabled one again; a command of the
    control plane moves the source it names to its target, which must follow the
    status it finds; a deletion removes the source it names; polling, a webhook or
    a health check moves its source between enabled and degraded only; the other
    calls change no status, and no call changes that of another source. *)
Theorem source_lifecycle (cfg : GatewayConfig W) (p : RetryPolicy) (s0 s s' : St) (c : call_kind) :
  table_ok (fb_registry s0) -> rtc (fun a b => exists c, fabric_call cfg p c a b) s0 s ->
  fabric_call cfg p c s s' ->
  table_ok (fb_registry s') /\
  forall k, changes c k (status_at k (fb_registry s)) (status_at k (fb_registry s')).
Proof.
  intros Hok Hr Hc. assert (table_ok (fb_registry s)) as Hs.
  { clear Hc. revert Hok. induction Hr as [|s1 s2 s3 [c1 H1] _ IH]; [done|]. intros Hok. apply IH.
    by apply (fabric_call_lifecycle cfg p c1 s1 s2 H1). }
  by apply (fabric_call_lifecycle cfg p c s s' Hc).
Qed.

(** C39. [poll_with_retry] never reaches its assertion: more rounds of the loop
    would change nothing. A run that returns made at most [max_attempts]
    attempts, each but the last followed by a delay within the maximum, and one
    that reports an error used all of them. *)
Theorem poll_with_retry_bounded (p : RetryPolicy) (k : claim_key) (s s' : St) res n :
  (1 <= ry_max_attempts p)%Z -> (ry_max_attempts p <= Z.of_nat n)%Z ->
  poll_with_retry p k s = (res, s') ->
  (require_poll k ;;; retry_loop p k n 1 []) s = (res, s') /\
  forall run, res = Ret run -> attempts_explained p run.
Proof.
  intros H1 Hn. unfold poll_with_retry, bind. destruct (require_poll k s) as [[u|x] s1]; [|by intros [= <- <-]].
  intros E. eapply retry_loop_spec in E as [Hmore Hrun]; [|lia|lia|constructor|done].
  split; [apply Hmore; lia | done].
Qed.

(** The polling jobs of the fabric are kept by source identifier alone. When
    a second tenant registers a source with an identifier that is taken, the call
    raises, but when the source it leaves behind is enabled, polling it runs the
    job of the first tenant, with the first tenant's identity and credential. *)
Theorem poll_crosses_tenants (d1 d2 : SourceDefinition) (a1 a2 : SourceAdapter (GatewayState T C W))
    (s s1 s2 s3 s4 : St) x1 o2 x3 run :
  fabric_register d1 a1 s = (Ret x1, s1) -> sd_mode d1 = "poll" ->
  sd_source_id d2 = sd_source_id d1 -> ad_source_id a2 = ad_source_id a1 ->
  fabric_register d2 a2 s1 = (o2, s2) -> fabric_enable (source_key d2) s2 = (Ret x3, s3) ->
  poll_once (source_key d2) s3 = (Ret run, s4) ->
  (exists x, o2 = Raise x) /\
  exists g0 r g1,
    gs_sink g0 = gs_sink (fb_gateway s1) /\
    ad_ingest a1 (sd_tenant_id d1) (sd_workspace_id d1) (sd_credential_id d1) g0 = (r, g1) /\
    gs_sink (fb_gateway s4) = gs_sink g1 /\
    match r with Ret x => fr_result run = Some x | Raise x => fr_error run = Some (exception_text x) end.
Proof.
  intros E1 Hm Hid Ha E2 E3 E4.
  destruct (fabric_register_inv _ _ _ _ _ E1) as [Hin Hjob].
  destruct (Hjob Hm) as (job & Hj & Ej1 & Ej2 & Ej3 & Ej4).
  rewrite <- Ha in Hin. destruct (fabric_register_again _ _ _ _ _ Hin E2) as (Hx & Hjobs & Hg2). split; [done|].
  assert (stores_kept s2 s3) as [Hg3 Hjobs3].
  { pose proof (on_registry_stores (control_enable (source_key d2)) s2) as H. unfold fabric_enable in E3.
    by rewrite E3 in H. }
  unfold poll_once, bind in E4. pose proof (require_poll_stores (source_key d2) s3) as H.
  destruct (require_poll (source_key d2) s3) as [[u|] s3']; [|done]. destruct H as [Hg3' Hjobs3']. simpl in *.
  assert (fb_jobs s3' !! snd (source_key d2) = Some job) as Hj' by (simpl; congruence).
  destruct (run_poll_job _ _ _ _ _ Hj' E4) as (g0 & r & g1 & Hg0 & Hi & Hg1 & Hr).
  exists g0, r, g1. rewrite <- Ej1, <- Ej2, <- Ej3, <- Ej4. unfold same_stores in *.
  split; [|split; [done|split]].
  - destruct Hg0 as [-> _], Hg3' as [-> _], Hg3 as [-> _], Hg2 as [-> _]. done.
  - by destruct Hg1 as [-> _].
  - by destruct r as [?|?], Hr.
Qed.
End fabric.
End theorems.

(** ** Witnesses *)

Section witnesses.
Abbreviation SampleWebhook := (WebhookState source_ledger (gmap claim_key claim_row) unit).

Definition quiet_config : GatewayConfig unit := plain_gateway.
Definition received (rc : replay_config) (s : SampleWebhook) : SampleWebhook :=
  snd (webhook_receive quiet_config (webhook_gateway rc) sample_webhook s).
Definition reply (rc : replay_config) (s : SampleWebhook) : outcome AdapterResult :=
  fst (webhook_receive quiet_config (webhook_gateway rc) sample_webhook s).

Lemma webhook_delivered_once_witness :
  let s := webhook_state (empty_gateway tt) in
  let s1 := received OwnReplay s in
  (exists a, reply OwnReplay s = Ret a /\ ar_records a = 1%Z) /\
  (exists x, reply OwnReplay s1 = Raise x) /\
  gs_sink (ws_gateway (received OwnReplay s1)) = gs_sink (ws_gateway s1).
Proof.
  intros s s1. destruct (reply OwnReplay s) as [a|x] eqn:E; [|vm_compute in E; discriminate E].
  split; [exists a; split; [done|]; vm_compute in E; injection E as <-; reflexivity|].
  apply (webhook_delivered_once quiet_config quiet_config (webhook_gateway OwnReplay) (webhook_gateway OwnReplay)
    sample_webhook sample_webhook s s1 s1 (received OwnReplay s1) (Ret a) (reply OwnReplay s1));
    [reflexivity | reflexivity | by intros ? ? ? | exact I | reflexivity
    | rewrite <- E; apply surjective_pairing | apply rtc_refl | apply surjective_pairing].
Defined.

Lemma rate_limited_webhook_is_lost_witness :
  let s := webhook_state limited_gateway in
  let s1 := received OwnReplay s in
  exists a, reply OwnReplay s = Ret a /\ ar_records a = 0%Z /\
    gs_sink (ws_gateway s1) = mkLedger [] [] /\ (exists x, reply OwnReplay s1 = Raise x) /\
    gs_sink (ws_gateway (received OwnReplay s1)) = gs_sink (ws_gateway s1).
Proof.
  intros s s1. destruct (reply OwnReplay s) as [a|x] eqn:E; [|vm_compute in E; discriminate E].
  exists a. split; [done|].
  destruct (allow (rate_key (webhook_source_request sample_webhook [("id", VInt 1)])) one_float
              (drained_manager "t:w:hooks") still_clock) as [[[dec|x] m'] c'] eqn:Ea;
    [|vm_compute in Ea; discriminate Ea].
  apply (rate_limited_webhook_is_lost quiet_config quiet_config (webhook_gateway OwnReplay)
    (webhook_gateway OwnReplay) sample_webhook sample_webhook [("id", VInt 1)] (drained_manager "t:w:hooks")
    dec m' c' s s1 s1 (received OwnReplay s1) a (reply OwnReplay s1));
    [reflexivity | reflexivity | by intros ? ? ? | exact I | reflexivity | reflexivity | reflexivity | exact Ea
    | vm_compute in Ea; injection Ea as <- _ _; reflexivity
    | rewrite <- E; apply surjective_pairing | apply rtc_refl | apply surjective_pairing].
Defined.

Lemma shared_replay_store_drops_webhooks_witness :
  let s := webhook_state (empty_gateway tt) in
  (exists a, reply SharedReplay s = Ret a) /\
  gs_sink (ws_gateway (received SharedReplay s)) = mkLedger [] [] /\
  forall a, reply SharedReplay s = Ret a -> ar_records a = 0%Z.
Proof.
  intros s. split; [vm_compute; by eexists|].
  apply (shared_replay_store_drops_webhooks quiet_config (webhook_gateway SharedReplay) sample_webhook s
    (received SharedReplay s) (reply SharedReplay s));
    [reflexivity | discriminate | by intros ? ? ? | discriminate | exact I | exact I | exact (fun _ => I)
    | apply surjective_pairing].
Defined.

Definition polled : SampleGateway (option string) :=
  snd (poll_ingest plain_gateway two_pages "t" "w" None (empty_gateway None)).

Lemma poll_cursor_covered_witness :
  cell_of id polled = Some "end" /\
  covered two_pages "t" "w" (gs_sink polled) None (cell_of id polled) /\ ledger_ok (gs_sink polled).
Proof.
  split; [vm_compute; reflexivity|].
  apply (poll_cursor_covered id plain_gateway two_pages "t" "w" None (empty_gateway None) polled
    (fst (poll_ingest plain_gateway two_pages "t" "w" None (empty_gateway None))));
    [discriminate | | by intros ? ? ? | apply ledger_ok_empty | apply surjective_pairing].
  split; [intros w; by exists w | intros c w; by destruct c | reflexivity].
Defined.

Lemma source_of_valid tenant : tenant <> "" -> valid_source (source_of tenant).
Proof. intros H. split; [done | simpl; set_solver | done | reflexivity]. Qed.

Lemma source_definition_roundtrip_witness :
  let d := source_of "t" in
  let s' := fst (snd (registry_put d (∅, sample_env))) in
  exists config now, registry_get ("t", "w", "feed") s' = Ret (Some (reread d config now)) /\
    sd_capabilities (reread d config now) = ["a"; "b"].
Proof.
  intros d s'.
  assert (registry_put d (∅, sample_env) = (fst (registry_put d (∅, sample_env)),
            (s', snd (snd (registry_put d (∅, sample_env)))))) as E.
  { subst s'. by destruct (registry_put d (∅, sample_env)) as [? [? ?]]. }
  assert (valid_source d) as Hv by by apply source_of_valid.
  pose proof (source_definition_roundtrip d ∅ s' sample_env _ _ Hv E) as (_ & _ & config & now & _ & _ & Hg).
  exists config, now. split; [exact Hg | vm_compute; reflexivity].
Defined.

Definition registered_fabric (tenant : string) s := snd (fabric_register (source_of tenant) naming_adapter s).

Lemma source_lifecycle_witness :
  let k := ("t", "w", "feed") in
  let s1 := registered_fabric "t" empty_fabric in
  let s2 := snd (on_registry (control_transition k SS_ENABLED) s1) in
  status_at k (fb_registry s1) = Some SS_REGISTERED /\ status_at k (fb_registry s2) = Some SS_ENABLED /\
  table_ok (fb_registry s2) /\
  forall k', changes (Controls k SS_ENABLED) k' (status_at k' (fb_registry s1))
               (status_at k' (fb_registry s2)).
Proof.
  intros k s1 s2. split; [vm_compute; reflexivity|]. split; [vm_compute; reflexivity|].
  apply (source_lifecycle quiet_config two_attempts empty_fabric s1 s2).
  - by intros ? ? ?.
  - apply rtc_once. eexists. apply (call_register quiet_config two_attempts (source_of "t") naming_adapter).
  - apply (call_control quiet_config two_attempts k SS_ENABLED).
Defined.

(** A source whose adapter always fails. *)
Definition failing_fabric : FabricState source_ledger (gmap claim_key claim_row) unit :=
  snd (fabric_enable ("t", "w", "feed") (snd (fabric_register (source_of "t") failing_adapter empty_fabric))).

Lemma poll_with_retry_bounded_witness :
  exists run, fst (poll_with_retry two_attempts ("t", "w", "feed") failing_fabric) = Ret run /\
    fr_error run = Some "OSError: down" /\ attempts_explained two_attempts run.
Proof.
  destruct (fst (poll_with_retry two_attempts ("t", "w", "feed") failing_fabric)) as [run|x] eqn:E;
    [|vm_compute in E; discriminate E].
  exists run. split; [reflexivity|]. split; [vm_compute in E; injection E as <-; reflexivity|].
  apply (poll_with_retry_bounded two_attempts ("t", "w", "feed") failing_fabric
    (snd (poll_with_retry two_attempts ("t", "w", "feed") failing_fabric)) (Ret run) 2);
    [discriminate | discriminate | rewrite <- E; apply surjective_pairing | reflexivity].
Defined.

Lemma poll_crosses_tenants_witness :
  let s1 := registered_fabric "t" empty_fabric in
  let s2 := registered_fabric "u" s1 in
  let s3 := snd (fabric_enable ("u", "w", "feed") s2) in
  exists run result, fst (poll_once ("u", "w", "feed") s3) = Ret run /\
    fr_result run = Some result /\ ar_source_id result = "t".
Proof.
  intros s1 s2 s3.
  destruct (fst (fabric_register (source_of "t") naming_adapter empty_fabric)) as [x1|] eqn:E1;
    [|vm_compute in E1; discriminate E1].
  destruct (fst (fabric_enable ("u", "w", "feed") s2)) as [x3|] eqn:E3; [|vm_compute in E3; discriminate E3].
  destruct (fst (poll_once ("u", "w", "feed") s3)) as [run|] eqn:E4; [|vm_compute in E4; discriminate E4].
  destruct (poll_crosses_tenants (source_of "t") (source_of "u") naming_adapter naming_adapter empty_fabric s1 s2 s3
    (snd (poll_once ("u", "w", "feed") s3)) x1 (fst (fabric_register (source_of "u") naming_adapter s1)) x3 run)
    as (_ & g0 & r & g1 & _ & Hi & _ & Hr);
    [rewrite <- E1; apply surjective_pairing | reflexivity | reflexivity | reflexivity | apply surjective_pairing
    | rewrite <- E3; apply surjective_pairing | rewrite <- E4; apply surjective_pairing|].
  injection Hi as <- _. exists run. eexists. split; [reflexivity|]. split; [exact Hr | reflexivity].
Defined.
End witnesses.
