(* ===== verification/Workers.v ===== *)
(** * The lease queue and its workers: [production/workers.py]

    [LeaseQueue] keeps work items in a dictionary; every method holds the lock,
    so it is a function on the queue.  [Worker.run_once] claims an item, calls
    the handler on the item's own payload and reports the outcome; the lock is
    free in between, so the handler runs against the queue other workers use.
    The facts below: every call moves items along [item_move] and keeps the
    queue's invariant; a lease protects its item until it ends. *)

From stdpp Require Import base strings list relations.
From Stdlib Require Import ZArith Lia.
From S2P Require Import Prelude Uuid.
Local Open Scope py_scope.

(** The texts ["QUEUED"], ["RUNNING"], ["SUCCEEDED"] and ["FAILED"]. *)
Inductive WorkStatus := W_QUEUED | W_RUNNING | W_SUCCEEDED | W_FAILED.

#[export] Instance WorkStatus_eq_dec : EqDecision WorkStatus.
Proof. solve_decision. Defined.

Section workers.
(** What handlers return; [None] in [wi_result] is the default of the field. *)
Context {Res : Type}.

Record WorkItem := mkWork {
  wi_work_id : string;
  wi_payload : dict;
  wi_attempts : Z;
  wi_status : WorkStatus;
  wi_worker_id : option string;
  wi_lease_until : option datetime;
  wi_result : option Res;
  wi_error : option string }.

(** The queue with the clock and the random identifiers it reads. *)
Record LeaseQueue := mkQueue {
  lq_lease_seconds : Z;
  lq_max_attempts : Z;
  lq_items : list WorkItem;
  lq_env : Env }.

Definition with_items (l : list WorkItem) (q : LeaseQueue) : LeaseQueue :=
  mkQueue (lq_lease_seconds q) (lq_max_attempts q) l (lq_env q).
Definition with_env (e : Env) (q : LeaseQueue) : LeaseQueue :=
  mkQueue (lq_lease_seconds q) (lq_max_attempts q) (lq_items q) e.

(** [LeaseQueue(lease_seconds, max_attempts)] *)
Definition new_queue (lease_seconds max_attempts : Z) (e : Env) : LeaseQueue :=
  mkQueue lease_seconds max_attempts [] e.

(** [_now()] *)
Definition queue_now : M LeaseQueue datetime := fun q =>
  let '(now, e) := utc_now (lq_env q) in (Ret now, with_env e q).

(** [_now() + timedelta(seconds=self.lease_seconds)] *)
Definition lease_end : M LeaseQueue datetime :=
  q <- get ;; now <- queue_now ;; ret (now + lq_lease_seconds q * 1000000)%Z.

(** [self._items.get(work_id)] *)
Definition has_id (id : string) (it : WorkItem) : bool := String.eqb (wi_work_id it) id.
Definition queue_get (id : string) (q : LeaseQueue) : option WorkItem :=
  List.find (has_id id) (lq_items q).

(** [self._items[item.work_id] = item]: a key that is present keeps its place. *)
Fixpoint put_item (it : WorkItem) (l : list WorkItem) : list WorkItem :=
  match l with
  | [] => [it]
  | x :: l => if has_id (wi_work_id it) x then it :: l else x :: put_item it l
  end.

Definition enqueue (payload : dict) : M LeaseQueue string := fun q =>
  let '(u, e) := uuid4 (lq_env q) in
  let it := mkWork (uuid_str u) payload 0 W_QUEUED None None None None in
  (Ret (wi_work_id it), with_items (put_item it (lq_items q)) (with_env e q)).

(** ["QUEUED" if item.attempts < self.max_attempts else "FAILED"] *)
Definition retry_status (max : Z) (it : WorkItem) : WorkStatus :=
  if (wi_attempts it <? max)%Z then W_QUEUED else W_FAILED.

Definition expired (now : datetime) (it : WorkItem) : bool :=
  bool_decide (wi_status it = W_RUNNING) &&
  match wi_lease_until it with Some t => (t <=? now)%Z | None => false end.

Definition expire_item (max : Z) (it : WorkItem) : WorkItem :=
  mkWork (wi_work_id it) (wi_payload it) (wi_attempts it) (retry_status max it) None None
    (wi_result it) (wi_error it).

(** [_expire_locked] *)
Definition expire_locked : M LeaseQueue nat :=
  now <- queue_now ;;
  q <- get ;;
  modify (with_items ((fun it => if expired now it then expire_item (lq_max_attempts q) it else it)
                        <$> lq_items q)) ;;;
  ret (length (filter (fun it => expired now it = true) (lq_items q))).

(** [recover_expired] *)
Definition recover_expired : M LeaseQueue nat := expire_locked.

Definition claimable (max : Z) (it : WorkItem) : bool :=
  bool_decide (wi_status it = W_QUEUED) && (wi_attempts it <? max)%Z.

Definition start_item (worker : string) (until : datetime) (it : WorkItem) : WorkItem :=
  mkWork (wi_work_id it) (wi_payload it) (wi_attempts it + 1) W_RUNNING (Some worker) (Some until)
    (wi_result it) (wi_error it).

(** The update of the first item that satisfies [p]. *)
Fixpoint update_first (p : WorkItem -> bool) (f : WorkItem -> WorkItem) (l : list WorkItem) :
    list WorkItem :=
  match l with
  | [] => []
  | it :: l => if p it then f it :: l else it :: update_first p f l
  end.

(** [claim]: the clock is read again only when an item is found. *)
Definition claim (worker : string) : M LeaseQueue (option WorkItem) :=
  expire_locked ;;;
  q <- get ;;
  match List.find (claimable (lq_max_attempts q)) (lq_items q) with
  | None => ret None
  | Some it =>
      until <- lease_end ;;
      modify (fun q => with_items (update_first (claimable (lq_max_attempts q))
                                     (start_item worker until) (lq_items q)) q) ;;;
      ret (Some (start_item worker until it))
  end.

(** The guard of [heartbeat], [complete] and [fail]. *)
Definition holds (worker : string) (it : WorkItem) : bool :=
  bool_decide (wi_status it = W_RUNNING) && bool_decide (wi_worker_id it = Some worker).

Definition held (id worker : string) (q : LeaseQueue) : bool :=
  match queue_get id q with Some it => holds worker it | None => false end.

Definition extend_item (until : datetime) (it : WorkItem) : WorkItem :=
  mkWork (wi_work_id it) (wi_payload it) (wi_attempts it) (wi_status it) (wi_worker_id it)
    (Some until) (wi_result it) (wi_error it).

Definition heartbeat (id worker : string) : M LeaseQueue bool :=
  q <- get ;;
  if held id worker q then
    until <- lease_end ;;
    modify (fun q => with_items (update_first (has_id id) (extend_item until) (lq_items q)) q) ;;;
    ret true
  else ret false.

Definition complete_item (r : Res) (it : WorkItem) : WorkItem :=
  mkWork (wi_work_id it) (wi_payload it) (wi_attempts it) W_SUCCEEDED (wi_worker_id it) None
    (Some r) (wi_error it).

Definition complete (id worker : string) (r : Res) : M LeaseQueue bool :=
  q <- get ;;
  if held id worker q then
    modify (fun q => with_items (update_first (has_id id) (complete_item r) (lq_items q)) q) ;;;
    ret true
  else ret false.

Definition fail_item (max : Z) (error : string) (it : WorkItem) : WorkItem :=
  mkWork (wi_work_id it) (wi_payload it) (wi_attempts it) (retry_status max it) (wi_worker_id it)
    None (wi_result it) (Some error).

Definition fail (id worker error : string) : M LeaseQueue bool :=
  q <- get ;;
  if held id worker q then
    modify (fun q => with_items (update_first (has_id id) (fail_item (lq_max_attempts q) error)
                                   (lq_items q)) q) ;;;
    ret true
  else ret false.

(** A handler that writes to the payload it was given writes to the item. *)
Definition set_payload (p : dict) (it : WorkItem) : WorkItem :=
  mkWork (wi_work_id it) p (wi_attempts it) (wi_status it) (wi_worker_id it) (wi_lease_until it)
    (wi_result it) (wi_error it).
Definition write_payload (id : string) (p : dict) : M LeaseQueue unit :=
  modify (fun q => with_items (update_first (has_id id) (set_payload p) (lq_items q)) q).

(** ** [Worker]

    [W] is what the handler works on besides the queue. *)

Section worker.
Context {W : Type}.

Definition on_queue {A} (m : M LeaseQueue A) : M (LeaseQueue * W) A := fun s =>
  let '(o, q) := m (fst s) in (o, (q, snd s)).

Variable worker_id : string.
Variable handler : dict -> M (LeaseQueue * W) Res.

(** The [try] statement of [run_once]. *)
Definition run_handler (it : WorkItem) : M (LeaseQueue * W) unit :=
  r <- try_except (r <- handler (wi_payload it) ;; ret (inl r)) any_exception
         (fun x => ret (inr x)) ;;
  match r with
  | inl r => _ <- on_queue (complete (wi_work_id it) worker_id r) ;; ret tt
  | inr x => _ <- on_queue (fail (wi_work_id it) worker_id (exn_msg x)) ;; ret tt
  end.

Definition run_once : M (LeaseQueue * W) bool :=
  it <- on_queue (claim worker_id) ;;
  match it with
  | None => ret false
  | Some it => run_handler it ;;; ret true
  end.
End worker.

(** ** The queue under concurrent workers *)

(** One call of some worker [w]; [None] stands for calls that name no worker.
    Identifiers of [uuid4] that are in use already do not occur. *)
Inductive queue_call : option string -> LeaseQueue -> LeaseQueue -> Prop :=
  | call_enqueue p q o q' : enqueue p q = (o, q') ->
      uuid_str (fst (uuid4 (lq_env q))) ∉ (wi_work_id <$> lq_items q) -> queue_call None q q'
  | call_claim w q o q' : claim w q = (o, q') -> queue_call (Some w) q q'
  | call_heartbeat id w q o q' : heartbeat id w q = (o, q') -> queue_call (Some w) q q'
  | call_complete id w r q o q' : complete id w r q = (o, q') -> queue_call (Some w) q q'
  | call_fail id w e q o q' : fail id w e q = (o, q') -> queue_call (Some w) q q'
  | call_recover q o q' : recover_expired q = (o, q') -> queue_call None q q'
  | call_payload id p q o q' : write_payload id p q = (o, q') -> queue_call None q q'.

Definition queue_step (q q' : LeaseQueue) : Prop := exists w, queue_call w q q'.

(** What may happen to one item when [max] attempts are allowed. *)
Inductive item_move (max : Z) : WorkItem -> WorkItem -> Prop :=
  | move_claim it w t : wi_status it = W_QUEUED -> (wi_attempts it < max)%Z ->
      item_move max it (start_item w t it)
  | move_heartbeat it t : wi_status it = W_RUNNING -> item_move max it (extend_item t it)
  | move_complete it r : wi_status it = W_RUNNING -> item_move max it (complete_item r it)
  | move_fail it e : wi_status it = W_RUNNING -> item_move max it (fail_item max e it)
  | move_expire it : wi_status it = W_RUNNING -> item_move max it (expire_item max it)
  | move_payload it p : item_move max it (set_payload p it).

Definition item_moves (max : Z) : WorkItem -> WorkItem -> Prop := rtc (item_move max).

Definition terminal (it : WorkItem) : Prop := wi_status it = W_SUCCEEDED \/ wi_status it = W_FAILED.

(** The fields of an item agree with its status. *)
Definition item_ok (max : Z) (it : WorkItem) : Prop :=
  (0 <= wi_attempts it <= Z.max 0 max)%Z /\
  match wi_status it with
  | W_QUEUED => wi_lease_until it = None /\ wi_result it = None /\
                (0 < max -> wi_attempts it < max)%Z
  | W_RUNNING => is_Some (wi_worker_id it) /\ is_Some (wi_lease_until it) /\
                 wi_result it = None /\ (1 <= wi_attempts it)%Z
  | W_SUCCEEDED => is_Some (wi_worker_id it) /\ wi_lease_until it = None /\
                   is_Some (wi_result it) /\ (1 <= wi_attempts it)%Z
  | W_FAILED => wi_lease_until it = None /\ wi_result it = None /\ (1 <= wi_attempts it)%Z /\
                wi_attempts it = max
  end.

Record queue_inv (q : LeaseQueue) : Prop := mkQueueInv {
  qi_ids : NoDup (wi_work_id <$> lq_items q);
  qi_items : Forall (item_ok (lq_max_attempts q)) (lq_items q) }.

(** The items of [q'] are those of [q], moved, and new ones behind them. *)
Definition queue_evolves (q q' : LeaseQueue) : Prop :=
  lq_max_attempts q' = lq_max_attempts q /\ lq_lease_seconds q' = lq_lease_seconds q /\
  exists old new, lq_items q' = old ++ new /\
    Forall2 (item_moves (lq_max_attempts q)) (lq_items q) old.

End workers.

Arguments WorkItem : clear implicits.
Arguments LeaseQueue : clear implicits.

Section facts.
Context {Res : Type}.
Implicit Types (it : WorkItem Res) (q : LeaseQueue Res) (l : list (WorkItem Res)).

(** ** Updates of one item *)

Lemma update_first_Forall2 (R : WorkItem Res -> WorkItem Res -> Prop) `{!Reflexive R} p f l it :
  List.find p l = Some it -> R it (f it) -> Forall2 R l (update_first p f l).
Proof.
  induction l as [|x l IH]; simpl; [done|]. destruct (p x).
  - intros [= ->] H. constructor; [done | reflexivity].
  - intros E H. constructor; [done | by apply IH].
Qed.

(** An update of another item leaves the lookup of an identifier alone. *)
Lemma find_update_other id p (f : WorkItem Res -> WorkItem Res) l it :
  (forall x, wi_work_id (f x) = wi_work_id x) -> List.find (has_id id) l = Some it ->
  p it = false -> List.find (has_id id) (update_first p f l) = Some it.
Proof.
  intros Hf. induction l as [|x l IH]; simpl; [done|]. destruct (has_id id x) eqn:E.
  - intros [= ->] Hp. rewrite Hp. simpl. by rewrite E.
  - intros Hl Hp. destruct (p x); simpl.
    + assert (has_id id (f x) = false) as -> by (unfold has_id in *; by rewrite Hf). done.
    + rewrite E. by apply IH.
Qed.

Lemma find_update_same id (f : WorkItem Res -> WorkItem Res) l it :
  (forall x, wi_work_id (f x) = wi_work_id x) -> List.find (has_id id) l = Some it ->
  List.find (has_id id) (update_first (has_id id) f l) = Some (f it).
Proof.
  intros Hf. induction l as [|x l IH]; simpl; [done|]. destruct (has_id id x) eqn:E; simpl.
  - intros [= ->]. assert (has_id id (f it) = true) as -> by (unfold has_id in *; by rewrite Hf). done.
  - rewrite E. apply IH.
Qed.

Lemma has_id_eq id it : has_id id it = true <-> wi_work_id it = id.
Proof. apply String.eqb_eq. Qed.

Lemma find_id_In id l it :
  NoDup (wi_work_id <$> l) -> it ∈ l -> wi_work_id it = id -> List.find (has_id id) l = Some it.
Proof.
  intros Hn Hin <-. induction l as [|x l IH]; [by apply not_elem_of_nil in Hin|].
  cbn in Hn. apply NoDup_cons in Hn as [Hx Hn]. simpl. apply elem_of_cons in Hin as [->|Hin].
  - by rewrite (proj2 (has_id_eq _ _)).
  - destruct (has_id (wi_work_id it) x) eqn:E; [|by apply IH].
    apply has_id_eq in E. exfalso. apply Hx. rewrite E. by apply list_elem_of_fmap_2.
Qed.

Lemma put_item_fresh it l : wi_work_id it ∉ (wi_work_id <$> l) -> put_item it l = l ++ [it].
Proof.
  induction l as [|x l IH]; simpl; [done|]. intros [H1 H2]%not_elem_of_cons.
  destruct (has_id (wi_work_id it) x) eqn:E; [by apply has_id_eq in E|]. by rewrite IH.
Qed.

Lemma holds_spec w it : holds w it = true <-> wi_status it = W_RUNNING /\ wi_worker_id it = Some w.
Proof. unfold holds. by rewrite andb_true_iff, !bool_decide_eq_true. Qed.

Lemma claimable_spec max it :
  claimable max it = true <-> wi_status it = W_QUEUED /\ (wi_attempts it < max)%Z.
Proof. unfold claimable. by rewrite andb_true_iff, bool_decide_eq_true, Z.ltb_lt. Qed.

(** ** Moves *)

Lemma item_move_id max it it' : item_move max it it' -> wi_work_id it' = wi_work_id it.
Proof. by destruct 1. Qed.

Lemma item_moves_id max it it' : item_moves max it it' -> wi_work_id it' = wi_work_id it.
Proof. induction 1 as [|x y z H _ IH]; [done|]. by rewrite IH, (item_move_id _ _ _ H). Qed.

Lemma item_move_ok max it it' : item_move max it it' -> item_ok max it -> item_ok max it'.
Proof.
  assert (forall it0 f, wi_status it0 = W_RUNNING -> item_ok max it0 ->
    wi_lease_until (f it0) = None -> wi_result (f it0) = wi_result it0 ->
    wi_attempts (f it0) = wi_attempts it0 -> wi_status (f it0) = retry_status max it0 ->
    item_ok max (f it0)) as Hretry.
  { intros x f Hs [Ha Hr] H1 H2 H3 H4. rewrite Hs in Hr. destruct Hr as (_ & _ & Hr & H0).
    split; [by rewrite H3|]. rewrite H4, H1, H2, H3. unfold retry_status.
    destruct (Z.ltb_spec (wi_attempts x) max); split_and!; try done; lia. }
  destruct 1 as [x w t Hs Hm | x t Hs | x r Hs | x e Hs | x Hs | x p].
  - intros [Ha Hr]. rewrite Hs in Hr. destruct Hr as (_ & Hr & _). unfold item_ok. simpl.
    split; [lia|]. split_and!; try done; try lia; eauto.
  - intros [Ha Hr]. unfold item_ok in *. simpl. rewrite Hs in *. split; [done|].
    destruct Hr as (? & _ & ? & ?). split_and!; try done; eauto.
  - intros [Ha Hr]. unfold item_ok. simpl. rewrite Hs in Hr. destruct Hr as (? & _ & _ & ?).
    split_and!; try done; try lia; eauto.
  - intros H. by apply Hretry.
  - intros H. by apply Hretry.
  - done.
Qed.

Lemma item_moves_ok max it it' : item_moves max it it' -> item_ok max it -> item_ok max it'.
Proof. induction 1 as [|x y z H _ IH]; [done|]. intros Hx. by apply IH, (item_move_ok _ _ _ H). Qed.

(** Nothing but the payload of a finished item changes. *)
Lemma terminal_moves max it it' :
  item_moves max it it' -> terminal it -> it' = set_payload (wi_payload it') it.
Proof.
  induction 1 as [x | x y z Hxy _ IH]; intros Ht; [by destruct x|].
  destruct Hxy; try (exfalso; destruct Ht; congruence). by rewrite (IH Ht).
Qed.

Lemma terminal_final max it it' :
  item_moves max it it' -> terminal it ->
  wi_status it' = wi_status it /\ wi_result it' = wi_result it /\ wi_attempts it' = wi_attempts it /\
  wi_error it' = wi_error it /\ wi_worker_id it' = wi_worker_id it.
Proof. intros H Ht. rewrite (terminal_moves _ _ _ H Ht). done. Qed.

(** ** Queues whose items moved *)

Record queue_moved q q' : Prop := mkMoved {
  qm_max : lq_max_attempts q' = lq_max_attempts q;
  qm_lease : lq_lease_seconds q' = lq_lease_seconds q;
  qm_items : Forall2 (item_moves (lq_max_attempts q)) (lq_items q) (lq_items q') }.

#[export] Instance queue_moved_preorder : PreOrder queue_moved.
Proof.
  split.
  - intros q. by split.
  - intros q1 q2 q3 [H1 H2 H3] [H4 H5 H6]. split; [congruence | congruence|]. rewrite H1 in H6.
    by etransitivity.
Qed.

Lemma moved_same q q' : lq_max_attempts q' = lq_max_attempts q ->
  lq_lease_seconds q' = lq_lease_seconds q -> lq_items q' = lq_items q -> queue_moved q q'.
Proof. intros H1 H2 H3. split; [done | done |]. rewrite H3. reflexivity. Qed.

Lemma moved_find q p f it :
  List.find p (lq_items q) = Some it -> item_move (lq_max_attempts q) it (f it) ->
  queue_moved q (with_items (update_first p f (lq_items q)) q).
Proof.
  intros Hf Hm. split; [done | done |]. simpl. eapply update_first_Forall2; [apply _ | done | by apply rtc_once].
Qed.

Lemma moved_held q id w f :
  held id w q = true -> (forall it, wi_status it = W_RUNNING -> item_move (lq_max_attempts q) it (f it)) ->
  queue_moved q (with_items (update_first (has_id id) f (lq_items q)) q).
Proof.
  unfold held, queue_get. intros Hh Hf. destruct (List.find _ _) as [it|] eqn:E; [|done].
  apply holds_spec in Hh as [Hs _]. by apply (moved_find q _ f it E), Hf.
Qed.

Lemma moved_env e q : queue_moved q (with_env e q).
Proof. by apply moved_same. Qed.

Lemma expire_locked_run q : let now := clock (lq_env q) (ticks (lq_env q)) in
  exists n, expire_locked q =
    (Ret n, with_items ((fun it => if expired now it then expire_item (lq_max_attempts q) it else it)
                          <$> lq_items q) (with_env (snd (utc_now (lq_env q))) q)).
Proof. by eexists. Qed.

Lemma expire_locked_moved : keeps queue_moved (expire_locked (Res := Res)).
Proof.
  intros q. destruct (expire_locked_run q) as [n ->]. simpl. split; [done | done |].
  simpl. apply Forall2_fmap_r, Forall_Forall2_diag, Forall_forall. intros it _. unfold compose.
  destruct (expired _ it) eqn:E; [|apply rtc_refl]. apply rtc_once, move_expire.
  unfold expired in E. apply andb_true_iff in E as [E _]. by apply bool_decide_eq_true in E.
Qed.

Lemma claim_moved w : keeps queue_moved (claim (Res := Res) w).
Proof.
  apply keeps_bind; [apply _ | apply expire_locked_moved |]. intros _ q. unfold bind at 1, get.
  destruct (List.find _ _) as [it|] eqn:E; [|done]. cbn.
  etransitivity; [apply (moved_env (snd (utc_now (lq_env q))))|].
  apply (moved_find (with_env (snd (utc_now (lq_env q))) q) _ _ it); [done|].
  apply List.find_some in E as [_ E].
  apply claimable_spec in E as [? ?]. by apply move_claim.
Qed.

Lemma heartbeat_moved id w : keeps queue_moved (heartbeat (Res := Res) id w).
Proof.
  intros q. unfold heartbeat, bind at 1, get. destruct (held id w q) eqn:E; [|done]. cbn.
  etransitivity; [apply (moved_env (snd (utc_now (lq_env q))))|].
  apply (moved_held (with_env _ q) id w); [done|]. intros. by apply move_heartbeat.
Qed.

Lemma complete_moved id w r : keeps queue_moved (complete id w r).
Proof.
  intros q. unfold complete, bind at 1, get. destruct (held id w q) eqn:E; [|done]. cbn.
  apply (moved_held _ id w); [done|]. intros. by apply move_complete.
Qed.

Lemma fail_moved id w e : keeps queue_moved (fail (Res := Res) id w e).
Proof.
  intros q. unfold fail, bind at 1, get. destruct (held id w q) eqn:E; [|done]. cbn.
  apply (moved_held _ id w); [done|]. intros. by apply move_fail.
Qed.

Lemma write_payload_moved id p : keeps queue_moved (write_payload (Res := Res) id p).
Proof.
  intros q. unfold write_payload, modify. cbn [snd].
  destruct (List.find (has_id id) (lq_items q)) as [it|] eqn:E.
  - apply (moved_find _ _ _ it E). apply move_payload.
  - apply moved_same; [done | done |]. simpl. clear -E. induction (lq_items q) as [|x l IH]; [done|].
    simpl in *. destruct (has_id id x); [done|]. by rewrite IH.
Qed.

(** A call moves the items, or appends a fresh one. *)
Lemma queue_call_moves v q q' : queue_call v q q' ->
  queue_moved q q' \/
  exists it, (wi_work_id it ∉ (wi_work_id <$> lq_items q)) /\ item_ok (lq_max_attempts q) it /\
    lq_items q' = lq_items q ++ [it] /\
    lq_max_attempts q' = lq_max_attempts q /\ lq_lease_seconds q' = lq_lease_seconds q.
Proof.
  assert (forall A (m : M (LeaseQueue Res) A) o, keeps queue_moved m -> m q = (o, q') -> queue_moved q q')
    as Hk.
  { intros A m o Hm E. specialize (Hm q). by rewrite E in Hm. }
  destruct 1 as [p q o q' E Hfresh | w q o q' E | i w q o q' E | i w r q o q' E | i w e q o q' E
    | q o q' E | i p q o q' E].
  - right. injection E as _ <-.
    exists (mkWork (uuid_str (fst (uuid4 (lq_env q)))) p 0 W_QUEUED None None None None).
    split_and!; [exact Hfresh | | | done | done].
    + unfold item_ok. simpl. split_and!; [lia | lia | done | done | lia].
    + simpl. by apply put_item_fresh.
  - left. by apply (Hk _ (claim w) o); [apply claim_moved|].
  - left. by apply (Hk _ (heartbeat i w) o); [apply heartbeat_moved|].
  - left. by apply (Hk _ (complete i w r) o); [apply complete_moved|].
  - left. by apply (Hk _ (fail i w e) o); [apply fail_moved|].
  - left. by apply (Hk _ recover_expired o); [apply expire_locked_moved|].
  - left. by apply (Hk _ (write_payload i p) o); [apply write_payload_moved|].
Qed.

Lemma moved_ids max l l' : Forall2 (item_moves max) l l' -> wi_work_id <$> l' = wi_work_id <$> l.
Proof. induction 1 as [|x y l l' H _ IH]; [done|]. cbn. by rewrite IH, (item_moves_id _ _ _ H). Qed.

Lemma moved_ok max l l' : Forall2 (item_moves max) l l' -> Forall (item_ok max) l -> Forall (item_ok max) l'.
Proof.
  induction 1 as [|x y l l' H _ IH]; [done|]. intros [Hx Hl]%Forall_cons.
  constructor; [by apply (item_moves_ok _ _ _ H) | by apply IH].
Qed.

Lemma queue_moved_inv q q' : queue_moved q q' -> queue_inv q -> queue_inv q'.
Proof.
  intros [Hm _ Hi] [Hn Hok]. split; [by rewrite (moved_ids _ _ _ Hi)|]. rewrite Hm. by apply (moved_ok _ _ _ Hi).
Qed.

Lemma queue_call_inv v q q' : queue_call v q q' -> queue_inv q -> queue_inv q'.
Proof.
  intros H Hq. apply queue_call_moves in H as [H|(it & Hf & Hok & Hi & Hm & _)]; [by apply (queue_moved_inv q)|].
  destruct Hq as [Hn Hall]. split.
  - rewrite Hi, fmap_app. by apply NoDup_snoc.
  - rewrite Hi, Hm. apply Forall_app. by split; [|constructor].
Qed.

#[export] Instance queue_evolves_preorder : PreOrder (queue_evolves (Res := Res)).
Proof.
  split.
  - intros q. split; [done|]. split; [done|]. exists (lq_items q), []. rewrite app_nil_r. split; [done|].
    reflexivity.
  - intros q1 q2 q3 (M1 & L1 & o1 & n1 & E1 & F1) (M2 & L2 & o2 & n2 & E2 & F2).
    split; [congruence|]. split; [congruence|]. rewrite E1, M1 in F2.
    apply Forall2_app_inv_l in F2 as (o3 & n3 & F3 & _ & ->).
    exists o3, (n3 ++ n2). rewrite E2, app_assoc. split; [done|]. by etransitivity.
Qed.

Lemma queue_moved_evolves q q' : queue_moved q q' -> queue_evolves q q'.
Proof. intros [? ? ?]. split; [done|]. split; [done|]. exists (lq_items q'), []. by rewrite app_nil_r. Qed.

Lemma queue_call_evolves v q q' : queue_call v q q' -> queue_evolves q q'.
Proof.
  intros H. apply queue_call_moves in H as [H|(it & _ & _ & Hi & Hm & Hl)]; [by apply queue_moved_evolves|].
  split; [done|]. split; [done|]. exists (lq_items q), [it]. split; [done|].
  reflexivity.
Qed.
End facts.

(** ** A lease keeps other workers away *)

Section lease.
Context {Res : Type}.
Implicit Types (q : LeaseQueue Res).
Variables (id w : string) (t : datetime).

(** Worker [w] runs the item [id] under a lease that does not end before [t]. *)
Definition held_until q : Prop :=
  exists it until, queue_get id q = Some it /\ holds w it = true /\
    wi_lease_until it = Some until /\ (t <= until)%Z.

(** The clock is read before [t] from [q] to [q'], and once more. *)
Definition reads_before q q' : Prop :=
  forall n, (ticks (lq_env q) <= n <= ticks (lq_env q'))%nat -> (clock (lq_env q) n < t)%Z.

Lemma queue_call_env v q q' : queue_call v q q' ->
  clock (lq_env q') = clock (lq_env q) /\ (ticks (lq_env q) <= ticks (lq_env q'))%nat.
Proof.
  destruct 1 as [p q o q' E _ | v q o q' E | i v q o q' E | i v r q o q' E | i v e q o q' E
    | q o q' E | i p q o q' E]; revert E.
  - by intros [= _ <-].
  - unfold claim. mred. cbn. destruct (List.find _ _); intros [= _ <-]; cbn; split; try done; lia.
  - unfold heartbeat. mred. destruct (held i v q); intros [= _ <-]; cbn; split; try done; lia.
  - unfold complete. mred. by destruct (held i v q); intros [= _ <-].
  - unfold fail. mred. by destruct (held i v q); intros [= _ <-].
  - intros [= _ <-]. cbn. split; [done | lia].
  - by intros [= _ <-].
Qed.

Lemma find_fmap_ids (g : WorkItem Res -> WorkItem Res) l :
  (forall x, wi_work_id (g x) = wi_work_id x) ->
  List.find (has_id id) (g <$> l) = g <$> List.find (has_id id) l.
Proof.
  intros Hg. induction l as [|x l IH]; [done|]. cbn. unfold has_id at 1 3. rewrite Hg.
  destruct (String.eqb _ _); [done | exact IH].
Qed.

Lemma held_until_expire q m e :
  (clock (lq_env q) (ticks (lq_env q)) < t)%Z -> held_until q ->
  held_until (with_items ((fun it => if expired (clock (lq_env q) (ticks (lq_env q))) it
                                     then expire_item m it else it) <$> lq_items q) (with_env e q)).
Proof.
  intros Hc (it & u & Hg & Hh & Hu & Ht). exists it, u. split_and!; try done. unfold queue_get in *.
  cbn [with_items lq_items]. rewrite find_fmap_ids by (intros x; by destruct (expired _ x)). rewrite Hg. cbn.
  unfold expired. rewrite Hu. destruct (Z.leb_spec u (clock (lq_env q) (ticks (lq_env q)))); [lia|].
  by rewrite andb_false_r.
Qed.

Lemma held_until_other p f q e it :
  (forall x, wi_work_id (f x) = wi_work_id x) -> queue_get id q = Some it -> p it = false ->
  held_until q -> held_until (with_items (update_first p f (lq_items q)) (with_env e q)).
Proof.
  intros Hf Hg Hp (it' & u & Hg' & H). exists it', u. split; [|done].
  rewrite Hg in Hg'. injection Hg' as <-. by apply find_update_other.
Qed.

(** Only [w] can act on the item. *)
Lemma held_other q i v : held_until q -> held i v q = true -> (i = id -> v <> w) -> i <> id.
Proof.
  intros (it & u & Hg & Hh & _) Hv Hne ->. unfold held in Hv. rewrite Hg in Hv.
  apply holds_spec in Hh as [_ Hh], Hv as [_ Hv]. rewrite Hh in Hv. injection Hv as ->. by apply Hne.
Qed.

Lemma held_until_update q i f e :
  (forall x, wi_work_id (f x) = wi_work_id x) -> i <> id -> held_until q ->
  held_until (with_items (update_first (has_id i) f (lq_items q)) (with_env e q)).
Proof.
  intros Hf Hne Hq. pose proof Hq as (it & u & Hg & _). apply (held_until_other _ _ _ _ it); try done.
  destruct (has_id i it) eqn:E; [|done]. apply has_id_eq in E as <-. exfalso. apply Hne.
  apply List.find_some in Hg as [_ Hg]. by apply has_id_eq in Hg.
Qed.

(** A claim gives the item to nobody. *)
Lemma held_until_claim v q (o : option (WorkItem Res)) q' : queue_inv q ->
  (clock (lq_env q) (ticks (lq_env q)) < t)%Z -> held_until q ->
  claim v q = (Ret o, q') -> held_until q' /\ (forall x, o = Some x -> wi_work_id x <> id).
Proof.
  intros Hi Hc Hq. unfold claim, bind at 1. destruct (expire_locked_run q) as [n ->].
  set (q1 := with_items _ _). assert (held_until q1) as H1 by by apply held_until_expire.
  assert (queue_inv q1) as Hi1.
  { pose proof (expire_locked_moved q) as Hm. destruct (expire_locked_run q) as [n' E].
    rewrite E in Hm. by apply (queue_moved_inv q). }
  clearbody q1. unfold bind at 1, get. destruct (List.find _ _) as [x|] eqn:E; [|intros [= <- <-]; by split].
  intros [= <- <-]. pose proof H1 as (y & u & Hg & Hh & _). apply List.find_some in E as [Hx E].
  apply list_elem_of_In in Hx. apply holds_spec in Hh as [Hh _]. split.
  - cbn. apply (held_until_other _ _ _ _ y); try done. unfold claimable. by rewrite Hh.
  - intros z [= <-]. cbn. intros Hid. pose proof (find_id_In id _ _ (qi_ids _ Hi1) Hx Hid) as Hf.
    unfold queue_get in Hg. rewrite Hf in Hg. injection Hg as ->. apply claimable_spec in E as [E _].
    by rewrite Hh in E.
Qed.

Lemma held_until_call v q q' : queue_inv q -> queue_call v q q' -> v <> Some w ->
  reads_before q q' -> held_until q -> held_until q'.
Proof.
  intros Hi Hcall Hv Hr Hq. pose proof (queue_call_env _ _ _ Hcall) as [_ Htick].
  assert (clock (lq_env q) (ticks (lq_env q)) < t)%Z as Hc by (apply Hr; lia). clear Hr Htick.
  destruct Hcall as [p q o q' E Hf | v q o q' E | i v q o q' E | i v r q o q' E | i v e q o q' E
    | q o q' E | i p q o q' E]; revert E.
  - intros [= _ <-]. destruct Hq as (it & u & Hg & H). exists it, u. split; [|done].
    unfold queue_get in *. cbn [with_items lq_items]. rewrite put_item_fresh by done.
    by rewrite find_app, Hg.
  - intros E. assert (exists x, o = Ret x) as [x ->].
    { revert E. unfold claim. mred. cbn. destruct (List.find _ _); intros [= <- _]; eauto. }
    by apply (held_until_claim v q x).
  - unfold heartbeat. mred. destruct (held i v q) eqn:Hh; intros [= _ <-]; [|done].
    apply held_until_update; try done. apply (held_other q i v); try done. intros _ ->. by apply Hv.
  - unfold complete. mred. destruct (held i v q) eqn:Hh; intros [= _ <-]; [|done].
    apply (held_until_update q i (complete_item r) (lq_env q)); try done.
    apply (held_other q i v); try done. intros _ ->. by apply Hv.
  - unfold fail. mred. destruct (held i v q) eqn:Hh; intros [= _ <-]; [|done].
    apply (held_until_update q i (fail_item (lq_max_attempts q) e) (lq_env q)); try done.
    apply (held_other q i v); try done. intros _ ->. by apply Hv.
  - unfold recover_expired. destruct (expire_locked_run q) as [n ->]. intros [= _ <-].
    by apply held_until_expire.
  - intros [= _ <-]. destruct (decide (i = id)) as [->|Hne];
      [|by apply (held_until_update q i (set_payload p) (lq_env q))].
    destruct Hq as (it & u & Hg & Hh & Hu & Ht). exists (set_payload p it), u. split_and!; try done.
    by apply find_update_same.
Qed.

(** One call that does not name [w]. *)
Definition others_call q q' : Prop := exists v, v <> Some w /\ queue_call v q q'.

Lemma held_until_others q q' : rtc others_call q q' -> queue_inv q -> reads_before q q' ->
  held_until q -> queue_inv q' /\ held_until q' /\ clock (lq_env q') = clock (lq_env q) /\
    (ticks (lq_env q) <= ticks (lq_env q'))%nat.
Proof.
  assert (forall a b, rtc others_call a b ->
    clock (lq_env b) = clock (lq_env a) /\ (ticks (lq_env a) <= ticks (lq_env b))%nat) as Henv.
  { induction 1 as [|a b c (v & _ & H) _ [IH1 IH2]]; [by split|].
    apply queue_call_env in H as [H1 H2]. split; [congruence | lia]. }
  induction 1 as [q | q1 q2 q3 (v & Hv & Hcall) Hrest IH]; intros Hi Hr Hq; [by split_and!|].
  destruct (queue_call_env _ _ _ Hcall) as [E1 L1]. destruct (Henv _ _ Hrest) as [E2 L2].
  destruct IH as (? & ? & ? & ?); [by apply (queue_call_inv v q1) | | |].
  - intros n Hn. rewrite E1. apply Hr. lia.
  - apply (held_until_call v q1); try done. intros n Hn. apply Hr. lia.
  - split_and!; try done; [congruence | lia].
Qed.
End lease.

(** ** Working a queue off *)

Section drain.
Context {Res W : Type}.
Implicit Types (it : WorkItem Res) (q : LeaseQueue Res) (l : list (WorkItem Res)).

(** The attempts an item may still start. *)
Definition attempts_left (max : Z) it : nat :=
  if bool_decide (wi_status it = W_QUEUED) then Z.to_nat (max - wi_attempts it) else 0.
Definition list_left (max : Z) l : nat := foldr (fun it n => attempts_left max it + n) 0 l.
Definition queue_left q : nat := list_left (lq_max_attempts q) (lq_items q).

(** Nothing is running. *)
Definition idle q : Prop := Forall (fun it => wi_status it <> W_RUNNING) (lq_items q).

(** Only payloads and the clock differ. *)
Definition payload_of it it' : Prop := exists p, it' = set_payload p it.
Record same_work q q' : Prop := mkSameWork {
  sw_max : lq_max_attempts q' = lq_max_attempts q;
  sw_lease : lq_lease_seconds q' = lq_lease_seconds q;
  sw_items : Forall2 payload_of (lq_items q) (lq_items q') }.

Lemma same_work_moved q q' : same_work q q' -> queue_moved q q'.
Proof.
  intros [? ? H]. split; [done | done |]. eapply Forall2_impl; [exact H|].
  intros x y [p ->]. apply rtc_once, move_payload.
Qed.

Lemma list_left_app max l1 l2 : list_left max (l1 ++ l2) = list_left max l1 + list_left max l2.
Proof. unfold list_left. induction l1 as [|x l1 IH]; [done|]. cbn. rewrite IH. lia. Qed.

Lemma list_left_payload max l l' : Forall2 payload_of l l' -> list_left max l' = list_left max l.
Proof. unfold list_left. induction 1 as [|x y l l' [p ->] _ IH]; [done|]. cbn. by rewrite IH. Qed.

Lemma update_first_split p l it : List.find p l = Some it ->
  exists a b, l = a ++ it :: b /\ Forall (fun x => p x = false) a /\
    forall f, update_first p f l = a ++ f it :: b.
Proof.
  induction l as [|x l IH]; simpl; [done|]. destruct (p x) eqn:E.
  - intros [= ->]. by exists [], l.
  - intros H. destruct (IH H) as (a & b & -> & Ha & Hu). exists (x :: a), b.
    split; [done|]. split; [by constructor|]. intros f. simpl. by rewrite Hu.
Qed.

Lemma find_middle id a it b :
  NoDup (wi_work_id <$> (a ++ it :: b)) -> wi_work_id it = id ->
  List.find (has_id id) (a ++ it :: b) = Some it /\
  forall f, update_first (has_id id) f (a ++ it :: b) = a ++ f it :: b.
Proof.
  intros Hn Hid. assert (List.find (has_id id) (a ++ it :: b) = Some it) as Hf.
  { apply find_id_In; [done | | done]. apply elem_of_app. right. by left. }
  split; [done|]. intros f. clear Hf. induction a as [|x a IH]; simpl.
  - by rewrite (proj2 (has_id_eq id it)).
  - cbn in Hn. apply NoDup_cons in Hn as [Hx Hn]. destruct (has_id id x) eqn:E; [|by rewrite IH].
    apply has_id_eq in E. exfalso. apply Hx. rewrite E, <- Hid. apply list_elem_of_fmap_2, elem_of_app.
    right. by left.
Qed.

Lemma expire_idle q : idle q -> forall now m,
  (fun it => if expired now it then expire_item m it else it) <$> lq_items q = lq_items q.
Proof.
  unfold idle. induction 1 as [|x l Hx _ IH]; intros now m; [done|]. cbn.
  unfold expired at 1. rewrite bool_decide_eq_false_2 by done. cbn. f_equal. apply IH.
Qed.

(** A claim on an idle queue. *)
Lemma claim_idle w q : queue_inv q -> idle q ->
  (List.find (claimable (lq_max_attempts q)) (lq_items q) = None /\
   exists q', claim w q = (Ret None, q') /\ lq_items q' = lq_items q /\
     lq_max_attempts q' = lq_max_attempts q) \/
  (exists q' a it b u, claim w q = (Ret (Some (start_item w u it)), q') /\
     lq_items q = a ++ it :: b /\ lq_items q' = a ++ start_item w u it :: b /\
     lq_max_attempts q' = lq_max_attempts q /\ claimable (lq_max_attempts q) it = true).
Proof.
  intros Hi Hq. destruct (expire_locked_run q) as [n En]. rewrite expire_idle in En by done.
  unfold claim. destruct (List.find _ _) as [it|] eqn:E.
  - right. apply update_first_split in E as Hs. destruct Hs as (a & b & Hl & _ & Hu).
    do 5 eexists. rewrite (bind_ret_intro _ _ _ _ _ En). unfold bind at 1, get.
    cbn [with_items with_env lq_items lq_max_attempts]. rewrite E. split; [reflexivity|].
    split; [exact Hl|]. split; [cbn; apply Hu|]. split; [done|]. by apply List.find_some in E as [_ E].
  - left. split; [done|]. rewrite (bind_ret_intro _ _ _ _ _ En). unfold bind at 1, get.
    cbn [with_items with_env lq_items lq_max_attempts]. rewrite E. by eexists.
Qed.

Lemma attempts_left_claimable max it : claimable max it = true ->
  attempts_left max it = S (Z.to_nat (max - (wi_attempts it + 1))).
Proof. intros [Hs Ha]%claimable_spec. unfold attempts_left. rewrite bool_decide_eq_true_2 by done. lia. Qed.

Lemma idle_payload l l' : Forall2 payload_of l l' ->
  Forall (fun it => wi_status it <> W_RUNNING) l -> Forall (fun it => wi_status it <> W_RUNNING) l'.
Proof.
  induction 1 as [|x y l l' [p ->] _ IH]; [done|]. intros [? ?]%Forall_cons. constructor; [done | by apply IH].
Qed.

Variables (w : string) (handler : dict -> M (LeaseQueue Res * W) Res).
Hypothesis handler_quiet : forall p s, same_work (fst s) (fst (snd (handler p s))).

(** What the report of a finished handler leaves of the item. *)
Definition reported max it it' : Prop :=
  wi_status it' <> W_RUNNING /\ attempts_left max it' <= Z.to_nat (max - wi_attempts it).

(** The handler and the report, on a queue whose one running item was claimed. *)
Lemma run_handler_idle (q : LeaseQueue Res) (v : W) a it b :
  queue_inv q -> lq_items q = a ++ it :: b -> holds w it = true ->
  exists s', run_handler w handler it (q, v) = (Ret tt, s') /\ queue_inv (fst s') /\
    lq_max_attempts (fst s') = lq_max_attempts q /\
    exists a' it' b', lq_items (fst s') = a' ++ it' :: b' /\ Forall2 payload_of a a' /\
      Forall2 payload_of b b' /\ reported (lq_max_attempts q) it it'.
Proof.
  intros Hi Hl Hh. pose proof (handler_quiet (wi_payload it) (q, v)) as Hs. cbn [fst] in Hs.
  unfold run_handler. mred. destruct (handler (wi_payload it) (q, v)) as [o [q1 v1]]. cbn [fst snd] in Hs.
  pose proof (queue_moved_inv _ _ (same_work_moved _ _ Hs) Hi) as Hi1. destruct Hs as [Hm _ Hf].
  rewrite Hl in Hf. apply Forall2_app_inv_l in Hf as (a' & [|x b'] & Ha & Hf & Hl1); [by inversion Hf|].
  apply Forall2_cons in Hf as [[p ->] Hb].
  assert (NoDup (wi_work_id <$> (a' ++ set_payload p it :: b'))) as Hn by (rewrite <- Hl1; apply Hi1).
  destruct (find_middle (wi_work_id it) a' (set_payload p it) b' Hn eq_refl) as [Hfind Hupd].
  assert (held (wi_work_id it) w q1 = true) as Hheld by (unfold held, queue_get; by rewrite Hl1, Hfind).
  unfold any_exception, on_queue. destruct o as [r|x]; cbn [fst snd].
  - pose proof (complete_moved (wi_work_id it) w r q1) as Hmv. unfold complete in *. mred.
    rewrite Hheld in *. cbn [snd] in *. eexists. split; [reflexivity|]. cbn [fst].
    split; [by apply (queue_moved_inv q1)|]. split; [done|].
    exists a', (complete_item r (set_payload p it)), b'. cbn. rewrite Hl1, Hupd. split_and!; try done.
    unfold reported, attempts_left. cbn. split; [done|]. rewrite bool_decide_eq_false_2 by done. lia.
  - pose proof (fail_moved (wi_work_id it) w (exn_msg x) q1) as Hmv. unfold fail in *. mred.
    rewrite Hheld in *. cbn [snd] in *. eexists. split; [reflexivity|]. cbn [fst].
    split; [by apply (queue_moved_inv q1)|]. split; [done|].
    exists a', (fail_item (lq_max_attempts q1) (exn_msg x) (set_payload p it)), b'. cbn.
    rewrite Hl1, Hupd. split_and!; try done. rewrite Hm.
    unfold reported, attempts_left, retry_status.
    cbn [fail_item set_payload wi_status wi_attempts]. unfold retry_status.
    cbn [set_payload wi_attempts].
    destruct (Z.ltb_spec (wi_attempts it) (lq_max_attempts q)); split; try done; case_bool_decide; lia.
Qed.

(** One round: an idle queue stays idle, and a round that found work leaves
    fewer attempts. *)
Lemma run_once_idle (q : LeaseQueue Res) (v : W) : queue_inv q -> idle q ->
  exists b s', run_once w handler (q, v) = (Ret b, s') /\ queue_inv (fst s') /\ idle (fst s') /\
    lq_max_attempts (fst s') = lq_max_attempts q /\
    if b then (queue_left (fst s') < queue_left q)%nat
    else lq_items (fst s') = lq_items q /\
         Forall (fun it => claimable (lq_max_attempts q) it = false) (lq_items q).
Proof.
  intros Hi Hq. pose proof (queue_moved_inv _ _ (claim_moved w q) Hi) as Hi1.
  unfold run_once, bind at 1, on_queue. cbn [fst snd].
  destruct (claim_idle w q Hi Hq) as [(Hnone & q1 & E & Hl & Hm)|(q1 & a & it & b & u & E & Hl & Hl1 & Hm & Hc)];
    rewrite E in *; cbn [fst snd] in *.
  - exists false, (q1, v). split; [done|]. cbn [fst]. unfold idle. rewrite Hl. split_and!; try done.
    apply Forall_forall. intros x Hx. apply list_elem_of_In in Hx. by apply (List.find_none _ _ Hnone).
  - destruct (run_handler_idle q1 v a (start_item w u it) b) as
      (s' & Es & Hi' & Hm' & a' & it' & b' & Hl' & Ha & Hb & Hst & Hlt); [done | done | |].
    { apply holds_spec. by split. }
    exists true, s'. unfold bind at 1. rewrite Es. split; [done|]. split; [done|].
    unfold idle in *. rewrite Hl in Hq. apply Forall_app in Hq as [Hqa [_ Hqb]%Forall_cons].
    split; [|split; [congruence|]].
    + rewrite Hl'. apply Forall_app. split; [by apply (idle_payload a)|].
      constructor; [done | by apply (idle_payload b)].
    + unfold queue_left. rewrite Hm', Hl', Hl, Hm. rewrite !list_left_app. cbn [list_left foldr].
      change (foldr _ 0 b') with (list_left (lq_max_attempts q) b').
      change (foldr _ 0 b) with (list_left (lq_max_attempts q) b).
      rewrite (list_left_payload _ _ _ Ha), (list_left_payload _ _ _ Hb).
      rewrite (attempts_left_claimable _ _ Hc). rewrite Hm in Hlt. cbn [start_item wi_attempts] in Hlt. lia.
Qed.
End drain.

(** ** The loop of a worker *)

Section loop.
Context {Res W : Type}.

(** [while worker.run_once(): pass]; [false] when the fuel runs out. *)
Fixpoint work_off (w : string) (handler : dict -> M (LeaseQueue Res * W) Res) (fuel : nat) :
    M (LeaseQueue Res * W) bool :=
  match fuel with
  | O => ret false
  | S fuel => b <- run_once w handler ;; if b then work_off w handler fuel else ret true
  end.

Lemma work_off_drains (w : string) (handler : dict -> M (LeaseQueue Res * W) Res)
    (q : LeaseQueue Res) (v : W) :
  (0 < lq_max_attempts q)%Z -> queue_inv q -> idle q ->
  (forall p s, same_work (fst s) (fst (snd (handler p s)))) ->
  exists s, work_off w handler (S (queue_left q)) (q, v) = (Ret true, s) /\
    queue_inv (fst s) /\ Forall terminal (lq_items (fst s)).
Proof.
  intros Hmax Hi Hq Hh. remember (queue_left q) as n eqn:En. assert (queue_left q <= n)%nat as Hn by lia.
  clear En. revert q v Hmax Hi Hq Hn.
  assert (forall q : LeaseQueue Res, (0 < lq_max_attempts q)%Z -> queue_inv q -> idle q ->
    Forall (fun it => claimable (lq_max_attempts q) it = false) (lq_items q) ->
    Forall terminal (lq_items q)) as Hdone.
  { intros q Hmax [_ Hok] Hq Hc. apply Forall_forall. intros it Hin. unfold idle in Hq.
    rewrite Forall_forall in Hok, Hq, Hc. specialize (Hok it Hin) as [_ Hok]. specialize (Hq it Hin).
    specialize (Hc it Hin). unfold terminal. destruct (wi_status it) eqn:E; try done; [|by left | by right].
    exfalso. destruct Hok as (_ & _ & Hlt). specialize (Hlt Hmax).
    by rewrite (proj2 (claimable_spec _ it)) in Hc. }
  induction n as [|n IH]; intros q v Hmax Hi Hq Hn;
    destruct (run_once_idle w handler Hh q v Hi Hq) as (b & s & E & Hi' & Hq' & Hm & Hb);
    cbn [work_off]; rewrite (bind_ret_intro _ _ _ _ _ E); destruct b; try lia.
  - destruct Hb as [Hl Hc]. exists s. split; [done|]. split; [done|]. rewrite Hl. by apply Hdone.
  - destruct s as [q' v']. cbn [fst] in *. apply IH; [lia | done | done | lia].
  - destruct Hb as [Hl Hc]. exists s. split; [done|]. split; [done|]. rewrite Hl. by apply Hdone.
Qed.
End loop.

(** ** The item a claim returns *)

Lemma claim_holds {Res} w q (it : WorkItem Res) q' : queue_inv q -> claim w q = (Ret (Some it), q') ->
  queue_inv q' /\ queue_get (wi_work_id it) q' = Some it /\ holds w it = true /\
  is_Some (wi_lease_until it).
Proof.
  intros Hi Hc. assert (queue_inv q') as Hi'.
  { pose proof (claim_moved w q) as Hm. rewrite Hc in Hm. by apply (queue_moved_inv q). }
  split; [done|]. revert Hc. unfold claim, bind at 1. destruct (expire_locked_run q) as [n ->].
  set (q1 := with_items _ _). clearbody q1. unfold bind at 1, get.
  destruct (List.find _ _) as [x|] eqn:E; [|done]. intros [= <- <-]. cbn in Hi'.
  apply update_first_split in E as (a & b & _ & _ & Hu). split; [|split; [by apply holds_spec | by eexists]].
  destruct Hi' as [Hn _]. unfold queue_get. cbn in *. rewrite Hu in *. by apply find_middle.
Qed.
