(* ===== verification/Deployment.v ===== *)
(** * Deployment control: [production/control_plane.py],
      [production/evolution.py] and [production/rollout.py]

    Role and attribute based authorization, the hash-linked evidence ledger,
    activation and rollback of versions, and the canary that decides between
    them.  What is deployed where is behind the protocol [DeploymentAdapter].
    The facts below: who may release, the chain of the evidence ledger, and the
    guarded steps of activation, rollback and rollout. *)

From stdpp Require Import base gmap strings list relations.
From Stdlib Require Import ZArith Lia Floats.SpecFloat.
From S2P Require Import Prelude Uuid.
Local Open Scope py_scope.

(** ** Authorization *)

(** Sets of strings are [frozenset]s; attributes are only read by key. *)
Record Subject := mkSubject {
  sj_subject_id : string;
  sj_tenant_id : string;
  sj_roles : gset string;
  sj_attributes : gmap string string;
  sj_permissions : gset string }.

Record AuthorizationPolicy := mkAuthPolicy {
  ap_permission : string;
  ap_required_role : option string;
  ap_required_attributes : list (string * string) }.

Definition ROLE_PERMISSIONS (role : string) : gset string :=
  if String.eqb role "release-manager" then {["deployment.activate"; "deployment.rollback"]} else ∅.

Definition granted (s : Subject) : gset string :=
  sj_permissions s ∪ ⋃ (ROLE_PERMISSIONS <$> elements (sj_roles s)).

(** The first required attribute the subject does not have. *)
Definition missing_attribute (s : Subject) (l : list (string * string)) : option (string * string) :=
  List.find (fun kv => negb (bool_decide (sj_attributes s !! fst kv = Some (snd kv)))) l.

(** [policy.required_role and policy.required_role not in subject.roles] *)
Definition role_missing (s : Subject) (p : AuthorizationPolicy) : bool :=
  match ap_required_role p with
  | Some r => negb (String.eqb r "") && negb (bool_decide (r ∈ sj_roles s))
  | None => false
  end.

(** [RBACABAC.authorize] *)
Definition rbac_authorize (s : Subject) (p : AuthorizationPolicy) : outcome unit :=
  if String.eqb (sj_tenant_id s) "" then raise AuthorizationError "tenant identity is required"
  else if negb (bool_decide (ap_permission p ∈ granted s)) then
    raise AuthorizationError ("permission is missing: " +:+ ap_permission p)
  else if role_missing s p then raise AuthorizationError "required role is missing"
  else match missing_attribute s (ap_required_attributes p) with
       | Some (k, _) => raise AuthorizationError ("required attribute is missing: " +:+ k)
       | None => Ret tt
       end.

(** ** The evidence ledger *)

(** [sha256(repr(value).encode("utf-8")).hexdigest()] *)
Class LedgerDigest := ledger_digest : pyval -> string.

Record LedgerEvent := mkLedgerEvent {
  le_event_id : string;
  le_execution_id : string;
  le_event_type : string;
  le_payload : dict;
  le_timestamp : datetime;
  le_previous_hash : option string;
  le_content_hash : string }.

(** The events, the identifiers in use, and the clock and random identifiers
    the module reads. *)
Record EvidenceLedger := mkLedger {
  el_events : list LedgerEvent;
  el_ids : gset string;
  el_env : Env }.

Definition new_ledger (e : Env) : EvidenceLedger := mkLedger [] ∅ e.

Definition opt_str (o : option string) : pyval := match o with Some s => VStr s | None => VNone end.

Section ledger.
Context {LD : LedgerDigest}.

(** [_digest((event_id, execution_id, event_type, payload, previous))] *)
Definition link_hash (id eid ty : string) (payload : dict) (previous : option string) : string :=
  ledger_digest (VTuple [VStr id; VStr eid; VStr ty; VDict payload; opt_str previous]).

(** [self._events[-1].content_hash if self._events else None] *)
Definition last_hash (l : list LedgerEvent) : option string := le_content_hash <$> last l.

(** [str(uuid4())] *)
Definition ledger_uuid : M EvidenceLedger string := fun l =>
  let '(u, e) := uuid4 (el_env l) in (Ret (uuid_str u), mkLedger (el_events l) (el_ids l) e).

Definition ledger_append (eid ty : string) (payload : dict) : M EvidenceLedger LedgerEvent :=
  id <- ledger_uuid ;;
  l <- get ;;
  if bool_decide (id ∈ el_ids l) then lift (raise ValueError "duplicate evidence event")
  else
    let previous := last_hash (el_events l) in
    let '(now, e) := utc_now (el_env l) in
    let event := mkLedgerEvent id eid ty payload now previous
                   (link_hash id eid ty payload previous) in
    modify (fun _ => mkLedger (el_events l ++ [event]) ({[id]} ∪ el_ids l) e) ;;;
    ret event.

(** [events(execution_id)] *)
Definition ledger_events (eid : option string) (l : EvidenceLedger) : list LedgerEvent :=
  match eid with
  | None => el_events l
  | Some i => filter (fun e => le_execution_id e = i) (el_events l)
  end.

Definition link_ok (previous : option string) (e : LedgerEvent) : bool :=
  bool_decide (le_previous_hash e = previous) &&
  bool_decide (le_content_hash e =
    link_hash (le_event_id e) (le_execution_id e) (le_event_type e) (le_payload e) previous).

Fixpoint verify_from (previous : option string) (l : list LedgerEvent) : bool :=
  match l with
  | [] => true
  | e :: l => link_ok previous e && verify_from (Some (le_content_hash e)) l
  end.

Definition verify_chain (l : EvidenceLedger) : bool := verify_from None (el_events l).

(** ** Activation and rollback *)

(** The protocol [DeploymentAdapter]; both methods answer with the version. *)
Class DeploymentAdapter (D : Type) := {
  deploy : string -> string -> M D string;
  rollback : string -> string -> M D string }.

(** [InMemoryDeploymentAdapter]: its field [active]. *)
Definition set_active (version environment : string) : M (gmap string string) string := fun d =>
  (Ret version, <[environment := version]> d).

#[export] Instance InMemoryDeploymentAdapter : DeploymentAdapter (gmap string string) :=
  {| deploy := set_active; rollback := set_active |}.

Record DeploymentRecord := mkDeployment {
  dr_deployment_id : string;
  dr_candidate_version : string;
  dr_previous_version : option string;
  dr_environment : string;
  dr_state : string;
  dr_evidence_ids : list string }.

Section plane.
Context {D : Type} {DA : DeploymentAdapter D}.

(** The ledger and the adapter a [ProductionControlPlane] holds. *)
Record PlaneState := mkPlane { ps_ledger : EvidenceLedger; ps_deployment : D }.

Definition on_ledger {A} (m : M EvidenceLedger A) : M PlaneState A := fun s =>
  let '(o, l) := m (ps_ledger s) in (o, mkPlane l (ps_deployment s)).
Definition on_deployment {A} (m : M D A) : M PlaneState A := fun s =>
  let '(o, d) := m (ps_deployment s) in (o, mkPlane (ps_ledger s) d).

(** [tuple(e.event_id for e in self.evidence.events(execution_id))] *)
Definition evidence_ids (eid : string) : M PlaneState (list string) := fun s =>
  (Ret (le_event_id <$> ledger_events (Some eid) (ps_ledger s)), s).

Definition release_policy (permission environment : string) : AuthorizationPolicy :=
  mkAuthPolicy permission (Some "release-manager") [("environment", environment)].

(** [activate]: the test of [approval] never fails, an event is truthy. *)
Definition activate (sj : Subject) (candidate environment : string) (previous : option string) :
    M PlaneState DeploymentRecord :=
  lift (rbac_authorize sj (release_policy "deployment.activate" environment)) ;;;
  eid <- on_ledger ledger_uuid ;;
  let payload := [("candidate", VStr candidate); ("environment", VStr environment)] in
  on_ledger (ledger_append eid "deployment.approval" payload) ;;;
  on_deployment (deploy candidate environment) ;;;
  on_ledger (ledger_append eid "deployment.activated" payload) ;;;
  id <- on_ledger ledger_uuid ;;
  ids <- evidence_ids eid ;;
  ret (mkDeployment id candidate previous environment "ACTIVE" ids).

(** [ProductionControlPlane.rollback] *)
Definition plane_rollback (sj : Subject) (target environment : string) :
    M PlaneState DeploymentRecord :=
  lift (rbac_authorize sj (release_policy "deployment.rollback" environment)) ;;;
  eid <- on_ledger ledger_uuid ;;
  let payload := [("target", VStr target); ("environment", VStr environment)] in
  on_ledger (ledger_append eid "deployment.rollback.approved" payload) ;;;
  on_deployment (rollback target environment) ;;;
  on_ledger (ledger_append eid "deployment.rollback.verified" payload) ;;;
  id <- on_ledger ledger_uuid ;;
  ids <- evidence_ids eid ;;
  ret (mkDeployment id target None environment "ROLLED_BACK" ids).

(** ** Measurements and the canary *)

Record Measurement := mkMeasurement { ms_name : string; ms_value : spec_float }.

Record Evaluation := mkEvaluation {
  el_candidate : string; el_score : spec_float; el_baseline : spec_float; el_passed : bool;
  el_reason : string }.

Record CanaryDecision := mkCanary {
  cn_candidate : string; cn_traffic_percent : Z; cn_success_rate : spec_float;
  cn_latency_ms : spec_float; cn_passed : bool }.

(** The integer [m] times a power of two, exactly. *)
Definition exact_float (m e : Z) : spec_float :=
  match m with
  | Z0 => S754_zero false
  | Zpos p => S754_finite false p e
  | Zneg p => S754_finite true p e
  end.

(** [a / b] on integers for [b <> 0]: the correctly rounded quotient. *)
Definition true_div (a b : Z) : outcome spec_float :=
  match SFdiv 53 1024 (exact_float a 0) (exact_float b 0) with
  | S754_infinity _ => raise OverflowError "integer division result too large for a float"
  | f => Ret f
  end.

(** The exact sum of finite floats: a mantissa and an exponent. *)
Definition float_parts (f : spec_float) : option (Z * Z) :=
  match f with
  | S754_zero _ => Some (0, 0)%Z
  | S754_finite s m e => Some (if s then Z.neg m else Z.pos m, e)
  | _ => None
  end.

Definition add_parts (a b : Z * Z) : Z * Z :=
  let e := Z.min (snd a) (snd b) in
  (fst a * 2 ^ (snd a - e) + fst b * 2 ^ (snd b - e), e)%Z.

(** [statistics.mean]: the exact sum divided by the count and rounded once;
    infinities and not-a-numbers are summed as floats. *)
Definition mean (l : list spec_float) : spec_float :=
  match filter (fun f => float_parts f = None) l with
  | [] => let '(m, e) := foldr add_parts (0, 0)%Z (omap float_parts l) in
          SFdiv 53 1024 (exact_float m e) (exact_float (Z.of_nat (length l)) 0)
  | special => foldl (SFadd 53 1024) (S754_zero false) special
  end.

(** [LearningLoop.evaluate] *)
Definition loop_evaluate (candidate : string) (ms : list Measurement) (baseline minimum : spec_float) :
    Evaluation :=
  match ms_value <$> ms with
  | [] => mkEvaluation candidate (S754_zero false) baseline false "no measurements"
  | values => let score := mean values in
              mkEvaluation candidate score baseline (SFleb minimum score) "score gate"
  end.

(** [LearningLoop.candidate] *)
Definition loop_candidate (e : Evaluation) (approved : bool) : string :=
  if negb (el_passed e) then "REJECTED" else if negb approved then "PENDING_APPROVAL" else "APPROVED".

Record CanaryController := mkCanaryController {
  cc_minimum_success_rate : spec_float;
  cc_maximum_latency_ms : spec_float }.

(** [CanaryController()]: [0.99] and [1000.0]. *)
Definition default_canary : CanaryController :=
  mkCanaryController (S754_finite false 8917127262193582 (-53)) (S754_finite false 8796093022208000 (-43)).

(** [CanaryController.decide] *)
Definition canary_decide (c : CanaryController) (candidate : string) (traffic_percent : Z)
    (successes total : Z) (latency_ms : spec_float) : outcome CanaryDecision :=
  if negb ((1 <=? traffic_percent)%Z && (traffic_percent <=? 100)%Z) then
    raise ValueError "traffic_percent must be between 1 and 100"
  else
    rate <-? (if (total =? 0)%Z then Ret (S754_zero false) else true_div successes total) ;;
    let passed := SFleb (cc_minimum_success_rate c) rate && SFleb latency_ms (cc_maximum_latency_ms c) in
    Ret (mkCanary candidate traffic_percent rate latency_ms passed).

(** ** [RolloutController] *)

Record RolloutResult := mkRollout {
  ro_candidate : string; ro_state : string; ro_canary : CanaryDecision; ro_evidence_ids : list string }.

Definition rollout_id (candidate environment : string) : string :=
  "rollout:" +:+ candidate +:+ ":" +:+ environment.

Definition rate_payload (d : CanaryDecision) (latency_ms : spec_float) : dict :=
  [("success_rate", VFloat (cn_success_rate d)); ("latency_ms", VFloat latency_ms)].

(** [evaluate_and_rollout] *)
Definition evaluate_and_rollout (c : CanaryController) (sj : Subject)
    (candidate environment previous : string) (traffic_percent successes total : Z)
    (latency_ms : spec_float) (measurements : list Measurement) : M PlaneState RolloutResult :=
  let eid := rollout_id candidate environment in
  on_ledger (ledger_append eid "rollout.canary.started"
    [("candidate", VStr candidate); ("traffic_percent", VInt traffic_percent)]) ;;;
  d <- lift (canary_decide c candidate traffic_percent successes total latency_ms) ;;
  if negb (cn_passed d) then
    on_ledger (ledger_append eid "rollout.canary.failed" (rate_payload d latency_ms)) ;;;
    r <- plane_rollback sj previous environment ;;
    ids <- evidence_ids eid ;;
    ret (mkRollout candidate "ROLLED_BACK" d (ids ++ dr_evidence_ids r))
  else
    on_ledger (ledger_append eid "rollout.canary.passed" (rate_payload d latency_ms)) ;;;
    activate sj candidate environment (Some previous) ;;;
    on_ledger (ledger_append eid "rollout.promoted"
      [("candidate", VStr candidate);
       ("measurements", VList (VFloat <$> (ms_value <$> measurements)))]) ;;;
    ids <- evidence_ids eid ;;
    ret (mkRollout candidate "PROMOTED" d ids).

End plane.
End ledger.

Arguments PlaneState : clear implicits.

(** ** Authorization *)

(** What a subject needs to release to an environment: the permissions come
    with the role. *)
Record may_release (s : Subject) (environment : string) : Prop := mkMayRelease {
  mr_tenant : sj_tenant_id s <> "";
  mr_role : "release-manager" ∈ sj_roles s;
  mr_environment : sj_attributes s !! "environment" = Some environment }.

#[export] Instance may_release_dec s environment : Decision (may_release s environment).
Proof.
  refine (cast_if_and3 (decide (sj_tenant_id s <> "")) (decide ("release-manager" ∈ sj_roles s))
    (decide (sj_attributes s !! "environment" = Some environment))); [by split | | |]; by intros [].
Defined.

Lemma granted_role s r p : r ∈ sj_roles s -> p ∈ ROLE_PERMISSIONS r -> p ∈ granted s.
Proof.
  intros Hr Hp. apply elem_of_union. right. apply elem_of_union_list. exists (ROLE_PERMISSIONS r).
  split; [|done]. by apply list_elem_of_fmap_2, elem_of_elements.
Qed.

Lemma rbac_authorize_spec s p : rbac_authorize s p = Ret tt <->
  sj_tenant_id s <> "" /\ ap_permission p ∈ granted s /\
  (forall r, ap_required_role p = Some r -> r <> "" -> r ∈ sj_roles s) /\
  Forall (fun kv => sj_attributes s !! fst kv = Some (snd kv)) (ap_required_attributes p).
Proof.
  unfold rbac_authorize. destruct (String.eqb_spec (sj_tenant_id s) "") as [E|E]; [by split; [|intros []]|].
  case_bool_decide as Hg; cbn [negb]; [|by split; [|intros (_ & ? & _)]].
  destruct (role_missing s p) eqn:Er.
  - split; [done|]. intros (_ & _ & Hr & _). unfold role_missing in Er.
    destruct (ap_required_role p) as [r|]; [|done]. apply andb_true_iff in Er as [E1 E2].
    apply negb_true_iff, String.eqb_neq in E1. specialize (Hr r eq_refl E1).
    by rewrite bool_decide_eq_true_2 in E2.
  - assert (forall r, ap_required_role p = Some r -> r <> "" -> r ∈ sj_roles s) as Hr.
    { intros r Hr Hne. unfold role_missing in Er. rewrite Hr in Er.
      apply String.eqb_neq in Hne. rewrite Hne in Er. cbn in Er.
      by apply negb_false_iff, bool_decide_eq_true in Er. }
    unfold missing_attribute. destruct (List.find _ _) as [[k v]|] eqn:Ef.
    + split; [done|]. intros (_ & _ & _ & Ha). apply List.find_some in Ef as [Hin Hk].
      apply list_elem_of_In in Hin. rewrite Forall_forall in Ha. specialize (Ha _ Hin).
      by rewrite bool_decide_eq_true_2 in Hk.
    + split; [|done]. intros _. split_and!; try done. apply Forall_forall. intros kv Hin.
      apply list_elem_of_In in Hin. pose proof (List.find_none _ _ Ef _ Hin) as Hk.
      by apply negb_false_iff, bool_decide_eq_true in Hk.
Qed.

Lemma release_authorize s p environment : p ∈ ["deployment.activate"; "deployment.rollback"] ->
  rbac_authorize s (release_policy p environment) = Ret tt <-> may_release s environment.
Proof.
  intros Hp. rewrite rbac_authorize_spec. cbn [release_policy ap_permission ap_required_role
    ap_required_attributes]. split.
  - intros (H1 & _ & H2 & H3). apply Forall_cons in H3 as [H3 _]. split; [done | by apply H2 | done].
  - intros [H1 H2 H3]. split_and!; [done | | by intros r [= <-] | by constructor].
    apply (granted_role _ "release-manager"); [done|]. cbn. set_solver.
Qed.

(** ** The chain of the ledger *)

Section chain.
Context {LD : LedgerDigest}.

(** What the digest of an event is computed from. *)
Definition link_input (e : LedgerEvent) : pyval :=
  VTuple [VStr (le_event_id e); VStr (le_execution_id e); VStr (le_event_type e);
          VDict (le_payload e); opt_str (le_previous_hash e)].

(** The same event up to its timestamp. *)
Definition same_event (e1 e2 : LedgerEvent) : Prop :=
  le_event_id e1 = le_event_id e2 /\ le_execution_id e1 = le_execution_id e2 /\
  le_event_type e1 = le_event_type e2 /\ le_payload e1 = le_payload e2 /\
  le_previous_hash e1 = le_previous_hash e2 /\ le_content_hash e1 = le_content_hash e2.

Definition hash_after (p : option string) (l : list LedgerEvent) : option string :=
  match last l with Some e => Some (le_content_hash e) | None => p end.

Lemma hash_after_cons p e l : hash_after p (e :: l) = hash_after (Some (le_content_hash e)) l.
Proof. unfold hash_after. rewrite last_cons. by destruct (last l). Qed.

Lemma verify_from_snoc l p e :
  verify_from p (l ++ [e]) = verify_from p l && link_ok (hash_after p l) e.
Proof.
  revert p. induction l as [|x l IH]; intros p; simpl.
  - by rewrite andb_true_r.
  - by rewrite IH, hash_after_cons, andb_assoc.
Qed.

Lemma hash_after_None l : hash_after None l = last_hash l.
Proof. unfold hash_after, last_hash. by destruct (last l). Qed.

Lemma link_ok_spec p e : link_ok p e = true <->
  le_previous_hash e = p /\ le_content_hash e = ledger_digest (link_input e).
Proof.
  unfold link_ok. rewrite andb_true_iff, !bool_decide_eq_true. unfold link_hash, link_input.
  split; [by intros [-> ->] | intros [<- ->]; done].
Qed.

Lemma opt_str_inj a b : opt_str a = opt_str b -> a = b.
Proof. destruct a, b; simpl; congruence. Qed.

Lemma verified_same l1 l2 :
  (forall e1 e2, e1 ∈ l1 -> e2 ∈ l2 -> ledger_digest (link_input e1) = ledger_digest (link_input e2) ->
     link_input e1 = link_input e2) ->
  verify_from None l1 = true -> verify_from None l2 = true -> last_hash l1 = last_hash l2 ->
  Forall2 same_event l1 l2.
Proof.
  revert l2. induction l1 as [|e1 l1 IH] using rev_ind; intros l2 Hc H1 H2 Hl;
    destruct l2 as [|e2 l2 _] using rev_ind.
  - constructor.
  - unfold last_hash in Hl. by rewrite last_snoc in Hl.
  - unfold last_hash in Hl. by rewrite last_snoc in Hl.
  - unfold last_hash in Hl. rewrite !last_snoc in Hl. injection Hl as Hl.
    rewrite verify_from_snoc, andb_true_iff, hash_after_None, link_ok_spec in H1, H2.
    destruct H1 as (H1 & P1 & C1), H2 as (H2 & P2 & C2).
    assert (link_input e1 = link_input e2) as E.
    { apply Hc; [apply elem_of_app; right; by left | apply elem_of_app; right; by left | congruence]. }
    injection E as E1 E2 E3 E4 E5. apply opt_str_inj in E5. apply Forall2_app.
    + apply IH; try done; [|congruence]. intros x y Hx Hy. apply Hc; apply elem_of_app; by left.
    + constructor; [|constructor]. by split_and!.
Qed.

(** What every ledger written by [append] satisfies. *)
Record ledger_inv (l : EvidenceLedger) : Prop := mkLedgerInv {
  li_chain : verify_chain l = true;
  li_ids : el_ids l = list_to_set (le_event_id <$> el_events l);
  li_unique : NoDup (le_event_id <$> el_events l) }.

(** The new event of an [append], which raises when the identifier is used. *)
Lemma ledger_append_run eid ty payload l :
  (exists e l', ledger_append eid ty payload l = (Ret e, l') /\ el_events l' = el_events l ++ [e] /\
     el_ids l' = {[le_event_id e]} ∪ el_ids l /\ (le_event_id e ∉ el_ids l) /\
     le_execution_id e = eid /\ le_event_type e = ty /\ le_payload e = payload /\
     link_ok (last_hash (el_events l)) e = true /\
     le_event_id e = uuid_str (fst (uuid4 (el_env l))) /\
     entropy (el_env l') = entropy (el_env l) /\ drawn (el_env l') = S (drawn (el_env l))) \/
  (exists x l', ledger_append eid ty payload l = (Raise x, l') /\ el_events l' = el_events l /\
     el_ids l' = el_ids l /\ uuid_str (fst (uuid4 (el_env l))) ∈ el_ids l).
Proof.
  unfold ledger_append, ledger_uuid. mred. cbn.
  case_bool_decide as E; [right; do 2 eexists; by split_and!|].
  left. do 2 eexists. split; [reflexivity|]. cbn. split_and!; try done.
  unfold link_ok. cbn. by rewrite !bool_decide_eq_true_2.
Qed.

Lemma ledger_append_inv eid ty payload l : ledger_inv l -> ledger_inv (snd (ledger_append eid ty payload l)).
Proof.
  intros [Hc Hi Hn].
  destruct (ledger_append_run eid ty payload l) as
    [(e & l' & -> & He & Hids & Hf & _ & _ & _ & Hl & _)|(x & l' & -> & He & Hids & _)]; cbn [snd].
  - split.
    + unfold verify_chain in *. rewrite He, verify_from_snoc, Hc, hash_after_None. done.
    + rewrite Hids, He, Hi, fmap_app, list_to_set_app_L. cbn. set_solver.
    + rewrite He, fmap_app. apply NoDup_snoc; [done|]. rewrite Hi in Hf. by rewrite elem_of_list_to_set in Hf.
  - split; unfold verify_chain in *; by rewrite ?Hids, He.
Qed.

End chain.

(** ** Guarded steps *)

Section steps.
Context {LD : LedgerDigest} {D : Type} {DA : DeploymentAdapter D}.

Definition release_payload (key version environment : string) : dict :=
  [(key, VStr version); ("environment", VStr environment)].

(** The approval of [version] is the last event of the ledger. *)
Definition approved_by (ty key version environment : string) (l : EvidenceLedger) : Prop :=
  exists e, last (el_events l) = Some e /\ le_event_type e = ty /\
    le_payload e = release_payload key version environment.

(** A change of what is deployed in an environment. *)
Inductive release := Deploy (version environment : string) | Rollback (version environment : string).

(** The releases that may happen, and for whom: those of the call. *)
Variable asked : Subject -> release -> Prop.

(** The ledger draws identifiers and appends linked events; the deployment
    changes only as the call asks, for its subject, if that may release to the
    environment, and right after the approval of this very change. *)
Inductive plane_step : PlaneState D -> PlaneState D -> Prop :=
  | step_draw l d : plane_step (mkPlane l d) (mkPlane (snd (ledger_uuid l)) d)
  | step_evidence eid ty payload l d :
      plane_step (mkPlane l d) (mkPlane (snd (ledger_append eid ty payload l)) d)
  | step_deploy sj version environment l d :
      asked sj (Deploy version environment) -> may_release sj environment ->
      approved_by "deployment.approval" "candidate" version environment l ->
      plane_step (mkPlane l d) (mkPlane l (snd (deploy version environment d)))
  | step_rollback sj version environment l d :
      asked sj (Rollback version environment) -> may_release sj environment ->
      approved_by "deployment.rollback.approved" "target" version environment l ->
      plane_step (mkPlane l d) (mkPlane l (snd (rollback version environment d))).

Abbreviation refines := (keeps (rtc plane_step)).

Lemma refines_draw : refines (on_ledger ledger_uuid).
Proof.
  intros [l d]. pose proof (step_draw l d) as H. unfold on_ledger. cbn in *.
  destruct (ledger_uuid l). by apply rtc_once.
Qed.

Lemma refines_append eid ty payload : refines (on_ledger (ledger_append eid ty payload)).
Proof.
  intros [l d]. pose proof (step_evidence eid ty payload l d) as H. unfold on_ledger. cbn [ps_ledger] in *.
  destruct (ledger_append eid ty payload l). by apply rtc_once.
Qed.

Lemma refines_evidence_ids eid : refines (evidence_ids eid).
Proof. intros s. apply rtc_refl. Qed.

Hint Resolve refines_draw refines_append refines_evidence_ids : ois.

(** An approval followed by the operation it approves. *)
Lemma refines_approved {A} eid ty payload (op : M D string) (k : M (PlaneState D) A) :
  (forall l d e, last (el_events l) = Some e -> le_event_type e = ty -> le_payload e = payload ->
     plane_step (mkPlane l d) (mkPlane l (snd (op d)))) ->
  refines k -> refines (on_ledger (ledger_append eid ty payload) ;;; on_deployment op ;;; k).
Proof.
  intros Hop Hk. apply keeps_bind_val; [apply _ | apply refines_append |]. intros e [l d] [l' d'] E.
  unfold on_ledger in E. cbn [ps_ledger ps_deployment] in E.
  destruct (ledger_append_run eid ty payload l) as
    [(e' & l1 & E1 & He & _ & _ & _ & Ht & Hp & _)|(x & l1 & E1 & _)]; rewrite E1 in E; [|done].
  injection E as <- <- <-. unfold bind, on_deployment. cbn [ps_ledger ps_deployment].
  assert (plane_step (mkPlane l1 d) (mkPlane l1 (snd (op d)))) as Hs.
  { apply (Hop _ _ e'); [|done | done]. by rewrite He, last_snoc. }
  destruct (op d) as [[v|x] d2]; cbn [snd] in *; [|by apply rtc_once].
  eapply rtc_l; [exact Hs | apply Hk].
Qed.

Lemma refines_activate sj candidate environment previous :
  asked sj (Deploy candidate environment) -> refines (activate sj candidate environment previous).
Proof.
  intros Hask.
  apply keeps_bind_val; [apply _ | apply keeps_lift; apply _ |]. intros [] s s' [E ->]%lift_inv.
  apply release_authorize in E as Hr; [|set_solver]. revert s. apply keeps_bind; [apply _ | apply refines_draw |].
  intros eid. apply refines_approved; [|keeps_auto].
  intros l d e Hl Ht Hp. apply (step_deploy sj); [done | done|]. by exists e.
Qed.

Lemma refines_rollback sj target environment :
  asked sj (Rollback target environment) -> refines (plane_rollback sj target environment).
Proof.
  intros Hask.
  apply keeps_bind_val; [apply _ | apply keeps_lift; apply _ |]. intros [] s s' [E ->]%lift_inv.
  apply release_authorize in E as Hr; [|set_solver]. revert s. apply keeps_bind; [apply _ | apply refines_draw |].
  intros eid. apply refines_approved; [|keeps_auto].
  intros l d e Hl Ht Hp. apply (step_rollback sj); [done | done|]. by exists e.
Qed.

Hint Resolve refines_activate refines_rollback : ois.

Lemma refines_rollout c sj candidate environment previous pct ok total lat ms :
  asked sj (Deploy candidate environment) -> asked sj (Rollback previous environment) ->
  refines (evaluate_and_rollout c sj candidate environment previous pct ok total lat ms).
Proof. intros Ha Hr. unfold evaluate_and_rollout. keeps_auto. Qed.

(** Steps keep the ledger well-formed and only add events. *)
Definition ledger_extends (l l' : EvidenceLedger) : Prop :=
  exists new, el_events l' = el_events l ++ new.

#[export] Instance ledger_extends_preorder : PreOrder ledger_extends.
Proof.
  split; [intros l; exists []; by rewrite app_nil_r|].
  intros l1 l2 l3 [n1 E1] [n2 E2]. exists (n1 ++ n2). by rewrite E2, E1, app_assoc.
Qed.

Lemma ledger_append_extends eid ty payload l : ledger_extends l (snd (ledger_append eid ty payload l)).
Proof.
  destruct (ledger_append_run eid ty payload l) as [(e & l' & -> & He & _)|(x & l' & -> & He & _)].
  - by exists [e].
  - exists []. cbn [snd]. by rewrite He, app_nil_r.
Qed.

Lemma plane_steps_ledger s s' : rtc plane_step s s' ->
  ledger_extends (ps_ledger s) (ps_ledger s') /\ (ledger_inv (ps_ledger s) -> ledger_inv (ps_ledger s')).
Proof.
  induction 1 as [|s1 s2 s3 H _ [IH1 IH2]]; [by split|].
  assert (ledger_extends (ps_ledger s1) (ps_ledger s2) /\
          (ledger_inv (ps_ledger s1) -> ledger_inv (ps_ledger s2))) as [H1 H2].
  { destruct H; cbn [ps_ledger]; try done.
    - split; [exists []; by rewrite app_nil_r|]. intros [H1 H2 H3]. by split.
    - split; [apply ledger_append_extends | by apply ledger_append_inv]. }
  split; [by etransitivity | auto].
Qed.

End steps.

(** The releases of a rollout. *)
Definition rollout_release (sj : Subject) (candidate environment previous : string) (who : Subject)
    (change : release) : Prop :=
  who = sj /\ (change = Deploy candidate environment \/ change = Rollback previous environment).

(** ** Complete runs with the in-memory adapter *)

Section runs.
Context {LD : LedgerDigest}.

(** The next [k] identifiers of [uuid4] are new and distinct. *)
Definition ids_fresh (k : nat) (l : EvidenceLedger) : Prop :=
  forall i, (i < k)%nat ->
    (uuid_str (entropy (el_env l) (drawn (el_env l) + i)) ∉ el_ids l) /\
    forall j, (j < k)%nat ->
      uuid_str (entropy (el_env l) (drawn (el_env l) + i)) =
      uuid_str (entropy (el_env l) (drawn (el_env l) + j)) -> i = j.

(** The events of these types were appended. *)
Definition grown (l : EvidenceLedger) (types : list string) (l' : EvidenceLedger) : Prop :=
  exists new, el_events l' = el_events l ++ new /\ le_event_type <$> new = types.

Lemma grown_trans l1 t1 l2 t2 l3 : grown l1 t1 l2 -> grown l2 t2 l3 -> grown l1 (t1 ++ t2) l3.
Proof.
  intros (n1 & E1 & T1) (n2 & E2 & T2). exists (n1 ++ n2).
  rewrite E2, E1, <- app_assoc, fmap_app, T1, T2. done.
Qed.

Lemma append_fresh k eid ty payload l : ids_fresh (S k) l ->
  exists e l', ledger_append eid ty payload l = (Ret e, l') /\ ids_fresh k l' /\ grown l [ty] l'.
Proof.
  intros Hf. destruct (ledger_append_run eid ty payload l) as
    [(e & l' & E & He & Hids & _ & _ & Ht & _ & _ & Hid & Hen & Hd)|(x & l' & _ & _ & _ & Hin)].
  - exists e, l'. split; [done|]. split; [|exists [e]; cbn; by rewrite Ht].
    unfold ids_fresh in *. rewrite Hids, Hen, Hd, Hid. cbn [fst uuid4]. intros i Hi.
    rewrite Nat.add_succ_comm. destruct (Hf (S i) ltac:(lia)) as [H1 H2]. split.
    + apply not_elem_of_union. split; [|done]. intros E'%elem_of_singleton.
      specialize (H2 0 ltac:(lia)). rewrite Nat.add_0_r in H2. by apply H2 in E'.
    + intros j Hj. rewrite Nat.add_succ_comm. intros E'.
      specialize (H2 (S j) ltac:(lia) E'). lia.
  - destruct (Hf 0 ltac:(lia)) as [H _]. rewrite Nat.add_0_r in H. done.
Qed.

Lemma draw_fresh k l : ids_fresh (S k) l ->
  exists i l', ledger_uuid l = (Ret i, l') /\ ids_fresh k l' /\ grown l [] l'.
Proof.
  intros Hf. unfold ledger_uuid. cbn. do 2 eexists. split; [reflexivity|].
  split; [|exists []; by rewrite app_nil_r]. intros i Hi. cbn [el_env el_ids drawn entropy].
  rewrite Nat.add_succ_comm. destruct (Hf (S i) ltac:(lia)) as [H1 H2]. split; [done|].
  intros j Hj. rewrite Nat.add_succ_comm. intros E. specialize (H2 (S j) ltac:(lia) E). lia.
Qed.

Lemma on_ledger_run {D A} (m : M EvidenceLedger A) l (d : D) o l' :
  m l = (o, l') -> on_ledger m (mkPlane l d) = (o, mkPlane l' d).
Proof. unfold on_ledger. cbn [ps_ledger]. by intros ->. Qed.

(** The common body of [activate] and [rollback]. *)
Lemma release_run k sj environment version p ty1 ty2 payload
    (mk : string -> list string -> DeploymentRecord) l (d : gmap string string) :
  may_release sj environment -> p ∈ ["deployment.activate"; "deployment.rollback"] ->
  ids_fresh (4 + k) l ->
  exists r l', (lift (rbac_authorize sj (release_policy p environment)) ;;;
      eid <- on_ledger ledger_uuid ;;
      on_ledger (ledger_append eid ty1 payload) ;;;
      on_deployment (set_active version environment) ;;;
      on_ledger (ledger_append eid ty2 payload) ;;;
      id <- on_ledger ledger_uuid ;; ids <- evidence_ids eid ;; ret (mk id ids)) (mkPlane l d) =
    (Ret r, mkPlane l' (<[environment := version]> d)) /\ ids_fresh k l' /\ grown l [ty1; ty2] l'.
Proof.
  intros Hr Hp Hf. apply (release_authorize _ _ _ Hp) in Hr as ->.
  destruct (draw_fresh _ l Hf) as (i & l1 & E1 & F1 & G1).
  destruct (append_fresh _ i ty1 payload l1 F1) as (e2 & l2 & E2 & F2 & G2).
  destruct (append_fresh _ i ty2 payload l2 F2) as (e3 & l3 & E3 & F3 & G3).
  destruct (draw_fresh _ l3 F3) as (i4 & l4 & E4 & F4 & G4).
  unfold bind, lift, on_ledger, on_deployment, set_active, evidence_ids, ret. cbn [ps_ledger ps_deployment].
  rewrite E1. cbn [ps_ledger ps_deployment]. rewrite E2. cbn [ps_ledger ps_deployment].
  rewrite E3. cbn [ps_ledger ps_deployment]. rewrite E4. do 2 eexists. split; [reflexivity|].
  split; [exact F4|].
  exact (grown_trans _ _ _ _ _ G1 (grown_trans _ _ _ _ _ G2 (grown_trans _ _ _ _ _ G3 G4))).
Qed.

Lemma activate_run k sj candidate environment previous l (d : gmap string string) :
  may_release sj environment -> ids_fresh (4 + k) l ->
  exists r l', activate sj candidate environment previous (mkPlane l d) =
    (Ret r, mkPlane l' (<[environment := candidate]> d)) /\ ids_fresh k l' /\
    grown l ["deployment.approval"; "deployment.activated"] l'.
Proof.
  intros Hr Hf. exact (release_run k sj environment candidate "deployment.activate" _ _ _
    (fun id ids => mkDeployment id candidate previous environment "ACTIVE" ids) l d Hr ltac:(set_solver) Hf).
Qed.

Lemma rollback_run k sj target environment l (d : gmap string string) :
  may_release sj environment -> ids_fresh (4 + k) l ->
  exists r l', plane_rollback sj target environment (mkPlane l d) =
    (Ret r, mkPlane l' (<[environment := target]> d)) /\ ids_fresh k l' /\
    grown l ["deployment.rollback.approved"; "deployment.rollback.verified"] l'.
Proof.
  intros Hr Hf. exact (release_run k sj environment target "deployment.rollback" _ _ _
    (fun id ids => mkDeployment id target None environment "ROLLED_BACK" ids) l d Hr ltac:(set_solver) Hf).
Qed.

Lemma release_denied {D} {DA : DeploymentAdapter D} sj version environment previous (s : PlaneState D) e :
  (rbac_authorize sj (release_policy "deployment.activate" environment) = Raise e ->
   activate sj version environment previous s = (Raise e, s)) /\
  (rbac_authorize sj (release_policy "deployment.rollback" environment) = Raise e ->
   plane_rollback sj version environment s = (Raise e, s)).
Proof. unfold activate, plane_rollback. mred. by split; intros ->. Qed.

(** ** Rollouts

    The abstract rollout: a verdict of the canary, an authorization, a new
    version for the environment. *)

Section spec.
Variables (c : CanaryController) (sj : Subject) (candidate environment previous : string).
Variables (pct ok total : Z) (latency : spec_float).

Definition release_permission (v : CanaryDecision) : string :=
  if cn_passed v then "deployment.activate" else "deployment.rollback".

Definition rollout_spec (d : gmap string string) : outcome (string * CanaryDecision) * gmap string string :=
  match canary_decide c candidate pct ok total latency with
  | Raise e => (Raise e, d)
  | Ret v =>
      match rbac_authorize sj (release_policy (release_permission v) environment) with
      | Raise e => (Raise e, d)
      | Ret _ => if cn_passed v then (Ret ("PROMOTED", v), <[environment := candidate]> d)
                 else (Ret ("ROLLED_BACK", v), <[environment := previous]> d)
      end
  end.

(** The evidence of the verdict. *)
Definition verdict (v : CanaryDecision) : string :=
  if cn_passed v then "rollout.canary.passed" else "rollout.canary.failed".

(** The evidence of the released version. *)
Definition release_evidence (v : CanaryDecision) : list string :=
  if cn_passed v then ["deployment.approval"; "deployment.activated"]
  else ["deployment.rollback.approved"; "deployment.rollback.verified"].
End spec.

(** A computation answers like its specification, seen through [f]. *)
Definition answers {A B} (f : A -> B) (o : outcome A) (spec : outcome B) : Prop :=
  match o, spec with
  | Ret a, Ret b => f a = b
  | Raise e, Raise e' => e = e'
  | _, _ => False
  end.

Lemma permission_release v : release_permission v ∈ ["deployment.activate"; "deployment.rollback"].
Proof. unfold release_permission. destruct (cn_passed v); set_solver. Qed.

(** The release a verdict calls for, on a fresh ledger. *)
Lemma release_fresh k sj environment candidate previous v l (d : gmap string string) u :
  ids_fresh (4 + k) l ->
  rbac_authorize sj (release_policy (release_permission v) environment) = Ret u ->
  exists l', ids_fresh k l' /\ grown l (release_evidence v) l' /\
    if cn_passed v
    then exists r, activate sj candidate environment (Some previous) (mkPlane l d) =
           (Ret r, mkPlane l' (<[environment := candidate]> d))
    else exists r, plane_rollback sj previous environment (mkPlane l d) =
           (Ret r, mkPlane l' (<[environment := previous]> d)).
Proof.
  destruct u. intros Hf Hr. apply (release_authorize _ _ _ (permission_release v)) in Hr.
  unfold release_evidence. destruct (cn_passed v).
  - destruct (activate_run k sj candidate environment (Some previous) l d Hr Hf) as (r & l' & E & F & G). eauto.
  - destruct (rollback_run k sj previous environment l d Hr Hf) as (r & l' & E & F & G). eauto.
Qed.

End runs.
