(* ===== verification/SemanticWorld.v ===== *)
(** * Semantic worlds: [production/semantic_world.py] and
      [production/knowledge_world.py]

    Entities with a version counter, and facts with a version per subject and
    predicate.  [SemanticWorld] keeps them in memory, [KnowledgeWorldStore] in
    two SQLite tables; both store [Fact]s and [Entity]s with the same fields.  The lemmas that
    follow show that both number the facts about a subject and a predicate from
    one, in the order they are asserted. *)

From stdpp Require Import base gmap strings list pretty sorting.
From Stdlib Require Import ZArith Lia Floats.SpecFloat.
From S2P Require Import Prelude Uuid Json.
Local Open Scope py_scope.

Record Entity := mkEntity {
  en_entity_id : string; en_entity_type : string; en_attributes : dict; en_version : Z }.

Record Fact := mkFact {
  fa_fact_id : string;
  fa_subject_id : string;
  fa_predicate : string;
  fa_object_value : pyval;
  fa_source : string;
  fa_confidence : spec_float;
  fa_version : Z;
  fa_observed_at : datetime }.

(** The two checks of [assert_fact]. *)
Definition check_fact (source : string) (confidence : spec_float) : outcome unit :=
  if String.eqb source "" then raise ValueError "fact provenance source is required"
  else if negb (SFleb (S754_zero false) confidence &&
                SFleb confidence (S754_finite false 4503599627370496 (-52)))
  then raise ValueError "confidence must be between 0 and 1"
  else Ret tt.

(** The facts about a subject and a predicate, in the order they were asserted. *)
Definition about (subject predicate : string) (f : Fact) : Prop :=
  fa_subject_id f = subject /\ fa_predicate f = predicate.
#[export] Instance about_dec s p f : Decision (about s p f).
Proof. unfold about. apply _. Defined.

(** [max(versions, default=0)] and [COALESCE(MAX(version), 0)] *)
Definition max_version (l : list Z) : Z :=
  match l with [] => 0%Z | v :: l => foldr Z.max v l end.

(** ** [SemanticWorld] *)

Record SemanticWorld := mkWorld {
  sw_entities : gmap string Entity;
  sw_facts : list Fact;
  sw_env : Env }.

Definition new_world (e : Env) : SemanticWorld := mkWorld ∅ [] e.

Definition world_uuid : M SemanticWorld string := fun w =>
  let '(u, e) := uuid4 (sw_env w) in (Ret (uuid_str u), mkWorld (sw_entities w) (sw_facts w) e).
Definition world_now : M SemanticWorld datetime := fun w =>
  let '(t, e) := utc_now (sw_env w) in (Ret t, mkWorld (sw_entities w) (sw_facts w) e).

(** [upsert_entity]: an empty identifier is falsy. *)
Definition upsert_entity (ty : string) (attributes : dict) (id : option string) :
    M SemanticWorld Entity :=
  id <- (match id with
         | Some i => if String.eqb i "" then world_uuid else ret i
         | None => world_uuid
         end) ;;
  w <- get ;;
  let version := match sw_entities w !! id with Some old => (en_version old + 1)%Z | None => 1%Z end in
  let entity := mkEntity id ty attributes version in
  modify (fun w => mkWorld (<[id := entity]> (sw_entities w)) (sw_facts w) (sw_env w)) ;;;
  ret entity.

Definition assert_fact (subject predicate : string) (value : pyval) (source : string)
    (confidence : spec_float) : M SemanticWorld Fact :=
  lift (check_fact source confidence) ;;;
  w <- get ;;
  let version := (1 + max_version (fa_version <$> filter (about subject predicate) (sw_facts w)))%Z in
  id <- world_uuid ;;
  now <- world_now ;;
  let fact := mkFact id subject predicate value source confidence version now in
  modify (fun w => mkWorld (sw_entities w) (sw_facts w ++ [fact]) (sw_env w)) ;;;
  ret fact.

Definition world_entity (id : string) (w : SemanticWorld) : option Entity := sw_entities w !! id.

(** [facts(subject_id, predicate)] *)
Definition wanted (o : option string) (s : string) : bool :=
  match o with Some x => String.eqb s x | None => true end.
Definition world_facts (subject predicate : option string) (w : SemanticWorld) : list Fact :=
  List.filter (fun f => wanted subject (fa_subject_id f) && wanted predicate (fa_predicate f))
    (sw_facts w).

(** ** [KnowledgeWorldStore] *)

Section knowledge.
Context {IF : IsoFormat} {OS : ObjStr}.

Record entity_row := mkEntityRow { nr_type : string; nr_attributes : json_text; nr_version : Z }.

Record fact_row := mkFactRow {
  fr_fact_id : string; fr_subject_id : string; fr_predicate : string; fr_object : json_text;
  fr_source : string; fr_confidence : spec_float; fr_version : Z; fr_observed_at : string }.

Record KnowledgeWorldStore := mkKnowledge {
  kw_entities : gmap string entity_row;
  kw_facts : list fact_row;
  kw_env : Env }.

Definition knowledge_upsert (id ty : string) (attributes : dict) : M KnowledgeWorldStore Entity :=
  k <- get ;;
  let version := match kw_entities k !! id with Some r => (nr_version r + 1)%Z | None => 1%Z end in
  text <- lift (dumps (VDict attributes)) ;;
  modify (fun k => mkKnowledge (<[id := mkEntityRow ty text version]> (kw_entities k)) (kw_facts k)
                     (kw_env k)) ;;;
  ret (mkEntity id ty attributes version).

Definition row_about (subject predicate : string) (r : fact_row) : Prop :=
  fr_subject_id r = subject /\ fr_predicate r = predicate.
#[export] Instance row_about_dec s p r : Decision (row_about s p r).
Proof. unfold row_about. apply _. Defined.

Definition fact_id_of (subject predicate : string) (version : Z) : string :=
  subject +:+ ":" +:+ predicate +:+ ":" +:+ pretty version.

(** The [INSERT] fails when the primary key is taken. *)
Definition insert_fact (r : fact_row) : M KnowledgeWorldStore unit := fun k =>
  if existsb (fun x => String.eqb (fr_fact_id x) (fr_fact_id r)) (kw_facts k)
  then (raise (OtherException "IntegrityError") "UNIQUE constraint failed: world_facts.fact_id", k)
  else (Ret tt, mkKnowledge (kw_entities k) (kw_facts k ++ [r]) (kw_env k)).

Definition knowledge_now : M KnowledgeWorldStore datetime := fun k =>
  let '(t, e) := utc_now (kw_env k) in (Ret t, mkKnowledge (kw_entities k) (kw_facts k) e).

Definition knowledge_assert (subject predicate : string) (value : pyval) (source : string)
    (confidence : spec_float) : M KnowledgeWorldStore Fact :=
  lift (check_fact source confidence) ;;;
  k <- get ;;
  let version := (max_version (fr_version <$> filter (row_about subject predicate) (kw_facts k)) + 1)%Z in
  let id := fact_id_of subject predicate version in
  now <- knowledge_now ;;
  text <- lift (dumps (stringify value)) ;;
  insert_fact (mkFactRow id subject predicate text source confidence version (isoformat now)) ;;;
  ret (mkFact id subject predicate value source confidence version now).

Definition fact_of_row (r : fact_row) : outcome Fact :=
  match fromisoformat (fr_observed_at r) with
  | Some t => Ret (mkFact (fr_fact_id r) (fr_subject_id r) (fr_predicate r) (loads (fr_object r))
                     (fr_source r) (fr_confidence r) (fr_version r) t)
  | None => raise ValueError "Invalid isoformat string"
  end.

Fixpoint facts_of_rows (l : list fact_row) : outcome (list Fact) :=
  match l with
  | [] => Ret []
  | r :: l => f <-? fact_of_row r ;; fs <-? facts_of_rows l ;; Ret (f :: fs)
  end.

Definition version_le (a b : fact_row) : bool := (fr_version a <=? fr_version b)%Z.

(** [SELECT * ... WHERE subject_id=? [AND predicate=?] ORDER BY version] *)
Definition knowledge_facts (subject : string) (predicate : option string) (k : KnowledgeWorldStore) :
    outcome (list Fact) :=
  facts_of_rows (order_by version_le
    (List.filter (fun r => String.eqb (fr_subject_id r) subject && wanted predicate (fr_predicate r))
       (kw_facts k))).

Definition observed_le (a b : fact_row) : bool :=
  bool_decide (str_le (fr_observed_at a) (fr_observed_at b)).

(** [query]: the rows of a predicate whose stored value equals the given one. *)
Definition knowledge_query (predicate : string) (value : pyval) (k : KnowledgeWorldStore) :
    outcome (list Fact) :=
  facts_of_rows (List.filter (fun r => py_eq (loads (fr_object r)) value)
    (order_by observed_le (List.filter (fun r => String.eqb (fr_predicate r) predicate) (kw_facts k)))).

End knowledge.

(** ** The contract of a fact store

    [norm] is what a stored value reads as; [assert] may raise, and then nothing
    is stored. *)

Record same_fact (norm : pyval -> pyval) (f g : Fact) : Prop := mkSameFact {
  sf_id : fa_fact_id g = fa_fact_id f;
  sf_subject : fa_subject_id g = fa_subject_id f;
  sf_predicate : fa_predicate g = fa_predicate f;
  sf_value : fa_object_value g = norm (fa_object_value f);
  sf_source : fa_source g = fa_source f;
  sf_confidence : fa_confidence g = fa_confidence f;
  sf_version : fa_version g = fa_version f;
  sf_observed : fa_observed_at g = fa_observed_at f }.

(** The history of a subject and a predicate: its versions count from one. *)
Definition history_ok (subject predicate : string) (l : list Fact) : Prop :=
  Forall (about subject predicate) l /\ fa_version <$> l = seqZ 1 (Z.of_nat (length l)).

Record fact_contract {S : Type} (norm : pyval -> pyval) (inv : S -> Prop)
    (facts : string -> string -> S -> outcome (list Fact))
    (assert : string -> string -> pyval -> string -> spec_float -> M S Fact) : Prop := mkContract {
  fc_history subject predicate s : inv s ->
    exists l, facts subject predicate s = Ret l /\ history_ok subject predicate l;
  fc_assert subject predicate value source confidence s f s' l :
    inv s -> assert subject predicate value source confidence s = (Ret f, s') ->
    facts subject predicate s = Ret l ->
    source <> "" /\ fa_subject_id f = subject /\ fa_predicate f = predicate /\
    fa_object_value f = value /\ fa_source f = source /\ fa_confidence f = confidence /\
    fa_version f = (Z.of_nat (length l) + 1)%Z /\
    exists g, facts subject predicate s' = Ret (l ++ [g]) /\ same_fact norm f g;
  fc_other subject predicate value source confidence s o s' :
    inv s -> assert subject predicate value source confidence s = (o, s') ->
    inv s' /\ forall subject2 predicate2,
      (match o with Ret _ => (subject2, predicate2) <> (subject, predicate) | Raise _ => True end) ->
      facts subject2 predicate2 s' = facts subject2 predicate2 s }.

(** ** Versions *)

Lemma max_version_spec n l : n ∈ l -> Forall (fun x => (x <= n)%Z) l -> max_version l = n.
Proof.
  destruct l as [|v l]; [by intros ?%not_elem_of_nil|]. intros Hin [Hv Hl]%Forall_cons. cbn [max_version].
  assert ((v <= foldr Z.max v l <= n)%Z /\ forall x, x ∈ l -> (x <= foldr Z.max v l)%Z) as [H1 H2].
  { clear Hin. induction Hl as [|x l Hx _ [IH1 IH2]]; simpl; [split; [lia | by intros x ?%not_elem_of_nil]|].
    split; [lia|]. intros y [->|Hy]%elem_of_cons; [lia|]. specialize (IH2 y Hy). lia. }
  apply elem_of_cons in Hin as [->|Hin]; [lia|]. specialize (H2 _ Hin). lia.
Qed.

Lemma max_version_seqZ n : max_version (seqZ 1 (Z.of_nat n)) = Z.of_nat n.
Proof.
  destruct n as [|n]; [done|]. apply max_version_spec; [apply elem_of_seqZ; lia|].
  apply Forall_forall. intros x Hx%elem_of_seqZ. lia.
Qed.

Lemma seqZ_snoc n : seqZ 1 (Z.of_nat n + 1) = seqZ 1 (Z.of_nat n) ++ [(1 + Z.of_nat n)%Z].
Proof. rewrite seqZ_app by lia. f_equal. Qed.

Lemma check_fact_ret source confidence u : check_fact source confidence = Ret u -> source <> "".
Proof. unfold check_fact. by destruct (String.eqb_spec source ""). Qed.

Lemma history_ok_snoc s p l f : history_ok s p l -> about s p f ->
  fa_version f = (1 + Z.of_nat (length l))%Z -> history_ok s p (l ++ [f]).
Proof.
  intros [Ha Hv] Hf Hn. split; [apply Forall_app; by split; [|constructor]|].
  rewrite fmap_app, Hv, length_app. cbn. rewrite Hn. replace (Z.of_nat (length l + 1)) with (Z.of_nat (length l) + 1)%Z by lia.
  by rewrite seqZ_snoc.
Qed.

(** ** [SemanticWorld] *)

Definition world_inv (w : SemanticWorld) : Prop :=
  forall s p, history_ok s p (filter (about s p) (sw_facts w)).

Definition memory_facts (s p : string) (w : SemanticWorld) : outcome (list Fact) :=
  Ret (world_facts (Some s) (Some p) w).

Lemma memory_facts_about s p w : memory_facts s p w = Ret (filter (about s p) (sw_facts w)).
Proof.
  unfold memory_facts, world_facts. f_equal. induction (sw_facts w) as [|f l IH]; [done|].
  rewrite filter_cons. cbn [List.filter wanted].
  destruct (decide (about s p f)) as [[<- <-]|Hn].
  - rewrite !String.eqb_refl. cbn. f_equal. exact IH.
  - destruct (String.eqb_spec (fa_subject_id f) s), (String.eqb_spec (fa_predicate f) p); try exact IH.
    by destruct Hn.
Qed.

(** A run of [assert_fact]. *)
Lemma assert_fact_run subject predicate value source confidence w :
  match check_fact source confidence with
  | Raise e => assert_fact subject predicate value source confidence w = (Raise e, w)
  | Ret _ => exists f w', assert_fact subject predicate value source confidence w = (Ret f, w') /\
      sw_facts w' = sw_facts w ++ [f] /\ sw_entities w' = sw_entities w /\
      f = mkFact (fa_fact_id f) subject predicate value source confidence
            (1 + max_version (fa_version <$> filter (about subject predicate) (sw_facts w)))
            (fa_observed_at f)
  end.
Proof.
  unfold assert_fact. mred. destruct (check_fact source confidence) as [[]|e]; [|done].
  cbn. do 2 eexists. split; [reflexivity|]. by split_and!.
Qed.

Lemma filter_about_snoc s p l f :
  filter (about s p) (l ++ [f]) = filter (about s p) l ++ (if decide (about s p f) then [f] else []).
Proof. rewrite filter_app, filter_cons. by destruct (decide (about s p f)). Qed.

Lemma semantic_world_contract : fact_contract (fun v => v) world_inv memory_facts assert_fact.
Proof.
  split.
  - intros s p w Hi. rewrite memory_facts_about. by eexists.
  - intros s p v src c w f w' l Hi E. rewrite !memory_facts_about. intros [= <-].
    pose proof (assert_fact_run s p v src c w) as Hr.
    destruct (check_fact src c) as [u|e] eqn:Hc; [|congruence].
    destruct Hr as (f' & w1 & E' & Hf & _ & Hfm). rewrite E in E'. injection E' as <- <-.
    destruct (Hi s p) as [_ Hv]. rewrite Hv, max_version_seqZ in Hfm. rewrite Hfm. cbn.
    split_and!; try done; [by apply check_fact_ret in Hc | lia|].
    eexists. rewrite Hf, filter_about_snoc, decide_True by (by rewrite Hfm).
    split; [done|]. by rewrite Hfm.
  - intros s p v src c w o w' Hi E. pose proof (assert_fact_run s p v src c w) as Hr.
    destruct (check_fact src c) as [u|e] eqn:Hc.
    + destruct Hr as (f & w1 & E' & Hf & _ & Hfm). rewrite E in E'. injection E' as -> <-.
      split.
      * intros s2 p2. rewrite Hf, filter_about_snoc. destruct (decide (about s2 p2 f)) as [Ha|Ha];
          [|by rewrite app_nil_r].
        assert (s2 = s /\ p2 = p) as [-> ->] by (destruct Ha as [<- <-]; by rewrite Hfm).
        apply history_ok_snoc; [apply Hi | done|]. rewrite Hfm. cbn. destruct (Hi s p) as [_ ->].
        by rewrite max_version_seqZ.
      * intros s2 p2 Hne. rewrite !memory_facts_about, Hf, filter_about_snoc, decide_False.
        { by rewrite app_nil_r. }
        intros [<- <-]. apply Hne. by rewrite Hfm.
    + rewrite E in Hr. by injection Hr as -> ->.
Qed.

(** ** [KnowledgeWorldStore] *)

Section knowledge.
Context {IF : IsoFormat} {OS : ObjStr}.
Implicit Types (k : KnowledgeWorldStore) (r : fact_row).

Definition timed r : Prop := exists t, fr_observed_at r = isoformat t.

Record knowledge_inv k : Prop := mkKnowledgeInv {
  ki_versions : forall s p, let l := filter (row_about s p) (kw_facts k) in
    fr_version <$> l = seqZ 1 (Z.of_nat (length l));
  ki_timed : Forall timed (kw_facts k) }.

Definition stored_facts (s p : string) k : outcome (list Fact) := knowledge_facts s (Some p) k.

(** What a stored value reads as. *)
Definition through_json (v : pyval) : pyval :=
  match dumps (stringify v) with Ret t => loads t | Raise _ => v end.

Lemma version_le_sorted l m n : fr_version <$> l = seqZ m n ->
  StronglySorted (fun a b => version_le a b = true) l.
Proof.
  revert m n. induction l as [|r l IH]; intros m n H; [constructor|].
  destruct (Z.lt_ge_cases 0 n) as [Hn|Hn]; [|by rewrite seqZ_nil in H by lia].
  rewrite seqZ_cons in H by lia. cbn in H. injection H as Hr H.
  constructor; [by apply (IH _ _ H)|]. apply Forall_forall. intros x Hx.
  assert (fr_version x ∈ seqZ (Z.succ m) (Z.pred n)) as Hin.
  { rewrite <- H. by apply list_elem_of_fmap_2. }
  apply elem_of_seqZ in Hin. unfold version_le. apply Z.leb_le. lia.
Qed.

Lemma order_by_id {A} (le : A -> A -> bool) l :
  StronglySorted (fun a b => le a b = true) l -> order_by le l = l.
Proof. induction 1 as [|x l _ IH Hx]; [done|]. simpl. rewrite IH. by apply place_below. Qed.

Lemma stored_facts_about s p k : knowledge_inv k ->
  stored_facts s p k = facts_of_rows (filter (row_about s p) (kw_facts k)).
Proof.
  intros [Hv _]. unfold stored_facts, knowledge_facts.
  assert (List.filter (fun r => String.eqb (fr_subject_id r) s && wanted (Some p) (fr_predicate r))
    (kw_facts k) = filter (row_about s p) (kw_facts k)) as ->.
  { clear Hv. induction (kw_facts k) as [|r l IH]; [done|].
    rewrite filter_cons. cbn [List.filter wanted] in *. destruct (decide (row_about s p r)) as [[<- <-]|Hn].
    - rewrite !String.eqb_refl. cbn. f_equal. exact IH.
    - destruct (String.eqb_spec (fr_subject_id r) s), (String.eqb_spec (fr_predicate r) p); try exact IH.
      by destruct Hn. }
  by rewrite (order_by_id _ _ (version_le_sorted _ _ _ (Hv s p))).
Qed.

Lemma fact_of_row_timed r : timed r -> exists f, fact_of_row r = Ret f /\
  fa_subject_id f = fr_subject_id r /\ fa_predicate f = fr_predicate r /\ fa_version f = fr_version r.
Proof. intros [t E]. unfold fact_of_row. rewrite E, fromisoformat_isoformat. by eexists. Qed.

Lemma facts_of_rows_timed l : Forall timed l -> exists fs, facts_of_rows l = Ret fs /\
  fa_version <$> fs = fr_version <$> l /\ length fs = length l /\
  forall s p, Forall (row_about s p) l -> Forall (about s p) fs.
Proof.
  induction 1 as [|r l Hr _ (fs & E & Hv & Hl & Ha)]; [by exists []|].
  destruct (fact_of_row_timed r Hr) as (f & Ef & H1 & H2 & H3). exists (f :: fs). cbn.
  rewrite Ef, E. cbn. split; [done|]. split; [f_equal; [done | exact Hv]|]. split; [by rewrite Hl|].
  intros s p [[Hs Hp] Hall]%Forall_cons. constructor; [split; congruence | by apply Ha].
Qed.

Lemma facts_of_rows_snoc l r : facts_of_rows (l ++ [r]) =
  (fs <-? facts_of_rows l ;; f <-? fact_of_row r ;; Ret (fs ++ [f])).
Proof.
  induction l as [|x l IH]; cbn.
  - by destruct (fact_of_row r).
  - destruct (fact_of_row x); cbn; [|done]. rewrite IH. destruct (facts_of_rows l); cbn; [|done].
    by destruct (fact_of_row r).
Qed.

Lemma str_app_assoc (a b c : string) : (a +:+ b) +:+ c = a +:+ (b +:+ c).
Proof. induction a as [|x a IH]; [done|]. exact (f_equal (String x) IH). Qed.

(** The identifier depends on the joined text only. *)
Lemma fact_id_text s p version : fact_id_of s p version = (s +:+ ":" +:+ p) +:+ (":" +:+ pretty version).
Proof. unfold fact_id_of. by rewrite !str_app_assoc. Qed.

(** The row [assert_fact] inserts. *)
Definition new_fact_row (s p : string) (v : pyval) (src : string) (c : spec_float) (now : datetime) k :
    fact_row :=
  let version := (max_version (fr_version <$> filter (row_about s p) (kw_facts k)) + 1)%Z in
  mkFactRow (fact_id_of s p version) s p (JsonText (through_json v)) src c version (isoformat now).

Lemma knowledge_assert_run s p v src c k :
  let now := clock (kw_env k) (ticks (kw_env k)) in let r := new_fact_row s p v src c now k in
  exists o k', knowledge_assert s p v src c k = (o, k') /\ kw_entities k' = kw_entities k /\
    match o with
    | Ret f => check_fact src c = Ret tt /\ kw_facts k' = kw_facts k ++ [r] /\
        f = mkFact (fr_fact_id r) s p v src c (fr_version r) now /\
        forall x, x ∈ kw_facts k -> fr_fact_id x <> fr_fact_id r
    | Raise e => kw_facts k' = kw_facts k /\ (check_fact src c = Raise e \/
        exn_cls e = OtherException "IntegrityError" /\ exists x, x ∈ kw_facts k /\ fr_fact_id x = fr_fact_id r)
    end.
Proof.
  intros now r. unfold knowledge_assert. mred. destruct (check_fact src c) as [[]|e] eqn:Hc.
  2: { do 2 eexists. split; [reflexivity|]. split; [done|]. split; [done | by left]. }
  cbn -[fact_id_of]. assert (dumps (stringify v) = Ret (JsonText (through_json v))) as ->.
  { unfold through_json, dumps. destruct (json_norm_stringify v) as [w ->]. done. }
  unfold insert_fact. cbn -[fact_id_of]. destruct (existsb _ _) eqn:Ex.
  - do 2 eexists. split; [reflexivity|]. split; [done|]. split; [done|]. right. split; [done|].
    apply existsb_exists in Ex as (x & Hx & Heq%String.eqb_eq). exists x. split; [by apply list_elem_of_In | done].
  - do 2 eexists. split; [reflexivity|]. split_and!; try done. intros x Hx Hid.
    eapply (proj2 (not_true_iff_false _) Ex), existsb_exists. exists x.
    split; [by apply list_elem_of_In | by apply String.eqb_eq].
Qed.

Lemma filter_row_snoc s p l r :
  filter (row_about s p) (l ++ [r]) =
  filter (row_about s p) l ++ (if decide (row_about s p r) then [r] else []).
Proof. rewrite filter_app, filter_cons. by destruct (decide (row_about s p r)). Qed.

Lemma knowledge_inv_snoc k k' s p v src c now : knowledge_inv k ->
  kw_facts k' = kw_facts k ++ [new_fact_row s p v src c now k] -> knowledge_inv k'.
Proof.
  intros [Hv Ht] E. split.
  - intros s2 p2. cbn zeta. rewrite E, filter_row_snoc.
    destruct (decide (row_about s2 p2 _)) as [[<- <-]|Hn]; [|rewrite app_nil_r; apply Hv].
    cbn [fr_subject_id fr_predicate new_fact_row]. rewrite fmap_app, length_app, (Hv s p). cbn -[seqZ].
    rewrite (Hv s p), max_version_seqZ.
    replace (Z.of_nat (length (filter (row_about s p) (kw_facts k)) + 1))
      with (Z.of_nat (length (filter (row_about s p) (kw_facts k))) + 1)%Z by lia.
    rewrite seqZ_snoc. do 2 f_equal. lia.
  - rewrite E. apply Forall_app. split; [done|]. constructor; [by exists now | done].
Qed.

Lemma knowledge_world_contract :
  fact_contract through_json knowledge_inv stored_facts knowledge_assert.
Proof.
  split.
  - intros s p k Hi. rewrite stored_facts_about by done. pose proof Hi as [Hv Ht].
    destruct (facts_of_rows_timed (filter (row_about s p) (kw_facts k))) as (fs & E & Hfv & Hl & Ha).
    { apply Forall_forall. intros r [_ Hr]%list_elem_of_filter. by apply (proj1 (Forall_forall _ _) Ht). }
    exists fs. split; [done|]. split; [apply Ha, Forall_forall; by intros r [? _]%list_elem_of_filter | by rewrite Hfv, Hl, (Hv s p)].
  - intros s p v src c k f k' l Hi E Hl.
    destruct (knowledge_assert_run s p v src c k) as (o & k1 & E1 & _ & Ho). rewrite E in E1.
    injection E1 as <- <-. destruct Ho as (Hc & Hf & -> & _).
    pose proof (knowledge_inv_snoc _ _ _ _ _ _ _ _ Hi Hf) as Hi'.
    rewrite stored_facts_about in Hl by done. pose proof Hi as [Hv Ht].
    destruct (facts_of_rows_timed (filter (row_about s p) (kw_facts k))) as (fs & E2 & _ & Hn & _).
    { apply Forall_forall. intros r [_ Hr]%list_elem_of_filter. by apply (proj1 (Forall_forall _ _) Ht). }
    rewrite Hl in E2. injection E2 as <-. cbn -[fact_id_of].
    rewrite (Hv s p), max_version_seqZ, Hn. split_and!; try done; [by apply check_fact_ret in Hc|].
    rewrite stored_facts_about, Hf, filter_row_snoc, decide_True by done.
    rewrite facts_of_rows_snoc, Hl. cbn [out_bind]. unfold fact_of_row at 1. cbn [fr_observed_at new_fact_row].
    rewrite fromisoformat_isoformat. eexists. split; [reflexivity|].
    split; cbn -[fact_id_of]; rewrite ?(Hv s p), ?max_version_seqZ, ?Hn; done.
  - intros s p v src c k o k' Hi E.
    destruct (knowledge_assert_run s p v src c k) as (o1 & k1 & E1 & _ & Ho). rewrite E in E1.
    injection E1 as <- <-. destruct o as [f|e].
    + destruct Ho as (_ & Hf & _ & _). pose proof (knowledge_inv_snoc _ _ _ _ _ _ _ _ Hi Hf) as Hi'.
      split; [done|]. intros s2 p2 Hne. rewrite !stored_facts_about by done.
      rewrite Hf, filter_row_snoc, decide_False; [by rewrite app_nil_r|]. intros [<- <-]. by apply Hne.
    + destruct Ho as [Hf _]. assert (knowledge_inv k') as Hi'.
      { destruct Hi as [Hv Ht]. by split; rewrite Hf. }
      split; [done|]. intros s2 p2 _. rewrite !stored_facts_about by done. by rewrite Hf.
Qed.
End knowledge.
