(* ===== verification/Lifecycle.v ===== *)
(** * The production lifecycle: [ois/control_plane/lifecycle.py]

    [OISProductionLifecycle] joins the control plane, the kernel's runtime and
    the production controls: an execution is resolved, recorded, run by the
    runtime under the production policy and assessed; a rollout is decided from
    the results of executions; a worker executes the items of a lease queue.

    The evidence ledger, the semantic world and the runtime draw their clock
    readings and random identifiers from streams of their own. *)

From stdpp Require Import base gmap strings list.
From Stdlib Require Import ZArith Lia Floats.SpecFloat.
From S2P Require Import Prelude Uuid Json Types State Recovery Policy Stores Registry Fencing Runtime.
From S2P Require Import Integrated Workers Deployment SemanticWorld.
Local Open Scope py_scope.

(** ** [KernelRegistryAdapter] *)

Definition adapter_get (registry : list (CapabilityEntry Capability)) (id version : string) :
    outcome (CapabilityEntry Capability) :=
  entry <-? get_entry id version registry ;;
  match ce_contract entry with
  | None => raise TypeError ("registered capability has no contract: " +:+ id +:+ "@" +:+ version)
  | Some _ => Ret entry
  end.

(** ** [KernelEvidenceBridge] *)

Section bridge.
Context {LD : LedgerDigest} {IF : IsoFormat}.

(** [{**dict(event.data), "kernel_event_id": ..., ...}] *)
Definition bridge_payload (e : EvidenceEvent) : dict :=
  dset "causation_id" (opt_str (ev_causation_id e))
    (dset "correlation_id" (opt_str (ev_correlation_id e))
      (dset "timestamp" (VStr (isoformat (ev_timestamp e)))
        (dset "component" (VStr (ev_component e))
          (dset "actor" (VStr (ev_actor e))
            (dset "kernel_event_id" (VStr (uuid_str (ev_event_id e))) (ev_data e)))))).

(** [append]: the ledger gives the event an identifier and a time of its own. *)
Definition bridge_append (e : EvidenceEvent) (l : EvidenceLedger) : outcome EvidenceLedger :=
  match ledger_append (uuid_str (ev_execution_id e)) (ev_event_type e) (bridge_payload e) l with
  | (Ret _, l') => Ret l'
  | (Raise x, _) => Raise x
  end.

Definition bridge_keys : list string :=
  ["kernel_event_id"; "actor"; "component"; "timestamp"; "correlation_id"; "causation_id"].

(** [str(event.payload.get(key, default))] and the [cast] of [payload.get(key)];
    a value of another type counts as a [TypeError]. *)
Definition payload_str (key default : string) (d : dict) : outcome string :=
  match dget key d with
  | None => Ret default
  | Some v => match py_str v with Some s => Ret s | None => raise TypeError key end
  end.
Definition payload_opt (key : string) (d : dict) : outcome (option string) :=
  match dget key d with
  | None | Some VNone => Ret None
  | Some (VStr s) => Ret (Some s)
  | Some _ => raise TypeError key
  end.

Definition bridge_event (e : LedgerEvent) : outcome EvidenceEvent :=
  eid <-? uuid_parse (le_execution_id e) ;;
  id <-? uuid_parse (le_event_id e) ;;
  actor <-? payload_str "actor" "kernel" (le_payload e) ;;
  component <-? payload_str "component" "ois.kernel" (le_payload e) ;;
  correlation <-? payload_opt "correlation_id" (le_payload e) ;;
  causation <-? payload_opt "causation_id" (le_payload e) ;;
  Ret (mkEvent eid (le_event_type e) (le_timestamp e) id actor component
         (filter (fun kv : string * pyval => fst kv ∉ bridge_keys) (le_payload e)) correlation causation).

Fixpoint bridge_events (l : list LedgerEvent) : outcome (list EvidenceEvent) :=
  match l with
  | [] => Ret []
  | e :: l => x <-? bridge_event e ;; xs <-? bridge_events l ;; Ret (x :: xs)
  end.

(** [list] *)
Definition bridge_list (i : option uuid) (l : EvidenceLedger) : outcome (list EvidenceEvent) :=
  bridge_events (ledger_events (uuid_str <$> i) l).

(** [record] builds the event from the clock and a random identifier and
    appends it, as in the stores of the kernel. *)
#[export] Instance KernelEvidenceBridge : EvidenceStore EvidenceLedger :=
  {| ev_append := bridge_append; ev_list := bridge_list |}.
End bridge.

(** ** [ProductionPolicyAdapter] *)

(** The texts of an iterable of values: [str(x) for x in v]. *)
Fixpoint chars (s : string) : list string :=
  match s with EmptyString => [] | String a s => String a EmptyString :: chars s end.

Definition texts (l : list pyval) : outcome (list string) :=
  match mapM py_str l with Some k => Ret k | None => raise TypeError "str" end.

Definition meta_strings (v : option pyval) : outcome (gset string) :=
  match v with
  | None => Ret ∅
  | Some (VTuple l) | Some (VList l) => k <-? texts l ;; Ret (list_to_set k)
  | Some (VDict d) => Ret (list_to_set (dkeys d))
  | Some (VStr s) => Ret (list_to_set (chars s))
  | Some _ => raise TypeError "object is not iterable"
  end.

(** [{str(k): str(v) for k, v in dict(v).items()}]; what is no dictionary
    counts as a [TypeError]. *)
Fixpoint text_items (d : dict) : outcome (gmap string string) :=
  match d with
  | [] => Ret ∅
  | (k, v) :: d =>
      m <-? text_items d ;;
      match py_str v with
      | Some s => Ret (match m !! k with Some _ => m | None => <[k := s]> m end)
      | None => raise TypeError "str"
      end
  end.

Definition meta_attributes (v : option pyval) : outcome (gmap string string) :=
  match v with
  | None => Ret ∅
  | Some (VDict d) => text_items d
  | Some _ => raise TypeError "object is not a mapping"
  end.

Definition meta_text (key default : string) (md : dict) : outcome string := payload_str key default md.

(** The subject the metadata of the execution describes. *)
Definition request_subject (rq : InvocationRequest) : outcome Subject :=
  let md := metadata (rq_execution rq) in
  id <-? meta_text "subject_id" "system" md ;;
  roles <-? meta_strings (dget "roles" md) ;;
  attributes <-? meta_attributes (dget "attributes" md) ;;
  permissions <-? meta_strings (dget "permissions" md) ;;
  Ret (mkSubject id (tenant_id (identity (rq_execution rq))) roles attributes permissions).

(** [contract.permissions[0] if contract.permissions else "execution.invoke"] *)
Definition required_permission (k : CapabilityContract) : string :=
  match permissions k with p :: _ => p | [] => "execution.invoke" end.

Definition production_policy (fallback : InvocationRequest -> CapabilityContract -> outcome bool)
    (rq : InvocationRequest) (k : CapabilityContract) : outcome bool :=
  sj <-? request_subject rq ;;
  environment <-? meta_text "environment" "staging" (metadata (rq_execution rq)) ;;
  _ <-? rbac_authorize sj
          (mkAuthPolicy (required_permission k) None [("environment", environment)]) ;;
  fallback rq k.

(** ** [OISProductionLifecycle] *)

Record LifecycleResult := mkLifecycleResult {
  lr_result : InvocationResult;
  lr_execution_id : string;
  lr_evidence_event_ids : list string;
  lr_semantic_entity_id : string;
  lr_learning_state : string }.

Record LifecycleRollout := mkLifecycleRollout {
  lo_candidate : string;
  lo_decision : CanaryDecision;
  lo_state : string;
  lo_execution_ids : list string;
  lo_evidence_event_ids : list string }.

(** What the constructor is given: the registry of the control plane, the
    registry for the runtime, the policy ([ProductionPolicyAdapter] by default)
    and the canary. *)
Record Lifecycle := mkLifecycle {
  lf_plane : list (CapabilityEntry Capability);
  lf_capabilities : list (CapabilityEntry Capability);
  lf_policy : InvocationRequest -> CapabilityContract -> outcome bool;
  lf_canary : CanaryController }.

Definition lifecycle_runtime (lf : Lifecycle) : Runtime :=
  mkRuntime (adapter_get (lf_capabilities lf)) (lf_policy lf) default_recovery_policy None.

Section lifecycle.
Context {LD : LedgerDigest} {IF : IsoFormat}.
Context {CS IS D : Type} `{!CheckpointStore CS} `{!IdempotencyStore IS} {DA : DeploymentAdapter D}.

(** The ledger and the adapter are shared with the [ProductionControlPlane]. *)
Record LifecycleState := mkLifecycleState {
  lc_plane : PlaneState D;
  lc_world : SemanticWorld;
  lc_checkpoints : CS;
  lc_idempotency : IS;
  lc_token : CancellationToken;
  lc_env : Env }.

Definition on_plane {A} (m : M (PlaneState D) A) : M LifecycleState A := fun s =>
  let '(o, p) := m (lc_plane s) in
  (o, mkLifecycleState p (lc_world s) (lc_checkpoints s) (lc_idempotency s) (lc_token s) (lc_env s)).
Definition on_world {A} (m : M SemanticWorld A) : M LifecycleState A := fun s =>
  let '(o, w) := m (lc_world s) in
  (o, mkLifecycleState (lc_plane s) w (lc_checkpoints s) (lc_idempotency s) (lc_token s) (lc_env s)).

(** [self.evidence.append] *)
Definition append_evidence (eid ty : string) (payload : dict) : M LifecycleState unit :=
  _ <- on_plane (on_ledger (ledger_append eid ty payload)) ;; ret tt.

(** A call of the runtime on the context: the context itself is local to
    [execute]. *)
Definition on_runtime {A} (m : M (RunState EvidenceLedger CS IS) A) (c : ExecutionContext) :
    M LifecycleState (A * ExecutionContext) := fun s =>
  let '(o, r) := m (mkRun c (lc_token s) (ps_ledger (lc_plane s)) (lc_checkpoints s)
                      (lc_idempotency s) (lc_env s) 0) in
  let s' := mkLifecycleState (mkPlane (rs_evidence r) (ps_deployment (lc_plane s))) (lc_world s)
              (rs_checkpoints r) (rs_idempotency r) (rs_token r) (rs_env r) in
  match o with
  | Ret a => (Ret (a, rs_context r), s')
  | Raise e => (Raise e, s')
  end.

Definition lifecycle_uuid : M LifecycleState uuid := fun s =>
  let '(u, e) := uuid4 (lc_env s) in
  (Ret u, mkLifecycleState (lc_plane s) (lc_world s) (lc_checkpoints s) (lc_idempotency s)
            (lc_token s) e).
Definition lifecycle_now : M LifecycleState datetime := fun s =>
  let '(t, e) := utc_now (lc_env s) in
  (Ret t, mkLifecycleState (lc_plane s) (lc_world s) (lc_checkpoints s) (lc_idempotency s)
            (lc_token s) e).

(** Who asks for an execution; the sets are in the order of their iteration. *)
Record Requester := mkRequester {
  rr_subject_id : string;
  rr_roles : list string;
  rr_permissions : list string;
  rr_environment : string;
  rr_attributes : list (string * string) }.

Definition requester_metadata (r : Requester) : dict := [
  ("subject_id", VStr (rr_subject_id r)); ("roles", VTuple (VStr <$> rr_roles r));
  ("permissions", VTuple (VStr <$> rr_permissions r)); ("environment", VStr (rr_environment r));
  ("attributes", VDict ((fun kv => (fst kv, VStr (snd kv))) <$> rr_attributes r))].

Definition lifecycle_context (objective tenant : string) (r : Requester) :
    M LifecycleState ExecutionContext :=
  u <- lifecycle_uuid ;;
  t1 <- lifecycle_now ;;
  t2 <- lifecycle_now ;;
  ret (with_metadata (requester_metadata r)
         (new_context (mkIdentity u tenant (Some "ois.production.lifecycle") (Some "1.0.0"))
            objective t1 t2)).

(** The key under which the runtime stores the result. *)
Definition lifecycle_key (tenant : string) (r : ControlRequest) (invocation : string) : string :=
  tenant +:+ ":" +:+ cr_capability_id r +:+ ":" +:+ cr_capability_version r +:+ ":" +:+ invocation.

Definition subject_name (r : ControlRequest) : string :=
  "capability:" +:+ cr_capability_id r +:+ "@" +:+ cr_capability_version r.

Definition one : spec_float := S754_finite false 4503599627370496 (-52).
Definition half : spec_float := S754_finite false 4503599627370496 (-53).

Definition execution_learning (r : ControlRequest) (ok : bool) : string :=
  loop_candidate
    (loop_evaluate (subject_name r) [mkMeasurement "execution_success" (if ok then one else S754_zero false)]
       (S754_zero false) half) false.

Variable lf : Lifecycle.

(** From the runtime's answer to the result of the lifecycle. *)
Definition assess (r : ControlRequest) (entity : string) (c : ExecutionContext)
    (result : InvocationResult) : M LifecycleState LifecycleResult :=
  let ok := succeeded result in
  on_world (assert_fact entity "execution.succeeded" (VBool ok)
              ("kernel:" +:+ ir_invocation_id result) one) ;;;
  let state := execution_learning r ok in
  (if ok then _ <- on_runtime (Runtime.complete (lifecycle_runtime lf) None) c ;; ret tt else ret tt) ;;;
  s <- get ;;
  let eid := uuid_str (execution_id (identity c)) in
  ret (mkLifecycleResult result eid
         (le_event_id <$> ledger_events (Some eid) (ps_ledger (lc_plane s))) entity state).

(** [execute] *)
Definition lifecycle_execute (r : ControlRequest) (objective tenant : string)
    (invocation_id : option string) (who : Requester) : M LifecycleState LifecycleResult :=
  lift (resolve_capability capability_callables r (lf_plane lf)) ;;;
  c <- lifecycle_context objective tenant who ;;
  let eid := uuid_str (execution_id (identity c)) in
  inv <- (match invocation_id with
          | Some i => if String.eqb i "" then u <- lifecycle_uuid ;; ret (uuid_str u) else ret i
          | None => u <- lifecycle_uuid ;; ret (uuid_str u)
          end) ;;
  entity <- on_world (upsert_entity "execution"
              [("execution_id", VStr eid); ("objective", VStr objective)] None) ;;
  append_evidence eid "control_plane.request.accepted"
    [("capability_id", VStr (cr_capability_id r)); ("version", VStr (cr_capability_version r));
     ("tenant_id", VStr tenant)] ;;;
  on_world (assert_fact (en_entity_id entity) "execution.accepted" (VBool true) "control_plane" one) ;;;
  a <- on_runtime (Runtime.execute (lifecycle_runtime lf) None (cr_capability_id r) (cr_capability_version r)
                     (cr_input r) (Some inv) (Some (lifecycle_key tenant r inv))) c ;;
  assess r (en_entity_id entity) (snd a) (fst a).

(** ** [rollout_from_executions] *)

Definition count_successes (l : list LifecycleResult) : Z :=
  Z.of_nat (length (filter (fun x => ir_status (lr_result x) = INV_SUCCEEDED) l)).

Definition rollout_from_executions (candidate environment previous : string)
    (executions : list LifecycleResult) (traffic_percent : Z) (latency_ms : spec_float)
    (sj : Subject) : M LifecycleState LifecycleRollout :=
  let ids := lr_execution_id <$> executions in
  let rid := rollout_id candidate environment in
  append_evidence rid "rollout.canary.started"
    [("candidate", VStr candidate); ("traffic_percent", VInt traffic_percent);
     ("execution_ids", VList (VStr <$> ids))] ;;;
  d <- lift (canary_decide (lf_canary lf) candidate traffic_percent (count_successes executions)
               (Z.of_nat (length executions)) latency_ms) ;;
  state <- (if negb (cn_passed d) then
      append_evidence rid "rollout.canary.failed" (rate_payload d latency_ms) ;;;
      r <- on_plane (plane_rollback sj previous environment) ;;
      append_evidence rid "rollout.rollback.verified"
        [("target", VStr previous); ("deployment_evidence", VList (VStr <$> dr_evidence_ids r))] ;;;
      ret "ROLLED_BACK"
    else
      append_evidence rid "rollout.canary.passed" (rate_payload d latency_ms) ;;;
      r <- on_plane (activate sj candidate environment (Some previous)) ;;
      append_evidence rid "rollout.promoted"
        [("candidate", VStr candidate); ("deployment_evidence", VList (VStr <$> dr_evidence_ids r))] ;;;
      ret "PROMOTED") ;;
  s <- get ;;
  ret (mkLifecycleRollout candidate d state ids
         (le_event_id <$> ledger_events (Some rid) (ps_ledger (lc_plane s)))).

(** ** [worker] *)

(** The readings of the payload of a work item: [str(payload[key])], optional
    texts, sets of texts and dictionaries; a value the arguments of [execute]
    cannot hold counts as a [TypeError]. *)
Definition item_str (key : string) (d : dict) : outcome string :=
  match dget key d with
  | None => raise KeyError key
  | Some v => match py_str v with Some s => Ret s | None => raise TypeError key end
  end.

Definition item_dict (key : string) (d : dict) : outcome dict :=
  match dget key d with
  | None => Ret []
  | Some (VDict x) => Ret x
  | Some _ => raise TypeError "object is not a mapping"
  end.

Definition item_request (d : dict) : outcome ControlRequest :=
  id <-? item_str "capability_id" d ;;
  version <-? item_str "capability_version" d ;;
  input <-? item_dict "input" d ;;
  Ret (mkControlRequest id version input).

Definition item_requester (d : dict) : outcome Requester :=
  subject <-? payload_str "subject_id" "worker" d ;;
  roles <-? meta_strings (dget "roles" d) ;;
  permissions <-? meta_strings (dget "permissions" d) ;;
  environment <-? payload_str "environment" "staging" d ;;
  attributes <-? meta_attributes (dget "attributes" d) ;;
  Ret (mkRequester subject (elements roles) (elements permissions) environment
         (map_to_list attributes)).

(** The handler of [worker]; the arguments are evaluated in the order of the
    call. *)
Definition lifecycle_handle (d : dict) : M LifecycleState LifecycleResult :=
  r <- lift (item_request d) ;;
  objective <- lift (payload_str "objective" "worker execution" d) ;;
  tenant <- lift (payload_str "tenant_id" "default" d) ;;
  invocation <- lift (payload_opt "invocation_id" d) ;;
  who <- lift (item_requester d) ;;
  lifecycle_execute r objective tenant invocation who.

(** The handler on the state of a worker: it leaves the queue alone. *)
Definition lifecycle_handler (d : dict) : M (LeaseQueue LifecycleResult * LifecycleState) LifecycleResult :=
  fun s => let '(o, x) := lifecycle_handle d (snd s) in (o, (fst s, x)).

(** [worker(queue, worker_id).run_once()] *)
Definition lifecycle_worker (worker_id : string) :
    M (LeaseQueue LifecycleResult * LifecycleState) bool := run_once worker_id lifecycle_handler.

End lifecycle.

Arguments LifecycleState : clear implicits.
