(* ===== verification/LifecycleFacts.v ===== *)
(** * Facts about the production lifecycle

    What a call of the lifecycle does to the ledger and the deployment, what a
    successful execution implies, and what the bridge gives back. *)

From stdpp Require Import base gmap strings list relations.
From Stdlib Require Import ZArith Lia Floats.SpecFloat.
From S2P Require Import Prelude Uuid Json Types State Recovery Policy Validation Stores Registry.
From S2P Require Import Fencing Runtime RuntimeFacts RuntimeRuns Integrated Workers.
From S2P Require Import Deployment SemanticWorld Lifecycle.
Local Open Scope py_scope.

Section facts.
Context {LD : LedgerDigest} {IF : IsoFormat}.
Context {CS IS D : Type} `{!CheckpointStore CS} `{!IdempotencyStore IS} {DA : DeploymentAdapter D}.
Abbreviation St := (LifecycleState CS IS D).

(** ** The ledger and the deployment *)

(** The steps of the plane in a call that asks for the releases [asked]. *)
Definition plane_moves (asked : Subject -> release -> Prop) (s s' : St) : Prop :=
  rtc (plane_step asked) (lc_plane s) (lc_plane s').

#[export] Instance plane_moves_preorder asked : PreOrder (plane_moves asked).
Proof.
  split; [intros s; apply rtc_refl|]. intros s1 s2 s3 H1 H2.
  exact (transitivity (R := rtc (plane_step asked)) H1 H2).
Qed.

(** Nothing is released. *)
Definition no_release (_ : Subject) (_ : release) : Prop := False.

Definition same_deployment (s s' : St) : Prop :=
  ps_deployment (lc_plane s') = ps_deployment (lc_plane s).

#[export] Instance same_deployment_preorder : PreOrder same_deployment.
Proof. split; [by intros s|]. intros s1 s2 s3. unfold same_deployment. congruence. Qed.

(** Both at once: what [execute] does. *)
Definition plane_records (s s' : St) : Prop := plane_moves no_release s s' /\ same_deployment s s'.

#[export] Instance plane_records_preorder : PreOrder plane_records.
Proof.
  split; [intros s; split; reflexivity|]. intros s1 s2 s3 [H1 H2] [H3 H4]. split; etransitivity; eauto.
Qed.

Lemma bridge_plane_step e l l' (d : D) :
  bridge_append e l = Ret l' -> plane_step no_release (mkPlane l d) (mkPlane l' d).
Proof.
  unfold bridge_append. intros H.
  pose proof (step_evidence no_release (uuid_str (ev_execution_id e)) (ev_event_type e) (bridge_payload e) l d) as Hs.
  destruct (ledger_append _ _ _ _) as [[x|x] l1]; [|done]. injection H as <-. exact Hs.
Qed.

Lemma runtime_plane rt (r r' : RunState EvidenceLedger CS IS) (d : D) :
  guarded_run rt None r r' -> rtc (plane_step no_release) (mkPlane (rs_evidence r) d) (mkPlane (rs_evidence r') d).
Proof.
  set (Q (r r' : RunState EvidenceLedger CS IS) :=
         rtc (plane_step no_release) (mkPlane (rs_evidence r) d) (mkPlane (rs_evidence r') d)).
  assert (PreOrder Q) by (split; [intros ?; apply rtc_refl | intros ???; unfold Q; by etransitivity]).
  apply (guarded_run_ind rt None Q); unfold Q; [by intros ? ? (-> & _)|].
  intros ? ? [a b (E & _) _ | a b _ (E & _) _ | a b e E _ _ _ | a b _ _ _ E _ | a b k x _ _ _ _ E _]; try by rewrite E.
  by apply rtc_once, (bridge_plane_step e).
Qed.

Lemma records_runtime {A} rt (m : M (RunState EvidenceLedger CS IS) A) c :
  keeps (guarded_run rt None) m -> keeps plane_records (on_runtime m c).
Proof.
  intros Hm s. unfold on_runtime. set (r := mkRun _ _ _ _ _ _ _). specialize (Hm r).
  destruct (m r) as [[a|e] r']; cbn [snd] in *;
    (split; [|done]); pose proof (runtime_plane rt r r' (ps_deployment (lc_plane s)) Hm) as H;
    unfold plane_moves; destruct (lc_plane s); exact H.
Qed.

Lemma records_world {A} (m : M SemanticWorld A) : keeps plane_records (on_world m).
Proof. intros s. unfold on_world. destruct (m (lc_world s)). split; [apply rtc_refl | done]. Qed.

Lemma records_uuid : keeps plane_records lifecycle_uuid.
Proof. intros s. split; [apply rtc_refl | done]. Qed.
Lemma records_now : keeps plane_records lifecycle_now.
Proof. intros s. split; [apply rtc_refl | done]. Qed.

Lemma moves_plane {A} asked (m : M (PlaneState D) A) :
  keeps (rtc (plane_step asked)) m -> keeps (plane_moves asked) (on_plane (CS := CS) (IS := IS) m).
Proof. intros Hm s. specialize (Hm (lc_plane s)). unfold on_plane. by destruct (m (lc_plane s)). Qed.

Lemma records_append eid ty payload : keeps plane_records (append_evidence eid ty payload).
Proof.
  unfold append_evidence. apply keeps_bind; [apply _ | | intros ?; apply keeps_ret; apply _].
  intros s. pose proof (refines_append no_release eid ty payload (lc_plane s)) as H. unfold on_plane.
  destruct (on_ledger _ (lc_plane s)) as [o p] eqn:E. cbn [snd] in *. split; [done|].
  unfold on_ledger in E. unfold same_deployment. destruct (ledger_append _ _ _ _). by injection E as _ <-.
Qed.

Hint Resolve records_world records_uuid records_now records_append : ois.

Lemma plane_moves_append asked eid ty payload : keeps (plane_moves asked) (append_evidence eid ty payload).
Proof.
  unfold append_evidence. apply keeps_bind; [apply _ | | intros ?; apply keeps_ret; apply _].
  apply moves_plane, refines_append.
Qed.

Variable lf : Lifecycle.

Lemma records_assess r entity c result : keeps plane_records (assess lf r entity c result).
Proof.
  assert (keeps plane_records (on_runtime (Runtime.complete (lifecycle_runtime lf) None) c)) as Hc.
  { apply (records_runtime (lifecycle_runtime lf)). intros ?. apply guarded_complete. }
  unfold assess. keeps_auto.
Qed.

Lemma records_execute r objective tenant inv who :
  keeps plane_records (lifecycle_execute lf r objective tenant inv who).
Proof.
  pose proof records_assess. unfold lifecycle_execute, lifecycle_context.
  assert (forall cap v i input k c, keeps plane_records
    (on_runtime (Runtime.execute (lifecycle_runtime lf) None cap v input i k) c)) as He.
  { intros. apply (records_runtime (lifecycle_runtime lf)). intros ?. apply guarded_execute. }
  keeps_auto.
Qed.

Lemma records_handle d : keeps plane_records (lifecycle_handle lf d).
Proof. pose proof records_execute. unfold lifecycle_handle. keeps_auto. Qed.

Lemma moves_rollout candidate environment previous l pct lat sj :
  keeps (plane_moves (rollout_release sj candidate environment previous))
    (rollout_from_executions lf candidate environment previous l pct lat sj).
Proof.
  set (asked := rollout_release sj candidate environment previous).
  pose proof (plane_moves_append asked) as Ha.
  assert (keeps (plane_moves asked) (on_plane (plane_rollback sj previous environment))) as Hr.
  { apply moves_plane, refines_rollback. by split; [|right]. }
  assert (keeps (plane_moves asked) (on_plane (activate sj candidate environment (Some previous)))) as Hc.
  { apply moves_plane, refines_activate. by split; [|left]. }
  unfold rollout_from_executions. keeps_auto.
Qed.

(** The handler of a worker leaves the queue alone. *)
Lemma lifecycle_handler_quiet d (s : LeaseQueue LifecycleResult * St) : same_work (fst s) (fst (snd (lifecycle_handler lf d s))).
Proof.
  unfold lifecycle_handler. destruct (lifecycle_handle lf d (snd s)). cbn [fst snd].
  split; [done | done |]. induction (lq_items (fst s)) as [|it items IH]; constructor; [|done].
  exists (wi_payload it). by destruct it.
Qed.


(** ** A call of [execute] that returns *)

(** The facts an execution leaves about its entity. *)
Definition fact_says (entity predicate source : string) (value : bool) (f : Fact) : Prop :=
  fa_subject_id f = entity /\ fa_predicate f = predicate /\ fa_source f = source /\
  fa_object_value f = VBool value.

Lemma assert_fact_says entity predicate source value w f w' :
  assert_fact entity predicate (VBool value) source one w = (Ret f, w') ->
  sw_facts w' = sw_facts w ++ [f] /\ fact_says entity predicate source value f.
Proof.
  intros E. pose proof (assert_fact_run entity predicate (VBool value) source one w) as H.
  destruct (check_fact source one); [|congruence].
  destruct H as (f' & w1 & E' & Hf & _ & Hfm). rewrite E in E'. injection E' as <- <-.
  split; [done|]. by rewrite Hfm.
Qed.

Lemma on_world_inv {A} (m : M SemanticWorld A) (s s' : St) a : on_world m s = (Ret a, s') ->
  m (lc_world s) = (Ret a, lc_world s') /\ lc_plane s' = lc_plane s /\
  lc_idempotency s' = lc_idempotency s /\ lc_checkpoints s' = lc_checkpoints s /\
  lc_token s' = lc_token s.
Proof. unfold on_world. destruct (m (lc_world s)). by intros [= -> <-]. Qed.

Lemma append_evidence_inv eid ty payload (s s' : St) u : append_evidence eid ty payload s = (Ret u, s') ->
  lc_world s' = lc_world s /\ lc_idempotency s' = lc_idempotency s /\
  lc_checkpoints s' = lc_checkpoints s /\ lc_token s' = lc_token s.
Proof.
  unfold append_evidence, on_plane. mred. destruct (on_ledger _ _) as [[x|x] p]; [|done].
  by intros [= _ <-].
Qed.

(** The last evidence of the ledger. *)
Definition evidence_last (eid ty : string) (payload : dict) (old l : EvidenceLedger) : Prop :=
  exists e, el_events l = el_events old ++ [e] /\ le_execution_id e = eid /\ le_event_type e = ty /\
    le_payload e = payload.

Lemma append_evidence_last eid ty payload (s s' : St) u :
  append_evidence eid ty payload s = (Ret u, s') ->
  evidence_last eid ty payload (ps_ledger (lc_plane s)) (ps_ledger (lc_plane s')).
Proof.
  unfold append_evidence, on_plane, on_ledger. mred.
  destruct (ledger_append_run eid ty payload (ps_ledger (lc_plane s))) as
    [(e & l' & -> & He & _ & _ & Hid & Ht & Hp & _)|(x & l' & -> & _)]; [|done].
  intros [= _ <-]. by exists e.
Qed.

(** The runtime run inside [execute]. *)
Definition runtime_state (c : ExecutionContext) (s : St) : RunState EvidenceLedger CS IS :=
  mkRun c (lc_token s) (ps_ledger (lc_plane s)) (lc_checkpoints s) (lc_idempotency s) (lc_env s) 0.

Lemma on_runtime_inv {A} (m : M (RunState EvidenceLedger CS IS) A) c (s s' : St) a c' :
  on_runtime m c s = (Ret (a, c'), s') ->
  exists r', m (runtime_state c s) = (Ret a, r') /\ rs_context r' = c' /\
    rs_idempotency r' = lc_idempotency s' /\ lc_world s' = lc_world s.
Proof.
  unfold on_runtime. fold (runtime_state c s). destruct (m (runtime_state c s)) as [[x|x] r']; [|done].
  intros [= -> <- <-]. by exists r'.
Qed.

Lemma complete_idem rt (r r' : RunState EvidenceLedger CS IS) u :
  Runtime.complete rt None r = (Ret u, r') -> rs_idempotency r' = rs_idempotency r.
Proof.
  unfold Runtime.complete. intros H. run_inv H. apply assert_fence_ret in Hr as (_ & (_ & _ & H0) & _).
  run_inv H. apply run_set_status_ret in Hr as (_ & H1 & _).
  run_inv H. pose proof (idem_save_checkpoint rt None s0) as H2. rewrite Hr in H2. cbn in H2.
  run_inv H. injection Hr0 as _ <-. apply record_ret in H. unfold same_idem in *.
  destruct H as [H _]. congruence.
Qed.

Lemma assess_inv r entity c result (s s' : St) x : assess lf r entity c result s = (Ret x, s') ->
  lr_result x = result /\ lr_semantic_entity_id x = entity /\
  lr_learning_state x = execution_learning r (succeeded result) /\
  lc_idempotency s' = lc_idempotency s /\
  exists f, sw_facts (lc_world s') = sw_facts (lc_world s) ++ [f] /\
    fact_says entity "execution.succeeded" ("kernel:" +:+ ir_invocation_id result) (succeeded result) f.
Proof.
  unfold assess. intros H. run_inv H. apply on_world_inv in Hr as (Hw & _ & Hi & _).
  apply assert_fact_says in Hw as [Hf Hsay]. run_inv H.
  assert (lc_idempotency s1 = lc_idempotency s0 /\ lc_world s1 = lc_world s0) as [Hi1 Hw1].
  { destruct (succeeded result).
    - run_inv Hr. apply ret_inv in Hr as [_ ->]. destruct x2 as [u c'].
      apply on_runtime_inv in Hr0 as (r' & Hc & _ & Hr' & Hw'). apply complete_idem in Hc.
      split; [by rewrite <- Hr', Hc | done].
    - apply ret_inv in Hr as [_ ->]. done. }
  run_inv H. injection Hr0 as <- <-. apply ret_inv in H as [-> ->]. cbn.
  split_and!; try done; [congruence|]. exists x0. by rewrite Hw1.
Qed.

(** The evidence of a completed execution is the last of the ledger. *)
Definition completed_last (eid : string) (l : EvidenceLedger) : Prop :=
  exists e, last (el_events l) = Some e /\ le_execution_id e = eid /\
    le_event_type e = "execution.completed".

Lemma bridge_append_ret e l l' : bridge_append e l = Ret l' ->
  exists x, el_events l' = el_events l ++ [x] /\ le_execution_id x = uuid_str (ev_execution_id e) /\
    le_event_type x = ev_event_type e.
Proof.
  unfold bridge_append. intros H.
  destruct (ledger_append_run (uuid_str (ev_execution_id e)) (ev_event_type e) (bridge_payload e) l) as
    [(x & l1 & E & He & _ & _ & Hid & Ht & _)|(x & l1 & E & _)]; rewrite E in H; [|done].
  injection H as <-. by exists x.
Qed.

(** The state in which the runtime is called. *)
Record prepared (r : ControlRequest) (tenant inv entity : string) (invocation : option string)
    (who : Requester) (s s1 : St) (c : ExecutionContext) : Prop := mkPrepared {
  pp_metadata : metadata c = requester_metadata who;
  pp_tenant : tenant_id (identity c) = tenant;
  pp_invocation : inv <> "" /\ forall i, invocation = Some i -> i <> "" -> inv = i;
  pp_idempotency : lc_idempotency s1 = lc_idempotency s;
  pp_fact : exists f, sw_facts (lc_world s1) = sw_facts (lc_world s) ++ [f] /\
    fact_says entity "execution.accepted" "control_plane" true f;
  pp_evidence : evidence_last (uuid_str (execution_id (identity c))) "control_plane.request.accepted"
    [("capability_id", VStr (cr_capability_id r)); ("version", VStr (cr_capability_version r));
     ("tenant_id", VStr tenant)] (ps_ledger (lc_plane s)) (ps_ledger (lc_plane s1)) }.

Lemma uuid_str_nonempty u : uuid_str u <> "".
Proof. by unfold uuid_str. Qed.

Lemma lifecycle_execute_inv r objective tenant invocation who (s s' : St) x :
  lifecycle_execute lf r objective tenant invocation who s = (Ret x, s') ->
  exists c inv entity s1 result c2 s2, prepared r tenant inv entity invocation who s s1 c /\
    on_runtime (Runtime.execute (lifecycle_runtime lf) None (cr_capability_id r) (cr_capability_version r)
      (cr_input r) (Some inv) (Some (lifecycle_key tenant r inv))) c s1 = (Ret (result, c2), s2) /\
    assess lf r entity c2 result s2 = (Ret x, s').
Proof.
  unfold lifecycle_execute. intros H. run_inv H. apply lift_inv in Hr as [_ ->].
  run_inv H. unfold lifecycle_context in Hr. do 3 run_inv Hr. apply ret_inv in Hr as [Hc ->].
  injection Hr0 as _ <-. injection Hr1 as _ <-. injection Hr2 as _ <-. cbn zeta in H.
  run_inv H. assert (x5 <> "" /\ (forall i, invocation = Some i -> i <> "" -> x5 = i) /\
    lc_idempotency s0 = lc_idempotency s /\ lc_world s0 = lc_world s /\ lc_plane s0 = lc_plane s)
    as (Hne & Hinv & Hi & Hw & Hpl).
  { assert (forall (t t' : St) y, (u <- lifecycle_uuid ;; ret (uuid_str u)) t = (Ret y, t') ->
      y <> "" /\ lc_idempotency t' = lc_idempotency t /\ lc_world t' = lc_world t /\
      lc_plane t' = lc_plane t) as Hu.
    { intros t t' y [= <- <-]. split; [apply uuid_str_nonempty | done]. }
    destruct invocation as [i|].
    - destruct (String.eqb_spec i "") as [->|Hn].
      + apply Hu in Hr as (? & ? & ? & ?). split_and!; try done. by intros i [= <-].
      + apply ret_inv in Hr as [-> ->]. split_and!; try done. by intros j [= <-].
    - apply Hu in Hr as (? & ? & ? & ?). by split_and!. }
  run_inv H. apply on_world_inv in Hr0 as (Hup & Hpl1 & Hi1 & _).
  assert (sw_facts (lc_world s1) = sw_facts (lc_world s0)) as Hf1.
  { revert Hup. unfold upsert_entity. mred. cbn. by intros [= _ <-]. }
  run_inv H. pose proof (append_evidence_last _ _ _ _ _ _ Hr0) as Hlast.
  rewrite Hpl1, Hpl in Hlast. apply append_evidence_inv in Hr0 as (Hw2 & Hi2 & _).
  run_inv H. apply on_world_inv in Hr0 as (Ha & Hpl3 & Hi3 & _). apply assert_fact_says in Ha as [Hf2 Hsay].
  run_inv H. destruct x9 as [result c2]. exists x1, x5, (en_entity_id x6), s3, result, c2, s4.
  split; [|split; [exact Hr0 | exact H]]. split; try done; [by rewrite Hc | by rewrite Hc | congruence| |].
  - exists x8. split; [|done]. by rewrite Hf2, Hw2, Hf1, Hw.
  - by rewrite Hpl3.
Qed.

End facts.

(** ** Successful executions *)

Section success.
Context {LD : LedgerDigest} {IF : IsoFormat}.
Context {CS IS D : Type} `{!CheckpointStore CS} `{!IdempotencyStore IS} {DA : DeploymentAdapter D}.
Context {CPL : CheckpointLaws CS}.
Abbreviation St := (LifecycleState CS IS D).

Lemma complete_evidence rt (r r' : RunState EvidenceLedger CS IS) u :
  Runtime.complete rt None r = (Ret u, r') ->
  completed_last (uuid_str (execution_id (identity (rs_context r)))) (rs_evidence r').
Proof.
  unfold Runtime.complete. intros H. run_inv H. apply assert_fence_ret in Hr as (_ & _ & _ & Hc & _).
  run_inv H. apply run_set_status_ret in Hr as (_ & _ & H1).
  run_inv H. apply save_checkpoint_ret in Hr as [_ H2].
  run_inv H. injection Hr as <- <-. unfold same_ctx, same_but_time in *.
  apply (f_equal identity) in H1, H2. cbn in H1, H2. unfold record, record_event in H. cbn in H.
  destruct (bridge_append _ _) as [l'|] eqn:E; [|done]. injection H as _ <-.
  apply bridge_append_ret in E as (e & He & Hid & Ht). exists e. cbn [rs_evidence].
  rewrite He, last_snoc. split; [done|]. split; [|exact Ht]. rewrite Hid. cbn. congruence.
Qed.

(** The evidence a result names: that of its execution in the ledger; after a
    success it ends with the completion. *)
Lemma assess_evidence lf r entity c result (s s' : St) x : assess lf r entity c result s = (Ret x, s') ->
  lr_execution_id x = uuid_str (execution_id (identity c)) /\
  lr_evidence_event_ids x =
    le_event_id <$> ledger_events (Some (lr_execution_id x)) (ps_ledger (lc_plane s')) /\
  (succeeded result = true -> completed_last (lr_execution_id x) (ps_ledger (lc_plane s'))).
Proof.
  unfold assess. intros H. run_inv H. run_inv H. run_inv H. injection Hr1 as <- <-.
  apply ret_inv in H as [-> ->]. cbn [lr_execution_id lr_evidence_event_ids].
  split; [done|]. split; [done|]. intros Hok. rewrite Hok in Hr0. run_inv Hr0.
  apply ret_inv in Hr0 as [_ ->]. unfold on_runtime in Hr1.
  destruct (Runtime.complete _ _ _) as [[a|e] r'] eqn:E; [|done].
  injection Hr1 as _ <-. by apply complete_evidence in E.
Qed.

(** The attributes as a dictionary. *)
Definition attribute_map (l : list (string * string)) : gmap string string :=
  foldr (fun kv m => match m !! fst kv with Some _ => m | None => <[fst kv := snd kv]> m end) ∅ l.

(** The subject of the policy check. *)
Definition requester_subject (tenant : string) (who : Requester) : Subject :=
  mkSubject (rr_subject_id who) tenant (list_to_set (rr_roles who)) (attribute_map (rr_attributes who))
    (list_to_set (rr_permissions who)).

Lemma texts_strings l : texts (VStr <$> l) = Ret l.
Proof.
  unfold texts. assert (mapM py_str (VStr <$> l) = Some l) as ->; [|done].
  induction l as [|x l IH]; [done|]. cbn. cbn in IH. by rewrite IH.
Qed.

Lemma text_items_attributes l :
  text_items ((fun kv : string * string => (fst kv, VStr (snd kv))) <$> l) = Ret (attribute_map l).
Proof.
  induction l as [|[k v] l IH]; [done|]. rewrite fmap_cons. cbn [text_items fst snd].
  by rewrite IH.
Qed.

Lemma request_subject_of rq who : metadata (rq_execution rq) = requester_metadata who ->
  request_subject rq = Ret (requester_subject (tenant_id (identity (rq_execution rq))) who).
Proof.
  intros E. unfold request_subject. rewrite E. unfold requester_metadata, meta_text, payload_str.
  cbn -[texts text_items fmap]. rewrite !texts_strings. cbn -[text_items fmap].
  by rewrite text_items_attributes.
Qed.

Lemma lifecycle_key_or tenant r inv key :
  str_or (Some (lifecycle_key tenant r inv)) key = lifecycle_key tenant r inv.
Proof. unfold str_or, lifecycle_key. by destruct tenant. Qed.

(** A success of the lifecycle is a success of the runtime under the key of the
    request. *)
Lemma lifecycle_success lf r objective tenant invocation who (s s' : St) x :
  lifecycle_execute lf r objective tenant invocation who s = (Ret x, s') ->
  succeeded (lr_result x) = true ->
  exists inv entry k rq b, (forall i, invocation = Some i -> i <> "" -> inv = i) /\
    adapter_get (lf_capabilities lf) (cr_capability_id r) (cr_capability_version r) = Ret entry /\
    ce_contract entry = Some k /\ metadata (rq_execution rq) = requester_metadata who /\
    tenant_id (identity (rq_execution rq)) = tenant /\ lf_policy lf rq k = Ret b /\
    let key := lifecycle_key tenant r inv in
    ((idem_get key (lc_idempotency s) = Ret (Some (lr_result x)) /\ lc_idempotency s' = lc_idempotency s) \/
     (idem_get key (lc_idempotency s) = Ret None /\
      idem_put key (lr_result x) (lc_idempotency s) = Ret (lc_idempotency s'))).
Proof.
  intros H Hs. apply lifecycle_execute_inv in H as (c & inv & entity & s1 & result & c2 & s2 & Hp & Hx & Ha).
  apply assess_inv in Ha as (Hres & _ & _ & Hi & _). rewrite Hres in *. subst result.
  destruct Hp as [Hm Ht [Hne Hinv] Hi1 _ _].
  apply on_runtime_inv in Hx as (r' & Hx & _ & Hi2 & _).
  apply execute_success in Hx as (_ & entry & k & t1 & He & Hk & (_ & _ & Hc) & Had & Hcase); [|done..].
  destruct Had as [_ _ [b Hpol]]. rewrite lifecycle_key_or in Hcase. cbn in Hcase. rewrite Hi1 in Hcase.
  unfold same_but_time in Hc.
  eexists inv, entry, k, _, b. split; [done|]. split; [exact He|]. split; [done|].
  split; [|split; [|split; [exact Hpol|]]]; cbn [rq_execution].
  - rewrite <- Hm. by apply (f_equal metadata) in Hc.
  - rewrite <- Ht. apply (f_equal identity) in Hc. cbn in Hc. by rewrite Hc.
  - cbn zeta. rewrite Hi, <- Hi2. destruct Hcase as [[Hg Hsi]|(Hg & t2 & Hsi & Hset)];
      unfold same_idem in Hsi; cbn in Hsi; rewrite Hi1 in Hsi; [left | right].
    + by split.
    + split; [done|]. rewrite <- Hsi. eapply st_cached; [exact Hset | by apply succeeded_cacheable].
Qed.

(** A success passed the production authorization. *)
Lemma success_authorized lf fallback r objective tenant invocation who (s s' : St) x :
  lf_policy lf = production_policy fallback ->
  lifecycle_execute lf r objective tenant invocation who s = (Ret x, s') ->
  succeeded (lr_result x) = true -> exists entry k,
    get_entry (cr_capability_id r) (cr_capability_version r) (lf_capabilities lf) = Ret entry /\
    ce_contract entry = Some k /\
    rbac_authorize (requester_subject tenant who)
      (mkAuthPolicy (required_permission k) None [("environment", rr_environment who)]) = Ret tt.
Proof.
  intros Hpol H Hok. destruct (lifecycle_success lf r objective tenant invocation who s s' x H Hok)
    as (inv & entry & k & rq & b & _ & He & Hk & Hm & Ht & Hp & _).
  exists entry, k. split.
  { unfold adapter_get in He. destruct (get_entry _ _ _) as [e|]; [|done]. cbn in He.
    destruct (ce_contract e); [|done]. by injection He as ->. }
  split; [done|]. rewrite Hpol in Hp. unfold production_policy in Hp.
  rewrite (request_subject_of _ _ Hm), Ht in Hp. cbn [out_bind] in Hp. rewrite Hm in Hp.
  unfold meta_text, payload_str in Hp. cbn -[rbac_authorize] in Hp.
  by destruct (rbac_authorize _ _) as [[]|].
Qed.

(** The runtime and what follows it only add evidence. *)
Lemma execute_extends lf r entity c cap v input i k c2 result (s1 s2 s' : St) x :
  on_runtime (Runtime.execute (lifecycle_runtime lf) None cap v input i k) c s1 = (Ret (result, c2), s2) ->
  assess lf r entity c2 result s2 = (Ret x, s') ->
  ledger_extends (ps_ledger (lc_plane s1)) (ps_ledger (lc_plane s')).
Proof.
  intros H1 H2.
  pose proof (records_runtime (D := D) (lifecycle_runtime lf) _ c
    (guarded_execute (lifecycle_runtime lf) None cap v input i k) s1) as [R1 _].
  pose proof (records_assess lf r entity c2 result s2) as [R2 _].
  rewrite H1 in R1. rewrite H2 in R2. apply plane_steps_ledger in R1 as [R1 _], R2 as [R2 _].
  by etransitivity.
Qed.
End success.

(** ** Rollouts with the in-memory adapter *)

Section rollouts.
Context {LD : LedgerDigest} {IF : IsoFormat} {CS IS : Type}.
Abbreviation St := (LifecycleState CS IS (gmap string string)).

Definition with_plane (p : PlaneState (gmap string string)) (s : St) : St :=
  mkLifecycleState p (lc_world s) (lc_checkpoints s) (lc_idempotency s) (lc_token s) (lc_env s).

Lemma append_evidence_fresh k eid ty payload (s : St) l d : ids_fresh (S k) l ->
  exists l', append_evidence eid ty payload (with_plane (mkPlane l d) s) =
    (Ret tt, with_plane (mkPlane l' d) s) /\ ids_fresh k l'.
Proof.
  intros Hf. destruct (append_fresh k eid ty payload l Hf) as (e & l' & E & F & _). exists l'.
  split; [|done]. unfold append_evidence, on_plane. mred. cbn [lc_plane with_plane].
  by rewrite (on_ledger_run _ _ _ _ _ E).
Qed.

Lemma on_plane_run {A} (m : M (PlaneState (gmap string string)) A) (s : St) p o p' :
  m p = (o, p') -> on_plane m (with_plane p s) = (o, with_plane p' s).
Proof. unfold on_plane. cbn [lc_plane with_plane]. by intros ->. Qed.

Lemma rollout_from_executions_spec lf candidate environment previous executions pct latency sj
    (s : St) l d : ids_fresh 7 l ->
  let spec := rollout_spec (lf_canary lf) sj candidate environment previous pct
                (count_successes executions) (Z.of_nat (length executions)) latency d in
  exists o l', rollout_from_executions lf candidate environment previous executions pct latency sj
      (with_plane (mkPlane l d) s) = (o, with_plane (mkPlane l' (snd spec)) s) /\
    answers (fun x => (lo_state x, lo_decision x)) o (fst spec).
Proof.
  intros Hf spec. unfold spec, rollout_from_executions, rollout_spec. clear spec.
  destruct (append_evidence_fresh 6 (rollout_id candidate environment) "rollout.canary.started"
    [("candidate", VStr candidate); ("traffic_percent", VInt pct);
     ("execution_ids", VList (VStr <$> (lr_execution_id <$> executions)))] s l d Hf) as (l1 & E1 & F1).
  rewrite (bind_ret_intro _ _ _ _ _ E1).
  destruct (canary_decide _ _ _ _ _ _) as [v|x]; [|by exists (Raise x), l1].
  rewrite (bind_ret_intro (lift (Ret v)) _ _ v _ eq_refl).
  destruct (append_evidence_fresh 5 (rollout_id candidate environment) (verdict v) (rate_payload v latency)
    s l1 d F1) as (l2 & E2 & F2).
  destruct (rbac_authorize sj (release_policy (release_permission v) environment)) as [u|x] eqn:Ha.
  - destruct (release_fresh 1 sj environment candidate previous v l2 d u F2 Ha) as (l3 & F3 & _ & Er).
    unfold verdict in *. destruct (cn_passed v); cbn [negb]; destruct Er as [r Er].
    + destruct (append_evidence_fresh 0 (rollout_id candidate environment) "rollout.promoted"
        [("candidate", VStr candidate); ("deployment_evidence", VList (VStr <$> dr_evidence_ids r))]
        s l3 (<[environment := candidate]> d) F3) as (l4 & E4 & _).
      mred. rewrite E2, (on_plane_run _ s _ _ _ Er), E4. by do 2 eexists.
    + destruct (append_evidence_fresh 0 (rollout_id candidate environment) "rollout.rollback.verified"
        [("target", VStr previous); ("deployment_evidence", VList (VStr <$> dr_evidence_ids r))]
        s l3 (<[environment := previous]> d) F3) as (l4 & E4 & _).
      mred. rewrite E2, (on_plane_run _ s _ _ _ Er), E4. by do 2 eexists.
  - exists (Raise x), l2. split; [|done]. unfold verdict, release_permission in *. mred.
    destruct (cn_passed v); cbn [negb]; rewrite E2.
    + by rewrite (on_plane_run _ s _ _ _
        (proj1 (release_denied sj candidate environment (Some previous) (mkPlane l2 d) x) Ha)).
    + by rewrite (on_plane_run _ s _ _ _
        (proj2 (release_denied sj previous environment None (mkPlane l2 d) x) Ha)).
Qed.
End rollouts.

(** ** The bridge *)

Section bridge.
Context {LD : LedgerDigest} {IF : IsoFormat}.

Lemma bridge_events_app l1 l2 : bridge_events (l1 ++ l2) =
  (a <-? bridge_events l1 ;; b <-? bridge_events l2 ;; Ret (a ++ b)).
Proof.
  induction l1 as [|e l1 IH]; cbn; [by destruct (bridge_events l2)|].
  destruct (bridge_event e); cbn; [|done]. rewrite IH.
  destruct (bridge_events l1); cbn; [|done]. by destruct (bridge_events l2).
Qed.

(** Setting new keys one after the other appends them. *)
Lemma dset_all_new (kvs d : dict) : NoDup (dkeys kvs) -> (forall k, k ∈ dkeys kvs -> k ∉ dkeys d) ->
  foldl (fun d kv => dset (fst kv) (snd kv) d) d kvs = d ++ kvs.
Proof.
  revert d. induction kvs as [|[k v] kvs IH]; intros d Hn Hd; [by rewrite app_nil_r|].
  cbn in Hn. apply NoDup_cons in Hn as [Hk Hn]. cbn [foldl fst snd].
  rewrite (dkeys_dset_new k v d) by (apply dget_None, Hd; by left).
  rewrite IH; [by rewrite <- app_assoc | done |]. intros k' Hk'. unfold dkeys. rewrite fmap_app.
  apply not_elem_of_app. split; [apply Hd; by right|]. intros ->%list_elem_of_singleton. done.
Qed.

(** What the bridge adds to the data of an event. *)
Definition bridge_fields (e : EvidenceEvent) : dict := [
  ("kernel_event_id", VStr (uuid_str (ev_event_id e))); ("actor", VStr (ev_actor e));
  ("component", VStr (ev_component e)); ("timestamp", VStr (isoformat (ev_timestamp e)));
  ("correlation_id", opt_str (ev_correlation_id e)); ("causation_id", opt_str (ev_causation_id e))].

(** Data that does not use the keys of the bridge is stored in front of them. *)
Lemma bridge_payload_plain e : (forall k, k ∈ bridge_keys -> k ∉ dkeys (ev_data e)) ->
  bridge_payload e = ev_data e ++ bridge_fields e.
Proof.
  intros Hk. apply (dset_all_new (bridge_fields e) (ev_data e)).
  - cbn. apply (bool_decide_unpack _). vm_compute. exact I.
  - intros k Hin. apply Hk. cbn in Hin. unfold bridge_keys. set_solver.
Qed.

Lemma filter_true {A} (P : A -> Prop) `{!forall x, Decision (P x)} l : Forall P l -> filter P l = l.
Proof. induction 1 as [|x l Hx _ IH]; [done|]. rewrite filter_cons, decide_True by done. by rewrite IH. Qed.

Lemma filter_false {A} (P : A -> Prop) `{!forall x, Decision (P x)} l :
  Forall (fun x => ~ P x) l -> filter P l = [].
Proof. induction 1 as [|x l Hx _ IH]; [done|]. by rewrite filter_cons, decide_False. Qed.

Lemma filter_plain (d : dict) : (forall k, k ∈ bridge_keys -> k ∉ dkeys d) ->
  filter (fun kv : string * pyval => fst kv ∉ bridge_keys) d = d.
Proof.
  intros Hd. apply filter_true, Forall_forall. intros kv Hin Hb. apply (Hd _ Hb).
  by apply list_elem_of_fmap_2.
Qed.

Lemma dget_app_new (d1 d2 : dict) k : k ∉ dkeys d1 -> dget k (d1 ++ d2) = dget k d2.
Proof.
  intros Hk. induction d1 as [|[k1 v] d1 IH]; [done|]. cbn in Hk. apply not_elem_of_cons in Hk as [Hne Hk].
  cbn. destruct (String.eqb_spec k k1); [done|]. by apply IH.
Qed.

Lemma filter_stored e : (forall k, k ∈ bridge_keys -> k ∉ dkeys (ev_data e)) ->
  filter (fun kv : string * pyval => fst kv ∉ bridge_keys) (ev_data e ++ bridge_fields e) = ev_data e.
Proof.
  intros Hk. etransitivity; [apply filter_app|]. etransitivity; [|apply app_nil_r].
  apply f_equal2; [exact (filter_plain _ Hk)|]. apply filter_false. unfold bridge_fields.
  repeat constructor; cbn; unfold bridge_keys; set_solver.
Qed.

(** What [list] rebuilds from the ledger's form of an event. *)
Lemma bridge_event_back e id eid now p h :
  (forall k, k ∈ bridge_keys -> k ∉ dkeys (ev_data e)) -> uuid_ok (ev_execution_id e) -> uuid_ok id ->
  bridge_event (mkLedgerEvent (uuid_str id) (uuid_str (ev_execution_id e)) eid (bridge_payload e) now p h) =
  Ret (mkEvent (ev_execution_id e) eid now id (ev_actor e) (ev_component e) (ev_data e)
         (ev_correlation_id e) (ev_causation_id e)).
Proof.
  intros Hk He Hid. unfold bridge_event. cbn [le_execution_id le_event_id le_payload le_event_type le_timestamp].
  rewrite !uuid_parse_str by done. rewrite (bridge_payload_plain e Hk). cbn [out_bind].
  unfold payload_str, payload_opt.
  rewrite !dget_app_new by (apply Hk; unfold bridge_keys; set_solver).
  change (dget "actor" (bridge_fields e)) with (Some (VStr (ev_actor e))).
  change (dget "component" (bridge_fields e)) with (Some (VStr (ev_component e))).
  change (dget "correlation_id" (bridge_fields e)) with (Some (opt_str (ev_correlation_id e))).
  change (dget "causation_id" (bridge_fields e)) with (Some (opt_str (ev_causation_id e))).
  cbn [py_str out_bind].
  match goal with |- context [filter ?P ?l] =>
    replace (filter P l) with (ev_data e) by (symmetry; exact (filter_stored e Hk)) end.
  by destruct (ev_correlation_id e), (ev_causation_id e).
Qed.

(** The identifier of a rollout is no UUID. *)
Lemma rollout_id_no_uuid candidate environment :
  exists m, uuid_parse (rollout_id candidate environment) = raise ValueError m.
Proof.
  unfold uuid_parse, rollout_id. cbn -[Nat.eqb]. destruct (_ =? _)%nat; by eexists.
Qed.

End bridge.
