(* ===== verification/ProductionTheorems.v ===== *)
(** * Theorems on the production controls

    The lease queue: its state machine, exclusive leases and termination.
    Deployment: releases refine approved steps, what a rollout leaves behind,
    and what the chain of the evidence ledger protects. *)

From stdpp Require Import base gmap strings list relations.
From Stdlib Require Import ZArith Lia Floats.SpecFloat.
From S2P Require Import Prelude Uuid Json Workers Deployment.
From S2P Require Import SemanticWorld Samples.
Local Open Scope py_scope.

(** ** The lease queue *)

Section queue.
Context {Res : Type}.

(** C22. Whatever calls producers, workers and handlers make of a [LeaseQueue],
    no item is lost or renamed, items move along the state machine with at most
    [max_attempts] attempts, the fields of an item agree with its status, and a
    finished item keeps its status, result and error. *)
Theorem work_queue_state_machine (q q' : LeaseQueue Res) :
  queue_inv q -> rtc queue_step q q' ->
  queue_inv q' /\ queue_evolves q q' /\
  (forall i it, lq_items q !! i = Some it -> terminal it -> exists it', lq_items q' !! i = Some it' /\
     wi_work_id it' = wi_work_id it /\ wi_status it' = wi_status it /\
     wi_result it' = wi_result it /\ wi_error it' = wi_error it).
Proof.
  intros Hi Hr. assert (queue_inv q' /\ queue_evolves q q') as [Hi' He].
  { induction Hr as [q | q1 q2 q3 [v H] _ IH]; [done|].
    destruct IH as [? ?]; [by apply (queue_call_inv v q1)|]. split; [done|].
    etransitivity; [by apply (queue_call_evolves v) | done]. }
  split; [done|]. split; [done|]. destruct He as (_ & _ & old & new & -> & Hf). intros i it Hit Ht.
  destruct (Forall2_lookup_l _ _ _ _ _ Hf Hit) as (it' & Hit' & Hm). exists it'.
  split; [by apply lookup_app_l_Some|]. split; [by apply (item_moves_id _ _ _ Hm)|].
  by destruct (terminal_final _ _ _ Hm Ht) as (? & ? & _ & ? & _).
Qed.

(** C15. A lease is exclusive: after worker [w] has claimed an item and until the
    clock reaches the end of its lease, whatever other workers do, no claim
    returns the item, their heartbeats and reports on it are refused and change
    nothing, and the report of [w] is accepted and stores its result. *)
Theorem work_lease_exclusive (q q1 q2 : LeaseQueue Res) (w : string) (it : WorkItem Res) (t : datetime) :
  queue_inv q -> claim w q = (Ret (Some it), q1) -> wi_lease_until it = Some t ->
  rtc (others_call w) q1 q2 -> reads_before t q1 q2 ->
  (forall v x q3, claim v q2 = (Ret (Some x), q3) -> wi_work_id x <> wi_work_id it) /\
  (forall v r e, v <> w -> complete (wi_work_id it) v r q2 = (Ret false, q2) /\
     fail (wi_work_id it) v e q2 = (Ret false, q2) /\
     heartbeat (wi_work_id it) v q2 = (Ret false, q2)) /\
  (forall r, exists q3 it3, complete (wi_work_id it) w r q2 = (Ret true, q3) /\
     queue_get (wi_work_id it) q3 = Some it3 /\ wi_status it3 = W_SUCCEEDED /\ wi_result it3 = Some r).
Proof.
  intros Hi Hc Ht Hr Hreads. destruct (claim_holds _ _ _ _ Hi Hc) as (Hi1 & Hg & Hh & _).
  assert (held_until (wi_work_id it) w t q1) as H1 by (exists it, t; split_and!; done).
  destruct (held_until_others _ _ _ _ _ Hr Hi1 Hreads H1) as (Hi2 & H2 & Hclock & Htick).
  split; [|split].
  - intros v x q3 Hx. assert (clock (lq_env q2) (ticks (lq_env q2)) < t)%Z as Hnow.
    { rewrite Hclock. apply Hreads. lia. }
    destruct (held_until_claim _ _ _ v q2 (Some x) q3 Hi2 Hnow H2 Hx) as [_ Hne]. by apply Hne.
  - intros v r e Hv. assert (held (wi_work_id it) v q2 = false) as E.
    { destruct (held (wi_work_id it) v q2) eqn:E; [|done].
      by destruct (held_other (wi_work_id it) w t q2 (wi_work_id it) v H2 E). }
    unfold complete, fail, heartbeat. mred. by rewrite E.
  - intros r. destruct H2 as (it2 & u & Hg2 & Hh2 & _).
    assert (held (wi_work_id it) w q2 = true) as E by (unfold held; by rewrite Hg2).
    exists (with_items (update_first (has_id (wi_work_id it)) (complete_item r) (lq_items q2)) q2),
      (complete_item r it2).
    unfold complete. mred. rewrite E. split; [done|]. split; [by apply find_update_same | done].
Qed.
End queue.

(** A worker that keeps calling [run_once] works an idle queue off: whether
    the handler returns or raises, after at most as many rounds as there are
    attempts left the worker finds nothing to do and every item has succeeded
    or failed. *)
Theorem worker_drains_queue {Res W : Type} (w : string) (handler : dict -> M (LeaseQueue Res * W) Res)
    (q : LeaseQueue Res) (v : W) :
  (0 < lq_max_attempts q)%Z -> queue_inv q -> idle q ->
  (forall p s, same_work (fst s) (fst (snd (handler p s)))) ->
  exists s, work_off w handler (S (queue_left q)) (q, v) = (Ret true, s) /\
    queue_inv (fst s) /\ Forall terminal (lq_items (fst s)).
Proof. intros Hm Hi Hq Hh. by apply work_off_drains. Qed.

(** ** Deployment *)

Section deployment.
Context {LD : LedgerDigest}.

(** Whatever adapter is plugged in and however a call ends, [activate],
    [rollback] and [evaluate_and_rollout] only append linked evidence and make the
    change they are called for, if their subject is a release manager of that
    environment, directly after the approval of exactly this change was recorded. *)
Theorem releases_refine_approved_steps {D : Type} {DA : DeploymentAdapter D} (c : CanaryController)
    (sj : Subject) (candidate environment previous : string) (before : option string)
    (pct ok total : Z) (latency : spec_float) (ms : list Measurement) (s : PlaneState D) :
  rtc (plane_step (fun x y => x = sj /\ y = Deploy candidate environment)) s
    (snd (activate sj candidate environment before s)) /\
  rtc (plane_step (fun x y => x = sj /\ y = Rollback previous environment)) s
    (snd (plane_rollback sj previous environment s)) /\
  rtc (plane_step (rollout_release sj candidate environment previous)) s
    (snd (evaluate_and_rollout c sj candidate environment previous pct ok total latency ms s)).
Proof.
  split; [by apply refines_activate|]. split; [by apply refines_rollback|].
  apply refines_rollout; split; auto.
Qed.

(** C16. [evaluate_and_rollout] implements the abstract rollout: it answers and
    deploys what the specification says, exceptions included, and leaves the
    evidence of exactly the steps that were taken: a canary that was started and
    its verdict also when the release is then refused. *)
Theorem rollout_refines_spec (c : CanaryController) (sj : Subject)
    (candidate environment previous : string) (pct ok total : Z) (latency : spec_float)
    (ms : list Measurement) (l : EvidenceLedger) (d : gmap string string) :
  ids_fresh 7 l ->
  exists o l', evaluate_and_rollout c sj candidate environment previous pct ok total latency ms
      (mkPlane l d) =
    (o, mkPlane l' (snd (rollout_spec c sj candidate environment previous pct ok total latency d))) /\
    answers (fun r => (ro_state r, ro_canary r)) o
      (fst (rollout_spec c sj candidate environment previous pct ok total latency d)) /\
    match canary_decide c candidate pct ok total latency, o with
    | Raise _, _ => grown l ["rollout.canary.started"] l'
    | Ret v, Raise _ => grown l ["rollout.canary.started"; verdict v] l'
    | Ret v, Ret _ => grown l (["rollout.canary.started"; verdict v] ++ release_evidence v ++
                        if cn_passed v then ["rollout.promoted"] else []) l'
    end.
Proof.
  intros Hf. unfold evaluate_and_rollout, rollout_spec.
  destruct (append_fresh 6 (rollout_id candidate environment) "rollout.canary.started"
    [("candidate", VStr candidate); ("traffic_percent", VInt pct)] l Hf) as (e1 & l1 & E1 & F1 & G1).
  rewrite (bind_ret_intro _ _ _ _ _ (on_ledger_run _ l d _ _ E1)).
  destruct (canary_decide c candidate pct ok total latency) as [v|x]; [|by exists (Raise x), l1].
  rewrite (bind_ret_intro (lift (Ret v)) _ _ v _ eq_refl).
  destruct (append_fresh 5 (rollout_id candidate environment) (verdict v) (rate_payload v latency) l1
    F1) as (e2 & l2 & E2 & F2 & G2). pose proof (grown_trans _ _ _ _ _ G1 G2) as G.
  destruct (rbac_authorize sj (release_policy (release_permission v) environment)) as [u|x] eqn:Ha.
  - destruct (release_fresh 1 sj environment candidate previous v l2 d u F2 Ha) as (l3 & F3 & G3 & Er).
    pose proof (grown_trans _ _ _ _ _ G G3) as G'. unfold verdict in *.
    destruct (cn_passed v); cbn [negb]; rewrite (bind_ret_intro _ _ _ _ _ (on_ledger_run _ l1 d _ _ E2));
      destruct Er as [r Er]; rewrite (bind_ret_intro _ _ _ _ _ Er).
    + destruct (append_fresh 0 (rollout_id candidate environment) "rollout.promoted"
        [("candidate", VStr candidate); ("measurements", VList (VFloat <$> (ms_value <$> ms)))] l3
        F3) as (e4 & l4 & E4 & _ & G4).
      rewrite (bind_ret_intro _ _ _ _ _ (on_ledger_run _ l3 _ _ _ E4)).
      do 2 eexists. split; [reflexivity|]. split; [done|]. exact (grown_trans _ _ _ _ _ G' G4).
    + do 2 eexists. split; [reflexivity|]. split; [done|]. rewrite app_nil_r. exact G'.
  - exists (Raise x), l2. split; [|by split]. unfold verdict, release_permission in *.
    destruct (cn_passed v); cbn [negb]; rewrite (bind_ret_intro _ _ _ _ _ (on_ledger_run _ l1 d _ _ E2)).
    + by apply bind_raise, (release_denied sj candidate environment (Some previous) _ x).
    + by apply bind_raise, (release_denied sj previous environment None _ x).
Qed.

(** C40. [verify_chain] binds the history: the ledger stays linked whatever is
    appended, and two ledgers that both verify and end in the same hash hold the
    same events in everything but their timestamps, unless the digest collides
    on two of their events. *)
Theorem ledger_tamper_evident (l1 l2 : EvidenceLedger) :
  verify_chain l1 = true -> verify_chain l2 = true ->
  last_hash (el_events l1) = last_hash (el_events l2) ->
  (forall e1 e2, e1 ∈ el_events l1 -> e2 ∈ el_events l2 ->
     ledger_digest (link_input e1) = ledger_digest (link_input e2) -> link_input e1 = link_input e2) ->
  Forall2 same_event (el_events l1) (el_events l2) /\
  forall eid ty payload, ledger_inv l1 -> verify_chain (snd (ledger_append eid ty payload l1)) = true.
Proof.
  intros H1 H2 Hl Hc. split; [by apply verified_same|].
  intros eid ty payload Hi. apply li_chain, ledger_append_inv, Hi.
Qed.
End deployment.

(** ** Semantic worlds *)

Section worlds.
Context {IF : IsoFormat} {OS : ObjStr}.

(** Both fact stores keep the contract: the versions of the facts about a
    subject and a predicate count from one in the order of assertion, an
    accepted fact is the next version and is read back with its source and
    confidence, in SQLite with its value through JSON, every other history is
    untouched, and a refused fact changes none. *)
Theorem fact_stores_keep_contract :
  fact_contract (fun v => v) world_inv memory_facts assert_fact /\
  fact_contract through_json knowledge_inv stored_facts knowledge_assert.
Proof. split; [apply semantic_world_contract | apply knowledge_world_contract]. Qed.

(** The identifiers of the SQLite facts collide: when two subjects and
    predicates read the same text joined by a colon and have the same number of
    facts, a fact asserted about the first blocks the second: its next fact
    raises [IntegrityError] and is never stored. *)
Theorem fact_identifiers_collide (k k1 : KnowledgeWorldStore) (s1 p1 s2 p2 src1 src2 : string)
    (v1 v2 : pyval) (c1 c2 : spec_float) (f : Fact) :
  knowledge_inv k -> (s1, p1) <> (s2, p2) -> s1 +:+ ":" +:+ p1 = s2 +:+ ":" +:+ p2 ->
  length (filter (row_about s1 p1) (kw_facts k)) = length (filter (row_about s2 p2) (kw_facts k)) ->
  knowledge_assert s1 p1 v1 src1 c1 k = (Ret f, k1) -> check_fact src2 c2 = Ret tt ->
  exists e k2, knowledge_assert s2 p2 v2 src2 c2 k1 = (Raise e, k2) /\
    exn_cls e = OtherException "IntegrityError" /\ kw_facts k2 = kw_facts k1.
Proof.
  intros Hi Hne Htext Hlen H1 Hc2.
  destruct (knowledge_assert_run s1 p1 v1 src1 c1 k) as (o & k' & E1 & _ & Ho). rewrite H1 in E1.
  injection E1 as <- <-. destruct Ho as (_ & Hf & _).
  destruct (knowledge_assert_run s2 p2 v2 src2 c2 k1) as (o & k2 & E2 & _ & Ho).
  destruct o as [g|e]; [exfalso | exists e, k2; split; [done|]; destruct Ho as [Hk [E|[He _]]];
    [congruence | by split]].
  destruct Ho as (_ & _ & _ & Hnew). revert Hnew. rewrite Hf. intros Hnew.
  eapply Hnew; [apply elem_of_app; right; by left|].
  cbn -[fact_id_of max_version]. rewrite Hf, filter_row_snoc, decide_False, app_nil_r
    by (intros [<- <-]; by apply Hne).
  rewrite (ki_versions _ Hi s1 p1), (ki_versions _ Hi s2 p2), !max_version_seqZ, Hlen.
  by rewrite !fact_id_text, Htext.
Qed.
End worlds.

(** ** Witnesses *)

#[local] Instance sample_ledger_digest : LedgerDigest := fun v =>
  match v with VTuple (VStr id :: _) => id | _ => "" end.

(** A queue of one finished and one waiting item. *)
Definition done_item : WorkItem string :=
  mkWork "a" [] 1 W_SUCCEEDED (Some "w0") None (Some "result") None.
Definition waiting_item : WorkItem string := mkWork "b" [] 0 W_QUEUED None None None None.
Definition sample_queue : LeaseQueue string := mkQueue 30 3 [done_item; waiting_item] sample_env.

Lemma sample_queue_inv : queue_inv sample_queue.
Proof.
  split.
  - apply (bool_decide_unpack _). vm_compute. exact I.
  - constructor; [|constructor; [|constructor]]; unfold item_ok; cbn; split_and!; try lia; by eauto.
Qed.

Lemma work_queue_state_machine_witness :
  queue_inv (snd (claim "w1" sample_queue)) /\
  exists it, lq_items (snd (claim "w1" sample_queue)) !! 0 = Some it /\ wi_result it = Some "result".
Proof.
  destruct (work_queue_state_machine sample_queue (snd (claim "w1" sample_queue))) as (Hi & _ & Ht).
  - exact sample_queue_inv.
  - apply rtc_once. exists (Some "w1"). apply (call_claim _ _ (fst (claim "w1" sample_queue))). reflexivity.
  - split; [exact Hi|]. destruct (Ht 0 done_item) as (it & Hl & _ & _ & Hr & _);
      [reflexivity | left; reflexivity|]. exists it. split; [exact Hl | rewrite Hr; reflexivity].
Defined.

Definition leased_item : WorkItem string := start_item "w1" 30000001%Z waiting_item.
Definition leased_queue : LeaseQueue string := snd (claim "w1" sample_queue).

(** Another worker looks for work and tries to report on the item. *)
Lemma work_lease_exclusive_witness :
  claim "w1" sample_queue = (Ret (Some leased_item), leased_queue) /\
  let q2 := snd (claim "w2" leased_queue) in
  complete "b" "w2" "stolen" q2 = (Ret false, q2).
Proof.
  split; [reflexivity|]. intros q2.
  destruct (work_lease_exclusive sample_queue leased_queue q2 "w1" leased_item 30000001%Z) as (_ & H & _).
  - exact sample_queue_inv.
  - reflexivity.
  - reflexivity.
  - apply rtc_once. exists (Some "w2"). split; [discriminate|].
    apply (call_claim _ _ (fst (claim "w2" leased_queue))). reflexivity.
  - intros n Hn. assert (ticks (lq_env q2) = 3) as E by reflexivity. rewrite E in Hn.
    change (clock (lq_env leased_queue) n) with (Z.of_nat n). lia.
  - destruct (H "w2" "stolen" "") as [Hc _]; [discriminate | exact Hc].
Defined.

(** A handler that always fails. *)
Definition failing_handler (p : dict) : M (LeaseQueue string * unit) string :=
  throw (Exn ValueError "no").

Lemma worker_drains_queue_witness : exists s,
  work_off "w1" failing_handler 4 (sample_queue, tt) = (Ret true, s) /\ Forall terminal (lq_items (fst s)).
Proof.
  destruct (worker_drains_queue "w1" failing_handler sample_queue tt) as (s & E & _ & Ht).
  - reflexivity.
  - exact sample_queue_inv.
  - unfold idle, sample_queue. cbn. repeat constructor; discriminate.
  - intros p s. split; [reflexivity | reflexivity|]. cbn.
    induction (lq_items (fst s)) as [|it l IH]; constructor; [|exact IH].
    exists (wi_payload it). destruct it. reflexivity.
  - exists s. split; [exact E | exact Ht].
Defined.

Definition sample_manager : Subject :=
  mkSubject "alice" "tenant" {["release-manager"]} {["environment" := "prod"]} ∅.

Definition empty_ledger : EvidenceLedger := new_ledger sample_env.

Lemma sample_ids_fresh : ids_fresh 7 empty_ledger.
Proof.
  intros i Hi. split; [set_solver|]. intros j Hj.
  do 7 (destruct i as [|i]; [do 7 (destruct j as [|j]; [vm_compute; first [reflexivity | discriminate]|]); lia|]).
  lia.
Qed.

(** 98 of 100 succeed: the canary fails and the previous version is restored. *)
Lemma rollout_refines_spec_witness : exists o l',
  evaluate_and_rollout default_canary sample_manager "v2" "prod" "v1" 5%Z 98%Z 100%Z (S754_zero false) []
    (mkPlane empty_ledger ∅) = (o, mkPlane l' {["prod" := "v1"]}) /\
  grown empty_ledger ["rollout.canary.started"; "rollout.canary.failed"; "deployment.rollback.approved";
                      "deployment.rollback.verified"] l'.
Proof.
  destruct (rollout_refines_spec default_canary sample_manager "v2" "prod" "v1" 5%Z 98%Z 100%Z
    (S754_zero false) [] empty_ledger ∅ sample_ids_fresh) as (o & l' & E & Ha & Hg).
  assert (exists v, canary_decide default_canary "v2" 5%Z 98%Z 100%Z (S754_zero false) = Ret v /\
    cn_passed v = false) as (v & Ev & Hv) by (eexists; split; vm_compute; reflexivity).
  assert (rbac_authorize sample_manager (release_policy "deployment.rollback" "prod") = Ret tt) as Er
    by (vm_compute; reflexivity).
  unfold rollout_spec, release_permission, verdict, release_evidence in *.
  rewrite Ev in *. rewrite Hv in *. rewrite Er in *.
  exists o, l'. split; [exact E|]. destruct o as [r|x]; [exact Hg | destruct Ha].
Defined.

Definition event_a (t : datetime) : LedgerEvent := mkLedgerEvent "1" "x" "t" [] t None "1".
Definition event_b (t : datetime) : LedgerEvent := mkLedgerEvent "2" "x" "t" [] t (Some "1") "2".

(** The same history with other timestamps. *)
Lemma ledger_tamper_evident_witness :
  Forall2 same_event [event_a 0%Z; event_b 1%Z] [event_a 7%Z; event_b 3%Z].
Proof.
  destruct (ledger_tamper_evident (mkLedger [event_a 0%Z; event_b 1%Z] {["1"; "2"]} sample_env)
    (mkLedger [event_a 7%Z; event_b 3%Z] {["1"; "2"]} sample_env)) as [H _].
  - vm_compute. reflexivity.
  - vm_compute. reflexivity.
  - reflexivity.
  - intros e1 e2 H1 H2. cbn in H1, H2.
    apply elem_of_cons in H1 as [H1|H1%list_elem_of_singleton];
      apply elem_of_cons in H2 as [H2|H2%list_elem_of_singleton]; subst e1 e2; cbn;
      first [reflexivity | discriminate].
  - exact H.
Defined.

#[local] Instance sample_obj_str : ObjStr := fun s => s.

Definition empty_knowledge : KnowledgeWorldStore := mkKnowledge ∅ [] sample_env.

(** A fact about ["a:b"] and ["c"] blocks the first one about ["a"] and ["b:c"]. *)
Lemma fact_identifiers_collide_witness : exists e k2,
  knowledge_assert "a" "b:c" (VInt 2) "source" (S754_zero false)
    (snd (knowledge_assert "a:b" "c" (VInt 1) "source" (S754_zero false) empty_knowledge)) =
    (Raise e, k2).
Proof.
  destruct (knowledge_assert "a:b" "c" (VInt 1) "source" (S754_zero false) empty_knowledge)
    as [o k1] eqn:E. cbn [snd].
  destruct o as [f|x]; [|vm_compute in E; discriminate E].
  destruct (fact_identifiers_collide empty_knowledge k1 "a:b" "c" "a" "b:c" "source" "source"
    (VInt 1) (VInt 2) (S754_zero false) (S754_zero false) f) as (e & k2 & E2 & _).
  - split; [intros s p; reflexivity | constructor].
  - discriminate.
  - reflexivity.
  - reflexivity.
  - exact E.
  - reflexivity.
  - exists e, k2. exact E2.
Defined.
