(* ===== verification/LifecycleTheorems.v ===== *)
(** * Theorems on the production lifecycle

    What executions and rollouts of [OISProductionLifecycle] may do, what they
    return, the worker that executes a lease queue, and what the evidence
    bridge gives back to the kernel. *)

From stdpp Require Import base gmap strings list relations.
From Stdlib Require Import ZArith Lia Floats.SpecFloat.
From S2P Require Import Prelude Uuid Json Types State Recovery Policy Validation Stores Registry.
From S2P Require Import Fencing Runtime RuntimeFacts RuntimeRuns Integrated Samples Workers.
From S2P Require Import Deployment SemanticWorld Lifecycle LifecycleFacts.
From S2P Require Import RuntimeTheorems ProductionTheorems.
Local Open Scope py_scope.

Section theorems.
Context {LD : LedgerDigest} {IF : IsoFormat}.
Context {CS IS D : Type} `{!CheckpointStore CS} `{!IdempotencyStore IS} {DA : DeploymentAdapter D}.

(** C14. However they end, executions and the handler of a worker only append
    linked evidence to the shared ledger and never touch what is deployed; a
    rollout appends linked evidence and changes what is deployed only to its
    candidate or back to its previous version, in its environment, if the subject
    it is called with is a release manager of that environment (with a tenant,
    the role and the attribute), and directly after the recorded approval of
    exactly this change. *)
Theorem lifecycle_refines_approved_steps (lf : Lifecycle) (r : ControlRequest)
    (objective tenant : string) (invocation : option string) (who : Requester) (payload : dict)
    (candidate environment previous : string) (executions : list LifecycleResult) (pct : Z)
    (latency : spec_float) (sj : Subject) (s : LifecycleState CS IS D) :
  plane_records s (snd (lifecycle_execute lf r objective tenant invocation who s)) /\
  plane_records s (snd (lifecycle_handle lf payload s)) /\
  plane_moves (rollout_release sj candidate environment previous) s
    (snd (rollout_from_executions lf candidate environment previous executions pct
                        latency sj s)).
Proof. split; [apply records_execute|]. split; [apply records_handle | apply moves_rollout]. Qed.


(** Results are shared by key: after a success, any later success whose
    tenant, capability, version and invocation read the same text joined by
    colons returns the stored result of the first and stores nothing.  A repeated
    request is performed once; requests of two tenants with colons in their
    names can share a key. *)
Theorem lifecycle_replay {CPL : CheckpointLaws CS} {IDL : IdempotencyLaws IS} (lf : Lifecycle)
    (r1 r2 : ControlRequest) (o1 o2 t1 t2 i1 i2 : string) (w1 w2 : Requester)
    (s s1 u u1 : LifecycleState CS IS D) (x1 x2 : LifecycleResult) :
  i1 <> "" -> i2 <> "" -> lifecycle_key t1 r1 i1 = lifecycle_key t2 r2 i2 ->
  idem_inv (lc_idempotency s) ->
  lifecycle_execute lf r1 o1 t1 (Some i1) w1 s = (Ret x1, s1) -> succeeded (lr_result x1) = true ->
  lc_idempotency u = lc_idempotency s1 ->
  lifecycle_execute lf r2 o2 t2 (Some i2) w2 u = (Ret x2, u1) -> succeeded (lr_result x2) = true ->
  same_result (lr_result x1) (lr_result x2) /\ lc_idempotency u1 = lc_idempotency u.
Proof.
  intros Hn1 Hn2 Hkey Hinv H1 Hs1 Hu H2 Hs2.
  apply lifecycle_success in H1 as (j1 & _ & _ & _ & _ & Hj1 & _ & _ & _ & _ & _ & Hc1); [|done].
  apply lifecycle_success in H2 as (j2 & _ & _ & _ & _ & Hj2 & _ & _ & _ & _ & _ & Hc2); [|done].
  rewrite (Hj1 i1), (Hj2 i2) in * by done. cbn zeta in *. rewrite <- Hkey, Hu in Hc2. rewrite Hu.
  assert (exists r', idem_get (lifecycle_key t1 r1 i1) (lc_idempotency s1) = Ret (Some r') /\
    same_result (lr_result x1) r') as (r' & Hg & Hsame).
  { destruct Hc1 as [[Hg Hi]|[Hg Hput]].
    - exists (lr_result x1). rewrite Hi. split; [done | reflexivity].
    - eapply idem_put_get; [exact Hinv | by apply succeeded_cacheable | exact Hg | exact Hput]. }
  rewrite Hg in Hc2. destruct Hc2 as [[E Hi]|[E _]]; [|done]. injection E as <-. by split.
Qed.

(** A worker of the lifecycle works an idle queue off: whatever the
    capabilities, the policy and the stores do, repeated [run_once] finds nothing
    to do after at most as many rounds as there are attempts left, and every
    item has succeeded or failed. *)
Theorem lifecycle_worker_drains (lf : Lifecycle) (worker : string)
    (q : LeaseQueue LifecycleResult) (s : LifecycleState CS IS D) :
  (0 < lq_max_attempts q)%Z -> queue_inv q -> idle q ->
  exists s', work_off worker (lifecycle_handler lf) (S (queue_left q)) (q, s) = (Ret true, s') /\
    queue_inv (fst s') /\ Forall terminal (lq_items (fst s')).
Proof.
  intros Hm Hi Hq. apply work_off_drains; [done | done | done | apply lifecycle_handler_quiet].
Qed.
End theorems.

(** [rollout_from_executions] implements the abstract rollout on the counts
    of the executions it is given: it answers and deploys what the specification
    says for the number of succeeded results among all of them, as the rollout
    controller does, and changes nothing else of the lifecycle. *)
Theorem lifecycle_rollout_refines_spec {LD : LedgerDigest} {CS IS : Type} (lf : Lifecycle)
    (candidate environment previous : string) (executions : list LifecycleResult) (pct : Z)
    (latency : spec_float) (sj : Subject) (s : LifecycleState CS IS (gmap string string)) :
  ids_fresh 7 (ps_ledger (lc_plane s)) ->
  let spec := rollout_spec (lf_canary lf) sj candidate environment previous pct
                (count_successes executions) (Z.of_nat (length executions)) latency
                (ps_deployment (lc_plane s)) in
  exists o l', rollout_from_executions lf candidate environment previous executions pct latency sj s =
      (o, with_plane (mkPlane l' (snd spec)) s) /\
    answers (fun x => (lo_state x, lo_decision x)) o (fst spec).
Proof.
  intros Hf spec. destruct s as [[l d] w c i t e]. cbn [lc_plane ps_ledger ps_deployment] in *.
  exact (rollout_from_executions_spec lf candidate environment previous executions pct latency sj
    (mkLifecycleState (mkPlane l d) w c i t e) l d Hf).
Qed.

Section bridge.
Context {LD : LedgerDigest} {IF : IsoFormat}.

(** Kernel events come back from the ledger: after [append], [list] ends with
    an event of the same execution, type, actor, component, data, correlation
    and causation, but under the identifier and the time the ledger gave it. *)
Theorem bridge_roundtrip (e : EvidenceEvent) (l l' : EvidenceLedger) (old : list EvidenceEvent) :
  (forall k, k ∈ bridge_keys -> k ∉ dkeys (ev_data e)) -> uuid_ok (ev_execution_id e) ->
  uuid_ok (fst (uuid4 (el_env l))) ->
  bridge_append e l = Ret l' -> bridge_list None l = Ret old ->
  bridge_list None l' = Ret (old ++ [mkEvent (ev_execution_id e) (ev_event_type e)
    (fst (utc_now (el_env l))) (fst (uuid4 (el_env l))) (ev_actor e) (ev_component e) (ev_data e)
    (ev_correlation_id e) (ev_causation_id e)]).
Proof.
  intros Hk He Hu Ha Hl. unfold bridge_append, ledger_append, ledger_uuid in Ha. mred.
  cbn in Ha. case_bool_decide; [done|]. injection Ha as <-.
  unfold bridge_list, ledger_events in *. cbn [fmap option_fmap option_map el_events] in *.
  rewrite bridge_events_app, Hl. cbn [out_bind bridge_events].
  rewrite bridge_event_back; [done | done | done | exact Hu].
Qed.

(** Evidence of a rollout makes the bridge unusable as a store of the kernel:
    its execution identifier is no UUID, so once it is in the shared ledger
    [list] raises for all executions, whatever else the ledger holds. *)
Theorem rollout_breaks_listing (l l' : EvidenceLedger) (candidate environment ty : string)
    (payload : dict) (e : LedgerEvent) :
  ledger_append (rollout_id candidate environment) ty payload l = (Ret e, l') ->
  forall l2, ledger_extends l' l2 -> exists x, bridge_list None l2 = Raise x.
Proof.
  intros H l2 [new Hl2]. unfold bridge_list, ledger_events. cbn [fmap option_fmap option_map].
  destruct (ledger_append_run (rollout_id candidate environment) ty payload l) as
    [(e' & l1 & E & He & _ & _ & Hid & _)|(x & l1 & E & _)]; rewrite E in H; [|done].
  injection H as <- <-. rewrite Hl2, He, <- app_assoc, bridge_events_app.
  destruct (bridge_events (el_events l)) as [a|x]; [|by exists x]. cbn [out_bind app bridge_events].
  unfold bridge_event at 1. rewrite Hid. destruct (rollout_id_no_uuid candidate environment) as [m ->].
  by eexists.
Qed.
End bridge.

(** ** Witnesses *)

#[local] Instance sample_ledger_digest : LedgerDigest := fun v =>
  match v with VTuple (VStr id :: _) => id | _ => "" end.

Abbreviation memory_lifecycle := (LifecycleState (gmap uuid ExecutionContext)
  (gmap string InvocationResult) (gmap string string)).

Definition capabilities_two : list (CapabilityEntry Capability) :=
  [mkCapEntry ok_capability (cap_contract ok_capability) "c" "1";
   mkCapEntry ok_capability (cap_contract ok_capability) "b:c" "1"].

Definition sample_lifecycle : Lifecycle := mkLifecycle capabilities_two capabilities_two
  (production_policy (authorize default_policy)) default_canary.

Definition sample_requester : Requester :=
  mkRequester "alice" [] ["execution.invoke"] "staging" [("environment", "staging")].

Definition sample_state : memory_lifecycle :=
  mkLifecycleState (mkPlane (new_ledger sample_env) ∅) (new_world sample_env) ∅ ∅ new_token sample_env.

Definition request_c : ControlRequest := mkControlRequest "c" "1" [].
Definition request_bc : ControlRequest := mkControlRequest "b:c" "1" [].

Abbreviation run_c := (lifecycle_execute (CS := gmap uuid ExecutionContext)
  (IS := gmap string InvocationResult) (D := gmap string string) sample_lifecycle request_c "objective"
  "a:b" (Some "i") sample_requester).
Abbreviation run_bc := (lifecycle_execute (CS := gmap uuid ExecutionContext)
  (IS := gmap string InvocationResult) (D := gmap string string) sample_lifecycle request_bc "objective"
  "a" (Some "i") sample_requester).

(** Whether a run returned a success. *)
Definition run_ok (p : outcome LifecycleResult * memory_lifecycle) : bool :=
  match fst p with Ret x => succeeded (lr_result x) | Raise _ => false end.

Lemma run_ok_spec p : run_ok p = true -> exists x, p = (Ret x, snd p) /\ succeeded (lr_result x) = true.
Proof. destruct p as [[x|e] s]; [|done]. intros H. by exists x. Qed.

Lemma run_c_ok : run_ok (run_c sample_state) = true.
Proof. vm_compute. reflexivity. Qed.
Lemma run_bc_ok : run_ok (run_bc (snd (run_c sample_state))) = true.
Proof. vm_compute. reflexivity. Qed.


(** Tenant ["a"] is answered with the result stored for tenant ["a:b"]. *)
Lemma lifecycle_replay_witness : exists x1 x2 s1 s2,
  run_c sample_state = (Ret x1, s1) /\ run_bc s1 = (Ret x2, s2) /\
  same_result (lr_result x1) (lr_result x2) /\ lc_idempotency s2 = lc_idempotency s1.
Proof.
  destruct (run_ok_spec _ run_c_ok) as (x1 & E1 & H1).
  destruct (run_ok_spec _ run_bc_ok) as (x2 & E2 & H2).
  exists x1, x2, (snd (run_c sample_state)), (snd (run_bc (snd (run_c sample_state)))).
  split; [exact E1|]. split; [exact E2|].
  apply (lifecycle_replay sample_lifecycle request_c request_bc "objective" "objective" "a:b" "a" "i" "i"
    sample_requester sample_requester sample_state (snd (run_c sample_state)) (snd (run_c sample_state))
    (snd (run_bc (snd (run_c sample_state)))) x1 x2).
  - discriminate.
  - discriminate.
  - reflexivity.
  - exact I.
  - exact E1.
  - exact H1.
  - reflexivity.
  - exact E2.
  - exact H2.
Defined.

(** Without executions the canary fails and the previous version is restored. *)
Lemma lifecycle_rollout_refines_spec_witness : exists o l',
  rollout_from_executions sample_lifecycle "v2" "prod" "v1" [] 5%Z (S754_zero false) sample_manager
    sample_state = (o, with_plane (mkPlane l' {["prod" := "v1"]}) sample_state).
Proof.
  destruct (lifecycle_rollout_refines_spec sample_lifecycle "v2" "prod" "v1" [] 5%Z (S754_zero false)
    sample_manager sample_state sample_ids_fresh) as (o & l' & E & _).
  exists o, l'. rewrite E. vm_compute. reflexivity.
Defined.

Definition kernel_event : EvidenceEvent :=
  mkEvent 7%N "execution.received" 3%Z 9%N "kernel" "ois.kernel" [("version", VStr "1")] None (Some "x").

Lemma bridge_roundtrip_witness : exists l', bridge_append kernel_event (new_ledger sample_env) = Ret l' /\
  bridge_list None l' = Ret [mkEvent 7%N "execution.received" 0%Z 100%N "kernel" "ois.kernel"
                               [("version", VStr "1")] None (Some "x")].
Proof.
  destruct (bridge_append kernel_event (new_ledger sample_env)) as [l'|x] eqn:E;
    [|vm_compute in E; discriminate E].
  exists l'. split; [reflexivity|].
  rewrite (bridge_roundtrip kernel_event (new_ledger sample_env) l' []); [reflexivity | | | | exact E |].
  - intros k Hk Hin. cbn in Hin. apply list_elem_of_singleton in Hin as ->.
    revert Hk. apply (bool_decide_unpack _). vm_compute. exact I.
  - reflexivity.
  - reflexivity.
  - reflexivity.
Defined.

Lemma rollout_breaks_listing_witness : exists l' x,
  snd (ledger_append (rollout_id "v2" "prod") "rollout.canary.started" [] (new_ledger sample_env)) = l' /\
  bridge_list None l' = Raise x.
Proof.
  destruct (ledger_append (rollout_id "v2" "prod") "rollout.canary.started" [] (new_ledger sample_env))
    as [[e|x] l'] eqn:E; [|vm_compute in E; discriminate E].
  destruct (rollout_breaks_listing _ l' "v2" "prod" "rollout.canary.started" [] e E l') as [x Hx];
    [exists []; symmetry; apply app_nil_r|].
  exists l', x. split; [reflexivity | exact Hx].
Defined.
