(* ===== verification/Governance.v ===== *)
(** * Production governance: [production/governance.py]

    The small authorizer, versioned deployment with rollback, canary traffic,
    the SQLite coordinator of leased jobs, the SQLite semantic world and the
    learning engine.  [time.time()] is a stream of floats.  The facts below are
    the linked history of the deployments, the story the learning engine's log
    tells of a candidate, what calls of other workers do to a lease, and the
    versions of the facts of a subject and a predicate.

    Its theorems: the history of deployments and its rollbacks, the gates of the
    learning engine, the leases of the coordinator, the versions of facts, the
    authorizer and the traffic of a canary. *)

From stdpp Require Import base gmap strings list numbers.
From Stdlib Require Import ZArith Lia Floats.SpecFloat.
From S2P Require Import Prelude Uuid Json Samples SourceLimits.
Local Open Scope py_scope.

Definition governance_error {A} (msg : string) : outcome A :=
  raise (OtherException "GovernanceError") msg.

(** [not approved_by] and [not evidence] *)
Definition no_text (o : option string) : bool :=
  match o with Some s => String.eqb s "" | None => true end.
Definition no_items (l : list string) : bool := match l with [] => true | _ => false end.

(** ** [EnterpriseAuthorizer] *)

Record AuthorizationContext := mkAuthContext {
  ac_subject : string;
  ac_tenant : string;
  ac_roles : gset string;
  ac_attributes : gmap string string;
  ac_permissions : gset string }.

Record ABACRule := mkRule {
  ar_permission : string;
  ar_roles : gset string;
  ar_attributes : list (string * string);
  ar_tenant_required : bool }.

(** [ABACRule.allows] *)
Definition rule_allows (r : ABACRule) (c : AuthorizationContext) : bool :=
  if ar_tenant_required r && String.eqb (ac_tenant c) "" then false
  else if negb (bool_decide (ar_roles r = ∅)) && bool_decide (ar_roles r ∩ ac_roles c = ∅) then false
  else if existsb (fun kv => negb (bool_decide (ac_attributes c !! fst kv = Some (snd kv))))
            (ar_attributes r) then false
  else bool_decide (ar_permission r ∈ ac_permissions c).

Definition enterprise_authorize (rules : list ABACRule) (c : AuthorizationContext)
    (permission : string) : outcome bool :=
  let candidates := List.filter (fun r => String.eqb (ar_permission r) permission) rules in
  if existsb (fun r => rule_allows r c) candidates then Ret true
  else governance_error ("authorization denied: " +:+ permission).

(** ** [DeploymentController] *)

Record DeploymentRecord := mkRecord {
  dr_deployment_id : string;
  dr_version : string;
  dr_environment : string;
  dr_previous_version : option string;
  dr_state : string;
  dr_approved_by : option string;
  dr_evidence : list string }.

Record DeploymentController := mkController {
  dc_current : gmap string string;
  dc_records : list DeploymentRecord;
  dc_env : Env }.

Definition history (environment : string) (c : DeploymentController) : list DeploymentRecord :=
  List.filter (fun r => String.eqb (dr_environment r) environment) (dc_records c).

Definition current (environment : string) (c : DeploymentController) : option string :=
  dc_current c !! environment.

(** [_previous]: the newest earlier record of another version, or the previous
    version of the newest record. *)
Definition previous_version (environment : string) (c : DeploymentController) : option string :=
  match rev (history environment c) with
  | [] => None
  | newest :: older =>
      match List.find (fun r => negb (String.eqb (dr_version r) (dr_version newest))) older with
      | Some r => Some (dr_version r)
      | None => dr_previous_version newest
      end
  end.

(** A new record is stored and its version is current. *)
Definition record_release (version environment : string) (previous : option string) (state : string)
    (approved_by : option string) (evidence : list string) :
    M DeploymentController DeploymentRecord := fun c =>
  let '(u, e) := uuid4 (dc_env c) in
  let r := mkRecord (uuid_str u) version environment previous state approved_by evidence in
  (Ret r, mkController (<[environment := version]> (dc_current c)) (dc_records c ++ [r]) e).

Definition gov_deploy (version environment : string) (approved_by : option string)
    (evidence : list string) : M DeploymentController DeploymentRecord :=
  if no_text approved_by then lift (governance_error "deployment requires explicit approval")
  else if no_items evidence then lift (governance_error "deployment requires evidence")
  else
    c <- get ;;
    record_release version environment (current environment c) "active" approved_by evidence.

Definition gov_rollback (environment : string) (approved_by : option string)
    (evidence : list string) : M DeploymentController DeploymentRecord :=
  if no_text approved_by then lift (governance_error "rollback requires explicit approval")
  else if no_items evidence then lift (governance_error "rollback requires evidence")
  else
    c <- get ;;
    match previous_version environment c with
    | None => lift (governance_error "no rollback target exists")
    | Some previous =>
        record_release previous environment (current environment c) "rolled_back" approved_by evidence
    end.

(** ** [CanaryController] *)

Record RolloutState := mkRolloutState {
  rs_stable : string; rs_candidate : string; rs_percentage : Z; rs_state : string }.

Definition canary_start (id stable candidate : string) (percentage : Z) :
    M (gmap string RolloutState) unit :=
  if negb ((1 <=? percentage)%Z && (percentage <=? 100)%Z) then
    lift (governance_error "canary percentage must be between 1 and 100")
  else modify (fun m => <[id := mkRolloutState stable candidate percentage "canary"]> m).

Definition rollout_of (id : string) : M (gmap string RolloutState) RolloutState := fun m =>
  match m !! id with Some r => (Ret r, m) | None => (raise KeyError id, m) end.

(** [int(sha256(subject).hexdigest()[:8], 16)] *)
Class SubjectHash := subject_hash : string -> Z.

Definition bucket {SH : SubjectHash} (subject : string) : Z := (subject_hash subject mod 100)%Z.

Definition canary_assign {SH : SubjectHash} (id subject : string) : M (gmap string RolloutState) string :=
  r <- rollout_of id ;;
  ret (if (bucket subject <? rs_percentage r)%Z then rs_candidate r else rs_stable r).

Definition canary_transition (id : string) (success_rate latency_ratio minimum maximum : spec_float)
    (approved_by : option string) : M (gmap string RolloutState) string :=
  r <- rollout_of id ;;
  if no_text approved_by then lift (governance_error "canary transition requires approval")
  else
    let state := if SFleb minimum success_rate && SFleb latency_ratio maximum then "promoted"
                 else "rolled_back" in
    modify (fun m => <[id := mkRolloutState (rs_stable r) (rs_candidate r) (rs_percentage r) state]> m) ;;;
    ret state.

Definition canary_state (id : string) : M (gmap string RolloutState) string :=
  r <- rollout_of id ;; ret (rs_state r).

(** ** [DistributedCoordinator] *)

Record job_row := mkJobRow { jr_state : string; jr_result : option json_text }.
Record lease_row := mkLease { lr_worker : string; lr_expires : spec_float }.

Record Coordinator := mkCoordinator {
  co_jobs : gmap string job_row;
  co_leases : gmap string lease_row;
  co_clock : float_stream }.

Definition coordinator_time : M Coordinator spec_float := fun c =>
  let '(t, s) := next_float (co_clock c) in (Ret t, mkCoordinator (co_jobs c) (co_leases c) s).

(** [claim] reads the lease of the job first.  The statements that follow run in a
    transaction of their own, so workers on different connections interleave
    between the two. *)
Definition claim_row (job : string) : M Coordinator (spec_float * option lease_row) :=
  now <- coordinator_time ;;
  c <- get ;;
  ret (now, co_leases c !! job).

Definition claim_refused (worker : string) (now : spec_float) (row : option lease_row) : bool :=
  match row with
  | Some l => SFltb now (lr_expires l) && negb (String.eqb (lr_worker l) worker)
  | None => false
  end.

Definition claim_write (job worker : string) (expires : spec_float) : M Coordinator (option spec_float) :=
  modify (fun c => mkCoordinator
    (match co_jobs c !! job with Some _ => co_jobs c
     | None => <[job := mkJobRow "claimed" None]> (co_jobs c) end)
    (<[job := mkLease worker expires]> (co_leases c)) (co_clock c)) ;;;
  ret (Some expires).

(** [claim]: the expiry of the lease that was granted. *)
Definition coordinator_claim (job worker : string) (ttl : spec_float) : M Coordinator (option spec_float) :=
  found <- claim_row job ;;
  let '(now, row) := found in
  if claim_refused worker now row then ret None else claim_write job worker (fadd now ttl).

Definition complete_row (t : json_text) (_ : job_row) : job_row := mkJobRow "completed" (Some t).

Definition coordinator_complete (job worker : string) (result : pyval) : M Coordinator unit :=
  c <- get ;;
  if match co_leases c !! job with
     | Some l => negb (String.eqb (lr_worker l) worker)
     | None => true
     end
  then lift (governance_error "worker does not own job lease")
  else
    t <- lift (dumps result) ;;
    modify (fun c => mkCoordinator (alter (complete_row t) job (co_jobs c))
                       (delete job (co_leases c)) (co_clock c)).

Definition coordinator_result (job : string) (c : Coordinator) : option pyval :=
  match co_jobs c !! job with
  | Some r => loads <$> jr_result r
  | None => None
  end.

(** ** [SemanticWorld] *)

(** Rows of [facts] in the order of their [AUTOINCREMENT] key, which counts from
    one because rows are never deleted. *)
Record gov_fact := mkGovFact {
  gf_subject : string; gf_predicate : string; gf_object : string; gf_source : string;
  gf_version : Z }.

Record GovWorld := mkGovWorld {
  gw_entities : gmap string (string * json_text);
  gw_facts : list gov_fact }.

Definition gov_upsert_entity (id ty : string) (data : dict) : M GovWorld unit :=
  t <- lift (dumps (VDict data)) ;;
  modify (fun w => mkGovWorld (<[id := (ty, t)]> (gw_entities w)) (gw_facts w)).

(** [SELECT COALESCE(MAX(version), 0)] *)
Definition newest_version (l : list gov_fact) : Z := foldr (fun f v => Z.max (gf_version f) v) 0%Z l.

Definition gov_add_fact (subject predicate object source : string) : M GovWorld Z := fun w =>
  let mine := List.filter (fun f => String.eqb (gf_subject f) subject &&
                                    String.eqb (gf_predicate f) predicate) (gw_facts w) in
  let f := mkGovFact subject predicate object source (newest_version mine + 1) in
  (Ret (Z.of_nat (length (gw_facts w)) + 1)%Z, mkGovWorld (gw_entities w) (gw_facts w ++ [f])).

Definition gov_facts (subject : string) (w : GovWorld) : list gov_fact :=
  List.filter (fun f => String.eqb (gf_subject f) subject) (gw_facts w).

(** ** [LearningEngine] *)

Record Candidate := mkCandidate {
  ca_candidate_id : string;
  ca_target : string;
  ca_version : string;
  ca_evidence : list string;
  ca_state : string }.

Definition with_state (s : string) (c : Candidate) : Candidate :=
  mkCandidate (ca_candidate_id c) (ca_target c) (ca_version c) (ca_evidence c) s.

Record LearningEngine := mkEngine { le_candidates : gmap string Candidate; le_env : Env }.

Definition put_candidate (id : string) (c : Candidate) : M LearningEngine unit :=
  modify (fun e => mkEngine (<[id := c]> (le_candidates e)) (le_env e)).

Definition candidate_of (id : string) : M LearningEngine Candidate := fun e =>
  match le_candidates e !! id with Some c => (Ret c, e) | None => (raise KeyError id, e) end.

Definition propose (target version : string) (evidence : list string) : M LearningEngine Candidate :=
  if no_items evidence then lift (governance_error "learning proposal requires evidence")
  else
    id <- (fun e => let '(u, env) := uuid4 (le_env e) in (Ret (uuid_str u), mkEngine (le_candidates e) env)) ;;
    let c := mkCandidate id target version evidence "proposed" in
    put_candidate id c ;;;
    ret c.

(** [evaluate]: whatever the state of the candidate is. *)
Definition evaluate_candidate (id : string) (score : spec_float) : M LearningEngine Candidate :=
  c <- candidate_of id ;;
  let state := if SFleb zero_float score && SFleb score one_float then "evaluated" else "rejected" in
  put_candidate id (with_state state c) ;;;
  ret (with_state state c).

Definition approve_candidate (id approved_by : string) : M LearningEngine Candidate :=
  c <- candidate_of id ;;
  if negb (String.eqb (ca_state c) "evaluated") then
    lift (governance_error "candidate must be evaluated before approval")
  else if String.eqb approved_by "" then lift (governance_error "candidate approval requires identity")
  else put_candidate id (with_state "approved" c) ;;; ret (with_state "approved" c).

(** [activate]: the [rollout] that is passed in may itself call the engine; [W]
    is what else it works on. *)
Section activate.
Context {W : Type}.

Definition on_engine {A} (m : M LearningEngine A) : M (LearningEngine * W) A := fun s =>
  let '(o, e) := m (fst s) in (o, (e, snd s)).

Definition activate_candidate (id : string) (rollout : Candidate -> M (LearningEngine * W) unit) :
    M (LearningEngine * W) Candidate :=
  c <- on_engine (candidate_of id) ;;
  if negb (String.eqb (ca_state c) "approved") then
    lift (governance_error "only approved candidates may activate")
  else
    rollout c ;;;
    on_engine (put_candidate id (with_state "activated" c)) ;;;
    ret (with_state "activated" c).
End activate.

(** ** Deployments *)

Inductive controller_call : Type :=
  | GovDeploy (version environment : string) (approved_by : option string) (evidence : list string)
  | GovRollback (environment : string) (approved_by : option string) (evidence : list string).

Definition controller_step (x : controller_call) : M DeploymentController DeploymentRecord :=
  match x with
  | GovDeploy v e a ev => gov_deploy v e a ev
  | GovRollback e a ev => gov_rollback e a ev
  end.

Definition controller_run (calls : list controller_call) (c : DeploymentController) :
    DeploymentController :=
  fold_left (fun c x => snd (controller_step x c)) calls c.

Definition new_controller (env : Env) : DeploymentController := mkController ∅ [] env.

(** Each record names the version that the record before it made current. *)
Fixpoint linked (before : option string) (l : list DeploymentRecord) : Prop :=
  match l with
  | [] => True
  | r :: l => dr_previous_version r = before /\ linked (Some (dr_version r)) l
  end.

Definition newest (l : list DeploymentRecord) : option string := dr_version <$> list.last l.

Definition approved_record (r : DeploymentRecord) : Prop :=
  no_text (dr_approved_by r) = false /\ no_items (dr_evidence r) = false.

Definition controller_inv (c : DeploymentController) : Prop :=
  forall e, linked None (history e c) /\ current e c = newest (history e c) /\
            Forall approved_record (history e c).

Lemma linked_snoc p l r :
  linked p l -> dr_previous_version r = from_option Some p (newest l) -> linked p (l ++ [r]).
Proof.
  revert p. induction l as [|x l IH]; intros p; cbn [linked app]; [done|].
  intros [Hx Hl] Hr. split; [done|]. apply IH; [done|].
  unfold newest in *. rewrite last_cons in Hr. destruct (list.last l); exact Hr.
Qed.

Lemma newest_snoc l r : newest (l ++ [r]) = Some (dr_version r).
Proof. unfold newest. by rewrite last_snoc. Qed.

(** Storing a record. *)
Definition stored (environment : string) (r : DeploymentRecord) (c c' : DeploymentController) : Prop :=
  dr_environment r = environment /\
  (forall e, history e c' = history e c ++ (if String.eqb environment e then [r] else [])) /\
  (forall e, current e c' = if String.eqb environment e then Some (dr_version r) else current e c).

Lemma record_release_spec v e p s a ev c :
  exists r c', record_release v e p s a ev c = (Ret r, c') /\ stored e r c c' /\
    dr_version r = v /\ dr_previous_version r = p /\ dr_state r = s /\
    dr_approved_by r = a /\ dr_evidence r = ev.
Proof.
  unfold record_release. destruct (uuid4 (dc_env c)) as [u env].
  eexists _, _. split; [reflexivity|]. split; [|done]. split; [done|]. split.
  - intros e'. unfold history. cbn [dc_records]. rewrite List.filter_app. cbn [List.filter dr_environment].
    by destruct (String.eqb e e').
  - intros e'. unfold current. cbn [dc_current dr_version].
    destruct (String.eqb_spec e e') as [->|Hne]; [by rewrite lookup_insert_eq|by rewrite lookup_insert_ne].
Qed.

Lemma stored_inv e r c c' :
  controller_inv c -> stored e r c c' -> dr_previous_version r = current e c -> approved_record r ->
  controller_inv c'.
Proof.
  intros Hi (He & Hh & Hc) Hp Ha e'. destruct (Hi e') as (Hl & Hn & Hf). rewrite Hh, Hc.
  destruct (String.eqb_spec e e') as [<-|Hne].
  - split; [|split].
    + apply linked_snoc; [done|]. rewrite Hp, Hn. by destruct (newest _).
    + by rewrite newest_snoc.
    + apply Forall_app. auto.
  - by rewrite app_nil_r.
Qed.

(** What a call did: nothing and an error, or one approved record. *)
Definition controller_outcome (x : controller_call) (c : DeploymentController)
    (out : outcome DeploymentRecord * DeploymentController) : Prop :=
  match out with
  | (Raise _, c') => c' = c
  | (Ret r, c') =>
      exists e, stored e r c c' /\ dr_previous_version r = current e c /\ approved_record r /\
        match x with
        | GovDeploy v e' _ _ => e = e' /\ dr_version r = v
        | GovRollback e' _ _ => e = e' /\ previous_version e c = Some (dr_version r)
        end
  end.

Lemma controller_step_outcome x c : controller_outcome x c (controller_step x c).
Proof.
  destruct x as [v e a ev|e a ev]; unfold controller_step, gov_deploy, gov_rollback, governance_error;
    (destruct (no_text a) eqn:Ha; [reflexivity|]; destruct (no_items ev) eqn:Hev; [reflexivity|]; mred).
  - destruct (record_release_spec v e (current e c) "active" a ev c)
      as (r & c' & Hr & Hs & Hv & Hp & _ & Ha' & He'). rewrite Hr.
    exists e. unfold approved_record. rewrite Ha', He'. done.
  - destruct (previous_version e c) as [v|] eqn:Hv; [|reflexivity].
    destruct (record_release_spec v e (current e c) "rolled_back" a ev c)
      as (r & c' & Hr & Hs & Hv' & Hp & _ & Ha' & He'). rewrite Hr.
    exists e. unfold approved_record. rewrite Ha', He', Hv'. done.
Qed.

Lemma controller_step_inv x c : controller_inv c -> controller_inv (snd (controller_step x c)).
Proof.
  intros Hi. pose proof (controller_step_outcome x c) as Ho.
  destruct (controller_step x c) as [[r|e] c']; cbn in Ho |- *; [|by subst].
  destruct Ho as (env & Hs & Hp & Ha & _). by eapply stored_inv.
Qed.

Lemma controller_run_inv calls c : controller_inv c -> controller_inv (controller_run calls c).
Proof.
  revert c. induction calls as [|x l IH]; intros c Hi; [done|].
  cbn. apply IH. by apply controller_step_inv.
Qed.

Lemma new_controller_inv env : controller_inv (new_controller env).
Proof. intros e. by repeat split; try constructor. Qed.

(** The target of a rollback, in terms of the newest record. *)
Lemma previous_version_snoc e c l n :
  history e c = l ++ [n] ->
  previous_version e c =
    match List.find (fun r => negb (String.eqb (dr_version r) (dr_version n))) (rev l) with
    | Some r => Some (dr_version r)
    | None => dr_previous_version n
    end.
Proof. intros Hh. unfold previous_version. rewrite Hh, rev_app_distr. reflexivity. Qed.

(** After a rollback the version it left is the next target. *)
Lemma previous_after_rollback e a ev c r c' :
  controller_inv c -> gov_rollback e a ev c = (Ret r, c') ->
  previous_version e c' = current e c /\ is_Some (current e c).
Proof.
  intros Hi Hr. pose proof (controller_step_outcome (GovRollback e a ev) c) as Ho.
  cbn [controller_step] in Ho. rewrite Hr in Ho.
  destruct Ho as (env & (_ & Hh & _) & Hp & _ & -> & Hprev).
  specialize (Hh e). rewrite String.eqb_refl in Hh.
  destruct (Hi e) as (_ & Hc & _).
  destruct (list.last (history e c)) as [n|] eqn:Hlast.
  2:{ apply last_None in Hlast. unfold previous_version in Hprev. by rewrite Hlast in Hprev. }
  apply last_Some in Hlast as [l Hl]. rewrite Hl, newest_snoc in Hc.
  rewrite Hc in *. split; [|by eexists].
  rewrite (previous_version_snoc _ _ _ _ Hh), Hl, rev_app_distr.
  rewrite (previous_version_snoc _ _ _ _ Hl) in Hprev. cbn [rev app List.find].
  destruct (String.eqb_spec (dr_version n) (dr_version r)) as [Heq|Hne]; cbn [negb]; [|done].
  rewrite <- Heq in *.
  destruct (List.find _ (rev l)) as [x|] eqn:Hf; [|done].
  apply find_some in Hf as [_ Hx]. injection Hprev as Hprev. rewrite Hprev, String.eqb_refl in Hx. done.
Qed.

(** ** Learning *)

Inductive learning_call : Type :=
  | LearnPropose (target version : string) (evidence : list string)
  | LearnEvaluate (id : string) (score : spec_float)
  | LearnApprove (id approved_by : string)
  | LearnActivate (id : string) (rollout : Candidate -> outcome unit).

(** The rollouts of these calls do not call the engine. *)
Definition learning_step (x : learning_call) : M LearningEngine Candidate :=
  match x with
  | LearnPropose t v ev => propose t v ev
  | LearnEvaluate id score => evaluate_candidate id score
  | LearnApprove id by_ => approve_candidate id by_
  | LearnActivate id f => fun e =>
      let '(o, s) := activate_candidate id (fun c => lift (f c)) (e, tt) in (o, fst s)
  end.

(** The calls that returned, with the candidate each one returned. *)
Definition learning_log : Type := list (learning_call * Candidate).

Fixpoint learning_run (calls : list learning_call) (log : learning_log) (e : LearningEngine) :
    learning_log * LearningEngine :=
  match calls with
  | [] => (log, e)
  | x :: calls =>
      match learning_step x e with
      | (Ret c, e') => learning_run calls (log ++ [(x, c)]) e'
      | (Raise _, e') => learning_run calls log e'
      end
  end.

Definition new_engine (env : Env) : LearningEngine := mkEngine ∅ env.

(** What the log tells of one candidate. *)
Definition story (id : string) (log : learning_log) : learning_log :=
  List.filter (fun p => String.eqb (ca_candidate_id (snd p)) id) log.

Definition good_score (f : spec_float) : bool := SFleb zero_float f && SFleb f one_float.

(** The calls that must end the story of a candidate in a given state. *)
Definition gated (l : learning_log) (c : Candidate) : Prop :=
  (ca_state c = "evaluated" -> exists l0 f,
     l = l0 ++ [(LearnEvaluate (ca_candidate_id c) f, c)] /\ good_score f = true) /\
  (ca_state c = "approved" -> exists l0 f c0 a,
     l = l0 ++ [(LearnEvaluate (ca_candidate_id c) f, c0); (LearnApprove (ca_candidate_id c) a, c)] /\
     good_score f = true /\ a <> "" /\ ca_state c0 = "evaluated") /\
  (ca_state c = "activated" -> exists l0 f c0 a c1 rollout,
     l = l0 ++ [(LearnEvaluate (ca_candidate_id c) f, c0); (LearnApprove (ca_candidate_id c) a, c1); (LearnActivate (ca_candidate_id c) rollout, c)] /\
     good_score f = true /\ a <> "" /\ ca_state c0 = "evaluated" /\
     c1 = with_state "approved" c /\ rollout c1 = Ret tt).

Definition engine_inv (log : learning_log) (e : LearningEngine) : Prop :=
  forall id c, le_candidates e !! id = Some c ->
    ca_candidate_id c = id /\ ca_evidence c <> [] /\ gated (story id log) c.

(** A call stores the candidate it returns and nothing else. *)
Definition stores (c : Candidate) (e e' : LearningEngine) : Prop :=
  le_candidates e' = <[ca_candidate_id c := c]> (le_candidates e).

Lemma story_snoc id log x c :
  story id (log ++ [(x, c)]) = story id log ++ (if String.eqb (ca_candidate_id c) id then [(x, c)] else []).
Proof. unfold story. rewrite List.filter_app. cbn. by destruct (String.eqb _ _). Qed.

Lemma stores_inv log e e' x c :
  engine_inv log e -> stores c e e' -> ca_evidence c <> [] ->
  gated (story (ca_candidate_id c) log ++ [(x, c)]) c -> engine_inv (log ++ [(x, c)]) e'.
Proof.
  intros Hi Hs Hev Hg id c' Hc'. rewrite Hs in Hc'. rewrite story_snoc.
  destruct (String.eqb_spec (ca_candidate_id c) id) as [<-|Hne].
  - rewrite lookup_insert_eq in Hc'. by simplify_eq.
  - rewrite lookup_insert_ne in Hc' by done. rewrite app_nil_r. by apply Hi.
Qed.

Lemma with_state_same c : with_state (ca_state c) c = c.
Proof. by destruct c. Qed.

Ltac gate := repeat split; cbn [ca_state ca_candidate_id ca_evidence with_state]; try discriminate; intros _.

Lemma propose_inv log e t v ev :
  engine_inv log e ->
  match propose t v ev e with
  | (Ret c, e') => engine_inv (log ++ [(LearnPropose t v ev, c)]) e'
  | (Raise _, e') => engine_inv log e'
  end.
Proof.
  intros Hi. unfold propose, governance_error. destruct ev as [|s ev]; [done|]. cbn [no_items]. mred.
  destruct (uuid4 (le_env e)) as [u env]. unfold put_candidate. mred.
  eapply (stores_inv _ e); [done|reflexivity|done|]. gate.
Qed.

Lemma evaluate_inv log e id f :
  engine_inv log e ->
  match evaluate_candidate id f e with
  | (Ret c, e') => engine_inv (log ++ [(LearnEvaluate id f, c)]) e'
  | (Raise _, e') => engine_inv log e'
  end.
Proof.
  intros Hi. unfold evaluate_candidate, candidate_of, put_candidate. mred.
  destruct (le_candidates e !! id) as [c|] eqn:Hc; [|done].
  destruct (Hi _ _ Hc) as (<- & Hev & _).
  eapply (stores_inv _ e); [done|reflexivity|done|].
  fold (good_score f). destruct (good_score f) eqn:Hf; gate. eauto 6.
Qed.

Lemma approve_inv log e id a :
  engine_inv log e ->
  match approve_candidate id a e with
  | (Ret c, e') => engine_inv (log ++ [(LearnApprove id a, c)]) e'
  | (Raise _, e') => engine_inv log e'
  end.
Proof.
  intros Hi. unfold approve_candidate, candidate_of, put_candidate, governance_error. mred.
  destruct (le_candidates e !! id) as [c|] eqn:Hc; [|done].
  destruct (Hi _ _ Hc) as (<- & Hev & Hg).
  destruct (String.eqb_spec (ca_state c) "evaluated") as [Hs|Hs]; [|done].
  destruct (String.eqb_spec a "") as [Ha|Ha]; [done|]. cbn [negb].
  eapply (stores_inv _ e); [done|reflexivity|done|]. gate.
  destruct Hg as (He & _). destruct (He Hs) as (l0 & f & -> & Hf).
  exists l0, f, c, a. by rewrite <- app_assoc.
Qed.

Lemma activate_inv log e id f :
  engine_inv log e ->
  match learning_step (LearnActivate id f) e with
  | (Ret c, e') => engine_inv (log ++ [(LearnActivate id f, c)]) e'
  | (Raise _, e') => engine_inv log e'
  end.
Proof.
  intros Hi. unfold learning_step, activate_candidate, on_engine, candidate_of, put_candidate, governance_error.
  mred. cbn [fst snd]. destruct (le_candidates e !! id) as [c|] eqn:Hc; [|done].
  destruct (Hi _ _ Hc) as (<- & Hev & Hg).
  destruct (String.eqb_spec (ca_state c) "approved") as [Hs|Hs]; [|done]. cbn [negb].
  destruct (f c) as [[]|x] eqn:Hf; [|done]. cbn [fst].
  eapply (stores_inv _ e); [done|reflexivity|done|]. gate.
  destruct Hg as (_ & Ha & _). destruct (Ha Hs) as (l0 & g & c0 & a & -> & Hg & Hne & H0).
  exists l0, g, c0, a, c, f. rewrite <- app_assoc. repeat split; try done.
  rewrite <- (with_state_same c) at 1. by rewrite Hs.
Qed.

Lemma learning_run_inv calls log e :
  engine_inv log e ->
  let '(log', e') := learning_run calls log e in engine_inv log' e'.
Proof.
  revert log e. induction calls as [|x calls IH]; intros log e Hi; [done|]. cbn [learning_run].
  assert (match learning_step x e with
          | (Ret c, e') => engine_inv (log ++ [(x, c)]) e'
          | (Raise _, e') => engine_inv log e'
          end) as Hx.
  { destruct x; [by apply propose_inv|by apply evaluate_inv|by apply approve_inv|by apply activate_inv]. }
  destruct (learning_step x e) as [[c|ex] e']; by apply IH.
Qed.

Lemma new_engine_inv env : engine_inv [] (new_engine env).
Proof. by intros id c ?. Qed.

(** ** Leases *)

Inductive coordinator_call : Type :=
  | CoClaim (job worker : string) (ttl : spec_float)
  | CoComplete (job worker : string) (result : pyval).

Definition call_worker (x : coordinator_call) : string :=
  match x with CoClaim _ w _ | CoComplete _ w _ => w end.

Definition coordinator_step (x : coordinator_call) : M Coordinator unit :=
  match x with
  | CoClaim job w ttl => coordinator_claim job w ttl ;;; ret tt
  | CoComplete job w r => coordinator_complete job w r
  end.

Definition coordinator_run (calls : list coordinator_call) (c : Coordinator) : Coordinator :=
  fold_left (fun c x => snd (coordinator_step x c)) calls c.

(** The next [n] readings of the clock are before [t]. *)
Definition ticks_before (n : nat) (t : spec_float) (c : Coordinator) : Prop :=
  forall i, (i < n)%nat -> SFltb (fs_at (co_clock c) (fs_read (co_clock c) + i)) t = true.

(** What the holder of a lease relies on: the lease and the row of its job. *)
Definition leased (job worker : string) (expires : spec_float) (row : option job_row) (c : Coordinator) : Prop :=
  co_leases c !! job = Some (mkLease worker expires) /\ co_jobs c !! job = row.

Lemma foreign_step x job w t row c n :
  leased job w t row c -> call_worker x <> w -> ticks_before (S n) t c ->
  leased job w t row (snd (coordinator_step x c)) /\ ticks_before n t (snd (coordinator_step x c)).
Proof.
  intros [Hl Hj] Hw Ht.
  assert (forall c', co_clock c' = co_clock c -> ticks_before n t c') as Hsame.
  { intros c' Hc i Hi. rewrite Hc. apply Ht. lia. }
  assert (forall js ls, ticks_before n t (mkCoordinator js ls (snd (next_float (co_clock c))))) as Hnext.
  { intros js ls i Hi. pose proof (Ht (S i) ltac:(lia)) as Hi'. by rewrite <- plus_n_Sm in Hi'. }
  destruct x as [job' w' ttl|job' w' r]; cbn [call_worker] in Hw;
    unfold coordinator_step, coordinator_claim, claim_row, claim_write, coordinator_complete, coordinator_time; mred.
  - unfold next_float. cbn [co_leases].
    pose proof (Ht O ltac:(lia)) as Hnow. rewrite Nat.add_0_r in Hnow.
    destruct (decide (job' = job)) as [->|Hne].
    + rewrite Hl. cbn [claim_refused lr_expires lr_worker]. rewrite Hnow.
      destruct (String.eqb_spec w w') as [->|_]; [done|]. cbn. by split; [|apply Hnext].
    + match goal with |- context[if ?b then _ else _] => destruct b end; cbn [snd];
        [by split; [|apply Hnext]|]. split; [|apply Hnext].
      split; cbn [co_leases co_jobs]; [by rewrite lookup_insert_ne|].
      destruct (co_jobs c !! job'); [done|by rewrite lookup_insert_ne].
  - unfold governance_error.
    destruct (decide (job' = job)) as [->|Hne].
    + rewrite Hl. cbn [lr_worker]. destruct (String.eqb_spec w w') as [->|_]; [done|].
      cbn. by split; [|apply Hsame].
    + match goal with |- context[if ?b then _ else _] => destruct b end; cbn [snd];
        [by split; [|apply Hsame]|].
      destruct (dumps r) as [s|e]; cbn [snd]; [|by split; [|apply Hsame]].
      split; [|by apply Hsame].
      split; cbn [co_leases co_jobs]; [by rewrite lookup_delete_ne|by rewrite lookup_alter_ne].
Qed.

Lemma foreign_run calls job w t row c :
  leased job w t row c -> Forall (fun x => call_worker x <> w) calls ->
  ticks_before (length calls) t c -> leased job w t row (coordinator_run calls c).
Proof.
  revert c. induction calls as [|x calls IH]; intros c Hl Hw Ht; [done|].
  inversion_clear Hw. destruct (foreign_step x _ _ _ _ _ _ Hl H Ht). by apply IH.
Qed.

Lemma coordinator_claim_granted job w ttl c t c' :
  coordinator_claim job w ttl c = (Ret (Some t), c') ->
  exists row, leased job w t (Some row) c' /\ (co_jobs c !! job = None -> row = mkJobRow "claimed" None) /\
              (forall r, co_jobs c !! job = Some r -> row = r).
Proof.
  unfold coordinator_claim, claim_row, claim_write, coordinator_time. mred. unfold next_float. cbn [co_leases co_jobs].
  match goal with |- context[if ?b then _ else _] => destruct b end; [done|].
  intros [= <- <-]. unfold leased. cbn [co_leases co_jobs].
  destruct (co_jobs c !! job) as [r|] eqn:Hj.
  - exists r. rewrite lookup_insert_eq. by repeat split; intros; simplify_eq.
  - exists (mkJobRow "claimed" None). rewrite !lookup_insert_eq. done.
Qed.

Lemma claim_row_reads job c :
  exists now c', claim_row job c = (Ret (now, co_leases c !! job), c') /\ co_leases c' = co_leases c.
Proof. unfold claim_row, coordinator_time. mred. unfold next_float. by eexists _, _. Qed.

(** Whoever claims a job without a lease gets it. *)
Lemma coordinator_claim_free job w ttl c :
  co_leases c !! job = None -> exists t c', coordinator_claim job w ttl c = (Ret (Some t), c').
Proof.
  intros Hl. unfold coordinator_claim, claim_row, claim_write, coordinator_time. mred. unfold next_float. cbn [co_leases].
  rewrite Hl. eauto.
Qed.

Lemma coordinator_complete_leased job w v t row r s c :
  leased job w t (Some row) c -> dumps r = Ret s -> v = loads s ->
  exists c', coordinator_complete job w r c = (Ret tt, c') /\ co_leases c' !! job = None /\
              coordinator_result job c' = Some v /\ co_clock c' = co_clock c.
Proof.
  intros [Hl Hj] Hs ->. unfold coordinator_complete. mred. rewrite Hl. cbn [lr_worker].
  rewrite String.eqb_refl, Hs. cbn [negb]. eexists. split; [reflexivity|].
  unfold coordinator_result. cbn [co_leases co_jobs co_clock].
  by rewrite lookup_delete_eq, lookup_alter_eq, Hj.
Qed.

(** ** Facts of a subject and a predicate *)

Definition of_key (s p : string) (f : gov_fact) : bool :=
  String.eqb (gf_subject f) s && String.eqb (gf_predicate f) p.

Definition versions (s p : string) (w : GovWorld) : list Z :=
  map gf_version (List.filter (of_key s p) (gw_facts w)).

Definition world_versions (w : GovWorld) : Prop :=
  forall s p, versions s p w = seqZ 1 (Z.of_nat (length (versions s p w))).

Lemma newest_version_seq n l :
  map gf_version l = seqZ 1 (Z.of_nat n) -> newest_version l = Z.of_nat n.
Proof.
  unfold newest_version. intros Hl.
  assert (forall k m, foldr Z.max 0%Z (seqZ k (Z.of_nat m)) =
            if decide (m = 0)%nat then 0%Z else Z.max 0 (k + Z.of_nat m - 1))%Z as Hmax.
  { intros k m. revert k. induction m as [|m IH]; intros k; [done|].
    rewrite Nat2Z.inj_succ, seqZ_cons by lia. cbn [foldr]. rewrite Z.pred_succ, IH.
    destruct (decide (S m = 0)%nat), (decide (m = 0)%nat); lia. }
  transitivity (foldr Z.max 0%Z (map gf_version l)).
  - clear Hl. induction l as [|f l IH]; cbn; [done|]. by rewrite IH.
  - rewrite Hl, Hmax. destruct (decide _); lia.
Qed.

Lemma gov_add_fact_versions s p o src w :
  world_versions w -> world_versions (snd (gov_add_fact s p o src w)).
Proof.
  intros Hw s' p'. unfold versions, gov_add_fact. cbn [snd gw_facts].
  rewrite List.filter_app, map_app, length_app. cbn [List.filter].
  fold (versions s' p' w). fold (versions s p w).
  set (b := of_key s' p' _).
  assert (b = String.eqb s s' && String.eqb p p') as -> by done.
  destruct (String.eqb_spec s s') as [<-|]; destruct (String.eqb_spec p p') as [<-|]; cbn [andb map];
    try by rewrite app_nil_r, Nat.add_0_r.
  cbn [length gf_version]. rewrite Nat2Z.inj_add, seqZ_app by lia. rewrite <- Hw. f_equal.
  rewrite (newest_version_seq (length (versions s p w))) by apply Hw.
  cbn. by rewrite Z.add_comm.
Qed.

(** ** Deployments *)

(** Whatever deployments and rollbacks the controller is asked for, in every
    environment each record names the version the record before it made
    current, the current version is the one of the newest record, and every
    record carries an approver and evidence. *)
Theorem deployment_history_linked (calls : list controller_call) (env : Env) (e : string) :
  let c := controller_run calls (new_controller env) in
  linked None (history e c) /\ current e c = newest (history e c) /\
  Forall approved_record (history e c).
Proof. apply controller_run_inv, new_controller_inv. Qed.

(** A rollback is undone by the next one: after a rollback of an
    environment, a second approved rollback with evidence always succeeds, makes
    the version current that the first one left, and names the first one's
    target as the version before. *)
Theorem rollback_undone_by_rollback (calls : list controller_call) (env : Env)
    (e : string) (a a' : option string) (ev ev' : list string)
    (r : DeploymentRecord) (c c' : DeploymentController)
    (Hc : c = controller_run calls (new_controller env))
    (Hr : gov_rollback e a ev c = (Ret r, c'))
    (Ha : no_text a' = false) (Hev : no_items ev' = false) :
  exists r' c'', gov_rollback e a' ev' c' = (Ret r', c'') /\
    current e c'' = current e c /\ dr_previous_version r' = Some (dr_version r).
Proof.
  assert (controller_inv c) as Hi by (subst c; apply controller_run_inv, new_controller_inv).
  destruct (previous_after_rollback _ _ _ _ _ _ Hi Hr) as [Hp [v Hv]]. rewrite Hv in Hp.
  pose proof (controller_step_outcome (GovRollback e a ev) c) as Ho.
  cbn [controller_step] in Ho. rewrite Hr in Ho.
  destruct Ho as (e0 & (_ & _ & Hcur) & _ & _ & -> & _).
  destruct (record_release_spec v e (current e c') "rolled_back" a' ev' c')
    as (r' & c'' & Hrr & (_ & _ & Hcur') & Hv' & Hp' & _).
  exists r', c''. split; [|split].
  - unfold gov_rollback. rewrite Ha, Hev. mred. rewrite Hp. exact Hrr.
  - rewrite Hcur', String.eqb_refl. congruence.
  - by rewrite Hp', Hcur, String.eqb_refl.
Qed.

Definition sample_calls : list controller_call :=
  [GovDeploy "1.0" "prod" (Some "ana") ["ci:1"]; GovDeploy "2.0" "prod" (Some "ana") ["ci:2"]].

Lemma rollback_undone_by_rollback_witness :
  let c := controller_run sample_calls (new_controller sample_env) in
  exists c' r' c'', snd (gov_rollback "prod" (Some "ana") ["incident"] c) = c' /\
    current "prod" c' = Some "1.0" /\
    gov_rollback "prod" (Some "bo") ["incident"] c' = (Ret r', c'') /\ current "prod" c'' = Some "2.0".
Proof.
  intros c.
  destruct (gov_rollback "prod" (Some "ana") ["incident"] c) as [o c'] eqn:Hr.
  assert (exists r, o = Ret r /\ current "prod" c' = Some "1.0") as (r & -> & Hc).
  { injection Hr as <- <-. eexists. split; reflexivity. }
  destruct (rollback_undone_by_rollback sample_calls sample_env "prod" (Some "ana") (Some "bo")
              ["incident"] ["incident"] r c c' eq_refl Hr eq_refl eq_refl) as (r' & c'' & H1 & H2 & _).
  exists c', r', c''. repeat split; [exact Hc|exact H1|]. by rewrite H2.
Defined.

(** ** Learning *)

(** A candidate is activated only through every gate: when the engine holds a
    candidate in state [activated], the last three calls that returned it were an
    evaluation with a score between zero and one, an approval with an identity
    and an activation whose rollout returned, in this order, and the candidate
    was proposed with evidence. *)
Theorem activation_is_gated (calls : list learning_call) (env : Env)
    (log : learning_log) (e : LearningEngine) (id : string) (c : Candidate)
    (Hrun : learning_run calls [] (new_engine env) = (log, e))
    (Hc : le_candidates e !! id = Some c) (Hs : ca_state c = "activated") :
  exists before score c0 approver c1 rollout,
    story id log = before ++ [(LearnEvaluate id score, c0); (LearnApprove id approver, c1);
                              (LearnActivate id rollout, c)] /\
    SFleb zero_float score = true /\ SFleb score one_float = true /\ ca_state c0 = "evaluated" /\
    approver <> "" /\ rollout c1 = Ret tt /\ ca_evidence c <> [].
Proof.
  pose proof (learning_run_inv calls [] _ (new_engine_inv env)) as Hi. rewrite Hrun in Hi.
  destruct (Hi _ _ Hc) as (<- & Hev & _ & _ & Hg).
  destruct (Hg Hs) as (l0 & f & c0 & a & c1 & rollout & Hl & Hf & Ha & H0 & -> & Hr).
  apply andb_true_iff in Hf as [Hf1 Hf2].
  exists l0, f, c0, a, (with_state "approved" c), rollout. done.
Qed.

Definition sample_candidate : string := uuid_str (fst (uuid4 sample_env)).

Definition sample_learning : list learning_call :=
  [LearnPropose "prompt" "2" ["eval:7"];
   LearnApprove sample_candidate "ana";
   LearnEvaluate sample_candidate one_float;
   LearnActivate sample_candidate (fun _ => Ret tt);
   LearnApprove sample_candidate "ana";
   LearnActivate sample_candidate (fun _ => Ret tt)].

Lemma activation_is_gated_witness :
  exists log e c rollout c1 before score c0,
    learning_run sample_learning [] (new_engine sample_env) = (log, e) /\
    le_candidates e !! sample_candidate = Some c /\
    story sample_candidate log =
      before ++ [(LearnEvaluate sample_candidate score, c0); (LearnApprove sample_candidate "ana", c1);
                 (LearnActivate sample_candidate rollout, c)].
Proof.
  destruct (learning_run sample_learning [] (new_engine sample_env)) as [log e] eqn:Hrun.
  assert (exists c, le_candidates e !! sample_candidate = Some c /\ ca_state c = "activated" /\
            exists p, story sample_candidate log = p ++ [(LearnApprove sample_candidate "ana", with_state "approved" c);
                        (LearnActivate sample_candidate (fun _ => Ret tt), c)]) as (c & Hc & Hs & p & Hp).
  { vm_compute in Hrun. injection Hrun as <- <-. eexists. split; [vm_compute; reflexivity|].
    split; [reflexivity|]. eexists [_; _]. vm_compute. reflexivity. }
  destruct (activation_is_gated sample_learning sample_env log e sample_candidate c Hrun Hc Hs)
    as (before & score & c0 & a & c1 & rollout & Hl & _).
  assert (a = "ana") as ->.
  { rewrite Hl in Hp. change (before ++ [(LearnEvaluate sample_candidate score, c0);
      (LearnApprove sample_candidate a, c1); (LearnActivate sample_candidate rollout, c)]) with
      (before ++ [(LearnEvaluate sample_candidate score, c0)] ++
       [(LearnApprove sample_candidate a, c1); (LearnActivate sample_candidate rollout, c)]) in Hp.
    rewrite app_assoc in Hp. apply app_inj_2 in Hp as [_ Hp]; [by injection Hp|done]. }
  exists log, e, c, rollout, c1, before, score, c0. done.
Defined.

(** ** Leases *)

(** The coordinator's lease excludes other workers until it expires: while
    the clock reads earlier than the expiry of the lease worker [w] was granted,
    no sequence of claims and completions by other workers changes the lease or
    the job, a claim by another worker returns nothing and its completion
    raises; and [w] completes the job with its result.  The calls are atomic. *)
Theorem lease_excludes_others (c0 c : Coordinator) (job w : string) (ttl t : spec_float)
    (calls : list coordinator_call)
    (Hclaim : coordinator_claim job w ttl c0 = (Ret (Some t), c))
    (Hothers : Forall (fun x => call_worker x <> w) calls)
    (Hclock : ticks_before (S (length calls)) t c) :
  let c' := coordinator_run calls c in
  co_leases c' !! job = Some (mkLease w t) /\ co_jobs c' !! job = co_jobs c !! job /\
  (forall w' ttl', w' <> w -> SFltb (fs_at (co_clock c') (fs_read (co_clock c'))) t = true ->
     fst (coordinator_claim job w' ttl' c') = Ret None) /\
  (forall w' r, w' <> w -> exists e, coordinator_complete job w' r c' = (Raise e, c')) /\
  (forall r s, dumps r = Ret s -> exists c'',
     coordinator_complete job w r c' = (Ret tt, c'') /\ coordinator_result job c'' = Some (loads s)).
Proof.
  intros c'. destruct (coordinator_claim_granted _ _ _ _ _ _ Hclaim) as (row & Hl & _).
  assert (leased job w t (Some row) c') as Hl'.
  { apply foreign_run; [done..|]. intros i Hi. apply Hclock. lia. }
  destruct Hl as [_ Hj]. split; [apply Hl'|]. split; [by rewrite Hj; apply Hl'|]. split; [|split].
  - intros w' ttl' Hne Hnow. unfold coordinator_claim, claim_row, claim_write, coordinator_time. mred. unfold next_float.
    cbn [co_leases]. rewrite (proj1 Hl'). cbn [claim_refused lr_expires lr_worker]. rewrite Hnow.
    by destruct (String.eqb_spec w w') as [->|_].
  - intros w' r Hne. unfold coordinator_complete, governance_error. mred. rewrite (proj1 Hl').
    cbn [lr_worker]. destruct (String.eqb_spec w w') as [->|_]; [done|]. by eexists.
  - intros r s Hs. destruct (coordinator_complete_leased job w _ t row r s c' Hl' Hs eq_refl)
      as (c'' & H1 & _ & H2 & _). eauto.
Qed.

(** Seconds, as floats. *)
Definition sample_seconds (n : nat) : spec_float :=
  binary_normalize 53 1024 (Z.of_nat n) 0 false.

Definition sample_coordinator : Coordinator :=
  mkCoordinator ∅ ∅ (mkStream sample_seconds 1).

Lemma lease_excludes_others_witness :
  exists c t, coordinator_claim "job" "w1" (sample_seconds 30) sample_coordinator = (Ret (Some t), c) /\
    let c' := coordinator_run [CoClaim "job" "w2" (sample_seconds 30); CoComplete "job" "w2" VNone] c in
    fst (coordinator_claim "job" "w2" (sample_seconds 30) c') = Ret None.
Proof.
  destruct (coordinator_claim "job" "w1" (sample_seconds 30) sample_coordinator) as [o c] eqn:Hc.
  assert (o = Ret (Some (sample_seconds 31)) /\ co_clock c = mkStream sample_seconds 2) as [-> Hck].
  { injection Hc as <- <-. split; vm_compute; reflexivity. }
  exists c, (sample_seconds 31). split; [reflexivity|].
  edestruct (lease_excludes_others sample_coordinator c "job" "w1" (sample_seconds 30) (sample_seconds 31)
    [CoClaim "job" "w2" (sample_seconds 30); CoComplete "job" "w2" VNone] Hc) as (_ & _ & Hnone & _).
  - repeat constructor; discriminate.
  - unfold ticks_before. rewrite Hck. intros [|[|[|i]]] Hi; [vm_compute; reflexivity..|].
    cbn in Hi. lia.
  - apply Hnone; [discriminate|]. injection Hc as Hc. subst c. vm_compute. reflexivity.
Defined.

(** A completed job can be claimed and completed again: completing a job
    deletes its lease, so the next claim by any worker is granted, the row stays
    [completed], and the next completion replaces the result. *)
Theorem completed_job_runs_again (c c1 : Coordinator) (job w w' : string) (row : job_row)
    (t ttl : spec_float) (r r' : pyval) (s s' : json_text)
    (Hl : leased job w t (Some row) c)
    (Hs : dumps r = Ret s) (Hs' : dumps r' = Ret s')
    (Hdone : coordinator_complete job w r c = (Ret tt, c1)) :
  coordinator_result job c1 = Some (loads s) /\
  exists t' c2 c3, coordinator_claim job w' ttl c1 = (Ret (Some t'), c2) /\
    coordinator_result job c2 = Some (loads s) /\
    coordinator_complete job w' r' c2 = (Ret tt, c3) /\ coordinator_result job c3 = Some (loads s').
Proof.
  destruct (coordinator_complete_leased job w _ t row r s c Hl Hs eq_refl) as (c1' & H1 & Hfree & Hres & _).
  assert (c1' = c1) as -> by congruence. split; [done|].
  destruct (coordinator_claim_free job w' ttl c1 Hfree) as (t' & c2 & H2).
  destruct (coordinator_claim_granted _ _ _ _ _ _ H2) as (row' & Hl' & _ & Hrow).
  destruct (coordinator_complete_leased job w' _ t' row' r' s' c2 Hl' Hs' eq_refl) as (c3 & H3 & _ & Hr3 & _).
  exists t', c2, c3. split; [done|]. split; [|done].
  unfold coordinator_result in *. rewrite (proj2 Hl').
  destruct (co_jobs c1 !! job) as [x|] eqn:Hx; [|discriminate]. by rewrite (Hrow x).
Qed.

Lemma completed_job_runs_again_witness :
  exists c, leased "job" "w1" (sample_seconds 31) (Some (mkJobRow "claimed" None)) c /\
    exists c1 t' c2 c3, coordinator_complete "job" "w1" (VInt 1) c = (Ret tt, c1) /\
      coordinator_claim "job" "w2" (sample_seconds 30) c1 = (Ret (Some t'), c2) /\
      coordinator_complete "job" "w2" (VInt 2) c2 = (Ret tt, c3) /\
      coordinator_result "job" c3 = Some (VInt 2).
Proof.
  set (c := mkCoordinator {["job" := mkJobRow "claimed" None]} {["job" := mkLease "w1" (sample_seconds 31)]}
              (mkStream sample_seconds 2)).
  assert (leased "job" "w1" (sample_seconds 31) (Some (mkJobRow "claimed" None)) c) as Hl by (split; reflexivity).
  exists c. split; [exact Hl|].
  destruct (coordinator_complete "job" "w1" (VInt 1) c) as [o c1] eqn:Hd.
  assert (o = Ret tt) as -> by (injection Hd as <- _; reflexivity).
  destruct (completed_job_runs_again c c1 "job" "w1" "w2" _ _ (sample_seconds 30) (VInt 1) (VInt 2) _ _
              Hl eq_refl eq_refl Hd) as (_ & t' & c2 & c3 & H1 & _ & H2 & H3).
  exists c1, t', c2, c3. repeat split; [exact H1|exact H2|exact H3].
Defined.

(** Claims are not atomic: when two workers read the lease of a free job before
    either of them writes, both claims are granted, the lease is the later
    writer's, and the completion of the earlier one raises. *)
Theorem interleaved_claims_both_granted (c : Coordinator) (job w w' : string)
    (expires expires' : spec_float) (r : pyval)
    (Hfree : co_leases c !! job = None) (Hne : w <> w') :
  exists now now' c1 c2 c3 c4 e,
    claim_row job c = (Ret (now, None), c1) /\ claim_row job c1 = (Ret (now', None), c2) /\
    claim_refused w now None = false /\ claim_refused w' now' None = false /\
    claim_write job w expires c2 = (Ret (Some expires), c3) /\
    claim_write job w' expires' c3 = (Ret (Some expires'), c4) /\
    coordinator_complete job w r c4 = (Raise e, c4).
Proof.
  destruct (claim_row_reads job c) as (now & c1 & H1 & Hl1). rewrite Hfree in H1.
  destruct (claim_row_reads job c1) as (now' & c2 & H2 & _). rewrite Hl1, Hfree in H2.
  eexists now, now', c1, c2, _, _, _. do 2 (split; [done|]). do 4 (split; [reflexivity|]).
  unfold coordinator_complete, governance_error. mred. cbn [co_leases].
  rewrite lookup_insert_eq. cbn [lr_worker]. destruct (String.eqb_spec w' w) as [->|_]; [done|]. reflexivity.
Qed.

Lemma interleaved_claims_both_granted_witness :
  co_leases sample_coordinator !! "job" = None /\
  exists c c', claim_write "job" "w2" (sample_seconds 31) c = (Ret (Some (sample_seconds 31)), c') /\
    exists e, coordinator_complete "job" "w1" VNone c' = (Raise e, c').
Proof.
  split; [reflexivity|].
  destruct (interleaved_claims_both_granted sample_coordinator "job" "w1" "w2" (sample_seconds 30)
    (sample_seconds 31) VNone eq_refl ltac:(discriminate)) as (now & now' & c1 & c2 & c3 & c4 & e & H).
  exists c3, c4. split; [apply H|]. exists e. apply H.
Defined.

(** ** Facts *)

(** The semantic world numbers the facts of a subject and a predicate without
    gaps: after any sequence of added facts, the versions recorded for each
    subject and predicate are one, two, and so on, in the order the facts were
    added, and the identifier returned for each fact is its position among all
    of them. *)
Theorem fact_versions_without_gaps (l : list (string * string * string * string)) (s p : string) :
  let add w x := let '(s, p, o, src) := x in snd (gov_add_fact s p o src w) in
  let w := fold_left add l (mkGovWorld ∅ []) in
  versions s p w = seqZ 1 (Z.of_nat (length (versions s p w))) /\
  length (gw_facts w) = length l /\
  (forall o src, fst (gov_add_fact s p o src w) = Ret (Z.of_nat (length l) + 1)%Z).
Proof.
  intros add.
  assert (forall w, world_versions w -> world_versions (fold_left add l w) /\
            length (gw_facts (fold_left add l w)) = (length (gw_facts w) + length l)%nat) as Hfold.
  { induction l as [|[[[s0 p0] o0] src0] l IH]; intros w Hw; cbn [fold_left length]; [by rewrite Nat.add_0_r|].
    destruct (IH _ (gov_add_fact_versions s0 p0 o0 src0 w Hw)) as [H1 H2].
    split; [exact H1|]. unfold add at 2. rewrite H2. cbn. rewrite length_app. cbn. lia. }
  destruct (Hfold (mkGovWorld ∅ [])) as [H1 H2]; [by intros s0 p0|]. cbn in H2.
  intros w. split; [apply H1|]. split; [exact H2|]. intros o src. unfold gov_add_fact. cbn [fst].
  by fold w in H2; rewrite H2.
Qed.

(** ** Authorization *)

(** The authorizer denies by default: it returns, and then [True], exactly
    when some rule for the permission finds a tenant where it requires one, a
    common role where it lists roles, every attribute it lists, and the
    permission itself among the context's; otherwise it raises
    [GovernanceError]. *)
Theorem authorizer_denies_by_default (rules : list ABACRule) (c : AuthorizationContext) (p : string) :
  (enterprise_authorize rules c p = Ret true <->
     exists r, r ∈ rules /\ ar_permission r = p /\ p ∈ ac_permissions c /\
       (ar_tenant_required r = true -> ac_tenant c <> "") /\
       (ar_roles r <> ∅ -> ar_roles r ∩ ac_roles c <> ∅) /\
       (forall k v, (k, v) ∈ ar_attributes r -> ac_attributes c !! k = Some v)) /\
  (enterprise_authorize rules c p <> Ret true ->
     enterprise_authorize rules c p = governance_error ("authorization denied: " +:+ p)).
Proof.
  assert (forall r, rule_allows r c = true <->
    ar_permission r ∈ ac_permissions c /\ (ar_tenant_required r = true -> ac_tenant c <> "") /\
    (ar_roles r <> ∅ -> ar_roles r ∩ ac_roles c <> ∅) /\
    (forall k v, (k, v) ∈ ar_attributes r -> ac_attributes c !! k = Some v)) as Hrule.
  { intros r. unfold rule_allows.
    destruct (String.eqb_spec (ac_tenant c) "") as [Ht|Ht];
      destruct (ar_tenant_required r); cbn [andb]; [split; [done|]; by intros (_ & H & _); destruct (H eq_refl)|..].
    all: destruct (bool_decide_reflect (ar_roles r = ∅)); cbn [negb andb];
      [|destruct (bool_decide_reflect (ar_roles r ∩ ac_roles c = ∅)); [split; [done|]; by intros (_ & _ & H & _); destruct H|]].
    all: destruct (existsb _ (ar_attributes r)) eqn:Hex;
      [ apply existsb_exists in Hex as [[k v] [Hin Hkv]]; apply negb_true_iff, bool_decide_eq_false in Hkv;
        split; [done|]; intros (_ & _ & _ & H); destruct Hkv; apply H, list_elem_of_In, Hin
      | rewrite bool_decide_eq_true; split; [|by intros (? & _)]; intros Hp; repeat split; try done;
        intros k v Hin%list_elem_of_In; destruct (decide (ac_attributes c !! k = Some v)) as [|Hno]; [done|];
        exfalso; revert Hex; apply not_false_iff_true, existsb_exists; exists (k, v); split; [done|];
        by apply negb_true_iff, bool_decide_eq_false ]. }
  unfold enterprise_authorize. destruct (existsb _ _) eqn:Hex.
  - split; [|done]. split; [intros _|done]. apply existsb_exists in Hex as [r [Hin Hr]].
    apply filter_In in Hin as [Hin Hp%String.eqb_eq]. exists r. apply Hrule in Hr.
    rewrite list_elem_of_In, <- Hp. naive_solver.
  - split; [|done]. split; [done|]. intros (r & Hin & Hp & Hperm & H). exfalso. revert Hex.
    apply not_false_iff_true, existsb_exists. exists r. split.
    + apply filter_In. split; [by apply list_elem_of_In|by apply String.eqb_eq].
    + apply Hrule. by rewrite Hp.
Qed.

(** ** Canary traffic *)

(** A canary's decision does not move traffic: after [decide] returned
    [rolled_back] the state says so, and every subject is still assigned the
    version it was assigned before, the candidate for those whose bucket is
    below the percentage. *)
Theorem rolled_back_canary_keeps_traffic {SH : SubjectHash} (id : string)
    (rate ratio min max : spec_float) (a : option string) (m m' : gmap string RolloutState)
    (Hd : canary_transition id rate ratio min max a m = (Ret "rolled_back", m')) :
  fst (canary_state id m') = Ret "rolled_back" /\
  (forall subject, fst (canary_assign id subject m') = fst (canary_assign id subject m)) /\
  exists r, m !! id = Some r /\ forall subject, (bucket subject < rs_percentage r)%Z ->
    fst (canary_assign id subject m') = Ret (rs_candidate r).
Proof.
  unfold canary_transition, canary_state, canary_assign, rollout_of, governance_error in *. mred.
  destruct (m !! id) as [r|] eqn:Hr; [|done]. destruct (no_text a); [done|].
  destruct (_ && _); [done|]. injection Hd as <-. rewrite lookup_insert_eq. cbn [fst rs_state rs_percentage rs_candidate rs_stable].
  split; [done|]. split; [done|]. exists r. split; [done|]. intros subject Hlt.
  apply Z.ltb_lt in Hlt. by rewrite Hlt.
Qed.

Definition sample_rollouts : gmap string RolloutState := {["r" := mkRolloutState "1.0" "2.0" 5 "canary"]}.

Lemma rolled_back_canary_keeps_traffic_witness :
  let SH : SubjectHash := fun _ => 103%Z in
  exists m', canary_transition "r" zero_float one_float one_float one_float (Some "ana") sample_rollouts
               = (Ret "rolled_back", m') /\
             fst (canary_assign "r" "user" m') = Ret "2.0".
Proof.
  intros SH.
  destruct (canary_transition "r" zero_float one_float one_float one_float (Some "ana") sample_rollouts)
    as [o m'] eqn:Hd.
  assert (o = Ret "rolled_back") as -> by (injection Hd as <- _; reflexivity).
  exists m'. split; [reflexivity|].
  destruct (rolled_back_canary_keeps_traffic "r" zero_float one_float one_float one_float (Some "ana")
              sample_rollouts m' Hd) as (_ & _ & r & Hr & Ha).
  injection Hr as <-. apply Ha. reflexivity.
Defined.
