(* ===== verification/ModelGateway.v ===== *)
(** * Model routing: [production/model_gateway.py]

    The gateway registers model providers, records their health, resolves a
    request to one of them and calls it.  Providers are code of their own: a
    computation on a state [W] of theirs.  [monotonic()] is a stream of floats. *)

From stdpp Require Import base gmap strings list.
From Stdlib Require Import ZArith Lia Floats.SpecFloat.
From S2P Require Import Prelude Uuid Types Registry SourceLimits Deployment.
Local Open Scope py_scope.

(** ** [repr] of a string *)

Definition hex_digit (n : nat) : Ascii.ascii :=
  Ascii.ascii_of_nat (if (n <? 10)%nat then 48 + n else 87 + n).

Definition repr_char (quote c : Ascii.ascii) : string :=
  let n := Ascii.nat_of_ascii c in
  let escaped d := String (Ascii.ascii_of_nat 92) (String (Ascii.ascii_of_nat d) EmptyString) in
  if Ascii.eqb c quote || (n =? 92)%nat then escaped n
  else if (n =? 10)%nat then escaped 110
  else if (n =? 13)%nat then escaped 114
  else if (n =? 9)%nat then escaped 116
  else if (n <? 32)%nat || (n =? 127)%nat then
    escaped 120 +:+ String (hex_digit (n / 16)) (String (hex_digit (n mod 16)) EmptyString)
  else String c EmptyString.

Fixpoint repr_chars (quote : Ascii.ascii) (s : string) : string :=
  match s with
  | EmptyString => EmptyString
  | String c s => repr_char quote c +:+ repr_chars quote s
  end.

(** Single quotes, unless the text has one and no double quote. *)
Definition str_repr (s : string) : string :=
  let has n := existsb (fun c => (Ascii.nat_of_ascii c =? n)%nat) (String.list_ascii_of_string s) in
  let quote := Ascii.ascii_of_nat (if has 39 && negb (has 34) then 34 else 39) in
  String quote (repr_chars quote s +:+ String quote EmptyString).

Section gateway.
Context {W : Type}.

Record ModelSpec := mkSpec {
  ms_model_id : string;
  ms_version : string;
  ms_generate : string -> string -> Z -> dict -> M W pyval;
  ms_capabilities : gset string;
  ms_priority : Z;
  ms_cost_per_1k_tokens : spec_float;
  ms_max_tokens : Z;
  ms_healthy : bool }.

Record ModelRequest := mkModelRequest {
  mq_capability : string;
  mq_prompt : string;
  mq_max_tokens : Z;
  mq_budget : option spec_float;
  mq_preferred_model : option string }.

Record ModelResponse := mkResponse {
  mp_model_id : string;
  mp_version : string;
  mp_output : pyval;
  mp_latency_ms : spec_float;
  mp_estimated_cost : spec_float;
  mp_fallback_used : bool }.

Record ModelGateway := mkGateway {
  mg_registry : list (RegistryEntry ModelSpec);
  mg_health : gmap (string * string) bool;
  mg_clock : float_stream }.

Definition new_gateway (clock : float_stream) : ModelGateway := mkGateway [] ∅ clock.

Definition spec_metadata (m : ModelSpec) : dict :=
  [("capabilities", VList (VStr <$> sorted_strings (elements (ms_capabilities m))));
   ("priority", VInt (ms_priority m))].

Definition gateway_register (m : ModelSpec) : M ModelGateway unit := fun g =>
  match registry_register (ms_model_id m) (ms_version m) m (Some (spec_metadata m)) (mg_registry g) with
  | Raise e => (Raise e, g)
  | Ret (_, reg) =>
      (Ret tt, mkGateway reg (<[(ms_model_id m, ms_version m) := ms_healthy m]> (mg_health g)) (mg_clock g))
  end.

Definition set_health (id version : string) (healthy : bool) : M ModelGateway unit := fun g =>
  match registry_resolve id version (mg_registry g) with
  | Raise e => (Raise e, g)
  | Ret _ => (Ret tt, mkGateway (mg_registry g) (<[(id, version) := healthy]> (mg_health g)) (mg_clock g))
  end.

(** ** [resolve] *)

(** What the request asks of a model, its health apart. *)
Definition fits (q : ModelRequest) (m : ModelSpec) : bool :=
  bool_decide (mq_capability q ∈ ms_capabilities m) && (mq_max_tokens q <=? ms_max_tokens m)%Z.

Definition healthy_entry (g : ModelGateway) (e : RegistryEntry ModelSpec) : bool :=
  default false (mg_health g !! (re_id e, re_version e)).

Definition candidates (q : ModelRequest) (g : ModelGateway) : list ModelSpec :=
  re_value <$> filter (fun e => fits q (re_value e) && healthy_entry g e = true)
                 (registry_snapshot (mg_registry g)).

(** [if request.preferred_model]: the models of that name first. *)
Definition prefer (q : ModelRequest) (l : list ModelSpec) : list ModelSpec :=
  match mq_preferred_model q with
  | None => l
  | Some p => if String.eqb p "" then l
              else filter (fun m => ms_model_id m = p) l ++ filter (fun m => ms_model_id m <> p) l
  end.

(** The sort key [(priority, model_id, version)]. *)
Definition model_le (a b : ModelSpec) : bool :=
  (ms_priority a <? ms_priority b)%Z ||
  ((ms_priority a =? ms_priority b)%Z &&
   bool_decide (key_le (ms_model_id a, ms_version a) (ms_model_id b, ms_version b))).

(** [request.max_tokens / 1000 * model.cost_per_1k_tokens] *)
Definition model_cost (q : ModelRequest) (m : ModelSpec) : outcome spec_float :=
  k <-? true_div (mq_max_tokens q) 1000 ;; Ret (fmul k (ms_cost_per_1k_tokens m)).

Definition within_budget (q : ModelRequest) (cost : spec_float) : bool :=
  match mq_budget q with None => true | Some b => SFleb cost b end.

Definition fallback (q : ModelRequest) (g : ModelGateway) (m : ModelSpec) : bool :=
  existsb (fun e => negb (String.eqb (ms_model_id (re_value e)) (ms_model_id m)) && fits q (re_value e) &&
                    (ms_priority (re_value e) <? ms_priority m)%Z)
    (registry_snapshot (mg_registry g)) ||
  match mq_preferred_model q with None => false | Some p => negb (String.eqb (ms_model_id m) p) end.

Fixpoint first_affordable (q : ModelRequest) (g : ModelGateway) (l : list ModelSpec) :
    outcome (ModelSpec * bool) :=
  match l with
  | [] => raise (OtherException "ModelGatewayError")
            ("No healthy model satisfies capability=" +:+ str_repr (mq_capability q) +:+ " and budget")
  | m :: l =>
      cost <-? model_cost q m ;;
      if within_budget q cost then Ret (m, fallback q g m) else first_affordable q g l
  end.

Definition model_resolve (q : ModelRequest) (g : ModelGateway) : outcome (ModelSpec * bool) :=
  first_affordable q g (order_by model_le (prefer q (candidates q g))).

(** ** [invoke] *)

Definition monotonic : M (ModelGateway * W) spec_float := fun s =>
  let '(t, clock) := next_float (mg_clock (fst s)) in
  (Ret t, (mkGateway (mg_registry (fst s)) (mg_health (fst s)) clock, snd s)).

Definition on_provider {A} (m : M W A) : M (ModelGateway * W) A := fun s =>
  let '(o, w) := m (snd s) in (o, (fst s, w)).

(** A keyword given twice. *)
Definition repeated_keyword (kwargs : dict) : bool :=
  existsb (fun k => dmem k kwargs) ["model"; "prompt"; "max_tokens"].

Definition model_invoke (q : ModelRequest) (kwargs : dict) : M (ModelGateway * W) ModelResponse :=
  found <- (fun s => (model_resolve q (fst s), s)) ;;
  let '(m, fallback_used) := found in
  started <- monotonic ;;
  if repeated_keyword kwargs then lift (raise TypeError "got multiple values for keyword argument")
  else
    output <- on_provider (ms_generate m (ms_model_id m) (mq_prompt q) (mq_max_tokens q) kwargs) ;;
    now <- monotonic ;;
    let latency := fmul (SFsub 53 1024 now started) (exact_float 1000 0) in
    cost <- lift (model_cost q m) ;;
    ret (mkResponse (ms_model_id m) (ms_version m) output latency cost fallback_used).
End gateway.

Arguments ModelSpec : clear implicits.
Arguments ModelGateway : clear implicits.
