(* ===== verification/ProductionLoop.v ===== *)
(** * The production loop's certificate: [production/production_loop.py]

    Artifacts of the six stages from source to learning, and the certificate
    that all of them are present.  A stage is a text, as the source does not
    check its [Literal] type. *)

From stdpp Require Import base strings list.
From Stdlib Require Import ZArith Lia.
From S2P Require Import Prelude Uuid Json.
Local Open Scope py_scope.

Definition STAGES : list string :=
  ["source"; "evidence"; "intelligence"; "growth"; "outcome"; "learning"].

Record LoopArtifact := mkArtifact {
  la_stage : string;
  la_artifact_id : string;
  la_tenant_id : string;
  la_occurred_at : datetime;
  la_payload_hash : string;
  la_source_ref : string;
  la_execution_id : string }.

(** SHA-256 in hexadecimal: of the compact text of a payload and of a text. *)
Class LoopDigest := {
  payload_digest : json_text -> string;
  lineage_digest : string -> string }.

(** [len] of a text in UTF-8: bytes that do not continue a character. *)
Fixpoint py_len (s : string) : nat :=
  match s with
  | EmptyString => 0
  | String c s => let n := Ascii.nat_of_ascii c in
                  (if (128 <=? n)%nat && (n <? 192)%nat then 0 else 1) + py_len s
  end.

(** [LoopArtifact.create] *)
Definition create_artifact {LD : LoopDigest} {OS : ObjStr} (stage artifact_id tenant_id : string)
    (payload : pyval) (source_ref execution_id : string) (occurred_at : option datetime) :
    M Env LoopArtifact := fun e =>
  match dumps (stringify payload) with
  | Raise x => (Raise x, e)
  | Ret t =>
      let '(now, e) := match occurred_at with Some d => (d, e) | None => utc_now e end in
      (Ret (mkArtifact stage artifact_id tenant_id now (payload_digest t) source_ref execution_id), e)
  end.

Record ProductionLoopCertificate := mkCertificate {
  pc_certificate_id : string;
  pc_tenant_id : string;
  pc_execution_id : string;
  pc_generated_at : datetime;
  pc_artifacts : list LoopArtifact;
  pc_lineage_hash : string;
  pc_status : string }.

Definition production_verified (c : ProductionLoopCertificate) : bool :=
  String.eqb (pc_status c) "production_verified".

(** [as_dict] *)
Definition artifact_dict {IF : IsoFormat} (a : LoopArtifact) : dict :=
  [("stage", VStr (la_stage a)); ("artifact_id", VStr (la_artifact_id a));
   ("tenant_id", VStr (la_tenant_id a)); ("occurred_at", VStr (isoformat (la_occurred_at a)));
   ("payload_hash", VStr (la_payload_hash a)); ("source_ref", VStr (la_source_ref a));
   ("execution_id", VStr (la_execution_id a))].

Definition certificate_dict {IF : IsoFormat} (c : ProductionLoopCertificate) : dict :=
  [("certificate_id", VStr (pc_certificate_id c)); ("tenant_id", VStr (pc_tenant_id c));
   ("execution_id", VStr (pc_execution_id c)); ("generated_at", VStr (isoformat (pc_generated_at c)));
   ("status", VStr (pc_status c)); ("lineage_hash", VStr (pc_lineage_hash c));
   ("artifacts", VList (map (fun a => VDict (artifact_dict a)) (pc_artifacts c)))].

(** ** [ProductionLoopProof.certify] *)

(** [by_stage]: the artifacts of each stage in the order they were given. *)
Definition stages_map : Type := list (string * list LoopArtifact).

Definition empty_stages : stages_map := map (fun s => (s, [])) STAGES.

(** [by_stage[artifact.stage].append(artifact)]: [None] for an unknown stage. *)
Fixpoint add_to_stage (a : LoopArtifact) (m : stages_map) : option stages_map :=
  match m with
  | [] => None
  | (s, l) :: m => if String.eqb s (la_stage a) then Some ((s, l ++ [a]) :: m)
                   else m' ← add_to_stage a m; Some ((s, l) :: m')
  end.

Fixpoint collect (tenant_id execution_id : string) (artifacts : list LoopArtifact) (m : stages_map) :
    outcome stages_map :=
  match artifacts with
  | [] => Ret m
  | a :: artifacts =>
      if negb (String.eqb (la_tenant_id a) tenant_id) || negb (String.eqb (la_execution_id a) execution_id)
      then raise ValueError "loop artifacts must share tenant and execution identity"
      else if negb (py_len (la_payload_hash a) =? 64)%nat
      then raise ValueError ("invalid payload hash for " +:+ la_artifact_id a)
      else match add_to_stage a m with
           | None => raise KeyError (la_stage a)
           | Some m => collect tenant_id execution_id artifacts m
           end
  end.

Definition id_le (a b : LoopArtifact) : bool := String.leb (la_artifact_id a) (la_artifact_id b).

Definition ordered_artifacts (m : stages_map) : list LoopArtifact :=
  flat_map (fun sl => order_by id_le (snd sl)) m.

Definition lineage_entry (a : LoopArtifact) : string :=
  la_stage a +:+ ":" +:+ la_artifact_id a +:+ ":" +:+ la_payload_hash a +:+ ":" +:+
  la_source_ref a +:+ ":" +:+ la_execution_id a.

Definition lineage_payload (l : list LoopArtifact) : string :=
  String.concat "|" (map lineage_entry l).

Definition certify {LD : LoopDigest} (certificate_id tenant_id execution_id : string)
    (artifacts : list LoopArtifact) : M Env ProductionLoopCertificate :=
  if String.eqb tenant_id "" || String.eqb execution_id "" then
    lift (raise ValueError "tenant_id and execution_id are required")
  else
    m <- lift (collect tenant_id execution_id artifacts empty_stages) ;;
    let ordered := ordered_artifacts m in
    let status := if forallb (fun sl => match snd sl with [] => false | _ => true end) m
                  then "production_verified" else "rejected" in
    now <- (fun e => let '(t, e) := utc_now e in (Ret t, e)) ;;
    ret (mkCertificate certificate_id tenant_id execution_id now ordered
           (lineage_digest (lineage_payload ordered)) status).
