(* ===== verification/RoutingTheorems.v ===== *)
(** * Theorems about model routing and the production loop's certificate

    The model a request is routed to is the least affordable one in the order
    of priority, whatever model it prefers; a certificate is verified exactly
    when every stage has an artifact. *)

From stdpp Require Import base gmap strings list sorting.
From Stdlib Require Import ZArith Lia Sorted Floats.SpecFloat.
From S2P Require Import Prelude Uuid Json Registry SourceLimits Deployment Samples ModelGateway ProductionLoop.
Local Open Scope py_scope.

(** ** The order of models *)

Section routing.
Context {W : Type}.
Implicit Types (m : ModelSpec W) (g : ModelGateway W).

Lemma model_le_spec m m' :
  model_le m m' = true <->
  (ms_priority m < ms_priority m')%Z \/
  (ms_priority m = ms_priority m' /\ key_le (ms_model_id m, ms_version m) (ms_model_id m', ms_version m')).
Proof.
  unfold model_le. rewrite orb_true_iff, andb_true_iff, Z.ltb_lt, Z.eqb_eq, bool_decide_eq_true. done.
Qed.

Lemma model_le_total m m' : model_le m m' = true \/ model_le m' m = true.
Proof.
  rewrite !model_le_spec. destruct (key_le_total (ms_model_id m, ms_version m) (ms_model_id m', ms_version m'));
    destruct (Z.lt_trichotomy (ms_priority m) (ms_priority m')) as [|[|]]; auto.
Qed.

Lemma model_le_trans m1 m2 m3 : model_le m1 m2 = true -> model_le m2 m3 = true -> model_le m1 m3 = true.
Proof.
  rewrite !model_le_spec. intros [H1|[H1 H2]] [H3|[H3 H4]]; [left; lia..|].
  right. split; [lia|]. by eapply key_le_trans.
Qed.

(** Models that tie have the same name. *)
Lemma model_ties_id m m' : ties model_le m m' -> ms_model_id m = ms_model_id m'.
Proof.
  unfold ties. rewrite !model_le_spec. intros [[H1|[H1 H2]] [H3|[H3 H4]]]; try lia.
  pose proof (key_le_antisym _ _ H2 H4) as H. by injection H.
Qed.

(** Sorting undoes the preference. *)
Lemma order_by_prefer q (l : list (ModelSpec W)) : order_by model_le (prefer q l) = order_by model_le l.
Proof.
  unfold prefer. destruct (mq_preferred_model q) as [p|]; [|done]. destruct (String.eqb p ""); [done|].
  apply order_by_classes; [apply model_le_total|apply model_le_trans|]. intros x.
  induction l as [|m l IH]; [done|].
  rewrite filter_app in *. rewrite !(filter_cons _ m). destruct (decide (ms_model_id m = p)) as [Hp|Hp].
  - rewrite decide_False by (intros H; by apply H). rewrite filter_cons.
    destruct (decide (ties model_le x m)); cbn [app]; by rewrite IH.
  - rewrite decide_True by done. rewrite (filter_cons _ m).
    destruct (decide (ties model_le x m)) as [Hm|_]; [|done].
    assert (filter (ties model_le x) (filter (fun m => ms_model_id m = p) l) = []) as H0.
    { apply elem_of_nil_inv. intros y [Hy [Hy' _]%list_elem_of_filter]%list_elem_of_filter.
      apply Hp. rewrite <- Hy'. apply model_ties_id in Hm, Hy. congruence. }
    rewrite H0 in *. cbn [app] in *. by rewrite IH.
Qed.

(** The first affordable model of an ordered list is the least one. *)
Lemma first_affordable_spec q g (k : spec_float) (l : list (ModelSpec W)) :
  true_div (mq_max_tokens q) 1000 = Ret k ->
  StronglySorted (fun a b => model_le a b = true) l ->
  let affordable m := within_budget q (fmul k (ms_cost_per_1k_tokens m)) in
  match first_affordable q g l with
  | Ret (m, f) => m ∈ l /\ affordable m = true /\ f = fallback q g m /\
                  forall m', m' ∈ l -> affordable m' = true -> model_le m m' = true
  | Raise e => exn_cls e = OtherException "ModelGatewayError" /\ forall m, m ∈ l -> affordable m = false
  end.
Proof.
  intros Hk Hs affordable. induction Hs as [|m l Hl IH Hm]; cbn [first_affordable].
  - split; [done|]. by intros m ?%elem_of_nil.
  - unfold model_cost. rewrite Hk. cbn [out_bind]. fold (affordable m).
    destruct (affordable m) eqn:Ha.
    + split; [by left|]. split; [done|]. split; [done|].
      intros m' [->|Hin]%elem_of_cons _; [by destruct (model_le_total m m)|].
      by apply (proj1 (Forall_forall _ _) Hm).
    + destruct (first_affordable q g l) as [[m' f]|e].
      * destruct IH as (Hin & Ham & Hf & Hle). split; [by right|]. split; [done|]. split; [done|].
        intros x [->|Hx]%elem_of_cons Hxa; [congruence|by apply Hle].
      * destruct IH as [He Hno]. split; [done|].
        intros x [->|Hx]%elem_of_cons; [done|by apply Hno].
Qed.

Lemma candidates_spec q g m :
  m ∈ candidates q g <->
  exists e, e ∈ mg_registry g /\ re_value e = m /\ fits q m = true /\ healthy_entry g e = true.
Proof.
  unfold candidates. rewrite list_elem_of_fmap. unfold registry_snapshot. split.
  - intros (e & -> & [He%andb_true_iff Hin]%list_elem_of_filter).
    rewrite merge_sort_Permutation in Hin. exists e. naive_solver.
  - intros (e & Hin & <- & Hf & Hh). exists e. split; [done|]. apply list_elem_of_filter.
    rewrite Hf, Hh. split; [done|]. by rewrite merge_sort_Permutation.
Qed.

Lemma fits_able (q : ModelRequest) (m : ModelSpec W) :
  fits q m = true <-> mq_capability q ∈ ms_capabilities m /\ (mq_max_tokens q <= ms_max_tokens m)%Z.
Proof. unfold fits. by rewrite andb_true_iff, bool_decide_eq_true, Z.leb_le. Qed.

Lemma healthy_known (g : ModelGateway W) e :
  healthy_entry g e = true <-> mg_health g !! (re_id e, re_version e) = Some true.
Proof. unfold healthy_entry. by destruct (mg_health g !! _) as [[]|]. Qed.

(** C23. A request is routed to the least model, in the order of priority, name and
    version, among the registered models that have the capability, accept as
    many tokens, are healthy and cost no more than the budget; when there is
    none the gateway raises [ModelGatewayError].  The fallback flag says that
    another model of smaller priority number has the capability and accepts the
    tokens, or that the preferred model was not chosen. *)
Theorem model_routing_spec (q : ModelRequest) (g : ModelGateway W) (k : spec_float)
    (Hk : true_div (mq_max_tokens q) 1000 = Ret k) :
  let able m := mq_capability q ∈ ms_capabilities m /\ (mq_max_tokens q <= ms_max_tokens m)%Z in
  let eligible m := exists e, e ∈ mg_registry g /\ re_value e = m /\ able m /\
    mg_health g !! (re_id e, re_version e) = Some true /\ within_budget q (fmul k (ms_cost_per_1k_tokens m)) = true in
  match model_resolve q g with
  | Ret (m, flag) =>
      eligible m /\ (forall m', eligible m' -> model_le m m' = true) /\
      (flag = true <->
         (exists e, e ∈ mg_registry g /\ ms_model_id (re_value e) <> ms_model_id m /\
            able (re_value e) /\ (ms_priority (re_value e) < ms_priority m)%Z) \/
         (exists p, mq_preferred_model q = Some p /\ ms_model_id m <> p))
  | Raise e => exn_cls e = OtherException "ModelGatewayError" /\ forall m, ~ eligible m
  end.
Proof.
  intros able eligible. unfold model_resolve. rewrite order_by_prefer.
  pose proof (first_affordable_spec q g k _ Hk
    (order_by_ordered _ model_le_total model_le_trans (candidates q g))) as H.
  assert (forall m, eligible m <-> m ∈ order_by model_le (candidates q g) /\
            within_budget q (fmul k (ms_cost_per_1k_tokens m)) = true) as Hel.
  { intros m. rewrite order_by_perm, candidates_spec. split.
    - intros (e & H1 & H2 & H3%fits_able & H4%healthy_known & H5). split; [by exists e|done].
    - intros [(e & H1 & H2 & H3%fits_able & H4%healthy_known) H5]. by exists e. }
  cbn zeta in H. destruct (first_affordable q g _) as [[m f]|e].
  - destruct H as (Hin & Ha & -> & Hle). split; [by apply Hel|]. split.
    { intros m' Hm'. apply Hel in Hm' as [??]. by apply Hle. }
    unfold fallback. rewrite orb_true_iff, existsb_exists. f_equiv.
    + f_equiv. intros e. rewrite !andb_true_iff, negb_true_iff, String.eqb_neq, Z.ltb_lt, <- list_elem_of_In.
      unfold registry_snapshot. rewrite merge_sort_Permutation, (fits_able q (re_value e)). unfold able. tauto.
    + destruct (mq_preferred_model q) as [p|]; [rewrite negb_true_iff, String.eqb_neq|]; naive_solver.
  - destruct H as [He Hno]. split; [done|]. intros m Hm. apply Hel in Hm as [Hin Hw].
    by rewrite (Hno m Hin) in Hw.
Qed.

Definition with_preferred (p : option string) (q : ModelRequest) : ModelRequest :=
  mkModelRequest (mq_capability q) (mq_prompt q) (mq_max_tokens q) (mq_budget q) p.

(** The preferred model of a request has no influence on the model it is
    routed to, nor on the error, only on the fallback flag: the candidates are
    sorted by priority after the preferred ones were moved to the front. *)
Theorem preference_changes_only_the_flag (q : ModelRequest) (g : ModelGateway W) (p p' : option string) :
  let model_of o := match o with Ret (m, _) => Ret m | Raise e => Raise e end in
  model_of (model_resolve (with_preferred p q) g) = model_of (model_resolve (with_preferred p' q) g).
Proof.
  intros model_of. unfold model_resolve. rewrite !order_by_prefer.
  change (candidates (with_preferred p q) g) with (candidates q g).
  change (candidates (with_preferred p' q) g) with (candidates q g).
  induction (order_by model_le (candidates q g)) as [|m l IH]; [done|]. cbn [first_affordable].
  change (model_cost (with_preferred p q) m) with (model_cost q m).
  change (model_cost (with_preferred p' q) m) with (model_cost q m).
  destruct (model_cost q m) as [c|e]; [|done]. cbn [out_bind].
  change (within_budget (with_preferred p q) c) with (within_budget q c).
  change (within_budget (with_preferred p' q) c) with (within_budget q c).
  by destruct (within_budget q c).
Qed.
End routing.

Definition sample_model (id : string) (priority : Z) : ModelSpec unit :=
  mkSpec id "1" (fun _ prompt _ _ => ret (VStr prompt)) {["generation"]} priority (S754_zero false) 8192 true.

Definition sample_request (preferred : option string) : ModelRequest :=
  mkModelRequest "generation" "hello" 2048 None preferred.

Definition sample_gateway : ModelGateway unit :=
  let g := new_gateway (mkStream (fun _ => S754_zero false) 0) in
  snd (gateway_register (sample_model "other" 20) (snd (gateway_register (sample_model "primary" 10) g))).

Lemma model_routing_spec_witness :
  exists k m, true_div 2048 1000 = Ret k /\
    model_resolve (sample_request (Some "other")) sample_gateway = Ret (m, true) /\
    ms_model_id m = "primary" /\
    exists p, mq_preferred_model (sample_request (Some "other")) = Some p /\ ms_model_id m <> p.
Proof.
  destruct (true_div 2048 1000) as [k|e] eqn:Hk; [|exfalso; revert Hk; vm_compute; discriminate].
  pose proof (model_routing_spec (sample_request (Some "other")) sample_gateway k Hk) as H.
  exists k, (sample_model "primary" 10).
  assert (model_resolve (sample_request (Some "other")) sample_gateway
            = Ret (sample_model "primary" 10, true)) as Hr by (vm_compute; reflexivity).
  split; [reflexivity|]. split; [exact Hr|]. split; [reflexivity|].
  cbn zeta in H. rewrite Hr in H. destruct H as (_ & _ & H). destruct (proj1 H eq_refl) as [H1|H1]; [|exact H1].
  destruct H1 as (e & He & Hne & _ & Hlt). exfalso. revert Hne Hlt.
  assert (mg_registry sample_gateway
    = [mkEntry "primary" "1" (sample_model "primary" 10) (spec_metadata (sample_model "primary" 10));
       mkEntry "other" "1" (sample_model "other" 20) (spec_metadata (sample_model "other" 20))]) as Hreg
    by reflexivity.
  rewrite Hreg in He. apply elem_of_cons in He as [->|[->|He%elem_of_nil]%elem_of_cons]; cbn; [done|lia|done].
Defined.

(** ** The certificate of the production loop *)

Section loop.
Context {LD : LoopDigest}.

(** What [certify] asks of an artifact. *)
Definition certifiable (tenant_id execution_id : string) (a : LoopArtifact) : Prop :=
  la_tenant_id a = tenant_id /\ la_execution_id a = execution_id /\ py_len (la_payload_hash a) = 64%nat /\
  la_stage a ∈ STAGES.

(** The map that files each artifact under its stage. *)
Definition filed (stages : list string) (l : list LoopArtifact) : stages_map :=
  map (fun s => (s, filter (fun a => la_stage a = s) l)) stages.

Lemma add_to_stage_filed stages l a :
  NoDup stages ->
  add_to_stage a (filed stages l) =
    if decide (la_stage a ∈ stages) then Some (filed stages (l ++ [a])) else None.
Proof.
  unfold filed. induction 1 as [|s stages Hs Hn IH].
  { by rewrite decide_False by apply not_elem_of_nil. }
  cbn [map add_to_stage].
  assert (forall b, filter (fun a => la_stage a = b) (l ++ [a]) =
            filter (fun a => la_stage a = b) l ++ (if decide (la_stage a = b) then [a] else [])) as Hf.
  { intros b. by rewrite filter_app, filter_cons. }
  rewrite Hf. destruct (String.eqb_spec s (la_stage a)) as [->|Hne].
  - rewrite (decide_True (P := la_stage a = la_stage a)) by done.
    rewrite (decide_True (P := la_stage a ∈ _ :: _)) by by left. do 2 f_equal.
    apply map_ext_in. intros b Hb%list_elem_of_In. rewrite Hf, (decide_False (P := la_stage a = b)) by (by intros <-).
    by rewrite app_nil_r.
  - rewrite (decide_False (P := la_stage a = s)), app_nil_r, IH by done.
    destruct (decide (la_stage a ∈ stages)) as [Hin|Hin].
    + by rewrite (decide_True (P := la_stage a ∈ _ :: _)) by by right.
    + rewrite (decide_False (P := la_stage a ∈ _ :: _)); [done|]. by intros [?|?]%elem_of_cons.
Qed.

Lemma STAGES_NoDup : NoDup STAGES.
Proof. apply (bool_decide_unpack _). vm_compute. exact I. Qed.

Lemma collect_filed tenant execution (l l0 : list LoopArtifact) :
  match collect tenant execution l (filed STAGES l0) with
  | Ret m => m = filed STAGES (l0 ++ l) /\ Forall (certifiable tenant execution) l
  | Raise _ => ~ Forall (certifiable tenant execution) l
  end.
Proof.
  revert l0. induction l as [|a l IH]; intros l0; cbn [collect]; [by rewrite app_nil_r|].
  unfold certifiable in *.
  destruct (String.eqb_spec (la_tenant_id a) tenant); cbn [negb orb]; [|by inversion 1; naive_solver].
  destruct (String.eqb_spec (la_execution_id a) execution); cbn [negb orb]; [|by inversion 1; naive_solver].
  destruct (Nat.eqb_spec (py_len (la_payload_hash a)) 64); cbn [negb]; [|by inversion 1; naive_solver].
  rewrite (add_to_stage_filed STAGES l0 a STAGES_NoDup).
  destruct (decide (la_stage a ∈ STAGES)); [|by inversion 1; naive_solver].
  specialize (IH (l0 ++ [a])). destruct (collect _ _ _ _).
  - destruct IH as [-> IH]. rewrite <- app_assoc. split; [done|]. by constructor.
  - by inversion 1.
Qed.

Lemma empty_stages_filed : empty_stages = filed STAGES [].
Proof. reflexivity. Qed.

Lemma filed_perm stages l :
  NoDup stages -> Forall (fun a => la_stage a ∈ stages) l -> flat_map snd (filed stages l) ≡ₚ l.
Proof.
  unfold filed. intros Hn. revert l. induction Hn as [|s stages Hs Hn IH]; intros l Hl; cbn [map flat_map snd].
  - destruct Hl as [|a l Ha]; [done|]. by apply elem_of_nil in Ha.
  - transitivity (filter (fun a => la_stage a = s) l ++ filter (fun a => ¬ la_stage a = s) l);
      [|apply filter_app_complement].
    apply Permutation_app_head. etransitivity; [|apply IH].
    + match goal with |- ?x ≡ₚ ?y => assert (x = y) as ->; [|done] end. rewrite !flat_map_concat_map, !map_map. f_equal. apply map_ext_in.
      intros b Hb%list_elem_of_In. cbn [snd]. rewrite list_filter_filter. apply list_filter_iff.
      intros a. split; [|by intros []]. intros <-. split; [done|]. by intros <-.
    + apply Forall_forall. intros a [Ha Hin]%list_elem_of_filter.
      pose proof (proj1 (Forall_forall _ _) Hl a Hin) as Hst. cbn in Hst.
      by apply elem_of_cons in Hst as [?|?].
Qed.

Lemma ordered_artifacts_perm m : ordered_artifacts m ≡ₚ flat_map snd m.
Proof.
  unfold ordered_artifacts. induction m as [|[s l] m IH]; [done|]. cbn [flat_map snd].
  by rewrite IH, order_by_perm.
Qed.

Lemma all_stages_filed l :
  forallb (fun sl => match snd sl with [] => false | _ => true end) (filed STAGES l) = true <->
  forall s, s ∈ STAGES -> exists a, a ∈ l /\ la_stage a = s.
Proof.
  rewrite forallb_forall. unfold filed. split.
  - intros H s Hs. specialize (H (s, filter (fun a => la_stage a = s) l)).
    cbn [snd] in H. destruct (filter _ l) as [|a f] eqn:Hf.
    + exfalso. discriminate H. apply in_map_iff. exists s. rewrite Hf. split; [done|by apply list_elem_of_In].
    + exists a. assert (a ∈ filter (fun a => la_stage a = s) l) as Ha by (rewrite Hf; by left).
      apply list_elem_of_filter in Ha as [??]. done.
  - intros H [s f] Hin. apply in_map_iff in Hin as (s' & [= <- <-] & Hs%list_elem_of_In).
    destruct (H s' Hs) as (a & Ha & Hst). cbn [snd].
    destruct (filter _ l) eqn:Hf; [|done]. exfalso. apply (elem_of_nil a). rewrite <- Hf.
    by apply list_elem_of_filter.
Qed.

(** The production loop is certified exactly when every stage has an
    artifact.  [certify] raises when the tenant or the execution is empty or an
    artifact belongs to another tenant or execution, has a payload hash that is
    not 64 characters long or an unknown stage, and succeeds otherwise; the
    certificate lists exactly the given artifacts, and it is
    [production_verified] if and only if each of the six stages is among them. *)
Theorem certificate_needs_every_stage (id tenant execution : string) (l : list LoopArtifact) (e : Env) :
  let valid := tenant <> "" /\ execution <> "" /\ Forall (certifiable tenant execution) l in
  match certify id tenant execution l e with
  | (Ret c, _) =>
      valid /\ pc_artifacts c ≡ₚ l /\ pc_tenant_id c = tenant /\ pc_execution_id c = execution /\
      pc_lineage_hash c = lineage_digest (lineage_payload (pc_artifacts c)) /\
      (production_verified c = true <-> forall s, s ∈ STAGES -> exists a, a ∈ l /\ la_stage a = s)
  | (Raise _, e') => ~ valid /\ e' = e
  end.
Proof.
  intros valid. unfold certify, valid.
  destruct (String.eqb_spec tenant "") as [->|Ht]; [by cbn; naive_solver|].
  destruct (String.eqb_spec execution "") as [->|Hx]; [by cbn; naive_solver|]. cbn [orb].
  pose proof (collect_filed tenant execution l []) as Hc. rewrite <- empty_stages_filed in Hc.
  mred. destruct (collect tenant execution l empty_stages) as [m|x]; [|naive_solver].
  destruct Hc as [-> Hl]. cbn [app] in *. destruct (utc_now e) as [now e'].
  cbn [pc_artifacts pc_tenant_id pc_execution_id pc_lineage_hash pc_status production_verified].
  split; [done|]. split; [|do 3 (split; [done|])].
  - rewrite ordered_artifacts_perm. apply filed_perm; [apply STAGES_NoDup|].
    eapply Forall_impl; [exact Hl|]. by intros a (_ & _ & _ & ?).
  - rewrite <- all_stages_filed. unfold production_verified. cbn [pc_status]. by destruct (forallb _ _).
Qed.

Lemma id_le_total a b : id_le a b = true \/ id_le b a = true.
Proof. apply (total str_le). Qed.

Lemma id_le_trans a b c : id_le a b = true -> id_le b c = true -> id_le a c = true.
Proof. apply (str_le_trans (la_artifact_id a)). Qed.

(** Lists without two elements that tie are sorted the same in any order. *)
Lemma order_by_distinct (l l' : list LoopArtifact) :
  NoDup (la_artifact_id <$> l) -> l ≡ₚ l' -> order_by id_le l = order_by id_le l'.
Proof.
  intros Hn Hp. apply order_by_classes; [apply id_le_total|apply id_le_trans|]. intros x.
  assert (forall k, NoDup (la_artifact_id <$> k) -> forall a b,
            a ∈ filter (ties id_le x) k -> b ∈ filter (ties id_le x) k -> a = b) as Hone.
  { intros k Hk a b [[Ha Ha'] Hina]%list_elem_of_filter [[Hb Hb'] Hinb]%list_elem_of_filter.
    assert (la_artifact_id a = la_artifact_id b) as Hid.
    { transitivity (la_artifact_id x); [symmetry|]; by apply str_le_antisym. }
    by apply (NoDup_fmap_elem_eq la_artifact_id k). }
  assert (forall k : list LoopArtifact, NoDup k -> (forall a b, a ∈ k -> b ∈ k -> a = b) ->
            k = [] \/ exists a, k = [a]) as Hshort.
  { intros [|a [|b k]] Hk Hall; [by left|right; by exists a|]. exfalso.
    apply NoDup_cons in Hk as [Hk _]. apply Hk. rewrite (Hall a b); [by left..|by right; left]. }
  assert (NoDup l) as Hl by by eapply NoDup_fmap_1.
  assert (filter (ties id_le x) l ≡ₚ filter (ties id_le x) l') as Hf by by rewrite Hp.
  destruct (Hshort (filter (ties id_le x) l)) as [H|[a H]].
  - by apply NoDup_filter.
  - by apply Hone.
  - rewrite H in *. by apply Permutation_nil_l in Hf.
  - rewrite H in *. by apply Permutation_singleton_l in Hf.
Qed.

(** The lineage hash does not depend on the order in which the artifacts are
    given: when no two artifacts of the same stage share an identifier, every
    permutation of them gets the same artifacts in the same order, the same
    lineage hash and the same verdict. *)
Theorem lineage_independent_of_order (id tenant execution : string) (l l' : list LoopArtifact)
    (e e1 : Env) (c : ProductionLoopCertificate)
    (Hids : NoDup ((fun a => (la_stage a, la_artifact_id a)) <$> l)) (Hp : l ≡ₚ l')
    (Hc : certify id tenant execution l e = (Ret c, e1)) :
  certify id tenant execution l' e = (Ret c, e1).
Proof.
  unfold certify in *. destruct (_ || _); [done|]. mred.
  pose proof (collect_filed tenant execution l []) as H1.
  pose proof (collect_filed tenant execution l' []) as H2. rewrite <- empty_stages_filed in *.
  destruct (collect tenant execution l empty_stages) as [m|x]; [|done].
  destruct H1 as [-> Hl]. cbn [app] in *.
  destruct (collect tenant execution l' empty_stages) as [m'|x]; [|exfalso; apply H2; by rewrite <- Hp].
  destruct H2 as [-> _]. rewrite <- Hc. destruct (utc_now e) as [now e'].
  assert (forall s, NoDup (la_artifact_id <$> filter (fun a => la_stage a = s) l)) as Hdup.
  { intros s. clear -Hids. induction l as [|a l IH]; [constructor|]. rewrite fmap_cons in Hids.
    apply NoDup_cons in Hids as [Ha Hids]. rewrite filter_cons.
    destruct (decide (la_stage a = s)) as [Hs|]; [|by apply IH]. rewrite fmap_cons. constructor; [|by apply IH].
    intros (b & Hb & [Hbs Hin]%list_elem_of_filter)%list_elem_of_fmap. apply Ha.
    apply list_elem_of_fmap. exists b. split; [|done]. congruence. }
  assert (ordered_artifacts (filed STAGES l') = ordered_artifacts (filed STAGES l)) as ->.
  { unfold ordered_artifacts, filed. rewrite !flat_map_concat_map, !map_map. f_equal. apply map_ext.
    intros s. cbn [snd]. symmetry. apply order_by_distinct; [apply Hdup|]. by rewrite Hp. }
  assert (forallb (fun sl => match snd sl with [] => false | _ => true end) (filed STAGES l') =
          forallb (fun sl => match snd sl with [] => false | _ => true end) (filed STAGES l)) as ->.
  { apply Bool.eq_true_iff_eq. rewrite !all_stages_filed.
    split; intros H s Hs; destruct (H s Hs) as (a & Ha & Has); exists a; (split; [|done]);
      [by rewrite Hp|by rewrite <- Hp]. }
  done.
Qed.

Definition at_stage (s : string) (a : LoopArtifact) : LoopArtifact :=
  mkArtifact s (la_artifact_id a) (la_tenant_id a) (la_occurred_at a) (la_payload_hash a)
    (la_source_ref a) (la_execution_id a).

(** One piece of evidence certifies the whole loop: any artifact with a
    64-character payload hash, presented once for each stage under the same
    identifier, payload hash and source, is [production_verified]. *)
Theorem one_artifact_certifies_the_loop (id : string) (a : LoopArtifact) (e : Env)
    (Ht : la_tenant_id a <> "") (Hx : la_execution_id a <> "") (Hh : py_len (la_payload_hash a) = 64%nat) :
  exists c e', certify id (la_tenant_id a) (la_execution_id a) (map (fun s => at_stage s a) STAGES) e
                 = (Ret c, e') /\ production_verified c = true.
Proof.
  unfold certify. apply String.eqb_neq in Ht, Hx. rewrite Ht, Hx. cbn [orb]. mred.
  pose proof (collect_filed (la_tenant_id a) (la_execution_id a) (map (fun s => at_stage s a) STAGES) []) as Hc.
  rewrite <- empty_stages_filed in Hc.
  destruct (collect _ _ _ _) as [m|x].
  - destruct Hc as [-> _]. destruct (utc_now e) as [now e']. eexists _, _. split; [reflexivity|].
    unfold production_verified. cbn [pc_status].
    match goal with |- context[if ?b then _ else _] => assert (b = true) as -> end; [|done].
    apply all_stages_filed. intros s Hs. exists (at_stage s a). split; [|done].
    apply list_elem_of_In, in_map_iff. exists s. split; [done|by apply list_elem_of_In].
  - exfalso. apply Hc. apply Forall_forall. intros b Hb%list_elem_of_In.
    apply in_map_iff in Hb as (s & <- & Hs%list_elem_of_In). done.
Qed.
End loop.

Definition sample_digest : LoopDigest :=
  {| payload_digest := fun _ => "0123456789abcdef0123456789abcdef0123456789abcdef0123456789abcdef";
     lineage_digest := fun s => s |}.

Definition sample_artifact (stage id : string) : LoopArtifact :=
  mkArtifact stage id "acme" 0%Z
    "0123456789abcdef0123456789abcdef0123456789abcdef0123456789abcdef" "live" "exec-1".

Lemma lineage_independent_of_order_witness :
  let LD := sample_digest in
  let a := sample_artifact "source" "1" in let b := sample_artifact "learning" "1" in
  exists c e, certify "cert" "acme" "exec-1" [b; a] sample_env = (Ret c, e) /\ pc_artifacts c = [a; b].
Proof.
  intros LD a b.
  destruct (certify "cert" "acme" "exec-1" [a; b] sample_env) as [o e] eqn:Hc.
  assert (exists c, o = Ret c /\ pc_artifacts c = [a; b]) as (c & -> & Hl).
  { injection Hc as <- _. eexists. split; reflexivity. }
  exists c, e. split; [|exact Hl].
  apply (lineage_independent_of_order "cert" "acme" "exec-1" [a; b] [b; a] sample_env e c); [..|exact Hc].
  - apply (bool_decide_unpack _). vm_compute. exact I.
  - apply Permutation_swap.
Defined.

Lemma one_artifact_certifies_the_loop_witness :
  let LD := sample_digest in let a := sample_artifact "source" "1" in
  exists c e, certify "cert" "acme" "exec-1" (map (fun s => at_stage s a) STAGES) sample_env = (Ret c, e) /\
    production_verified c = true.
Proof.
  intros LD a.
  apply (one_artifact_certifies_the_loop "cert" a sample_env); [discriminate..|reflexivity].
Defined.
