(* ===== verification/Invocations.v ===== *)
(** * Execution states and invocation claims: [ois/application/state.py],
      [ois/recovery/engine.py] and [ois/infrastructure/postgres_execution.py]

    The fail-closed state machine of an execution, the recovery plane that moves
    along it, and the PostgreSQL store of execution states, evidence, invocation
    claims and staged side effects.  The staged effects go to the table of
    [Outbox], which the workers of [ois/kernel/side_effects.py] read.

    Each method is one transaction.  [others] is what other transactions commit
    between two of its statements, where no row is locked yet; an exception
    discards the method's own writes only.

    Its theorems: the store keeps the state machine, the claims and the outbox; an
    invocation is claimed and staged once; a staged effect is delivered; what
    releasing a claim does to its effect; and which recoveries the state machine
    accepts. *)

From stdpp Require Import base gmap strings list relations.
From Stdlib Require Import ZArith Lia.
From S2P Require Import Prelude Uuid Json Samples Jsonb Outbox OutboxFacts AutonomousRuns AutonomousFacts.
Local Open Scope py_scope.

(** ** [ExecutionState] *)

Inductive ExecutionState :=
  | X_PENDING | X_AUTHORIZED | X_EXECUTING | X_VALIDATING | X_VERIFIED | X_RETRY_PENDING
  | X_ROLLBACK_PENDING | X_ESCALATION_REQUIRED | X_FAILED.

#[export] Instance ExecutionState_eq_dec : EqDecision ExecutionState.
Proof. solve_decision. Defined.

Definition ExecutionState_value (s : ExecutionState) : string :=
  match s with
  | X_PENDING => "pending" | X_AUTHORIZED => "authorized" | X_EXECUTING => "executing"
  | X_VALIDATING => "validating" | X_VERIFIED => "verified" | X_RETRY_PENDING => "retry_pending"
  | X_ROLLBACK_PENDING => "rollback_pending" | X_ESCALATION_REQUIRED => "escalation_required"
  | X_FAILED => "failed"
  end.

#[export, program] Instance ExecutionState_enum : StrEnum ExecutionState := {|
  enum_value := ExecutionState_value;
  enum_members := [X_PENDING; X_AUTHORIZED; X_EXECUTING; X_VALIDATING; X_VERIFIED;
                   X_RETRY_PENDING; X_ROLLBACK_PENDING; X_ESCALATION_REQUIRED; X_FAILED] |}.
Next Obligation. by intros []. Qed.

(** [_TRANSITIONS] *)
Definition TRANSITIONS (s : ExecutionState) : list ExecutionState :=
  match s with
  | X_PENDING => [X_AUTHORIZED; X_FAILED]
  | X_AUTHORIZED => [X_EXECUTING; X_FAILED]
  | X_EXECUTING => [X_VALIDATING; X_ROLLBACK_PENDING; X_FAILED]
  | X_VALIDATING => [X_VERIFIED; X_RETRY_PENDING; X_ROLLBACK_PENDING; X_ESCALATION_REQUIRED; X_FAILED]
  | X_VERIFIED => []
  | X_RETRY_PENDING => [X_EXECUTING; X_ESCALATION_REQUIRED]
  | X_ROLLBACK_PENDING => [X_FAILED; X_VERIFIED]
  | X_ESCALATION_REQUIRED => []
  | X_FAILED => []
  end.

Definition transition (current target : ExecutionState) : outcome ExecutionState :=
  if bool_decide (target ∈ TRANSITIONS current) then Ret target
  else raise ValueError ("invalid execution transition: " +:+ enum_value current +:+ " -> " +:+
                         enum_value target).

(** ** [RecoveryPlane] *)

Record PlaneDecision := mkPlaneDecision {
  pd_action : string; pd_reason : string; pd_next_state : option ExecutionState }.

Definition plane_decide (failure : string) (attempt max_attempts : Z) : PlaneDecision :=
  if (attempt <? max_attempts)%Z then mkPlaneDecision "retry" failure (Some X_RETRY_PENDING)
  else mkPlaneDecision "escalate" failure (Some X_ESCALATION_REQUIRED).

Definition plane_apply (current : ExecutionState) (d : PlaneDecision) : outcome ExecutionState :=
  match pd_next_state d with
  | None => Ret current
  | Some s => transition current s
  end.

(** ** [PostgresExecutionStore] *)

Record state_row := mkStateRow { st_state : string; st_updated_at : datetime }.

Record evidence_row := mkEvidenceRow {
  xe_execution_id : string; xe_category : string; xe_payload : json_text }.

Inductive claim_status := CL_PENDING | CL_COMPLETED.

#[export] Instance claim_status_eq_dec : EqDecision claim_status.
Proof. solve_decision. Defined.

(** A row of [ois_idempotency_results]; the fingerprint column is nullable. *)
Record invocation_claim := mkInvocationClaim {
  ic_execution_id : uuid;
  ic_tenant_id : string;
  ic_capability_id : string;
  ic_status : claim_status;
  ic_result : json_text;
  ic_fingerprint : option string }.

Record invocation_db := mkInvocationDb {
  iv_states : gmap string state_row;
  iv_evidence : list evidence_row;
  iv_claims : gmap string invocation_claim;
  iv_outbox : outbox }.

Definition with_iv_states m db := mkInvocationDb m (iv_evidence db) (iv_claims db) (iv_outbox db).
Definition with_iv_evidence l db := mkInvocationDb (iv_states db) l (iv_claims db) (iv_outbox db).
Definition with_iv_claims m db := mkInvocationDb (iv_states db) (iv_evidence db) m (iv_outbox db).
Definition with_iv_outbox l db := mkInvocationDb (iv_states db) (iv_evidence db) (iv_claims db) l.

Section store.
Context {JB : Jsonb} {PI : PgInputs}.

(** Text that is written to a JSONB column. *)
Definition jsonb_param (d : dict) : outcome json_text := t <-? dumps (VDict d) ;; jsonb_in t.

Definition append_evidence (execution_id category : string) (payload : dict) : M invocation_db unit :=
  transaction (fun db =>
    u <-? jsonb_param payload ;;
    Ret (tt, with_iv_evidence (iv_evidence db ++ [mkEvidenceRow execution_id category u]) db)).

(** [ExecutionState(row[0])] *)
Definition stored_state (r : state_row) : outcome ExecutionState :=
  match enum_lookup (st_state r) with
  | Some s => Ret s
  | None => raise ValueError (st_state r +:+ " is not a valid ExecutionState")
  end.

Definition get_state (execution_id : string) : M invocation_db (option ExecutionState) := fun db =>
  match iv_states db !! execution_id with
  | None => (Ret None, db)
  | Some r => (match stored_state r with Ret s => Ret (Some s) | Raise x => Raise x end, db)
  end.

(** [FOR UPDATE] locks a row that is there; of two writers that both find none,
    the later [INSERT] violates the primary key. *)
Definition set_state (others : invocation_db -> invocation_db) (now : datetime)
    (execution_id : string) (state : ExecutionState) : M invocation_db unit := fun db =>
  match iv_states db !! execution_id with
  | Some r =>
      match (current <-? stored_state r ;; transition current state) with
      | Raise x => (Raise x, db)
      | Ret _ => (Ret tt, with_iv_states
                   (<[execution_id := mkStateRow (enum_value state) now]> (iv_states db)) db)
      end
  | None =>
      let db := others db in
      match iv_states db !! execution_id with
      | Some _ => (unique_violation "execution_state_pkey", db)
      | None => (Ret tt, with_iv_states
                   (<[execution_id := mkStateRow (enum_value state) now]> (iv_states db)) db)
      end
  end.

(** [INSERT ... ON CONFLICT DO NOTHING RETURNING], then [SELECT ... FOR UPDATE]:
    a claim that conflicts may be released by others before it is selected. *)
Definition claim_idempotency (others : invocation_db -> invocation_db)
    (invocation_id execution_id tenant_id capability_id fingerprint : string) :
    M invocation_db bool := fun db =>
  match (u <-? pg_uuid execution_id ;; r <-? jsonb_param [] ;; Ret (u, r)) with
  | Raise x => (Raise x, db)
  | Ret (u, r) =>
      match iv_claims db !! invocation_id with
      | None =>
          (Ret true, with_iv_claims
             (<[invocation_id := mkInvocationClaim u tenant_id capability_id CL_PENDING r (Some fingerprint)]>
                (iv_claims db)) db)
      | Some _ =>
          let db := others db in
          match iv_claims db !! invocation_id with
          | None => (raise RuntimeError "idempotency claim disappeared during transaction", db)
          | Some c => if bool_decide (ic_fingerprint c = Some fingerprint) then (Ret false, db)
                      else (raise ValueError "idempotency key reused with a different request", db)
          end
      end
  end.

Definition is_pending (c : invocation_claim) : bool := bool_decide (ic_status c = CL_PENDING).

Definition complete_claim (u : json_text) (c : invocation_claim) : invocation_claim :=
  mkInvocationClaim (ic_execution_id c) (ic_tenant_id c) (ic_capability_id c) CL_COMPLETED u
    (ic_fingerprint c).

Definition complete_idempotency (invocation_id : string) (result : dict) : M invocation_db unit :=
  transaction (fun db =>
    u <-? jsonb_param result ;;
    match iv_claims db !! invocation_id with
    | Some c =>
        if is_pending c then
          Ret (tt, with_iv_claims (<[invocation_id := complete_claim u c]> (iv_claims db)) db)
        else raise KeyError ("unknown or completed invocation: " +:+ invocation_id)
    | None => raise KeyError ("unknown or completed invocation: " +:+ invocation_id)
    end).

Definition get_idempotency_result (invocation_id : string) (db : invocation_db) : option pyval :=
  match iv_claims db !! invocation_id with
  | Some c => if is_pending c then None else Some (jsonb_out (ic_result c))
  | None => None
  end.

Definition release_idempotency (invocation_id : string) : M invocation_db unit :=
  modify (fun db =>
    match iv_claims db !! invocation_id with
    | Some c => if is_pending c then with_iv_claims (delete invocation_id (iv_claims db)) db else db
    | None => db
    end).

(** The [INSERT] of [stage_side_effect]: every unique column raises. *)
Definition stage_insert (now : datetime)
    (effect_id tenant_id execution_id invocation_id capability_id key : string) (request : dict)
    (s : outbox) : outcome outbox :=
  u <-? jsonb_param request ;;
  x <-? pg_uuid execution_id ;;
  if existsb (fun r => String.eqb (ob_effect_id r) effect_id) s then unique_violation "effect_id"
  else if existsb (fun r => String.eqb (ob_invocation_id r) invocation_id) s
  then unique_violation "invocation_id"
  else if existsb (fun r => String.eqb (ob_idempotency_key r) key) s
  then unique_violation "idempotency_key"
  else Ret (s ++ [mkOutboxRow effect_id tenant_id x invocation_id capability_id key u now
                    OB_PENDING 0 None None None None now]).

Definition stage_side_effect (now : datetime)
    (effect_id tenant_id execution_id invocation_id capability_id key : string) (request : dict) :
    M invocation_db unit :=
  transaction (fun db =>
    s <-? stage_insert now effect_id tenant_id execution_id invocation_id capability_id key request
            (iv_outbox db) ;;
    Ret (tt, with_iv_outbox s db)).

(** The dictionary [get_outbox_effect] returns: status, request and result. *)
Definition get_outbox_effect (effect_id : string) (db : invocation_db) :
    option (outbox_status * pyval * option pyval) :=
  match List.find (fun r => String.eqb (ob_effect_id r) effect_id) (iv_outbox db) with
  | Some r => Some (ob_status r, jsonb_out (ob_request r), jsonb_out <$> ob_result r)
  | None => None
  end.

(** One transaction: when the staging raises, the claim is rolled back. *)
Definition claim_and_stage_outbox (others : invocation_db -> invocation_db) (now : datetime)
    (invocation_id execution_id tenant_id capability_id fingerprint effect_id key : string)
    (request : dict) : M invocation_db bool := fun db =>
  match claim_idempotency others invocation_id execution_id tenant_id capability_id fingerprint db with
  | (Ret true, db1) =>
      match stage_side_effect now effect_id tenant_id execution_id invocation_id capability_id key
              request db1 with
      | (Ret _, db2) => (Ret true, db2)
      | (Raise x, _) => (Raise x, db)
      end
  | out => out
  end.
End store.

Section facts.
Context {JB : Jsonb} {JL : JsonbLaws} {PI : PgInputs}.
Implicit Types (db : invocation_db).

(** ** How the tables evolve *)

Definition state_step (s s' : ExecutionState) : Prop := s' ∈ TRANSITIONS s.

Definition states_ok (m : gmap string state_row) : Prop :=
  forall id r, m !! id = Some r -> exists s, stored_state r = Ret s.

(** A stored state stays and moves along the transitions only. *)
Definition states_evolve (m m' : gmap string state_row) : Prop :=
  forall id r s, m !! id = Some r -> stored_state r = Ret s ->
    exists r' s', m' !! id = Some r' /\ stored_state r' = Ret s' /\ rtc state_step s s'.

(** A completed claim never changes. *)
Definition claims_evolve (m m' : gmap string invocation_claim) : Prop :=
  forall id c, m !! id = Some c -> ic_status c = CL_COMPLETED -> m' !! id = Some c.

Definition store_ok db : Prop := states_ok (iv_states db) /\ outbox_ok (iv_outbox db).

Record store_evolves db db' : Prop := mkStoreEvolves {
  se_states : states_evolve (iv_states db) (iv_states db');
  se_claims : claims_evolve (iv_claims db) (iv_claims db');
  se_evidence : exists l, iv_evidence db' = iv_evidence db ++ l;
  se_outbox : outbox_evolves (iv_outbox db) (iv_outbox db') }.

#[export] Instance store_evolves_preorder : PreOrder store_evolves.
Proof.
  split.
  - intros db. split; [|by intros id c|by exists []; rewrite app_nil_r|done].
    intros id r s Hr Hs. by exists r, s.
  - intros d1 d2 d3 [S1 C1 [l1 E1] O1] [S2 C2 [l2 E2] O2]. split.
    + intros id r s Hr Hs. destruct (S1 id r s Hr Hs) as (r2 & s2 & H2 & H2' & Hp).
      destruct (S2 id r2 s2 H2 H2') as (r3 & s3 & H3 & H3' & Hp').
      exists r3, s3. split; [done|]. split; [done|]. by transitivity s2.
    + intros id c Hc Hd. by apply C2; [apply C1|].
    + exists (l1 ++ l2). by rewrite E2, E1, app_assoc.
    + by transitivity (iv_outbox d2).
Qed.

(** A move of the store: from a good state to a good, evolved one. *)
Definition store_moves db db' : Prop := store_ok db -> store_ok db' /\ store_evolves db db'.

Lemma store_moves_refl db : store_moves db db.
Proof. done. Qed.

Lemma store_moves_trans d1 d2 d3 : store_moves d1 d2 -> store_moves d2 d3 -> store_moves d1 d3.
Proof.
  intros H1 H2 Hok. destruct (H1 Hok) as [Hok2 E1]. destruct (H2 Hok2) as [Hok3 E2].
  split; [done|]. by transitivity d2.
Qed.

Lemma stored_value s t : stored_state (mkStateRow (enum_value s) t) = Ret s.
Proof. unfold stored_state. cbn [st_state]. by rewrite enum_lookup_value. Qed.

(** Writing one state. *)
Lemma write_state_moves db id s now :
  (forall r s0, iv_states db !! id = Some r -> stored_state r = Ret s0 -> state_step s0 s) ->
  store_moves db (with_iv_states (<[id := mkStateRow (enum_value s) now]> (iv_states db)) db).
Proof.
  intros Hs [Hok Hob]. split; [split; [|done]|split; [|by intros i c|by exists []; rewrite app_nil_r|done]].
  - intros i r. cbn [with_iv_states iv_states]. destruct (decide (i = id)) as [->|Hne].
    + rewrite lookup_insert_eq. intros [= <-]. exists s. apply stored_value.
    + rewrite lookup_insert_ne by done. apply Hok.
  - intros i r s0 Hr Hs0. cbn [with_iv_states iv_states]. destruct (decide (i = id)) as [->|Hne].
    + exists (mkStateRow (enum_value s) now), s. rewrite lookup_insert_eq, stored_value.
      split; [done|]. split; [done|]. by apply rtc_once, (Hs r).
    + exists r, s0. by rewrite lookup_insert_ne.
Qed.

Lemma transition_ret c t x : transition c t = Ret x -> x = t /\ state_step c t.
Proof.
  unfold transition, state_step. destruct (bool_decide_reflect (t ∈ TRANSITIONS c)); [|done].
  by intros [= <-].
Qed.

Lemma set_state_moves others now id s db :
  (forall d, store_moves d (others d)) -> store_moves db (snd (set_state others now id s db)).
Proof.
  intros Ho. unfold set_state, unique_violation. destruct (iv_states db !! id) as [r|] eqn:Hr.
  - destruct (stored_state r) as [c|x] eqn:Hc; cbn [out_bind]; [|done].
    destruct (transition c s) as [x|x] eqn:Ht; [|done]. apply transition_ret in Ht as [-> Ht].
    apply write_state_moves. intros r' s0 Hr' Hs0.
    assert (r' = r) as -> by congruence. by assert (s0 = c) as -> by congruence.
  - cbn zeta. destruct (iv_states (others db) !! id) eqn:Hr'; [apply Ho|].
    eapply store_moves_trans; [apply Ho|]. apply write_state_moves. intros r s0 Hr''. by simplify_eq.
Qed.

(** Writing claims, evidence and the outbox. *)
Lemma write_claims_moves db m :
  claims_evolve (iv_claims db) m -> store_moves db (with_iv_claims m db).
Proof.
  intros Hc Hok. split; [done|]. split; [|done|by exists []; rewrite app_nil_r|done].
  intros id r s Hr Hs. by exists r, s.
Qed.

Lemma write_outbox_moves db s :
  (outbox_ok (iv_outbox db) -> outbox_ok s /\ outbox_evolves (iv_outbox db) s) ->
  store_moves db (with_iv_outbox s db).
Proof.
  intros H [Hok Hob]. destruct (H Hob) as [Hs He]. split; [done|].
  split; [|by intros id c|by exists []; rewrite app_nil_r|done].
  intros id r x Hr Hx. by exists r, x.
Qed.

Lemma append_evidence_moves id cat payload db : store_moves db (snd (append_evidence id cat payload db)).
Proof.
  unfold append_evidence, transaction. destruct (jsonb_param payload) as [u|x]; cbn [out_bind]; [|done].
  intros Hok. split; [done|]. split; [|by intros i c|by eexists|done].
  intros i r s Hr Hs. by exists r, s.
Qed.

(** What a claim does, by cases: granted, told to replay, or refused. *)
Lemma claim_cases others inv eid tenant cap fp db :
  let out := claim_idempotency others inv eid tenant cap fp db in
  (exists u r, pg_uuid eid = Ret u /\ iv_claims db !! inv = None /\
     out = (Ret true, with_iv_claims
       (<[inv := mkInvocationClaim u tenant cap CL_PENDING r (Some fp)]> (iv_claims db)) db)) \/
  (exists c, iv_claims (others db) !! inv = Some c /\ ic_fingerprint c = Some fp /\
     is_Some (iv_claims db !! inv) /\ out = (Ret false, others db)) \/
  (exists x, out = (Raise x, db) \/ (is_Some (iv_claims db !! inv) /\ out = (Raise x, others db))).
Proof.
  cbn zeta. unfold claim_idempotency. destruct (pg_uuid eid) as [u|x]; cbn [out_bind]; [|eauto 6].
  destruct (jsonb_param []) as [r|x]; cbn [out_bind]; [|eauto 6].
  destruct (iv_claims db !! inv) as [c0|] eqn:Hc; [|left; eauto 6].
  cbn zeta. destruct (iv_claims (others db) !! inv) as [c|] eqn:Hc'; [|eauto 8].
  destruct (bool_decide_reflect (ic_fingerprint c = Some fp)); [|eauto 8].
  right. left. eauto 8.
Qed.

Lemma fresh_claim_evolves (m : gmap string invocation_claim) inv c :
  m !! inv = None -> claims_evolve m (<[inv := c]> m).
Proof. intros Hn id c' Hc _. rewrite lookup_insert_ne; [done|]. intros <-. congruence. Qed.

Lemma claim_moves others inv eid tenant cap fp db :
  (forall d, store_moves d (others d)) ->
  store_moves db (snd (claim_idempotency others inv eid tenant cap fp db)).
Proof.
  intros Ho.
  destruct (claim_cases others inv eid tenant cap fp db) as [(u & r & _ & Hn & ->)|[(c & _ & _ & _ & ->)|(x & [->|[_ ->]])]];
    cbn [snd]; [|apply Ho|done|apply Ho].
  by apply write_claims_moves, fresh_claim_evolves.
Qed.

Lemma stage_insert_inv now id tenant eid inv cap key d s s' :
  stage_insert now id tenant eid inv cap key d s = Ret s' ->
  exists t u x, dumps (VDict d) = Ret t /\ jsonb_in t = Ret u /\ pg_uuid eid = Ret x /\
    (id ∉ ob_effect_id <$> s) /\ (inv ∉ ob_invocation_id <$> s) /\ (key ∉ ob_idempotency_key <$> s) /\
    s' = s ++ [mkOutboxRow id tenant x inv cap key u now OB_PENDING 0 None None None None now].
Proof.
  unfold stage_insert, jsonb_param. destruct (dumps _) as [t|] eqn:Et; cbn [out_bind]; [|done].
  destruct (jsonb_in t) as [u|] eqn:Eu; cbn [out_bind]; [|done].
  destruct (pg_uuid eid) as [x|] eqn:Ex; cbn [out_bind]; [|done].
  destruct (existsb (fun r => String.eqb (ob_effect_id r) _) s) eqn:E1; [done|].
  destruct (existsb (fun r => String.eqb (ob_invocation_id r) _) s) eqn:E2; [done|].
  destruct (existsb (fun r => String.eqb (ob_idempotency_key r) _) s) eqn:E3; [done|].
  intros [= <-]. exists t, u, x. split_and!; try done; eapply not_existsb_id; try done; intros; apply String.eqb_eq.
Qed.

Lemma stage_moves now id tenant eid inv cap key d db :
  store_moves db (snd (stage_side_effect now id tenant eid inv cap key d db)).
Proof.
  unfold stage_side_effect, transaction.
  destruct (stage_insert _ _ _ _ _ _ _ _ _) as [s|x] eqn:E; cbn [out_bind snd]; [|done].
  apply stage_insert_inv in E as (t & u & x & Ht & Hu & _ & F1 & F2 & F3 & ->).
  apply write_outbox_moves. intros Hs. apply outbox_snoc_ok; try done. by eapply fresh_row_ok.
Qed.

(** Claiming and staging, by cases. *)
Lemma claim_and_stage_cases others now inv eid tenant cap fp id key d db :
  let out := claim_and_stage_outbox others now inv eid tenant cap fp id key d db in
  (exists u r t v, iv_claims db !! inv = None /\ dumps (VDict d) = Ret t /\ jsonb_in t = Ret v /\
     (id ∉ ob_effect_id <$> iv_outbox db) /\ (inv ∉ ob_invocation_id <$> iv_outbox db) /\
     (key ∉ ob_idempotency_key <$> iv_outbox db) /\
     out = (Ret true, with_iv_outbox
              (iv_outbox db ++ [mkOutboxRow id tenant u inv cap key v now OB_PENDING 0 None None None None now])
              (with_iv_claims (<[inv := mkInvocationClaim u tenant cap CL_PENDING r (Some fp)]> (iv_claims db)) db))) \/
  (exists c, iv_claims (others db) !! inv = Some c /\ ic_fingerprint c = Some fp /\
     is_Some (iv_claims db !! inv) /\ out = (Ret false, others db)) \/
  (exists x, out = (Raise x, db) \/ (is_Some (iv_claims db !! inv) /\ out = (Raise x, others db))).
Proof.
  cbn zeta. unfold claim_and_stage_outbox.
  destruct (claim_cases others inv eid tenant cap fp db)
    as [(u & r & Hu & Hn & ->)|[(c & Hc & Hf & Hs & ->)|(x & [->|[Hs ->]])]]; [|eauto 9..].
  unfold stage_side_effect, transaction. cbn [iv_outbox with_iv_claims].
  destruct (stage_insert _ _ _ _ _ _ _ _ _) as [s|x] eqn:E; cbn [out_bind]; [|eauto].
  apply stage_insert_inv in E as (t & v & x & Ht & Hv & Hx & F1 & F2 & F3 & ->).
  assert (x = u) as -> by congruence. left. exists u, r, t, v. done.
Qed.

Lemma claim_and_stage_moves others now inv eid tenant cap fp id key d db :
  (forall x, store_moves x (others x)) ->
  store_moves db (snd (claim_and_stage_outbox others now inv eid tenant cap fp id key d db)).
Proof.
  intros Ho. destruct (claim_and_stage_cases others now inv eid tenant cap fp id key d db)
    as [(u & r & t & v & Hn & Ht & Hv & F1 & F2 & F3 & ->)|[(c & _ & _ & _ & ->)|(x & [->|[_ ->]])]];
    cbn [snd]; [|apply Ho|done|apply Ho].
  eapply store_moves_trans; [apply write_claims_moves; by apply fresh_claim_evolves|].
  apply write_outbox_moves. intros Hs. apply outbox_snoc_ok; try done. by eapply fresh_row_ok.
Qed.

Lemma complete_idempotency_moves inv result db : store_moves db (snd (complete_idempotency inv result db)).
Proof.
  unfold complete_idempotency, transaction. destruct (jsonb_param result) as [u|x]; cbn [out_bind]; [|done].
  destruct (iv_claims db !! inv) as [c|] eqn:Hc; [|done]. destruct (is_pending c) eqn:Hp; cbn [snd]; [|done].
  apply write_claims_moves. intros id c' Hc' Hd. rewrite lookup_insert_ne; [done|]. intros <-. simplify_eq.
  unfold is_pending in Hp. by rewrite Hd in Hp.
Qed.

Lemma release_idempotency_moves inv db : store_moves db (snd (release_idempotency inv db)).
Proof.
  unfold release_idempotency, modify. cbn [snd].
  destruct (iv_claims db !! inv) as [c|] eqn:Hc; [|done]. destruct (is_pending c) eqn:Hp; [|done].
  apply write_claims_moves. intros id c' Hc' Hd. rewrite lookup_delete_ne; [done|]. intros <-. simplify_eq.
  unfold is_pending in Hp. by rewrite Hd in Hp.
Qed.

(** ** Interleavings

    Any sequence of transactions of the store and of the outbox workers, each of
    which may find what others committed between its statements; the claim named
    by [spare] is not released. *)
Inductive store_run (spare : option string) : invocation_db -> invocation_db -> Prop :=
  | run_refl db : store_run spare db db
  | run_trans d1 d2 d3 : store_run spare d1 d2 -> store_run spare d2 d3 -> store_run spare d1 d3
  | run_set others now id s db :
      (forall d, store_run spare d (others d)) -> store_run spare db (snd (set_state others now id s db))
  | run_evidence id cat payload db : store_run spare db (snd (append_evidence id cat payload db))
  | run_claim others inv eid tenant cap fp db :
      (forall d, store_run spare d (others d)) ->
      store_run spare db (snd (claim_idempotency others inv eid tenant cap fp db))
  | run_complete inv result db : store_run spare db (snd (complete_idempotency inv result db))
  | run_release inv db :
      spare <> Some inv -> store_run spare db (snd (release_idempotency inv db))
  | run_stage now id tenant eid inv cap key d db :
      store_run spare db (snd (stage_side_effect now id tenant eid inv cap key d db))
  | run_claim_and_stage others now inv eid tenant cap fp id key d db :
      (forall x, store_run spare x (others x)) ->
      store_run spare db (snd (claim_and_stage_outbox others now inv eid tenant cap fp id key d db))
  | run_worker now c db : store_run spare db (with_iv_outbox (snd (perform now c (iv_outbox db))) db).

Lemma store_run_moves spare db db' : store_run spare db db' -> store_moves db db'.
Proof.
  induction 1 as [| | | | | | | | |].
  - apply store_moves_refl.
  - by eapply store_moves_trans.
  - by apply set_state_moves.
  - apply append_evidence_moves.
  - by apply claim_moves.
  - apply complete_idempotency_moves.
  - apply release_idempotency_moves.
  - apply stage_moves.
  - by apply claim_and_stage_moves.
  - apply write_outbox_moves. intros Hs. by apply perform_ok.
Qed.

(** A claim that is not released keeps its request. *)
Definition claim_kept (inv : string) (fp : option string) db : Prop :=
  exists c, iv_claims db !! inv = Some c /\ ic_fingerprint c = fp.

Lemma store_run_claim inv fp db db' :
  store_run (Some inv) db db' -> claim_kept inv fp db -> claim_kept inv fp db'.
Proof.
  intros Hrun. remember (Some inv) as spare eqn:Hsp. induction Hrun; subst spare; intros Hk; auto.
  - unfold set_state, unique_violation. destruct (iv_states db !! id).
    + by destruct (_ <-? _ ;; _).
    + cbn zeta. destruct (iv_states (others db) !! id); cbn [snd]; apply (H0 db Hk).
  - unfold append_evidence, transaction. destruct (jsonb_param payload); exact Hk.
  - destruct (claim_cases others inv0 eid tenant cap fp0 db)
      as [(u & r & _ & Hn & ->)|[(c & _ & _ & _ & ->)|(x & [->|[_ ->]])]]; cbn [snd]; [|by apply H0|done|by apply H0].
    destruct Hk as (c & Hc & Hf). exists c. cbn. rewrite lookup_insert_ne; [done|]. congruence.
  - unfold complete_idempotency, transaction. destruct (jsonb_param result); cbn [out_bind]; [|done].
    destruct (iv_claims db !! inv0) as [c0|] eqn:Hc0; [|done]. destruct (is_pending c0); cbn [snd]; [|done].
    destruct Hk as (c & Hc & Hf). unfold claim_kept. cbn.
    destruct (decide (inv0 = inv)) as [->|Hne]; [rewrite lookup_insert_eq|rewrite lookup_insert_ne by done; eauto].
    simplify_eq. eauto.
  - unfold release_idempotency, modify. cbn [snd].
    destruct (iv_claims db !! inv0) as [c0|]; [|done]. destruct (is_pending c0); [|done].
    destruct Hk as (c & Hc & Hf). exists c. cbn. rewrite lookup_delete_ne; [done|]. congruence.
  - unfold stage_side_effect, transaction. destruct (stage_insert _ _ _ _ _ _ _ _ _); exact Hk.
  - destruct (claim_and_stage_cases others now inv0 eid tenant cap fp0 id key d db)
      as [(u & r & t & v & Hn & _ & _ & _ & _ & _ & ->)|[(c & _ & _ & _ & ->)|(x & [->|[_ ->]])]];
      cbn [snd]; [|by apply H0|done|by apply H0].
    destruct Hk as (c & Hc & Hf). exists c. cbn. rewrite lookup_insert_ne; [done|]. congruence.
Qed.

(** A staged row stays, the only one of its invocation. *)
Lemma staged_row_stays spare db db' r :
  store_run spare db db' -> store_ok db -> r ∈ iv_outbox db ->
  exists r', r' ∈ iv_outbox db' /\ row_evolves r r' /\
    forall r2, r2 ∈ iv_outbox db' -> ob_invocation_id r2 = ob_invocation_id r -> r2 = r'.
Proof.
  intros Hrun Hok Hr. destruct (store_run_moves _ _ _ Hrun Hok) as [[_ (_ & N & _)] [_ _ _ (a & b & Ha & Hab)]].
  apply list_elem_of_lookup in Hr as [i Hi]. destruct (Forall2_lookup_l _ _ _ _ _ Hab Hi) as (r' & Hi' & He).
  assert (r' ∈ iv_outbox db') as Hin.
  { rewrite Ha. apply elem_of_app. left. by eapply list_elem_of_lookup_2. }
  exists r'. split; [done|]. split; [done|]. intros r2 Hr2 Heq.
  apply (NoDup_fmap_elem_eq ob_invocation_id (iv_outbox db')); try done.
  rewrite Heq. symmetry. apply He.
Qed.

(** What a granted claim leaves. *)
Lemma claim_and_stage_granted others now inv eid tenant cap fp id key d db db1 :
  claim_and_stage_outbox others now inv eid tenant cap fp id key d db = (Ret true, db1) ->
  claim_kept inv (Some fp) db1 /\
  exists r, r ∈ iv_outbox db1 /\ ob_effect_id r = id /\ ob_invocation_id r = inv /\
    ob_idempotency_key r = key /\ ob_tenant_id r = tenant /\ ob_capability_id r = cap /\
    ob_status r = OB_PENDING /\
    exists t, dumps (VDict d) = Ret t /\ jsonb_in t = Ret (ob_request r).
Proof.
  intros H. destruct (claim_and_stage_cases others now inv eid tenant cap fp id key d db)
    as [(u & r & t & v & Hn & Ht & Hv & _ & _ & _ & E)|[(c & _ & _ & _ & E)|(x & [E|[_ E]])]];
    rewrite H in E; try discriminate E. injection E as ->.
  split; [eexists; cbn; rewrite lookup_insert_eq; done|].
  eexists. cbn [iv_outbox with_iv_outbox]. split; [apply elem_of_app; right; by left|].
  cbn. do 6 (split; [done|]). by exists t.
Qed.

(** A claim is never granted with staging while a row of the invocation is there. *)
Lemma staged_not_granted others now inv eid tenant cap fp id key d db r :
  r ∈ iv_outbox db -> ob_invocation_id r = inv ->
  fst (claim_and_stage_outbox others now inv eid tenant cap fp id key d db) <> Ret true.
Proof.
  intros Hr <-. destruct (claim_and_stage_cases others now (ob_invocation_id r) eid tenant cap fp id key d db)
    as [(u & r' & t & v & _ & _ & _ & _ & F & _ & _)|[(c & _ & _ & _ & ->)|(x & [->|[_ ->]])]]; [|done..].
  exfalso. apply F. by apply list_elem_of_fmap_2.
Qed.

(** ** Theorems *)

(** The store keeps its state machine under any interleaving: whatever
    transactions its users and the outbox workers make, and whatever they find
    others to have committed in between, stored execution states stay readable,
    stay stored and move along the transitions only, so a terminal state never
    changes; completed claims never change; evidence is only appended; and the
    outbox keeps its invariant, its rows and their commands. *)
Theorem invocation_store_state_machine db db' (Hrun : store_run None db db') (Hok : store_ok db) :
  store_ok db' /\ store_evolves db db' /\
  forall id r s, iv_states db !! id = Some r -> stored_state r = Ret s -> TRANSITIONS s = [] ->
    exists r', iv_states db' !! id = Some r' /\ stored_state r' = Ret s.
Proof.
  destruct (store_run_moves _ _ _ Hrun Hok) as [Hok' He]. split; [done|]. split; [done|].
  intros id r s Hr Hs Hend. destruct (se_states _ _ He id r s Hr Hs) as (r' & s' & Hr' & Hs' & Hp).
  exists r'. split; [done|]. destruct Hp as [|s s1 s2 H1 _]; [done|].
  unfold state_step in H1. rewrite Hend in H1. by apply elem_of_nil in H1.
Qed.

(** C24. An invocation is claimed and its effect staged once: after
    [claim_and_stage_outbox] returned [True], and as long as the claim is not
    released, whatever else happens the outbox holds exactly one row for the
    invocation, with the command that was staged, and no later call is granted:
    a call for the same request is told [False] and one for a different request
    raises [ValueError]. *)
Theorem invocation_claimed_and_staged_once (others : invocation_db -> invocation_db) (now : datetime)
    (inv eid tenant cap fp id key : string) (d : dict) db db1 db2
    (Hok : store_ok db) (Hothers : forall x, store_run None x (others x))
    (Hclaim : claim_and_stage_outbox others now inv eid tenant cap fp id key d db = (Ret true, db1))
    (Hrun : store_run (Some inv) db1 db2) :
  (exists r, r ∈ iv_outbox db2 /\ ob_effect_id r = id /\ ob_invocation_id r = inv /\
     ob_idempotency_key r = key /\ (exists t, dumps (VDict d) = Ret t /\ jsonb_in t = Ret (ob_request r)) /\
     forall r', r' ∈ iv_outbox db2 -> ob_invocation_id r' = inv -> r' = r) /\
  forall others' now' eid' tenant' cap' fp' id' key' d', (forall x, store_run (Some inv) x (others' x)) ->
    let out := fst (claim_and_stage_outbox others' now' inv eid' tenant' cap' fp' id' key' d' db2) in
    out <> Ret true /\
    (forall u r, pg_uuid eid' = Ret u -> jsonb_param [] = Ret r ->
       out = if bool_decide (fp' = fp) then Ret false
             else raise ValueError "idempotency key reused with a different request").
Proof.
  assert (store_ok db1) as Hok1.
  { pose proof (claim_and_stage_moves others now inv eid tenant cap fp id key d db
      (fun x => store_run_moves _ _ _ (Hothers x)) Hok) as [H _]. by rewrite Hclaim in H. }
  destruct (claim_and_stage_granted _ _ _ _ _ _ _ _ _ _ _ _ Hclaim)
    as [Hk (r & Hr & Hid & Hinv & Hkey & _ & _ & _ & Hreq)].
  destruct (staged_row_stays _ _ _ r Hrun Hok1 Hr) as (r' & Hr' & He & Huniq).
  destruct He as (E1 & _ & _ & E4 & _ & E6 & E7 & _). split.
  - exists r'. split; [done|]. split; [congruence|]. split; [congruence|]. split; [congruence|].
    split; [by rewrite E7|]. intros r2 Hr2 Hi2. apply Huniq; [done|congruence].
  - intros others' now' eid' tenant' cap' fp' id' key' d' Ho out. split.
    { apply (staged_not_granted _ _ _ _ _ _ _ _ _ _ _ r'); [done|congruence]. }
    intros u x Hu Hx. unfold out, claim_and_stage_outbox, claim_idempotency.
    rewrite Hu. cbn [out_bind]. rewrite Hx. cbn [out_bind].
    pose proof (store_run_claim _ _ _ _ Hrun Hk) as (c & Hc & Hf). rewrite Hc. cbn zeta.
    destruct (store_run_claim _ _ _ _ (Ho db2) (ex_intro _ c (conj Hc Hf))) as (c' & -> & Hf').
    rewrite Hf'. destruct (bool_decide_reflect (fp' = fp)) as [->|Hne];
      [by rewrite bool_decide_eq_true_2|]. by rewrite bool_decide_eq_false_2 by congruence.
Qed.

(** A staged effect reaches a worker: after [claim_and_stage_outbox] returned
    [True], a worker of the outbox that claims often enough receives every free
    effect, the staged one among them and exactly once. *)
Theorem staged_effect_is_delivered (others : invocation_db -> invocation_db) (now now' : datetime)
    (inv eid tenant cap fp id key : string) (d : dict) (n : nat) db db1
    (Hok : store_ok db) (Hothers : forall x, store_run None x (others x))
    (Hclaim : claim_and_stage_outbox others now inv eid tenant cap fp id key d db = (Ret true, db1))
    (Hn : (length (iv_outbox db1) <= n)%nat) :
  exists l s, claims n now' (iv_outbox db1) = (Ret l, s) /\
    id ∈ (sc_effect_id <$> l) /\ NoDup (sc_effect_id <$> l).
Proof.
  assert (store_ok db1) as [_ Hob].
  { pose proof (claim_and_stage_moves others now inv eid tenant cap fp id key d db
      (fun x => store_run_moves _ _ _ (Hothers x)) Hok) as [H _]. by rewrite Hclaim in H. }
  destruct (claim_and_stage_granted _ _ _ _ _ _ _ _ _ _ _ _ Hclaim)
    as [_ (r & Hr & Hid & _ & _ & _ & _ & Hst & _)].
  destruct (claims_drain n now' (iv_outbox db1) Hob) as (l & s & Hl & Hp & _).
  { etransitivity; [apply List.filter_length_le|done]. }
  exists l, s. split; [done|]. rewrite Hp. split.
  - rewrite <- Hid. apply list_elem_of_fmap_2, list_elem_of_In, filter_In. split; [by apply list_elem_of_In|].
    unfold claimable. by rewrite Hst.
  - apply NoDup_fmap_bfilter. apply Hob.
Qed.

(** Releasing a claim does not release its staged effect: after
    [release_idempotency] the claim is gone, so the invocation can be claimed
    again, but [claim_and_stage_outbox] is never granted for it again, whatever
    else happens, because the row of the first staging stays in the outbox, where
    it is still delivered. *)
Theorem released_invocation_stays_staged (others : invocation_db -> invocation_db) (now : datetime)
    (inv eid tenant cap fp id key : string) (d : dict) db db1 db2 db3
    (Hok : store_ok db) (Hothers : forall x, store_run None x (others x))
    (Hclaim : claim_and_stage_outbox others now inv eid tenant cap fp id key d db = (Ret true, db1))
    (Hrel : release_idempotency inv db1 = (Ret tt, db2)) (Hrun : store_run None db2 db3) :
  iv_claims db2 !! inv = None /\ id ∈ (ob_effect_id <$> iv_outbox db3) /\
  forall others' now' eid' tenant' cap' fp' id' key' d',
    fst (claim_and_stage_outbox others' now' inv eid' tenant' cap' fp' id' key' d' db3) <> Ret true.
Proof.
  assert (store_ok db1) as Hok1.
  { pose proof (claim_and_stage_moves others now inv eid tenant cap fp id key d db
      (fun x => store_run_moves _ _ _ (Hothers x)) Hok) as [H _]. by rewrite Hclaim in H. }
  destruct (claim_and_stage_granted _ _ _ _ _ _ _ _ _ _ _ _ Hclaim)
    as [_ (r & Hr & Hid & Hinv & _)].
  assert (store_run None db1 db3) as Hrun'.
  { eapply run_trans; [|exact Hrun]. replace db2 with (snd (release_idempotency inv db1)) by by rewrite Hrel.
    by apply run_release. }
  destruct (staged_row_stays _ _ _ r Hrun' Hok1 Hr) as (r' & Hr' & He & _). split; [|split].
  - destruct (claim_and_stage_cases others now inv eid tenant cap fp id key d db)
      as [(u & r0 & t & v & _ & _ & _ & _ & _ & _ & E)|[(c & _ & _ & _ & E)|(x & [E|[_ E]])]];
      rewrite Hclaim in E; try discriminate E. injection E as ->.
    unfold release_idempotency, modify in Hrel. injection Hrel as <-. cbn [iv_claims with_iv_outbox with_iv_claims].
    rewrite lookup_insert_eq.
    match goal with |- context [if ?b then _ else _] => change b with true end.
    apply lookup_delete_eq.
  - rewrite <- Hid, <- (proj1 He). by apply list_elem_of_fmap_2.
  - intros. apply (staged_not_granted _ _ _ _ _ _ _ _ _ _ _ r'); [done|].
    rewrite <- Hinv. by destruct He as (_ & _ & _ & ? & _).
Qed.
End facts.

(** The recovery plane moves only where the state machine lets it: a decision
    is applied exactly when it retries an execution that is being validated, or
    escalates one that is being validated or waits for its retry; in every other
    state, the executing one among them, applying it raises [ValueError]. *)
Theorem recovery_plane_spec (current s : ExecutionState) (failure : string) (attempt max_attempts : Z) :
  let out := plane_apply current (plane_decide failure attempt max_attempts) in
  (out = Ret s <->
     (attempt < max_attempts /\ current = X_VALIDATING /\ s = X_RETRY_PENDING)%Z \/
     (max_attempts <= attempt /\ (current = X_VALIDATING \/ current = X_RETRY_PENDING) /\
      s = X_ESCALATION_REQUIRED)%Z) /\
  (forall x, out = Raise x -> exn_cls x = ValueError).
Proof.
  unfold plane_decide. destruct (Z.ltb_spec attempt max_attempts) as [H|H]; cbn [plane_apply pd_next_state];
    destruct current; unfold plane_apply, transition; cbn [pd_next_state];
    match goal with |- context [bool_decide ?P] =>
      let b := eval vm_compute in (bool_decide P) in change (bool_decide P) with b end; cbn [negb];
    (split; [split; [intros [= <-]|]|by intros x [= <-]]); try (intros [(? & ? & ?)|(? & [?|?] & ?)]; (done || lia || by subst)).
  all: first [left; by repeat split | right; repeat split; [done|auto]].
Qed.

(** ** Witnesses *)

#[local] Existing Instance text_jsonb.
#[local] Existing Instance text_jsonb_laws.
#[local] Instance seven_inputs : PgInputs := {| pg_uuid := fun _ => Ret 7%N; pg_text := fun _ => Ret None |}.

Definition empty_store : invocation_db := mkInvocationDb ∅ [] ∅ [].

Lemma empty_store_ok : store_ok empty_store.
Proof. split; [by intros id r|]. unfold outbox_ok. split_and!; constructor. Qed.

Abbreviation alone := (fun db : invocation_db => db).

Lemma alone_run spare (x : invocation_db) : store_run spare x (alone x).
Proof. apply run_refl. Qed.

Lemma invocation_store_state_machine_witness :
  exists db db', set_state alone 5%Z "e" X_VERIFIED empty_store = (Ret tt, db) /\
    db' = snd (set_state alone 6%Z "e" X_EXECUTING db) /\
    exists r', iv_states db' !! "e" = Some r' /\ stored_state r' = Ret X_VERIFIED.
Proof.
  destruct (set_state alone 5%Z "e" X_VERIFIED empty_store) as [o db] eqn:E.
  injection E as <- <-. eexists _, _. split; [reflexivity|]. split; [reflexivity|].
  destruct (invocation_store_state_machine _ _
    (run_set None alone 6%Z "e" X_EXECUTING _ (alone_run None))
    (proj1 (store_run_moves _ _ _ (run_set None alone 5%Z "e" X_VERIFIED empty_store (alone_run None)) empty_store_ok))) as (_ & _ & H).
  apply (H "e" (mkStateRow "verified" 5%Z) X_VERIFIED); reflexivity.
Defined.

Abbreviation staged := (claim_and_stage_outbox alone 1%Z "inv" "e" "t" "mail" "fp" "eff" "key" [("to", VStr "x")] empty_store).

Lemma invocation_claimed_and_staged_once_witness :
  exists db1, staged = (Ret true, db1) /\
    let again fp := fst (claim_and_stage_outbox alone 2%Z "inv" "e" "t" "mail" fp "eff2" "key2" [] db1) in
    again "fp" = Ret false /\ again "other" <> Ret true.
Proof.
  destruct staged as [o db1] eqn:E. assert (o = Ret true) as -> by (injection E as <- _; reflexivity).
  exists db1. split; [reflexivity|].
  destruct (invocation_claimed_and_staged_once alone 1%Z "inv" "e" "t" "mail" "fp" "eff" "key" [("to", VStr "x")]
    empty_store db1 db1 empty_store_ok (alone_run None) E (run_refl _ db1)) as [_ H].
  split.
  - destruct (H alone 2%Z "e" "t" "mail" "fp" "eff2" "key2" [] (alone_run _)) as [_ H'].
    rewrite (H' 7%N (JsonText (VDict [])) eq_refl eq_refl). reflexivity.
  - apply (H alone 2%Z "e" "t" "mail" "other" "eff2" "key2" [] (alone_run _)).
Defined.

Lemma staged_effect_is_delivered_witness :
  exists db1 l s, staged = (Ret true, db1) /\ claims 1 9%Z (iv_outbox db1) = (Ret l, s) /\
    "eff" ∈ (sc_effect_id <$> l).
Proof.
  destruct staged as [o db1] eqn:E. assert (o = Ret true) as -> by (injection E as <- _; reflexivity).
  assert (length (iv_outbox db1) <= 1)%nat as Hn by (injection E as <-; vm_compute; lia).
  destruct (staged_effect_is_delivered alone 1%Z 9%Z "inv" "e" "t" "mail" "fp" "eff" "key" [("to", VStr "x")] 1
    empty_store db1 empty_store_ok (alone_run None) E Hn) as (l & s & Hl & Hin & _).
  exists db1, l, s. split; [reflexivity|]. split; [exact Hl|exact Hin].
Defined.

Lemma released_invocation_stays_staged_witness :
  exists db1 db2, staged = (Ret true, db1) /\ release_idempotency "inv" db1 = (Ret tt, db2) /\
    iv_claims db2 !! "inv" = None /\
    fst (claim_and_stage_outbox alone 2%Z "inv" "e" "t" "mail" "fp" "eff2" "key2" [] db2) <> Ret true.
Proof.
  destruct staged as [o db1] eqn:E. assert (o = Ret true) as -> by (injection E as <- _; reflexivity).
  destruct (release_idempotency "inv" db1) as [o db2] eqn:R.
  assert (o = Ret tt) as -> by (injection R as <- _; reflexivity).
  destruct (released_invocation_stays_staged alone 1%Z "inv" "e" "t" "mail" "fp" "eff" "key" [("to", VStr "x")]
    empty_store db1 db2 db2 empty_store_ok (alone_run None) E R (run_refl _ db2)) as (H1 & _ & H2).
  exists db1, db2. split; [reflexivity|]. split; [exact R|]. split; [exact H1|]. apply H2.
Defined.
