(* ===== verification/LlmGateway.v ===== *)
(** * Language-model gateway: [ois/runtime/llm_gateway.py] and the model fabric
      of [ois/runtime/fabrics.py]

    Routes to models are kept sorted; a request is sent to the cheapest route
    with the capabilities and constraints it asks for, then to the other
    compatible ones, each attempt leaving an inference record.  The in-memory
    fabric keeps a router, mirrors it into the gateway and copies the records
    into its telemetry.

    Providers are code of their own: computations on a state [W].  The objects
    of the fabric, the clocks and that state make up a [machine]. *)

From stdpp Require Import base gmap strings list pretty.
From Stdlib Require Import ZArith Lia Floats.SpecFloat.
From S2P Require Import Prelude Uuid Registry SourceLimits Deployment ModelGateway.
Local Open Scope py_scope.

(** ** Floats and keys *)

(** [sum] of floats since Python 3.12: the rounding errors are summed apart. *)
Fixpoint sum_from (total lost : spec_float) (l : list spec_float) : spec_float :=
  match l with
  | [] => match lost with S754_finite _ _ _ => fadd total lost | _ => total end
  | x :: l =>
      let t := fadd total x in
      let err := if SFleb (SFabs x) (SFabs total) then fadd (fsub total t) x
                 else fadd (fsub x t) total in
      sum_from t (fadd lost err) l
  end.

Definition py_sum (l : list spec_float) : spec_float :=
  match l with [] => zero_float | x :: l => sum_from (fadd zero_float x) zero_float l end.

(** [min(l, key=...)] of a list that starts with [best]: the first of the least. *)
Fixpoint min_by {A} (lt : A -> A -> bool) (best : A) (l : list A) : A :=
  match l with
  | [] => best
  | x :: l => min_by lt (if lt x best then x else best) l
  end.

(** [type(v).__name__] *)
Definition type_name (v : pyval) : string :=
  match v with
  | VNone => "NoneType" | VBool _ => "bool" | VInt _ => "int" | VFloat _ => "float"
  | VStr _ => "str" | VList _ => "list" | VTuple _ => "tuple" | VDict _ => "dict" | VObj n => n
  end.

(** [v.items()] *)
Definition items_of (v : pyval) : outcome dict :=
  match v with
  | VDict d => Ret d
  | v => raise AttributeError ("'" +:+ type_name v +:+ "' object has no attribute 'items'")
  end.

(** [str] of a list of strings. *)
Definition list_repr (l : list string) : string := "[" +:+ join ", " (str_repr <$> l) +:+ "]".

(** ** Routes *)

Record ModelRoute := mkRoute {
  lr_ref_id : string;
  lr_version : string;
  lr_provider : string;
  lr_model : string;
  lr_capabilities : list string;
  lr_cost_profile : list (string * spec_float);
  lr_constraints : dict }.

#[export] Instance ModelRoute_eq_dec : EqDecision ModelRoute.
Proof. solve_decision. Defined.

(** The sort key [(provider, model, version)]. *)
Definition route_le (a b : ModelRoute) : bool :=
  bool_decide ((lr_provider a <> lr_provider b /\ str_le (lr_provider a) (lr_provider b)) \/
               (lr_provider a = lr_provider b /\
                key_le (lr_model a, lr_version a) (lr_model b, lr_version b))).

(** [routes.append(route)], then the stable sort. *)
Definition add_route (r : ModelRoute) (l : list ModelRoute) : list ModelRoute :=
  order_by route_le (l ++ [r]).

Definition route_cost (r : ModelRoute) : spec_float := py_sum (dvalues (lr_cost_profile r)).

(** [<] on the keys [(cost, provider, model)]: the first items that differ. *)
Definition cheaper (a b : ModelRoute) : bool :=
  if SFeqb (route_cost a) (route_cost b)
  then negb (bool_decide (key_le (lr_provider b, lr_model b) (lr_provider a, lr_model a)))
  else SFltb (route_cost a) (route_cost b).

(** [==] on the profiles of two routes. *)
Definition profile_eq (d d' : list (string * spec_float)) : bool :=
  (length d =? length d')%nat &&
  forallb (fun kv => match dget (fst kv) d' with Some x => SFeqb (snd kv) x | None => false end) d.

(** [==] on the frozen dataclass compares the fields; a route is equal to
    itself even when it holds a not-a-number. *)
Definition route_eq (a b : ModelRoute) : bool :=
  bool_decide (a = b) ||
  (String.eqb (lr_ref_id a) (lr_ref_id b) && String.eqb (lr_version a) (lr_version b) &&
   String.eqb (lr_provider a) (lr_provider b) && String.eqb (lr_model a) (lr_model b) &&
   bool_decide (lr_capabilities a = lr_capabilities b) &&
   profile_eq (lr_cost_profile a) (lr_cost_profile b) &&
   py_eq (VDict (lr_constraints a)) (VDict (lr_constraints b))).

Definition has_capabilities (caps : gset string) (r : ModelRoute) : bool :=
  bool_decide (caps ⊆ list_to_set (lr_capabilities r)).

Definition meets (constraints : dict) (r : ModelRoute) : bool :=
  forallb (fun kv => py_eq (dget_or (fst kv) VNone (lr_constraints r)) (snd kv)) constraints.

(** The routes with the capabilities that meet the constraints; [.items()] is
    called for each route that has the capabilities. *)
Fixpoint compatible (caps : gset string) (constraints : pyval) (l : list ModelRoute) :
    outcome (list ModelRoute) :=
  match l with
  | [] => Ret []
  | r :: l =>
      keep <-? (if has_capabilities caps r then d <-? items_of constraints ;; Ret (meets d r)
                else Ret false) ;;
      rest <-? compatible caps constraints l ;;
      Ret (if keep : bool then r :: rest else rest)
  end.

(** [LLMGateway.route] and [InMemoryModelRouter.select] have the same body. *)
Definition select_route (caps : gset string) (constraints : pyval) (routes : list ModelRoute) :
    outcome ModelRoute :=
  l <-? compatible caps (if truthy constraints then constraints else VDict []) routes ;;
  match l with
  | [] => raise LookupError ("no model route satisfies capabilities=" +:+
                             list_repr (sorted_strings (elements caps)))
  | r :: l => Ret (min_by cheaper r l)
  end.

(** ** Model output and inference records *)

(** [ModelOutput.__post_init__] accepts no blank content. *)
Record ModelOutput := mkModelOutput { mo_content : string; mo_not_blank : blank mo_content = false }.

Definition ModelOutputError : exn_class := OtherException "ModelOutputError".

Definition new_model_output (content : string) : outcome ModelOutput :=
  (if blank content as b return blank content = b -> outcome ModelOutput
   then fun _ => raise ModelOutputError "model output content must be a non-empty string"
   else fun H => Ret (mkModelOutput content H)) eq_refl.

Record InferenceRecord := mkInference {
  in_request_id : string;
  in_provider : string;
  in_model : string;
  in_status : string;
  in_started_at : string;
  in_latency_ms : spec_float;
  in_input_tokens : option Z;
  in_output_tokens : option Z;
  in_cost : option spec_float;
  in_error_type : option string }.

(** The attributes of [ModelProvidersExhausted]. *)
Record Exhausted := mkExhausted { mx_attempts : nat; mx_last_error_type : option string }.

Definition exhausted_exn (x : Exhausted) : exn :=
  Exn (OtherException "ModelProvidersExhausted")
    ("model provider attempts exhausted after " +:+ pretty (mx_attempts x) +:+ " attempt(s)").

Section gateway.
Context {IF : IsoFormat} {PS : PyStr} {W : Type}.

(** What [provider.invoke] or a callback returns. *)
Inductive reply :=
  | R_output (o : ModelOutput)
  | R_other (v : pyval).

Definition provider : Type := string -> dict -> M W reply.

(** [lg_fallback_policy] is the only field of [LLMGatewaySpec] the code reads. *)
Record LLMGateway := mkLlm {
  lg_fallback_policy : string;
  lg_routes : list ModelRoute;
  lg_providers : gmap string provider;
  lg_records : list InferenceRecord;
  lg_max_attempts : Z }.

(** [LLMGateway.__post_init__] *)
Definition new_llm (policy : string) (max_attempts : pyval) : outcome LLMGateway :=
  match max_attempts with
  | VInt n => if (n <? 1)%Z then raise ValueError "max_attempts must be >= 1"
              else Ret (mkLlm policy [] ∅ [] n)
  | _ => raise ValueError "max_attempts must be >= 1"
  end.

Record machine (G : Type) := mkMachine {
  m_obj : G; m_env : Env; m_clock : float_stream; m_world : W }.

Definition set_obj {G H} (g : H) (s : machine G) : machine H :=
  mkMachine H g (m_env _ s) (m_clock _ s) (m_world _ s).

Definition on_obj {G A} (f : G -> outcome A * G) : M (machine G) A := fun s =>
  let '(o, g) := f (m_obj _ s) in (o, set_obj g s).

(** [_now()], the [monotonic()] clock, [uuid4()], and calls into providers. *)
Definition now_iso {G} : M (machine G) string := fun s =>
  let '(t, e) := utc_now (m_env _ s) in
  (Ret (isoformat t), mkMachine G (m_obj _ s) e (m_clock _ s) (m_world _ s)).

Definition tick {G} : M (machine G) spec_float := fun s =>
  let '(t, c) := next_float (m_clock _ s) in
  (Ret t, mkMachine G (m_obj _ s) (m_env _ s) c (m_world _ s)).

Definition fresh_hex {G} : M (machine G) string := fun s =>
  let '(u, e) := uuid4 (m_env _ s) in
  (Ret (hex_digits 32 u), mkMachine G (m_obj _ s) e (m_clock _ s) (m_world _ s)).

Definition outside {G A} (m : M W A) : M (machine G) A := fun s =>
  let '(o, w) := m (m_world _ s) in (o, mkMachine G (m_obj _ s) (m_env _ s) (m_clock _ s) w).

(** ** [LLMGateway] *)

Definition with_lg_routes l g := mkLlm (lg_fallback_policy g) l (lg_providers g) (lg_records g) (lg_max_attempts g).
Definition with_lg_providers p g := mkLlm (lg_fallback_policy g) (lg_routes g) p (lg_records g) (lg_max_attempts g).
Definition with_lg_records l g := mkLlm (lg_fallback_policy g) (lg_routes g) (lg_providers g) l (lg_max_attempts g).

Definition register_route (r : ModelRoute) (g : LLMGateway) : LLMGateway :=
  with_lg_routes (add_route r (lg_routes g)) g.

Definition register_provider (provider_id : string) (p : provider) (g : LLMGateway) : LLMGateway :=
  with_lg_providers (<[provider_id := p]> (lg_providers g)) g.

(** The routes [invoke] may try: the selected one, and the others that are
    compatible when the fallback policy says so. *)
Definition candidate_routes (caps : gset string) (options : dict) (g : LLMGateway) :
    outcome (list ModelRoute) :=
  selected <-? select_route caps (dget_or "constraints" VNone options) (lg_routes g) ;;
  if String.eqb (lg_fallback_policy g) "next_compatible" then
    rest <-? compatible caps (dget_or "constraints" (VDict []) options)
               (filter (fun r => route_eq r selected = false) (lg_routes g)) ;;
    Ret (selected :: rest)
  else Ret [selected].

(** [{"prompt": prompt, **options}] *)
Definition provider_request (prompt : string) (options : dict) : dict :=
  foldl (fun d kv => dset (fst kv) (snd kv) d) [("prompt", VStr prompt)] options.

Definition inference request_id (r : ModelRoute) status started_at latency error_type : InferenceRecord :=
  mkInference request_id (lr_provider r) (lr_model r) status started_at latency None None None error_type.

Definition add_record (x : InferenceRecord) : M (machine LLMGateway) unit :=
  on_obj (fun g => (Ret tt, with_lg_records (lg_records g ++ [x]) g)).

(** [(monotonic() - started) * 1000] *)
Definition latency_since (started : spec_float) : M (machine LLMGateway) spec_float :=
  now <- tick ;; ret (fmul (fsub now started) (exact_float 1000 0)).

(** The call of a provider, with the check of what it returns. *)
Definition checked_call (p : provider) (r : ModelRoute) (request : dict) : M W ModelOutput :=
  x <- p (lr_model r) request ;;
  match x with
  | R_output o => ret o
  | R_other _ => lift (raise ModelOutputError "provider returned an invalid model output type")
  end.

(** One turn of the loop of [invoke]: an output, or the exception it records. *)
Definition attempt (request_id : string) (request : dict) (r : ModelRoute) :
    M (machine LLMGateway) (ModelOutput + exn) :=
  s <- get ;;
  match lg_providers (m_obj _ s) !! lr_provider r with
  | None =>
      let error := Exn LookupError ("provider not registered: " +:+ lr_provider r) in
      started_at <- now_iso ;;
      add_record (inference request_id r "failed" started_at zero_float
                    (Some (class_name (exn_cls error)))) ;;;
      ret (inr error)
  | Some p =>
      started_at <- now_iso ;;
      started <- tick ;;
      result <- try_except (o <- outside (checked_call p r request) ;; ret (inl o)) any_exception
                  (fun e => ret (inr e)) ;;
      latency <- latency_since started ;;
      match result with
      | inl o =>
          add_record (inference request_id r "succeeded" started_at latency None) ;;; ret (inl o)
      | inr e =>
          add_record (inference request_id r "failed" started_at latency
                        (Some (class_name (exn_cls e)))) ;;; ret (inr e)
      end
  end.

Fixpoint try_routes (request_id : string) (request : dict) (attempts : nat) (last : option string)
    (l : list ModelRoute) : M (machine LLMGateway) (ModelOutput + Exhausted) :=
  match l with
  | [] => ret (inr (mkExhausted attempts last))
  | r :: l =>
      result <- attempt request_id request r ;;
      match result with
      | inl o => ret (inl o)
      | inr e => try_routes request_id request (S attempts) (Some (class_name (exn_cls e))) l
      end
  end.

(** [invoke], with the exception it ends with as a value. *)
Definition llm_run (request_id prompt : string) (caps : gset string) (options : dict) :
    M (machine LLMGateway) (ModelOutput + Exhausted) := fun s =>
  match candidate_routes caps options (m_obj _ s) with
  | Raise e => (Raise e, s)
  | Ret l => try_routes request_id (provider_request prompt options) 0 None
               (take (Z.to_nat (lg_max_attempts (m_obj _ s))) l) s
  end.

Definition llm_invoke (request_id prompt : string) (caps : option (gset string))
    (options : option dict) : M (machine LLMGateway) ModelOutput :=
  out <- llm_run request_id prompt (default ∅ caps) (default [] options) ;;
  match out with
  | inl o => ret o
  | inr x => throw (exhausted_exn x)
  end.

(** ** The model fabric *)

(** [_CallableLLMProvider.invoke] *)
Definition callable_provider (callback : provider) : provider := fun model request =>
  result <- callback model request ;;
  match result with
  | R_output o => ret (R_output o)
  | R_other (VDict [("response", VStr text)]) => o <- lift (new_model_output text) ;; ret (R_output o)
  | R_other _ => lift (raise ModelOutputError "legacy provider must return only a string response")
  end.

(** [InMemoryLLMGateway]; the router it shares with the runtime is beside it. *)
Record InMemoryLLMGateway := mkFacade {
  fg_providers : gmap string provider;
  fg_telemetry : list dict;
  fg_engine : LLMGateway }.

(** [FabricRuntime.model_router] and [.llm_gateway]. *)
Record ModelFabric := mkModelFabric {
  mf_router : list ModelRoute;
  mf_gateway : option InMemoryLLMGateway }.

(** [InMemoryModelRouter.register] and [.select]. *)
Definition router_register (r : ModelRoute) (f : ModelFabric) : ModelFabric :=
  mkModelFabric (add_route r (mf_router f)) (mf_gateway f).

Definition router_select (required : gset string) (constraints : pyval) (f : ModelFabric) :
    outcome ModelRoute := select_route required constraints (mf_router f).

(** [_sync_routes]: [sorted] of the router's routes. *)
Definition sync_routes (router : list ModelRoute) (g : LLMGateway) : LLMGateway :=
  with_lg_routes (order_by route_le router) g.

(** [FabricRuntime.configure_gateway]: the engine makes three attempts. *)
Definition configure_gateway (policy : string) (f : ModelFabric) : ModelFabric :=
  mkModelFabric (mf_router f)
    (Some (mkFacade ∅ [] (sync_routes (mf_router f) (mkLlm policy [] ∅ [] 3)))).

Definition facade_register_provider (provider_id : string) (callback : provider)
    (f : InMemoryLLMGateway) : InMemoryLLMGateway :=
  mkFacade (<[provider_id := callback]> (fg_providers f)) (fg_telemetry f)
    (register_provider provider_id (callable_provider callback) (fg_engine f)).

(** An item of the telemetry. *)
Definition telemetry_item (x : InferenceRecord) : dict :=
  [("request_id", VStr (in_request_id x)); ("provider", VStr (in_provider x));
   ("model", VStr (in_model x)); ("started_at", VStr (in_started_at x));
   ("latency_ms", VFloat (in_latency_ms x)); ("status", VStr (in_status x))] ++
  match in_error_type x with Some e => [("error", VStr e)] | None => [] end.

(** [str(request_options.pop("request_id", "") or uuid4().hex)] *)
Definition request_id_of {G} (options : dict) : M (machine G) string :=
  let given := dget_or "request_id" (VStr "") options in
  if truthy given then ret (to_str given) else fresh_hex.

(** [InMemoryLLMGateway.invoke]: the [finally] block copies the records of this
    call into the telemetry whether the engine returned or raised. *)
Definition facade_invoke (prompt : string) (caps : option (gset string)) (options : option dict) :
    M (machine ModelFabric) dict := fun s0 =>
  match mf_gateway (m_obj _ s0) with
  | None => (raise LookupError "LLM gateway is not configured", s0)
  | Some f =>
      let given := default [] options in
      match request_id_of given s0 with
      | (Raise e, s) => (Raise e, s)
      | (Ret request_id, s) =>
          let router := mf_router (m_obj _ s) in
          let engine := sync_routes router (fg_engine f) in
          let '(result, s) := llm_invoke request_id prompt caps
              (Some (filter (fun kv => fst kv <> "request_id") given)) (set_obj engine s) in
          let engine' := m_obj _ s in
          let fresh := drop (length (lg_records engine)) (lg_records engine') in
          (match result with Ret o => Ret [("response", VStr (mo_content o))] | Raise e => Raise e end,
           set_obj (mkModelFabric router (Some (mkFacade (fg_providers f)
                      (fg_telemetry f ++ (telemetry_item <$> fresh)) engine'))) s)
      end
  end.
End gateway.

Arguments machine : clear implicits.
Arguments LLMGateway : clear implicits.
Arguments InMemoryLLMGateway : clear implicits.
Arguments ModelFabric : clear implicits.
Arguments provider : clear implicits.
