(* ===== verification/LlmTheorems.v ===== *)
(** * Theorems about the language-model gateway

    Which route a request is sent to, whatever the order in which routes were
    registered; what the attempts of [invoke] do and record; when it answers;
    that the telemetry of the fabric is the engine's records; and the option
    that the two halves of [invoke] read differently. *)

From stdpp Require Import base gmap strings list sorting pretty.
From Stdlib Require Import ZArith Lia Sorted Floats.SpecFloat.
From S2P Require Import Prelude Uuid Recovery Registry SourceLimits Deployment Samples ModelGateway LlmGateway.
Local Open Scope py_scope.

(** ** Floats in order *)

Definition is_nan (f : spec_float) : bool := match f with S754_nan => true | _ => false end.

(** The place of a float on the line, as a triple in lexicographic order. *)
Definition rank (f : spec_float) : Z * Z * Z :=
  match f with
  | S754_nan => (3, 0, 0)
  | S754_infinity s => (if s then -2 else 2, 0, 0)
  | S754_zero _ => (0, 0, 0)
  | S754_finite true m e => (-1, - e, Z.neg m)
  | S754_finite false m e => (1, e, Z.pos m)
  end%Z.

Definition rank_lt (a b : Z * Z * Z) : Prop :=
  let '(x, y, z) := a in let '(x', y', z') := b in
  (x < x' \/ (x = x' /\ (y < y' \/ (y = y' /\ z < z'))))%Z.

Lemma rank_lt_trans a b c : rank_lt a b -> rank_lt b c -> rank_lt a c.
Proof. destruct a as [[??]?], b as [[??]?], c as [[??]?]. cbn. lia. Qed.

Lemma rank_lt_total a b : a = b \/ rank_lt a b \/ rank_lt b a.
Proof.
  destruct a as [[x y] z], b as [[x' y'] z']. cbn.
  destruct (Z.lt_trichotomy x x') as [|[->|]], (Z.lt_trichotomy y y') as [|[->|]],
    (Z.lt_trichotomy z z') as [|[->|]]; auto; lia.
Qed.

Lemma rank_lt_irrefl a : ~ rank_lt a a.
Proof. destruct a as [[??]?]. cbn. lia. Qed.

(** Two floats that are not not-a-numbers compare like their ranks. *)
Lemma SFcompare_rank a b : is_nan a = false -> is_nan b = false ->
  (SFltb a b = true <-> rank_lt (rank a) (rank b)) /\ (SFeqb a b = true <-> rank a = rank b).
Proof.
  unfold SFltb, SFeqb, SFcompare.
  destruct a as [|[]| |[] m1 e1], b as [|[]| |[] m2 e2]; try done; intros _ _; cbn [rank rank_lt];
    try change (Pos.compare_cont Eq m1 m2) with (Pos.compare m1 m2);
    try (destruct (Z.compare_spec e1 e2), (Pos.compare_spec m1 m2); subst); cbn;
    split; split; intros Hr; try done; try lia; try (injection Hr; lia); try (f_equal; lia).
Qed.

(** ** The order of routes *)

Definition route_name (r : ModelRoute) : string * (string * string) :=
  (lr_provider r, (lr_model r, lr_version r)).

Lemma route_le_total a b : route_le a b = true \/ route_le b a = true.
Proof.
  unfold route_le. rewrite !bool_decide_eq_true.
  destruct (decide (lr_provider a = lr_provider b)) as [H|H].
  - destruct (key_le_total (lr_model a, lr_version a) (lr_model b, lr_version b)); [left|right]; auto.
  - destruct (total str_le (lr_provider a) (lr_provider b)); [left|right]; left; auto.
Qed.

Lemma route_le_trans a b c : route_le a b = true -> route_le b c = true -> route_le a c = true.
Proof.
  unfold route_le. rewrite !bool_decide_eq_true. intros [[H1 H2]|[H1 H2]] [[H3 H4]|[H3 H4]].
  - left. split; [|by transitivity (lr_provider b)]. intros H. apply H1. apply str_le_antisym; [done|by rewrite H].
  - left. split; congruence.
  - left. split; congruence.
  - right. split; [congruence|]. by eapply key_le_trans.
Qed.

Lemma route_le_antisym a b : route_le a b = true -> route_le b a = true -> route_name a = route_name b.
Proof.
  unfold route_le, route_name. rewrite !bool_decide_eq_true.
  intros [[H1 H2]|[H1 H2]] [[H3 H4]|[H3 H4]]; [|congruence..|].
  - destruct H1. by apply str_le_antisym.
  - rewrite H1. f_equal. by apply key_le_antisym.
Qed.

Abbreviation ordered := (StronglySorted (fun a b => route_le a b = true)).

Lemma register_all_perm rs l : foldl (fun rs r => add_route r rs) rs l ≡ₚ rs ++ l.
Proof.
  revert rs. induction l as [|r l IH]; intros rs; cbn [foldl]; [by rewrite app_nil_r|].
  rewrite IH. unfold add_route. rewrite order_by_perm, <- app_assoc. done.
Qed.

Lemma register_all_ordered rs l : ordered rs -> ordered (foldl (fun rs r => add_route r rs) rs l).
Proof.
  revert rs. induction l as [|r l IH]; intros rs Hrs; [done|]. cbn [foldl]. apply IH.
  apply order_by_ordered; [apply route_le_total|apply route_le_trans].
Qed.

(** Sorted routes with distinct names are determined by their set. *)
Lemma ordered_routes_unique l l' :
  ordered l -> ordered l' -> l ≡ₚ l' -> NoDup (route_name <$> l) -> l = l'.
Proof.
  intros Hl Hl' Hp Hnd. apply (StronglySorted_unique_strong (fun a b => route_le a b = true)); [|done..].
  intros a b Ha Hb Hab Hba. apply (NoDup_fmap_elem_eq route_name l); [done..| |by apply route_le_antisym].
  by rewrite Hp.
Qed.

Lemma register_all_unique l l' :
  l' ≡ₚ l -> NoDup (route_name <$> l) ->
  foldl (fun rs r => add_route r rs) [] l' = foldl (fun rs r => add_route r rs) [] l.
Proof.
  intros Hp Hnd. apply ordered_routes_unique; [apply register_all_ordered; constructor..| |].
  - by rewrite !register_all_perm, Hp.
  - by rewrite register_all_perm, Hp.
Qed.

(** ** The cheapest compatible route *)

Lemma cheaper_false a b :
  is_nan (route_cost a) = false -> is_nan (route_cost b) = false ->
  cheaper b a = false <->
  rank_lt (rank (route_cost a)) (rank (route_cost b)) \/
  (rank (route_cost a) = rank (route_cost b) /\
   key_le (lr_provider a, lr_model a) (lr_provider b, lr_model b)).
Proof.
  intros Ha Hb. unfold cheaper. destruct (SFcompare_rank _ _ Hb Ha) as [Hlt Heq].
  destruct (SFeqb _ _) eqn:E.
  - rewrite negb_false_iff, bool_decide_eq_true. apply proj1 in Heq. specialize (Heq eq_refl). split; [auto|].
    intros [H|[_ H]]; [|done]. rewrite Heq in H. by apply rank_lt_irrefl in H.
  - assert (rank (route_cost b) <> rank (route_cost a)) as Hne.
    { intros H. apply Heq in H. congruence. }
    rewrite <- not_true_iff_false, Hlt.
    destruct (rank_lt_total (rank (route_cost a)) (rank (route_cost b))) as [H|[H|H]]; [congruence| |].
    + split; [by left|]. intros _ H'. by apply (rank_lt_irrefl (rank (route_cost a))), (rank_lt_trans _ _ _ H).
    + split; [intros Hn; by destruct Hn|]. intros [H'|[H' _]]; [|congruence].
      intros _. by apply (rank_lt_irrefl (rank (route_cost a))), (rank_lt_trans _ _ _ H').
Qed.

Lemma cheaper_false_trans a b c :
  is_nan (route_cost a) = false -> is_nan (route_cost b) = false -> is_nan (route_cost c) = false ->
  cheaper b a = false -> cheaper c b = false -> cheaper c a = false.
Proof.
  intros Ha Hb Hc. rewrite !cheaper_false by done. intros [H1|[H1 H2]] [H3|[H3 H4]].
  - left. by eapply rank_lt_trans.
  - left. by rewrite <- H3.
  - left. by rewrite H1.
  - right. split; [congruence|]. by eapply key_le_trans.
Qed.

Lemma cheaper_false_total a b :
  is_nan (route_cost a) = false -> is_nan (route_cost b) = false ->
  cheaper b a = true -> cheaper a b = false.
Proof.
  intros Ha Hb H. apply cheaper_false; [done..|].
  destruct (rank_lt_total (rank (route_cost b)) (rank (route_cost a))) as [E|[E|E]]; [|by left|].
  - right. split; [done|].
    destruct (key_le_total (lr_provider b, lr_model b) (lr_provider a, lr_model a)) as [K|K]; [done|].
    assert (cheaper b a = false); [|congruence]. apply cheaper_false; auto.
  - assert (cheaper b a = false); [|congruence]. apply cheaper_false; auto.
Qed.

Lemma min_by_elem {A} (lt : A -> A -> bool) b l : min_by lt b l ∈ b :: l.
Proof.
  revert b. induction l as [|x l IH]; intros b; cbn [min_by]; [by left|].
  specialize (IH (if lt x b then x else b)). apply elem_of_cons in IH as [->|IH]; [|by do 2 right].
  destruct (lt x b); [right; by left|by left].
Qed.

Lemma min_by_cheapest b l :
  Forall (fun r => is_nan (route_cost r) = false) (b :: l) ->
  forall r, r ∈ b :: l -> cheaper r (min_by cheaper b l) = false.
Proof.
  revert b. induction l as [|x l IH]; intros b Hl r Hr; cbn [min_by].
  { apply list_elem_of_singleton in Hr as ->. unfold cheaper. destruct (SFeqb _ _).
    - apply negb_false_iff, bool_decide_eq_true. by destruct (key_le_total (lr_provider b, lr_model b) (lr_provider b, lr_model b)).
    - apply SFltb_irrefl. }
  apply Forall_cons in Hl as [Hb [Hx Hl]%Forall_cons].
  assert (forall y, y ∈ b :: x :: l -> is_nan (route_cost y) = false) as Hn.
  { apply Forall_forall. by repeat constructor. }
  set (c := if cheaper x b then x else b) in *.
  assert (Forall (fun r => is_nan (route_cost r) = false) (c :: l)) as Hcl.
  { constructor; [|done]. unfold c. by destruct (cheaper x b). }
  specialize (IH c Hcl). pose proof (min_by_elem cheaper c l) as Hm.
  apply (proj1 (Forall_forall _ _) Hcl) in Hm. apply elem_of_cons in Hr as [->|[->|Hr]%elem_of_cons].
  - destruct (cheaper x b) eqn:E; [|apply IH; by left].
    eapply (cheaper_false_trans _ x); [done..|apply IH; by left|by apply cheaper_false_total].
  - destruct (cheaper x b) eqn:E; [apply IH; by left|].
    eapply (cheaper_false_trans _ b); [done..|apply IH; by left|done].
  - apply IH. by right.
Qed.

Lemma compatible_dict caps d l :
  compatible caps (VDict d) l = Ret (filter (fun r => has_capabilities caps r && meets d r = true) l).
Proof.
  induction l as [|r l IH]; [done|]. cbn [compatible items_of out_bind]. rewrite IH, filter_cons.
  destruct (has_capabilities caps r); cbn [andb out_bind]; [|done]. by destruct (meets d r).
Qed.

(** A dictionary of constraints, or none. *)
Lemma constraints_or_none d : (if truthy (VDict d) then VDict d else VDict []) = VDict d.
Proof. cbn [truthy]. by case_bool_decide; subst. Qed.

Definition wanted (caps : gset string) (d : dict) (r : ModelRoute) : Prop :=
  caps ⊆ list_to_set (lr_capabilities r) /\ meets d r = true.

Lemma wanted_spec caps d r : has_capabilities caps r && meets d r = true <-> wanted caps d r.
Proof. unfold has_capabilities, wanted. by rewrite andb_true_iff, bool_decide_eq_true. Qed.

Lemma select_route_spec caps d routes :
  (forall r, r ∈ routes -> is_nan (route_cost r) = false) ->
  match select_route caps (VDict d) routes with
  | Ret r => r ∈ routes /\ wanted caps d r /\ forall r', r' ∈ routes -> wanted caps d r' -> cheaper r' r = false
  | Raise e => exn_cls e = LookupError /\ forall r, r ∈ routes -> ~ wanted caps d r
  end.
Proof.
  intros Hn. unfold select_route. rewrite constraints_or_none, compatible_dict. cbn [out_bind].
  assert (forall r, r ∈ filter (fun r => has_capabilities caps r && meets d r = true) routes <->
            r ∈ routes /\ wanted caps d r) as Hin.
  { intros r. rewrite list_elem_of_filter, wanted_spec. tauto. }
  destruct (filter _ routes) as [|b l].
  - split; [done|]. intros r Hr Hw. by apply (elem_of_nil r), Hin.
  - pose proof (proj1 (Hin _) (min_by_elem cheaper b l)) as [Hm Hw]. split; [done|]. split; [done|].
    intros r' Hr' Hw'. apply min_by_cheapest; [|by apply Hin].
    apply Forall_forall. intros r [Hr _]%Hin. by apply Hn.
Qed.

(** The route a request gets does not depend on the order in which the routes
    were registered, when their names (provider, model and version) differ and
    no cost is a not-a-number: it is a cheapest one, by cost, provider and
    model, of those with the capabilities that meet the constraints, and
    [LookupError] says that there is none. *)
Theorem route_selection_spec {W : Type} (l l' : list ModelRoute) (caps : gset string) (d : dict)
    (Hp : l' ≡ₚ l) (Hd : NoDup (route_name <$> l))
    (Hn : forall r, r ∈ l -> is_nan (route_cost r) = false) :
  let fabric rs : ModelFabric W := foldl (fun f r => router_register r f) (mkModelFabric [] None) rs in
  router_select caps (VDict d) (fabric l') = router_select caps (VDict d) (fabric l) /\
  match router_select caps (VDict d) (fabric l') with
  | Ret r => r ∈ l /\ wanted caps d r /\ forall r', r' ∈ l -> wanted caps d r' -> cheaper r' r = false
  | Raise e => exn_cls e = LookupError /\ forall r, r ∈ l -> ~ wanted caps d r
  end.
Proof.
  intros fabric.
  assert (forall rs, mf_router (fabric rs) = foldl (fun rs r => add_route r rs) [] rs) as Hf.
  { intros rs. subst fabric. cbn beta. change ([] : list ModelRoute) with
      (mf_router (mkModelFabric (W := W) [] None)) at 2.
    generalize (mkModelFabric (W := W) [] None). induction rs as [|r rs IH]; intros f; [done|].
    cbn [foldl]. by rewrite IH. }
  unfold router_select. rewrite !Hf, (register_all_unique l l') by done. split; [done|].
  pose proof (register_all_perm [] l) as Hl. cbn [app] in Hl.
  pose proof (select_route_spec caps d (foldl (fun rs r => add_route r rs) [] l)) as H.
  destruct (select_route _ _ _).
  - destruct H as (H1 & H2 & H3); [intros r Hr; apply Hn; by rewrite <- Hl|].
    rewrite Hl in H1. split; [done|]. split; [done|]. intros r' Hr'. apply H3. by rewrite Hl.
  - destruct H as (H1 & H2); [intros r Hr; apply Hn; by rewrite <- Hl|].
    split; [done|]. intros r' Hr'. apply H2. by rewrite Hl.
Qed.

(** ** The attempts of [invoke] *)

Section attempts.
Context {IF : IsoFormat} {W : Type}.
Implicit Types (g : LLMGateway W) (s : machine W (LLMGateway W)) (r : ModelRoute) (w : W).

(** What trying a route does outside the gateway. *)
Definition call_route g (request : dict) r w : outcome ModelOutput * W :=
  match lg_providers g !! lr_provider r with
  | None => (raise LookupError ("provider not registered: " +:+ lr_provider r), w)
  | Some p => checked_call p r request w
  end.

(** Routes are tried in order until one answers: [t] has each route that was
    tried with the class of its error. *)
Inductive tried (call : ModelRoute -> W -> outcome ModelOutput * W) :
    list ModelRoute -> W -> list (ModelRoute * option string) -> option ModelOutput -> W -> Prop :=
  | tried_none w : tried call [] w [] None w
  | tried_answer r l w o w' : call r w = (Ret o, w') -> tried call (r :: l) w [(r, None)] (Some o) w'
  | tried_error r l w e w1 t res w' :
      call r w = (Raise e, w1) -> tried call l w1 t res w' ->
      tried call (r :: l) w ((r, Some (class_name (exn_cls e))) :: t) res w'.

Lemma tried_length call l w t res w' : tried call l w t res w' ->
  (length t <= length l)%nat /\ (res = None -> length t = length l).
Proof.
  induction 1 as [w|r l w o w' H|r l w e w1 t res w' H1 H2 [IH1 IH2]]; cbn [length].
  - auto.
  - split; [lia|done].
  - split; [lia|]. intros H. by rewrite IH2.
Qed.

(** The record of an attempt. *)
Definition logged (request_id : string) (x : InferenceRecord) (a : ModelRoute * option string) : Prop :=
  in_request_id x = request_id /\ in_provider x = lr_provider a.1 /\ in_model x = lr_model a.1 /\
  in_error_type x = a.2 /\ in_status x = (if a.2 is Some _ then "failed" else "succeeded").

Lemma attempt_spec request_id request r s :
  let '(out, w) := call_route (m_obj _ s) request r (m_world _ s) in
  exists x s', attempt request_id request r s =
      (Ret (match out with Ret o => inl o | Raise e => inr e end), s') /\
    m_obj _ s' = with_lg_records (lg_records (m_obj _ s) ++ [x]) (m_obj _ s) /\ m_world _ s' = w /\
    logged request_id x (r, match out with Ret _ => None | Raise e => Some (class_name (exn_cls e)) end).
Proof.
  unfold call_route, attempt, bind at 1, get. destruct (lg_providers (m_obj _ s) !! lr_provider r) as [p|] eqn:E.
  - destruct s as [g e c w]. cbn [m_obj m_world] in *. destruct (checked_call p r request w) as [[o|x] w'] eqn:Ec;
      unfold bind, now_iso, tick, try_except, outside, add_record, on_obj, latency_since, ret, set_obj, any_exception;
      cbn [utc_now m_obj m_env m_clock m_world next_float fst snd]; rewrite Ec;
      cbn [m_obj m_env m_clock m_world next_float fst snd]; eexists _, _; (split; [done|]); done.
  - destruct s as [g e c w]. cbn [m_obj m_world] in *.
    unfold raise, bind, now_iso, add_record, on_obj, ret, set_obj.
    cbn [utc_now m_obj m_env m_clock m_world fst snd]. eexists _, _. split; [done|]. done.
Qed.

Lemma with_lg_records_twice k k' g : with_lg_records k (with_lg_records k' g) = with_lg_records k g.
Proof. done. Qed.

Lemma try_routes_spec request_id request l : forall n last s,
  exists news t res s',
    tried (call_route (m_obj _ s) request) l (m_world _ s) t res (m_world _ s') /\
    try_routes request_id request n last l s =
      (Ret (match res with
            | Some o => inl o
            | None => inr (mkExhausted (n + length t) (from_option snd last (list.last t)))
            end), s') /\
    m_obj _ s' = with_lg_records (lg_records (m_obj _ s) ++ news) (m_obj _ s) /\
    Forall2 (logged request_id) news t.
Proof.
  induction l as [|r l IH]; intros n last s.
  { exists [], [], None, s. split; [constructor|]. cbn [try_routes length]. split.
    - unfold ret. by rewrite Nat.add_0_r.
    - split; [|constructor]. rewrite app_nil_r. by destruct s as [[] ? ? ?]. }
  pose proof (attempt_spec request_id request r s) as H.
  destruct (call_route (m_obj _ s) request r (m_world _ s)) as [out w] eqn:Ec.
  destruct H as (x & s1 & Ha & Hg & Hw & Hx). cbn [try_routes]. unfold bind. rewrite Ha.
  destruct out as [o|e].
  - exists [x], [(r, None)], (Some o), s1. subst w. split; [by constructor|]. split; [done|].
    split; [done|]. by constructor.
  - destruct (IH (S n) (Some (class_name (exn_cls e))) s1) as (news & t & res & s2 & Ht & Hrun & Hg2 & Hl).
    exists (x :: news), ((r, Some (class_name (exn_cls e))) :: t), res, s2.
    assert (call_route (m_obj _ s1) request = call_route (m_obj _ s) request) as Hcall by by rewrite Hg.
    rewrite Hcall in Ht. subst w. split; [by eapply tried_error|]. split.
    { rewrite Hrun. destruct res; [done|]. cbn [length]. rewrite Nat.add_succ_comm.
      do 4 f_equal. rewrite last_cons. by destruct (list.last t). }
    split; [|by constructor]. rewrite Hg2, Hg, with_lg_records_twice. cbn [lg_records with_lg_records].
    by rewrite <- app_assoc.
Qed.

(** C26. [invoke] tries the selected route and then, if the policy says so, the
    other compatible routes, at most [max_attempts] of them and in this order,
    until one answers: each attempt calls the provider of its route once, or
    nobody if no provider is registered for it, and leaves one record with the
    route's provider, model, status and error class, nothing else of the gateway
    changes, an answer is what the last provider called returned, and exhaustion
    reports the attempts made and the class of the last error.  When no candidates
    can be found nothing is called. *)
Theorem llm_invoke_spec (request_id prompt : string) (caps : gset string) (options : dict) s :
  let g := m_obj _ s in
  let run := llm_run request_id prompt caps options s in
  match candidate_routes caps options g with
  | Raise e => run = (Raise e, s)
  | Ret l => exists news t res w,
      let bound := Nat.min (Z.to_nat (lg_max_attempts g)) (length l) in
      tried (call_route g (provider_request prompt options)) (take (Z.to_nat (lg_max_attempts g)) l)
        (m_world _ s) t res w /\
      Forall2 (logged request_id) news t /\ (length news <= bound)%nat /\
      m_obj _ (snd run) = with_lg_records (lg_records g ++ news) g /\ m_world _ (snd run) = w /\
      match res with
      | Some o => fst run = Ret (inl o)
      | None => fst run = Ret (inr (mkExhausted bound (list.last news ≫= in_error_type)))
      end
  end.
Proof.
  intros g run. subst run. unfold llm_run. fold g. destruct (candidate_routes caps options g) as [l|e]; [|done].
  destruct (try_routes_spec request_id (provider_request prompt options)
    (take (Z.to_nat (lg_max_attempts g)) l) 0 None s) as (news & t & res & s' & Ht & Hrun & Hg & Hl).
  exists news, t, res, (m_world _ s'). destruct (tried_length _ _ _ _ _ _ Ht) as [Hlen Hnone].
  rewrite length_take in *. pose proof (Forall2_length _ _ _ Hl) as Hnt.
  cbn zeta. rewrite Hrun. cbn [fst snd]. split; [done|]. split; [done|]. split; [lia|]. split; [done|].
  split; [done|]. destruct res as [o|]; [done|]. do 3 f_equal; [by rewrite Hnone|].
  destruct t as [|a t] using rev_ind; [by apply Forall2_nil_inv_r in Hl as ->|].
  apply Forall2_app_inv_r in Hl as (news1 & news2 & _ & Hl & ->).
  apply Forall2_cons_inv_r in Hl as (x & news3 & Hx & Hl & ->). apply Forall2_nil_inv_r in Hl as ->.
  rewrite !last_snoc. destruct Hx as (_ & _ & _ & Hx & _). cbn. by rewrite Hx.
Qed.
End attempts.

(** ** When [invoke] answers *)

Lemma route_eq_refl r : route_eq r r = true.
Proof. unfold route_eq. by rewrite bool_decide_true. Qed.

(** Equal routes go to the same model of the same provider. *)
Lemma route_eq_same a b : route_eq a b = true -> lr_provider a = lr_provider b /\ lr_model a = lr_model b.
Proof.
  unfold route_eq. rewrite orb_true_iff, bool_decide_eq_true, !andb_true_iff, !String.eqb_eq. naive_solver.
Qed.

Section answers.
Context {IF : IsoFormat} {W : Type}.
Implicit Types (g : LLMGateway W) (s : machine W (LLMGateway W)) (r : ModelRoute) (w : W).

(** When every route failed, each one did. *)
Lemma tried_all call l w t w' :
  tried (W := W) call l w t None w' -> forall r, r ∈ l -> exists w1 e w2, call r w1 = (Raise e, w2).
Proof.
  intros H. remember None as res eqn:E. induction H as [w|r l w o w' H|r l w e w1 t res w' H1 H2 IH]; [..|].
  - by intros r ?%elem_of_nil.
  - done.
  - intros r' [->|Hr]%elem_of_cons; [by exists w, e, w1|by apply IH].
Qed.

(** The candidates of a request with a dictionary of constraints, or none. *)
Lemma candidates_wanted caps options d g r :
  lg_fallback_policy g = "next_compatible" -> dget_or "constraints" (VDict []) options = VDict d ->
  r ∈ lg_routes g -> wanted caps d r ->
  exists l, candidate_routes caps options g = Ret l /\
    (length l <= length (filter (fun r => has_capabilities caps r && meets d r = true) (lg_routes g)))%nat /\
    exists r', r' ∈ l /\ lr_provider r' = lr_provider r /\ lr_model r' = lr_model r.
Proof.
  intros Hpol Hopt Hr Hw. unfold candidate_routes. rewrite Hpol, Hopt.
  assert (select_route caps (dget_or "constraints" VNone options) (lg_routes g) =
          select_route caps (VDict d) (lg_routes g)) as ->.
  { unfold dget_or in *. destruct (dget "constraints" options); cbn [default from_option id] in *; [by subst|].
    by injection Hopt as <-. }
  unfold select_route. rewrite constraints_or_none, compatible_dict. cbn [out_bind].
  set (P := fun r => has_capabilities caps r && meets d r = true).
  assert (r ∈ filter P (lg_routes g)) as Hin by (apply list_elem_of_filter; split; [by apply wanted_spec|done]).
  destruct (filter P (lg_routes g)) as [|b l] eqn:E; [by apply elem_of_nil in Hin|]. rewrite <- E in *.
  cbn [out_bind]. rewrite String.eqb_refl, compatible_dict. cbn [out_bind]. fold P. set (sel := min_by cheaper b l).
  assert (sel ∈ filter P (lg_routes g)) as Hsel by (rewrite E; apply min_by_elem).
  assert (filter P (filter (fun r => route_eq r sel = false) (lg_routes g)) =
          filter (fun r => route_eq r sel = false) (filter P (lg_routes g))) as ->.
  { rewrite !list_filter_filter. apply list_filter_iff. tauto. }
  eexists. split; [done|]. split.
  - cbn [length]. apply (length_filter_lt _ _ sel); [done|]. rewrite route_eq_refl. done.
  - destruct (route_eq r sel) eqn:Heq.
    + exists sel. split; [by left|]. apply route_eq_same in Heq. by destruct Heq.
    + exists r. split; [|done]. right. by apply list_elem_of_filter.
Qed.

(** C27. With the fallback policy [next_compatible], a request is answered whenever
    some compatible route leads to a provider that answers, whatever the other
    providers raise or return and whichever route is selected, if at most
    [max_attempts] routes are compatible. *)
Theorem llm_request_answered (request_id prompt : string) (caps : gset string) (options : dict)
    (d : dict) s r (p : provider W)
    (Hpol : lg_fallback_policy (m_obj _ s) = "next_compatible")
    (Hopt : dget_or "constraints" (VDict []) options = VDict d)
    (Hr : r ∈ lg_routes (m_obj _ s)) (Hw : wanted caps d r)
    (Hp : lg_providers (m_obj _ s) !! lr_provider r = Some p)
    (Hans : forall w, exists o w', p (lr_model r) (provider_request prompt options) w = (Ret (R_output o), w'))
    (Hmany : (length (filter (fun r => has_capabilities caps r && meets d r = true)
                        (lg_routes (m_obj _ s))) <= Z.to_nat (lg_max_attempts (m_obj _ s)))%nat) :
  exists o s', llm_invoke request_id prompt (Some caps) (Some options) s = (Ret o, s').
Proof.
  destruct (candidates_wanted caps options d (m_obj _ s) r) as (l & Hc & Hlen & r' & Hr' & Hprov & Hmod); [done..|].
  destruct (try_routes_spec request_id (provider_request prompt options) l 0 None s)
    as (news & t & res & s' & Ht & Hrun & _).
  unfold llm_invoke, bind, llm_run. cbn [default from_option id]. rewrite Hc, take_ge, Hrun by lia.
  destruct res as [o|]; [by exists o, s'|]. exfalso.
  destruct (tried_all _ _ _ _ _ Ht r' Hr') as (w1 & e & w2 & Hcall). revert Hcall.
  unfold call_route, checked_call, bind. rewrite Hprov, Hmod, Hp.
  destruct (Hans w1) as (o & w3 & ->). done.
Qed.

(** An explicit [constraints=None] is accepted by the selection of a route and
    rejected by the search for fallbacks: as soon as another route has the
    capabilities, [invoke] raises [AttributeError] before any provider is
    called, although the same request without the option has candidates. *)
Theorem explicit_no_constraints_fails (request_id prompt : string) (caps : gset string) (options : dict)
    s selected r
    (Hpol : lg_fallback_policy (m_obj _ s) = "next_compatible")
    (Hopt : dget "constraints" options = Some VNone)
    (Hsel : select_route caps VNone (lg_routes (m_obj _ s)) = Ret selected)
    (Hr : r ∈ lg_routes (m_obj _ s)) (Hne : route_eq r selected = false)
    (Hcap : caps ⊆ list_to_set (lr_capabilities r)) :
  llm_invoke request_id prompt (Some caps) (Some options) s =
    (raise AttributeError "'NoneType' object has no attribute 'items'", s) /\
  forall options', dget "constraints" options' = None ->
    exists l, candidate_routes caps options' (m_obj _ s) = Ret l /\ r ∈ l /\ selected ∈ l.
Proof.
  split.
  - assert (candidate_routes caps options (m_obj _ s) =
            raise AttributeError "'NoneType' object has no attribute 'items'") as Hc.
    { unfold candidate_routes, dget_or. rewrite Hopt. cbn [default from_option id]. rewrite Hsel, Hpol.
      cbn [out_bind]. rewrite String.eqb_refl.
      assert (r ∈ filter (fun r => route_eq r selected = false) (lg_routes (m_obj _ s))) as Hin
        by by apply list_elem_of_filter.
      induction (filter _ _) as [|x l IH]; [by apply elem_of_nil in Hin|]. cbn [compatible].
      unfold has_capabilities at 1. case_bool_decide as Hx; [done|]. apply elem_of_cons in Hin as [<-|Hin]; [done|].
      cbn [out_bind]. specialize (IH Hin). destruct (compatible _ _ l); cbn [out_bind] in *; [done|by injection IH as ->]. }
    unfold llm_invoke, bind, llm_run. cbn [default from_option id]. rewrite Hc. done.
  - intros options' Ho. unfold candidate_routes, dget_or. rewrite Ho. cbn [default from_option id].
    rewrite Hsel, Hpol. cbn [out_bind]. rewrite String.eqb_refl, compatible_dict. cbn [out_bind]. eexists. split; [done|]. split; [right|by left].
    apply list_elem_of_filter. split; [|by apply list_elem_of_filter].
    unfold has_capabilities. by rewrite bool_decide_true.
Qed.
End answers.

(** ** The model fabric *)

Section fabric.
Context {IF : IsoFormat} {PS : PyStr} {W : Type}.
Implicit Types (s : machine W (ModelFabric W)).

Lemma llm_invoke_records request_id prompt caps options (s : machine W (LLMGateway W)) :
  exists news, m_obj _ (snd (llm_invoke request_id prompt caps options s)) =
    with_lg_records (lg_records (m_obj _ s) ++ news) (m_obj _ s).
Proof.
  assert (exists news, m_obj _ (snd (llm_run request_id prompt (default ∅ caps) (default [] options) s)) =
    with_lg_records (lg_records (m_obj _ s) ++ news) (m_obj _ s)) as [news H].
  { unfold llm_run. destruct (candidate_routes _ _ _) as [l|e].
    - destruct (try_routes_spec request_id (provider_request prompt (default [] options))
        (take (Z.to_nat (lg_max_attempts (m_obj _ s))) l) 0 None s) as (news & t & res & s' & _ & Hrun & Hg & _).
      exists news. rewrite Hrun. exact Hg.
    - exists []. rewrite app_nil_r. by destruct s as [[] ? ? ?]. }
  exists news. rewrite <- H. unfold llm_invoke, bind.
  destruct (llm_run _ _ _ _ s) as [[[]|] s']; done.
Qed.

(** What is done with the model fabric, by clients, callbacks and clocks. *)
Inductive fabric_step : machine W (ModelFabric W) -> machine W (ModelFabric W) -> Prop :=
  | fs_route r s : fabric_step s (set_obj (router_register r (m_obj _ s)) s)
  | fs_configure policy s : fabric_step s (set_obj (configure_gateway policy (m_obj _ s)) s)
  | fs_provider id callback f s : mf_gateway (m_obj _ s) = Some f ->
      fabric_step s (set_obj (mkModelFabric (mf_router (m_obj _ s))
                       (Some (facade_register_provider id callback f))) s)
  | fs_invoke prompt caps options s : fabric_step s (snd (facade_invoke prompt caps options s))
  | fs_outside s s' : m_obj _ s' = m_obj _ s -> fabric_step s s'.

(** The telemetry is the engine's records, and its providers are the callbacks. *)
Definition mirrors (f : InMemoryLLMGateway W) : Prop :=
  fg_telemetry f = telemetry_item <$> lg_records (fg_engine f) /\
  lg_providers (fg_engine f) = callable_provider <$> fg_providers f /\
  lg_max_attempts (fg_engine f) = 3%Z.

Definition fabric_ok s : Prop := forall f, mf_gateway (m_obj _ s) = Some f -> mirrors f.

Lemma request_id_obj options s : m_obj _ (snd (request_id_of options s)) = m_obj _ s.
Proof. unfold request_id_of. by destruct (truthy _). Qed.

Lemma facade_invoke_ok prompt caps options s : fabric_ok s -> fabric_ok (snd (facade_invoke prompt caps options s)).
Proof.
  intros Hs. unfold facade_invoke. destruct (mf_gateway (m_obj _ s)) as [f|] eqn:Ef; [|done].
  pose proof (request_id_obj (default [] options) s) as Hid.
  destruct (request_id_of (default [] options) s) as [[request_id|e] s1]; cbn [snd] in Hid.
  2:{ unfold fabric_ok in *. cbn [snd]. by rewrite Hid. }
  set (engine := sync_routes _ _).
  destruct (llm_invoke_records request_id prompt caps
    (Some (filter (fun kv => fst kv <> "request_id") (default [] options))) (set_obj engine s1)) as [news Hn].
  destruct (llm_invoke _ _ _ _ _) as [out s2]. cbn [snd set_obj m_obj] in *. rewrite Hn.
  intros f' [= <-]. destruct (Hs f Ef) as (Ht & Hp & Hm). unfold mirrors.
  cbn [fg_telemetry fg_engine fg_providers lg_records lg_providers lg_max_attempts with_lg_records].
  rewrite drop_app_length, fmap_app, Ht. done.
Qed.

(** Whatever is done with the model fabric, the telemetry of its gateway has
    exactly the inference records of the engine, in order, also of calls that
    raised; the engine calls exactly the registered callbacks, each through the
    adapter that accepts only text, and makes three attempts at most. *)
Theorem fabric_telemetry_mirrors_records s s' (f : InMemoryLLMGateway W)
    (Hinit : mf_gateway (m_obj _ s) = None) (Hrun : rtc fabric_step s s')
    (Hf : mf_gateway (m_obj _ s') = Some f) :
  mirrors f.
Proof.
  cut (fabric_ok s'); [by intros H; apply H|]. revert Hrun. apply rtc_invariant.
  - clear. intros s s' Hs H.
    destruct H as [r s|policy s|id callback f s Ef|prompt caps options s|s s' H].
    + done.
    + intros f [= <-]. split; [done|]. split; [|done]. cbn. by rewrite fmap_empty.
    + intros f' [= <-]. destruct (Hs f Ef) as (Ht & Hp & Hm). split; [done|]. split; [|done].
      cbn. by rewrite fmap_insert, Hp.
    + by apply facade_invoke_ok.
    + unfold fabric_ok. by rewrite H.
  - intros f0 Hf0. congruence.
Qed.
End fabric.

(** ** Concrete routes and providers

    Over a world that counts calls, one provider is down and one answers. *)

#[local] Instance text_of_value : PyStr := fun _ => "value".

Definition sample_route (provider model : string) (cost : spec_float) (constraints : dict) : ModelRoute :=
  mkRoute (provider ++ "-route") "1.0.0" provider model ["text"] [("local", cost)] constraints.

Definition route_a : ModelRoute := sample_route "a" "small" zero_float [("region", VStr "eu")].
Definition route_b : ModelRoute := sample_route "b" "large" one_float [("region", VStr "eu")].

Definition down : provider nat := fun _ _ calls => (raise RuntimeError "down", S calls).
Definition up : provider nat := fun _ _ calls => (Ret (R_output (mkModelOutput "hello" eq_refl)), S calls).
Definition replies : provider nat := fun _ _ calls => (Ret (R_other (VDict [("response", VStr "hello")])), S calls).

Definition sample_machine {G} (g : G) : machine nat G := mkMachine G g sample_env (mkStream (fun _ => one_float) 0) 0%nat.

Definition sample_llm : machine nat (LLMGateway nat) := sample_machine
  (mkLlm "next_compatible" [route_a; route_b] {[ "a" := down; "b" := up ]} [] 3).

Lemma route_selection_spec_witness :
  router_select {["text"]} (VDict [("region", VStr "eu")])
    (router_register route_a (router_register route_b (mkModelFabric (W := nat) [] None))) = Ret route_a /\
  cheaper route_b route_a = false.
Proof.
  split; [reflexivity|].
  destruct (route_selection_spec (W := nat) [route_a; route_b] [route_b; route_a] {["text"]}
    [("region", VStr "eu")]) as [_ H].
  - apply Permutation_swap.
  - apply (bool_decide_unpack _). reflexivity.
  - apply Forall_forall. repeat constructor.
  - apply H; [right; by left|]. apply wanted_spec. reflexivity.
Defined.

Lemma llm_request_answered_witness :
  exists o s', llm_invoke "r-1" "hello?" (Some {["text"]}) (Some []) sample_llm = (Ret o, s').
Proof.
  apply (llm_request_answered "r-1" "hello?" {["text"]} [] [] sample_llm route_b up).
  - reflexivity.
  - reflexivity.
  - right. by left.
  - apply wanted_spec. reflexivity.
  - reflexivity.
  - intros w. by eexists _, _.
  - apply Nat.leb_le. vm_compute. reflexivity.
Defined.

Lemma explicit_no_constraints_fails_witness :
  let options := [("constraints", VNone)] in
  llm_invoke "r-1" "hello?" (Some {["text"]}) (Some options) sample_llm =
    (raise AttributeError "'NoneType' object has no attribute 'items'", sample_llm) /\
  exists l, candidate_routes {["text"]} [] (m_obj _ sample_llm) = Ret l /\ route_b ∈ l /\ route_a ∈ l.
Proof.
  intros options.
  destruct (explicit_no_constraints_fails "r-1" "hello?" {["text"]} options sample_llm route_a route_b) as [H1 H2].
  - reflexivity.
  - reflexivity.
  - reflexivity.
  - right. by left.
  - reflexivity.
  - apply (bool_decide_unpack _). reflexivity.
  - split; [exact H1|by apply H2].
Defined.

Lemma fabric_telemetry_mirrors_records_witness :
  let s := sample_machine (mkModelFabric [] None) in
  exists s' f, rtc fabric_step s s' /\ mf_gateway (m_obj _ s') = Some f /\ mirrors f /\
    length (fg_telemetry f) = 2%nat.
Proof.
  intros s.
  set (s1 := set_obj (router_register route_b (m_obj _ s)) s).
  set (s2 := set_obj (router_register route_a (m_obj _ s1)) s1).
  set (s3 := set_obj (configure_gateway "next_compatible" (m_obj _ s2)) s2).
  set (f3 := default (mkFacade ∅ [] (mkLlm "" [] ∅ [] 3)) (mf_gateway (m_obj _ s3))).
  set (f4 := facade_register_provider "b" replies f3).
  set (s4 := set_obj (mkModelFabric (mf_router (m_obj _ s3)) (Some f4)) s3).
  set (s5 := snd (facade_invoke "hello?" (Some {["text"]}) None s4)).
  assert (rtc fabric_step s s5) as Hrun.
  { eapply rtc_l; [apply (fs_route route_b)|]. eapply rtc_l; [apply (fs_route route_a)|].
    eapply rtc_l; [apply (fs_configure "next_compatible")|].
    eapply rtc_l; [apply (fs_provider "b" replies f3); reflexivity|].
    apply rtc_once. apply (fs_invoke "hello?" (Some {["text"]}) None). }
  destruct (mf_gateway (m_obj _ s5)) as [f|] eqn:Ef; [|by vm_compute in Ef].
  exists s5, f. split; [done|]. split; [done|].
  split; [by apply (fabric_telemetry_mirrors_records s s5)|].
  assert ((length ∘ fg_telemetry) <$> mf_gateway (m_obj _ s5) = Some 2%nat) as H by (vm_compute; reflexivity).
  rewrite Ef in H. by injection H.
Defined.
