(* ===== verification/OAuth2.v ===== *)
(** * OAuth 2.0 connections: [infrastructure/oauth2.py], [oauth2_connection.py] and
      [oauth2_registry.py]

    The authorization-code provider (authorization URL, one-time state, PKCE,
    code exchange and refresh), the service that turns an authorization into a
    stored credential and uses it for ingestion, and the two credential stores.

    The state store and the credential store are protocols: the code works over
    classes of their operations.  The token endpoint is a service, [post], over a
    state [W]; text stands for its UTF-8 bytes. *)

From stdpp Require Import base gmap strings list pretty.
From Stdlib Require Import ZArith Lia Ascii.
From S2P Require Import Prelude SourceGateway SourceAdapters.
Local Open Scope py_scope.

(** ** Text *)

Definition code (a : ascii) : nat := nat_of_ascii a.
Definition has_code (n : nat) (a : ascii) : bool := (code a =? n)%nat.
Definition between (lo hi : nat) (a : ascii) : bool := (lo <=? code a)%nat && (code a <=? hi)%nat.

Definition is_upper := between 65 90.
Definition is_alpha (a : ascii) : bool := is_upper a || between 97 122 a.
Definition is_digit := between 48 57.

Fixpoint lower (s : string) : string :=
  match s with
  | EmptyString => EmptyString
  | String a s => String (if is_upper a then ascii_of_nat (code a + 32) else a) (lower s)
  end.

(** [s] up to the first character of [p], and what follows that character. *)
Fixpoint break_at (p : ascii -> bool) (s : string) : string * option string :=
  match s with
  | EmptyString => (EmptyString, None)
  | String a s => if p a then (EmptyString, Some s)
                  else let '(x, y) := break_at p s in (String a x, y)
  end.

(** What follows the last character of [p]. *)
Fixpoint after_last (p : ascii -> bool) (s : string) : option string :=
  match s with
  | EmptyString => None
  | String a s => match after_last p s with
                  | Some r => Some r
                  | None => if p a then Some s else None
                  end
  end.

Fixpoint has_char (p : ascii -> bool) (s : string) : bool :=
  match s with EmptyString => false | String a s => p a || has_char p s end.

Fixpoint keep_chars (p : ascii -> bool) (s : string) : string :=
  match s with
  | EmptyString => EmptyString
  | String a s => if p a then String a (keep_chars p s) else keep_chars p s
  end.

Fixpoint skip_while (p : ascii -> bool) (s : string) : string :=
  match s with String a s' => if p a then skip_while p s' else s | EmptyString => s end.

(** [s.split(sep)] for a separator that is not empty; [skip] characters of a
    separator are still to be passed over. *)
Fixpoint split_go (sep s acc : string) (skip : nat) : list string :=
  match s with
  | EmptyString => [acc]
  | String a s' =>
      match skip with
      | S k => split_go sep s' acc k
      | O => if String.prefix sep s then acc :: split_go sep s' "" (String.length sep - 1)
             else split_go sep s' (acc +:+ String a "") 0
      end
  end.

Definition split_on (sep s : string) : list string := split_go sep s "" 0.

(** [base64.b64encode], and [urlsafe_b64encode(...).rstrip(b"=")]. *)
Definition b64_char (url : bool) (n : N) : ascii :=
  (if n <? 26 then ascii_of_N (65 + n) else if n <? 52 then ascii_of_N (71 + n)
   else if n <? 62 then ascii_of_N (n - 4)
   else if n =? 62 then (if url then "-" else "+")%char else (if url then "_" else "/")%char)%N.

Definition sextets (url : bool) (n : N) (k : nat) : string :=
  String.string_of_list_ascii
    (map (fun i => b64_char url (N.land (N.shiftr n (18 - 6 * N.of_nat i)) 63)) (seq 0 k)).

Fixpoint b64 (url : bool) (pad : bool) (s : string) : string :=
  match s with
  | String a (String b (String c s)) =>
      sextets url (N_of_ascii a * 65536 + N_of_ascii b * 256 + N_of_ascii c) 4 +:+ b64 url pad s
  | String a (String b EmptyString) =>
      sextets url (N_of_ascii a * 65536 + N_of_ascii b * 256) 3 +:+ (if pad then "=" else "")
  | String a EmptyString => sextets url (N_of_ascii a * 65536) 2 +:+ (if pad then "==" else "")
  | EmptyString => ""
  end.

(** [urlencode] of a dictionary of texts. *)
Definition unreserved (a : ascii) : bool :=
  is_alpha a || is_digit a || existsb (fun n => has_code n a) [95; 46; 45; 126]%nat.

Definition hex_upper (n : nat) : ascii := ascii_of_nat (if (n <? 10)%nat then 48 + n else 55 + n).

Fixpoint quote_plus (s : string) : string :=
  match s with
  | EmptyString => ""
  | String a s =>
      (if unreserved a then String a ""
       else if has_code 32 a then "+"
       else String "%" (String (hex_upper (code a / 16)) (String (hex_upper (code a mod 16)) "")))
      +:+ quote_plus s
  end.

Definition urlencode (d : list (string * string)) : string :=
  join "&" (map (fun kv => quote_plus (fst kv) +:+ "=" +:+ quote_plus (snd kv)) d).

(** A dictionary display: a later key replaces an earlier equal one. *)
Definition dict_of (l : list (string * string)) : list (string * string) :=
  foldl (fun d kv => dset (fst kv) (snd kv) d) [] l.

Definition update (d l : list (string * string)) : list (string * string) :=
  foldl (fun d kv => dset (fst kv) (snd kv) d) d l.

(** ** [urlparse] of the redirect URI

    [ip_literal]: what [urlsplit] accepts between brackets. *)
Class IpLiteral := ip_literal : string -> bool.
(** The 32 bytes of [hashlib.sha256(text.encode()).digest()]. *)
Class Sha256Bytes := sha256_bytes : string -> string.

Record SplitUrl := mkUrl { su_scheme : string; su_netloc : string; su_fragment : string }.

Definition scheme_char (a : ascii) : bool :=
  is_alpha a || is_digit a || existsb (fun n => has_code n a) [43; 45; 46]%nat.

Definition split_scheme (url : string) : string * string :=
  match break_at (has_code 58) url with
  | (String a s, Some rest) =>
      if is_alpha a && negb (has_char (fun c => negb (scheme_char c)) (String a s))
      then (lower (String a s), rest) else ("", url)
  | _ => ("", url)
  end.

Definition url_delimiter (a : ascii) : bool := has_code 47 a || has_code 63 a || has_code 35 a.

Definition split_netloc (url : string) : string * string :=
  match url with
  | String a (String b s) =>
      if has_code 47 a && has_code 47 b then
        let netloc := fst (break_at url_delimiter s) in
        (netloc, String.substring (String.length netloc) (String.length s - String.length netloc) s)
      else ("", url)
  | _ => ("", url)
  end.

Definition bracketed (netloc : string) : string :=
  match break_at (has_code 91) netloc with
  | (_, Some s) => fst (break_at (has_code 93) s)
  | (_, None) => ""
  end.

Definition urlsplit {IL : IpLiteral} (url : string) : outcome SplitUrl :=
  let url := keep_chars (fun a => negb (existsb (fun n => has_code n a) [9; 10; 13]%nat))
               (skip_while (between 0 32) url) in
  let '(scheme, url) := split_scheme url in
  let '(netloc, url) := split_netloc url in
  let opened := has_char (has_code 91) netloc in
  let closed := has_char (has_code 93) netloc in
  if xorb opened closed then raise ValueError "Invalid IPv6 URL"
  else if opened && closed && negb (ip_literal (bracketed netloc)) then
    raise ValueError (bracketed netloc +:+ " does not appear to be an IPv4 or IPv6 address")
  else Ret (mkUrl scheme netloc (default "" (snd (break_at (has_code 35) url)))).

(** [.hostname], where an empty one is [None]: without user and port, in lower
    case up to a zone. *)
Definition hostname (u : SplitUrl) : string :=
  let info := default (su_netloc u) (after_last (has_code 64) (su_netloc u)) in
  let host := match break_at (has_code 91) info with
              | (_, Some s) => fst (break_at (has_code 93) s)
              | (_, None) => fst (break_at (has_code 58) info)
              end in
  match break_at (has_code 37) host with
  | (h, Some zone) => lower h +:+ "%" +:+ zone
  | (h, None) => lower h
  end.

(** ** [OAuth2Config]

    The two rotation flags are read by no code and left out. *)

Record OAuth2Config := mkOAuthConfig {
  oc_provider : string;
  oc_authorization_url : string;
  oc_token_url : string;
  oc_client_id : string;
  oc_client_secret : string;
  oc_redirect_uri : string;
  oc_scopes : list string;
  oc_authorization_params : list (string * string);
  oc_client_id_param : string;
  oc_client_secret_param : string;
  oc_scope_separator : string;
  oc_response_scope_separator : string;
  oc_token_auth_method : string;
  oc_state_ttl_seconds : Z;
  oc_use_pkce : bool;
  oc_pkce_method : string }.

Definition empty (s : string) : bool := String.eqb s "".

(** The redirect check of [validate]. *)
Definition check_redirect {IL : IpLiteral} (uri : string) : outcome unit :=
  u <-? urlsplit uri ;;
  if negb (empty (su_fragment u)) then
    raise ValueError "OAuth2 redirect URI must not contain a fragment"
  else if negb (String.eqb (su_scheme u) "https") &&
          (negb (String.eqb (su_scheme u) "http") ||
           negb (existsb (String.eqb (hostname u)) ["localhost"; "127.0.0.1"; "::1"])) then
    raise ValueError "OAuth2 redirect URI must use HTTPS outside localhost"
  else Ret tt.

Definition require (ok : bool) (message : string) : outcome unit :=
  if ok then Ret tt else raise ValueError message.

Definition config_validate {IL : IpLiteral} (c : OAuth2Config) : outcome unit :=
  let p := oc_provider c in
  _ <-? require (negb (empty p)) "OAuth2 provider is required" ;;
  _ <-? require (String.prefix "https://" (oc_authorization_url c)) "OAuth2 authorization URL must use HTTPS" ;;
  _ <-? require (String.prefix "https://" (oc_token_url c)) "OAuth2 token URL must use HTTPS" ;;
  _ <-? require (negb (empty (oc_client_id c))) (p +:+ " OAuth2 client ID is required") ;;
  _ <-? require (negb (empty (oc_client_secret c))) (p +:+ " OAuth2 client secret is required") ;;
  _ <-? require (negb (empty (oc_redirect_uri c))) (p +:+ " OAuth2 redirect URI is required") ;;
  _ <-? check_redirect (oc_redirect_uri c) ;;
  _ <-? require (existsb (String.eqb (oc_token_auth_method c)) ["client_secret_post"; "client_secret_basic"])
          ("unsupported OAuth2 token authentication method: " +:+ oc_token_auth_method c) ;;
  _ <-? require (0 <? oc_state_ttl_seconds c)%Z "OAuth2 state TTL must be positive" ;;
  _ <-? require (String.eqb (oc_pkce_method c) "S256") "OAuth2 PKCE method must be S256" ;;
  _ <-? require (negb (bool_decide (oc_scopes c = []))) (p +:+ " OAuth2 requires at least one scope") ;;
  _ <-? require (negb (empty (oc_scope_separator c))) "OAuth2 request scope separator is required" ;;
  require (negb (empty (oc_response_scope_separator c))) "OAuth2 response scope separator is required".

(** ** Errors and tokens *)

Record OAuth2Error := mkOAuthError {
  oe_provider : string;
  oe_operation : string;
  oe_category : string;
  oe_message : string;
  oe_error_code : option string;
  oe_status_code : option Z;
  oe_retryable : bool }.

(** [as_dict] *)
Definition oauth_error_dict (x : OAuth2Error) : dict :=
  let text o := match o with Some s => VStr s | None => VNone end in
  [("provider", VStr (oe_provider x)); ("operation", VStr (oe_operation x));
   ("category", VStr (oe_category x)); ("error_code", text (oe_error_code x));
   ("status_code", match oe_status_code x with Some n => VInt n | None => VNone end);
   ("retryable", VBool (oe_retryable x)); ("message", VStr (oe_message x))].

Definition oauth_exn (x : OAuth2Error) : exn := Exn (OtherException "OAuth2Error") (oe_message x).

Record OAuth2Token := mkToken {
  tk_access_token : string;
  tk_token_type : string;
  tk_expires_in : option Z;
  tk_refresh_token : option string;
  tk_scope : list string;
  tk_obtained_at : option datetime }.

(** Adding seconds to a time; the last instant is the end of the year 9999. *)
Definition last_instant : datetime := 253402300799999999%Z.

Definition add_seconds (t : datetime) (n : Z) : outcome datetime :=
  let t := (t + n * 1000000)%Z in
  if (last_instant <? t)%Z then raise OverflowError "date value out of range" else Ret t.

(** [expires_at] of a token that records when it was obtained. *)
Definition token_expires_at (t : OAuth2Token) : outcome (option datetime) :=
  match tk_expires_in t, tk_obtained_at t with
  | Some n, Some obtained => e <-? add_seconds obtained n ;; Ret (Some e)
  | _, _ => Ret None
  end.

Section payload.
Context {PS : PyStr}.

(** [from_payload], with the time it reads last. *)
Definition from_payload (payload : dict) (refresh_token : option string) (separator : string)
    (now : datetime) : outcome OAuth2Token :=
  match dget "access_token" payload with
  | Some (VStr access_token) =>
      if empty access_token then raise ValueError "OAuth2 token response is missing access_token"
      else
        let scope_value := dget_or "scope" (VStr "") payload in
        let scopes := if truthy scope_value then split_on separator (to_str scope_value) else [] in
        let returned := dget_or "refresh_token" VNone payload in
        let refresh := if truthy returned then Some (to_str returned) else refresh_token in
        expires_in <-? match dget_or "expires_in" VNone payload with
                       | VNone => Ret None
                       | v => match int_literal (to_str v) with
                              | None => raise ValueError "OAuth2 expires_in must be an integer"
                              | Some n => if (n <? 0)%Z then raise ValueError "OAuth2 expires_in cannot be negative"
                                          else Ret (Some n)
                              end
                       end ;;
        let token_type := to_str (dget_or "token_type" (VStr "Bearer") payload) in
        if empty token_type then raise ValueError "OAuth2 token_type cannot be empty"
        else Ret (mkToken access_token token_type expires_in refresh
                    (List.filter (fun s => negb (empty s)) scopes) (Some now))
  | _ => raise ValueError "OAuth2 token response is missing access_token"
  end.

(** [_error_code] and [_error_description] *)
Definition truthy_text (key : string) (payload : dict) : option string :=
  let v := dget_or key VNone payload in if truthy v then Some (to_str v) else None.

Definition error_code (payload : dict) : option string := truthy_text "error" payload.

Fixpoint first_text (keys : list string) (payload : dict) : option string :=
  match keys with
  | [] => None
  | k :: keys => match truthy_text k payload with Some s => Some s | None => first_text keys payload end
  end.

Definition error_description (payload : dict) : option string :=
  first_text ["error_description"; "message"; "error"] payload.

(** [_error_payload]: a body that cannot be read or decoded is empty. *)
Definition error_payload {BP : BodyParse} (body : option string) : dict :=
  match body ≫= parse_body with Some (VDict d) => d | _ => [] end.
End payload.

(** ** State store *)

Record OAuth2State := mkOAuthState {
  os_provider : string; os_tenant_id : string; os_workspace_id : string; os_expires_at : datetime }.

(** The arguments of [consume] are those of the state without its expiry; the
    store reads the time. *)
Class OAuth2StateStore (S : Type) := {
  state_put : string -> OAuth2State -> M S unit;
  state_consume : datetime -> string -> string -> string -> string -> M S bool }.

(** [InMemoryOAuth2StateStore] *)
Abbreviation memory_states := (gmap string OAuth2State).

Definition memory_put (state : string) (value : OAuth2State) : M memory_states unit :=
  modify (fun m => <[state := value]> m).

Definition memory_consume (now : datetime) (state provider tenant_id workspace_id : string) :
    M memory_states bool := fun m =>
  match m !! state with
  | None => (Ret false, m)
  | Some v =>
      if (os_expires_at v <=? now)%Z then (Ret false, delete state m)
      else if negb (String.eqb (os_provider v) provider && String.eqb (os_tenant_id v) tenant_id &&
                    String.eqb (os_workspace_id v) workspace_id) then (Ret false, m)
      else (Ret true, delete state m)
  end.

#[export] Instance memory_state_store : OAuth2StateStore memory_states :=
  {| state_put := memory_put; state_consume := memory_consume |}.

(** ** Credential stores *)

Record OAuthCredentialRecord := mkOAuthCredential {
  ou_credential_id : string;
  ou_tenant_id : string;
  ou_workspace_id : string;
  ou_provider : string;
  ou_access_token : string;
  ou_refresh_token : option string;
  ou_token_type : string;
  ou_scopes : list string;
  ou_obtained_at : option datetime;
  ou_expires_at : option datetime }.

Definition credential_ref (r : OAuthCredentialRecord) : CredentialRef :=
  mkCredential (ou_credential_id r) (ou_tenant_id r) (ou_provider r) (ou_scopes r) None.

Definition is_expired (now : datetime) (skew_seconds : Z) (r : OAuthCredentialRecord) : outcome bool :=
  match ou_expires_at r with
  | None => Ret false
  | Some t => limit <-? add_seconds now skew_seconds ;; Ret (t <=? limit)%Z
  end.

(** The tenant, workspace and provider family of a record. *)
Definition in_family (provider family : string) : bool :=
  String.eqb provider family || String.prefix (family +:+ ".") provider.

Definition in_scope (tenant_id workspace_id provider : string) (r : OAuthCredentialRecord) : bool :=
  String.eqb (ou_tenant_id r) tenant_id && String.eqb (ou_workspace_id r) workspace_id &&
  in_family provider (ou_provider r).

Definition outside_scope {A} : outcome A :=
  raise PermissionError "OAuth credential is outside its tenant/workspace/provider scope".

Class OAuthCredentialStore (C : Type) := {
  credential_save : OAuthCredentialRecord -> M C unit;
  credential_get : string -> string -> string -> string -> M C OAuthCredentialRecord }.

(** [resolve] of both stores. *)
Definition credential_resolve {C} `{OAuthCredentialStore C} (ref : CredentialRef) (scope : TenantScope) :
    M C string :=
  r <- credential_get (cd_credential_id ref) (ts_tenant_id scope) (ts_workspace_id scope) (cd_provider ref) ;;
  ret (ou_access_token r).

(** [InMemoryOAuthCredentialStore] *)
Abbreviation memory_credentials := (gmap string OAuthCredentialRecord).

Definition memory_save (r : OAuthCredentialRecord) : M memory_credentials unit :=
  modify (fun m => <[ou_credential_id r := r]> m).

Definition memory_get (credential_id tenant_id workspace_id provider : string) :
    M memory_credentials OAuthCredentialRecord := fun m =>
  (match m !! credential_id with
   | None => raise KeyError ("OAuth credential not found: " +:+ credential_id)
   | Some r => if negb (in_scope tenant_id workspace_id provider r) then outside_scope else Ret r
   end, m).

#[export] Instance memory_credential_store : OAuthCredentialStore memory_credentials :=
  {| credential_save := memory_save; credential_get := memory_get |}.

(** [OAuthSecretBackend] *)
Class SecretBackend (B : Type) := {
  secret_read : string -> M B (option dict);
  secret_write : string -> dict -> M B unit }.

Section secret_manager.
Context {IF : IsoFormat} {PS : PyStr} {B : Type} {SB : SecretBackend B}.

Definition optional_text (o : option string) : pyval := match o with Some s => VStr s | None => VNone end.
Definition optional_iso (o : option datetime) : pyval := optional_text (isoformat <$> o).

Definition serialize (r : OAuthCredentialRecord) : dict :=
  [("credential_id", VStr (ou_credential_id r)); ("tenant_id", VStr (ou_tenant_id r));
   ("workspace_id", VStr (ou_workspace_id r)); ("provider", VStr (ou_provider r));
   ("access_token", VStr (ou_access_token r)); ("refresh_token", optional_text (ou_refresh_token r));
   ("token_type", VStr (ou_token_type r)); ("scopes", VList (VStr <$> ou_scopes r));
   ("obtained_at", optional_iso (ou_obtained_at r)); ("expires_at", optional_iso (ou_expires_at r))].

Definition as_str (v : pyval) : option string := match v with VStr s => Some s | _ => None end.

Definition read_time (v : pyval) : outcome (option datetime) :=
  if truthy v then
    match fromisoformat (to_str v) with
    | Some t => Ret (Some t)
    | None => raise ValueError "Invalid isoformat string"
    end
  else Ret None.

Definition deserialize (payload : dict) : outcome OAuthCredentialRecord :=
  let field k := to_str (dget_or k VNone payload) in
  if existsb (fun k => negb (truthy (dget_or k VNone payload)))
       ["credential_id"; "tenant_id"; "workspace_id"; "provider"; "access_token"; "token_type"; "scopes"]
  then raise ValueError "OAuth secret backend returned an incomplete credential record"
  else
    match dget_or "scopes" VNone payload with
    | VList l =>
        match mapM as_str l with
        | None => raise ValueError "OAuth secret backend returned invalid scopes"
        | Some scopes =>
            obtained_at <-? read_time (dget_or "obtained_at" VNone payload) ;;
            expires_at <-? read_time (dget_or "expires_at" VNone payload) ;;
            Ret (mkOAuthCredential (field "credential_id") (field "tenant_id") (field "workspace_id")
                   (field "provider") (field "access_token")
                   (if truthy (dget_or "refresh_token" VNone payload) then Some (field "refresh_token") else None)
                   (field "token_type") scopes obtained_at expires_at)
        end
    | _ => raise ValueError "OAuth secret backend returned invalid scopes"
    end.

(** [SecretManagerOAuthCredentialStore]: its prefix and its backend. *)
Record secret_store := mkSecretStore { ss_prefix : string; ss_backend : B }.

Definition new_secret_store (backend : B) (key_prefix : string) : outcome secret_store :=
  if empty key_prefix || (match after_last (has_code 47) key_prefix with Some "" => true | _ => false end)
  then raise ValueError "key_prefix must be non-empty and must not end with '/'"
  else Ret (mkSecretStore key_prefix backend).

Definition secret_key (prefix credential_id : string) : outcome string :=
  if empty credential_id || has_char (has_code 47) credential_id
  then raise ValueError "credential_id must be non-empty and path-safe"
  else Ret (prefix +:+ "/" +:+ credential_id).

Definition on_backend {A} (m : M B A) : M secret_store A := fun s =>
  let '(o, b) := m (ss_backend s) in (o, mkSecretStore (ss_prefix s) b).

Definition secret_save (r : OAuthCredentialRecord) : M secret_store unit := fun s =>
  match secret_key (ss_prefix s) (ou_credential_id r) with
  | Raise e => (Raise e, s)
  | Ret k => on_backend (secret_write k (serialize r)) s
  end.

Definition secret_get (credential_id tenant_id workspace_id provider : string) :
    M secret_store OAuthCredentialRecord := fun s =>
  match secret_key (ss_prefix s) credential_id with
  | Raise e => (Raise e, s)
  | Ret k =>
      (found <- on_backend (secret_read k) ;;
       match found with
       | None => throw (Exn KeyError ("OAuth credential not found: " +:+ credential_id))
       | Some payload =>
           r <- lift (deserialize payload) ;;
           if negb (String.eqb (ou_credential_id r) credential_id && in_scope tenant_id workspace_id provider r)
           then lift outside_scope
           else ret r
       end) s
  end.

#[export] Instance secret_credential_store : OAuthCredentialStore secret_store :=
  {| credential_save := secret_save; credential_get := secret_get |}.
End secret_manager.

Arguments secret_store : clear implicits.

(** ** [OAuth2Provider] *)

(** What a request to the token endpoint ends with: a body, an HTTP error with
    its reason and body, or a transport error. *)
Inductive http_reply :=
  | H_ok (body : string)
  | H_error (status : Z) (reason : string) (body : option string)
  | H_transport (message : string).

Section provider.
Context {IL : IpLiteral} {SD : Sha256Bytes} {PS : PyStr} {BP : BodyParse}.
Context {S C W : Type} {SS : OAuth2StateStore S} {CS : OAuthCredentialStore C}.
(** [urlopen] of a POST to a URL with a body and headers. *)
Context (post : string -> string -> list (string * string) -> M W http_reply).

(** [OAuth2Provider.__init__] *)
Definition new_provider (cfg : OAuth2Config) : outcome OAuth2Config :=
  _ <-? config_validate cfg ;; Ret cfg.

(** A process with the providers it holds: the state store they share, the PKCE
    verifiers by provider and state, the credential store, and the texts
    [token_urlsafe] returns. *)
Record oauth_world := mkOAuthWorld {
  ow_states : S;
  ow_verifiers : gmap (string * string) string;
  ow_credentials : C;
  ow_secrets : nat -> string;
  ow_drawn : nat;
  ow_env : Env;
  ow_service : W }.

Definition with_states x s := mkOAuthWorld x (ow_verifiers s) (ow_credentials s) (ow_secrets s) (ow_drawn s) (ow_env s) (ow_service s).
Definition with_verifiers x s := mkOAuthWorld (ow_states s) x (ow_credentials s) (ow_secrets s) (ow_drawn s) (ow_env s) (ow_service s).
Definition with_credentials x s := mkOAuthWorld (ow_states s) (ow_verifiers s) x (ow_secrets s) (ow_drawn s) (ow_env s) (ow_service s).
Definition with_drawn x s := mkOAuthWorld (ow_states s) (ow_verifiers s) (ow_credentials s) (ow_secrets s) x (ow_env s) (ow_service s).
Definition with_oauth_env x s := mkOAuthWorld (ow_states s) (ow_verifiers s) (ow_credentials s) (ow_secrets s) (ow_drawn s) x (ow_service s).
Definition with_service x s := mkOAuthWorld (ow_states s) (ow_verifiers s) (ow_credentials s) (ow_secrets s) (ow_drawn s) (ow_env s) x.

Definition on_states {A} (m : M S A) : M oauth_world A := fun s =>
  let '(o, x) := m (ow_states s) in (o, with_states x s).
Definition on_credentials {A} (m : M C A) : M oauth_world A := fun s =>
  let '(o, x) := m (ow_credentials s) in (o, with_credentials x s).
Definition on_service {A} (m : M W A) : M oauth_world A := fun s =>
  let '(o, x) := m (ow_service s) in (o, with_service x s).

Definition oauth_now : M oauth_world datetime := fun s =>
  let '(t, e) := utc_now (ow_env s) in (Ret t, with_oauth_env e s).

Definition token_urlsafe : M oauth_world string := fun s =>
  (Ret (ow_secrets s (ow_drawn s)), with_drawn (Datatypes.S (ow_drawn s)) s).

(** [x or y] for texts. *)
Definition given (o : option string) : option string :=
  match o with Some s => if empty s then None else Some s | None => None end.

Definition code_challenge (verifier : string) : string := b64 true false (sha256_bytes verifier).

(** [authorization_url]: the URL and the state, under the name [key] of the
    provider. *)
Definition authorization_url (key : string) (cfg : OAuth2Config) (tenant_id workspace_id : string)
    (state : option string) : M oauth_world (string * string) :=
  state_value <- match given state with Some s => ret s | None => token_urlsafe end ;;
  now <- oauth_now ;;
  expires_at <- lift (add_seconds now (oc_state_ttl_seconds cfg)) ;;
  on_states (state_put state_value (mkOAuthState (oc_provider cfg) tenant_id workspace_id expires_at)) ;;;
  let params := dict_of [(oc_client_id_param cfg, oc_client_id cfg);
                         ("redirect_uri", oc_redirect_uri cfg);
                         ("response_type", "code");
                         ("scope", join (oc_scope_separator cfg) (oc_scopes cfg));
                         ("state", state_value)] in
  params <- (if oc_use_pkce cfg then
               verifier <- token_urlsafe ;;
               modify (fun s => with_verifiers (<[(key, state_value) := verifier]> (ow_verifiers s)) s) ;;;
               ret (update params [("code_challenge", code_challenge verifier);
                                   ("code_challenge_method", oc_pkce_method cfg)])
             else ret params) ;;
  let params := update params (dict_of (oc_authorization_params cfg)) in
  ret (oc_authorization_url cfg +:+ "?" +:+ urlencode params, state_value).

Definition validate_state (cfg : OAuth2Config) (state tenant_id workspace_id : string) : M oauth_world unit :=
  now <- oauth_now ;;
  ok <- on_states (state_consume now state (oc_provider cfg) tenant_id workspace_id) ;;
  if ok : bool then ret tt else throw (Exn PermissionError "invalid or replayed OAuth2 state").

(** [_token_request]: a token, or the structured error. *)
Definition token_headers (cfg : OAuth2Config) : list (string * string) :=
  [("Content-Type", "application/x-www-form-urlencoded"); ("Accept", "application/json")] ++
  if String.eqb (oc_token_auth_method cfg) "client_secret_basic"
  then [("Authorization", "Basic " +:+ b64 false true (oc_client_id cfg +:+ ":" +:+ oc_client_secret cfg))]
  else [].

Definition token_request (cfg : OAuth2Config) (fields : list (string * string)) (operation : string)
    (refresh_token : option string) : M oauth_world (OAuth2Token + OAuth2Error) :=
  let failure category message code status retryable :=
    inr (mkOAuthError (oc_provider cfg) operation category message code status retryable) in
  reply <- on_service (post (oc_token_url cfg) (urlencode fields) (token_headers cfg)) ;;
  match reply with
  | H_error status reason body =>
      let payload := error_payload body in
      let unavailable := (500 <=? status)%Z || (status =? 429)%Z in
      ret (failure (if unavailable then "provider_unavailable" else "provider_rejected")
             (default reason (given (error_description payload))) (error_code payload) (Some status) unavailable)
  | H_transport message => ret (failure "transport" message None None true)
  | H_ok body =>
      match parse_body body with
      | None => ret (failure "invalid_response" "OAuth2 token endpoint returned an invalid JSON response"
                       None None true)
      | Some (VDict payload) => fun s =>
          let '(now, e) := utc_now (ow_env s) in
          match from_payload payload refresh_token (oc_response_scope_separator cfg) now with
          | Ret t => (Ret (inl t), with_oauth_env e s)
          | Raise x => (Ret (failure "invalid_response" (exn_msg x) None None false), s)
          end
      | Some _ => ret (failure "invalid_response" (oc_provider cfg +:+ " OAuth2 token response is invalid")
                         None None true)
      end
  end.

(** The secret goes into the body for [client_secret_post]. *)
Definition secret_field (cfg : OAuth2Config) : list (string * string) :=
  if String.eqb (oc_token_auth_method cfg) "client_secret_post"
  then [(oc_client_secret_param cfg, oc_client_secret cfg)] else [].

(** [self._pkce_verifiers.pop(state, None) if state else None] *)
Definition pop_verifier (key : string) (state : option string) : M oauth_world (option string) := fun s =>
  match given state with
  | None => (Ret None, s)
  | Some st => (Ret (ow_verifiers s !! (key, st)), with_verifiers (delete (key, st) (ow_verifiers s)) s)
  end.

Definition exchange_code (key : string) (cfg : OAuth2Config) (code : string)
    (state code_verifier : option string) : M oauth_world (OAuth2Token + OAuth2Error) :=
  if empty code then throw (Exn ValueError "OAuth2 authorization code is required")
  else
    verifier <- match given code_verifier with Some v => ret (Some v) | None => pop_verifier key state end ;;
    let verifier := given verifier in
    if oc_use_pkce cfg && negb (bool_decide (is_Some verifier))
    then throw (Exn ValueError "PKCE code_verifier is required")
    else
      let fields := dict_of ([(oc_client_id_param cfg, oc_client_id cfg); ("code", code);
                              ("grant_type", "authorization_code"); ("redirect_uri", oc_redirect_uri cfg)] ++
                             match verifier with Some v => [("code_verifier", v)] | None => [] end ++
                             secret_field cfg) in
      token_request cfg fields "authorization_code" None.

Definition refresh (cfg : OAuth2Config) (refresh_token : string) : M oauth_world (OAuth2Token + OAuth2Error) :=
  if empty refresh_token then throw (Exn ValueError "OAuth2 refresh token is required")
  else
    let fields := dict_of ([(oc_client_id_param cfg, oc_client_id cfg); ("grant_type", "refresh_token");
                            ("refresh_token", refresh_token)] ++ secret_field cfg) in
    token_request cfg fields "refresh_token" (Some refresh_token).

(** A caller that does not catch [OAuth2Error]. *)
Definition or_raise (m : M oauth_world (OAuth2Token + OAuth2Error)) : M oauth_world OAuth2Token :=
  x <- m ;; match x with inl t => ret t | inr e => throw (oauth_exn e) end.

(** ** [OAuth2SourceConnection] *)

Record OAuth2SourceConnection := mkConnection {
  cx_providers : list (string * OAuth2Config);
  cx_refresh_skew_seconds : Z }.

Definition new_connection (providers : list (string * OAuth2Config)) (skew : Z) : outcome OAuth2SourceConnection :=
  if (skew <? 0)%Z then raise ValueError "refresh_skew_seconds cannot be negative"
  else Ret (mkConnection providers skew).

Definition provider_of (c : OAuth2SourceConnection) (provider : string) : outcome OAuth2Config :=
  match dget provider (cx_providers c) with
  | Some cfg => Ret cfg
  | None => raise KeyError ("OAuth provider not configured: " +:+ provider)
  end.

(** [_record]; an empty refresh token or scope falls back. *)
Definition credential_record (credential_id tenant_id workspace_id provider : string) (token : OAuth2Token)
    (fallback_scopes : list string) (fallback_refresh_token : option string) :
    outcome OAuthCredentialRecord :=
  expires_at <-? token_expires_at token ;;
  Ret (mkOAuthCredential credential_id tenant_id workspace_id provider (tk_access_token token)
         (match given (tk_refresh_token token) with Some t => Some t | None => fallback_refresh_token end)
         (tk_token_type token)
         (match tk_scope token with [] => fallback_scopes | l => l end)
         (tk_obtained_at token) expires_at).

Definition begin (c : OAuth2SourceConnection) (provider tenant_id workspace_id : string) :
    M oauth_world (string * string) :=
  cfg <- lift (provider_of c provider) ;;
  authorization_url provider cfg tenant_id workspace_id None.

Definition complete (c : OAuth2SourceConnection)
    (provider tenant_id workspace_id state code credential_id : string) : M oauth_world CredentialRef :=
  if empty credential_id then throw (Exn ValueError "credential_id is required")
  else
    cfg <- lift (provider_of c provider) ;;
    validate_state cfg state tenant_id workspace_id ;;;
    token <- or_raise (exchange_code provider cfg code None None) ;;
    record <- lift (credential_record credential_id tenant_id workspace_id provider token [] None) ;;
    on_credentials (credential_save record) ;;;
    ret (credential_ref record).

Definition refresh_record (c : OAuth2SourceConnection) (current : OAuthCredentialRecord) :
    M oauth_world OAuthCredentialRecord :=
  match given (ou_refresh_token current) with
  | None => throw (Exn ValueError "OAuth credential has no refresh token")
  | Some refresh_token =>
      cfg <- lift (provider_of c (ou_provider current)) ;;
      token <- or_raise (refresh cfg refresh_token) ;;
      updated <- lift (credential_record (ou_credential_id current) (ou_tenant_id current)
                         (ou_workspace_id current) (ou_provider current) token (ou_scopes current)
                         (Some refresh_token)) ;;
      on_credentials (credential_save updated) ;;;
      ret updated
  end.

Definition connection_refresh (c : OAuth2SourceConnection)
    (provider tenant_id workspace_id credential_id : string) : M oauth_world CredentialRef :=
  current <- on_credentials (credential_get credential_id tenant_id workspace_id provider) ;;
  updated <- refresh_record c current ;;
  ret (credential_ref updated).

(** [ingest]: what [socket.ingest] does with a source, a tenant, a workspace and
    a credential is the socket's own.  [is_expired] reads the clock when the
    credential expires. *)
Definition connection_ingest {A} (socket_ingest : string -> string -> string -> string -> M oauth_world A)
    (c : OAuth2SourceConnection) (provider source_id tenant_id workspace_id credential_id : string) :
    M oauth_world A :=
  current <- on_credentials (credential_get credential_id tenant_id workspace_id provider) ;;
  expired <- (match ou_expires_at current with
              | None => ret false
              | Some _ => now <- oauth_now ;; lift (is_expired now (cx_refresh_skew_seconds c) current)
              end) ;;
  current <- (if expired : bool then refresh_record c current else ret current) ;;
  socket_ingest source_id (ou_tenant_id current) (ou_workspace_id current) (ou_credential_id current).

(** ** [OAuth2ProviderRegistry] *)

Definition registry_add (cfg : OAuth2Config) (r : list (string * OAuth2Config)) :
    outcome (list (string * OAuth2Config)) :=
  match dget (oc_provider cfg) r with
  | Some _ => raise ValueError ("OAuth2 provider already registered: " +:+ oc_provider cfg)
  | None => Ret (dset (oc_provider cfg) cfg r)
  end.

Fixpoint new_provider_registry (providers : list OAuth2Config) (r : list (string * OAuth2Config)) :
    outcome (list (string * OAuth2Config)) :=
  match providers with
  | [] => Ret r
  | cfg :: l => r <-? registry_add cfg r ;; new_provider_registry l r
  end.

Definition registry_get (provider : string) (r : list (string * OAuth2Config)) : outcome OAuth2Config :=
  match dget provider r with
  | Some cfg => Ret cfg
  | None => raise KeyError ("OAuth2 provider not registered: " +:+ provider)
  end.

Definition registry_names (r : list (string * OAuth2Config)) : list string := sorted_strings (dkeys r).
End provider.

Arguments oauth_world : clear implicits.
