(* ===== verification/OAuthTheorems.v ===== *)
(** * Theorems about OAuth 2.0 connections

    The authorization URL says what the provider asked for; a state is accepted
    at most once for each time it was issued, and only where it was issued; a
    credential is used for its own tenant and workspace and survives its
    refreshes; the secret store returns what was saved.  And where the parts do
    not fit: a connection with PKCE never completes, an exchange that failed
    cannot be retried, and a credential without scopes cannot be read back. *)

From stdpp Require Import base gmap strings list pretty.
From Stdlib Require Import ZArith Lia Ascii.
From S2P Require Import Prelude Samples SourceGateway SourceAdapters OAuth2.
Local Open Scope py_scope.

(** ** The query of the authorization URL

    [parse_query] is the reference decoder of a query. *)

#[local] Arguments has_code : simpl never.

Fixpoint split_char (p : ascii -> bool) (s : string) : list string :=
  match s with
  | EmptyString => [""]
  | String a s =>
      if p a then "" :: split_char p s
      else match split_char p s with
           | x :: l => String a x :: l
           | [] => [String a ""]
           end
  end.

Definition hex_value (a : ascii) : nat := (if is_digit a then code a - 48 else code a - 55)%nat.

Fixpoint unquote_plus (s : string) : string :=
  match s with
  | EmptyString => ""
  | String a s' =>
      if has_code 37 a then
        match s' with
        | String x (String y s) => String (ascii_of_nat (hex_value x * 16 + hex_value y)) (unquote_plus s)
        | _ => ""
        end
      else String (if has_code 43 a then " "%char else a) (unquote_plus s')
  end.

Definition parse_pair (s : string) : string * string :=
  let '(k, v) := break_at (has_code 61) s in (unquote_plus k, unquote_plus (default "" v)).

Definition parse_query (s : string) : list (string * string) :=
  map parse_pair (split_char (has_code 38) s).

(** A property of every character. *)
Lemma all_ascii (p : ascii -> bool) :
  forallb (fun n => p (ascii_of_nat n)) (seq 0 256) = true -> forall a, p a = true.
Proof.
  intros H a. rewrite <- (ascii_nat_embedding a). rewrite forallb_forall in H. apply H.
  apply in_seq. pose proof (nat_ascii_bounded a). lia.
Qed.

Definition quoted_char (a : ascii) : string := quote_plus (String a "").

Lemma quote_plus_cons a s : quote_plus (String a s) = quoted_char a +:+ quote_plus s.
Proof.
  unfold quoted_char. cbn [quote_plus].
  by destruct (unreserved a); [|destruct (has_code 32 a)].
Qed.

Lemma unquote_quoted_char a s : unquote_plus (quoted_char a +:+ s) = String a (unquote_plus s).
Proof.
  assert (match quoted_char a with
          | String b "" => negb (has_code 37 b) && Ascii.eqb (if has_code 43 b then " "%char else b) a
          | String b (String x (String y "")) =>
              has_code 37 b && Ascii.eqb (ascii_of_nat (hex_value x * 16 + hex_value y)) a
          | _ => false
          end = true) as H.
  { revert a. apply all_ascii. vm_compute. reflexivity. }
  destruct (quoted_char a) as [|b [|x [|y [|]]]]; try done; apply andb_true_iff in H as [Hb Ha];
    apply Ascii.eqb_eq in Ha.
  - apply negb_true_iff in Hb. change (String b "" +:+ s) with (String b s). cbn [unquote_plus].
    by rewrite Hb, Ha.
  - change (String b (String x (String y "")) +:+ s) with (String b (String x (String y s))).
    cbn [unquote_plus]. by rewrite Hb, Ha.
Qed.

Lemma unquote_quote s : unquote_plus (quote_plus s) = s.
Proof. induction s as [|a s IH]; [done|]. by rewrite quote_plus_cons, unquote_quoted_char, IH. Qed.

(** Quoted text has neither of the separators. *)
Definition separator (a : ascii) : bool := has_code 38 a || has_code 61 a.

Lemma string_app_cons a s t : String a s +:+ t = String a (s +:+ t).
Proof. done. Qed.

Lemma string_app_nil t : "" +:+ t = t.
Proof. done. Qed.

Lemma has_char_app p s t : has_char p (s +:+ t) = has_char p s || has_char p t.
Proof. induction s as [|a s IH]; [done|]. rewrite string_app_cons. cbn. by rewrite IH, orb_assoc. Qed.

Lemma quote_plus_plain s : has_char separator (quote_plus s) = false.
Proof.
  induction s as [|a s IH]; [done|]. rewrite quote_plus_cons, has_char_app, IH, orb_false_r.
  apply negb_true_iff. revert a. apply all_ascii. vm_compute. reflexivity.
Qed.

Lemma plain_of p s : (forall a, p a = true -> separator a = true) ->
  has_char separator s = false -> has_char p s = false.
Proof.
  intros Hp. induction s as [|a s IH]; [done|]. cbn. rewrite !orb_false_iff. intros [Ha Hs].
  split; [|by apply IH]. destruct (p a) eqn:E; [|done]. apply Hp in E. congruence.
Qed.

Lemma break_at_app p s a t : has_char p s = false -> p a = true ->
  break_at p (s +:+ String a t) = (s, Some t).
Proof.
  intros Hs Ha. induction s as [|b s IH]; [rewrite string_app_nil; cbn; by rewrite Ha|]. rewrite string_app_cons. cbn in Hs |- *.
  apply orb_false_iff in Hs as [Hb Hs]. by rewrite Hb, IH.
Qed.

Lemma split_char_plain p s : has_char p s = false -> split_char p s = [s].
Proof.
  induction s as [|a s IH]; [done|]. cbn. rewrite orb_false_iff. intros [-> Hs]. by rewrite IH.
Qed.

Lemma split_char_app p s a t : has_char p s = false -> p a = true ->
  split_char p (s +:+ String a t) = s :: split_char p t.
Proof.
  intros Hs Ha. induction s as [|b s IH]; [rewrite string_app_nil; cbn; by rewrite Ha|]. rewrite string_app_cons. cbn in Hs |- *.
  apply orb_false_iff in Hs as [Hb Hs]. by rewrite Hb, IH.
Qed.

Lemma split_char_join p (a : ascii) l : p a = true -> l <> [] ->
  Forall (fun s => has_char p s = false) l -> split_char p (join (String a "") l) = l.
Proof.
  intros Ha Hne Hl. induction Hl as [|s l Hs Hl IH]; [done|]. destruct l as [|s' l].
  - by apply split_char_plain.
  - change (join (String a "") (s :: s' :: l)) with (s +:+ String a (join (String a "") (s' :: l))).
    rewrite split_char_app by done. by rewrite IH.
Qed.

Lemma parse_urlencode d : d <> [] -> parse_query (urlencode d) = d.
Proof.
  intros Hd. unfold parse_query, urlencode.
  rewrite (split_char_join (has_code 38) "&"%char); [|done|by destruct d|].
  - rewrite map_map. rewrite <- (map_id d) at 2. apply map_ext. intros [k v]. unfold parse_pair. cbn [fst snd].
    change ("=" +:+ quote_plus v) with (String "=" (quote_plus v)).
    rewrite break_at_app; [cbn [default from_option id]; by rewrite !unquote_quote| |done].
    apply plain_of; [|apply quote_plus_plain]. intros a Ha. unfold separator. by rewrite Ha, orb_true_r.
  - apply Forall_forall. intros s (kv & <- & _)%list_elem_of_In%in_map_iff.
    assert (forall t, has_char (has_code 38) (quote_plus t) = false) as Hq.
    { intros t. apply plain_of; [intros a Ha; unfold separator; by rewrite Ha|apply quote_plus_plain]. }
    by rewrite !has_char_app, !Hq.
Qed.

(** ** What the stores promise *)

Definition matches_state (provider tenant_id workspace_id : string) (now : datetime) (v : OAuth2State) : Prop :=
  os_provider v = provider /\ os_tenant_id v = tenant_id /\ os_workspace_id v = workspace_id /\
  (now < os_expires_at v)%Z.

(** [state_view]: the state a store holds under a text.  A call may raise. *)
Class OAuth2StateLaws (S : Type) `{OAuth2StateStore S} := {
  state_view : S -> string -> option OAuth2State;
  law_put k v s : let '(o, s') := state_put k v s in
    (forall k', k' <> k -> state_view s' k' = state_view s k') /\
    state_view s' k = match o with Ret _ => Some v | Raise _ => state_view s k end;
  law_consume now k p t w s : let '(o, s') := state_consume now k p t w s in
    (forall k', k' <> k -> state_view s' k' = state_view s k') /\
    (state_view s' k = state_view s k \/ state_view s' k = None) /\
    (o = Ret true -> state_view s' k = None /\
                     exists v, state_view s k = Some v /\ matches_state p t w now v) /\
    (o = Ret false -> forall v, state_view s k = Some v -> ~ matches_state p t w now v) }.

#[export, program] Instance memory_state_laws : OAuth2StateLaws memory_states :=
  {| state_view m k := m !! k |}.
Next Obligation.
  intros k v m. split; [|by rewrite lookup_insert_eq]. intros k' Hk. by rewrite lookup_insert_ne.
Qed.
Next Obligation.
  intros now k p t w m. cbn [state_consume memory_state_store]. unfold memory_consume, matches_state.
  destruct (m !! k) as [v|] eqn:E; [destruct (Z.leb_spec (os_expires_at v) now)|].
  - split; [intros k' Hk; by rewrite lookup_delete_ne|]. rewrite lookup_delete_eq.
    split; [by right|]. split; [done|]. intros _ v' [= <-]. lia.
  - destruct (String.eqb_spec (os_provider v) p), (String.eqb_spec (os_tenant_id v) t),
      (String.eqb_spec (os_workspace_id v) w); cbn [negb andb];
      (split; [intros k' Hk; try done; by rewrite lookup_delete_ne|]);
      rewrite ?lookup_delete_eq; (split; [auto|]); (split; [|intros Hf v' [= <-]; by naive_solver]);
      intros Ht; try done. split; [done|]. by exists v.
  - split; [done|]. split; [by left|]. split; [done|]. by intros _ v'.
Qed.

(** A credential that was saved is read back in its scope, when the store can
    represent it; [credential_get] gives nothing outside the scope asked for
    and changes nothing. *)
Class OAuthCredentialLaws (C : Type) `{OAuthCredentialStore C} := {
  representable : OAuthCredentialRecord -> Prop;
  credential_held : C -> OAuthCredentialRecord -> Prop;
  law_get i t w p c : match credential_get i t w p c with
                      | (Ret r, c') => c' = c /\ in_scope t w p r = true
                      | (Raise _, c') => c' = c
                      end;
  law_save r c c' : credential_save r c = (Ret tt, c') -> representable r -> credential_held c' r;
  law_held r c t w p : credential_held c r -> in_scope t w p r = true ->
    credential_get (ou_credential_id r) t w p c = (Ret r, c) }.

#[export, program] Instance memory_credential_laws : OAuthCredentialLaws memory_credentials :=
  {| representable _ := True; credential_held m r := m !! ou_credential_id r = Some r |}.
Next Obligation.
  intros i t w p m. cbn. unfold memory_get. destruct (m !! i) as [r|]; [|done].
  by destruct (in_scope t w p r) eqn:E.
Qed.
Next Obligation. intros r m m' [= <-] _. by rewrite lookup_insert_eq. Qed.
Next Obligation. intros r m t w p Hr Hs. cbn. unfold memory_get. by rewrite Hr, Hs. Qed.

(** ** The secret store *)

(** A backend that returns what was last written under a key. *)
Class SecretBackendLaws (B : Type) `{SecretBackend B} := {
  secret_view : B -> string -> option dict;
  law_read k b : secret_read k b = (Ret (secret_view b k), b);
  law_write k v b : let '(o, b') := secret_write k v b in
    (forall k', k' <> k -> secret_view b' k' = secret_view b k') /\
    secret_view b' k = match o with Ret _ => Some v | Raise _ => secret_view b k end }.

Section secrets.
Context {IF : IsoFormat} {PS : PyStr} {B : Type} {SB : SecretBackend B} {SL : SecretBackendLaws B}.
Hypothesis isoformat_text : forall t, isoformat t <> "".

(** The fields [_deserialize] insists on. *)
Definition complete_record (r : OAuthCredentialRecord) : bool :=
  negb (empty (ou_credential_id r)) && negb (empty (ou_tenant_id r)) && negb (empty (ou_workspace_id r)) &&
  negb (empty (ou_provider r)) && negb (empty (ou_access_token r)) && negb (empty (ou_token_type r)) &&
  negb (bool_decide (ou_scopes r = [])).

Lemma truthy_str s : truthy (VStr s) = negb (empty s).
Proof. cbn [truthy]. f_equal. unfold empty. case_bool_decide; by destruct (String.eqb_spec s ""). Qed.

Lemma read_optional_iso o : read_time (optional_iso o) = Ret o.
Proof.
  destruct o as [t|]; [|done]. unfold read_time, optional_iso. cbn [fmap option_fmap option_map optional_text].
  rewrite truthy_str. unfold empty, to_str. destruct (String.eqb_spec (isoformat t) "") as [E|_];
    [by destruct (isoformat_text t)|]. cbn [negb py_str default from_option id]. by rewrite fromisoformat_isoformat.
Qed.

Lemma mapM_as_str (l : list string) : mapM as_str (VStr <$> l) = Some l.
Proof. apply mapM_Some. induction l; by constructor. Qed.

(** Reading back what was written. *)
Lemma deserialize_serialize r : ou_refresh_token r <> Some "" ->
  deserialize (serialize r) =
  if complete_record r then Ret r
  else raise ValueError "OAuth secret backend returned an incomplete credential record".
Proof.
  intros Hr. unfold deserialize, complete_record. cbn [existsb].
  change (dget_or "credential_id" VNone (serialize r)) with (VStr (ou_credential_id r)).
  change (dget_or "tenant_id" VNone (serialize r)) with (VStr (ou_tenant_id r)).
  change (dget_or "workspace_id" VNone (serialize r)) with (VStr (ou_workspace_id r)).
  change (dget_or "provider" VNone (serialize r)) with (VStr (ou_provider r)).
  change (dget_or "access_token" VNone (serialize r)) with (VStr (ou_access_token r)).
  change (dget_or "token_type" VNone (serialize r)) with (VStr (ou_token_type r)).
  change (dget_or "refresh_token" VNone (serialize r)) with (optional_text (ou_refresh_token r)).
  change (dget_or "scopes" VNone (serialize r)) with (VList (VStr <$> ou_scopes r)).
  change (dget_or "obtained_at" VNone (serialize r)) with (optional_iso (ou_obtained_at r)).
  change (dget_or "expires_at" VNone (serialize r)) with (optional_iso (ou_expires_at r)).
  rewrite !truthy_str, !negb_involutive, !read_optional_iso, mapM_as_str.
  assert (truthy (VList (VStr <$> ou_scopes r)) = negb (bool_decide (ou_scopes r = []))) as ->.
  { cbn [truthy]. f_equal. by destruct (ou_scopes r). }
  match goal with |- context[if ?b then raise _ _ else _] =>
    match goal with |- context[if ?c then Ret r else _] => assert (b = negb c) as -> end end.
  { by rewrite !negb_andb, !negb_involutive, orb_false_r, !orb_assoc. }
  destruct (_ && _); cbn [negb]; [|done]. cbn [out_bind to_str py_str default from_option id].
  f_equal. destruct r as [i t w p a rt ty sc ob ex]. cbn in *. f_equal.
  destruct rt as [x|]; [|done]. unfold optional_text. rewrite truthy_str. unfold empty.
  destruct (String.eqb_spec x ""); [congruence|done].
Qed.

(** What a successful [save] leaves under the key of the credential. *)
Lemma secret_save_writes r s s1 : secret_save r s = (Ret tt, s1) ->
  exists k, secret_key (ss_prefix s1) (ou_credential_id r) = Ret k /\
            secret_view (ss_backend s1) k = Some (serialize r).
Proof.
  unfold secret_save. destruct (secret_key (ss_prefix s) (ou_credential_id r)) as [k|e] eqn:Ek; [|done].
  unfold on_backend. pose proof (law_write k (serialize r) (ss_backend s)) as Hw.
  destruct (secret_write k (serialize r) (ss_backend s)) as [[[]|e] b]; [|done]. intros [= <-].
  exists k. split; [done|]. apply Hw.
Qed.

(** What [get] makes of a credential that was written. *)
Lemma secret_get_written r k s t w p : ou_refresh_token r <> Some "" ->
  secret_key (ss_prefix s) (ou_credential_id r) = Ret k -> secret_view (ss_backend s) k = Some (serialize r) ->
  secret_get (ou_credential_id r) t w p s =
    (if negb (complete_record r)
     then raise ValueError "OAuth secret backend returned an incomplete credential record"
     else if in_scope t w p r then Ret r else outside_scope, s).
Proof.
  intros Hr Hk Hv. unfold secret_get, bind, on_backend, lift. rewrite Hk, law_read, Hv.
  assert (mkSecretStore (ss_prefix s) (ss_backend s) = s) as -> by by destruct s.
  rewrite deserialize_serialize by done. destruct (complete_record r); cbn [negb]; [|done].
  rewrite String.eqb_refl. cbn [andb]. by destruct (in_scope t w p r).
Qed.

(** C29. What the secret-manager store saved is read back unchanged, times
    included, by any caller of its tenant, workspace and provider family, as
    long as its required texts are not empty and it has a scope; a credential that
    lacks one of them is saved all the same and can then be read by nobody.  The
    refresh token is absent or not empty: an empty one is read back as absent. *)
Theorem secret_store_roundtrip (r : OAuthCredentialRecord) (s s1 : secret_store B) (t w p : string)
    (Hrefresh : ou_refresh_token r <> Some "")
    (Hsave : secret_save r s = (Ret tt, s1)) :
  let '(o, s2) := secret_get (ou_credential_id r) t w p s1 in
  s2 = s1 /\
  (o = Ret r <-> complete_record r = true /\ in_scope t w p r = true) /\
  (complete_record r = false -> exists m, o = Raise (Exn ValueError m)) /\
  (complete_record r = true -> in_scope t w p r = false -> exists m, o = Raise (Exn PermissionError m)).
Proof.
  destruct (secret_save_writes _ _ _ Hsave) as (k & Hk & Hv).
  rewrite (secret_get_written r k) by done. split; [done|].
  destruct (complete_record r), (in_scope t w p r); cbn [negb]; unfold outside_scope, raise; naive_solver.
Qed.

#[export, program] Instance secret_credential_laws : OAuthCredentialLaws (secret_store B) :=
  {| representable r := complete_record r = true /\ ou_refresh_token r <> Some "";
     credential_held s r := forall t w p, in_scope t w p r = true ->
       secret_get (ou_credential_id r) t w p s = (Ret r, s) |}.
Next Obligation.
  intros i t w p s. cbn [credential_get secret_credential_store]. unfold secret_get.
  destruct (secret_key (ss_prefix s) i) as [k|e]; [|done]. unfold bind, on_backend, lift. rewrite law_read.
  assert (mkSecretStore (ss_prefix s) (ss_backend s) = s) as -> by by destruct s.
  destruct (secret_view (ss_backend s) k) as [d|]; [|done].
  destruct (deserialize d) as [r|e]; [|done].
  destruct (String.eqb (ou_credential_id r) i); cbn [andb negb]; [|done].
  by destruct (in_scope t w p r) eqn:E.
Qed.
Next Obligation.
  intros r s s' Hsave [Hc Hr] t w p Hs. destruct (secret_save_writes _ _ _ Hsave) as (k & Hk & Hv).
  by rewrite (secret_get_written r k), Hc, Hs.
Qed.
Next Obligation. intros r s t w p Hr Hs. by apply Hr. Qed.
End secrets.

(** ** Authorization *)

Section authorization.
Context {SD : Sha256Bytes} {S C W : Type} {SS : OAuth2StateStore S} {SL : OAuth2StateLaws S}.
Implicit Types (s : oauth_world S C W) (cfg : OAuth2Config).

(** The state an authorization uses. *)
Definition state_of (state : option string) s : string :=
  match given state with Some x => x | None => ow_secrets s (ow_drawn s) end.

Definition issue_time s : datetime := fst (utc_now (ow_env s)).

(** An authorization either stores the state it returns, or fails to. *)
Lemma authorization_url_states key cfg tenant workspace state s :
  let '(o, s') := authorization_url key cfg tenant workspace state s in
  let st := state_of state s in
  let expires := (issue_time s + oc_state_ttl_seconds cfg * 1000000)%Z in
  (forall k, k <> st -> state_view (ow_states s') k = state_view (ow_states s) k) /\
  match o with
  | Ret (_, st') => st' = st /\ state_view (ow_states s') st =
                      Some (mkOAuthState (oc_provider cfg) tenant workspace expires)
  | Raise _ => state_view (ow_states s') st = state_view (ow_states s) st
  end.
Proof.
  unfold authorization_url, state_of, issue_time. destruct s as [x v c sec d e w].
  set (st := match given state with Some y => y | None => sec d end).
  assert (exists d', (match given state with Some y => ret y | None => token_urlsafe end)
            (mkOAuthWorld x v c sec d e w) = (Ret st, mkOAuthWorld x v c sec d' e w)) as [d' Hst].
  { subst st. destruct (given state) as [y|]; by eexists. }
  unfold bind. rewrite Hst. unfold oauth_now, with_oauth_env, lift, add_seconds.
  cbn [ow_env ow_states ow_secrets ow_drawn utc_now fst].
  destruct (last_instant <? _)%Z; [done|]. unfold on_states. cbn [ow_states].
  match goal with |- context[state_put st ?v x] => pose proof (law_put st v x) as Hp; destruct (state_put st v x) as [[[]|e'] x'] end.
  2:{ cbn. naive_solver. }
  destruct (oc_use_pkce cfg); cbn; naive_solver.
Qed.

Lemma validate_state_spec cfg state tenant workspace s :
  let '(o, s') := validate_state cfg state tenant workspace s in
  (forall k, k <> state -> state_view (ow_states s') k = state_view (ow_states s) k) /\
  (state_view (ow_states s') state = state_view (ow_states s) state \/
   state_view (ow_states s') state = None) /\
  (o = Ret tt -> state_view (ow_states s') state = None /\
     exists v, state_view (ow_states s) state = Some v /\
               matches_state (oc_provider cfg) tenant workspace (issue_time s) v) /\
  exists x e, s' = with_oauth_env e (with_states x s).
Proof.
  unfold validate_state, issue_time, bind, oauth_now, on_states. destruct s as [x v c sec d e w].
  cbn [ow_env ow_states utc_now fst]. cbn [with_oauth_env ow_states].
  match goal with |- context[state_consume ?n ?k ?p ?t ?ws x] =>
    pose proof (law_consume n k p t ws x) as Hc; destruct (state_consume n k p t ws x) as [[[]|e'] x'] end;
    destruct Hc as (H1 & H2 & H3 & _); cbn; (split; [done|]); (split; [done|]); (split; [|by eexists _, _]).
  - intros _. by apply H3.
  - done.
  - done.
Qed.

(** What happens to the states of a store: [Issued] by an authorization,
    [Accepted] by a validation that returned. *)
Inductive state_event :=
  | Issued (state provider tenant workspace : string) (expires : datetime)
  | Accepted (state provider tenant workspace : string) (at_time : datetime).

Definition event_state (e : state_event) : string :=
  match e with Issued st _ _ _ _ | Accepted st _ _ _ _ => st end.

(** The processes that share the store authorize and validate; everything else
    they do leaves the store alone. *)
Inductive oauth_step : oauth_world S C W -> option state_event -> oauth_world S C W -> Prop :=
  | os_authorize key cfg tenant workspace state s :
      oauth_step s
        (match fst (authorization_url key cfg tenant workspace state s) with
         | Ret (_, st) => Some (Issued st (oc_provider cfg) tenant workspace
                                  (issue_time s + oc_state_ttl_seconds cfg * 1000000)%Z)
         | Raise _ => None
         end)
        (snd (authorization_url key cfg tenant workspace state s))
  | os_validate cfg state tenant workspace s :
      oauth_step s
        (match fst (validate_state cfg state tenant workspace s) with
         | Ret _ => Some (Accepted state (oc_provider cfg) tenant workspace (issue_time s))
         | Raise _ => None
         end)
        (snd (validate_state cfg state tenant workspace s))
  | os_elsewhere s s' : ow_states s' = ow_states s -> oauth_step s None s'.

Inductive oauth_run (s : oauth_world S C W) : list state_event -> oauth_world S C W -> Prop :=
  | or_nil : oauth_run s [] s
  | or_snoc tr s1 ev s2 : oauth_run s tr s1 -> oauth_step s1 ev s2 ->
      oauth_run s (tr ++ option_list ev) s2.

(** The last event about a state that the store holds is its issue. *)
Definition issued_last (tr : list state_event) (k : string) (v : OAuth2State) : Prop :=
  exists tr0 rest,
    tr = tr0 ++ Issued k (os_provider v) (os_tenant_id v) (os_workspace_id v) (os_expires_at v) :: rest /\
    Forall (fun e => event_state e <> k) rest.

Lemma issued_last_app tr k v tail :
  issued_last tr k v -> Forall (fun e => event_state e <> k) tail -> issued_last (tr ++ tail) k v.
Proof.
  intros (tr0 & rest & -> & Hr) Ht. exists tr0, (rest ++ tail).
  split; [by rewrite <- app_assoc|by apply Forall_app].
Qed.

Definition store_explained (tr : list state_event) (s : oauth_world S C W) : Prop :=
  forall k v, state_view (ow_states s) k = Some v -> issued_last tr k v.

Lemma oauth_step_explained tr s ev s' :
  store_explained tr s -> oauth_step s ev s' -> store_explained (tr ++ option_list ev) s'.
Proof.
  intros Hs H. destruct H as [key cfg tenant workspace state s|cfg state tenant workspace s|s s' H].
  - pose proof (authorization_url_states key cfg tenant workspace state s) as Ha.
    destruct (authorization_url key cfg tenant workspace state s) as [o s']. cbn [fst snd].
    destruct Ha as [Hother Ha]. destruct o as [[url st']|e].
    + destruct Ha as [-> Ha]. intros k v Hv. cbn [option_list]. destruct (decide (k = state_of state s)) as [->|Hk].
      * rewrite Ha in Hv. injection Hv as <-. exists tr, []. done.
      * rewrite Hother in Hv by done. apply issued_last_app; [by apply Hs|]. by repeat constructor.
    + intros k v Hv. cbn [option_list]. rewrite app_nil_r. apply Hs.
      destruct (decide (k = state_of state s)) as [->|Hk]; [by rewrite <- Ha|by rewrite <- Hother].
  - pose proof (validate_state_spec cfg state tenant workspace s) as Hc.
    destruct (validate_state cfg state tenant workspace s) as [o s']. cbn [fst snd].
    destruct Hc as (Hother & Hsame & Hok & _). intros k v Hv.
    assert (k <> state \/ o <> Ret tt) as Hne.
    { destruct (decide (k = state)) as [->|]; [right|by left]. intros Ho. apply Hok in Ho as [Ho _]. congruence. }
    assert (state_view (ow_states s) k = Some v) as Hv'.
    { destruct (decide (k = state)) as [->|]; [|by rewrite <- Hother].
      destruct Hsame as [Hsame|Hsame]; congruence. }
    apply issued_last_app; [by apply Hs|]. destruct o as [[]|e]; [|constructor].
    constructor; [|constructor]. cbn. destruct Hne as [Hne|Hne]; [congruence|done].
  - cbn [option_list]. rewrite app_nil_r. intros k v. rewrite H. apply Hs.
Qed.

Lemma oauth_run_explained s tr s' :
  (forall k, state_view (ow_states s) k = None) -> oauth_run s tr s' -> store_explained tr s'.
Proof.
  intros Hnone. induction 1 as [|tr s1 ev s2 _ IH Hstep]; [by intros k v; rewrite Hnone|].
  by eapply oauth_step_explained.
Qed.

(** C25. A state is accepted only as often as it was issued, and only where it was
    issued: whatever processes share a state store that starts empty, each
    acceptance is preceded by an authorization of the same state for the same
    provider, tenant and workspace that has not expired, with no other event
    about this state in between. *)
Theorem oauth_state_one_time s s' (tr1 tr2 : list state_event) (st p t w : string) (now : datetime)
    (Hempty : forall k, state_view (ow_states s) k = None)
    (Hrun : oauth_run s (tr1 ++ Accepted st p t w now :: tr2) s') :
  exists tr0 mid expires, tr1 = tr0 ++ Issued st p t w expires :: mid /\ (now < expires)%Z /\
    Forall (fun e => event_state e <> st) mid.
Proof.
  remember (tr1 ++ Accepted st p t w now :: tr2) as tr eqn:Etr. revert tr1 tr2 Etr.
  induction Hrun as [|tr s1 ev s2 Hrun IH Hstep]; intros tr1 tr2 Etr; [by destruct tr1|].
  destruct tr2 as [|e2 tr2 _] using rev_ind.
  - destruct ev as [ev|]; cbn [option_list] in Etr; [|by rewrite app_nil_r in Etr; eapply IH].
    apply app_inj_tail in Etr as [-> ->]. pose proof (oauth_run_explained _ _ _ Hempty Hrun) as Hex.
    inversion Hstep as [key cfg tenant workspace state s0 E0 E1 E2|cfg state tenant workspace s0 E0 E1 E2|]; subst.
    + by destruct (fst (authorization_url _ _ _ _ _ _)) as [[]|].
    + pose proof (validate_state_spec cfg state tenant workspace s1) as Hc.
      destruct (validate_state cfg state tenant workspace s1) as [[[]|e] s']; cbn [fst] in *; [|done].
      injection E1 as <- <- <- <- <-. destruct Hc as (_ & _ & Hok & _).
      destruct (Hok eq_refl) as (_ & v & Hv & Hp & Ht & Hw & Hnow).
      destruct (Hex _ _ Hv) as (tr0 & rest & -> & Hrest). exists tr0, rest, (os_expires_at v).
      by rewrite Hp, Ht, Hw.
  - destruct ev as [ev|]; cbn [option_list] in Etr.
    + rewrite app_comm_cons, app_assoc in Etr. apply app_inj_tail in Etr as [-> _]. by eapply IH.
    + rewrite app_nil_r in Etr. by eapply IH.
Qed.
End authorization.

(** ** The parameters of the authorization URL *)

Lemma dget_update_other k l (d : list (string * string)) : k ∉ dkeys l -> dget k (update d l) = dget k d.
Proof.
  unfold update. revert d. induction l as [|[k' v] l IH]; intros d Hk; [done|]. cbn [foldl fst snd].
  unfold dkeys in Hk. cbn in Hk. apply not_elem_of_cons in Hk as [Hne Hk].
  rewrite IH by done. by rewrite dget_dset_ne.
Qed.

Lemma dget_update_bound k v l (d : list (string * string)) :
  dict_ok l -> dget k l = Some v -> dget k (update d l) = Some v.
Proof.
  unfold update. revert d. induction l as [|[k' v'] l IH]; intros d Hok Hk; [done|]. cbn [foldl fst snd].
  unfold dict_ok in Hok. cbn in Hok. apply NoDup_cons in Hok as [Hnot Hok]. cbn in Hk.
  destruct (String.eqb_spec k k') as [->|Hne]; [|by apply IH].
  injection Hk as ->. rewrite (dget_update_other _ l) by done. by rewrite dget_dset_eq.
Qed.

Lemma dict_update_ok l (d : list (string * string)) : dict_ok d -> dict_ok (update d l).
Proof.
  unfold update. revert d. induction l as [|kv l IH]; intros d Hd; [done|]. by apply IH, dict_ok_dset.
Qed.

Lemma dkeys_update l (d : list (string * string)) k : k ∈ dkeys (update d l) -> k ∈ dkeys d \/ k ∈ dkeys l.
Proof.
  destruct (decide (k ∈ dkeys l)) as [|Hk]; [auto|]. rewrite <- !dget_is_Some. rewrite dget_update_other by done. auto.
Qed.

Lemma update_not_nil l (d : list (string * string)) : is_Some (dget "state" (update d l)) -> update d l <> [].
Proof. intros [v Hv] E. rewrite E in Hv. done. Qed.

(** The names the provider itself gives to parameters, the client's apart. *)
Definition reserved : list string :=
  ["redirect_uri"; "response_type"; "scope"; "state"; "code_challenge"; "code_challenge_method"].

Section url.
Context {SD : Sha256Bytes} {S C W : Type} {SS : OAuth2StateStore S}.
Implicit Types (s : oauth_world S C W) (cfg : OAuth2Config).

(** The authorization URL carries what the provider has to be told, however
    the texts have to be quoted: decoding its query gives back the state, the
    redirect URI, the scopes, the extra parameters of the configuration and, with
    PKCE, the challenge of a fresh verifier that is kept for this state, as long
    as the configuration does not use the provider's own parameter names. *)
Theorem authorization_url_query key cfg tenant workspace (state : option string) s url st s'
    (Hparams : Forall (fun k => k ∉ reserved) (dkeys (oc_authorization_params cfg)))
    (Hurl : authorization_url key cfg tenant workspace state s = (Ret (url, st), s')) :
  exists query, url = oc_authorization_url cfg +:+ "?" +:+ query /\
    let sent k := dget k (parse_query query) in
    sent "state" = Some st /\ sent "redirect_uri" = Some (oc_redirect_uri cfg) /\
    sent "response_type" = Some "code" /\ sent "scope" = Some (join (oc_scope_separator cfg) (oc_scopes cfg)) /\
    (forall k v, dget k (dict_of (oc_authorization_params cfg)) = Some v -> sent k = Some v) /\
    if oc_use_pkce cfg
    then exists verifier, ow_verifiers s' !! (key, st) = Some verifier /\
           sent "code_challenge" = Some (code_challenge verifier) /\
           sent "code_challenge_method" = Some (oc_pkce_method cfg)
    else ow_verifiers s' = ow_verifiers s.
Proof.
  assert (exists params,
    url = oc_authorization_url cfg +:+ "?" +:+ urlencode (update params (dict_of (oc_authorization_params cfg))) /\
    dget "state" params = Some st /\ dget "redirect_uri" params = Some (oc_redirect_uri cfg) /\
    dget "response_type" params = Some "code" /\
    dget "scope" params = Some (join (oc_scope_separator cfg) (oc_scopes cfg)) /\
    if oc_use_pkce cfg
    then exists verifier, ow_verifiers s' !! (key, st) = Some verifier /\
           dget "code_challenge" params = Some (code_challenge verifier) /\
           dget "code_challenge_method" params = Some (oc_pkce_method cfg)
    else ow_verifiers s' = ow_verifiers s) as (params & -> & H1 & H2 & H3 & H4 & H5).
  { revert Hurl. unfold authorization_url. destruct s as [x v c sec d e w].
    set (y := match given state with Some y => y | None => sec d end).
    assert (exists d', (match given state with Some y => ret y | None => token_urlsafe end)
              (mkOAuthWorld x v c sec d e w) = (Ret y, mkOAuthWorld x v c sec d' e w)) as [d' Hst].
    { subst y. destruct (given state) as [z|]; by eexists. }
    unfold bind. rewrite Hst. unfold oauth_now, with_oauth_env, lift, add_seconds.
    cbn [ow_env ow_states ow_secrets ow_drawn utc_now fst]. destruct (last_instant <? _)%Z; [done|].
    unfold on_states. cbn [ow_states]. destruct (state_put _ _ x) as [[u|e'] x']; [|done].
    destruct (oc_use_pkce cfg); cbn [bind token_urlsafe modify ret with_states with_drawn with_verifiers
      ow_verifiers ow_states ow_secrets ow_drawn ow_env ow_credentials ow_service]; intros [= <- <- <-]; eexists.
    - split; [done|]. unfold update, dict_of. cbn [foldl fst snd ow_verifiers].
      repeat (rewrite dget_dset_ne by done). rewrite !dget_dset_eq. split_and!; try done.
      all: try by repeat (first [rewrite dget_dset_eq | rewrite dget_dset_ne by done]).
      exists (sec d'). split; [apply lookup_insert_eq|].
      by repeat (first [rewrite dget_dset_eq | rewrite dget_dset_ne by done]).
    - split; [done|]. unfold dict_of. cbn [foldl fst snd].
      split_and!; try done; by repeat (first [rewrite dget_dset_eq | rewrite dget_dset_ne by done]). }
  assert (forall k, k ∈ reserved -> k ∉ dkeys (dict_of (oc_authorization_params cfg))) as Hres.
  { intros k Hk Hin. apply dkeys_update in Hin as [Hin|Hin]; [by apply elem_of_nil in Hin|].
    by apply (proj1 (Forall_forall _ _) Hparams k Hin). }
  assert (forall k, k ∈ reserved -> dget k (update params (dict_of (oc_authorization_params cfg))) = dget k params) as Hk.
  { intros k Hr. by apply dget_update_other, Hres. }
  unfold reserved in Hk.
  exists (urlencode (update params (dict_of (oc_authorization_params cfg)))). split; [done|].
  rewrite parse_urlencode by (apply update_not_nil; rewrite Hk by (by repeat constructor); by eexists).
  cbn beta zeta. rewrite !Hk by (by repeat constructor). split_and!; try done.
  intros k v Hv. apply dget_update_bound; [apply dict_update_ok; constructor|done].
Qed.
End url.

(** ** Connections *)

Section connections.
Context {SD : Sha256Bytes} {PS : PyStr} {BP : BodyParse}.
Context {S C W : Type} {SS : OAuth2StateStore S} {SL : OAuth2StateLaws S}.
Context {CS : OAuthCredentialStore C} {CL : OAuthCredentialLaws C}.
Context (post : string -> string -> list (string * string) -> M W http_reply).
Implicit Types (s : oauth_world S C W) (cfg : OAuth2Config) (c : OAuth2SourceConnection).

(** The token endpoint changes neither of the stores. *)
Definition same_stores s s' : Prop :=
  ow_states s' = ow_states s /\ ow_credentials s' = ow_credentials s.

#[local] Instance same_stores_preorder : PreOrder same_stores.
Proof. split; [by intros s|]. intros s1 s2 s3 [H1 H2] [H3 H4]. split; congruence. Qed.

Lemma token_request_stores cfg fields operation rt :
  keeps same_stores (token_request (S := S) (C := C) post cfg fields operation rt).
Proof.
  unfold token_request. apply keeps_bind; [apply _|..].
  - intros s. unfold on_service. by destruct (post _ _ _ _).
  - intros [body|status reason body|m]; [|apply keeps_ret; apply _..].
    destruct (parse_body body) as [[]|]; try (apply keeps_ret; apply _).
    intros s. destruct (utc_now _) as [now e]. by destruct (from_payload _ _ _ _).
Qed.

Lemma pop_verifier_stores key state : keeps same_stores (pop_verifier (S := S) (C := C) (W := W) key state).
Proof. intros s. unfold pop_verifier. by destruct (given state). Qed.

Lemma exchange_code_stores key cfg code state verifier :
  keeps same_stores (exchange_code (S := S) (C := C) post key cfg code state verifier).
Proof.
  unfold exchange_code. destruct (empty code); [apply keeps_throw; apply _|]. apply keeps_bind; [apply _|..].
  - destruct (given verifier); [apply keeps_ret; apply _|apply pop_verifier_stores].
  - intros v. destruct (_ && _); [apply keeps_throw; apply _|apply token_request_stores].
Qed.

Lemma refresh_stores cfg rt : keeps same_stores (refresh (S := S) (C := C) post cfg rt).
Proof. unfold refresh. destruct (empty rt); [apply keeps_throw; apply _|apply token_request_stores]. Qed.

Lemma or_raise_stores (m : M (oauth_world S C W) (OAuth2Token + OAuth2Error)) :
  keeps same_stores m -> keeps same_stores (or_raise m).
Proof. intros H. apply keeps_bind; [apply _|done|]. intros []; [apply keeps_ret|apply keeps_throw]; apply _. Qed.

(** What [complete] asks of the provider: a code without a state. *)
Lemma exchange_without_state key cfg code s :
  oc_use_pkce cfg = true ->
  exists m, exchange_code post key cfg code None None s = (Raise (Exn ValueError m), s).
Proof.
  intros Hp. unfold exchange_code. destruct (empty code); [by eexists|]. cbn [given pop_verifier bind].
  rewrite Hp. by eexists.
Qed.

(** A connection to a provider that uses PKCE, which is the default and what
    every bundled provider does, never completes: [complete] exchanges the code
    without the state, so the verifier kept for it is never found.  It stores no
    credential and asks the token endpoint nothing, but the state that was
    accepted is used up. *)
Theorem pkce_connection_never_completes c (provider tenant workspace state code credential_id : string) cfg s
    (Hcfg : dget provider (cx_providers c) = Some cfg) (Hpkce : oc_use_pkce cfg = true) :
  exists e s', complete post c provider tenant workspace state code credential_id s = (Raise e, s') /\
    ow_credentials s' = ow_credentials s /\ ow_service s' = ow_service s /\ ow_verifiers s' = ow_verifiers s /\
    (credential_id <> "" -> fst (validate_state cfg state tenant workspace s) = Ret tt ->
       exn_cls e = ValueError /\ state_view (ow_states s') state = None).
Proof.
  unfold complete. destruct (String.eqb_spec credential_id "") as [->|Hid]; [by eexists _, _|].
  unfold empty at 1. apply String.eqb_neq in Hid. rewrite Hid. unfold bind at 1, lift, provider_of. rewrite Hcfg.
  pose proof (validate_state_spec cfg state tenant workspace s) as Hv. unfold bind at 1.
  destruct (validate_state cfg state tenant workspace s) as [[[]|e] s1];
    destruct Hv as (_ & _ & Hok & x & env & ->); cbn [fst].
  - unfold bind at 1, or_raise, bind at 1.
    destruct (exchange_without_state provider cfg code (with_oauth_env env (with_states x s)) Hpkce) as [m ->].
    eexists _, _. split; [done|]. split_and!; try done. intros _ _. split; [done|]. by apply Hok.
  - eexists _, _. split; [done|]. split_and!; try done.
Qed.

(** When [complete] returns, its provider does not use PKCE, the state was
    live and issued for this provider, tenant and workspace and is used up, and
    the credential the token amounts to was saved under the name and the scope
    it was asked for, where it can be read back; in every other case nothing is
    saved, unless the store itself raised. *)
Theorem connection_complete_spec c (provider tenant workspace state code credential_id : string) s :
  match complete post c provider tenant workspace state code credential_id s with
  | (Ret ref, s') => exists cfg v token r,
      dget provider (cx_providers c) = Some cfg /\ oc_use_pkce cfg = false /\
      state_view (ow_states s) state = Some v /\
      matches_state (oc_provider cfg) tenant workspace (issue_time s) v /\
      state_view (ow_states s') state = None /\
      credential_record credential_id tenant workspace provider token [] None = Ret r /\
      ref = credential_ref r /\ credential_save r (ow_credentials s) = (Ret tt, ow_credentials s') /\
      (representable r -> forall p, in_family p provider = true ->
         credential_get credential_id tenant workspace p (ow_credentials s') = (Ret r, ow_credentials s'))
  | (Raise e, s') => ow_credentials s' = ow_credentials s \/
      exists r, credential_save r (ow_credentials s) = (Raise e, ow_credentials s')
  end.
Proof.
  unfold complete. destruct (empty credential_id); [by left|]. unfold bind at 1, lift, provider_of.
  destruct (dget provider (cx_providers c)) as [cfg|] eqn:Hcfg; [|by left].
  pose proof (validate_state_spec cfg state tenant workspace s) as Hv. unfold bind at 1.
  destruct (validate_state cfg state tenant workspace s) as [[[]|e] s1];
    destruct Hv as (_ & _ & Hok & x & env & ->); [|by left].
  set (s1 := with_oauth_env env (with_states x s)) in *. destruct (Hok eq_refl) as (Hnone & v & Hv & Hm).
  pose proof (or_raise_stores _ (exchange_code_stores provider cfg code None None) s1) as [Hst Hcr].
  destruct (oc_use_pkce cfg) eqn:Hp.
  { unfold bind at 1, or_raise, bind at 1.
    destruct (exchange_without_state provider cfg code s1 Hp) as [m ->]. by left. }
  unfold bind at 1. destruct (or_raise _ s1) as [[token|e] s2]; cbn [snd] in Hst, Hcr; [|left; by rewrite Hcr].
  unfold bind at 1. destruct (credential_record _ _ _ _ _ _ _) as [r|e] eqn:Er; [|left; by rewrite Hcr].
  unfold bind at 1, on_credentials. rewrite Hcr. change (ow_credentials s1) with (ow_credentials s).
  destruct (credential_save r (ow_credentials s)) as [[[]|e] cs] eqn:Es.
  - exists cfg, v, token, r. cbn [with_credentials ow_states ow_credentials].
    rewrite Hst. split_and!; try done; try apply Hm. intros Hr p Hf.
    assert (ou_credential_id r = credential_id /\ in_scope tenant workspace p r = true) as [<- Hsc].
    { revert Er. unfold credential_record. destruct (token_expires_at token); [|done]. cbn [out_bind].
      intros [= <-]. unfold in_scope. cbn. by rewrite !String.eqb_refl, Hf. }
    apply law_held; [|done]. by eapply law_save.
  - right. by exists r.
Qed.

(** A refresh, when it returns. *)
Lemma refresh_record_inv c current s updated s' :
  refresh_record post c current s = (Ret updated, s') ->
  exists token s1 rt, given (ou_refresh_token current) = Some rt /\
    credential_record (ou_credential_id current) (ou_tenant_id current) (ou_workspace_id current)
      (ou_provider current) token (ou_scopes current) (Some rt) = Ret updated /\
    ow_credentials s1 = ow_credentials s /\
    credential_save updated (ow_credentials s1) = (Ret tt, ow_credentials s').
Proof.
  unfold refresh_record. destruct (given (ou_refresh_token current)) as [rt|]; [|done]. intros H.
  run_inv H. apply lift_inv in Hr as [_ ->]. run_inv H.
  pose proof (or_raise_stores _ (refresh_stores x rt) s) as [_ Hc]. rewrite Hr in Hc. cbn [snd] in Hc.
  run_inv H. apply lift_inv in Hr0 as [Hrec ->]. run_inv H. apply ret_inv in H as [-> ->].
  unfold on_credentials in Hr0. destruct (credential_save x1 (ow_credentials s0)) as [o cs] eqn:Es.
  injection Hr0 as -> <-. destruct x2. by exists x0, s0, rt.
Qed.

Lemma credential_record_fields i t w p token scopes rt r :
  credential_record i t w p token scopes rt = Ret r ->
  ou_credential_id r = i /\ ou_tenant_id r = t /\ ou_workspace_id r = w /\ ou_provider r = p /\
  (scopes <> [] -> ou_scopes r <> []) /\ (is_Some (given rt) -> is_Some (given (ou_refresh_token r))).
Proof.
  unfold credential_record. destruct (token_expires_at token) as [e|x]; [|done]. cbn [out_bind]. intros [= <-].
  cbn. split_and!; try done; [by destruct (tk_scope token)|]. intros H.
  destruct (tk_refresh_token token) as [x|]; [|done]. cbn. destruct (empty x) eqn:E; [done|]. cbn. by rewrite E.
Qed.

(** A refresh replaces a credential by one of the same name, tenant, workspace
    and provider that can be refreshed again and has scopes if the old one had,
    whatever the token endpoint answers; the replacement is what the store then
    returns in this scope. *)
Theorem refresh_keeps_credential c (current updated : OAuthCredentialRecord) s s'
    (Hrefresh : refresh_record post c current s = (Ret updated, s')) :
  ou_credential_id updated = ou_credential_id current /\
  (forall t w p, in_scope t w p updated = in_scope t w p current) /\
  is_Some (given (ou_refresh_token updated)) /\ (ou_scopes current <> [] -> ou_scopes updated <> []) /\
  (representable updated -> forall t w p, in_scope t w p current = true ->
     credential_get (ou_credential_id current) t w p (ow_credentials s') = (Ret updated, ow_credentials s')).
Proof.
  destruct (refresh_record_inv _ _ _ _ _ Hrefresh) as (token & s1 & rt & Hrt & Hrec & Hc & Hsave).
  destruct (credential_record_fields _ _ _ _ _ _ _ _ Hrec) as (Hi & Ht & Hw & Hp & Hsc & Hr).
  assert (forall t w p, in_scope t w p updated = in_scope t w p current) as Hs.
  { intros t w p. unfold in_scope. by rewrite Ht, Hw, Hp. }
  split_and!; try done.
  - apply Hr. unfold given in *. destruct (ou_refresh_token current) as [x|]; [|done].
    destruct (empty x) eqn:E; [done|]. injection Hrt as <-. by rewrite E.
  - intros Hrep t w p Hin. rewrite <- Hi. apply law_held; [by eapply law_save|by rewrite Hs].
Qed.

(** Ingestion through a connection calls the source socket for the caller's
    tenant and workspace only: two sockets that agree there cannot be told
    apart, also when the credential had to be refreshed. *)
Theorem ingest_stays_in_scope {A : Type} c (provider source_id tenant workspace credential_id : string)
    (socket1 socket2 : string -> string -> string -> string -> M (oauth_world S C W) A) s
    (Hagree : forall id s1, socket1 source_id tenant workspace id s1 = socket2 source_id tenant workspace id s1) :
  connection_ingest post socket1 c provider source_id tenant workspace credential_id s =
  connection_ingest post socket2 c provider source_id tenant workspace credential_id s.
Proof.
  unfold connection_ingest.
  destruct (on_credentials (credential_get credential_id tenant workspace provider) s) as [[r|e] s0] eqn:Eg;
    [rewrite !(bind_ret_intro _ _ _ _ _ Eg)|by rewrite !(bind_raise _ _ _ _ _ Eg)].
  assert (in_scope tenant workspace provider r = true) as Hin.
  { unfold on_credentials in Eg. pose proof (law_get credential_id tenant workspace provider (ow_credentials s)) as Hg.
    destruct (credential_get _ _ _ _ _) as [[r'|e] cs]; [|done]. injection Eg as <- <-. apply Hg. }
  unfold in_scope in Hin. apply andb_true_iff in Hin as [[Ht Hw]%andb_true_iff _]. apply String.eqb_eq in Ht, Hw.
  match goal with |- bind ?m _ s0 = _ => destruct (m s0) as [[expired|e] s1] eqn:Ex end;
    [rewrite !(bind_ret_intro _ _ _ _ _ Ex)|by rewrite !(bind_raise _ _ _ _ _ Ex)].
  destruct expired; [|unfold bind, ret; by rewrite Ht, Hw].
  destruct (refresh_record post c r s1) as [[u|e] s2] eqn:Er;
    [rewrite !(bind_ret_intro _ _ _ _ _ Er)|by rewrite !(bind_raise _ _ _ _ _ Er)].
  destruct (refresh_record_inv _ _ _ _ _ Er) as (token & s3 & rt & _ & Hrec & _).
  destruct (credential_record_fields _ _ _ _ _ _ _ _ Hrec) as (_ & Htu & Hwu & _).
  by rewrite Htu, Hwu, Ht, Hw.
Qed.

(** An exchange that relied on the verifier of its state cannot be repeated: a
    transport failure is reported as retryable, but the verifier was dropped
    before the token endpoint was asked, so every later exchange for this state
    raises before anything is sent, until the state is issued again. *)
Theorem retryable_exchange_loses_verifier key cfg (code code' state : string) s s1
    (Hpkce : oc_use_pkce cfg = true) (Hcode : code <> "") (Hcode' : code' <> "") (Hstate : state <> "")
    (Hlater : ow_verifiers s1 = ow_verifiers (snd (exchange_code post key cfg code (Some state) None s))) :
  exchange_code post key cfg code' (Some state) None s1 =
    (raise ValueError "PKCE code_verifier is required",
     with_verifiers (delete (key, state) (ow_verifiers s1)) s1) /\
  forall verifier m,
    ow_verifiers s !! (key, state) = Some verifier -> verifier <> "" ->
    (forall url body headers w, exists w', post url body headers w = (Ret (H_transport m), w')) ->
    exists x, fst (exchange_code post key cfg code (Some state) None s) = Ret (inr x) /\ oe_retryable x = true.
Proof.
  apply String.eqb_neq in Hcode, Hcode', Hstate.
  split.
  - assert (ow_verifiers s1 !! (key, state) = None) as Hnone.
    { rewrite Hlater. unfold exchange_code, empty. rewrite Hcode. cbn [given]. unfold bind at 1, pop_verifier.
      cbn [given]. unfold empty. rewrite Hstate.
      destruct (_ && _); cbn [throw snd with_verifiers ow_verifiers]; [by rewrite lookup_delete_eq|].
      match goal with |- context[token_request post cfg ?f ?o ?rt ?s0] =>
        assert (ow_verifiers (snd (token_request post cfg f o rt s0)) = ow_verifiers s0) as -> end.
      { unfold token_request, bind, on_service. destruct (post _ _ _ _) as [[[body|? ? ?|?]|] w']; try done.
        destruct (parse_body body) as [[]|]; try done. destruct (utc_now _) as [now e].
        by destruct (from_payload _ _ _ _). }
      cbn. by rewrite lookup_delete_eq. }
    unfold exchange_code, empty. rewrite Hcode'. cbn [given]. unfold bind at 1, pop_verifier. cbn [given].
    unfold empty. rewrite Hstate, Hnone, Hpkce. done.
  - intros verifier m Hv Hne Hpost. apply String.eqb_neq in Hne.
    unfold exchange_code, empty. rewrite Hcode. cbn [given]. unfold bind at 1, pop_verifier. cbn [given].
    unfold empty. rewrite Hstate, Hv. cbn [given]. unfold empty. rewrite Hne, Hpkce. rewrite bool_decide_true by by eexists.
    cbn [andb negb]. unfold token_request, bind, on_service.
    match goal with |- context[post ?u ?b ?h ?w] => destruct (Hpost u b h w) as [w' ->] end.
    eexists. split; [done|]. done.
Qed.

(** What a [complete] that returned has saved. *)
Lemma complete_saves c provider tenant workspace state code credential_id s ref s' :
  complete post c provider tenant workspace state code credential_id s = (Ret ref, s') ->
  exists token r, credential_record credential_id tenant workspace provider token [] None = Ret r /\
    ref = credential_ref r /\ credential_save r (ow_credentials s) = (Ret tt, ow_credentials s').
Proof.
  unfold complete. destruct (empty credential_id); [done|]. intros H.
  run_inv H. apply lift_inv in Hr as [_ ->]. run_inv H.
  pose proof (validate_state_spec x state tenant workspace s) as Hv. rewrite Hr in Hv.
  destruct Hv as (_ & _ & _ & y & env & Hs). run_inv H.
  pose proof (or_raise_stores _ (exchange_code_stores provider x code None None) s0) as [_ Hc].
  rewrite Hr0 in Hc. cbn [snd] in Hc. run_inv H. apply lift_inv in Hr1 as [Hrec ->].
  run_inv H. apply ret_inv in H as [-> ->]. exists x1, x2. split; [done|]. split; [done|].
  unfold on_credentials in Hr1. rewrite Hc, Hs in Hr1. cbn in Hr1.
  destruct (credential_save x2 (ow_credentials s)) as [o cs]. injection Hr1 as -> <-. by destruct x3.
Qed.
End connections.

Section scopeless.
Context {SD : Sha256Bytes} {PS : PyStr} {BP : BodyParse} {IF : IsoFormat}.
Context {S B W : Type} {SS : OAuth2StateStore S} {SL : OAuth2StateLaws S}.
Context {SB : SecretBackend B} {BL : SecretBackendLaws B}.
Context (post : string -> string -> list (string * string) -> M W http_reply).
Hypothesis isoformat_text : forall t, isoformat t <> "".

(** A token response need not name the scopes it grants.  A connection over the
    secret-manager store then completes and saves a credential without scopes,
    which the store afterwards rejects as incomplete: every ingestion and every
    refresh with it raises, for its owner too. *)
Theorem scopeless_connection_is_lost (c : OAuth2SourceConnection)
    (provider tenant workspace state code credential_id : string)
    (s s' : oauth_world S (secret_store B) W) (ref : CredentialRef)
    (Hcomplete : complete post c provider tenant workspace state code credential_id s = (Ret ref, s'))
    (Hscopes : cd_scopes ref = []) :
  let lost := Exn ValueError "OAuth secret backend returned an incomplete credential record" in
  forall p t w, connection_refresh post c p t w credential_id s' = (Raise lost, s') /\
    forall A (socket : _ -> _ -> _ -> _ -> M _ A) source_id,
      connection_ingest post socket c p source_id t w credential_id s' = (Raise lost, s').
Proof.
  intros lost p t w. destruct (complete_saves _ _ _ _ _ _ _ _ _ _ _ Hcomplete) as (token & r & Hrec & -> & Hsave).
  assert (ou_credential_id r = credential_id /\ ou_refresh_token r <> Some "") as [<- Hrt].
  { revert Hrec. unfold credential_record. destruct (token_expires_at token); [|done]. cbn [out_bind].
    intros [= <-]. cbn. split; [done|]. unfold given. destruct (tk_refresh_token token) as [x|]; [|done].
    unfold empty. destruct (String.eqb_spec x ""); [done|congruence]. }
  destruct (secret_save_writes _ _ _ Hsave) as (k & Hk & Hv).
  assert (on_credentials (credential_get (ou_credential_id r) t w p) s' = (Raise lost, s')) as Hget.
  { unfold on_credentials. cbn [credential_get secret_credential_store].
    rewrite (secret_get_written isoformat_text r k) by done.
    assert (complete_record r = false) as ->; [|by destruct s'].
    unfold complete_record. cbn in Hscopes. by rewrite Hscopes, andb_false_r. }
  split; [|intros A socket source_id]; by apply bind_raise.
Qed.
End scopeless.

(** ** Concrete connections

    A token endpoint over a world that counts requests. *)

#[local] Instance sample_digest_bytes : Sha256Bytes := fun s => s.
#[local] Instance sample_text : PyStr := fun _ => "value".
#[local] Instance sample_json : BodyParse := fun body =>
  if String.eqb body "token" then Some (VDict [("access_token", VStr "access"); ("scope", VStr "read write")])
  else if String.eqb body "plain" then Some (VDict [("access_token", VStr "access")]) else None.

Definition sample_config (pkce : bool) : OAuth2Config :=
  mkOAuthConfig "github" "https://github.test/authorize" "https://github.test/token" "client" "secret"
    "https://app.test/callback?x=1&y=2" ["read"; "write"] [("access_type", "offline")] "client_id" "client_secret"
    " " " " "client_secret_post" 600 pkce "S256".

Definition answering (body : string) : string -> string -> list (string * string) -> M nat http_reply :=
  fun _ _ _ n => (Ret (H_ok body), Datatypes.S n).
Definition unreachable : string -> string -> list (string * string) -> M nat http_reply :=
  fun _ _ _ n => (Ret (H_transport "timed out"), Datatypes.S n).

Definition sample_process {C} (credentials : C) : oauth_world memory_states C nat :=
  mkOAuthWorld ∅ ∅ credentials (fun n => String (ascii_of_nat (97 + n)) "") 0 sample_env 0%nat.

Definition sample_connection (pkce : bool) : OAuth2SourceConnection :=
  mkConnection [("github", sample_config pkce)] 60.

#[local] Instance sample_backend : SecretBackend (gmap string dict) :=
  {| secret_read k := fun m => (Ret (m !! k), m); secret_write k v := modify (fun m => <[k := v]> m) |}.
#[local, program] Instance sample_backend_laws : SecretBackendLaws (gmap string dict) :=
  {| secret_view m k := m !! k |}.
Next Obligation. done. Qed.
Next Obligation.
  intros k v m. split; [|by rewrite lookup_insert_eq]. intros k' Hk. by rewrite lookup_insert_ne.
Qed.

Lemma sample_iso_text t : isoformat t <> "".
Proof. by destruct t. Qed.

Definition sample_credential : OAuthCredentialRecord :=
  mkOAuthCredential "cred" "acme" "main" "github" "access" (Some "again") "Bearer" ["read"] None (Some 5000000%Z).

Lemma secret_store_roundtrip_witness :
  let s := mkSecretStore "ois/oauth" (∅ : gmap string dict) in
  let s1 := snd (secret_save sample_credential s) in
  fst (secret_get "cred" "acme" "main" "github.rest" s1) = Ret sample_credential /\
  exists m, fst (secret_get "cred" "other" "main" "github" s1) = Raise (Exn PermissionError m).
Proof.
  intros s s1.
  assert (secret_save sample_credential s = (Ret tt, s1)) as Hsave by reflexivity. split.
  - pose proof (secret_store_roundtrip sample_iso_text sample_credential s s1 "acme" "main" "github.rest"
      ltac:(done) Hsave) as H.
    cbn [ou_credential_id sample_credential] in H. destruct (secret_get _ _ _ _ s1) as [o s2].
    apply H. by split.
  - pose proof (secret_store_roundtrip sample_iso_text sample_credential s s1 "other" "main" "github"
      ltac:(done) Hsave) as H.
    cbn [ou_credential_id sample_credential] in H. destruct (secret_get _ _ _ _ s1) as [o s2].
    by apply H.
Defined.

Lemma oauth_state_one_time_witness :
  let cfg := sample_config true in
  let s0 := sample_process (∅ : memory_credentials) in
  let s1 := snd (authorization_url "github" cfg "acme" "main" None s0) in
  let s2 := snd (validate_state cfg "a" "acme" "main" s1) in
  exists tr, oauth_run s0 (tr ++ [Accepted "a" "github" "acme" "main" 1%Z]) s2 /\
    exists tr0 mid expires, tr = tr0 ++ Issued "a" "github" "acme" "main" expires :: mid /\ (1 < expires)%Z /\
      Forall (fun e => event_state e <> "a") mid.
Proof.
  intros cfg s0 s1 s2. exists [Issued "a" "github" "acme" "main" 600000000%Z].
  assert (oauth_run s0 ([Issued "a" "github" "acme" "main" 600000000%Z] ++ [Accepted "a" "github" "acme" "main" 1%Z]) s2)
    as Hrun.
  { apply (or_snoc _ _ s1 (Some (Accepted "a" "github" "acme" "main" 1%Z)) s2).
    - apply (or_snoc _ [] s0 (Some (Issued "a" "github" "acme" "main" 600000000%Z)) s1); [apply or_nil|].
      pose proof (os_authorize "github" cfg "acme" "main" None s0) as H.
      assert (match fst (authorization_url "github" cfg "acme" "main" None s0) with
              | Ret (_, st) => Some (Issued st (oc_provider cfg) "acme" "main"
                                       (issue_time s0 + oc_state_ttl_seconds cfg * 1000000)%Z)
              | Raise _ => None
              end = Some (Issued "a" "github" "acme" "main" 600000000%Z)) as E by (vm_compute; reflexivity).
      rewrite E in H. exact H.
    - exact (os_validate cfg "a" "acme" "main" s1). }
  split; [exact Hrun|]. apply (oauth_state_one_time s0 s2 _ [] "a" "github" "acme" "main" 1%Z); [done|exact Hrun].
Defined.

Lemma authorization_url_query_witness :
  let cfg := sample_config true in
  let run := authorization_url "github" cfg "acme" "main" None (sample_process (∅ : memory_credentials)) in
  exists url st s' query, run = (Ret (url, st), s') /\ url = "https://github.test/authorize" +:+ "?" +:+ query /\
    dget "state" (parse_query query) = Some "a" /\
    dget "redirect_uri" (parse_query query) = Some "https://app.test/callback?x=1&y=2".
Proof.
  intros cfg run. destruct run as [[[url st]|e] s'] eqn:Erun; [|by vm_compute in Erun].
  destruct (authorization_url_query "github" cfg "acme" "main" None (sample_process ∅) url st s')
    as (query & -> & Hst & Hre & _).
  - apply (bool_decide_unpack _). reflexivity.
  - exact Erun.
  - exists (oc_authorization_url cfg +:+ "?" +:+ query), st, s', query.
    split; [done|]. split; [done|]. split; [|exact Hre].
    rewrite Hst. f_equal. pose proof (authorization_url_states "github" cfg "acme" "main" None
      (sample_process (∅ : memory_credentials))) as H. fold run in H. rewrite Erun in H. by destruct H as [_ [-> _]].
Defined.

Lemma pkce_connection_never_completes_witness :
  let c := sample_connection true in
  let s := snd (begin c "github" "acme" "main" (sample_process (∅ : memory_credentials))) in
  exists e s', complete (answering "token") c "github" "acme" "main" "a" "code" "cred" s = (Raise e, s') /\
    exn_cls e = ValueError /\ ow_credentials s' = ∅ /\ ow_states s' !! "a" = None.
Proof.
  intros c s.
  destruct (pkce_connection_never_completes (answering "token") c "github" "acme" "main" "a" "code" "cred"
    (sample_config true) s) as (e & s' & Hrun & Hcr & _ & _ & Hlast).
  - reflexivity.
  - reflexivity.
  - exists e, s'. split; [exact Hrun|]. rewrite Hcr. destruct Hlast as [H1 H2]; [done|reflexivity|].
    split; [exact H1|]. split; [reflexivity|exact H2].
Defined.

Lemma refresh_keeps_credential_witness :
  exists u s', refresh_record (answering "plain") (sample_connection true) sample_credential
      (sample_process (∅ : memory_credentials)) = (Ret u, s') /\
    ou_scopes u <> [] /\ is_Some (given (ou_refresh_token u)).
Proof.
  destruct (refresh_record (answering "plain") (sample_connection true) sample_credential
    (sample_process (∅ : memory_credentials))) as [[u|e] s'] eqn:E; [|by vm_compute in E].
  exists u, s'. split; [done|].
  destruct (refresh_keeps_credential (answering "plain") _ _ _ _ _ E) as (_ & _ & Hr & Hs & _).
  split; [by apply Hs|exact Hr].
Defined.

Definition socket_for (tenant : string) {S C} :
    string -> string -> string -> string -> M (oauth_world S C nat) string :=
  fun source t _ _ s => (if String.eqb t tenant then Ret source else raise RuntimeError "other tenant", s).
Definition socket_any {S C} : string -> string -> string -> string -> M (oauth_world S C nat) string :=
  fun source _ _ _ s => (Ret source, s).

Lemma ingest_stays_in_scope_witness :
  let s := sample_process ({[ "cred" := sample_credential ]} : memory_credentials) in
  let ingest socket := fst (connection_ingest (answering "plain") socket (sample_connection true) "github.rest"
    "feed" "acme" "main" "cred" s) in
  ingest (socket_for "acme") = ingest socket_any /\ ingest socket_any = Ret "feed".
Proof.
  intros s ingest. split; [|vm_compute; reflexivity]. subst ingest. cbn beta. apply (f_equal fst).
  apply (ingest_stays_in_scope (answering "plain")). intros id s1. reflexivity.
Defined.

Lemma retryable_exchange_loses_verifier_witness :
  let cfg := sample_config true in
  let s := snd (authorization_url "github" cfg "acme" "main" None (sample_process (∅ : memory_credentials))) in
  let first := exchange_code unreachable "github" cfg "code" (Some "a") None s in
  (exists x, fst first = Ret (inr x) /\ oe_retryable x = true) /\
  fst (exchange_code unreachable "github" cfg "code" (Some "a") None (snd first)) =
    raise ValueError "PKCE code_verifier is required".
Proof.
  intros cfg s first.
  destruct (retryable_exchange_loses_verifier unreachable "github" cfg "code" "code" "a" s (snd first))
    as [Hagain Hfirst].
  - reflexivity.
  - done.
  - done.
  - done.
  - reflexivity.
  - split; [|by rewrite Hagain]. apply (Hfirst "b" "timed out"); [reflexivity|done|].
    intros url body headers w. by eexists.
Defined.

Lemma scopeless_connection_is_lost_witness :
  let c := sample_connection false in
  let s := snd (begin c "github" "acme" "main"
             (sample_process (mkSecretStore "ois/oauth" (∅ : gmap string dict)))) in
  let run := complete (answering "plain") c "github" "acme" "main" "a" "code" "cred" s in
  exists ref, fst run = Ret ref /\ cd_scopes ref = [] /\
    exists e, fst (connection_ingest (answering "plain") (A := string) socket_any c "github" "feed" "acme" "main" "cred"
                     (snd run)) = Raise e.
Proof.
  intros c s run. destruct run as [[ref|e] s'] eqn:Erun; [|by vm_compute in Erun].
  exists ref. split; [done|].
  assert (cd_scopes ref = []) as Hsc.
  { assert (match fst run with Ret r => cd_scopes r | Raise _ => ["x"] end = []) as H by (vm_compute; reflexivity).
    by rewrite Erun in H. }
  split; [done|]. cbn [snd].
  destruct (scopeless_connection_is_lost (answering "plain") sample_iso_text c "github" "acme" "main" "a" "code" "cred"
    s s' ref Erun Hsc "github" "acme" "main") as [_ H].
  eexists. by rewrite H.
Defined.
