(* ===== verification/StreamRecovery.v ===== *)
(** * Crash recovery over Redis Streams: [ois/integration/redis_recovery.py]

    Workers of a consumer group read tasks from a stream, run a handler and
    acknowledge; a supervisor claims the messages of workers that went silent.

    Redis is a service: [RedisStream] has the commands the engine calls on its
    stream and group, and [StreamLaws] their documented effect on what the
    server holds.  A command that raises has had no effect: a reply lost after the
    server carried the command out is left out (that can only repeat a task, and
    not lose one).  Between two commands other clients move ([sw_others]).  The
    server's clock is the environment's.  A handler is an arbitrary computation
    on a state [W]; [sw_returned] records the tasks it returned for and is read by
    the theorems only.  [initialize] and the endless [recovery_loop] around
    [recover_once] are left out.

    Its theorems: messages are acknowledged only after their handler returned,
    so no task is lost under any interleaving; when a recovery pass handles
    everything that is stale; and two ways in which stale messages stay. *)

From stdpp Require Import base gmap strings list sorting relations.
From Stdlib Require Import ZArith Lia.
From S2P Require Import Prelude Samples AutonomousRuns.
Local Open Scope py_scope.

(** ** The server

    Message identifiers are positive; [0] is ["0-0"].  A field is text given as
    bytes or as a string. *)

Abbreviation message_id := Z.

Record stream_field := mkField { sf_bytes : bool; sf_name : string; sf_value : string }.
Definition payload : Type := list stream_field.

(** A pending message: its consumer and when it was delivered to it. *)
Record pending_entry := mkPending { pe_consumer : string; pe_since : datetime }.

Record stream_view := mkStreamView {
  sv_entries : gmap message_id payload;
  sv_pending : gmap message_id pending_entry;
  sv_last : message_id }.

Class RedisStream (R : Type) := {
  x_readgroup : datetime -> string -> M R (option (message_id * payload));
  x_autoclaim : datetime -> string -> Z -> message_id -> Z -> M R (message_id * list (message_id * payload));
  x_ack : message_id -> M R unit;
  x_del : message_id -> M R unit }.

Section laws.
Implicit Types (v : stream_view) (id : message_id).

(** [XREADGROUP ... COUNT 1 STREAMS s >]: the next message that was never
    delivered, which becomes pending. *)
Definition read_effect (now : datetime) (consumer : string) v (out : option (message_id * payload)) v' : Prop :=
  match out with
  | None => v' = v /\ forall id, is_Some (sv_entries v !! id) -> (id <= sv_last v)%Z
  | Some (id, p) =>
      sv_entries v !! id = Some p /\ (sv_last v < id)%Z /\
      (forall i, (sv_last v < i < id)%Z -> sv_entries v !! i = None) /\
      v' = mkStreamView (sv_entries v) (<[id := mkPending consumer now]> (sv_pending v)) id
  end.

(** A pending message that [XAUTOCLAIM] may claim. *)
Definition claimable (now : datetime) (min_idle_ms : Z) v id : Prop :=
  is_Some (sv_entries v !! id) /\
  exists q, sv_pending v !! id = Some q /\ (min_idle_ms * 1000 <= now - pe_since q)%Z.

(** [XAUTOCLAIM]: pending messages are examined from [start] on, up to a limit;
    those that are idle for long enough and still in the stream are claimed,
    those that are not in the stream any more may be forgotten.  The cursor is
    the next pending message, or [0] at the end. *)
Record claim_effect (now : datetime) (consumer : string) (min_idle_ms : Z) (start : message_id) (count : Z)
    v (cursor : message_id) (claimed : list (message_id * payload)) v' : Prop := {
  ce_entries : sv_entries v' = sv_entries v;
  ce_last : sv_last v' = sv_last v;
  ce_claimed : forall id p, (id, p) ∈ claimed ->
    (start <= id)%Z /\ (cursor = 0 \/ id < cursor)%Z /\ sv_entries v !! id = Some p /\ claimable now min_idle_ms v id;
  ce_distinct : NoDup (fst <$> claimed);
  ce_complete : forall id, (0 < id)%Z -> (start <= id)%Z -> (cursor = 0 \/ id < cursor)%Z -> claimable now min_idle_ms v id ->
    id ∈ (fst <$> claimed);
  ce_mine : forall id, id ∈ (fst <$> claimed) -> sv_pending v' !! id = Some (mkPending consumer now);
  ce_others : forall id, id ∉ (fst <$> claimed) ->
    sv_pending v' !! id = sv_pending v !! id \/ (sv_entries v !! id = None /\ sv_pending v' !! id = None);
  ce_cursor : cursor <> 0%Z -> (start < cursor)%Z /\ is_Some (sv_pending v !! cursor);
  ce_examined : (0 < count)%Z -> cursor <> 0%Z ->
    exists id, (start <= id < cursor)%Z /\ is_Some (sv_pending v !! id) }.
End laws.

Class StreamLaws (R : Type) `{RedisStream R} := {
  stream_of : R -> stream_view;
  law_readgroup now c r : match x_readgroup now c r with
    | (Ret out, r') => read_effect now c (stream_of r) out (stream_of r')
    | (Raise _, r') => stream_of r' = stream_of r
    end;
  law_autoclaim now c m start n r : match x_autoclaim now c m start n r with
    | (Ret (cursor, l), r') => claim_effect now c m start n (stream_of r) cursor l (stream_of r')
    | (Raise _, r') => stream_of r' = stream_of r
    end;
  law_ack id r : let '(o, r') := x_ack id r in
    stream_of r' = match o with
                   | Ret _ => mkStreamView (sv_entries (stream_of r)) (delete id (sv_pending (stream_of r)))
                                (sv_last (stream_of r))
                   | Raise _ => stream_of r
                   end;
  law_del id r : let '(o, r') := x_del id r in
    stream_of r' = match o with
                   | Ret _ => mkStreamView (delete id (sv_entries (stream_of r))) (sv_pending (stream_of r))
                                (sv_last (stream_of r))
                   | Raise _ => stream_of r
                   end }.

(** ** [WorkerCrashRecoveryEngine] *)

Record RecoveryEngine := mkEngine { en_reclaim_consumer : string; en_max_retries : Z }.

Definition new_engine (reclaim_consumer : string) (max_retries : Z) : outcome RecoveryEngine :=
  if (max_retries <? 0)%Z then raise ValueError "max_retries must be >= 0"
  else Ret (mkEngine reclaim_consumer max_retries).

Section engine.
Context {JP : JsonParse} {R W : Type} {RS : RedisStream R}.
Context (handler : dict -> M W unit).

Record stream_world := mkStreamWorld {
  sw_redis : R;
  sw_others : nat -> R -> R;
  sw_turn : nat;
  sw_env : Env;
  sw_handled : W;
  sw_returned : list dict }.

(** A command: others move, the server's clock is read, the command runs. *)
Definition command {A} (m : datetime -> M R A) : M stream_world A := fun s =>
  let '(now, e) := utc_now (sw_env s) in
  let '(o, r) := m now (sw_others s (sw_turn s) (sw_redis s)) in
  (o, mkStreamWorld r (sw_others s) (S (sw_turn s)) e (sw_handled s) (sw_returned s)).

Definition run_handler (task : dict) : M stream_world unit := fun s =>
  let '(o, w) := handler task (sw_handled s) in
  (o, mkStreamWorld (sw_redis s) (sw_others s) (sw_turn s) (sw_env s) w
        (match o with Ret _ => task :: sw_returned s | Raise _ => sw_returned s end)).

(** [_decode]: [json.loads] of bytes decodes them as UTF-8 first. *)
Definition field_of (bytes : bool) (p : payload) : option string :=
  sf_value <$> List.find (fun f => Bool.eqb (sf_bytes f) bytes && String.eqb (sf_name f) "task_context") p.

Definition decode (p : payload) : outcome dict :=
  match (match field_of true p with Some raw => Some raw | None => field_of false p end) with
  | None => raise ValueError "Redis task is missing task_context"
  | Some raw =>
      task <-? json_parse raw ;;
      match task with
      | VDict d => Ret d
      | _ => raise ValueError "task_context must decode to a JSON object"
      end
  end.

(** [xack], then [xdel]. *)
Definition finish (id : message_id) : M stream_world unit :=
  command (fun _ => x_ack id) ;;; command (fun _ => x_del id).

Definition consume_once (consumer : string) : M stream_world bool :=
  message <- command (fun now => x_readgroup now consumer) ;;
  match message with
  | None => ret false
  | Some (id, p) =>
      task <- lift (decode p) ;;
      run_handler task ;;;
      finish id ;;;
      ret true
  end.

Definition autoclaim (e : RecoveryEngine) (min_idle_ms : Z) (cursor : message_id) (count : Z) :
    M stream_world (message_id * list (message_id * payload)) :=
  command (fun now => x_autoclaim now (en_reclaim_consumer e) min_idle_ms cursor count).

(** [cursor in {"0-0", b"0-0"} or not entries] *)
Definition last_page (cursor : message_id) (entries : list (message_id * payload)) : bool :=
  (cursor =? 0)%Z || match entries with [] => true | _ => false end.

(** The loops take fuel; [None] is out of it. *)
Fixpoint reclaim_loop (fuel : nat) (e : RecoveryEngine) (min_idle_ms count : Z) (cursor : message_id)
    (claimed : Z) : M stream_world (option Z) :=
  match fuel with
  | O => ret None
  | S fuel =>
      page <- autoclaim e min_idle_ms cursor count ;;
      let '(cursor, entries) := page in
      let claimed := (claimed + Z.of_nat (length entries))%Z in
      if last_page cursor entries then ret (Some claimed)
      else reclaim_loop fuel e min_idle_ms count cursor claimed
  end.

Definition reclaim_stale (fuel : nat) (e : RecoveryEngine) (min_idle_ms count : Z) : M stream_world (option Z) :=
  if (min_idle_ms <? 0)%Z then throw (Exn ValueError "min_idle_ms must be >= 0")
  else reclaim_loop fuel e min_idle_ms count 0 0.

(** The entries of a page: a task that cannot be decoded raises, a handler that
    raises leaves its message pending. *)
Fixpoint recover_page (entries : list (message_id * payload)) (processed : Z) : M stream_world Z :=
  match entries with
  | [] => ret processed
  | (id, p) :: entries =>
      task <- lift (decode p) ;;
      ok <- try_except (run_handler task ;;; ret true) any_exception (fun _ => ret false) ;;
      if ok : bool then finish id ;;; recover_page entries (processed + 1)%Z
      else recover_page entries processed
  end.

Fixpoint recover_loop (fuel : nat) (e : RecoveryEngine) (min_idle_ms count : Z) (cursor : message_id)
    (processed : Z) : M stream_world (option Z) :=
  match fuel with
  | O => ret None
  | S fuel =>
      page <- autoclaim e min_idle_ms cursor count ;;
      let '(cursor, entries) := page in
      processed <- recover_page entries processed ;;
      if last_page cursor entries then ret (Some processed)
      else recover_loop fuel e min_idle_ms count cursor processed
  end.

Definition recover_once (fuel : nat) (e : RecoveryEngine) (min_idle_ms count : Z) : M stream_world (option Z) :=
  recover_loop fuel e min_idle_ms count 0 0.
End engine.

Arguments stream_world : clear implicits.

(** ** What every client may do to the stream *)

Section moves.
Implicit Types (v : stream_view) (id : message_id) (p : payload).

(** A message is acknowledged or deleted only when what the stream holds under
    its identifier is worked, and new messages have new identifiers. *)
Context (worked : payload -> Prop).

Inductive move : stream_view -> stream_view -> Prop :=
  | mv_add id p v : sv_entries v !! id = None -> (sv_last v < id)%Z ->
      move v (mkStreamView (<[id := p]> (sv_entries v)) (sv_pending v) (sv_last v))
  | mv_read now c out v v' : read_effect now c v out v' -> move v v'
  | mv_claim now c m start n cursor l v v' : claim_effect now c m start n v cursor l v' -> move v v'
  | mv_ack id v : (forall p, sv_entries v !! id = Some p -> worked p) ->
      move v (mkStreamView (sv_entries v) (delete id (sv_pending v)) (sv_last v))
  | mv_del id v : (forall p, sv_entries v !! id = Some p -> worked p) ->
      move v (mkStreamView (delete id (sv_entries v)) (sv_pending v) (sv_last v)).

Abbreviation moves := (rtc move).

(** Pending messages have been delivered. *)
Definition stream_ok v : Prop := forall id, is_Some (sv_pending v !! id) -> (id <= sv_last v)%Z.

(** A delivered message that the stream cannot hold with another payload. *)
Definition known v (m : message_id * payload) : Prop :=
  (m.1 <= sv_last v)%Z /\ forall p, sv_entries v !! m.1 = Some p -> p = m.2.

Lemma claim_pending now c m start n cursor l v v' id :
  claim_effect now c m start n v cursor l v' -> is_Some (sv_pending v' !! id) -> is_Some (sv_pending v !! id).
Proof.
  intros H Hs. destruct (decide (id ∈ (fst <$> l))) as [Hin|Hn].
  - apply list_elem_of_fmap in Hin as ([i p] & -> & Hin).
    destruct (ce_claimed _ _ _ _ _ _ _ _ _ H i p Hin) as (_ & _ & _ & _ & q & Hq & _). by exists q.
  - destruct (ce_others _ _ _ _ _ _ _ _ _ H id Hn) as [E|[_ E]]; rewrite E in Hs; [done|by destruct Hs].
Qed.

Lemma move_ok v v' : move v v' -> stream_ok v -> stream_ok v' /\ forall m, known v m -> known v' m.
Proof.
  intros H Hok. destruct H as [id p v Hnone Hlast|now c out v v' H|now c mi start n cursor l v v' H|id v H|id v H].
  - split; [exact Hok|]. intros [i q] [Hi Hq]. split; [done|]. cbn [fst sv_entries] in *. intros q'.
    rewrite lookup_insert_ne by lia. apply Hq.
  - destruct out as [[id p]|]; [|by destruct H as [-> _]].
    destruct H as (Hp & Hl & _ & ->). split.
    + intros i. cbn [sv_pending sv_last]. intros Hi. destruct (decide (i = id)) as [->|Hne]; [done|].
      rewrite lookup_insert_ne in Hi by done. specialize (Hok i Hi). lia.
    + intros [i q] [Hi Hq]. cbn [fst] in *. split; [cbn; lia|done].
  - split.
    + intros id Hid. rewrite (ce_last _ _ _ _ _ _ _ _ _ H). apply Hok. by eapply claim_pending.
    + intros m [Hm1 Hm2]. unfold known. rewrite (ce_last _ _ _ _ _ _ _ _ _ H), (ce_entries _ _ _ _ _ _ _ _ _ H). done.
  - split; [|done]. intros i Hi. apply Hok. cbn [sv_pending] in Hi.
    destruct (decide (i = id)) as [->|Hne]; [rewrite lookup_delete_eq in Hi; by destruct Hi|by rewrite lookup_delete_ne in Hi].
  - split; [exact Hok|]. intros [i q] [Hi Hq]. split; [done|]. cbn [fst sv_entries] in *. intros q'.
    destruct (decide (i = id)) as [->|Hne]; [by rewrite lookup_delete_eq|rewrite lookup_delete_ne by done]. apply Hq.
Qed.

Lemma moves_ok v v' : moves v v' -> stream_ok v -> stream_ok v' /\ forall m, known v m -> known v' m.
Proof.
  induction 1 as [v|v v1 v' H _ IH]; [done|]. intros Hok. destruct (move_ok v v1 H Hok) as [Hok1 Hk1].
  destruct (IH Hok1) as [Hok' Hk']. auto.
Qed.

(** What a message of the stream comes to: it stays, pending once it was
    delivered, until the handler returned for it. *)
Definition kept id p v : Prop :=
  worked p \/ (sv_entries v !! id = Some p /\ ((id <= sv_last v)%Z -> is_Some (sv_pending v !! id))).

Lemma move_kept v v' id p : move v v' -> kept id p v -> kept id p v'.
Proof.
  intros H [Hw|[Hp Hd]]; [by left|].
  destruct H as [i q v Hnone Hlast|now c out v v' H|now c mi start n cursor l v v' H|i v H|i v H].
  - right. cbn. split; [|done]. destruct (decide (i = id)) as [->|Hne]; [congruence|by rewrite lookup_insert_ne].
  - right. destruct out as [[i q]|]; [|by destruct H as [-> _]]. destruct H as (Hq & Hl & Hgap & ->). cbn.
    split; [done|]. intros Hle. destruct (decide (id = i)) as [->|Hne]; [by rewrite lookup_insert_eq|].
    rewrite lookup_insert_ne by done. apply Hd. destruct (decide (id <= sv_last v)%Z) as [|Hgt]; [done|].
    rewrite (Hgap id) in Hp by lia. done.
  - right. rewrite (ce_entries _ _ _ _ _ _ _ _ _ H), (ce_last _ _ _ _ _ _ _ _ _ H). split; [done|]. intros Hle.
    destruct (decide (id ∈ (fst <$> l))) as [Hin|Hn]; [by rewrite (ce_mine _ _ _ _ _ _ _ _ _ H id Hin)|].
    destruct (ce_others _ _ _ _ _ _ _ _ _ H id Hn) as [E|[E _]]; [rewrite E; by apply Hd|congruence].
  - destruct (decide (i = id)) as [->|Hne]; [left; by apply H|right]. cbn. rewrite lookup_delete_ne by done. done.
  - destruct (decide (i = id)) as [->|Hne]; [left; by apply H|right]. cbn. by rewrite lookup_delete_ne.
Qed.

Lemma moves_kept v v' id p : moves v v' -> kept id p v -> kept id p v'.
Proof. induction 1 as [|v v1 v' H _ IH]; [done|]. intros Hk. by eapply IH, move_kept. Qed.
End moves.

Lemma moves_mono (P Q : payload -> Prop) v v' : (forall p, P p -> Q p) -> rtc (move P) v v' -> rtc (move Q) v v'.
Proof.
  intros HPQ. apply (rtc_congruence id). clear v v'. intros v v' H. destruct H; [|by econstructor..|constructor|constructor].
  - by constructor.
  - naive_solver.
  - naive_solver.
Qed.

(** ** The engine moves within these bounds *)

Section engine_moves.
Context {JP : JsonParse} {R W : Type} {RS : RedisStream R} {RL : StreamLaws R}.
Context (handler : dict -> M W unit).
Implicit Types (s : stream_world R W).
Abbreviation view s := (stream_of (sw_redis s)).

(** The payloads other clients' handlers may have returned for. *)
Context (elsewhere : payload -> Prop).

(** A payload the handler returned for, here or elsewhere. *)
Definition worked_in (returned : list dict) (p : payload) : Prop :=
  elsewhere p \/ exists d, decode p = Ret d /\ d ∈ returned.

Lemma worked_in_mono l l' p : l ⊆ l' -> worked_in l p -> worked_in l' p.
Proof. intros Hl [H|(d & Hd & Hin)]; [by left|right]. exists d. auto. Qed.

Abbreviation moves s := (rtc (move (worked_in (sw_returned s)))).

Definition friendly s : Prop := forall n r, rtc (move elsewhere) (stream_of r) (stream_of (sw_others s n r)).

Definition evolves s s' : Prop :=
  sw_others s' = sw_others s /\ sw_returned s ⊆ sw_returned s' /\ (friendly s -> moves s' (view s) (view s')).

#[local] Instance evolves_preorder : PreOrder evolves.
Proof.
  split; [by intros s|]. intros s1 s2 s3 (H1 & H2 & H3) (H4 & H5 & H6). split; [congruence|].
  split; [set_solver|]. intros Hf. transitivity (view s2).
  - eapply moves_mono; [intros p; by apply worked_in_mono|by apply H3].
  - apply H6. unfold friendly. by rewrite H1.
Qed.

Lemma command_inv {A} (m : datetime -> M R A) s :
  let '(o, s') := command m s in
  exists now r, (friendly s -> forall s1, moves s1 (view s) (stream_of r)) /\ m now r = (o, sw_redis s') /\
    sw_others s' = sw_others s /\ sw_returned s' = sw_returned s.
Proof.
  unfold command. cbn [utc_now]. destruct (m _ _) as [o r] eqn:E. eexists _, _.
  split; [|split; [exact E|done]]. intros Hf s1. eapply moves_mono; [|by apply Hf]. intros p. by left.
Qed.

Lemma run_handler_evolves task : keeps evolves (run_handler (R := R) handler task).
Proof.
  intros s. unfold run_handler. destruct (handler task (sw_handled s)) as [[u|e] w]; (split; [done|]); cbn; split; try done.
  set_solver.
Qed.

(** What is known of a message survives. *)
Lemma evolves_known s s' m : friendly s -> stream_ok (view s) -> evolves s s' ->
  friendly s' /\ stream_ok (view s') /\ (known (view s) m -> known (view s') m).
Proof.
  intros Hf Hok (Ho & _ & Hm). split; [unfold friendly; by rewrite Ho|].
  destruct (moves_ok _ _ _ (Hm Hf) Hok) as [Hok' Hk]. auto.
Qed.

Lemma ack_del_evolves id p s :
  stream_ok (view s) -> known (view s) (id, p) -> worked_in (sw_returned s) p -> friendly s ->
  evolves s (snd (command (fun _ => x_ack id) s)) /\ evolves s (snd (command (fun _ => x_del id) s)).
Proof.
  intros Hok Hk Hw Hf. split.
  - pose proof (command_inv (fun _ => x_ack id) s) as H. destruct (command _ s) as [o s'].
    destruct H as (now & r & Hr & Hm & Ho & Hw'). split; [done|]. cbn [snd]. split; [by rewrite Hw'|]. intros _.
    transitivity (stream_of r); [by apply Hr|]. pose proof (law_ack id r) as Hl. rewrite Hm in Hl. rewrite Hl.
    destruct o; [|done]. apply rtc_once, mv_ack. intros p' Hp'. rewrite Hw'.
    destruct (moves_ok _ _ _ (Hr Hf s) Hok) as [_ Hk']. by rewrite (proj2 (Hk' _ Hk) p' Hp').
  - pose proof (command_inv (fun _ => x_del id) s) as H. destruct (command _ s) as [o s'].
    destruct H as (now & r & Hr & Hm & Ho & Hw'). split; [done|]. cbn [snd]. split; [by rewrite Hw'|]. intros _.
    transitivity (stream_of r); [by apply Hr|]. pose proof (law_del id r) as Hl. rewrite Hm in Hl. rewrite Hl.
    destruct o; [|done]. apply rtc_once, mv_del. intros p' Hp'. rewrite Hw'.
    destruct (moves_ok _ _ _ (Hr Hf s) Hok) as [_ Hk']. by rewrite (proj2 (Hk' _ Hk) p' Hp').
Qed.

Lemma finish_evolves id p s :
  stream_ok (view s) -> known (view s) (id, p) -> worked_in (sw_returned s) p -> friendly s ->
  evolves s (snd (finish id s)).
Proof.
  intros Hok Hk Hw Hf. unfold finish, bind.
  destruct (ack_del_evolves id p s Hok Hk Hw Hf) as [Ha _].
  destruct (command (fun _ => x_ack id) s) as [[u|e] s1]; [|done]. cbn [snd] in Ha.
  etransitivity; [exact Ha|]. destruct (evolves_known _ _ (id, p) Hf Hok Ha) as (Hf1 & Hok1 & Hk1).
  eapply (proj2 (ack_del_evolves id p s1 Hok1 (Hk1 Hk) (worked_in_mono _ _ _ (proj1 (proj2 Ha)) Hw) Hf1)).
Qed.

Lemma handled_worked task p s s' :
  decode p = Ret task -> run_handler (R := R) handler task s = (Ret tt, s') -> worked_in (sw_returned s') p.
Proof.
  intros Hd. unfold run_handler. destruct (handler task (sw_handled s)) as [o w]. intros [= -> <-].
  right. exists task. split; [done|]. by left.
Qed.

Lemma read_evolves consumer s : friendly s -> stream_ok (view s) ->
  let '(o, s') := command (fun now => x_readgroup now consumer) s in
  evolves s s' /\ forall m, o = Ret (Some m) -> known (view s') m.
Proof.
  intros Hf Hok. pose proof (command_inv (fun now => x_readgroup now consumer) s) as H.
  destruct (command _ s) as [o s']. destruct H as (now & r & Hr & Hm & Ho & Hw).
  pose proof (law_readgroup now consumer r) as Hl. rewrite Hm in Hl.
  destruct o as [out|e].
  - split.
    + split; [done|]. split; [by rewrite Hw|]. intros _. eapply rtc_r; [by apply Hr|]. by eapply mv_read.
    + intros [id p] [= ->]. destruct Hl as (Hp & Hlt & _ & ->). unfold known. cbn.
      split; [done|]. intros p' Hp'. congruence.
  - split; [|done]. split; [done|]. split; [by rewrite Hw|]. intros _. rewrite Hl. by apply Hr.
Qed.

Lemma autoclaim_evolves e min_idle cursor count s : friendly s -> stream_ok (view s) ->
  let '(o, s') := autoclaim e min_idle cursor count s in
  evolves s s' /\ forall c l, o = Ret (c, l) -> Forall (known (view s')) l.
Proof.
  intros Hf Hok. unfold autoclaim.
  pose proof (command_inv (fun now => x_autoclaim now (en_reclaim_consumer e) min_idle cursor count) s) as H.
  destruct (command _ s) as [o s']. destruct H as (now & r & Hr & Hm & Ho & Hw).
  pose proof (law_autoclaim now (en_reclaim_consumer e) min_idle cursor count r) as Hl. rewrite Hm in Hl.
  destruct o as [[c l]|x].
  - split.
    + split; [done|]. split; [by rewrite Hw|]. intros _. eapply rtc_r; [by apply Hr|]. by eapply mv_claim.
    + intros c' l' [= <- <-]. destruct (moves_ok _ _ _ (Hr Hf s) Hok) as [Hok' _].
      apply Forall_forall. intros [id p] Hin. destruct (ce_claimed _ _ _ _ _ _ _ _ _ Hl id p Hin) as (_ & _ & Hp & _ & q & Hq & _).
      unfold known. rewrite (ce_last _ _ _ _ _ _ _ _ _ Hl), (ce_entries _ _ _ _ _ _ _ _ _ Hl). cbn.
      split; [apply Hok'; by eexists|]. intros p' Hp'. congruence.
  - split; [|done]. split; [done|]. split; [by rewrite Hw|]. intros _. rewrite Hl. by apply Hr.
Qed.

Lemma consume_evolves consumer s : friendly s -> stream_ok (view s) -> evolves s (snd (consume_once handler consumer s)).
Proof.
  intros Hf Hok. unfold consume_once, bind at 1. pose proof (read_evolves consumer s Hf Hok) as H.
  destruct (command _ s) as [[[[id p]|]|e] s1]; destruct H as [He Hk]; [|done..].
  specialize (Hk _ eq_refl). unfold bind at 1, lift. destruct (decode p) as [task|e] eqn:Ed; [|done].
  unfold bind at 1. pose proof (run_handler_evolves task s1) as Hh.
  destruct (run_handler handler task s1) as [[[]|e] s2] eqn:Eh; cbn [snd] in Hh; [|by etransitivity].
  destruct (evolves_known _ _ (id, p) Hf Hok He) as (Hf1 & Hok1 & _).
  destruct (evolves_known _ _ (id, p) Hf1 Hok1 Hh) as (Hf2 & Hok2 & Hk2).
  etransitivity; [exact He|]. etransitivity; [exact Hh|]. unfold bind.
  pose proof (finish_evolves id p s2 Hok2 (Hk2 Hk) (handled_worked _ _ _ _ Ed Eh) Hf2) as Hfin.
  by destruct (finish id s2) as [[u|e] s3].
Qed.

Lemma recover_page_evolves l : forall processed s, friendly s -> stream_ok (view s) -> Forall (known (view s)) l ->
  evolves s (snd (recover_page handler l processed s)).
Proof.
  induction l as [|[id p] l IH]; intros processed s Hf Hok Hl; [done|].
  apply Forall_cons in Hl as [Hk Hl]. cbn [recover_page]. unfold bind at 1, lift.
  destruct (decode p) as [task|e] eqn:Ed; [|done]. unfold bind at 1, try_except, bind at 1, any_exception, ret.
  pose proof (run_handler_evolves task s) as Hh.
  destruct (run_handler handler task s) as [[[]|e] s1] eqn:Eh; cbn [snd] in Hh;
    destruct (evolves_known _ _ (id, p) Hf Hok Hh) as (Hf1 & Hok1 & Hk1);
    (assert (Forall (known (view s1)) l) as Hl1;
      [eapply Forall_impl; [exact Hl|]; intros m Hm; by apply (evolves_known _ _ m Hf Hok Hh)|]).
  - etransitivity; [exact Hh|]. unfold bind.
    pose proof (finish_evolves id p s1 Hok1 (Hk1 Hk) (handled_worked _ _ _ _ Ed Eh) Hf1) as Hfin.
    destruct (finish id s1) as [[u|e] s2]; cbn [snd] in Hfin; [|done].
    etransitivity; [exact Hfin|]. destruct (evolves_known _ _ (id, p) Hf1 Hok1 Hfin) as (Hf2 & Hok2 & _).
    apply IH; [done..|]. eapply Forall_impl; [exact Hl1|]. intros m Hm. by apply (evolves_known _ _ m Hf1 Hok1 Hfin).
  - etransitivity; [exact Hh|]. by apply IH.
Qed.

Lemma recover_evolves fuel e min_idle count : forall cursor processed s, friendly s -> stream_ok (view s) ->
  evolves s (snd (recover_loop handler fuel e min_idle count cursor processed s)).
Proof.
  induction fuel as [|fuel IH]; intros cursor processed s Hf Hok; [done|]. cbn [recover_loop]. unfold bind at 1.
  pose proof (autoclaim_evolves e min_idle cursor count s Hf Hok) as H.
  destruct (autoclaim e min_idle cursor count s) as [[[c l]|x] s1]; destruct H as [He Hk]; [|done].
  specialize (Hk c l eq_refl). destruct (evolves_known _ _ (0%Z, []) Hf Hok He) as (Hf1 & Hok1 & _).
  etransitivity; [exact He|]. unfold bind.
  pose proof (recover_page_evolves l processed s1 Hf1 Hok1 Hk) as Hp.
  destruct (recover_page handler l processed s1) as [[n|x] s2]; cbn [snd] in Hp; [|done].
  destruct (last_page c l); [done|]. etransitivity; [exact Hp|].
  destruct (evolves_known _ _ (0%Z, []) Hf1 Hok1 Hp) as (Hf2 & Hok2 & _). by apply IH.
Qed.

Lemma reclaim_evolves fuel e min_idle count : forall cursor claimed s, friendly s -> stream_ok (view s) ->
  evolves s (snd (reclaim_loop fuel e min_idle count cursor claimed s)).
Proof.
  induction fuel as [|fuel IH]; intros cursor claimed s Hf Hok; [done|]. cbn [reclaim_loop]. unfold bind at 1.
  pose proof (autoclaim_evolves e min_idle cursor count s Hf Hok) as H.
  destruct (autoclaim e min_idle cursor count s) as [[[c l]|x] s1]; destruct H as [He _]; [|done].
  destruct (last_page c l); [done|]. etransitivity; [exact He|].
  destruct (evolves_known _ _ (0%Z, []) Hf Hok He) as (Hf1 & Hok1 & _). by apply IH.
Qed.

(** A call of the engine, by a worker or the supervisor. *)
Inductive engine_call :=
  | Call_consume (consumer : string)
  | Call_recover (fuel : nat) (e : RecoveryEngine) (min_idle_ms count : Z)
  | Call_reclaim (fuel : nat) (e : RecoveryEngine) (min_idle_ms count : Z).

Definition engine_do (c : engine_call) s : stream_world R W :=
  match c with
  | Call_consume consumer => snd (consume_once handler consumer s)
  | Call_recover fuel e min_idle count => snd (recover_once handler fuel e min_idle count s)
  | Call_reclaim fuel e min_idle count => snd (reclaim_stale fuel e min_idle count s)
  end.

Lemma engine_do_evolves c s : friendly s -> stream_ok (view s) -> evolves s (engine_do c s).
Proof.
  intros Hf Hok. destruct c as [consumer|fuel e m n|fuel e m n]; cbn [engine_do].
  - by apply consume_evolves.
  - by apply recover_evolves.
  - unfold reclaim_stale. destruct (m <? 0)%Z; [done|]. by apply reclaim_evolves.
Qed.

(** C30. No task is lost: whatever calls workers and supervisors make, however they
    end, and whatever other clients that respect the same rules do in between, a
    message that is in the stream stays there, and stays pending once it was
    delivered, unless the handler returned for its task, in one of these calls or
    at another client. *)
Theorem stream_task_not_lost (calls : list engine_call) s (id : message_id) (p : payload)
    (Hothers : friendly s) (Hok : stream_ok (view s))
    (Hin : sv_entries (view s) !! id = Some p)
    (Hpending : (id <= sv_last (view s))%Z -> is_Some (sv_pending (view s) !! id)) :
  let s' := foldl (fun s c => engine_do c s) s calls in
  worked_in (sw_returned s') p \/
  (sv_entries (view s') !! id = Some p /\
   ((id <= sv_last (view s'))%Z -> is_Some (sv_pending (view s') !! id))).
Proof.
  intros s'. assert (evolves s s') as (_ & _ & He).
  { subst s'. clear Hin Hpending. revert s Hothers Hok. induction calls as [|c calls IH]; intros s Hf Hok; [done|].
    cbn [foldl]. pose proof (engine_do_evolves c s Hf Hok) as H. etransitivity; [exact H|].
    destruct (evolves_known _ _ (0%Z, []) Hf Hok H) as (Hf1 & Hok1 & _). by apply IH. }
  apply (moves_kept _ _ _ _ _ (He Hothers)). right. by split.
Qed.
End engine_moves.

(** ** A recovery pass that nobody disturbs *)

Lemma size_delete_all {A} (m : gmap message_id A) (ids : list message_id) :
  NoDup ids -> (forall id, id ∈ ids -> is_Some (m !! id)) ->
  size m = (length ids + size (foldr delete m ids))%nat.
Proof.
  intros Hnd. induction Hnd as [|id ids Hn Hnd IH]; intros Hin; [done|]. cbn [foldr length].
  rewrite (IH ltac:(intros i Hi; apply Hin; by right)).
  rewrite (map_size_delete_Some id).
  - assert (is_Some (foldr delete m ids !! id)) as Hs.
    { rewrite lookup_foldr_delete_not_elem_of by done. apply Hin. by left. }
    assert (size (foldr delete m ids) <> 0%nat) as Hz.
    { intros E. apply map_size_empty_inv in E. rewrite E in Hs. by destruct Hs. }
    lia.
  - rewrite lookup_foldr_delete_not_elem_of by done. apply Hin. by left.
Qed.

Lemma lookup_drop_head {A} (m : gmap message_id A) id ids i :
  (if decide (i ∈ ids) then None else delete id m !! i) = if decide (i ∈ id :: ids) then None else m !! i.
Proof.
  destruct (decide (i ∈ ids)) as [Hi|Hi]; [by rewrite decide_True by by right|].
  destruct (decide (i = id)) as [->|Hne].
  - rewrite lookup_delete_eq, decide_True; [done|by left].
  - rewrite lookup_delete_ne by done. rewrite decide_False; [done|]. by intros [?|?]%elem_of_cons.
Qed.

Section quiet.
Context {JP : JsonParse} {R W : Type} {RS : RedisStream R} {RL : StreamLaws R}.
Context (handler : dict -> M W unit).
Implicit Types (s : stream_world R W).
Abbreviation view s := (stream_of (sw_redis s)).

(** Nobody else moves, no command raises, and the clock of the server. *)
Hypothesis claim_up : forall now c m st n r, (0 < n)%Z -> exists x, fst (x_autoclaim now c m st n r) = Ret x.
Hypothesis ack_up : forall id r, exists u, fst (x_ack id r) = Ret u.
Hypothesis del_up : forall id r, exists u, fst (x_del id r) = Ret u.

Record quiet (clock : nat -> datetime) (since : nat) s : Prop := {
  q_others : forall n r, sw_others s n r = r;
  q_clock : Prelude.clock (sw_env s) = clock;
  q_ticks : (since <= ticks (sw_env s))%nat }.

(** The handler takes a payload whatever its state. *)
Definition workable (p : payload) : Prop := exists d, decode p = Ret d /\ forall w, fst (handler d w) = Ret tt.

Lemma quiet_command {A} (m : datetime -> M R A) clock since s : quiet clock since s ->
  let '(o, s') := command m s in
  exists k, (since <= k)%nat /\ m (clock k) (sw_redis s) = (o, sw_redis s') /\ quiet clock since s' /\
    sw_returned s' = sw_returned s.
Proof.
  intros [Ho Hc Ht]. unfold command. cbn [utc_now]. rewrite Ho, Hc.
  destruct (m (clock (ticks (sw_env s))) (sw_redis s)) as [o r] eqn:E. exists (ticks (sw_env s)).
  split; [done|]. split; [exact E|]. split; [|done]. split; [exact Ho|done|cbn; lia].
Qed.

Lemma undisturbed_finish clock since id s : quiet clock since s ->
  exists u s', finish id s = (Ret u, s') /\ quiet clock since s' /\ sw_returned s' = sw_returned s /\
    view s' = mkStreamView (delete id (sv_entries (view s))) (delete id (sv_pending (view s))) (sv_last (view s)).
Proof.
  intros Hq. unfold finish, bind.
  pose proof (quiet_command (fun _ => x_ack id) _ _ s Hq) as H. destruct (command (fun _ => x_ack id) s) as [o s1].
  destruct H as (k & _ & Hm & Hq1 & Hw1). pose proof (law_ack id (sw_redis s)) as Ha. rewrite Hm in Ha.
  destruct (ack_up id (sw_redis s)) as [u Hu]. rewrite Hm in Hu. cbn [fst] in Hu. subst o.
  pose proof (quiet_command (fun _ => x_del id) _ _ s1 Hq1) as H. destruct (command (fun _ => x_del id) s1) as [o s2].
  destruct H as (k' & _ & Hm' & Hq2 & Hw2). pose proof (law_del id (sw_redis s1)) as Hd. rewrite Hm' in Hd.
  destruct (del_up id (sw_redis s1)) as [u' Hu']. rewrite Hm' in Hu'. cbn [fst] in Hu'. subst o.
  exists u', s2. split; [done|]. split; [done|]. split; [by rewrite Hw2|]. rewrite Hd, Ha. done.
Qed.

Lemma quiet_page clock since l : forall processed s, quiet clock since s ->
  Forall (fun m => workable m.2) l ->
  exists s', recover_page handler l processed s = (Ret (processed + Z.of_nat (length l))%Z, s') /\
    quiet clock since s' /\ sw_returned s ⊆ sw_returned s' /\
    (forall m d, m ∈ l -> decode m.2 = Ret d -> d ∈ sw_returned s') /\
    (forall id, sv_entries (view s') !! id =
       if decide (id ∈ (fst <$> l)) then None else sv_entries (view s) !! id) /\
    (forall id, sv_pending (view s') !! id =
       if decide (id ∈ (fst <$> l)) then None else sv_pending (view s) !! id).
Proof.
  induction l as [|[id p] l IH]; intros processed s Hq Hl.
  { exists s. cbn [recover_page length]. unfold ret. rewrite Z.add_0_r. do 3 (split; [done|]).
    split; [|done]. by intros m d Hm%elem_of_nil. }
  apply Forall_cons in Hl as [(d & Hd & Hh) Hl]. cbn [recover_page]. unfold bind at 1, lift. cbn [snd] in Hd. rewrite Hd.
  unfold bind at 1, try_except, bind at 1, run_handler, ret at 1.
  specialize (Hh (sw_handled s)). destruct (handler d (sw_handled s)) as [o w]. cbn [fst] in Hh. subst o.
  set (s1 := mkStreamWorld (sw_redis s) (sw_others s) (sw_turn s) (sw_env s) w (d :: sw_returned s)).
  assert (quiet clock since s1) as Hq1 by by destruct Hq.
  destruct (undisturbed_finish clock since id s1 Hq1) as (u & s2 & Hfin & Hq2 & Hw & Hv). unfold bind. rewrite Hfin.
  destruct (IH (processed + 1)%Z s2 Hq2 Hl) as (s3 & Hrun & Hq3 & Hsub & Hret & He & Hp).
  exists s3. split; [rewrite Hrun; do 2 f_equal; cbn [length]; lia|]. split; [done|].
  rewrite Hw in Hsub. cbn [sw_returned] in Hsub. split; [intros t Ht; apply Hsub; by right|]. split.
  { intros m t [->|Hin]%elem_of_cons Ht; [|by apply (Hret m)]. apply Hsub. cbn [snd] in Ht. rewrite Hd in Ht. injection Ht as <-. by left. }
  rewrite Hv in He, Hp. cbn [sv_entries sv_pending] in He, Hp. change (view s1) with (view s) in He, Hp.
  split; intros i; [rewrite He|rewrite Hp]; apply lookup_drop_head.
Qed.

(** Every pending message is in the stream, workable and, from now on, stale. *)
Definition all_stale (clock : nat -> datetime) (since : nat) (min_idle : Z) (cursor : message_id) s : Prop :=
  forall id q, sv_pending (view s) !! id = Some q ->
    (0 < id)%Z /\ (cursor <= id)%Z /\ (exists p, sv_entries (view s) !! id = Some p /\ workable p) /\
    forall k, (since <= k)%nat -> (min_idle * 1000 <= clock k - pe_since q)%Z.

Lemma stale_page now consumer min_idle cursor count v c l v' :
  claim_effect now consumer min_idle cursor count v c l v' -> (0 < count)%Z ->
  (forall id q, sv_pending v !! id = Some q ->
    (0 < id)%Z /\ (cursor <= id)%Z /\ (exists p, sv_entries v !! id = Some p /\ workable p) /\
    (min_idle * 1000 <= now - pe_since q)%Z) ->
  Forall (fun m => workable m.2) l /\
  (forall id, id ∈ (fst <$> l) -> is_Some (sv_pending v !! id)) /\
  (forall id, id ∉ (fst <$> l) -> sv_pending v' !! id = sv_pending v !! id) /\
  (forall id, is_Some (sv_pending v !! id) -> (c = 0 \/ id < c)%Z -> id ∈ (fst <$> l)) /\
  (last_page c l = true -> c = 0%Z).
Proof.
  intros Hl Hcount Hall.
  assert (forall id, is_Some (sv_pending v !! id) -> (c = 0 \/ id < c)%Z -> id ∈ (fst <$> l)) as Hcompl.
  { intros id [q Hid] Hc. destruct (Hall id q Hid) as (Hpos & Hge & (p & Hp & _) & Hst).
    apply (ce_complete _ _ _ _ _ _ _ _ _ Hl); [done..|]. split; [by exists p|by exists q]. }
  split_and!; [| | |exact Hcompl|].
  - apply Forall_forall. intros [id p] Hin.
    destruct (ce_claimed _ _ _ _ _ _ _ _ _ Hl id p Hin) as (_ & _ & Hp & _ & q & Hid & _).
    destruct (Hall id q Hid) as (_ & _ & (p' & Hp' & Hw) & _). cbn [snd]. congruence.
  - intros id Hin. apply list_elem_of_fmap in Hin as ([i p] & -> & Hin).
    destruct (ce_claimed _ _ _ _ _ _ _ _ _ Hl i p Hin) as (_ & _ & _ & _ & q & Hid & _). by exists q.
  - intros id Hin. destruct (ce_others _ _ _ _ _ _ _ _ _ Hl id Hin) as [E|[E E']]; [done|]. rewrite E'.
    destruct (sv_pending v !! id) as [q|] eqn:Hid; [|done].
    destruct (Hall id q Hid) as (_ & _ & (p & Hp & _) & _). congruence.
  - unfold last_page. destruct (Z.eqb_spec c 0) as [|Hc]; [done|]. destruct l as [|x l]; [|done]. intros _.
    destruct (ce_examined _ _ _ _ _ _ _ _ _ Hl Hcount Hc) as (id & Hid & Hs).
    specialize (Hcompl id Hs ltac:(right; lia)). by apply elem_of_nil in Hcompl.
Qed.

(** One turn of the loop. *)
Lemma quiet_turn clock since e min_idle count cursor processed s :
  (0 < count)%Z -> quiet clock since s -> all_stale clock since min_idle cursor s ->
  exists c l s1 s2, autoclaim e min_idle cursor count s = (Ret (c, l), s1) /\
    recover_page handler l processed s1 = (Ret (processed + Z.of_nat (length l))%Z, s2) /\ quiet clock since s2 /\
    sw_returned s ⊆ sw_returned s2 /\
    (forall id p d, id ∈ (fst <$> l) -> sv_entries (view s) !! id = Some p -> decode p = Ret d -> d ∈ sw_returned s2) /\
    (forall id, sv_entries (view s2) !! id = if decide (id ∈ (fst <$> l)) then None else sv_entries (view s) !! id) /\
    (forall id, sv_pending (view s2) !! id = if decide (id ∈ (fst <$> l)) then None else sv_pending (view s) !! id) /\
    (forall id, id ∈ (fst <$> l) -> is_Some (sv_pending (view s) !! id)) /\
    (forall id, is_Some (sv_pending (view s) !! id) -> (c = 0 \/ id < c)%Z -> id ∈ (fst <$> l)) /\
    (last_page c l = true -> c = 0%Z) /\
    size (sv_pending (view s)) = (length l + size (sv_pending (view s2)))%nat.
Proof.
  intros Hcount Hq Hall.
  pose proof (quiet_command (fun now => x_autoclaim now (en_reclaim_consumer e) min_idle cursor count) _ _ s Hq) as H.
  unfold autoclaim. destruct (command _ s) as [o s1]. destruct H as (k & Hk & Hm & Hq1 & Hw1).
  destruct (claim_up (clock k) (en_reclaim_consumer e) min_idle cursor count (sw_redis s) Hcount) as [[c l] Hx].
  rewrite Hm in Hx. cbn [fst] in Hx. subst o.
  pose proof (law_autoclaim (clock k) (en_reclaim_consumer e) min_idle cursor count (sw_redis s)) as Hl.
  rewrite Hm in Hl.
  destruct (stale_page _ _ _ _ _ _ _ _ _ Hl Hcount) as (Hwork & Hin & Hout & Hcompl & Hlast).
  { intros id q Hid. destruct (Hall id q Hid) as (H1 & H2 & H3 & H4). auto. }
  destruct (quiet_page clock since l processed s1 Hq1 Hwork) as (s2 & Hpage & Hq2 & Hsub & Hret & He2 & Hp2).
  rewrite (ce_entries _ _ _ _ _ _ _ _ _ Hl) in He2.
  assert (forall id, sv_pending (view s2) !! id =
            if decide (id ∈ (fst <$> l)) then None else sv_pending (view s) !! id) as Hp2'.
  { intros id. rewrite Hp2. case_decide as Hi; [done|]. by apply Hout. }
  exists c, l, s1, s2. do 3 (split; [done|]). split; [by rewrite <- Hw1|]. split.
  { intros id p d Hi Hp Hd. apply list_elem_of_fmap in Hi as ([i q] & -> & Hi). apply (Hret (i, q) d Hi).
    destruct (ce_claimed _ _ _ _ _ _ _ _ _ Hl i q Hi) as (_ & _ & Hq' & _). cbn [fst] in Hp. cbn [snd]. congruence. }
  do 5 (split; [done|]).
  replace (sv_pending (view s2)) with (foldr delete (sv_pending (view s)) (fst <$> l)).
  - rewrite <- (length_fmap fst). apply size_delete_all; [by eapply ce_distinct|done].
  - apply map_eq. intros id. rewrite Hp2'. case_decide as Hi.
    + by apply lookup_foldr_delete.
    + by apply lookup_foldr_delete_not_elem_of.
Qed.

Lemma quiet_recover clock since e min_idle count fuel : (0 < count)%Z -> forall cursor processed s,
  quiet clock since s -> all_stale clock since min_idle cursor s -> (size (sv_pending (view s)) < fuel)%nat ->
  exists s', recover_loop handler fuel e min_idle count cursor processed s =
      (Ret (Some (processed + Z.of_nat (size (sv_pending (view s))))%Z), s') /\
    sv_pending (view s') = ∅ /\ sw_returned s ⊆ sw_returned s' /\
    (forall id p d, is_Some (sv_pending (view s) !! id) -> sv_entries (view s) !! id = Some p -> decode p = Ret d ->
       d ∈ sw_returned s') /\
    (forall id, sv_entries (view s') !! id =
       if decide (is_Some (sv_pending (view s) !! id)) then None else sv_entries (view s) !! id).
Proof.
  intros Hcount. induction fuel as [|fuel IH]; intros cursor processed s Hq Hall Hfuel; [lia|].
  destruct (quiet_turn clock since e min_idle count cursor processed s Hcount Hq Hall)
    as (c & l & s1 & s2 & Hclaim & Hpage & Hq2 & Hsub & Hret & He2 & Hp2 & Hin & Hcompl & Hlast & Hsize).
  cbn [recover_loop]. unfold bind at 1. rewrite Hclaim. unfold bind. rewrite Hpage.
  destruct (last_page c l) eqn:Elast.
  - specialize (Hlast eq_refl). assert (sv_pending (view s2) = ∅) as Hempty.
    { apply map_empty. intros id. rewrite Hp2. case_decide as Hi; [done|].
      destruct (sv_pending (view s) !! id) as [q|] eqn:Hid; [|done]. destruct Hi. apply Hcompl; [by eexists|by left]. }
    exists s2. split; [|split; [done|]; split; [done|]; split].
    + unfold ret. do 3 f_equal. rewrite Hempty, map_size_empty in Hsize. lia.
    + intros id p d Hid. apply Hret. apply Hcompl; [done|by left].
    + intros id. rewrite He2. destruct (decide (id ∈ _)) as [Hi|Hi]; destruct (decide (is_Some _)) as [Hs|Hs]; try done.
      * by destruct Hs; apply Hin.
      * destruct Hi. apply Hcompl; [done|by left].
  - unfold last_page in Elast. apply orb_false_iff in Elast as [Hc Hne]. apply Z.eqb_neq in Hc.
    destruct (IH c (processed + Z.of_nat (length l))%Z s2 Hq2) as (s3 & Hrun & Hp3 & Hsub3 & Hret3 & He3).
    + intros id q Hid. rewrite Hp2 in Hid. case_decide as Hi; [done|].
      destruct (Hall id q Hid) as (Hpos & _ & (p & Hp & Hw) & Hst). split; [done|].
      split; [destruct (decide (c <= id)%Z); [done|]; destruct Hi; apply Hcompl; [by eexists|right; lia]|].
      split; [|done]. exists p. by rewrite He2, decide_False by done.
    + assert (length l <> 0%nat) by by destruct l. lia.
    + exists s3. split; [rewrite Hrun; do 3 f_equal; lia|]. split; [done|]. split; [by transitivity (sw_returned s2)|].
      split.
      { intros id p d Hid Hp Hd. destruct (decide (id ∈ (fst <$> l))) as [Hi|Hi]; [by eapply Hsub3, Hret|].
        apply (Hret3 id p d); [|by rewrite He2, decide_False by done|done]. by rewrite Hp2, decide_False by done. }
      intros id. rewrite He3, He2, Hp2.
      destruct (decide (id ∈ _)) as [Hi|Hi]; [|done]. rewrite decide_False by by intros []. by rewrite decide_True by by apply Hin.
Qed.

Lemma quiet_now s : (forall n r, sw_others s n r = r) -> quiet (clock (sw_env s)) (ticks (sw_env s)) s.
Proof. by split. Qed.

(** C31. A pass that nobody disturbs recovers everything.  When no other client
    acts during the pass, the page size is positive, no command raises, and every
    pending message is stale, still in the stream and one the handler takes
    ([all_stale]), [recover_once] ends after at most one page more than there are
    pending messages, whatever the page size; it reports their number, the handler
    returned for each of their tasks, none is pending any more, they are gone from
    the stream and the rest of the stream is as it was.  With other clients around
    the number of pages has no bound. *)
Theorem recovery_pass_complete (fuel : nat) (e : RecoveryEngine) (min_idle_ms count : Z) s
    (Hothers : forall n r, sw_others s n r = r) (Hcount : (0 < count)%Z)
    (Hstale : all_stale (clock (sw_env s)) (ticks (sw_env s)) min_idle_ms 0 s)
    (Hfuel : (size (sv_pending (view s)) < fuel)%nat) :
  exists s', recover_once handler fuel e min_idle_ms count s =
      (Ret (Some (Z.of_nat (size (sv_pending (view s))))), s') /\
    sv_pending (view s') = ∅ /\
    (forall id p d, is_Some (sv_pending (view s) !! id) -> sv_entries (view s) !! id = Some p -> decode p = Ret d ->
       d ∈ sw_returned s') /\
    forall id, sv_entries (view s') !! id =
      if decide (is_Some (sv_pending (view s) !! id)) then None else sv_entries (view s) !! id.
Proof.
  destruct (quiet_recover _ _ e min_idle_ms count fuel Hcount 0 0 s (quiet_now s Hothers) Hstale Hfuel)
    as (s' & Hrun & Hp & _ & Hret & He).
  exists s'. by rewrite <- (Z.add_0_l (Z.of_nat (size (sv_pending (view s))))).
Qed.

(** A page without claimed messages ends the pass even if the cursor says that
    there is more: [XAUTOCLAIM] examines a bounded number of pending messages, so
    stale messages behind that many fresh ones are neither claimed nor handled,
    and the pass reports that it processed nothing. *)
Theorem empty_page_hides_stale_messages (fuel : nat) (e : RecoveryEngine) (min_idle_ms count : Z) s
    (cursor id : message_id) (r : R)
    (Hothers : forall n r, sw_others s n r = r)
    (Hpage : x_autoclaim (clock (sw_env s) (ticks (sw_env s))) (en_reclaim_consumer e) min_idle_ms 0 count (sw_redis s)
             = (Ret (cursor, []), r))
    (Hid : claimable (clock (sw_env s) (ticks (sw_env s))) min_idle_ms (view s) id) :
  exists s', recover_once handler (S fuel) e min_idle_ms count s = (Ret (Some 0%Z), s') /\
    sw_handled s' = sw_handled s /\ sv_entries (view s') = sv_entries (view s) /\
    claimable (clock (sw_env s) (ticks (sw_env s))) min_idle_ms (view s') id.
Proof.
  pose proof (law_autoclaim (clock (sw_env s) (ticks (sw_env s))) (en_reclaim_consumer e) min_idle_ms 0 count (sw_redis s)) as Hl.
  rewrite Hpage in Hl. unfold recover_once. cbn [recover_loop]. unfold autoclaim, bind at 1, command. cbn [utc_now].
  rewrite Hothers, Hpage. cbn. unfold last_page. rewrite orb_true_r. eexists. split; [done|].
  cbn [sw_handled sw_redis]. split; [done|]. pose proof (ce_entries _ _ _ _ _ _ _ _ _ Hl) as He. split; [done|].
  destruct Hid as [Hin (q & Hq & Hold)]. split; [by rewrite He|]. exists q. split; [|done].
  destruct (ce_others _ _ _ _ _ _ _ _ _ Hl id ltac:(apply not_elem_of_nil)) as [E|[E _]]; [by rewrite E|].
  rewrite E in Hin. by destruct Hin.
Qed.

(** A task that cannot be decoded stops the pass: [recover_once] raises at the
    first one, so the stale messages claimed with it and after it are not handled;
    all of them count as freshly delivered and the next pass that sees this one
    again stops there again, because [max_retries] is never looked at. *)
Theorem undecodable_task_stops_recovery (fuel : nat) (e : RecoveryEngine) (min_idle_ms count : Z) s
    (cursor id : message_id) (p : payload) (rest : list (message_id * payload)) (x : exn) (r : R)
    (Hothers : forall n r, sw_others s n r = r)
    (Hpage : x_autoclaim (clock (sw_env s) (ticks (sw_env s))) (en_reclaim_consumer e) min_idle_ms 0 count (sw_redis s)
             = (Ret (cursor, (id, p) :: rest), r))
    (Hbad : decode p = Raise x) :
  exists s', recover_once handler (S fuel) e min_idle_ms count s = (Raise x, s') /\
    sw_handled s' = sw_handled s /\ sv_entries (view s') = sv_entries (view s) /\
    forall i q, (i, q) ∈ (id, p) :: rest ->
      sv_pending (view s') !! i = Some (mkPending (en_reclaim_consumer e) (clock (sw_env s) (ticks (sw_env s)))).
Proof.
  pose proof (law_autoclaim (clock (sw_env s) (ticks (sw_env s))) (en_reclaim_consumer e) min_idle_ms 0 count (sw_redis s)) as Hl.
  rewrite Hpage in Hl. unfold recover_once. cbn [recover_loop]. unfold autoclaim, bind at 1, command. cbn [utc_now].
  rewrite Hothers, Hpage. cbn [recover_page]. unfold bind, lift. rewrite Hbad. eexists. split; [done|].
  cbn [sw_handled sw_redis]. split; [done|]. split; [apply (ce_entries _ _ _ _ _ _ _ _ _ Hl)|].
  intros i q Hin. apply (ce_mine _ _ _ _ _ _ _ _ _ Hl). apply list_elem_of_fmap. by exists (i, q).
Qed.
End quiet.

(** ** A server

    The pending messages in order; ten times the requested number are examined. *)

Definition ids_from {A} (start : Z) (m : gmap message_id A) : list message_id :=
  filter (fun id => start <= id)%Z (merge_sort Z.le (fst <$> map_to_list m)).

Fixpoint scan (ok : message_id -> bool) (attempts count : nat) (ids : list message_id) {struct ids} :
    list message_id * message_id :=
  match ids with
  | [] => ([], 0%Z)
  | id :: rest =>
      match attempts, count with
      | S a, S c => if ok id then let '(l, cursor) := scan ok a c rest in (id :: l, cursor)
                    else scan ok a (S c) rest
      | _, _ => ([], id)
      end
  end.

Definition may_claim (now : datetime) (min_idle_ms : Z) (v : stream_view) (id : message_id) : bool :=
  match sv_entries v !! id, sv_pending v !! id with
  | Some _, Some q => (min_idle_ms * 1000 <=? now - pe_since q)%Z
  | _, _ => false
  end.

Definition claim_all (now : datetime) (consumer : string) (ids : list message_id) (v : stream_view) : stream_view :=
  mkStreamView (sv_entries v) (foldr (fun id m => <[id := mkPending consumer now]> m) (sv_pending v) ids) (sv_last v).

Definition fetch (v : stream_view) (ids : list message_id) : list (message_id * payload) :=
  omap (fun id => (fun p => (id, p)) <$> sv_entries v !! id) ids.

#[export] Instance sample_stream : RedisStream stream_view := {|
  x_readgroup now consumer := fun v =>
    match ids_from (sv_last v + 1) (sv_entries v) with
    | [] => (Ret None, v)
    | id :: _ => (Ret ((fun p => (id, p)) <$> sv_entries v !! id),
                  mkStreamView (sv_entries v) (<[id := mkPending consumer now]> (sv_pending v)) id)
    end;
  x_autoclaim now consumer min_idle start count := fun v =>
    if (count <=? 0)%Z then (raise (OtherException "ResponseError") "COUNT must be > 0", v)
    else
      let n := Z.to_nat count in
      let '(l, cursor) := scan (may_claim now min_idle v) (10 * n) n (ids_from (Z.max 1 start) (sv_pending v)) in
      (Ret (cursor, fetch v l), claim_all now consumer l v);
  x_ack id := modify (fun v => mkStreamView (sv_entries v) (delete id (sv_pending v)) (sv_last v));
  x_del id := modify (fun v => mkStreamView (delete id (sv_entries v)) (sv_pending v) (sv_last v)) |}.

Lemma fetch_ids v l : (forall id, id ∈ l -> is_Some (sv_entries v !! id)) -> fst <$> fetch v l = l.
Proof.
  induction l as [|id l IH]; intros Hin; [done|]. cbn.
  destruct (Hin id ltac:(by left)) as [p ->]. cbn. f_equal. apply IH. intros i Hi. apply Hin. by right.
Qed.

Lemma elem_of_ids_from {A} start (m : gmap message_id A) id :
  id ∈ ids_from start m <-> is_Some (m !! id) /\ (start <= id)%Z.
Proof.
  unfold ids_from. rewrite list_elem_of_filter, merge_sort_Permutation, list_elem_of_fmap. split.
  - intros [Hs ([i x] & -> & Hin%elem_of_map_to_list)]. split; [by exists x|done].
  - intros [[x Hx] Hs]. split; [done|]. exists (id, x). split; [done|]. by apply elem_of_map_to_list.
Qed.

Abbreviation increasing := (StronglySorted Z.lt).

Lemma sorted_filter {A} (R : relation A) (P : A -> Prop) `{!forall x, Decision (P x)} l :
  StronglySorted R l -> StronglySorted R (filter P l).
Proof.
  induction 1 as [|x l Hs IH Hx]; [constructor|]. rewrite filter_cons. case_decide; [|done]. constructor; [done|].
  apply Forall_forall. intros y [_ Hy]%list_elem_of_filter. by apply (proj1 (Forall_forall _ _) Hx).
Qed.

Lemma ids_from_increasing {A} start (m : gmap message_id A) : increasing (ids_from start m).
Proof.
  assert (StronglySorted Z.le (ids_from start m)) as Hs.
  { unfold ids_from. apply sorted_filter, (StronglySorted_merge_sort Z.le); apply _. }
  assert (NoDup (ids_from start m)) as Hnd.
  { unfold ids_from. apply NoDup_filter. rewrite merge_sort_Permutation. apply NoDup_fst_map_to_list. }
  induction Hs as [|x l Hs IH Hx]; [constructor|]. apply NoDup_cons in Hnd as [Hn Hnd].
  constructor; [by apply IH|]. apply Forall_forall. intros y Hy.
  pose proof (proj1 (Forall_forall _ _) Hx y Hy). assert (x <> y) by by intros ->. lia.
Qed.

Lemma scan_spec ok ids : increasing ids -> Forall (fun id => 0 < id)%Z ids -> forall a n,
  let '(l, cursor) := scan ok a n ids in
  Forall (fun id => id ∈ ids /\ ok id = true /\ (cursor = 0 \/ id < cursor)%Z) l /\ NoDup l /\
  (cursor = 0%Z \/ cursor ∈ ids) /\
  (forall id, id ∈ ids -> ok id = true -> (cursor = 0 \/ id < cursor)%Z -> id ∈ l) /\
  (cursor <> 0%Z -> (0 < a)%nat -> (0 < n)%nat -> exists id, id ∈ ids /\ (id < cursor)%Z).
Proof.
  intros Hs Hpos. induction Hs as [|id ids Hs IH Hid]; intros a n; cbn [scan].
  { split; [constructor|]. split; [constructor|]. split; [by left|]. split; [|done].
    intros id Hid. by apply elem_of_nil in Hid. }
  apply Forall_cons in Hpos as [Hp Hpos]. specialize (IH Hpos).
  assert (forall c, c ∈ ids -> (id < c)%Z) as Hlt by by apply Forall_forall.
  destruct a as [|a]; [|destruct n as [|n]].
  1,2: split; [constructor|]; split; [constructor|]; split; [right; by left|]; split; [|lia];
    intros i [->|Hi]%elem_of_cons _ [Hc|Hc]; [lia..|]; specialize (Hlt i Hi); lia.
  destruct (ok id) eqn:Eok.
  - specialize (IH a n). destruct (scan ok a n ids) as [l c]. destruct IH as (H1 & H2 & H3 & H4 & H5). split_and!.
    + constructor.
      * split; [by left|]. split; [done|]. destruct H3 as [->|H3]; [by left|right; by apply Hlt].
      * eapply Forall_impl; [exact H1|]. intros i (Hi & Ho & Hc). split; [by right|done].
    + constructor; [|done]. intros Hin. apply (proj1 (Forall_forall _ _) H1) in Hin as (Hin & _). specialize (Hlt _ Hin). lia.
    + destruct H3; [by left|right; by right].
    + intros i [->|Hi]%elem_of_cons Ho Hc; [by left|right; by apply H4].
    + intros Hc _ _. exists id. split; [by left|]. destruct H3 as [|H3]; [done|by apply Hlt].
  - specialize (IH a (S n)). destruct (scan ok a (S n) ids) as [l c]. destruct IH as (H1 & H2 & H3 & H4 & H5). split_and!.
    + eapply Forall_impl; [exact H1|]. intros i (Hi & Ho & Hc). split; [by right|done].
    + done.
    + destruct H3; [by left|right; by right].
    + intros i [->|Hi]%elem_of_cons Ho Hc; [congruence|by apply H4].
    + intros Hc _ _. exists id. split; [by left|]. destruct H3 as [|H3]; [done|by apply Hlt].
Qed.

Lemma lookup_claim_all ids now c (m : gmap message_id pending_entry) id :
  foldr (fun id m => <[id := mkPending c now]> m) m ids !! id =
  if decide (id ∈ ids) then Some (mkPending c now) else m !! id.
Proof.
  induction ids as [|i ids IH]; cbn [foldr]; [by rewrite decide_False by apply not_elem_of_nil|].
  destruct (decide (id = i)) as [->|Hne].
  - rewrite lookup_insert_eq, decide_True; [done|by left].
  - rewrite lookup_insert_ne, IH by done. case_decide as Hin; [by rewrite decide_True by by right|].
    rewrite decide_False; [done|]. by intros [?|?]%elem_of_cons.
Qed.

Lemma may_claim_spec now m v id : may_claim now m v id = true <-> claimable now m v id.
Proof.
  unfold may_claim, claimable. destruct (sv_entries v !! id) as [p|].
  - destruct (sv_pending v !! id) as [q|].
    + rewrite Z.leb_le. split; [intros H; split; [by exists p|by exists q]|by intros [_ (? & [= ->] & ?)]].
    + split; [done|]. by intros [_ (? & ? & _)].
  - split; [done|]. by intros [[? ?] _].
Qed.

#[export, program] Instance sample_stream_laws : StreamLaws stream_view := {| stream_of v := v |}.
Next Obligation.
  intros now c v. cbn. pose proof (ids_from_increasing (sv_last v + 1) (sv_entries v)) as Hs.
  destruct (ids_from (sv_last v + 1) (sv_entries v)) as [|id l] eqn:E.
  - split; [done|]. intros id Hid. destruct (decide (id <= sv_last v)%Z) as [|Hgt]; [done|].
    assert (id ∈ ids_from (sv_last v + 1) (sv_entries v)) as Hin by (apply elem_of_ids_from; split; [done|lia]).
    rewrite E in Hin. by apply elem_of_nil in Hin.
  - assert (id ∈ ids_from (sv_last v + 1) (sv_entries v)) as Hin by (rewrite E; by left).
    apply elem_of_ids_from in Hin as [[p Hp] Hlt]. rewrite Hp. cbn. split; [done|]. split; [lia|]. split; [|done].
    intros i Hi. destruct (sv_entries v !! i) as [q|] eqn:Eq; [|done].
    assert (i ∈ ids_from (sv_last v + 1) (sv_entries v)) as Hin by (apply elem_of_ids_from; split; [by eexists|lia]).
    rewrite E in Hin. inversion Hs as [|? ? _ Hmin]; subst. apply elem_of_cons in Hin as [->|Hin]; [lia|].
    pose proof (proj1 (Forall_forall _ _) Hmin i Hin). lia.
Qed.
Next Obligation.
  intros now c m start n v. cbn. destruct (Z.leb_spec n 0) as [Hn|Hn]; [done|].
  pose proof (scan_spec (may_claim now m v) (ids_from (Z.max 1 start) (sv_pending v))
    (ids_from_increasing _ _) ltac:(apply Forall_forall; intros i [_ Hi]%elem_of_ids_from; lia)
    (10 * Z.to_nat n)%nat (Z.to_nat n)) as H.
  destruct (scan _ _ _ _) as [l cursor]. destruct H as (H1 & H2 & H3 & H4 & H5).
  assert (forall id, id ∈ l -> claimable now m v id) as Hok.
  { intros id Hin. apply (proj1 (Forall_forall _ _) H1) in Hin as (_ & Ho & _). by apply may_claim_spec. }
  assert (fst <$> fetch v l = l) as Hfst by (apply fetch_ids; intros id Hin; apply (Hok id Hin)).
  split; rewrite ?Hfst; try done.
  - intros id p Hin. apply list_elem_of_omap in Hin as (i & Hin & Hp).
    destruct (sv_entries v !! i) as [q|] eqn:Eq; [|done]. injection Hp as -> ->.
    pose proof (proj1 (Forall_forall _ _) H1 _ Hin) as (Hids & _ & Hc). apply elem_of_ids_from in Hids as [_ Hids].
    split; [lia|]. split; [done|]. split; [done|by apply Hok].
  - intros id Hpos Hst Hc Hcl. apply H4; [|by apply may_claim_spec|done].
    apply elem_of_ids_from. split; [|lia]. destruct Hcl as (_ & q & Hq & _). by exists q.
  - intros id Hin. cbn. by rewrite lookup_claim_all, decide_True.
  - intros id Hn'. left. cbn. by rewrite lookup_claim_all, decide_False.
  - intros Hc. destruct H3 as [|H3]; [done|]. apply elem_of_ids_from in H3 as [H3 H3'].
    split; [|done]. destruct (H5 Hc ltac:(lia) ltac:(lia)) as (i & Hi & Hlt). apply elem_of_ids_from in Hi as [_ Hi]. lia.
  - intros _ Hc. destruct (H5 Hc ltac:(lia) ltac:(lia)) as (i & Hi & Hlt). apply elem_of_ids_from in Hi as [Hs Hi].
    exists i. split; [lia|done].
Qed.
Next Obligation. done. Qed.
Next Obligation. done. Qed.

(** ** Witnesses *)

#[local] Instance sample_tasks : JsonParse := fun raw =>
  if String.eqb raw "{}" then Ret (VDict []) else raise ValueError "Expecting value".

Definition counting (_ : dict) (n : nat) : outcome unit * nat := (Ret tt, S n).
Definition failing (_ : dict) (n : nat) : outcome unit * nat := (raise RuntimeError "down", S n).

Definition task_fields (text : string) : payload := [mkField true "task_context" text].

(** Messages [1] to [n], delivered at the given times. *)
Definition sample_view (text : string) (since : list datetime) : stream_view :=
  mkStreamView (list_to_map (imap (fun i _ => (Z.of_nat (S i), task_fields text)) since))
    (list_to_map (imap (fun i t => (Z.of_nat (S i), mkPending "worker" t)) since)) (Z.of_nat (length since)).

Definition sample_world (v : stream_view) : stream_world stream_view nat :=
  mkStreamWorld v (fun _ r => r) 0 sample_env 0 [].

Definition sample_engine : RecoveryEngine := mkEngine "recovery-supervisor" 3.

Lemma sample_pending since id q : sv_pending (sample_view "{}" since) !! id = Some q ->
  (0 < id <= Z.of_nat (length since))%Z /\ pe_since q ∈ since /\
  exists p, sv_entries (sample_view "{}" since) !! id = Some p /\ p = task_fields "{}".
Proof.
  unfold sample_view. cbn [sv_pending sv_entries]. intros Hq.
  apply elem_of_list_to_map_2, elem_of_lookup_imap in Hq as (i & t & Heq & Hi).
  apply pair_eq in Heq as [-> ->].
  pose proof (lookup_lt_Some _ _ _ Hi). split; [lia|]. split; [by eapply list_elem_of_lookup_2|].
  eexists. split; [|done]. apply elem_of_list_to_map_1'.
  - intros y Hy. apply elem_of_lookup_imap in Hy as (j & u & Hj & _). by apply pair_eq in Hj as [_ ->].
  - apply elem_of_lookup_imap. by exists i, t.
Qed.

Abbreviation view s := (stream_of (sw_redis s)).

Lemma stream_task_not_lost_witness :
  let s := sample_world (sample_view "{}" [(-5000)%Z; (-4000)%Z]) in
  let s' := foldl (fun s c => engine_do failing c s) s
              [Call_recover 3 sample_engine 1 1; Call_consume "worker"; Call_reclaim 3 sample_engine 0 10] in
  sw_handled s' = 2 /\ sw_returned s' = [] /\
  (worked_in (fun _ => False) (sw_returned s') (task_fields "{}") \/
   (sv_entries (view s') !! 2%Z = Some (task_fields "{}") /\
    ((2 <= sv_last (view s'))%Z -> is_Some (sv_pending (view s') !! 2%Z)))).
Proof.
  split; [vm_compute; reflexivity|]. split; [vm_compute; reflexivity|].
  apply (stream_task_not_lost failing (fun _ => False)
    [Call_recover 3 sample_engine 1 1; Call_consume "worker"; Call_reclaim 3 sample_engine 0 10]
    (sample_world (sample_view "{}" [(-5000)%Z; (-4000)%Z])) 2%Z (task_fields "{}")).
  - intros n r. reflexivity.
  - intros id [q Hq]. apply sample_pending in Hq as [Hq _]. exact (proj2 Hq).
  - vm_compute. reflexivity.
  - intros _. eexists. vm_compute. reflexivity.
Defined.

Lemma recovery_pass_complete_witness :
  let s := sample_world (sample_view "{}" [(-5000)%Z; (-4000)%Z; (-3000)%Z]) in
  size (sv_pending (view s)) = 3 /\
  exists s', recover_once counting 4 sample_engine 1 2 s = (Ret (Some (Z.of_nat (size (sv_pending (view s))))), s') /\
    sv_pending (view s') = ∅ /\
    (forall id p d, is_Some (sv_pending (view s) !! id) -> sv_entries (view s) !! id = Some p -> decode p = Ret d ->
       d ∈ sw_returned s') /\
    forall id, sv_entries (view s') !! id =
      if decide (is_Some (sv_pending (view s) !! id)) then None else sv_entries (view s) !! id.
Proof.
  intros s. split; [vm_compute; reflexivity|].
  apply (recovery_pass_complete counting).
  - intros now c m st n r Hn. cbn. destruct (Z.leb_spec n 0) as [Hle|Hgt]; [lia|].
    destruct (scan _ _ _ _) as [l cursor]. eexists. reflexivity.
  - intros id r. eexists. reflexivity.
  - intros id r. eexists. reflexivity.
  - reflexivity.
  - lia.
  - intros id q Hq. apply sample_pending in Hq as (Hid & Hsince & p & Hp & ->).
    split; [lia|]. split; [lia|]. split.
    + eexists. split; [exact Hp|]. exists []. split; [reflexivity|]. intros w. reflexivity.
    + intros k _. cbn. repeat (apply elem_of_cons in Hsince as [->|Hsince]; [lia|]). by apply elem_of_nil in Hsince.
  - vm_compute. lia.
Defined.

(** Eleven pending messages, the last one stale: one page of one message examines
    the first ten. *)
Definition hidden : stream_view := sample_view "{}" (repeat 0%Z 10 ++ [(-5000)%Z]).

Lemma empty_page_hides_stale_messages_witness :
  let s := sample_world hidden in
  exists s', recover_once counting 5 sample_engine 1 1 s = (Ret (Some 0%Z), s') /\
    sw_handled s' = 0 /\ sv_entries (view s') = sv_entries (view s) /\
    claimable 0%Z 1 (view s') 11.
Proof.
  apply (empty_page_hides_stale_messages counting 4 sample_engine 1 1 (sample_world hidden) 11 11 hidden).
  - reflexivity.
  - vm_compute. reflexivity.
  - split; [eexists; vm_compute; reflexivity|]. eexists. split; [vm_compute; reflexivity|]. cbn. lia.
Defined.

Definition poisoned : stream_view :=
  mkStreamView {[1%Z := task_fields "not json"; 2%Z := task_fields "{}"]}
    {[1%Z := mkPending "worker" (-5000)%Z; 2%Z := mkPending "worker" (-5000)%Z]} 2.

Lemma undecodable_task_stops_recovery_witness :
  let s := sample_world poisoned in
  exists s', recover_once counting 3 sample_engine 1 10 s = (raise ValueError "Expecting value", s') /\
    sw_handled s' = 0 /\ sv_entries (view s') = sv_entries (view s) /\
    forall i q, (i, q) ∈ [(1%Z, task_fields "not json"); (2%Z, task_fields "{}")] ->
      sv_pending (view s') !! i = Some (mkPending "recovery-supervisor" 0%Z).
Proof.
  apply (undecodable_task_stops_recovery counting 2 sample_engine 1 10 (sample_world poisoned) 0 1
    (task_fields "not json") [(2%Z, task_fields "{}")] (Exn ValueError "Expecting value")
    (snd (x_autoclaim 0%Z "recovery-supervisor" 1 0 10 poisoned))).
  - reflexivity.
  - vm_compute. reflexivity.
  - reflexivity.
Defined.
