(* ===== verification/SourcePipeline.v ===== *)
(** * From source events to intelligence: [ois/runtime/source_pipeline.py]

    With [ois/runtime/source_recovery.py] and, of [ois/control_plane],
    [source_policies.py] and [source_configuration.py]: an event is authorized
    by the policy of its source, handed to the intelligence handler, retried, and
    kept as a dead letter when every attempt failed, from where it is replayed.

    All pipelines share the dead letters; each operation on them holds their lock,
    and between two of them other threads may move ([pw_others]).  A handler is an
    arbitrary computation on a state [W]; [pw_returned] records the events for
    which one returned and is read by the theorems only.  The message of an exception it raises is
    the exception's text.  Dictionaries that are only looked up or sorted are
    finite maps.

    Its theorems: what a call of [process] does and reports; no authorized event
    is lost under any interleaving as long as identifiers are unique; what
    happens when they are not; and which events a disabled source refuses. *)

From stdpp Require Import base gmap strings list sorting relations.
From Stdlib Require Import ZArith Lia.
From S2P Require Import Prelude Samples.
Local Open Scope py_scope.

(** ** [CanonicalSourceEvent] *)

Record CanonicalSourceEvent := mkSourceEvent {
  ev_event_id : string; ev_tenant_id : string; ev_workspace_id : string; ev_source_id : string;
  ev_source_record_id : string; ev_event_type : string; ev_payload : dict; ev_payload_hash : string;
  ev_observed_at : datetime; ev_schema_version : string; ev_connector_version : string; ev_metadata : dict }.

(** ** [SourcePolicyStore] *)

Definition source_key : Type := string * string * string.

Record SourcePolicy := mkSourcePolicy {
  sp_tenant_id : string; sp_workspace_id : string; sp_source_id : string; sp_enabled : bool;
  sp_allowed_event_types : list string; sp_allowed_operations : list string; sp_require_credential : bool }.

Abbreviation policies := (gmap source_key SourcePolicy).

Definition allows (p : SourcePolicy) (operation : string) (event_type : option string) : bool :=
  if negb (sp_enabled p) || negb (bool_decide (operation ∈ sp_allowed_operations p)) then false
  else bool_decide (sp_allowed_event_types p = []) ||
       match event_type with Some t => bool_decide (t ∈ sp_allowed_event_types p) | None => false end.

Definition policy_put (p : SourcePolicy) (ps : policies) : policies :=
  <[(sp_tenant_id p, sp_workspace_id p, sp_source_id p) := p]> ps.

Definition policy_get (ps : policies) (tenant workspace source : string) : outcome SourcePolicy :=
  match ps !! (tenant, workspace, source) with
  | Some p => Ret p
  | None => raise KeyError ("source policy not configured: " +:+ source)
  end.

Definition policy_authorize (ps : policies) (tenant workspace source operation : string) (event_type : option string)
    (credential_present : bool) : outcome SourcePolicy :=
  p <-? policy_get ps tenant workspace source ;;
  if sp_require_credential p && negb credential_present
  then raise PermissionError "source policy requires a credential"
  else if negb (allows p operation event_type)
  then raise PermissionError "source operation denied by control-plane policy"
  else Ret p.

(** Values of a tenant and workspace by their source. *)
Definition of_workspace {A} (m : gmap source_key A) (source : A -> string) (tenant workspace : string) : list A :=
  merge_sort (fun a b => str_le (source a) (source b))
    (snd <$> filter (fun kv => (kv.1.1.1, kv.1.1.2) = (tenant, workspace)) (map_to_list m)).

Definition policy_list (ps : policies) : string -> string -> list SourcePolicy := of_workspace ps sp_source_id.

(** ** [SourceConfigurationService] *)

Record SourceConfiguration := mkSourceConfig {
  sc_tenant_id : string; sc_workspace_id : string; sc_source_id : string; sc_provider : string;
  sc_enabled : bool; sc_credential_id : option string; sc_settings : option dict }.

Record configuration := mkConfiguration {
  cf_policies : policies; cf_configs : gmap source_key SourceConfiguration }.

Definition config_key (c : SourceConfiguration) : source_key := (sc_tenant_id c, sc_workspace_id c, sc_source_id c).

Definition config_upsert (c : SourceConfiguration) : M configuration SourceConfiguration := fun s =>
  let configs := <[config_key c := c]> (cf_configs s) in
  let existing := match policy_get (cf_policies s) (sc_tenant_id c) (sc_workspace_id c) (sc_source_id c) with
                  | Ret p => Some p
                  | Raise _ => None
                  end in
  let p := mkSourcePolicy (sc_tenant_id c) (sc_workspace_id c) (sc_source_id c) (sc_enabled c)
             (match existing with Some p => sp_allowed_event_types p | None => [] end)
             (match existing with Some p => sp_allowed_operations p | None => ["ingest"] end)
             (bool_decide (is_Some (sc_credential_id c))) in
  (Ret c, mkConfiguration (policy_put p (cf_policies s)) configs).

Definition config_get (tenant workspace source : string) : M configuration SourceConfiguration := fun s =>
  (match cf_configs s !! (tenant, workspace, source) with
   | Some c => Ret c
   | None => raise KeyError ("source configuration not found: " +:+ source)
   end, s).

Definition config_list (s : configuration) : string -> string -> list SourceConfiguration :=
  of_workspace (cf_configs s) sc_source_id.

Definition config_disable (tenant workspace source : string) : M configuration SourceConfiguration :=
  c <- config_get tenant workspace source ;;
  config_upsert (mkSourceConfig (sc_tenant_id c) (sc_workspace_id c) (sc_source_id c) (sc_provider c) false
                   (sc_credential_id c) (sc_settings c)).

(** ** [DeadLetterStore] *)

Record DeadLetter := mkDeadLetter {
  dl_event : CanonicalSourceEvent; dl_reason : string; dl_attempts : Z; dl_failed_at : datetime; dl_metadata : dict }.

Abbreviation letters := (list (string * DeadLetter)).

Definition dead_put (item : DeadLetter) : M letters bool := fun d =>
  if dmem (ev_event_id (dl_event item)) d then (Ret false, d)
  else (Ret true, dset (ev_event_id (dl_event item)) item d).

Definition dead_get (event_id : string) : M letters DeadLetter := fun d =>
  (match dget event_id d with
   | Some item => Ret item
   | None => raise KeyError ("dead-letter event not found: " +:+ event_id)
   end, d).

Definition dead_list (tenant workspace : string) : M letters (list DeadLetter) := fun d =>
  (Ret (filter (fun item => (ev_tenant_id (dl_event item), ev_workspace_id (dl_event item)) = (tenant, workspace))
          (dvalues d)), d).

Definition dead_remove (event_id : string) : M letters DeadLetter := fun d =>
  match dget event_id d with
  | Some item => (Ret item, filter (fun kv => kv.1 <> event_id) d)
  | None => (raise KeyError event_id, d)
  end.

Definition dead_size : M letters Z := fun d => (Ret (Z.of_nat (length d)), d).

(** ** [SourceRecovery] *)

Record SourceRecovery := mkSourceRecovery { sr_max_attempts : Z }.

Definition new_source_recovery (max_attempts : Z) : outcome SourceRecovery :=
  if (max_attempts <? 1)%Z then raise ValueError "max_attempts must be positive"
  else Ret (mkSourceRecovery max_attempts).

Record PipelineResult := mkPipelineResult {
  pr_event_id : string; pr_accepted : bool; pr_dead_lettered : bool; pr_reason : option string }.

Section pipeline.
Context {W : Type}.

Definition event_handler : Type := CanonicalSourceEvent -> M W unit.

Record pipeline_world := mkPipelineWorld {
  pw_dead : letters;
  pw_others : nat -> letters -> letters;
  pw_turn : nat;
  pw_env : Env;
  pw_handled : W;
  pw_returned : list CanonicalSourceEvent }.

(** [with self._lock]: others moved before. *)
Definition locked {A} (m : M letters A) : M pipeline_world A := fun s =>
  let '(o, d) := m (pw_others s (pw_turn s) (pw_dead s)) in
  (o, mkPipelineWorld d (pw_others s) (S (pw_turn s)) (pw_env s) (pw_handled s) (pw_returned s)).

Definition call_handler (handler : event_handler) (event : CanonicalSourceEvent) : M pipeline_world unit := fun s =>
  let '(o, w) := handler event (pw_handled s) in
  (o, mkPipelineWorld (pw_dead s) (pw_others s) (pw_turn s) (pw_env s) w
        (match o with Ret _ => event :: pw_returned s | Raise _ => pw_returned s end)).

Definition now_of : M pipeline_world datetime := fun s =>
  let '(t, e) := utc_now (pw_env s) in
  (Ret t, mkPipelineWorld (pw_dead s) (pw_others s) (pw_turn s) e (pw_handled s) (pw_returned s)).

(** The attempts that are left; the text of the last exception, or [None] when
    the handler returned. *)
Fixpoint attempt_each (n : nat) (event : CanonicalSourceEvent) (handler : event_handler) (last_error : string) :
    M pipeline_world (option string) :=
  match n with
  | O => ret (Some last_error)
  | S n =>
      failed <- try_except (call_handler handler event ;;; ret None) any_exception
                  (fun e => ret (Some (exn_msg e))) ;;
      match failed with
      | None => ret None
      | Some last_error => attempt_each n event handler last_error
      end
  end.

Definition recovery_run (r : SourceRecovery) (event : CanonicalSourceEvent) (handler : event_handler) :
    M pipeline_world bool :=
  failed <- attempt_each (Z.to_nat (sr_max_attempts r)) event handler "unknown failure" ;;
  match failed with
  | None => ret true
  | Some last_error =>
      failed_at <- now_of ;;
      locked (dead_put (mkDeadLetter event last_error (sr_max_attempts r) failed_at [])) ;;;
      ret false
  end.

Definition recovery_replay (r : SourceRecovery) (event_id : string) (handler : event_handler) : M pipeline_world bool :=
  item <- locked (dead_get event_id) ;;
  ok <- recovery_run r (dl_event item) handler ;;
  if negb ok then ret false
  else locked (dead_remove event_id) ;;; ret true.

(** ** [SourceIntelligencePipeline] *)

Record SourcePipeline := mkSourcePipeline { pl_recovery : SourceRecovery; pl_handler : option event_handler }.

(** [except (KeyError, PermissionError)] *)
Definition is_denial (e : exn) : bool := is_class KeyError e || is_class PermissionError e.

Definition refused (event : CanonicalSourceEvent) (reason : string) : PipelineResult :=
  mkPipelineResult (ev_event_id event) false false (Some reason).

Definition event_authorized (ps : policies) (event : CanonicalSourceEvent) (credential_verified : bool) : outcome SourcePolicy :=
  policy_authorize ps (ev_tenant_id event) (ev_workspace_id event) (ev_source_id event) "ingest"
    (Some (ev_event_type event)) credential_verified.

(** [handler or self._handler] *)
Definition processor_of (pl : SourcePipeline) (handler : option event_handler) : option event_handler :=
  match handler with Some h => Some h | None => pl_handler pl end.

(** [any(... for item in self._dead_letters.list(...))] *)
Definition holds_event (event : CanonicalSourceEvent) (items : list DeadLetter) : bool :=
  existsb (fun item => String.eqb (ev_event_id (dl_event item)) (ev_event_id event)) items.

Definition pipeline_process (pl : SourcePipeline) (ps : policies) (event : CanonicalSourceEvent)
    (handler : option event_handler) (credential_verified : bool) : M pipeline_world PipelineResult :=
  denied <- try_except (lift (event_authorized ps event credential_verified) ;;; ret None) is_denial
              (fun e => ret (Some (exn_msg e))) ;;
  match denied with
  | Some reason => ret (refused event reason)
  | None =>
      match processor_of pl handler with
      | None => ret (refused event "intelligence_handler_not_configured")
      | Some processor =>
          accepted <- recovery_run (pl_recovery pl) event processor ;;
          items <- locked (dead_list (ev_tenant_id event) (ev_workspace_id event)) ;;
          ret (mkPipelineResult (ev_event_id event) accepted (holds_event event items)
                 (if accepted : bool then None else Some "processing_failed"))
      end
  end.
End pipeline.

Arguments event_handler : clear implicits.
Arguments pipeline_world : clear implicits.
Arguments SourcePipeline : clear implicits.

(** ** What a run does *)

Section runs.
Context {W : Type}.
Implicit Types (s : pipeline_world W) (h : event_handler W) (ev : CanonicalSourceEvent) (d : letters).

(** The calls of a handler for an event, up to the first that returns: the text
    each exception has, [None] for a return. *)
Inductive tried h ev : W -> list (option string) -> W -> Prop :=
  | tr_none w : tried h ev w [] w
  | tr_returned w w' : h ev w = (Ret tt, w') -> tried h ev w [None] w'
  | tr_raised w e w1 l w' : h ev w = (Raise e, w1) -> tried h ev w1 l w' ->
      tried h ev w (Some (exn_msg e) :: l) w'.

(** The state after these calls. *)
Definition after_calls ev (l : list (option string)) (w : W) s : pipeline_world W :=
  mkPipelineWorld (pw_dead s) (pw_others s) (pw_turn s) (pw_env s) w
    (match list.last l with Some None => ev :: pw_returned s | _ => pw_returned s end).

Lemma attempt_each_spec h ev n : forall err s, exists l w',
  tried h ev (pw_handled s) l w' /\ (length l <= n)%nat /\
  attempt_each n ev h err s = (Ret (default (Some err) (list.last l)), after_calls ev l w' s) /\
  (default (Some err) (list.last l) <> None -> length l = n).
Proof.
  induction n as [|n IH]; intros err s.
  { exists [], (pw_handled s). split; [constructor|]. by destruct s. }
  cbn [attempt_each]. unfold bind at 1, try_except, bind at 1, call_handler, any_exception, ret.
  destruct (h ev (pw_handled s)) as [[[]|e] w1] eqn:E.
  - exists [None], w1. split; [by apply tr_returned|]. split; [cbn; lia|]. by split.
  - destruct (IH (exn_msg e) (after_calls ev [] w1 s)) as (l & w' & Ht & Hlen & Hrun & Hall).
    exists (Some (exn_msg e) :: l), w'. split; [by eapply tr_raised|]. split; [cbn; lia|].
    unfold after_calls. rewrite last_cons. split.
    + etransitivity; [exact Hrun|]. unfold after_calls. by destruct (list.last l) as [[|]|].
    + intros H. cbn. rewrite Hall; [done|]. by destruct (list.last l).
Qed.

Lemma dead_put_ret item d : exists b, dead_put item d = (Ret b, snd (dead_put item d)).
Proof. unfold dead_put. destruct (dmem _ _); by eexists. Qed.

(** A run: calls until one returns, and otherwise a letter after the last. *)
Lemma recovery_run_spec r h ev s : (1 <= sr_max_attempts r)%Z -> exists l w',
  tried h ev (pw_handled s) l w' /\ (1 <= Z.of_nat (length l) <= sr_max_attempts r)%Z /\
  ((list.last l = Some None /\ recovery_run r ev h s = (Ret true, after_calls ev l w' s)) \/
   (exists reason, list.last l = Some (Some reason) /\ Z.of_nat (length l) = sr_max_attempts r /\
      recovery_run r ev h s =
        (Ret false,
         mkPipelineWorld
           (snd (dead_put (mkDeadLetter ev reason (sr_max_attempts r) (fst (utc_now (pw_env s))) [])
                   (pw_others s (pw_turn s) (pw_dead s))))
           (pw_others s) (S (pw_turn s)) (snd (utc_now (pw_env s))) w' (pw_returned s)))).
Proof.
  intros Hmax. destruct (attempt_each_spec h ev (Z.to_nat (sr_max_attempts r)) "unknown failure" s)
    as (l & w' & Ht & Hlen & Hrun & Hall).
  exists l, w'. split; [done|]. unfold recovery_run, bind. rewrite Hrun.
  destruct (list.last l) as [[reason|]|] eqn:El; cbn [default] in *; unfold id in *.
  - rewrite Hall by done. split; [lia|]. right. exists reason. split; [done|]. split; [lia|].
    unfold now_of, locked, after_calls.
    destruct (dead_put_ret (mkDeadLetter ev reason (sr_max_attempts r) (fst (utc_now (pw_env s))) [])
                (pw_others s (pw_turn s) (pw_dead s))) as [b Hb].
    cbn in *. by rewrite Hb, ?El.
  - split; [|by left]. destruct l; [done|cbn in *; lia].
  - apply last_None in El as ->. specialize (Hall ltac:(done)). cbn in Hall. lia.
Qed.

(** A letter of the store as the pipeline of an event sees it. *)
Definition sees_letter ev d : Prop := exists item, item ∈ dvalues d /\
  ev_event_id (dl_event item) = ev_event_id ev /\ ev_tenant_id (dl_event item) = ev_tenant_id ev /\
  ev_workspace_id (dl_event item) = ev_workspace_id ev.

Lemma holds_event_spec ev d :
  exists items, dead_list (ev_tenant_id ev) (ev_workspace_id ev) d = (Ret items, d) /\
    (holds_event ev items = true <-> sees_letter ev d).
Proof.
  eexists. split; [done|]. unfold holds_event, sees_letter. rewrite existsb_exists. split.
  - intros (item & Hin%list_elem_of_In & E%String.eqb_eq). apply list_elem_of_filter in Hin as [[= Ht Hw] Hin]. by exists item.
  - intros (item & Hin & E & Ht & Hw). exists item. split; [|by apply String.eqb_eq].
    apply list_elem_of_In, list_elem_of_filter. split; [congruence|done].
Qed.

Lemma event_authorized_raises ps ev verified e : event_authorized ps ev verified = Raise e -> is_denial e = true.
Proof.
  unfold event_authorized, policy_authorize, policy_get, out_bind, raise.
  destruct (ps !! _) as [p|]; [|by intros [= <-]].
  destruct (sp_require_credential p && negb verified); [by intros [= <-]|].
  by destruct (negb _); [intros [= <-]|].
Qed.

(** The letter of an event whose last attempt failed for a reason. *)
Definition letter_of r ev (reason : string) s : DeadLetter :=
  mkDeadLetter ev reason (sr_max_attempts r) (fst (utc_now (pw_env s))) [].

Lemma process_run pl ps ev handler verified s h p :
  (1 <= sr_max_attempts (pl_recovery pl))%Z -> (forall n d, pw_others s n d = d) ->
  event_authorized ps ev verified = Ret p -> processor_of pl handler = Some h ->
  let '(o, s') := pipeline_process pl ps ev handler verified s in
  exists l dead_lettered,
    tried h ev (pw_handled s) l (pw_handled s') /\
    (1 <= Z.of_nat (length l) <= sr_max_attempts (pl_recovery pl))%Z /\
    (dead_lettered = true <-> sees_letter ev (pw_dead s')) /\
    match list.last l with
    | Some None =>
        o = Ret (mkPipelineResult (ev_event_id ev) true dead_lettered None) /\
        pw_dead s' = pw_dead s /\ pw_returned s' = ev :: pw_returned s
    | Some (Some reason) =>
        o = Ret (mkPipelineResult (ev_event_id ev) false dead_lettered (Some "processing_failed")) /\
        Z.of_nat (length l) = sr_max_attempts (pl_recovery pl) /\
        pw_dead s' = snd (dead_put (letter_of (pl_recovery pl) ev reason s) (pw_dead s)) /\
        pw_returned s' = pw_returned s
    | None => False
    end.
Proof.
  intros Hmax Hothers Hp Hh. unfold pipeline_process, bind at 1, try_except, lift, bind at 1, ret at 1. rewrite Hp, Hh.
  destruct (recovery_run_spec (pl_recovery pl) h ev s Hmax) as (l & w' & Ht & Hlen & [[Hl Hrun]|(reason & Hl & Hall & Hrun)]);
    unfold bind; rewrite Hrun; unfold locked; cbn [after_calls pw_others pw_turn pw_dead]; rewrite ?Hothers;
    match goal with |- context [dead_list _ _ ?d] => destruct (holds_event_spec ev d) as (items & -> & Hitems) end;
    exists l, (holds_event ev items); (split; [done|]); (split; [done|]); (split; [done|]); rewrite Hl.
  - unfold after_calls. cbn. by rewrite Hl.
  - done.
Qed.

(** What [process] does when nobody interferes.  A refused event, or one without
    a handler, changes nothing and is reported with the reason.  Otherwise the
    handler is called until it returns, at most [max_attempts] times: then the event
    is accepted and the dead letters are left alone; or every attempt raised, the
    event is not accepted, and a letter with the last error is appended unless one
    is stored under its identifier.  It is reported as dead-lettered exactly when
    its tenant and workspace hold a letter with its identifier afterwards. *)
Theorem pipeline_process_spec pl ps ev (handler : option (event_handler W)) (verified : bool) s
    (Hmax : (1 <= sr_max_attempts (pl_recovery pl))%Z) (Hothers : forall n d, pw_others s n d = d) :
  let '(o, s') := pipeline_process pl ps ev handler verified s in
  match event_authorized ps ev verified, processor_of pl handler with
  | Raise e, _ => o = Ret (refused ev (exn_msg e)) /\ s' = s
  | Ret _, None => o = Ret (refused ev "intelligence_handler_not_configured") /\ s' = s
  | Ret _, Some h =>
      exists l dead_lettered,
        tried h ev (pw_handled s) l (pw_handled s') /\
        (1 <= Z.of_nat (length l) <= sr_max_attempts (pl_recovery pl))%Z /\
        (dead_lettered = true <-> sees_letter ev (pw_dead s')) /\
        match list.last l with
        | Some None =>
            o = Ret (mkPipelineResult (ev_event_id ev) true dead_lettered None) /\
            pw_dead s' = pw_dead s /\ pw_returned s' = ev :: pw_returned s
        | Some (Some reason) =>
            o = Ret (mkPipelineResult (ev_event_id ev) false dead_lettered (Some "processing_failed")) /\
            Z.of_nat (length l) = sr_max_attempts (pl_recovery pl) /\
            pw_dead s' = (if decide (ev_event_id ev ∈ dkeys (pw_dead s)) then pw_dead s
                          else pw_dead s ++ [(ev_event_id ev, letter_of (pl_recovery pl) ev reason s)]) /\
            pw_returned s' = pw_returned s
        | None => False
        end
  end.
Proof.
  destruct (event_authorized ps ev verified) as [p|e] eqn:Hp.
  - destruct (processor_of pl handler) as [h|] eqn:Hh.
    + pose proof (process_run pl ps ev handler verified s h p Hmax Hothers Hp Hh) as H.
      destruct (pipeline_process _ _ _ _ _ s) as [o s']. destruct H as (l & dl & Ht & Hlen & Hdl & H).
      exists l, dl. do 3 (split; [done|]). destruct (list.last l) as [[reason|]|]; [|done..].
      destruct H as (Ho & Hall & Hd & Hr). do 2 (split; [done|]). split; [|done]. rewrite Hd. unfold dead_put. cbn.
      case_decide as Hin.
      * by rewrite (proj2 (dmem_spec _ _) Hin).
      * destruct (dmem (ev_event_id ev) (pw_dead s)) eqn:Em; [by apply dmem_spec in Em|].
        cbn. apply dkeys_dset_new. by apply dget_None.
    + unfold pipeline_process, bind at 1, try_except, lift, bind, ret. by rewrite Hp, Hh.
  - pose proof (event_authorized_raises _ _ _ _ Hp) as He.
    unfold pipeline_process, bind at 1, try_except, lift, bind, ret. by rewrite Hp, He.
Qed.

(** Letters are stored under the identifier of their event. *)
Definition keyed d : Prop := dict_ok d /\ forall k item, dget k d = Some item -> ev_event_id (dl_event item) = k.

Lemma sees_letter_keyed ev d : keyed d -> sees_letter ev d <->
  exists item, dget (ev_event_id ev) d = Some item /\ ev_tenant_id (dl_event item) = ev_tenant_id ev /\
    ev_workspace_id (dl_event item) = ev_workspace_id ev.
Proof.
  intros [Hok Hk]. unfold sees_letter. split.
  - intros (item & Hin & E & Ht). apply list_elem_of_fmap in Hin as ([k i] & -> & Hin). cbn in *.
    pose proof (elem_dget k i d Hok Hin) as Hg. rewrite <- E, (Hk k i Hg). by exists i.
  - intros (item & Hg & Ht). exists item. split; [|split; [by apply Hk|done]].
    apply list_elem_of_fmap. exists (ev_event_id ev, item). split; [done|by apply dget_Some_elem].
Qed.

(** Dead letters are kept by event identifier alone.  When an event of another
    tenant or workspace holds the identifier, an event whose every attempt failed
    is stored nowhere, and its result does not say that it is a dead letter. *)
Theorem colliding_event_is_lost pl ps ev (handler : option (event_handler W)) (verified : bool) s h p item
    (Hmax : (1 <= sr_max_attempts (pl_recovery pl))%Z) (Hothers : forall n d, pw_others s n d = d)
    (Hauth : event_authorized ps ev verified = Ret p) (Hh : processor_of pl handler = Some h)
    (Hfails : forall w, exists e w', h ev w = (Raise e, w'))
    (Hkeyed : keyed (pw_dead s)) (Hheld : dget (ev_event_id ev) (pw_dead s) = Some item)
    (Hother : (ev_tenant_id (dl_event item), ev_workspace_id (dl_event item)) <> (ev_tenant_id ev, ev_workspace_id ev)) :
  exists s', pipeline_process pl ps ev handler verified s =
      (Ret (mkPipelineResult (ev_event_id ev) false false (Some "processing_failed")), s') /\
    pw_dead s' = pw_dead s /\ pw_returned s' = pw_returned s /\
    (forall k i, dget k (pw_dead s') = Some i -> dl_event i = ev -> False).
Proof.
  pose proof (process_run pl ps ev handler verified s h p Hmax Hothers Hauth Hh) as H.
  destruct (pipeline_process _ _ _ _ _ s) as [o s']. destruct H as (l & dl & Ht & Hlen & Hdl & H).
  destruct (list.last l) as [[reason|]|] eqn:El; [| |done].
  - destruct H as (-> & _ & Hd & Hr).
    assert (pw_dead s' = pw_dead s) as E.
    { rewrite Hd. unfold dead_put. cbn. rewrite (proj2 (dmem_spec _ _)); [done|]. apply dget_is_Some. by eexists. }
    rewrite E in Hdl. assert (dl = false) as ->.
    { apply not_true_iff_false. rewrite Hdl, (sees_letter_keyed _ _ Hkeyed). intros (i & Hi & H1 & H2). apply Hother. congruence. }
    exists s'. do 3 (split; [done|]). intros k i Hg Hi. rewrite E in Hg. apply Hother.
    assert (k = ev_event_id ev) as -> by (rewrite <- (proj2 Hkeyed k i Hg); by rewrite Hi). by simplify_eq.
  - exfalso. clear -Ht El Hfails. induction Ht as [w|w w' H|w e w1 l w' H Ht IH]; [done| |].
    + destruct (Hfails w) as (e & w2 & H'). congruence.
    + apply IH. rewrite last_cons in El. by destruct (list.last l).
Qed.

(** A letter stays when its event is processed again and accepted: the result
    says both that the event was accepted and that it is dead-lettered, and a
    replay will hand it to the handler once more. *)
Theorem accepted_yet_dead_lettered pl ps ev (handler : option (event_handler W)) (verified : bool) s h p item
    (Hmax : (1 <= sr_max_attempts (pl_recovery pl))%Z) (Hothers : forall n d, pw_others s n d = d)
    (Hauth : event_authorized ps ev verified = Ret p) (Hh : processor_of pl handler = Some h)
    (Hworks : fst (h ev (pw_handled s)) = Ret tt)
    (Hkeyed : keyed (pw_dead s)) (Hheld : dget (ev_event_id ev) (pw_dead s) = Some item) (Hev : dl_event item = ev) :
  exists s', pipeline_process pl ps ev handler verified s =
      (Ret (mkPipelineResult (ev_event_id ev) true true None), s') /\
    pw_returned s' = ev :: pw_returned s /\ dget (ev_event_id ev) (pw_dead s') = Some item.
Proof.
  pose proof (process_run pl ps ev handler verified s h p Hmax Hothers Hauth Hh) as H.
  destruct (pipeline_process _ _ _ _ _ s) as [o s']. destruct H as (l & dl & Ht & Hlen & Hdl & H).
  assert (l = [None]) as ->.
  { inversion Ht as [w|w w' Hc|w e w1 l' w' Hc]; subst; [cbn in Hlen; lia|done|]. rewrite Hc in Hworks. done. }
  destruct H as (-> & Hd & Hr). exists s'. split; [|by rewrite Hd]. rewrite Hd in Hdl.
  do 3 f_equal. apply Hdl, sees_letter_keyed; [done|]. exists item. by subst ev.
Qed.
End runs.

(** ** Under interference *)

Section interference.
Context {W : Type}.
Implicit Types (s : pipeline_world W) (h : event_handler W) (ev : CanonicalSourceEvent) (d : letters).

(** The event each identifier stands for, and the events for which the handlers
    of other threads may have returned. *)
Context (event_of : string -> CanonicalSourceEvent) (elsewhere : CanonicalSourceEvent -> Prop).

Definition filed d : Prop := forall k item, dget k d = Some item ->
  dl_event item = event_of k /\ ev_event_id (event_of k) = k.

(** A letter leaves only when a handler returned for its event. *)
Definition settles (worked : CanonicalSourceEvent -> Prop) d d' : Prop :=
  filed d -> filed d' /\ forall k, is_Some (dget k d) -> is_Some (dget k d') \/ worked (event_of k).

Lemma settles_trans P d1 d2 d3 : settles P d1 d2 -> settles P d2 d3 -> settles P d1 d3.
Proof.
  intros H1 H2 Hf. destruct (H1 Hf) as [Hf2 Hk2]. destruct (H2 Hf2) as [Hf3 Hk3]. split; [done|].
  intros k Hk. destruct (Hk2 k Hk) as [Hk'|]; [by apply Hk3|by right].
Qed.

Lemma settles_mono (P Q : CanonicalSourceEvent -> Prop) d d' :
  (forall ev, P ev -> Q ev) -> settles P d d' -> settles Q d d'.
Proof. intros HPQ H Hf. destruct (H Hf) as [Hf' Hk]. split; [done|]. intros k Hs. destruct (Hk k Hs); auto. Qed.

Definition returned_for s ev : Prop := elsewhere ev \/ ev ∈ pw_returned s.

Definition friendly s : Prop := forall n d, settles elsewhere d (pw_others s n d).

Definition evolves s s' : Prop :=
  pw_others s' = pw_others s /\ pw_returned s ⊆ pw_returned s' /\
  (friendly s -> settles (returned_for s') (pw_dead s) (pw_dead s')).

#[local] Instance evolves_pre : PreOrder evolves.
Proof.
  split; [intros s; split; [done|]; split; [done|]; intros _ Hf; split; [done|]; by left|].
  intros s1 s2 s3 (H1 & H2 & H3) (H4 & H5 & H6). split; [congruence|]. split; [by transitivity (pw_returned s2)|].
  intros Hf. eapply settles_trans; [|apply H6; unfold friendly; by rewrite H1].
  eapply settles_mono; [|by apply H3]. intros ev [He|Hin]; [by left|right; by apply H5].
Qed.

(** An operation on the letters that settles them. *)
Lemma locked_evolves {A} (m : M letters A) s :
  (friendly s -> filed (pw_others s (pw_turn s) (pw_dead s)) ->
     let d := pw_others s (pw_turn s) (pw_dead s) in settles (returned_for s) d (snd (m d))) ->
  evolves s (snd (locked m s)).
Proof.
  unfold locked. destruct (m _) as [o d] eqn:E. cbn. intros H. split; [done|]. split; [done|]. cbn. intros Hf Hd.
  destruct (Hf (pw_turn s) (pw_dead s) Hd) as [Hd1 Hk1]. cbn in H. destruct (H Hf Hd1 Hd1) as [Hd2 Hk2].
  split; [done|]. intros k Hk. destruct (Hk1 k Hk) as [Hk'|He]; [by apply Hk2|by right; left].
Qed.

Lemma evolves_world s s' : friendly s -> filed (pw_dead s) -> evolves s s' -> friendly s' /\ filed (pw_dead s').
Proof. intros Hf Hd (Ho & _ & Hs). split; [unfold friendly; by rewrite Ho|]. by apply Hs. Qed.

(** The event is stored, or a handler returned for it. *)
Definition accounted s ev : Prop := returned_for s ev \/ is_Some (dget (ev_event_id ev) (pw_dead s)).

Lemma evolves_accounted s s' ev : friendly s -> filed (pw_dead s) -> event_of (ev_event_id ev) = ev ->
  evolves s s' -> accounted s ev -> accounted s' ev.
Proof.
  intros Hf Hd Hev (_ & Hsub & Hs) [[He|Hin]|Hk]; [by left; left|left; right; by apply Hsub|].
  destruct (proj2 (Hs Hf Hd) _ Hk) as [Hk'|Hw]; [by right|left; by rewrite <- Hev].
Qed.

Lemma put_settles P item d : event_of (ev_event_id (dl_event item)) = dl_event item ->
  settles P d (snd (dead_put item d)) /\ is_Some (dget (ev_event_id (dl_event item)) (snd (dead_put item d))).
Proof.
  intros Hev. unfold dead_put. destruct (dmem _ d) eqn:Em; cbn.
  - split; [intros Hd; split; [done|by left]|]. by apply dget_is_Some, dmem_spec.
  - split; [|rewrite dget_dset_eq; by eexists]. intros Hd. split.
    + intros k i. rewrite dget_dset. case_decide as Hk; [|apply Hd]. intros [= <-]. by rewrite Hk, Hev.
    + intros k Hk. left. rewrite dget_dset. case_decide; [by eexists|done].
Qed.

Lemma dget_filter_ne (id k : string) d :
  dget k (filter (fun kv => kv.1 <> id) d) = if decide (k = id) then None else dget k d.
Proof.
  induction d as [|[k' v] d IH]; [by case_decide|]. rewrite filter_cons. cbn [fst dget].
  destruct (decide (k' <> id)) as [Hn|Hn]; cbn [dget]; rewrite IH; destruct (String.eqb_spec k k'); subst;
    repeat case_decide; try done; naive_solver.
Qed.

Lemma remove_settles (P : CanonicalSourceEvent -> Prop) id d : P (event_of id) -> settles P d (snd (dead_remove id d)).
Proof.
  intros HP Hd. unfold dead_remove. destruct (dget id d) as [item|]; cbn; [|split; [done|by left]]. split.
  - intros k i. rewrite dget_filter_ne. case_decide; [done|]. apply Hd.
  - intros k Hk. rewrite dget_filter_ne. case_decide as E; [right; by rewrite E|by left].
Qed.

Lemma after_calls_evolves ev l (w : W) s : evolves s (after_calls ev l w s).
Proof.
  split; [done|]. split; [cbn; destruct (list.last l) as [[|]|]; set_solver|]. intros _ Hd. split; [done|by left].
Qed.

Lemma run_evolves r h ev s : friendly s -> filed (pw_dead s) -> event_of (ev_event_id ev) = ev ->
  let '(o, s') := recovery_run r ev h s in
  evolves s s' /\ accounted s' ev /\ (o = Ret true -> returned_for s' ev).
Proof.
  intros Hf Hd Hev. unfold recovery_run, bind at 1.
  destruct (attempt_each_spec h ev (Z.to_nat (sr_max_attempts r)) "unknown failure" s) as (l & w' & _ & _ & -> & _).
  pose proof (after_calls_evolves ev l w' s) as He.
  destruct (list.last l) as [[reason|]|] eqn:El; cbn [default id].
  2: { assert (returned_for (after_calls ev l w' s) ev) as Hr by (right; cbn; rewrite El; by left).
       split; [done|]. split; [by left|done]. }
  all: unfold bind at 1, now_of; cbn [utc_now];
    match goal with |- context [locked (dead_put ?i)] => set (item := i) end; unfold bind, ret;
    match goal with |- context [locked _ ?t] => set (s1 := t) end;
    assert (evolves s s1) as He1 by exact He;
    destruct (evolves_world _ _ Hf Hd He1) as [Hf1 Hd1];
    assert (evolves s1 (snd (locked (dead_put item) s1))) as He2 by
      (apply locked_evolves; intros _ _; by apply (put_settles _ item));
    assert (accounted (snd (locked (dead_put item) s1)) ev) as Hacc by
      (right; unfold locked; destruct (dead_put_ret item (pw_others s1 (pw_turn s1) (pw_dead s1))) as [b ->];
       cbn [snd pw_dead]; by apply (put_settles (fun _ => True) item));
    destruct (locked (dead_put item) s1) as [[b|e] s2]; cbn [snd] in *;
    (split; [by transitivity s1|]); split; done.
Qed.

(** Calls by any threads, each with its pipeline and the policies at the time. *)
Inductive pipeline_call :=
  | Call_process (pl : SourcePipeline W) (ps : policies) (ev : CanonicalSourceEvent) (handler : option (event_handler W))
      (verified : bool)
  | Call_replay (r : SourceRecovery) (event_id : string) (handler : event_handler W).

Definition pipeline_do (c : pipeline_call) s : pipeline_world W :=
  match c with
  | Call_process pl ps ev handler verified => snd (pipeline_process pl ps ev handler verified s)
  | Call_replay r event_id handler => snd (recovery_replay r event_id handler s)
  end.

(** An identifier is only used for its event. *)
Definition call_ok (c : pipeline_call) : Prop :=
  match c with
  | Call_process _ _ ev _ _ => event_of (ev_event_id ev) = ev
  | Call_replay _ _ _ => True
  end.

(** An event that a pipeline takes. *)
Definition taken (c : pipeline_call) ev : Prop :=
  match c with
  | Call_process pl ps ev' handler verified =>
      ev' = ev /\ (exists p, event_authorized ps ev verified = Ret p) /\ is_Some (processor_of pl handler)
  | Call_replay _ _ _ => False
  end.

Lemma lookup_evolves {A} (m : M letters A) s : (forall d, snd (m d) = d) -> evolves s (snd (locked m s)).
Proof. intros Hm. apply locked_evolves. intros _ _. cbn. rewrite Hm. intros Hd. split; [done|by left]. Qed.

Lemma process_evolves pl ps ev handler verified s :
  friendly s -> filed (pw_dead s) -> event_of (ev_event_id ev) = ev ->
  let '(_, s') := pipeline_process pl ps ev handler verified s in
  evolves s s' /\ ((exists p, event_authorized ps ev verified = Ret p) -> is_Some (processor_of pl handler) -> accounted s' ev).
Proof.
  intros Hf Hd Hev. unfold pipeline_process, bind at 1, try_except, lift, bind at 1, ret at 1.
  destruct (event_authorized ps ev verified) as [p|e] eqn:Hp.
  2: { rewrite (event_authorized_raises _ _ _ _ Hp). cbn. split; [done|]. intros [q Hq]. discriminate Hq. }
  destruct (processor_of pl handler) as [h|]; [|cbn; split; [done|]; intros _ [? Hn]; discriminate Hn].
  pose proof (run_evolves (pl_recovery pl) h ev s Hf Hd Hev) as H. unfold bind at 1.
  destruct (recovery_run _ _ _ s) as [[b|e] s1]; destruct H as (He & Hacc & _); [|cbn; auto].
  destruct (evolves_world _ _ Hf Hd He) as [Hf1 Hd1].
  pose proof (lookup_evolves (dead_list (ev_tenant_id ev) (ev_workspace_id ev)) s1 ltac:(done)) as Hl.
  unfold bind. destruct (locked _ s1) as [[items|e] s2]; cbn [snd] in *;
    (split; [by transitivity s1|]); intros _ _; exact (evolves_accounted s1 _ ev Hf1 Hd1 Hev Hl Hacc).
Qed.

Lemma replay_evolves r id h s : friendly s -> filed (pw_dead s) -> evolves s (snd (recovery_replay r id h s)).
Proof.
  intros Hf Hd. unfold recovery_replay, bind at 1.
  pose proof (lookup_evolves (dead_get id) s ltac:(done)) as Hr. unfold locked in *. cbn [dead_get] in *.
  destruct (dget id _) as [item|] eqn:Hg; cbn [snd] in *; [|done].
  destruct (evolves_world _ _ Hf Hd Hr) as [Hf1 Hd1]. destruct (Hd1 id item Hg) as [Hev Hid].
  assert (event_of (ev_event_id (dl_event item)) = dl_event item) as Hev' by (rewrite Hev; by rewrite Hid).
  unfold bind.
  match goal with |- context [recovery_run r _ h ?t] => pose proof (run_evolves r h (dl_event item) t Hf1 Hd1 Hev') as H end.
  destruct (recovery_run r _ h _) as [[[]|e] s2]; destruct H as (He & _ & Hret);
    (etransitivity; [exact Hr|]); cbn [negb]; try exact He.
  etransitivity; [exact He|]. specialize (Hret eq_refl).
  assert (evolves s2 (snd (locked (dead_remove id) s2))) as Hrem.
  { apply locked_evolves. intros _ _. apply remove_settles. by rewrite <- Hev. }
  unfold locked in Hrem. by destruct (dead_remove id _) as [[i|e] d].
Qed.

Lemma do_evolves c s : friendly s -> filed (pw_dead s) -> call_ok c -> evolves s (pipeline_do c s).
Proof.
  intros Hf Hd Hc. destruct c as [pl ps ev handler verified|r id h]; cbn.
  - pose proof (process_evolves pl ps ev handler verified s Hf Hd Hc) as H.
    by destruct (pipeline_process pl ps ev handler verified s); destruct H.
  - by apply replay_evolves.
Qed.

(** C32. No event is lost while an identifier stands for one event: whatever
    calls pipelines and replays make, with any handlers and policies, and whatever
    other threads that follow the same rules do in between, an event that a
    pipeline took, and one that was a dead letter before, ends with a handler
    having returned for it or as a dead letter that holds it. *)
Theorem source_event_not_lost (calls : list pipeline_call) s
    (Hothers : friendly s) (Hfiled : filed (pw_dead s)) (Hcalls : Forall call_ok calls) :
  let s' := foldl (fun s c => pipeline_do c s) s calls in
  forall ev, (exists c, c ∈ calls /\ taken c ev) \/ (exists item, dget (ev_event_id ev) (pw_dead s) = Some item /\ dl_event item = ev) ->
  returned_for s' ev \/ exists item, dget (ev_event_id ev) (pw_dead s') = Some item /\ dl_event item = ev.
Proof.
  intros s' ev Hev. cut (friendly s' /\ filed (pw_dead s') /\ accounted s' ev /\ event_of (ev_event_id ev) = ev).
  { intros (_ & Hd & [Hr|[item Hk]] & E); [by left|right]. exists item. split; [done|]. destruct (Hd _ _ Hk) as [-> _]. done. }
  assert ((exists c, c ∈ calls /\ taken c ev) \/ (accounted s ev /\ event_of (ev_event_id ev) = ev)) as Hev'.
  { destruct Hev as [Hev|(item & Hk & <-)]; [by left|right]. split; [right; by eexists|]. by destruct (Hfiled _ _ Hk) as [<- _]. }
  subst s'. clear Hev. revert s Hothers Hfiled Hev'.
  induction Hcalls as [|c calls Hc _ IH]; intros s Hf Hd Hev.
  { destruct Hev as [(c & Hin%elem_of_nil & _)|[Ha He]]; [done|auto]. }
  cbn [foldl]. pose proof (do_evolves c s Hf Hd Hc) as He. destruct (evolves_world _ _ Hf Hd He) as [Hf1 Hd1].
  apply IH; [done..|]. destruct Hev as [(c' & [->|Hin]%elem_of_cons & Ht)|[Ha Hev]].
  - right. destruct c as [pl ps ev' handler verified|r id h]; [|done]. destruct Ht as (-> & Hp & Hh). cbn in Hc |- *.
    split; [|done]. pose proof (process_evolves pl ps ev handler verified s Hf Hd Hc) as H.
    destruct (pipeline_process pl ps ev handler verified s); destruct H as [_ H]. by apply H.
  - left. by exists c'.
  - right. split; [|done]. exact (evolves_accounted s _ ev Hf Hd Hev He Ha).
Qed.
End interference.

(** ** Configuration *)

(** Disabling a source refuses its events, verified or not, from then on,
    keeps the event types and operations of its policy for when it is enabled
    again, and touches no other source. *)
Theorem disabled_source_refused (tenant workspace source : string) (s s' : configuration) (c : SourceConfiguration)
    (Hkeys : forall k c, cf_configs s !! k = Some c -> config_key c = k)
    (Hrun : config_disable tenant workspace source s = (Ret c, s')) :
  cf_configs s' !! (tenant, workspace, source) = Some c /\ sc_enabled c = false /\
  (forall ev verified, (ev_tenant_id ev, ev_workspace_id ev, ev_source_id ev) = (tenant, workspace, source) ->
     exists msg, event_authorized (cf_policies s') ev verified = Raise (Exn PermissionError msg)) /\
  (forall p, cf_policies s !! (tenant, workspace, source) = Some p ->
     exists p', cf_policies s' !! (tenant, workspace, source) = Some p' /\
       sp_allowed_event_types p' = sp_allowed_event_types p /\ sp_allowed_operations p' = sp_allowed_operations p) /\
  (forall k, k <> (tenant, workspace, source) ->
     cf_policies s' !! k = cf_policies s !! k /\ cf_configs s' !! k = cf_configs s !! k).
Proof.
  revert Hrun. unfold config_disable, config_get, bind. destruct (cf_configs s !! _) as [c0|] eqn:E; [|done].
  pose proof (Hkeys _ _ E) as Hk. unfold config_key in Hk. injection Hk as <- <- <-.
  unfold config_upsert, policy_put, config_key, policy_get. cbn -[gmap_empty]. intros [= <- <-]. cbn.
  rewrite !lookup_insert_eq. split; [done|]. split; [done|]. split; [|split].
  - intros ev verified [= Ht Hw Hs]. unfold event_authorized, policy_authorize, policy_get, out_bind.
    rewrite Ht, Hw, Hs, lookup_insert_eq. cbn. destruct (_ && _); by eexists.
  - intros p ->. by eexists.
  - intros k Hk. by rewrite !lookup_insert_ne by done.
Qed.

(** ** Witnesses *)

Definition sample_source_event (id tenant : string) : CanonicalSourceEvent :=
  mkSourceEvent id tenant "workspace" "source" "record" "item.created" [] "0" 0%Z "source.event.v1" "v1" [].

Definition sample_source_policy (tenant : string) : SourcePolicy :=
  mkSourcePolicy tenant "workspace" "source" true [] ["ingest"] false.

Definition sample_policies : policies :=
  policy_put (sample_source_policy "t1") (policy_put (sample_source_policy "t2") ∅).

(** Handlers count their calls: one always raises, one raises twice. *)
Definition broken (_ : CanonicalSourceEvent) (n : nat) : outcome unit * nat := (raise ValueError "down", S n).
Definition flaky (_ : CanonicalSourceEvent) (n : nat) : outcome unit * nat :=
  (if Nat.ltb n 2 then raise ValueError "down" else Ret tt, S n).

Definition sample_pipeline (h : event_handler nat) : SourcePipeline nat := mkSourcePipeline (mkSourceRecovery 3) (Some h).

Definition sample_pipeline_world (d : letters) : pipeline_world nat :=
  mkPipelineWorld d (fun _ d => d) 0 sample_env 0 [].

Definition sample_letters : letters := [("e", mkDeadLetter (sample_source_event "e" "t1") "down" 3 0%Z [])].

Lemma sample_letters_keyed : keyed sample_letters.
Proof.
  split; [apply NoDup_singleton|]. intros k item. cbn. destruct (String.eqb_spec k "e") as [->|]; [|done].
  by intros [= <-].
Qed.

Lemma pipeline_process_spec_witness :
  let '(o, s') := pipeline_process (sample_pipeline flaky) sample_policies (sample_source_event "e" "t1") None false
                    (sample_pipeline_world []) in
  exists l dead_lettered,
    tried flaky (sample_source_event "e" "t1") 0 l (pw_handled s') /\
    (1 <= Z.of_nat (length l) <= 3)%Z /\
    (dead_lettered = true <-> sees_letter (sample_source_event "e" "t1") (pw_dead s')) /\
    match list.last l with
    | Some None =>
        o = Ret (mkPipelineResult "e" true dead_lettered None) /\
        pw_dead s' = [] /\ pw_returned s' = [sample_source_event "e" "t1"]
    | Some (Some reason) =>
        o = Ret (mkPipelineResult "e" false dead_lettered (Some "processing_failed")) /\
        Z.of_nat (length l) = 3%Z /\
        pw_dead s' = (if decide ("e" ∈ dkeys (V := DeadLetter) []) then []
                      else [("e", letter_of (mkSourceRecovery 3) (sample_source_event "e" "t1") reason
                                    (sample_pipeline_world []))]) /\
        pw_returned s' = []
    | None => False
    end.
Proof.
  apply (pipeline_process_spec (sample_pipeline flaky) sample_policies (sample_source_event "e" "t1") None false
           (sample_pipeline_world [])).
  - cbn. lia.
  - reflexivity.
Defined.

Lemma colliding_event_is_lost_witness :
  exists s', pipeline_process (sample_pipeline broken) sample_policies (sample_source_event "e" "t2") None false
      (sample_pipeline_world sample_letters) = (Ret (mkPipelineResult "e" false false (Some "processing_failed")), s') /\
    pw_dead s' = sample_letters /\ pw_returned s' = [] /\
    (forall k i, dget k (pw_dead s') = Some i -> dl_event i = sample_source_event "e" "t2" -> False).
Proof.
  apply (colliding_event_is_lost (sample_pipeline broken) sample_policies (sample_source_event "e" "t2") None false
           (sample_pipeline_world sample_letters) broken (sample_source_policy "t2")
           (mkDeadLetter (sample_source_event "e" "t1") "down" 3 0%Z [])).
  - cbn. lia.
  - reflexivity.
  - vm_compute. reflexivity.
  - reflexivity.
  - intros w. eexists _, _. reflexivity.
  - apply sample_letters_keyed.
  - reflexivity.
  - cbn. intros E. discriminate E.
Defined.

Lemma accepted_yet_dead_lettered_witness :
  exists s', pipeline_process (sample_pipeline broken) sample_policies (sample_source_event "e" "t1")
      (Some (fun _ n => (Ret tt, S n))) false (sample_pipeline_world sample_letters) =
      (Ret (mkPipelineResult "e" true true None), s') /\
    pw_returned s' = [sample_source_event "e" "t1"] /\
    dget "e" (pw_dead s') = Some (mkDeadLetter (sample_source_event "e" "t1") "down" 3 0%Z []).
Proof.
  apply (accepted_yet_dead_lettered (sample_pipeline broken) sample_policies (sample_source_event "e" "t1")
           (Some (fun _ n => (Ret tt, S n))) false (sample_pipeline_world sample_letters) (fun _ n => (Ret tt, S n))
           (sample_source_policy "t1")).
  - cbn. lia.
  - reflexivity.
  - vm_compute. reflexivity.
  - reflexivity.
  - reflexivity.
  - apply sample_letters_keyed.
  - reflexivity.
  - reflexivity.
Defined.

(** One event fails for good, another one is dead-lettered and replayed. *)
Definition sample_calls : list (pipeline_call (W := nat)) :=
  [Call_process (sample_pipeline broken) sample_policies (sample_source_event "a" "t1") None false;
   Call_process (sample_pipeline broken) sample_policies (sample_source_event "b" "t2") None false;
   Call_replay (mkSourceRecovery 1) "b" flaky].

Definition sample_event_of (id : string) : CanonicalSourceEvent :=
  sample_source_event id (if String.eqb id "b" then "t2" else "t1").

Lemma source_event_not_lost_witness :
  let s' := foldl (fun s c => pipeline_do c s) (sample_pipeline_world []) sample_calls in
  (pw_handled s' = 7 /\ map fst (pw_dead s') = ["a"]) /\
  forall ev, (exists c, c ∈ sample_calls /\ taken c ev) \/
             (exists item, dget (ev_event_id ev) [] = Some item /\ dl_event item = ev) ->
    returned_for (fun _ => False) s' ev \/
    exists item, dget (ev_event_id ev) (pw_dead s') = Some item /\ dl_event item = ev.
Proof.
  split; [vm_compute; split; reflexivity|].
  apply (source_event_not_lost sample_event_of (fun _ => False) sample_calls (sample_pipeline_world [])).
  - intros n d Hd. split; [exact Hd|]. intros k Hk. left. exact Hk.
  - intros k item H. discriminate H.
  - repeat constructor.
Defined.

Definition sample_configuration : configuration :=
  mkConfiguration sample_policies
    {[("t1", "workspace", "source") := mkSourceConfig "t1" "workspace" "source" "rss" true None None]}.

Lemma disabled_source_refused_witness :
  let '(o, s') := config_disable "t1" "workspace" "source" sample_configuration in
  let c := mkSourceConfig "t1" "workspace" "source" "rss" false None None in
  o = Ret c /\
  cf_configs s' !! ("t1", "workspace", "source") = Some c /\ sc_enabled c = false /\
  (forall ev verified, (ev_tenant_id ev, ev_workspace_id ev, ev_source_id ev) = ("t1", "workspace", "source") ->
     exists msg, event_authorized (cf_policies s') ev verified = Raise (Exn PermissionError msg)) /\
  (forall p, cf_policies sample_configuration !! ("t1", "workspace", "source") = Some p ->
     exists p', cf_policies s' !! ("t1", "workspace", "source") = Some p' /\
       sp_allowed_event_types p' = sp_allowed_event_types p /\ sp_allowed_operations p' = sp_allowed_operations p) /\
  (forall k, k <> ("t1", "workspace", "source") ->
     cf_policies s' !! k = cf_policies sample_configuration !! k /\
     cf_configs s' !! k = cf_configs sample_configuration !! k).
Proof.
  destruct (config_disable "t1" "workspace" "source" sample_configuration) as [o s'] eqn:E.
  assert (o = Ret (mkSourceConfig "t1" "workspace" "source" "rss" false None None)) as ->
    by (vm_compute in E; injection E as <- _; reflexivity).
  split; [reflexivity|].
  apply (disabled_source_refused "t1" "workspace" "source" sample_configuration s'); [|exact E].
  intros k c. unfold sample_configuration. cbn [cf_configs]. intros Hc.
  apply lookup_singleton_Some in Hc as [<- <-]. reflexivity.
Defined.
